(* ===== verification/_CoqProject ===== *)
-Q . S2P
Prelude.v
Float64.v
GoTime.v
Rfc3339.v
Json.v
PIController.v
Kalman.v
Health.v
Telemetry.v
Observations.v
CommandEvidence.v
Limits.v
Units.v
BatteryModel.v
SelfTune.v
Distribution.v
CommandLog.v
Site.v
PlanIntent.v
StoragePlan.v
SlotDelivery.v
ImportHour.v
PhaseFuse.v
FuseHeat.v
ControlState.v
FuseRelief.v
FuseGuard.v
EvHeadroom.v
LoadpointData.v
BatteryBoost.v
ChargeSteps.v
SessionEnergy.v
OnePhaseCar.v
SurplusReserve.v
SurplusCharge.v
ChargeSchedule.v
V2x.v
ChargeTick.v
ChargeResume.v
ChargeSession.v
SessionStore.v
ManualHolds.v
FuseShares.v
ChargeCommand.v
EvOffers.v
EvMeterLimit.v
SafetyPipeline.v
MeterFreeze.v
TickPlan.v
PowerTarget.v
ControlLaw.v
PVCurtail.v
PlanSlots.v
PlanData.v
PlanDirective.v
Planner.v
ParamsCheck.v
PlanInputs.v
PlanRequests.v
PlanCheck.v
CoreReserve.v
CoreRecovery.v
LogRing.v
BinaryHttp.v
