(* ===== verification/Prelude.v ===== *)
(** * FTW core: a verification library

    FTW is a home-energy manager: every few seconds it reads the site meter,
    the batteries, the solar inverters and the chargers, decides what each
    battery may do, and keeps the main fuse and the batteries' own limits
    whatever the plan asks. The library models the Go code that makes that
    decision and the planner Core runs itself, under src/go/internal/, and
    proves what makes them correct.

    ** How the parts interact

    Drivers report into the telemetry store (Telemetry, Health, Kalman,
    Observations); beside it the store keeps what was sent to each device and
    what the raw readings prove of it (CommandEvidence). The control law works on one snapshot of it per tick: it
    takes the hold or the plan (TickPlan, PlanIntent, SlotDelivery), decides
    the total for the fleet (PowerTarget, PIController) and splits and ramps it
    (Distribution, StoragePlan, ControlLaw); the import account and the phase model
    give the line the site may use (ImportHour, PhaseFuse, FuseHeat); the
    safety pipeline takes the wanted commands through the fuse guard, the
    policy floors, fuse relief and the room a waiting car needs, and records
    what it sent (ControlState, FuseRelief, FuseGuard, EvHeadroom,
    SafetyPipeline). On a tick the control law leaves early, the fuse-saver of
    FuseRelief acts from live power alone. Beside the batteries, the same tick
    caps the solar inverters (PVCurtail).

    The chargers have a limit of their own, found from what the meter shows of
    the orders they were sent (EvOffers, EvMeterLimit). Their controller
    observes every charger: the energy of the session and the car's level
    (SessionEnergy, ChargeSession, SessionStore), how many phases the car takes
    (OnePhaseCar), the owner's goal and holds (ChargeSchedule, ManualHolds). It
    then chooses between the plan and the surplus (SurplusReserve,
    SurplusCharge, ChargeTick), splits the fuse budget (FuseShares) and writes
    each charger's order (ChargeSteps, ChargeCommand).

    The plan itself comes from the planner: price slots and parameters are
    checked (PlanSlots, PlanData, ParamsCheck), Core's dynamic program looks
    for the cheapest plan (Planner), a reserve plan stands in when there is no
    time or no solution (CoreReserve), and whatever is found, Core's own or
    the external optimiser's, is replayed before it is used (PlanCheck). The
    order of these is CoreRecovery. Around it the planner's service makes the
    slots from price and forecast rows (PlanInputs), lets only the newest
    request replace the plan in force (PlanRequests), and turns the action of
    the present slot into the two directives the control law and the chargers
    follow (PlanDirective: [SlotDirectiveFromMPC], [LoadpointDirective]).

    Each battery also has a learned model of its response (BatteryModel), which
    a tune of stepped commands calibrates (SelfTune). A car that can give power
    back has an envelope of its own (V2x).

    ** Files

    - Prelude: tactics, list and integer lemmas, the loop combinator [run].
    - Float64: binary64 arithmetic, exact: NaN, infinities and integers times
      2^-1074, with round-to-nearest-even; the order, monotonicity and bound
      lemmas; [within b] for bounded magnitudes, [notNeg] for values that are
      at least zero or not a number, [sumSome] for sums of bounded amounts.
    - GoTime, Rfc3339, Json: time.Time and time.Duration as integers of
      nanoseconds, time.Parse for RFC 3339, decoded JSON payloads.
    - PIController, Kalman: control/pi.go and telemetry/kalman.go.
    - Health, Telemetry: the state machine of one driver's health and the
      store, telemetry/store.go and offline.go.
    - Observations: telemetry/control_observations.go, the raw power series.
      CommandEvidence: command_evidence.go, with what [Update] and [Remove] of
      the store do to it.
    - Limits: PowerLimits, DispatchTarget, the clamps and floors of
      control/dispatch.go. Units: units/units.go.
    - BatteryModel: battery/, the learned response, its saturation curves and
      health. SelfTune: selftune/, the coordinator of a tune.
    - Distribution: the split of a fleet command and the slew projection.
    - CommandLog: commands the meter may not show yet, ev_fuse_budget.go.
    - Site: the settings of State, modes, holds, peak limit (dispatch.go,
      mode_apply.go, execution_time.go). PlanIntent: what the plan wants of
      this slot, the sign floor, the surplus accounting.
    - ImportHour: import_hour.go, the clock hour's import account.
    - PhaseFuse: fuse_phase.go and the phase relief of dispatch.go.
      FuseHeat: fuse_heat.go, the heat of the main fuse.
    - ControlState: the part of State the pipeline changes, battery_full.go,
      the records of what was sent and what the guard added.
    - FuseRelief: forceFuseDischarge, the early fuse-saver and its checks.
    - FuseGuard: applyFuseGuard, fitBatteryRisesToFuse, floorBlockedDischarge.
    - EvHeadroom: ev_battery_headroom.go and the charger draw it reads.
    - SafetyPipeline: applyDispatchSafetyPipeline, SelfTuneDispatch.
    - MeterFreeze: meter_freeze.go, a meter that repeats one reading.
    - StoragePlan: storage_plan.go, the split by planned or available energy.
    - SlotDelivery: the counters of slots that missed their plan.
    - TickPlan, PowerTarget, ControlLaw: ComputeDispatch in the code's order:
      what the tick was asked to do, how much the fleet should do, and the
      cycle as a whole. [Loop] is State with everything above the pipeline.
    - PVCurtail: ComputePVCurtail, the export guard, the planner's licence and
      the solar feed (pv_export_guard.go, pv_plan.go, solar_feed.go).
    - PlanSlots: the planner's slots, their time and limits, the meter price,
      the site's power identity, the hourly import caps (mpc, gridcost,
      loadpoint/site_power.go). PlanData: parameters, plans, the charger's
      steps, the modes. ParamsCheck: params_validation.go.
    - PlanDirective: SlotDirectiveAt, SlotAt and the plan windows of service.go,
      deadline_directive.go, control/slot_directive.go. PlanInputs: buildSlots
      and onlineFleetParams of service.go. PlanRequests: the requests of
      service.go and what publishes a plan.
    - Planner: OptimizeContext of mpc.go, backward induction and forward run.
    - PlanCheck: ValidatePlan of external_optimizer.go, the pulses of
      ev_reserve.go and the hours of import_hours.go.
    - CoreReserve, CoreRecovery: ev_reserve.go, reserve_price.go and
      core_recovery.go.
    - EvOffers, EvMeterLimit: the offers the meter may not show yet and
      stepEVMeterLimit (ev_fuse_budget.go, ev_battery_priority.go).
    - LoadpointData, ChargeSteps: the data of a charger, its steps, ceilings
      and the energy a deadline needs (loadpoint: loadpoint.go, snap.go,
      manual_limits.go, planning_steps.go, deadline_need.go).
    - SessionEnergy: session_energy.go, controller_energy.go. OnePhaseCar:
      one_phase_car.go.
    - SurplusReserve, SurplusCharge: surplus_reserve.go and the surplus side of
      controller.go.
    - ChargeSchedule: schedule.go, deadlines on the household clock.
    - ChargeSession: the runtime of one charger, [observe] of loadpoint.go,
      car.go, charging_period.go. SessionStore: session_state.go and
      vehicle_goal_state.go, what outlives a restart.
    - ManualHolds: controller_hold_restore.go, manual_hold_state.go and the
      holds of controller.go.
    - BatteryBoost: battery_boost.go. ChargeResume: controller_resume.go.
      V2x: v2x/.
    - ChargeTick, FuseShares, ChargeCommand: chooseTick, freezeFuseBudget and
      tickOne, and TickWithDispatch over all chargers.
    - LogRing: telemetry/logring.go. BinaryHttp: protocol/ohttp/bhttp.go.

    ** Modelling decisions

    A float64 is a value of [f64]; every operation rounds once and none is
    fused, as on amd64. The sign of zero is not kept: no modelled operation
    divides by a zero whose sign could be seen. math.Expm1 is a parameter with
    its documented range. A Go map is a [gmap]; where the code ranges over a
    map and the order can matter, the order is any permutation ([MapIter]).
    An operation that changes a struct through a pointer takes the old value
    and returns the new one; slices that are changed in place are lists, and
    each caller goes on with the returned list as the code does. One tick uses
    one [now]; the code calls its clock several times within a tick. The local
    time zone is its offset as a function of time. Locks, goroutines and logs
    are left out: every modelled operation runs under its component's lock.
    Readers a component is given (of the site, the forecast, the fuse budget)
    answer the same throughout one tick. A time zone is a parameter with the
    laws of [ChargeSchedule.Zones]; strings.TrimSpace is that of ASCII text.
    math.Log and math.Exp are arguments of the functions that use them. A tick of
    a tune reads the clock once. The generations of plan requests are integers
    and do not wrap at 2^64. Nil receivers, nil stores and nil states are left out: the process wires
    them before the first tick.

    A Go context is a function from the number of looks at it so far to
    whether it has ended; a computation that looks is in the monad [Polled].

    Fuel: a few loops need a bound. The one over the hours of an import gap gets
    the number of nanoseconds between the readings plus one, and
    [ImportHour.site_reading_counts_once] proves that it always ends. The one
    that shares a total over the batteries gets a round per battery and one
    more, and [StoragePlan.sharing_ends] proves that enough. The two binary
    searches of CoreRecovery get the number of slots, and
    [CoreRecovery.input_prefix_longest] and [CoreRecovery.core_plan_survives]
    prove that they find what they look for with it. The loop that lowers an order
    to its current ceiling gets three turns ([ChargeSteps.ceiling_loop_ends]), the
    list of a charger's currents a thousand, and the search for a schedule's next
    day ten dates ([ChargeSchedule.schedule_next_deadline]). Every other recursion is
    structural; the backward induction follows the list of slots.

    ** What the theorems show

    The end-to-end guarantee is [ControlLaw.compute_dispatch_safe]: on every
    way out of a control cycle only configured, online batteries are commanded
    and each command is safe. It rests on the same facts as
    [SafetyPipeline.safety_pipeline_guarantees]: for any command list and any
    state, the pipeline keeps every battery in its place, never discharges one whose
    energy is unknown, never charges one that is full, and keeps the hardware
    limits. Each stage has its own theorem: the guard and the relief only take
    power away ([FuseGuard], [FuseRelief]), rises are held back but never
    below the standing order, the split of a fleet command is inside every
    battery's limits ([Distribution]), the sign of the plan is kept
    ([PlanIntent]). The state machines have invariants over any sequence of
    events: driver health, the readings of the store, the import account, the
    raw series, the fuse's heat.
    [CommandEvidence.outstanding_order_bound] says which orders a battery may
    still be following: only a reading taken long enough after an order
    releases it from the bound. The truncated logs are equal to whole
    histories ([CommandLog], [Telemetry.polls_last_day_exact]). The relief of
    an offline battery ends ([ControlState.offline_relief_ends]).
    [FuseRelief.early_relief_lost_to_rounding] is a concrete run in which the
    fuse-saver withholds a command it should send.

    For solar curtailment, [PVCurtail.pv_curtail_commands] gives the commands
    of a tick and its bookkeeping, and [PVCurtail.zero_hold_strands_cap] shows
    where the bookkeeping loses a cap. For the planner,
    [Planner.dp_first_minimum] says each table entry is the exact first
    minimum, [Planner.plan_replays] that the plan it gives replays, and
    [Planner.exact_landing_is_lost] shows the interpolation losing a legal
    action. [PlanCheck.accepted_plan_safe] is what the replay guarantees of any
    plan, [CoreRecovery.core_plan_is_safe] carries it to everything Core plans
    itself, and [CoreRecovery.core_plan_survives] says that there is such a
    plan; [PlanCheck.mixed_maps_forget_energy] is the gap in the replay.
    [PlanRequests.newest_request_decides] and [PlanDirective.slot_directive_sound]
    take it from there: no interleaving of requests lets an older plan come into
    force or leaves a plan in use whose replacement failed, and what dispatch
    follows is the action of the present slot of a fresh plan, or a reserve for
    cars that are owed it.

    For the chargers, [EvMeterLimit] says that a reading over the limit never
    raises the cap, that a rise needs room the meter has shown, and that each
    reading acts once. [ChargeCommand.tick_orders_fit_budget] is the guarantee of
    a whole tick of the loadpoint controller: every order within its share, the
    shares within the budget; [ChargeCommand.charger_order_safe] is the same of
    one order. [ManualHolds.hold_stays_with_car] and
    [SessionStore.unplug_ends_level] keep an owner's power and a car's level from
    the next car; [ChargeSession] says when a refusal and an interruption are
    real, [SurplusCharge] that its pauses and phase choices last, [SessionEnergy]
    that the meter of a session never runs backwards. [BatteryBoost] and
    [ChargeResume] bound how long and how often; [V2x.v2x_power_allowed] is what an
    envelope may grant.

    [BatteryModel.battery_model_sound] keeps a learned model within its bounds
    over any readings, and [SelfTune.self_tune_ends] ends every tune.

    ** Not modelled

    The planning side of PV curtailment; the flag of ComputeDispatch that only
    picks a log level; of the planner's service, its divergence and drift
    checks, the challenger, the baselines, the transport to the external
    optimiser and the diagnostics; of the loadpoint package, sending and
    repeating orders, waking a car, the reload of the configuration, the JSON
    of schedules and writes of the store that fail or come late; the SQLite store
    (state) and the wire protocols other than binary HTTP. HTTP, MQTT, Modbus,
    OCPP and cloud I/O, the Lua host, the learned forecasts and the command-line
    tools are glue, third-party code or empirical. *)
From Stdlib Require Import ZArith Lia.
From stdpp Require Import base numbers list gmap strings.

#[local] Open Scope Z_scope.

(** ** Tactics shared by the whole development *)

(** Case analysis on the first boolean or option scrutinee of the goal. *)
Ltac case_scrut :=
  match goal with
  | |- context [match ?x with _ => _ end] =>
      lazymatch x with
      | context [match _ with _ => _ end] => fail
      | _ => destruct x eqn:?
      end
  end.

(** The same on a hypothesis. *)
Ltac case_scrut_in H :=
  match type of H with
  | context [match ?x with _ => _ end] =>
      lazymatch x with
      | context [match _ with _ => _ end] => fail
      | _ => destruct x eqn:?
      end
  end.

(** Split boolean connectives in the context. *)
Ltac bool_hyps :=
  repeat match goal with
  | H : _ && _ = true |- _ => apply andb_true_iff in H; destruct H
  | H : _ || _ = false |- _ => apply orb_false_iff in H; destruct H
  | H : negb _ = true |- _ => apply negb_true_iff in H
  | H : negb _ = false |- _ => apply negb_false_iff in H
  end.

(** ** Integer lemmas *)

Lemma pow2_pos (n : Z) : 0 <= n -> 0 < 2 ^ n.
Proof. intros. apply Z.pow_pos_nonneg; lia. Qed.

Lemma div_mono_frac (a d a' d' : Z) :
  0 < d -> 0 < d' -> a * d' <= a' * d -> a / d <= a' / d'.
Proof.
  intros Hd Hd' H. apply Z.div_le_lower_bound; [lia|].
  pose proof (Z.mul_div_le a d Hd). 
  assert (d * (d' * (a / d)) <= d * a') by nia. nia.
Qed.

(** ** Counting and summing over lists *)
Definition countZ {A} (p : A -> bool) (l : list A) : Z :=
  fold_right (fun x n => if p x then 1 + n else n) 0 l.
Definition sumZ (l : list Z) : Z := fold_right Z.add 0 l.

Lemma countZ_cons {A} (p : A -> bool) a l :
  countZ p (a :: l) = if p a then 1 + countZ p l else countZ p l.
Proof. reflexivity. Qed.

Lemma countZ_bounds {A} (p : A -> bool) l : 0 <= countZ p l <= Z.of_nat (length l).
Proof.
  induction l as [|a l IH]; [cbn; lia|]. rewrite countZ_cons, length_cons.
  destruct (p a); lia.
Qed.

Lemma countZ_app {A} (p : A -> bool) l l' : countZ p (l ++ l') = countZ p l + countZ p l'.
Proof.
  induction l as [|a l IH]; [reflexivity|].
  rewrite <- app_comm_cons, !countZ_cons, IH. destruct (p a); lia.
Qed.

Lemma countZ_ext {A} (p q : A -> bool) l :
  (forall x, x ∈ l -> p x = q x) -> countZ p l = countZ q l.
Proof.
  induction l as [|a l IH]; intros H; [reflexivity|]. rewrite !countZ_cons.
  rewrite IH by (intros; apply H; now right). rewrite (H a) by now left. reflexivity.
Qed.

Lemma countZ_none {A} (p : A -> bool) l : (forall x, x ∈ l -> p x = false) -> countZ p l = 0.
Proof.
  intros H. rewrite (countZ_ext p (fun _ => false)) by exact H.
  induction l; [reflexivity|]. apply IHl. intros. apply H. now right.
Qed.

Lemma countZ_pos {A} (p : A -> bool) l x : x ∈ l -> p x = true -> 0 < countZ p l.
Proof.
  intros Hx Hp. induction Hx as [y l|y z l Hx IH]; rewrite countZ_cons.
  - rewrite Hp. pose proof (countZ_bounds p l). lia.
  - destruct (p z); specialize (IH Hp); lia.
Qed.

Lemma sumZ_indicator x n :
  0 <= x -> sumZ (map (fun i => if x =? Z.of_nat i then 1 else 0) (seq 0 n)) =
            if x <? Z.of_nat n then 1 else 0.
Proof.
  intros Hx. induction n as [|n IH]; [destruct (Z.ltb_spec x (Z.of_nat 0)); cbn; lia|].
  rewrite seq_S, map_app. unfold sumZ in *. rewrite fold_right_app. cbn [map fold_right].
  assert (E : forall l a, fold_right Z.add a l = fold_right Z.add 0 l + a).
  { induction l as [|b l IHl]; intros a; cbn; [lia|]. rewrite IHl. lia. }
  rewrite E, IH, Nat.add_0_l.
  destruct (Z.ltb_spec x (Z.of_nat n)), (Z.ltb_spec x (Z.of_nat (S n))),
    (Z.eqb_spec x (Z.of_nat n)); lia.
Qed.

(** Counting by class: the counts of the classes add up. *)
Lemma countZ_partition {A} (p : A -> bool) (f : A -> Z) n l :
  (forall x, x ∈ l -> 0 <= f x < Z.of_nat n) ->
  sumZ (map (fun i => countZ (fun x => p x && (f x =? Z.of_nat i)) l) (seq 0 n)) = countZ p l.
Proof.
  induction l as [|a l IH]; intros H.
  - cbn [countZ fold_right]. induction (seq 0 n) as [|i s IHs]; [reflexivity|]. cbn. exact IHs.
  - rewrite countZ_cons, <- IH by (intros; apply H; now right).
    assert (Ha : 0 <= f a < Z.of_nat n) by (apply H; now left).
    pose proof (sumZ_indicator (f a) n ltac:(lia)) as E.
    destruct (Z.ltb_spec (f a) (Z.of_nat n)); [|lia].
    revert E. generalize (seq 0 n) as s. unfold sumZ.
    assert (G : forall s, fold_right Z.add 0 (map (fun i =>
       if p a && (f a =? Z.of_nat i) then 1 + countZ (fun x => p x && (f x =? Z.of_nat i)) l
       else countZ (fun x => p x && (f x =? Z.of_nat i)) l) s) =
       (if p a then fold_right Z.add 0 (map (fun i => if f a =? Z.of_nat i then 1 else 0) s) else 0)
       + fold_right Z.add 0 (map (fun i => countZ (fun x => p x && (f x =? Z.of_nat i)) l) s)).
    { induction s as [|i s IHs]; cbn [map fold_right]; [destruct (p a); lia|].
      rewrite IHs. destruct (p a), (f a =? Z.of_nat i); cbn [andb]; lia. }
    intros s E. etransitivity; [exact (G s)|]. rewrite E. destruct (p a); lia.
Qed.

(** ** Strings *)
Lemma string_app_cons c (s t : string) : (String c s +:+ t)%string = String c (s +:+ t).
Proof. reflexivity. Qed.

Lemma prefix_cons c s t : String.prefix (String c s) (String c t) = String.prefix s t.
Proof. cbn. destruct (Ascii.ascii_dec c c); [reflexivity|contradiction]. Qed.

Lemma prefix_app_mid (d m x : string) : String.prefix (d +:+ m) (d +:+ (m +:+ x)) = true.
Proof.
  induction d as [|c d IH].
  - change (String.prefix m (m +:+ x) = true). induction m as [|c m IH]; [now destruct x|].
    rewrite string_app_cons, prefix_cons. exact IH.
  - rewrite !string_app_cons, prefix_cons. exact IH.
Qed.

(** ** Filtering by a boolean *)
Lemma filter_all {A} (p : A -> bool) v (l : list A) : (forall x, x ∈ l -> p x = v) -> filter (fun x => p x = v) l = l.
Proof.
  induction l as [|a l IH]; intros H; [reflexivity|].
  rewrite filter_cons_True by (apply H; now left). f_equal. apply IH. intros x Hx. apply H. now right.
Qed.

Lemma filter_split {A} (p : A -> bool) (l : list A) :
  filter (fun x => p x = false) l ++ filter (fun x => p x = true) l ≡ₚ l.
Proof.
  induction l as [|a l IH]; [reflexivity|]. destruct (p a) eqn:E.
  - rewrite filter_cons_False by congruence. rewrite filter_cons_True by exact E.
    rewrite <- Permutation_middle. now rewrite IH.
  - rewrite filter_cons_True by exact E. rewrite filter_cons_False by congruence.
    cbn [app]. now rewrite IH.
Qed.

(** ** Loops
    [run f p a] takes at most [p] steps of the loop body [f], which goes on
    with a new state ([inl]) or leaves the loop with a result ([inr]). The
    fuel is binary, so a bound of [2 ^ 63] steps costs nothing. *)
Fixpoint run {A B : Type} (f : A -> A + B) (p : positive) (a : A) : A + B :=
  let twice q a := match run f q a with inl a' => run f q a' | inr b => inr b end in
  match p with
  | xH => f a
  | xO q => twice q a
  | xI q => match f a with inl a' => twice q a' | inr b => inr b end
  end.

Lemma run_invariant {A B : Type} (I : A -> Prop) (Q : B -> Prop) (f : A -> A + B) :
  (forall a, I a -> match f a with inl a' => I a' | inr b => Q b end) ->
  forall p a, I a -> match run f p a with inl a' => I a' | inr b => Q b end.
Proof.
  intros Hf. assert (T : forall q a, (forall a, I a -> match run f q a with inl a' => I a' | inr b => Q b end) ->
    I a -> match (match run f q a with inl a' => run f q a' | inr b => inr b end) with
           | inl a' => I a' | inr b => Q b end).
  { intros q a Hq Ha. specialize (Hq a Ha) as H1. destruct (run f q a) as [a'|b]; [now apply Hq|exact H1]. }
  induction p as [q IH|q IH|]; intros a Ha; cbn [run].
  - specialize (Hf a Ha). destruct (f a) as [a'|b]; [now apply T|exact Hf].
  - now apply T.
  - now apply Hf.
Qed.

(** A loop whose measure falls on every further step stops within it. *)
Lemma run_stops {A B : Type} (I : A -> Prop) (m : A -> Z) (f : A -> A + B) :
  (forall a a', I a -> f a = inl a' -> I a' /\ 0 <= m a' < m a) ->
  forall p a, I a -> m a < Zpos p -> exists b, run f p a = inr b.
Proof.
  intros Hf.
  assert (D : forall p a a', I a -> run f p a = inl a' -> I a' /\ 0 <= m a' <= m a - Zpos p).
  { assert (T : forall q a a', (forall a a', I a -> run f q a = inl a' -> I a' /\ 0 <= m a' <= m a - Zpos q) ->
      I a -> match run f q a with inl a' => run f q a' | inr b => inr b end = inl a' ->
      I a' /\ 0 <= m a' <= m a - 2 * Zpos q).
    { intros q a a' Hq Ha E. destruct (run f q a) as [a1|b] eqn:E1; [|discriminate].
      destruct (Hq _ _ Ha E1) as [H1 M1]. destruct (Hq _ _ H1 E). split; [assumption|lia]. }
    induction p as [q IH|q IH|]; intros a a' Ha E; cbn [run] in E.
    - destruct (f a) as [a1|b] eqn:E1; [|discriminate]. destruct (Hf _ _ Ha E1) as [H1 M1].
      destruct (T _ _ _ IH H1 E). split; [assumption|lia].
    - destruct (T _ _ _ IH Ha E). split; [assumption|lia].
    - destruct (Hf _ _ Ha E). split; [assumption|lia]. }
  intros p a Ha Hm. destruct (run f p a) as [a'|b] eqn:E; [|eauto].
  destruct (D _ _ _ Ha E). lia.
Qed.
