(* ===== verification/Float64.v ===== *)
(** * Go's [float64]: IEEE-754 binary64 with exact rounding *)
From S2P Require Import Prelude.
From Stdlib Require Import ZArith Lia.
From stdpp Require Import base numbers decidable.
#[local] Open Scope Z_scope.

Inductive f64 : Type :=
| NaN
| Inf (neg : bool)
| Fin (z : Z).

#[export] Instance f64_eq_dec : EqDecision f64.
Proof. solve_decision. Defined.

Definition unit64 : Z := Z.pow 2 1074.
Definition overflow64 : Z := Z.pow 2 (1024 + 1074).

(** Round half to even of [p / q], [0 < q]. *)
Definition rne (p q : Z) : Z :=
  let f := p / q in
  match 2 * (p mod q) ?= q with
  | Lt => f
  | Gt => f + 1
  | Eq => if Z.even f then f else f + 1
  end.

(** The exponent (in units) of the 53-bit window that holds [a / d]. *)
#[global] Arguments unit64 : simpl never.
#[global] Arguments overflow64 : simpl never.

Definition expo (q : Z) : Z := Z.max 0 (Z.log2 q - 52).

Definition rnd_abs (a d : Z) : Z :=
  let e := expo (a / d) in rne a (d * 2 ^ e) * 2 ^ e.

Definition rnd (n d : Z) : f64 :=
  let r := rnd_abs (Z.abs n) d in
  if overflow64 <=? r then Inf (n <? 0) else Fin (Z.sgn n * r).

(** ** Conversions and literals *)
Definition of_Z (n : Z) : f64 := rnd (n * unit64) 1.
Definition lit (n d : Z) : f64 := rnd (n * unit64) d.

(** ** Arithmetic *)
Definition fneg (x : f64) : f64 :=
  match x with NaN => NaN | Inf s => Inf (negb s) | Fin z => Fin (- z) end.

Definition fabs (x : f64) : f64 :=
  match x with NaN => NaN | Inf _ => Inf false | Fin z => Fin (Z.abs z) end.

(** [math.Copysign] with the sign of a value that is not zero. *)
Definition copysign (x s : f64) : f64 := if match s with Fin z => z <? 0 | Inf n => n | NaN => false end then fneg (fabs x) else fabs x.

Definition fadd (x y : f64) : f64 :=
  match x, y with
  | NaN, _ | _, NaN => NaN
  | Inf s, Inf t => if Bool.eqb s t then Inf s else NaN
  | Inf s, Fin _ | Fin _, Inf s => Inf s
  | Fin a, Fin b => rnd (a + b) 1
  end.

Definition fsub (x y : f64) : f64 := fadd x (fneg y).

Definition fmul (x y : f64) : f64 :=
  match x, y with
  | NaN, _ | _, NaN => NaN
  | Inf s, Inf t => Inf (xorb s t)
  | Inf s, Fin z | Fin z, Inf s =>
      if z =? 0 then NaN else Inf (xorb s (z <? 0))
  | Fin a, Fin b => rnd (a * b) unit64
  end.

Definition fdiv (x y : f64) : f64 :=
  match x, y with
  | NaN, _ | _, NaN => NaN
  | Inf _, Inf _ => NaN
  | Inf s, Fin z => Inf (xorb s (z <? 0))
  | Fin _, Inf _ => Fin 0
  | Fin a, Fin b =>
      if b =? 0 then (if a =? 0 then NaN else Inf (a <? 0))
      else rnd (Z.sgn b * a * unit64) (Z.abs b)
  end.

Definition fsqrt (x : f64) : f64 :=
  match x with
  | NaN | Inf true => NaN
  | Inf false => Inf false
  | Fin a =>
      if a <? 0 then NaN
      else let n := a * unit64 in
           let s := Z.sqrt n in
           if s * s =? n then rnd s 1 else rnd (2 * s + 1) 2
  end.

Definition ffloor (x : f64) : f64 :=
  match x with Fin z => Fin (z / unit64 * unit64) | _ => x end.

(** [int(x)] on amd64: truncation, and the smallest integer out of range. *)
Definition int_of (x : f64) : Z :=
  match x with
  | Fin z => let i := Z.quot z unit64 in if (- 2 ^ 63 <=? i) && (i <? 2 ^ 63) then i else - 2 ^ 63
  | _ => - 2 ^ 63
  end.

(** ** Comparisons (all false on NaN) *)
Definition fcompare (x y : f64) : option comparison :=
  match x, y with
  | NaN, _ | _, NaN => None
  | Fin a, Fin b => Some (a ?= b)
  | Inf s, Inf t =>
      Some (if Bool.eqb s t then Eq else if s then Lt else Gt)
  | Inf s, Fin _ => Some (if s then Lt else Gt)
  | Fin _, Inf t => Some (if t then Gt else Lt)
  end.

Definition flt (x y : f64) : bool :=
  match fcompare x y with Some Lt => true | _ => false end.
Definition fle (x y : f64) : bool :=
  match fcompare x y with Some Lt | Some Eq => true | _ => false end.
Definition feq (x y : f64) : bool :=
  match fcompare x y with Some Eq => true | _ => false end.
Definition fne (x y : f64) : bool := negb (feq x y).

Definition isNaN (x : f64) : bool := match x with NaN => true | _ => false end.
Definition isInf (x : f64) : bool := match x with Inf _ => true | _ => false end.
Definition finite (x : f64) : bool := match x with Fin _ => true | _ => false end.

(** Go's [math.Min] and [math.Max]: an infinity on the winning side comes
    before the NaN rule. *)
Definition fmin (x y : f64) : f64 :=
  match x, y with
  | Inf true, _ | _, Inf true => Inf true
  | NaN, _ | _, NaN => NaN
  | _, _ => if flt x y then x else y
  end.
Definition fmax (x y : f64) : f64 :=
  match x, y with
  | Inf false, _ | _, Inf false => Inf false
  | NaN, _ | _, NaN => NaN
  | _, _ => if flt y x then x else y
  end.

Declare Scope f64_scope.
Delimit Scope f64_scope with f.
Bind Scope f64_scope with f64.
Infix "+" := fadd : f64_scope.
Infix "-" := fsub : f64_scope.
Infix "*" := fmul : f64_scope.
Infix "/" := fdiv : f64_scope.
Notation "- x" := (fneg x) : f64_scope.
Infix "<?" := flt : f64_scope.
Infix "<=?" := fle : f64_scope.
Notation "x >? y" := (flt y x) (only parsing) : f64_scope.
Notation "x >=? y" := (fle y x) (only parsing) : f64_scope.
Infix "=?" := feq : f64_scope.
Infix "<>?" := fne (at level 70) : f64_scope.
Notation "'#' n" := (of_Z n) (at level 1, n at level 0, format "'#' n") : f64_scope.

(** ** Order view: every float is a rank and an integer *)

(** [rank] orders the infinities around the finite values; NaN has rank 2,
    which no comparison admits. [val] is the integer of a finite value. *)
Definition rank (x : f64) : Z :=
  match x with NaN => 2 | Inf true => -1 | Inf false => 1 | Fin _ => 0 end.
Definition val (x : f64) : Z := match x with Fin z => z | _ => 0 end.

(** What the solver knows of one float. *)
Definition rank_ok (x : f64) : Prop :=
  -1 <= rank x <= 2 /\ (rank x <> 0 -> val x = 0).

(** A value a float64 variable can hold: a 53-bit multiple of a power of 2. *)
Definition wf (x : f64) : Prop :=
  match x with Fin z => rnd z 1 = Fin z | _ => True end.

(** ** Rounding *)

Lemma unit64_pos : 0 < unit64.
Proof. apply pow2_pos. lia. Qed.

Lemma overflow64_pos : 0 < overflow64.
Proof. apply pow2_pos. lia. Qed.

Lemma expo_nonneg q : 0 <= expo q.
Proof. unfold expo. lia. Qed.

Lemma rne_bounds p q : 0 < q -> p / q <= rne p q <= p / q + 1.
Proof.
  intros Hq. unfold rne.
  destruct (2 * (p mod q) ?= q); [destruct (Z.even _)|..]; lia.
Qed.

Lemma rne_exact k q : 0 < q -> rne (k * q) q = k.
Proof.
  intros Hq. unfold rne. rewrite Z.div_mul, Z.mod_mul by lia.
  destruct (Z.compare_spec (2 * 0) q); lia.
Qed.

Lemma rne_le p q k : 0 < q -> p <= k * q -> rne p q <= k.
Proof.
  intros Hq H. destruct (Z.eq_dec p (k * q)) as [->|Hne].
  - rewrite rne_exact; lia.
  - pose proof (rne_bounds p q Hq).
    assert (p / q < k) by (apply Z.div_lt_upper_bound; lia). lia.
Qed.

Lemma rne_ge p q k : 0 < q -> k * q <= p -> k <= rne p q.
Proof.
  intros Hq H. pose proof (rne_bounds p q Hq).
  assert (k <= p / q) by (apply Z.div_le_lower_bound; lia). lia.
Qed.

Lemma rne_mono p q p' q' :
  0 < q -> 0 < q' -> p * q' <= p' * q -> rne p q <= rne p' q'.
Proof.
  intros Hq Hq' H.
  pose proof (div_mono_frac p q p' q' Hq Hq' H) as Hf.
  pose proof (rne_bounds p q Hq) as B. pose proof (rne_bounds p' q' Hq') as B'.
  destruct (Z.eq_dec (p / q) (p' / q')) as [E|]; [|lia].
  pose proof (Z.div_mod p q ltac:(lia)) as D.
  pose proof (Z.div_mod p' q' ltac:(lia)) as D'.
  assert (Hr : (p mod q) * q' <= (p' mod q') * q) by (rewrite <- E in D'; nia).
  unfold rne. rewrite <- E.
  destruct (Z.compare_spec (2 * (p mod q)) q) as [C|C|C],
           (Z.compare_spec (2 * (p' mod q')) q') as [C'|C'|C'];
    try (destruct (Z.even _)); try lia; exfalso; nia.
Qed.

Lemma expo_mono q q' : q <= q' -> expo q <= expo q'.
Proof. intros H. unfold expo. pose proof (Z.log2_le_mono _ _ H). lia. Qed.

(** The window: below the exponent's top, and from its bottom when it moved. *)
Lemma expo_upper a d : 0 <= a -> 0 < d -> a <= 2 ^ 53 * (d * 2 ^ expo (a / d)).
Proof.
  intros Ha Hd. set (q := a / d).
  assert (Hq : 0 <= q) by (apply Z.div_pos; lia).
  assert (Hlt : q + 1 <= 2 ^ 53 * 2 ^ expo q).
  { destruct (Z.eq_dec q 0) as [->|]; [vm_compute; discriminate|].
    pose proof (Z.log2_spec q ltac:(lia)) as [_ Hl].
    rewrite <- Z.pow_add_r by (try apply expo_nonneg; lia).
    assert (2 ^ Z.succ (Z.log2 q) <= 2 ^ (53 + expo q))
      by (apply Z.pow_le_mono_r; unfold expo; lia). lia. }
  assert (a < d * (q + 1)).
  { pose proof (Z.div_mod a d ltac:(lia)). pose proof (Z.mod_pos_bound a d Hd).
    fold q in H. lia. }
  nia.
Qed.

Lemma expo_lower a d :
  0 <= a -> 0 < d -> 0 < expo (a / d) -> 2 ^ 52 * (d * 2 ^ expo (a / d)) <= a.
Proof.
  intros Ha Hd He. set (q := a / d) in *.
  assert (Hq : 0 <= q) by (apply Z.div_pos; lia).
  destruct (Z.eq_dec q 0) as [E|]; [rewrite E in He; vm_compute in He; discriminate|].
  pose proof (Z.log2_spec q ltac:(lia)) as [Hl _].
  assert (Hx : 2 ^ 52 * 2 ^ expo q = 2 ^ Z.log2 q).
  { rewrite <- Z.pow_add_r by (try apply expo_nonneg; lia).
    f_equal. unfold expo in *. lia. }
  pose proof (Z.mul_div_le a d Hd). fold q in H. nia.
Qed.

Lemma rnd_abs_nonneg a d : 0 <= a -> 0 < d -> 0 <= rnd_abs a d.
Proof.
  intros Ha Hd. unfold rnd_abs.
  pose proof (pow2_pos _ (expo_nonneg (a / d))).
  apply Z.mul_nonneg_nonneg; [|lia]. apply rne_ge; nia.
Qed.

Lemma rnd_abs_mono a d a' d' :
  0 <= a -> 0 < d -> 0 < d' -> a * d' <= a' * d -> rnd_abs a d <= rnd_abs a' d'.
Proof.
  intros Ha Hd Hd' H. assert (Ha' : 0 <= a') by nia.
  pose proof (div_mono_frac a d a' d' Hd Hd' H) as Hq.
  pose proof (expo_mono _ _ Hq) as He.
  pose proof (expo_nonneg (a / d)) as H0. 
  pose proof (expo_upper a d Ha Hd) as Up.
  pose proof (expo_lower a' d' Ha' Hd') as Lo.
  unfold rnd_abs. set (e := expo (a / d)) in *. set (e' := expo (a' / d')) in *.
  pose proof (pow2_pos e ltac:(lia)). pose proof (pow2_pos e' ltac:(lia)).
  destruct (Z.eq_dec e e') as [<-|Hne].
  - apply Z.mul_le_mono_nonneg_r; [lia|]. apply rne_mono; nia.
  - assert (rne a (d * 2 ^ e) <= 2 ^ 53) by (apply rne_le; nia).
    assert (2 ^ 52 <= rne a' (d' * 2 ^ e')) by (apply rne_ge; [nia|apply Lo; lia]).
    assert (2 * 2 ^ e <= 2 ^ e').
    { replace (2 * 2 ^ e) with (2 ^ Z.succ e) by (rewrite Z.pow_succ_r; lia).
      apply Z.pow_le_mono_r; lia. }
    change (2 ^ 53) with (2 * 2 ^ 52) in *.
    assert (0 <= rne a (d * 2 ^ e)) by (apply rne_ge; nia).
    transitivity ((2 * 2 ^ 52) * 2 ^ e); [nia|].
    transitivity (2 ^ 52 * 2 ^ e'); nia.
Qed.

(** Integers of at most 53 bits times a power of two are exact. *)
Lemma rnd_abs_exact m e : 0 <= m <= 2 ^ 53 -> 0 <= e -> rnd_abs (m * 2 ^ e) 1 = m * 2 ^ e.
Proof.
  intros Hm He. unfold rnd_abs. rewrite Z.div_1_r, Z.mul_1_l.
  destruct (Z.eq_dec m 0) as [->|]; [reflexivity|].
  pose proof (pow2_pos e He).
  assert (Hl : Z.log2 (m * 2 ^ e) = Z.log2 m + e) by (rewrite Z.log2_mul_pow2; lia).
  set (x := expo (m * 2 ^ e)).
  assert (Hx : x = Z.max 0 (Z.log2 m + e - 52)) by (unfold x, expo; rewrite Hl; lia).
  assert (Hdiv : exists k, m * 2 ^ e = k * 2 ^ x).
  { assert (Hlm : Z.log2 m <= 53).
    { replace 53 with (Z.log2 (2 ^ 53)) by reflexivity. apply Z.log2_le_mono. lia. }
    destruct (Z_le_gt_dec x e) as [Hle|Hgt].
    - exists (m * 2 ^ (e - x)). rewrite <- Z.mul_assoc, <- Z.pow_add_r by lia.
      repeat f_equal. lia.
    - assert (Hl53 : Z.log2 m = 53) by lia.
      pose proof (Z.log2_spec m ltac:(lia)) as [Hl1 _]. rewrite Hl53 in Hl1.
      exists (2 ^ 52). rewrite <- Z.pow_add_r by lia.
      replace m with (2 ^ 53) by lia. rewrite <- Z.pow_add_r by lia. f_equal. lia. }
  destruct Hdiv as [k Hk]. rewrite Hk.
  rewrite rne_exact; [reflexivity|]. apply pow2_pos. lia.
Qed.

Lemma rnd_abs_idem a d : 0 <= a -> 0 < d -> rnd_abs (rnd_abs a d) 1 = rnd_abs a d.
Proof.
  intros Ha Hd. unfold rnd_abs at 2 3. 
  pose proof (pow2_pos _ (expo_nonneg (a / d))).
  apply rnd_abs_exact; [|apply expo_nonneg].
  pose proof (expo_upper a d Ha Hd).
  split; [apply rne_ge|apply rne_le]; nia.
Qed.

(** ** Signed rounding *)

Lemma rnd_abs_0 d : 0 < d -> rnd_abs 0 d = 0.
Proof.
  intros Hd. unfold rnd_abs. rewrite Z.div_0_l by lia.
  pose proof (rne_exact 0 (d * 2 ^ expo 0)) as E. rewrite Z.mul_0_l in E.
  rewrite E; [lia|]. pose proof (pow2_pos _ (expo_nonneg 0)). nia.
Qed.

Lemma rnd_opp n d : 0 < d -> rnd (- n) d = fneg (rnd n d).
Proof.
  intros Hd. unfold rnd. rewrite Z.abs_opp. pose proof overflow64_pos.
  destruct (Z.leb_spec overflow64 (rnd_abs (Z.abs n) d)) as [Ho|Ho]; simpl.
  - f_equal. assert (n <> 0) by (intros ->; rewrite rnd_abs_0 in Ho; lia).
    destruct (Z.ltb_spec (- n) 0), (Z.ltb_spec n 0); simpl; lia.
  - f_equal. lia.
Qed.

Lemma rnd_rank_pos n d : 0 <= n -> 0 <= rank (rnd n d) <= 1.
Proof.
  intros Hn. unfold rnd. destruct (Z.leb_spec overflow64 (rnd_abs (Z.abs n) d)); [|cbn; lia].
  destruct (Z.ltb_spec n 0); cbn; lia.
Qed.

Lemma rnd_val_pos n d : 0 <= n -> 0 < d -> 0 <= val (rnd n d).
Proof.
  intros Hn Hd. unfold rnd.
  destruct (Z.leb_spec overflow64 (rnd_abs (Z.abs n) d)); [cbn; lia|]. cbn.
  pose proof (rnd_abs_nonneg (Z.abs n) d ltac:(lia) Hd). nia.
Qed.

Lemma rnd_not_nan n d : rank (rnd n d) <> 2.
Proof. unfold rnd. destruct (_ <=? _), (n <? 0); cbn; lia. Qed.

(** The order of the reals, on ranks and integers. *)
Definition le_rel (x y : f64) : Prop :=
  rank x <> 2 /\ rank y <> 2 /\
  (rank x < rank y \/ rank x = rank y /\ val x <= val y).

Lemma rnd_mono_pos n d n' d' :
  0 <= n -> 0 < d -> 0 < d' -> n * d' <= n' * d -> le_rel (rnd n d) (rnd n' d').
Proof.
  intros Hn Hd Hd' H. assert (Hn' : 0 <= n') by nia.
  pose proof (rnd_abs_mono n d n' d' Hn Hd Hd' H).
  pose proof (rnd_abs_nonneg n d Hn Hd).
  split; [apply rnd_not_nan|]. split; [apply rnd_not_nan|].
  unfold rnd. rewrite !Z.abs_eq by lia.
  destruct (Z.leb_spec overflow64 (rnd_abs n d)), (Z.leb_spec overflow64 (rnd_abs n' d'));
    try lia; destruct (Z.ltb_spec n 0), (Z.ltb_spec n' 0); simpl; lia.
Qed.

Lemma rnd_mono n d n' d' :
  0 < d -> 0 < d' -> n * d' <= n' * d -> le_rel (rnd n d) (rnd n' d').
Proof.
  intros Hd Hd' H. destruct (Z_le_gt_dec 0 n) as [Hn|Hn].
  { now apply rnd_mono_pos. }
  assert (Hneg : rank (rnd n d) = 0 /\ val (rnd n d) <= 0 \/ rank (rnd n d) = -1 /\ val (rnd n d) = 0).
  { replace n with (- (- n)) by lia. rewrite rnd_opp by lia.
    pose proof (rnd_rank_pos (- n) d ltac:(lia)). pose proof (rnd_val_pos (- n) d ltac:(lia) Hd).
    destruct (rnd (- n) d) as [|[]|]; cbn in *; lia. }
  destruct (Z_le_gt_dec 0 n') as [Hn'|Hn'].
  { pose proof (rnd_rank_pos n' d' Hn'). pose proof (rnd_val_pos n' d' Hn' Hd').
    unfold le_rel. destruct Hneg as [[]|[]]; lia. }
  pose proof (rnd_mono_pos (- n') d' (- n) d ltac:(lia) Hd' Hd ltac:(lia)) as M.
  rewrite !rnd_opp in M by lia. unfold le_rel in *.
  destruct (rnd n d) as [|[]|], (rnd n' d') as [|[]|]; cbn in *; lia.
Qed.

Lemma rnd_wf n d : 0 < d -> wf (rnd n d).
Proof.
  intros Hd. unfold rnd at 1.
  destruct (Z.leb_spec overflow64 (rnd_abs (Z.abs n) d)) as [|Hlt]; [exact I|].
  simpl. set (r := rnd_abs (Z.abs n) d) in *.
  assert (Hr : 0 <= r) by (apply rnd_abs_nonneg; lia).
  assert (Hi : rnd_abs r 1 = r) by (apply rnd_abs_idem; lia).
  destruct (Z.eq_dec n 0) as [->|Hn]; [reflexivity|].
  unfold rnd.
  assert (Ha : Z.abs (Z.sgn n * r) = r) by lia.
  rewrite Ha, Hi. destruct (Z.leb_spec overflow64 r); [lia|]. f_equal. nia.
Qed.

(** ** Reflection of the comparisons *)

Lemma flt_iff x y :
  flt x y = true <->
  rank x <> 2 /\ rank y <> 2 /\ (rank x < rank y \/ rank x = rank y /\ val x < val y).
Proof.
  destruct x as [|[]|a], y as [|[]|b]; unfold flt; simpl;
    try (split; [discriminate || lia|lia || discriminate]).
  destruct (Z.compare_spec a b); split; (discriminate || lia).
Qed.

Lemma fle_iff x y : fle x y = true <-> le_rel x y.
Proof.
  unfold le_rel. destruct x as [|[]|a], y as [|[]|b]; unfold fle; simpl;
    try (split; [discriminate || lia|lia || discriminate]).
  destruct (Z.compare_spec a b); split; (discriminate || lia).
Qed.

Lemma feq_iff x y :
  feq x y = true <-> rank x <> 2 /\ rank x = rank y /\ val x = val y.
Proof.
  destruct x as [|[]|a], y as [|[]|b]; unfold feq; simpl;
    try (split; [discriminate || lia|lia || discriminate]).
  destruct (Z.compare_spec a b); split; (discriminate || lia).
Qed.

Lemma f64_ext x y : rank x = rank y -> val x = val y -> x = y.
Proof. destruct x as [|[]|a], y as [|[]|b]; simpl; intros; try lia; congruence. Qed.

Lemma feq_eq x y : feq x y = true -> x = y.
Proof. rewrite feq_iff. intros (_ & ? & ?). now apply f64_ext. Qed.

Lemma rank_ok_all x : rank_ok x.
Proof. unfold rank_ok. destruct x as [|[]|a]; simpl; lia. Qed.

Lemma isNaN_iff x : isNaN x = true <-> rank x = 2.
Proof. destruct x as [|[]|a]; simpl; split; (discriminate || lia). Qed.
Lemma isInf_iff x : isInf x = true <-> rank x = 1 \/ rank x = -1.
Proof. destruct x as [|[]|a]; simpl; split; (discriminate || lia). Qed.
Lemma finite_iff x : finite x = true <-> rank x = 0.
Proof. destruct x as [|[]|a]; simpl; split; (discriminate || lia). Qed.

Lemma fneg_rank x : rank x <> 2 -> rank (fneg x) = - rank x.
Proof. destruct x as [|[]|a]; simpl; lia. Qed.
Lemma fneg_nan x : rank x = 2 -> rank (fneg x) = 2.
Proof. destruct x as [|[]|a]; simpl; lia. Qed.
Lemma fneg_val x : val (fneg x) = - val x.
Proof. destruct x as [|[]|a]; simpl; lia. Qed.

Lemma le_rel_trans x y z : le_rel x y -> le_rel y z -> le_rel x z.
Proof. unfold le_rel. lia. Qed.
Lemma le_rel_total x y : rank x <> 2 -> rank y <> 2 -> le_rel x y \/ le_rel y x.
Proof. unfold le_rel. lia. Qed.

(** [fmin]/[fmax] away from NaN. *)
Ltac ext_cases x y :=
  destruct x as [|[]|?], y as [|[]|?]; simpl in *; try lia;
  first [left; split; [reflexivity|lia] | right; split; [reflexivity|lia]].

Lemma flt_false x y : flt x y = false -> rank x <> 2 -> rank y <> 2 -> le_rel y x.
Proof.
  intros E Hx Hy. assert (~ (flt x y = true)) as E' by congruence.
  rewrite flt_iff in E'. unfold le_rel. lia.
Qed.

Lemma fmin_spec x y :
  rank x <> 2 -> rank y <> 2 ->
  fmin x y = x /\ le_rel x y \/ fmin x y = y /\ le_rel y x.
Proof.
  intros Hx Hy. unfold fmin. destruct (flt x y) eqn:E.
  - apply flt_iff in E. unfold le_rel. ext_cases x y.
  - apply flt_false in E; [|done..]. unfold le_rel in *. ext_cases x y.
Qed.

Lemma fmax_spec x y :
  rank x <> 2 -> rank y <> 2 ->
  fmax x y = x /\ le_rel y x \/ fmax x y = y /\ le_rel x y.
Proof.
  intros Hx Hy. unfold fmax. destruct (flt y x) eqn:E.
  - apply flt_iff in E. unfold le_rel. ext_cases x y.
  - apply flt_false in E; [|done..]. unfold le_rel in *. ext_cases x y.
Qed.

Lemma flt_false_iff x y :
  flt x y = false <->
  ~ (rank x <> 2 /\ rank y <> 2 /\ (rank x < rank y \/ rank x = rank y /\ val x < val y)).
Proof. rewrite <- flt_iff. destruct (flt x y); split; (done || congruence). Qed.
Lemma fle_false_iff x y : fle x y = false <-> ~ le_rel x y.
Proof. rewrite <- fle_iff. destruct (fle x y); split; (done || congruence). Qed.
Lemma feq_false_iff x y :
  feq x y = false <-> ~ (rank x <> 2 /\ rank x = rank y /\ val x = val y).
Proof. rewrite <- feq_iff. destruct (feq x y); split; (done || congruence). Qed.
Lemma isNaN_false_iff x : isNaN x = false <-> rank x <> 2.
Proof. destruct x as [|[]|a]; simpl; split; (discriminate || lia). Qed.
Lemma isInf_false_iff x : isInf x = false <-> rank x = 2 \/ rank x = 0.
Proof. destruct x as [|[]|a]; simpl; split; (discriminate || lia). Qed.
Lemma finite_false_iff x : finite x = false <-> rank x <> 0.
Proof. destruct x as [|[]|a]; simpl; split; (discriminate || lia). Qed.
Lemma fne_iff x y :
  fne x y = true <-> ~ (rank x <> 2 /\ rank x = rank y /\ val x = val y).
Proof. unfold fne. rewrite negb_true_iff. apply feq_false_iff. Qed.
Lemma fne_false_iff x y :
  fne x y = false <-> (rank x <> 2 /\ rank x = rank y /\ val x = val y).
Proof. unfold fne. rewrite negb_false_iff. apply feq_iff. Qed.

(** ** Facts the solver adds for each compound term *)

Lemma fneg_fact x :
  (rank x = 2 /\ rank (fneg x) = 2 \/ rank x <> 2 /\ rank (fneg x) = - rank x) /\
  val (fneg x) = - val x.
Proof. destruct x as [|[]|a]; simpl; lia. Qed.

Lemma fabs_fact x :
  (rank x = 2 /\ rank (fabs x) = 2 \/ rank x <> 2 /\ rank (fabs x) = Z.abs (rank x)) /\
  val (fabs x) = Z.abs (val x).
Proof. destruct x as [|[]|a]; simpl; lia. Qed.

Lemma fmin_fact x y :
  rank x <> 2 -> rank y <> 2 ->
  rank (fmin x y) = rank x /\ val (fmin x y) = val x /\ le_rel x y \/
  rank (fmin x y) = rank y /\ val (fmin x y) = val y /\ le_rel y x.
Proof.
  intros Hx Hy. destruct (fmin_spec x y Hx Hy) as [[-> ?]|[-> ?]]; auto.
Qed.

Lemma fmax_fact x y :
  rank x <> 2 -> rank y <> 2 ->
  rank (fmax x y) = rank x /\ val (fmax x y) = val x /\ le_rel y x \/
  rank (fmax x y) = rank y /\ val (fmax x y) = val y /\ le_rel x y.
Proof.
  intros Hx Hy. destruct (fmax_spec x y Hx Hy) as [[-> ?]|[-> ?]]; auto.
Qed.

Lemma rnd_exact_int z : Z.abs z <= 2 ^ 53 -> rnd (z * unit64) 1 = Fin (z * unit64).
Proof.
  intros Hz. unfold rnd. rewrite Z.abs_mul, (Z.abs_eq unit64) by (pose proof unit64_pos; lia).
  assert (E : rnd_abs (Z.abs z * unit64) 1 = Z.abs z * unit64)
    by (apply rnd_abs_exact; lia).
  rewrite E.
  assert (O : Z.abs z * unit64 < overflow64).
  { apply (Z.le_lt_trans _ (2 ^ 53 * unit64)).
    - apply Z.mul_le_mono_nonneg_r; [pose proof unit64_pos; lia|lia].
    - vm_compute. reflexivity. }
  destruct (Z.leb_spec overflow64 (Z.abs z * unit64)); [lia|].
  f_equal. pose proof unit64_pos. rewrite Z.sgn_mul, (Z.sgn_pos unit64) by lia. lia.
Qed.

Lemma of_Z_fin z : Z.abs z <= 2 ^ 53 -> of_Z z = Fin (z * unit64).
Proof. apply rnd_exact_int. Qed.

Lemma of_Z_0 : of_Z 0 = Fin 0.
Proof. reflexivity. Qed.

Lemma of_Z_fact z :
  -9007199254740992 <= z <= 9007199254740992 ->
  rank (of_Z z) = 0 /\ val (of_Z z) = z * unit64.
Proof. intros Hz. rewrite of_Z_fin by lia. auto. Qed.

Lemma of_Z_1 : of_Z 1 = Fin unit64.
Proof. rewrite of_Z_fin by lia. now rewrite Z.mul_1_l. Qed.

#[global] Opaque unit64 overflow64 of_Z lit rnd.

(** Comparisons between values known not to be NaN. *)
Lemma flt_false_nn x y : rank x <> 2 -> rank y <> 2 -> flt x y = false ->
  rank y < rank x \/ rank x = rank y /\ val y <= val x.
Proof. rewrite flt_false_iff. lia. Qed.
Lemma fle_false_nn x y : rank x <> 2 -> rank y <> 2 -> fle x y = false ->
  rank y < rank x \/ rank x = rank y /\ val y < val x.
Proof. rewrite fle_false_iff. unfold le_rel. lia. Qed.
Lemma fneg_nn x : rank x <> 2 -> rank (fneg x) <> 2 /\ rank (fneg x) = - rank x.
Proof. pose proof (fneg_fact x). pose proof (rank_ok_all x). unfold rank_ok in *. lia. Qed.
Lemma fabs_nn x : rank x <> 2 -> rank (fabs x) <> 2 /\ rank (fabs x) = Z.abs (rank x).
Proof. pose proof (fabs_fact x). pose proof (rank_ok_all x). unfold rank_ok in *. lia. Qed.
Lemma fmin_nn x y : rank x <> 2 -> rank y <> 2 -> rank (fmin x y) <> 2.
Proof. intros. pose proof (fmin_fact x y). unfold le_rel in *. lia. Qed.
Lemma fmax_nn x y : rank x <> 2 -> rank y <> 2 -> rank (fmax x y) <> 2.
Proof. intros. pose proof (fmax_fact x y). unfold le_rel in *. lia. Qed.
Lemma of_Z_nn z : -9007199254740992 <= z <= 9007199254740992 -> rank (of_Z z) <> 2.
Proof. intros H. pose proof (of_Z_fact z H). lia. Qed.
Lemma finite_nn x : rank x = 0 -> rank x <> 2.
Proof. lia. Qed.

Lemma fneg_fin x : rank x = 0 -> rank (fneg x) = 0.
Proof. pose proof (fneg_fact x). lia. Qed.
Lemma fabs_fin x : rank x = 0 -> rank (fabs x) = 0.
Proof. pose proof (fabs_fact x). lia. Qed.
Lemma fmin_fin x y : rank x = 0 -> rank y = 0 -> rank (fmin x y) = 0.
Proof. intros. pose proof (fmin_fact x y). lia. Qed.
Lemma fmax_fin x y : rank x = 0 -> rank y = 0 -> rank (fmax x y) = 0.
Proof. intros. pose proof (fmax_fact x y). lia. Qed.
Lemma of_Z_rank z : -9007199254740992 <= z <= 9007199254740992 -> rank (of_Z z) = 0.
Proof. intros H. pose proof (of_Z_fact z H). lia. Qed.
Lemma Fin_rank z : rank (Fin z) = 0.
Proof. reflexivity. Qed.

(** Finite operands never give NaN. *)
Lemma fadd_nn x y : rank x = 0 -> rank y = 0 -> rank (fadd x y) <> 2.
Proof. destruct x as [|[]|a], y as [|[]|b]; try discriminate. intros _ _. apply rnd_not_nan. Qed.
Lemma fsub_nn x y : rank x = 0 -> rank y = 0 -> rank (fsub x y) <> 2.
Proof. intros. apply fadd_nn; auto using fneg_fin. Qed.
Lemma fmul_nn x y : rank x = 0 -> rank y = 0 -> rank (fmul x y) <> 2.
Proof. destruct x as [|[]|a], y as [|[]|b]; try discriminate. intros _ _. apply rnd_not_nan. Qed.
Lemma fdiv_nn x y : rank x = 0 -> rank y = 0 -> val y <> 0 -> rank (fdiv x y) <> 2.
Proof.
  destruct x as [|[]|a], y as [|[]|b]; try discriminate. intros _ _ Hb. simpl in *.
  destruct (Z.eqb_spec b 0); [lia|]. apply rnd_not_nan.
Qed.

Lemma of_Z_mono a b :
  -9007199254740992 <= a -> a <= b -> b <= 9007199254740992 -> le_rel (of_Z a) (of_Z b).
Proof.
  intros. pose proof unit64_pos. unfold le_rel.
  destruct (of_Z_fact a) as [-> ->]; [lia|]. destruct (of_Z_fact b) as [-> ->]; [lia|]. nia.
Qed.

(** Show that a value is finite, or not NaN, from the context and its shape.
    Terms are compared syntactically: conversion would compute literals. *)
Ltac f64_assumed :=
  match goal with
  | H : rank ?y = 0 |- rank ?x = 0 => constr_eq x y; exact H
  | H : rank ?y <> 2 |- rank ?x <> 2 => constr_eq x y; exact H
  | H : rank ?y = 0 |- rank ?x <> 2 => constr_eq x y; apply finite_nn; exact H
  end.
Ltac f64_fin :=
  first
  [ f64_assumed
  | lazymatch goal with
    | |- rank (fneg _) = 0 => apply fneg_fin; f64_fin
    | |- rank (fabs _) = 0 => apply fabs_fin; f64_fin
    | |- rank (fmin _ _) = 0 => apply fmin_fin; f64_fin
    | |- rank (fmax _ _) = 0 => apply fmax_fin; f64_fin
    | |- rank (of_Z _) = 0 => apply of_Z_rank; lia
    | |- rank (Fin _) = 0 => apply Fin_rank
    end ].
Ltac f64_nn :=
  first
  [ f64_assumed
  | lazymatch goal with
    | |- rank (fneg _) <> 2 => apply fneg_nn; f64_nn
    | |- rank (fabs _) <> 2 => apply fabs_nn; f64_nn
    | |- rank (fmin _ _) <> 2 => apply fmin_nn; f64_nn
    | |- rank (fmax _ _) <> 2 => apply fmax_nn; f64_nn
    | |- rank (of_Z _) <> 2 => apply of_Z_nn; lia
    | |- rank (Fin _) <> 2 => apply finite_nn, Fin_rank
    | |- rank (rnd _ _) <> 2 => apply rnd_not_nan
    | |- rank (fadd _ _) <> 2 => apply fadd_nn; f64_fin
    | |- rank (fsub _ _) <> 2 => apply fsub_nn; f64_fin
    | |- rank (fmul _ _) <> 2 => apply fmul_nn; f64_fin
    end ].

(** Comparisons between finite values are comparisons of integers. *)
Lemma flt_fin x y : rank x = 0 -> rank y = 0 -> flt x y = (val x <? val y).
Proof. destruct x as [|[]|a], y as [|[]|b]; try discriminate; intros _ _. unfold flt. simpl.
  destruct (Z.compare_spec a b), (Z.ltb_spec a b); auto; lia. Qed.
Lemma fle_fin x y : rank x = 0 -> rank y = 0 -> fle x y = (val x <=? val y).
Proof. destruct x as [|[]|a], y as [|[]|b]; try discriminate; intros _ _. unfold fle. simpl.
  destruct (Z.compare_spec a b), (Z.leb_spec a b); auto; lia. Qed.
Lemma feq_fin x y : rank x = 0 -> rank y = 0 -> feq x y = (val x =? val y).
Proof. destruct x as [|[]|a], y as [|[]|b]; try discriminate; intros _ _. unfold feq. simpl.
  destruct (Z.compare_spec a b), (Z.eqb_spec a b); auto; lia. Qed.
Lemma fne_fin x y : rank x = 0 -> rank y = 0 -> fne x y = negb (val x =? val y).
Proof. intros. unfold fne. now rewrite feq_fin. Qed.
Lemma fmin_val x y : rank x = 0 -> rank y = 0 -> val (fmin x y) = Z.min (val x) (val y).
Proof. intros. pose proof (fmin_fact x y). unfold le_rel in *. lia. Qed.
Lemma fmax_val x y : rank x = 0 -> rank y = 0 -> val (fmax x y) = Z.max (val x) (val y).
Proof. intros. pose proof (fmax_fact x y). unfold le_rel in *. lia. Qed.

(** ** The solver

    [f64_lia] turns comparisons of floats into linear integer arithmetic on
    [rank] and [val] and calls [lia]. It knows negation, absolute value,
    [fmin], [fmax] and integer literals; other terms are atoms. Values known
    to be finite cost one integer each; the others carry their rank. *)
Ltac f64_split :=
  repeat match goal with
  | H : _ /\ _ |- _ => destruct H
  | H : exists _, _ |- _ => destruct H
  end.

(** Ranks and NaN tests first: they make the comparisons cheap. *)
Ltac f64_reflect_ranks :=
  repeat match goal with
  | H : isNaN _ = true |- _ => rewrite isNaN_iff in H
  | H : isNaN _ = false |- _ => rewrite isNaN_false_iff in H
  | H : isInf _ = true |- _ => rewrite isInf_iff in H
  | H : isInf _ = false |- _ => rewrite isInf_false_iff in H
  | H : finite _ = true |- _ => rewrite finite_iff in H
  | H : finite _ = false |- _ => rewrite finite_false_iff in H
  end.

Ltac f64_reflect_cmp :=
  repeat match goal with
  | H : le_rel ?x ?y |- _ =>
      first [ rewrite <- fle_iff, (fle_fin x y ltac:(f64_fin) ltac:(f64_fin)), Z.leb_le in H
            | unfold le_rel in H; f64_split ]
  | H : flt ?x ?y = true |- _ =>
      first [ rewrite (flt_fin x y ltac:(f64_fin) ltac:(f64_fin)), Z.ltb_lt in H
            | rewrite flt_iff in H; f64_split ]
  | H : fle ?x ?y = true |- _ =>
      first [ rewrite (fle_fin x y ltac:(f64_fin) ltac:(f64_fin)), Z.leb_le in H
            | rewrite fle_iff in H; unfold le_rel in H; f64_split ]
  | H : feq ?x ?y = true |- _ =>
      first [ rewrite (feq_fin x y ltac:(f64_fin) ltac:(f64_fin)), Z.eqb_eq in H
            | rewrite feq_iff in H; f64_split ]
  | H : fne ?x ?y = false |- _ => unfold fne in H; apply negb_false_iff in H
  | H : fne ?x ?y = true |- _ => unfold fne in H; apply negb_true_iff in H
  end;
  repeat match goal with
  | H : flt ?x ?y = false |- _ =>
      first [ rewrite (flt_fin x y ltac:(f64_fin) ltac:(f64_fin)), Z.ltb_ge in H
            | apply (flt_false_nn x y ltac:(f64_nn) ltac:(f64_nn)) in H
            | rewrite flt_false_iff in H ]
  | H : fle ?x ?y = false |- _ =>
      first [ rewrite (fle_fin x y ltac:(f64_fin) ltac:(f64_fin)), Z.leb_gt in H
            | apply (fle_false_nn x y ltac:(f64_nn) ltac:(f64_nn)) in H
            | rewrite fle_false_iff in H; unfold le_rel in H ]
  | H : feq ?x ?y = false |- _ =>
      first [ rewrite (feq_fin x y ltac:(f64_fin) ltac:(f64_fin)), Z.eqb_neq in H
            | rewrite feq_false_iff in H ]
  end.

Ltac f64_reflect_goal :=
  repeat match goal with
  | |- le_rel ?x ?y =>
      first [ rewrite <- fle_iff, (fle_fin x y ltac:(f64_fin) ltac:(f64_fin)), Z.leb_le
            | unfold le_rel ]
  | |- flt ?x ?y = true =>
      first [ rewrite (flt_fin x y ltac:(f64_fin) ltac:(f64_fin)), Z.ltb_lt | rewrite flt_iff ]
  | |- flt ?x ?y = false =>
      first [ rewrite (flt_fin x y ltac:(f64_fin) ltac:(f64_fin)), Z.ltb_ge | rewrite flt_false_iff ]
  | |- fle ?x ?y = true =>
      first [ rewrite (fle_fin x y ltac:(f64_fin) ltac:(f64_fin)), Z.leb_le
            | rewrite fle_iff; unfold le_rel ]
  | |- fle ?x ?y = false =>
      first [ rewrite (fle_fin x y ltac:(f64_fin) ltac:(f64_fin)), Z.leb_gt
            | rewrite fle_false_iff; unfold le_rel ]
  | |- feq ?x ?y = true =>
      first [ rewrite (feq_fin x y ltac:(f64_fin) ltac:(f64_fin)), Z.eqb_eq | rewrite feq_iff ]
  | |- feq ?x ?y = false =>
      first [ rewrite (feq_fin x y ltac:(f64_fin) ltac:(f64_fin)), Z.eqb_neq | rewrite feq_false_iff ]
  | |- fne _ _ = true => rewrite fne_iff
  | |- fne _ _ = false => rewrite fne_false_iff
  | |- isNaN _ = true => rewrite isNaN_iff
  | |- isNaN _ = false => rewrite isNaN_false_iff
  | |- isInf _ = true => rewrite isInf_iff
  | |- isInf _ = false => rewrite isInf_false_iff
  | |- finite _ = true => rewrite finite_iff
  | |- finite _ = false => rewrite finite_false_iff
  end.

(** [seen] marks a term whose facts are already in the context. *)
Definition seen (x : f64) : Prop := True.

Ltac f64_unseen x :=
  lazymatch goal with
  | _ : context [seen x] |- _ => fail
  | _ => idtac
  end.
Ltac f64_learn x :=
  lazymatch goal with
  | _ =>
      f64_unseen x;
      assert (seen x) by exact I;
      first [ assert (rank x = 0) by f64_fin | pose proof (rank_ok_all x) ];
      lazymatch x with
      | fneg ?a =>
          pose proof (fneg_val a);
          try first [ assert (rank x = 0) by f64_fin
                    | pose proof (fneg_nn a ltac:(f64_nn))
                    | pose proof (fneg_fact a) ]; try f64_learn a
      | fabs ?a =>
          pose proof (proj2 (fabs_fact a));
          try first [ assert (rank x = 0) by f64_fin
                    | pose proof (fabs_nn a ltac:(f64_nn))
                    | pose proof (fabs_fact a) ]; try f64_learn a
      | fmin ?a ?b =>
          first [ pose proof (fmin_val a b ltac:(f64_fin) ltac:(f64_fin))
                | pose proof (fmin_fact a b ltac:(f64_nn) ltac:(f64_nn))
                | pose proof (fmin_fact a b) ]; try f64_learn a; try f64_learn b
      | fmax ?a ?b =>
          first [ pose proof (fmax_val a b ltac:(f64_fin) ltac:(f64_fin))
                | pose proof (fmax_fact a b ltac:(f64_nn) ltac:(f64_nn))
                | pose proof (fmax_fact a b) ]; try f64_learn a; try f64_learn b
      | of_Z ?n => first [ pose proof (proj2 (of_Z_fact n ltac:(lia))) | pose proof (of_Z_fact n) ]
      | _ => idtac
      end
  end.

Ltac f64_saturate :=
  repeat match goal with
  | |- context [rank ?x] => f64_learn x
  | |- context [val ?x] => f64_learn x
  | _ : context [rank ?x] |- _ => f64_learn x
  | _ : context [val ?x] |- _ => f64_learn x
  end.

(** Only the facts about floats reach [lia]. *)
Ltac f64_clear :=
  repeat match goal with
  | H : wf _ |- _ => clear H
  | H : seen _ |- _ => clear H
  end.

Ltac f64_lia :=
  bool_hyps; f64_split; f64_reflect_ranks; f64_reflect_cmp; f64_split; f64_reflect_goal;
  pose proof unit64_pos; f64_saturate;
  unfold rank_ok, le_rel in *; f64_split; f64_clear; simpl rank in *; simpl val in *; lia.

(** ** Order properties of the rounded arithmetic *)

Lemma rnd_nonneg n d : 0 <= n -> 0 < d -> le_rel (Fin 0) (rnd n d).
Proof.
  intros Hn Hd. assert (M := rnd_mono 0 1 n d). change (rnd 0 1) with (Fin 0) in M. apply M; lia.
Qed.
Lemma rnd_nonpos n d : n <= 0 -> 0 < d -> le_rel (rnd n d) (Fin 0).
Proof.
  intros Hn Hd. assert (M := rnd_mono n d 0 1). change (rnd 0 1) with (Fin 0) in M. apply M; lia.
Qed.
Lemma rnd_le_1 n d : 0 < d -> n <= unit64 * d -> le_rel (rnd n d) (Fin unit64).
Proof.
  intros Hd H. assert (E : rnd (1 * unit64) 1 = Fin (1 * unit64)) by (apply rnd_exact_int; lia).
  rewrite Z.mul_1_l in E. rewrite <- E. apply rnd_mono; lia.
Qed.

Lemma fadd_mono x x' y y' :
  le_rel x x' -> le_rel y y' ->
  rank (fadd x y) <> 2 -> rank (fadd x' y') <> 2 -> le_rel (fadd x y) (fadd x' y').
Proof.
  intros Hx Hy N N'.
  destruct x as [|[]|a], x' as [|[]|a'], y as [|[]|b], y' as [|[]|b'];
    unfold le_rel in *; simpl in *; try lia;
    try (pose proof (rnd_mono (a + b) 1 (a' + b') 1); unfold le_rel in *; lia);
    try (pose proof (rank_ok_all (rnd (a + b) 1))); try (pose proof (rank_ok_all (rnd (a' + b') 1)));
    unfold rank_ok in *; lia.
Qed.

Lemma fmul_mono_nonneg x x' y y' :
  le_rel (Fin 0) x -> le_rel x x' -> le_rel (Fin 0) y -> le_rel y y' ->
  rank (fmul x y) <> 2 -> rank (fmul x' y') <> 2 -> le_rel (fmul x y) (fmul x' y').
Proof.
  pose proof unit64_pos.
  intros Hx0 Hx Hy0 Hy N N'.
  destruct x as [|[]|a], x' as [|[]|a'], y as [|[]|b], y' as [|[]|b'];
    unfold le_rel in *; simpl in *; try lia;
    repeat match goal with
    | H : context [?z =? 0] |- _ => destruct (Z.eqb_spec z 0); simpl in *
    | |- context [?z =? 0] => destruct (Z.eqb_spec z 0); simpl in *
    end; try lia;
    repeat match goal with
    | |- context [?z <? 0] => destruct (Z.ltb_spec z 0); simpl in *
    end; try lia.
  all: try (pose proof (rnd_mono (a * b) unit64 (a' * b') unit64) as M;
            unfold le_rel in M; apply M; [lia..|];
            apply Z.mul_le_mono_nonneg_r; [lia|apply Z.mul_le_mono_nonneg; lia]).
  all: pose proof (rank_ok_all (rnd (a * b) unit64)); pose proof (rnd_not_nan (a * b) unit64);
       unfold rank_ok in *; lia.
Qed.

Lemma fmul_nonneg x y :
  le_rel (Fin 0) x -> le_rel (Fin 0) y -> rank (fmul x y) <> 2 -> le_rel (Fin 0) (fmul x y).
Proof.
  intros Hx Hy N.
  assert (E : fmul (Fin 0) (Fin 0) = Fin 0) by reflexivity.
  rewrite <- E. apply fmul_mono_nonneg; auto; unfold le_rel; simpl; lia.
Qed.

Lemma fadd_nonneg x y :
  le_rel (Fin 0) x -> le_rel (Fin 0) y -> le_rel (Fin 0) (fadd x y).
Proof.
  intros Hx Hy.
  assert (E : fadd (Fin 0) (Fin 0) = Fin 0) by reflexivity.
  rewrite <- E. apply fadd_mono; auto.
  destruct x as [|[]|a], y as [|[]|b]; unfold le_rel in *; simpl in *; try lia.
  apply rnd_not_nan.
Qed.

(** Subtraction keeps the order: no cancellation to the wrong sign. *)
Lemma fsub_nonneg x y :
  le_rel y x -> rank (fsub x y) <> 2 -> le_rel (Fin 0) (fsub x y).
Proof.
  intros H N. unfold fsub in *.
  destruct x as [|[]|a], y as [|[]|b]; simpl in *; try (unfold le_rel in *; simpl in *; lia).
  apply rnd_nonneg; unfold le_rel in H; simpl in H; lia.
Qed.

Lemma fsub_nonpos x y :
  le_rel x y -> rank (fsub x y) <> 2 -> le_rel (fsub x y) (Fin 0).
Proof.
  intros H N. unfold fsub in *.
  destruct x as [|[]|a], y as [|[]|b]; simpl in *; try (unfold le_rel in *; simpl in *; lia).
  apply rnd_nonpos; unfold le_rel in H; simpl in H; lia.
Qed.

Lemma fadd_0_r x : wf x -> fadd x (Fin 0) = x.
Proof. destruct x as [|[]|a]; simpl; auto. rewrite Z.add_0_r. auto. Qed.

Lemma fmul_1_r x : wf x -> fmul x (Fin unit64) = x.
Proof.
  pose proof unit64_pos.
  destruct x as [|[]|a]; simpl; auto; try (destruct (Z.eqb_spec unit64 0); [lia|]; destruct (Z.ltb_spec unit64 0); simpl; auto; lia).
  intros W. transitivity (rnd a 1); [|exact W].
  assert (M := rnd_mono (a * unit64) unit64 a 1). assert (M' := rnd_mono a 1 (a * unit64) unit64).
  apply f64_ext; unfold le_rel in *; lia.
Qed.

(** Subtracting a nonnegative amount never raises a value. *)
Lemma fsub_le x y :
  wf x -> le_rel (Fin 0) y -> rank x <> 2 -> rank (fsub x y) <> 2 -> le_rel (fsub x y) x.
Proof.
  intros W Hy Nx N. rewrite <- (fadd_0_r x W) at 2. unfold fsub in *.
  apply fadd_mono; auto.
  - unfold le_rel; lia.
  - f64_lia.
  - now rewrite fadd_0_r.
Qed.

(** Scaling by a factor in [0, 1] shrinks toward zero. *)
Lemma fmul_shrink x k :
  wf x -> le_rel (Fin 0) x -> le_rel (Fin 0) k -> le_rel k (Fin unit64) ->
  rank (fmul x k) <> 2 -> le_rel (fmul x k) x.
Proof.
  intros W Hx Hk Hk1 N. rewrite <- (fmul_1_r x W) at 2.
  apply fmul_mono_nonneg; auto.
  - unfold le_rel in *; lia.
  - rewrite fmul_1_r; auto. unfold le_rel in *; lia.
Qed.

(** Results of the operations are values a variable can hold. *)
Lemma fneg_wf x : wf x -> wf (fneg x).
Proof.
  destruct x as [|[]|a]; simpl; auto. intros W. rewrite rnd_opp, W by lia. reflexivity.
Qed.
Lemma fabs_wf x : wf x -> wf (fabs x).
Proof.
  destruct x as [|[]|a]; simpl; auto. intros W.
  destruct (Z_le_gt_dec 0 a); [now rewrite Z.abs_eq|].
  rewrite Z.abs_neq, rnd_opp, W by lia. reflexivity.
Qed.
Lemma fadd_wf x y : wf (fadd x y).
Proof.
  destruct x as [|[]|a], y as [|[]|b]; simpl; auto; apply rnd_wf; lia.
Qed.
Lemma fsub_wf x y : wf (fsub x y).
Proof. apply fadd_wf. Qed.
Lemma fmul_wf x y : wf (fmul x y).
Proof.
  pose proof unit64_pos.
  destruct x as [|[]|a], y as [|[]|b]; simpl; auto; try (destruct (_ =? 0); simpl; auto; fail).
  apply rnd_wf; lia.
Qed.
Lemma fdiv_wf x y : wf (fdiv x y).
Proof.
  destruct x as [|[]|a], y as [|[]|b]; simpl; auto.
  destruct (Z.eqb_spec b 0); [destruct (a =? 0); simpl; auto|]. apply rnd_wf; lia.
Qed.
Lemma fmin_wf x y : wf x -> wf y -> wf (fmin x y).
Proof.
  intros. destruct x as [|[]|a], y as [|[]|b]; simpl; auto. destruct (flt _ _); auto.
Qed.
Lemma fmax_wf x y : wf x -> wf y -> wf (fmax x y).
Proof.
  intros. destruct x as [|[]|a], y as [|[]|b]; simpl; auto. destruct (flt _ _); auto.
Qed.
Lemma of_Z_wf n : wf (of_Z n).
Proof. Transparent of_Z. unfold of_Z. Opaque of_Z. apply rnd_wf. lia. Qed.

Create HintDb f64.
#[export] Hint Resolve fneg_wf fabs_wf fadd_wf fsub_wf fmul_wf fdiv_wf fmin_wf fmax_wf of_Z_wf : f64.

Lemma fmul_opp_l x y : fmul (fneg x) y = fneg (fmul x y).
Proof.
  destruct x as [|[]|a], y as [|[]|b]; simpl; auto.
  all: try (destruct (Z.eqb_spec b 0); simpl; [auto|]; now rewrite ?negb_xorb_l).
  all: try (destruct (Z.eqb_spec (- a) 0), (Z.eqb_spec a 0); try lia; simpl; auto;
            destruct (Z.ltb_spec (- a) 0), (Z.ltb_spec a 0); simpl; auto; lia).
  all: try (destruct b; reflexivity).
  pose proof unit64_pos. rewrite Z.mul_opp_l. now rewrite rnd_opp.
Qed.

(** The same for values of either sign: the sign stays, the size shrinks. *)
Lemma fmul_shrink_abs x k :
  wf x -> finite x = true -> le_rel (Fin 0) k -> le_rel k (Fin unit64) ->
  finite (fmul x k) = true /\ le_rel (fabs (fmul x k)) (fabs x) /\
  (le_rel (Fin 0) x -> le_rel (Fin 0) (fmul x k)) /\
  (le_rel x (Fin 0) -> le_rel (fmul x k) (Fin 0)).
Proof.
  intros W Hf Hk Hk1.
  assert (Hpos : forall y, wf y -> finite y = true -> le_rel (Fin 0) y ->
    le_rel (Fin 0) (fmul y k) /\ le_rel (fmul y k) y).
  { intros y Wy Fy Hy.
    assert (N : rank (fmul y k) <> 2).
    { destruct y as [|[]|a], k as [|[]|b]; try discriminate; unfold le_rel in *; simpl in *; try lia.
      apply rnd_not_nan. }
    split; [apply fmul_nonneg|apply fmul_shrink]; auto. }
  destruct (Z_le_gt_dec 0 (val x)) as [Hx|Hx].
  - destruct (Hpos x W Hf) as [H1 H2]; [f64_lia|].
    assert (finite (fmul x k) = true) by f64_lia.
    split; [auto|]. split; [f64_lia|]. split; [auto|]. intros. f64_lia.
  - destruct (Hpos (fneg x)) as [H1 H2].
    { now apply fneg_wf. }
    { f64_lia. }
    { f64_lia. }
    rewrite fmul_opp_l in *.
    assert (finite (fmul x k) = true) by f64_lia.
    split; [auto|]. split; [f64_lia|]. split; intros; f64_lia.
Qed.

Lemma fdiv_nonneg x y :
  le_rel (Fin 0) x -> le_rel (Fin 0) y -> rank (fdiv x y) <> 2 -> le_rel (Fin 0) (fdiv x y).
Proof.
  pose proof unit64_pos.
  intros Hx Hy N. destruct x as [|[]|a], y as [|[]|b]; simpl in *;
    try (unfold le_rel in *; simpl in *; lia).
  - unfold le_rel in *; simpl in *. destruct (Z.ltb_spec b 0); simpl; lia.
  - unfold le_rel in Hx, Hy; simpl in *. destruct (Z.eqb_spec b 0).
    + destruct (Z.eqb_spec a 0); simpl in *; [lia|].
      unfold le_rel. destruct (Z.ltb_spec a 0); simpl; lia.
    + apply rnd_nonneg; [|lia]. rewrite (Z.sgn_pos b) by lia. nia.
Qed.

Lemma fdiv_le_1 x y :
  le_rel (Fin 0) x -> le_rel x y -> rank (fdiv x y) <> 2 -> le_rel (fdiv x y) (Fin unit64).
Proof.
  pose proof unit64_pos.
  intros Hx Hxy N. destruct x as [|[]|a], y as [|[]|b]; simpl in *;
    try (unfold le_rel in *; simpl in *; lia).
  unfold le_rel in Hx, Hxy; simpl in *. destruct (Z.eqb_spec b 0).
  - destruct (Z.eqb_spec a 0); simpl in *; lia.
  - apply rnd_le_1; [lia|]. rewrite (Z.sgn_pos b), (Z.abs_eq b) by lia. nia.
Qed.

(** ** Sanity: the values Go prints *)
Example add_01_02 : fadd (lit 1 10) (lit 2 10) = lit 30000000000000004 100000000000000000.
Proof. vm_compute. reflexivity. Qed.
Example add_01_02_not_03 : feq (fadd (lit 1 10) (lit 2 10)) (lit 3 10) = false.
Proof. vm_compute. reflexivity. Qed.
Example max_float_overflows : fadd (of_Z (2 ^ 1023)) (of_Z (2 ^ 1023)) = Inf false.
Proof. vm_compute. reflexivity. Qed.
Example min_inf_beats_nan : fmin (Inf true) NaN = Inf true /\ fmin (Inf false) NaN = NaN.
Proof. vm_compute. auto. Qed.

(** ** The order as rewriting lemmas *)
Lemma le_rel_refl x : rank x <> 2 -> le_rel x x.
Proof. pose proof (rank_ok_all x). unfold rank_ok, le_rel in *. lia. Qed.
Lemma le_rel_nn_l x y : le_rel x y -> rank x <> 2.
Proof. unfold le_rel. lia. Qed.
Lemma le_rel_nn_r x y : le_rel x y -> rank y <> 2.
Proof. unfold le_rel. lia. Qed.
Lemma le_rel_antisym x y : le_rel x y -> le_rel y x -> x = y.
Proof.
  pose proof (rank_ok_all x). pose proof (rank_ok_all y). unfold le_rel, rank_ok in *.
  intros. apply f64_ext; lia.
Qed.

Lemma fmin_l x y : le_rel x y -> fmin x y = x.
Proof.
  intros L. destruct (fmin_spec x y (le_rel_nn_l _ _ L) (le_rel_nn_r _ _ L)) as [[-> _]|[-> L']];
    [reflexivity|]. now apply le_rel_antisym.
Qed.
Lemma fmin_r x y : le_rel y x -> fmin x y = y.
Proof.
  intros L. destruct (fmin_spec x y (le_rel_nn_r _ _ L) (le_rel_nn_l _ _ L)) as [[-> L']|[-> _]];
    [|reflexivity]. now apply le_rel_antisym.
Qed.
Lemma fmax_l x y : le_rel y x -> fmax x y = x.
Proof.
  intros L. destruct (fmax_spec x y (le_rel_nn_r _ _ L) (le_rel_nn_l _ _ L)) as [[-> _]|[-> L']];
    [reflexivity|]. now apply le_rel_antisym.
Qed.
Lemma fmax_r x y : le_rel x y -> fmax x y = y.
Proof.
  intros L. destruct (fmax_spec x y (le_rel_nn_l _ _ L) (le_rel_nn_r _ _ L)) as [[-> L']|[-> _]];
    [|reflexivity]. now apply le_rel_antisym.
Qed.

Lemma fabs_mono_nonneg x y : le_rel (of_Z 0) x -> le_rel x y -> le_rel (fabs x) (fabs y).
Proof.
  rewrite of_Z_0. destruct x as [|[]|a], y as [|[]|b]; unfold le_rel; simpl; lia.
Qed.
Lemma fabs_mono_nonpos x y : le_rel y x -> le_rel x (of_Z 0) -> le_rel (fabs x) (fabs y).
Proof.
  rewrite of_Z_0. destruct x as [|[]|a], y as [|[]|b]; unfold le_rel; simpl; lia.
Qed.

Lemma flt_le x y : flt x y = true -> le_rel x y.
Proof. rewrite flt_iff. unfold le_rel. lia. Qed.
Lemma fle_false x y : fle x y = false -> rank x <> 2 -> rank y <> 2 -> le_rel y x.
Proof. rewrite fle_false_iff. unfold le_rel. lia. Qed.

(** A share of a whole is between 0 and 1, and is never NaN. *)
Lemma fdiv_ratio x y :
  rank x = 0 -> le_rel (of_Z 0) x -> le_rel x y -> flt (of_Z 0) y = true ->
  rank (fdiv x y) = 0 /\ le_rel (Fin 0) (fdiv x y) /\ le_rel (fdiv x y) (Fin unit64).
Proof.
  rewrite of_Z_0. intros Hx H0 Hxy Hy. apply flt_iff in Hy.
  assert (N : rank (fdiv x y) <> 2).
  { destruct x as [|[]|a], y as [|[]|b]; unfold le_rel in *; simpl in *; try lia.
    destruct (Z.eqb_spec b 0); [lia|]. apply rnd_not_nan. }
  assert (L0 : le_rel (Fin 0) (fdiv x y)).
  { apply fdiv_nonneg; [exact H0| |exact N]. eapply le_rel_trans; eassumption. }
  assert (L1 : le_rel (fdiv x y) (Fin unit64)) by (apply fdiv_le_1; assumption).
  split_and!; auto. pose proof (rank_ok_all (fdiv x y)). unfold le_rel, rank_ok in *. simpl in *. lia.
Qed.

(** Scaling by a share keeps the sign and never grows. *)
Lemma fmul_ratio x k :
  wf x -> rank x = 0 -> le_rel (Fin 0) k -> le_rel k (Fin unit64) ->
  rank (fmul x k) = 0 /\
  (le_rel (of_Z 0) x -> le_rel (of_Z 0) (fmul x k) /\ le_rel (fmul x k) x) /\
  (le_rel x (of_Z 0) -> le_rel (fmul x k) (of_Z 0) /\ le_rel x (fmul x k)).
Proof.
  rewrite of_Z_0. intros W Hx K0 K1.
  destruct (fmul_shrink_abs x k W ltac:(now apply finite_iff) K0 K1) as (F & S & P & N).
  apply finite_iff in F. split; [exact F|]. clear W K0 K1.
  destruct x as [|[]|a]; try discriminate Hx. destruct (fmul (Fin a) k) as [|[]|b]; try discriminate F.
  unfold le_rel in *. simpl in *. split; intros H; [specialize (P H)|specialize (N H)]; lia.
Qed.

Lemma fadd_of_nonneg x y :
  le_rel (of_Z 0) x -> le_rel (of_Z 0) y -> le_rel (of_Z 0) (fadd x y).
Proof. rewrite of_Z_0. apply fadd_nonneg. Qed.

Lemma fadd_of_ge x d : wf x -> rank x <> 2 -> rank (fadd x d) <> 2 -> le_rel (of_Z 0) d -> le_rel x (fadd x d).
Proof.
  rewrite of_Z_0. intros W Hx N Hd. rewrite <- (fadd_0_r x W) at 1.
  apply fadd_mono; auto; [now apply le_rel_refl|]. now rewrite fadd_0_r.
Qed.

Lemma fadd_nn_nonneg x y :
  le_rel (of_Z 0) x -> le_rel (of_Z 0) y -> rank (fadd x y) <> 2.
Proof. intros. eapply le_rel_nn_r. apply fadd_of_nonneg; eassumption. Qed.

Lemma fmul_comm x y : fmul x y = fmul y x.
Proof.
  destruct x as [|[]|a], y as [|[]|b]; simpl; auto;
    try (rewrite Z.mul_comm; reflexivity).
Qed.
Lemma fadd_comm x y : fadd x y = fadd y x.
Proof.
  destruct x as [|[]|a], y as [|[]|b]; try reflexivity. unfold fadd. now rewrite Z.add_comm.
Qed.

Lemma flt_le_contra x y : flt x y = true -> le_rel y x -> False.
Proof. rewrite flt_iff. unfold le_rel. lia. Qed.
Lemma le_flt_false x y : le_rel y x -> flt x y = false.
Proof. intros L. destruct (flt x y) eqn:E; [|reflexivity]. destruct (flt_le_contra _ _ E L). Qed.
Lemma flt_le_trans x y z : flt x y = true -> le_rel y z -> flt x z = true.
Proof. rewrite !flt_iff. unfold le_rel. lia. Qed.
Lemma le_flt_trans x y z : le_rel x y -> flt y z = true -> flt x z = true.
Proof. rewrite !flt_iff. unfold le_rel. lia. Qed.

Lemma rank_between x y : le_rel (of_Z 0) x -> le_rel x y -> rank y = 0 -> rank x = 0.
Proof.
  intros L M E. assert (R : rank (of_Z 0) = 0) by (apply of_Z_rank; lia).
  unfold le_rel in *. lia.
Qed.

(** ** Signs of sums, products and shares that may overflow *)
Lemma fmax_lub x y z : le_rel x z -> le_rel y z -> le_rel (fmax x y) z.
Proof.
  intros X Y. destruct (le_rel_total x y) as [L|L]; [exact (le_rel_nn_l _ _ X)|exact (le_rel_nn_l _ _ Y)| |].
  - now rewrite fmax_r.
  - now rewrite fmax_l.
Qed.
Lemma fmin_glb x y z : le_rel z x -> le_rel z y -> le_rel z (fmin x y).
Proof.
  intros X Y. destruct (le_rel_total x y) as [L|L]; [exact (le_rel_nn_r _ _ X)|exact (le_rel_nn_r _ _ Y)| |].
  - now rewrite fmin_l.
  - now rewrite fmin_r.
Qed.
Lemma fmax_nonneg x y : le_rel (of_Z 0) x -> le_rel (of_Z 0) y -> le_rel (of_Z 0) (fmax x y).
Proof.
  intros Hx Hy. destruct (fmax_spec x y (le_rel_nn_r _ _ Hx) (le_rel_nn_r _ _ Hy)) as [[-> _]|[-> _]]; assumption.
Qed.
Lemma fmax_0_nonneg x : rank x <> 2 -> le_rel (of_Z 0) (fmax (of_Z 0) x).
Proof.
  intros Hx. destruct (fmax_spec (of_Z 0) x ltac:(apply of_Z_nn; lia) Hx) as [[-> _]|[-> L]]; [|exact L].
  apply le_rel_refl, of_Z_nn. lia.
Qed.
Lemma fmul_mono_r c k k' :
  rank c = 0 -> rank k = 0 -> rank k' = 0 -> le_rel (of_Z 0) c -> le_rel k k' -> le_rel (fmul c k) (fmul c k').
Proof.
  rewrite of_Z_0. pose proof unit64_pos.
  destruct c as [|[]|c], k as [|[]|k], k' as [|[]|k']; try discriminate; intros _ _ _ Hc Hk.
  unfold le_rel in Hc, Hk. cbn in Hc, Hk. unfold fmul. apply rnd_mono; [lia|lia|].
  apply Z.mul_le_mono_nonneg_r; [lia|]. apply Z.mul_le_mono_nonneg_l; lia.
Qed.
Lemma fneg_anti x y : le_rel x y -> le_rel (fneg y) (fneg x).
Proof. destruct x as [|[]|a], y as [|[]|b]; unfold le_rel; cbn; lia. Qed.
Lemma rank_mid x y z : le_rel x y -> le_rel y z -> rank x = 0 -> rank z = 0 -> rank y = 0.
Proof. unfold le_rel. lia. Qed.
Lemma fmul_pos_nn x y :
  le_rel (of_Z 0) x -> flt (of_Z 0) y = true -> rank y = 0 -> rank (fmul x y) <> 2.
Proof.
  rewrite of_Z_0, flt_iff. destruct x as [|[]|a], y as [|[]|b]; unfold le_rel; cbn; intros; try lia.
  - destruct (Z.eqb_spec b 0); [lia|]. destruct (b <? 0); cbn; lia.
  - apply rnd_not_nan.
Qed.
Lemma fdiv_pos_nn x y : rank x <> 2 -> flt (of_Z 0) y = true -> rank y = 0 -> rank (fdiv x y) <> 2.
Proof.
  rewrite of_Z_0, flt_iff. destruct x as [|[]|a], y as [|[]|b]; cbn; intros; try lia.
  - destruct (b <? 0); cbn; lia.
  - destruct (b <? 0); cbn; lia.
  - destruct (Z.eqb_spec b 0); [lia|]. apply rnd_not_nan.
Qed.
Lemma fmul_of_nonneg x y :
  le_rel (of_Z 0) x -> le_rel (of_Z 0) y -> rank (fmul x y) <> 2 -> le_rel (of_Z 0) (fmul x y).
Proof. rewrite of_Z_0. apply fmul_nonneg. Qed.
Lemma fdiv_of_nonneg x y :
  le_rel (of_Z 0) x -> le_rel (of_Z 0) y -> rank (fdiv x y) <> 2 -> le_rel (of_Z 0) (fdiv x y).
Proof. rewrite of_Z_0. apply fdiv_nonneg. Qed.

(** Taking away what is not negative from what is not [+Inf] is a number. *)
Lemma fsub_nn_bounded x c y :
  rank x <> 2 -> le_rel x c -> rank c = 0 -> le_rel (of_Z 0) y -> rank (fsub x y) <> 2.
Proof.
  rewrite of_Z_0. unfold fsub. destruct x as [|[]|a], y as [|[]|b], c as [|[]|c]; unfold le_rel; cbn;
    intros; try lia; apply rnd_not_nan.
Qed.

Lemma fmax_ge_l x y : rank (fmax x y) <> 2 -> rank x = 0 -> le_rel x (fmax x y).
Proof.
  destruct x as [|[]|a]; try discriminate. intros N _. destruct y as [|[]|b].
  - now destruct N.
  - unfold le_rel. cbn. lia.
  - unfold le_rel. cbn. lia.
  - destruct (fmax_spec (Fin a) (Fin b)) as [[-> _]|[-> L]]; [discriminate|discriminate| |exact L].
    apply le_rel_refl. discriminate.
Qed.

(** ** Magnitudes bounded by an integer: sums of such cannot overflow *)
Definition within (b : Z) (x : f64) : Prop := le_rel (of_Z (- b)) x /\ le_rel x (of_Z b).

Lemma of_Z_add a b : Z.abs a <= 2 ^ 53 -> Z.abs b <= 2 ^ 53 -> Z.abs (a + b) <= 2 ^ 53 ->
  fadd (of_Z a) (of_Z b) = of_Z (a + b).
Proof.
  intros Ha Hb Hab. rewrite (of_Z_fin a Ha), (of_Z_fin b Hb). unfold fadd.
  rewrite <- Z.mul_add_distr_r, rnd_exact_int by exact Hab. symmetry. now apply of_Z_fin.
Qed.
Lemma within_rank b x : 0 <= b <= 2 ^ 53 -> within b x -> rank x = 0.
Proof. intros Hb [L U]. exact (rank_mid _ _ _ L U (of_Z_rank (- b) ltac:(lia)) (of_Z_rank b ltac:(lia))). Qed.
Lemma within_mono b b' x : 0 <= b <= b' -> b' <= 2 ^ 53 -> within b x -> within b' x.
Proof.
  intros Hb Hb' [L U]. split.
  - apply (le_rel_trans _ (of_Z (- b))); [apply of_Z_mono; lia|exact L].
  - apply (le_rel_trans _ (of_Z b)); [exact U|apply of_Z_mono; lia].
Qed.
Lemma within_fadd a b x y : 0 <= a -> 0 <= b -> a + b <= 2 ^ 53 -> within a x -> within b y -> within (a + b) (fadd x y).
Proof.
  intros Ha Hb Hab Hx Hy.
  pose proof (within_rank a x ltac:(lia) Hx) as Rx. pose proof (within_rank b y ltac:(lia) Hy) as Ry.
  pose proof (fadd_nn x y Rx Ry) as N. destruct Hx as [Lx Ux], Hy as [Ly Uy]. split.
  - replace (- (a + b)) with (- a + - b) by lia. rewrite <- of_Z_add by lia.
    apply fadd_mono; [exact Lx|exact Ly| |exact N]. rewrite of_Z_add by lia. apply of_Z_nn. lia.
  - rewrite <- of_Z_add by lia. apply fadd_mono; [exact Ux|exact Uy|exact N|].
    rewrite of_Z_add by lia. apply of_Z_nn. lia.
Qed.
Lemma of_Z_opp b : Z.abs b <= 2 ^ 53 -> fneg (of_Z b) = of_Z (- b).
Proof. intros H. rewrite (of_Z_fin b H), (of_Z_fin (- b)) by lia. cbn. f_equal. lia. Qed.
Lemma within_fneg b x : 0 <= b <= 2 ^ 53 -> within b x -> within b (fneg x).
Proof.
  intros Hb [L U]. apply fneg_anti in L, U. rewrite of_Z_opp in L, U by lia.
  rewrite Z.opp_involutive in L. split; assumption.
Qed.
Lemma within_fsub a b x y : 0 <= a -> 0 <= b -> a + b <= 2 ^ 53 -> within a x -> within b y -> within (a + b) (fsub x y).
Proof. intros. unfold fsub. apply within_fadd; auto. apply within_fneg; auto. lia. Qed.
Lemma within_fmax b x y : 0 <= b <= 2 ^ 53 -> within b x -> within b y -> within b (fmax x y).
Proof.
  intros Hb Hx Hy. destruct (fmax_spec x y (finite_nn _ (within_rank _ _ Hb Hx)) (finite_nn _ (within_rank _ _ Hb Hy)))
    as [[-> _]|[-> _]]; assumption.
Qed.
Lemma within_fmin b x y : 0 <= b <= 2 ^ 53 -> within b x -> within b y -> within b (fmin x y).
Proof.
  intros Hb Hx Hy. destruct (fmin_spec x y (finite_nn _ (within_rank _ _ Hb Hx)) (finite_nn _ (within_rank _ _ Hb Hy)))
    as [[-> _]|[-> _]]; assumption.
Qed.
Lemma within_0 b : 0 <= b <= 2 ^ 53 -> within b (of_Z 0).
Proof. intros Hb. split; apply of_Z_mono; lia. Qed.
Lemma within_of_Z b z : - b <= z <= b -> b <= 2 ^ 53 -> within b (of_Z z).
Proof. intros Hz Hb. split; apply of_Z_mono; lia. Qed.
Lemma within_between b x y z : le_rel x y -> le_rel y z -> within b x -> within b z -> within b y.
Proof. intros L U [Lx _] [_ Uz]. split; eapply le_rel_trans; eassumption. Qed.

(** ** Sums over a list *)
Definition sumSome {A : Type} (f : A -> option f64) (l : list A) : f64 :=
  fold_left (fun acc x => match f x with Some w => fadd acc w | None => acc end) l (of_Z 0).

(** A sum of amounts between 0 and [b] is a number in [0, n b]. *)
Lemma sumSome_within {A : Type} (f : A -> option f64) b l :
  0 <= b -> Z.of_nat (length l) * b <= 2 ^ 53 ->
  Forall (fun x => forall w, f x = Some w -> le_rel (of_Z 0) w /\ le_rel w (of_Z b)) l ->
  le_rel (of_Z 0) (sumSome f l) /\ within (Z.of_nat (length l) * b) (sumSome f l).
Proof.
  intros Hb Hn F. unfold sumSome.
  assert (G : forall k acc, 0 <= k -> (k + Z.of_nat (length l)) * b <= 2 ^ 53 ->
    le_rel (of_Z 0) acc -> within (k * b) acc ->
    let r := fold_left (fun acc x => match f x with Some w => fadd acc w | None => acc end) l acc in
    le_rel (of_Z 0) r /\ within ((k + Z.of_nat (length l)) * b) r).
  { clear Hn. induction F as [|x l Hx _ IH]; intros k acc Hk Hs L W; cbv zeta; cbn [fold_left].
    - cbn [length Z.of_nat]. rewrite Z.add_0_r. now split.
    - rewrite length_cons, Nat2Z.inj_succ in *. replace (k + Z.succ (Z.of_nat (length l))) with (k + 1 + Z.of_nat (length l)) in * by lia.
      apply IH; [lia|exact Hs| |].
      + destruct (f x) as [w|]; [|exact L]. now apply fadd_of_nonneg; [|apply Hx].
      + destruct (f x) as [w|]; [|apply (within_mono (k * b)); [nia|nia|exact W]].
        destruct (Hx w eq_refl) as [L0 L1]. replace ((k + 1) * b) with (k * b + b) by lia.
        apply within_fadd; [nia|lia|nia|exact W|].
        split; [|exact L1]. apply (le_rel_trans _ (of_Z 0)); [apply of_Z_mono; nia|exact L0]. }
  destruct (G 0 (of_Z 0)) as [L W]; [lia|lia| | |].
  - apply le_rel_refl, of_Z_nn. lia.
  - apply within_0. lia.
  - split; [exact L|]. rewrite Z.add_0_l in W. exact W.
Qed.

(** ** Not negative: at least zero, or not a number *)
Definition notNeg (x : f64) : Prop := flt x (of_Z 0) = false.
Lemma notNeg_fin z : notNeg (Fin z) <-> 0 <= z.
Proof. unfold notNeg. rewrite of_Z_0, flt_fin by reflexivity. exact (Z.ltb_ge z 0). Qed.
Lemma notNeg_cases x : notNeg x <-> x = NaN \/ x = Inf false \/ exists z, x = Fin z /\ 0 <= z.
Proof.
  destruct x as [|[]|z].
  - split; [auto|]. intros _. reflexivity.
  - split; [discriminate|]. intros [?|[?|(? & ? & _)]]; discriminate.
  - split; [auto|]. intros _. reflexivity.
  - rewrite notNeg_fin. split; [eauto|]. intros [?|[?|(z' & E & L)]]; try discriminate. congruence.
Qed.
Lemma notNeg_0 : notNeg (of_Z 0).
Proof. rewrite of_Z_0. now apply notNeg_fin. Qed.
Lemma notNeg_of_le x : le_rel (of_Z 0) x -> notNeg x.
Proof. exact (le_flt_false x (of_Z 0)). Qed.
Lemma notNeg_rnd n d : 0 <= n -> 0 < d -> notNeg (rnd n d).
Proof. intros. apply notNeg_of_le. rewrite of_Z_0. now apply rnd_nonneg. Qed.
Lemma notNeg_add x y : notNeg x -> notNeg y -> notNeg (fadd x y).
Proof.
  rewrite (notNeg_cases x), (notNeg_cases y). intros [->|[->|(a & -> & Ha)]] [->|[->|(b & -> & Hb)]]; try reflexivity.
  apply notNeg_rnd; lia.
Qed.
Lemma notNeg_mul x y : notNeg x -> notNeg y -> notNeg (fmul x y).
Proof.
  rewrite (notNeg_cases x), (notNeg_cases y). intros [->|[->|(a & -> & Ha)]] [->|[->|(b & -> & Hb)]]; try reflexivity.
  - cbn. destruct (Z.eqb_spec b 0); [reflexivity|]. destruct (Z.ltb_spec b 0); [lia|reflexivity].
  - cbn. destruct (Z.eqb_spec a 0); [reflexivity|]. destruct (Z.ltb_spec a 0); [lia|reflexivity].
  - apply notNeg_rnd; [nia|exact unit64_pos].
Qed.
Lemma pos_cases x : flt (of_Z 0) x = true -> x = Inf false \/ exists z, x = Fin z /\ 0 < z.
Proof.
  rewrite of_Z_0. destruct x as [|[]|z]; try discriminate; auto. rewrite flt_fin by reflexivity. cbn [val].
  rewrite Z.ltb_lt. eauto.
Qed.
Lemma notNeg_pos x : flt (of_Z 0) x = true -> notNeg x.
Proof. intros P. destruct (pos_cases _ P) as [->|(z & -> & L)]; [reflexivity|]. apply notNeg_fin. lia. Qed.
Lemma notNeg_div x y : notNeg x -> flt (of_Z 0) y = true -> notNeg (fdiv x y).
Proof.
  rewrite (notNeg_cases x). intros [->|[->|(a & -> & Ha)]] P; destruct (pos_cases _ P) as [->|(b & -> & Hb)]; try reflexivity.
  - change (notNeg (Inf (xorb false (b <? 0)))). now rewrite (proj2 (Z.ltb_ge b 0)) by lia.
  - unfold fdiv. pose proof unit64_pos. destruct (Z.eqb_spec b 0); [lia|]. rewrite Z.sgn_pos by lia. apply notNeg_rnd; nia.
Qed.
Lemma fle_false_flt x y : fle x y = false -> rank x <> 2 -> rank y <> 2 -> flt y x = true.
Proof. rewrite fle_false_iff, flt_iff. pose proof (rank_ok_all x). pose proof (rank_ok_all y). unfold rank_ok, le_rel in *. lia.
Qed.

Lemma fdiv_notNeg x y : notNeg x -> fle y (of_Z 0) = false -> notNeg (fdiv x y).
Proof.
  intros Hx E. destruct (isNaN y) eqn:N.
  - destruct y; try discriminate. now destruct x as [|[]|].
  - apply notNeg_div; [exact Hx|]. apply fle_false_flt; [exact E|now apply isNaN_false_iff|apply of_Z_nn; lia].
Qed.
Lemma notNeg_max0 x : notNeg (fmax (of_Z 0) x).
Proof.
  rewrite of_Z_0. destruct x as [|[]|z]; try reflexivity. cbn [fmax].
  destruct (flt (Fin z) (Fin 0)) eqn:E; [now apply notNeg_fin|]. unfold notNeg. now rewrite of_Z_0.
Qed.
Lemma notNeg_min x y : notNeg x -> notNeg y -> notNeg (fmin x y).
Proof.
  rewrite (notNeg_cases x), (notNeg_cases y). intros [->|[->|(a & -> & Ha)]] [->|[->|(b & -> & Hb)]]; try reflexivity;
    cbn [fmin]; destruct (flt _ _); try reflexivity; now apply notNeg_fin.
Qed.
#[export] Hint Resolve notNeg_0 notNeg_of_le notNeg_add notNeg_mul notNeg_div notNeg_max0 notNeg_min notNeg_pos : f64.

(** ** Choosing among floats *)
Lemma flt_irrefl x : flt x x = false.
Proof. destruct x as [|[]|z]; try reflexivity. rewrite flt_fin by reflexivity. apply Z.ltb_irrefl. Qed.
Lemma fmin_not_above x y : flt x (fmin x y) = false /\ flt y (fmin x y) = false.
Proof.
  destruct x as [|[]|a], y as [|[]|b]; try (split; first [reflexivity|apply flt_irrefl]). cbn [fmin].
  destruct (flt (Fin a) (Fin b)) eqn:E; split; try apply flt_irrefl; [|exact E].
  rewrite flt_fin in * by reflexivity. cbn [val] in *. apply Z.ltb_ge. apply Z.ltb_lt in E. lia.
Qed.
Lemma flt_trans x y z : flt x y = true -> flt y z = true -> flt x z = true.
Proof. intros A B. exact (flt_le_trans _ _ _ A (flt_le _ _ B)). Qed.
Lemma fmin_above z x y : flt z (fmin x y) = true -> flt z x = true /\ flt z y = true.
Proof.
  intros L. destruct (fmin_not_above x y) as [A B]. destruct (isNaN z) eqn:Nz; [destruct z; discriminate|].
  assert (N : rank x <> 2 /\ rank y <> 2).
  { clear A B. destruct z as [|[]|c], x as [|[]|a0], y as [|[]|b0]; try discriminate L; try discriminate Nz; split; discriminate. }
  apply isNaN_false_iff in Nz. destruct N as [Nx Ny].
  assert (M : rank (fmin x y) <> 2) by now apply fmin_nn.
  split; eapply flt_le_trans; try exact L; now apply flt_false.
Qed.
Lemma fmax_cases x y : fmax x y = x \/ fmax x y = y.
Proof. destruct x as [|[]|a], y as [|[]|b]; auto. cbn [fmax]. destruct (flt (Fin b) (Fin a)); auto. Qed.
Lemma fmax_above z x y : flt z (fmax x y) = true -> flt z x = false -> fmax x y = y /\ flt z y = true.
Proof. destruct (fmax_cases x y) as [->| ->]; intros L N; [congruence|auto]. Qed.
Lemma notNeg_max x y : notNeg x -> notNeg (fmax x y).
Proof.
  rewrite notNeg_cases. intros [->|[->|(a & -> & Ha)]]; destruct y as [|[]|b]; try reflexivity;
    try (now apply notNeg_fin). cbn [fmax]. destruct (flt (Fin b) (Fin a)) eqn:E; [now apply notNeg_fin|].
  rewrite flt_fin in E by reflexivity. apply Z.ltb_ge in E. cbn in E. apply notNeg_fin. lia.
Qed.
Lemma fmax_not_below x y z : flt x z = false -> flt (fmax x y) z = false.
Proof.
  destruct (isNaN (fmax x y)) eqn:N; [intros _; now destruct (fmax x y)|]. intros L.
  destruct (fmax_cases x y) as [E|E]; rewrite E; [exact L|]. rewrite E in N.
  destruct (flt y z) eqn:Y; [|reflexivity]. rewrite <- L. symmetry.
  assert (Ny : rank y <> 2) by now apply isNaN_false_iff.
  destruct (isNaN x) eqn:Nx.
  { destruct x; try discriminate Nx. destruct y as [|[]|]; try discriminate E; try discriminate N. destruct z as [|[]|]; first [discriminate Y|reflexivity]. }
  apply isNaN_false_iff in Nx. apply (le_flt_trans _ y); [|exact Y].
  destruct (fmax_spec x y Nx Ny) as [[E' F]|[E' F]]; [|exact F]. rewrite E' in E. subst y. now apply le_rel_refl.
Qed.

(** The built-in [max] and [min]: not a number as soon as one argument is not. *)
Definition bmax (x y : f64) : f64 := if isNaN x || isNaN y then NaN else fmax x y.
Definition bmin (x y : f64) : f64 := if isNaN x || isNaN y then NaN else fmin x y.
Lemma bmax_cases x y : bmax x y = NaN \/ bmax x y = fmax x y.
Proof. unfold bmax. destruct (_ || _); auto. Qed.
Lemma bmin_cases x y : bmin x y = NaN \/ bmin x y = fmin x y.
Proof. unfold bmin. destruct (_ || _); auto. Qed.
