(* ===== verification/GoTime.v ===== *)
(** * Go's [time.Time], [time.Duration] and fixed-width integers

    A [time.Time] is its nanoseconds since Go's zero time (January 1 of
    year 1, UTC), so the zero [time.Time] is [0] and [IsZero] tests for it.
    A [time.Duration] is an int64 of nanoseconds. *)
From S2P Require Import Prelude Float64.
From Stdlib Require Import ZArith Lia.
#[local] Open Scope Z_scope.

Definition Time := Z.
Definition Duration := Z.

(** ** int64 *)
Definition min_int64 : Z := - 2 ^ 63.
Definition max_int64 : Z := 2 ^ 63 - 1.
Definition wrap64 (z : Z) : Z := (z + 2 ^ 63) mod 2 ^ 64 - 2 ^ 63.
Definition wrap_u64 (z : Z) : Z := z mod 2 ^ 64.

(** ** Durations *)
Definition Nanosecond : Duration := 1.
Definition Millisecond : Duration := 1000000.
Definition Second : Duration := 1000000000.
Definition Minute : Duration := 60 * Second.
Definition Hour : Duration := 60 * Minute.

(** [Duration.Seconds]: whole seconds plus the rest over 1e9, both rounded. *)
Definition Seconds (d : Duration) : f64 :=
  fadd (of_Z (Z.quot d Second)) (fdiv (of_Z (Z.rem d Second)) (of_Z 1000000000)).
Definition Hours (d : Duration) : f64 :=
  fadd (of_Z (Z.quot d Hour)) (fdiv (of_Z (Z.rem d Hour)) (of_Z 3600000000000)).

(** ** Times *)
Definition zeroTime : Time := 0.
Definition IsZero (t : Time) : bool := t =? 0.
Definition After (t u : Time) : bool := u <? t.
Definition Before (t u : Time) : bool := t <? u.
Definition Equal (t u : Time) : bool := t =? u.
Definition Add (t : Time) (d : Duration) : Time := t + d.

(** [Time.Sub] saturates at the ends of the int64 range. *)
Definition Sub (t u : Time) : Duration :=
  Z.max min_int64 (Z.min max_int64 (t - u)).

(** Unix time: seconds and milliseconds since 1970, rounded down. *)
Definition unix_epoch : Time := 62135596800 * Second.
Definition Unix (t : Time) : Z := (t - unix_epoch) / Second.
Definition UnixMilli (t : Time) : Z := (t - unix_epoch) / Millisecond.
Definition of_UnixMilli (ms : Z) : Time := unix_epoch + ms * Millisecond.

(** ** Lemmas *)
Lemma wrap64_id z : min_int64 <= z <= max_int64 -> wrap64 z = z.
Proof. unfold min_int64, max_int64, wrap64. intros. rewrite Z.mod_small; lia. Qed.

Lemma wrap64_bounds z : min_int64 <= wrap64 z <= max_int64.
Proof.
  unfold min_int64, max_int64, wrap64.
  pose proof (Z.mod_pos_bound (z + 2 ^ 63) (2 ^ 64)). lia.
Qed.

Lemma Sub_exact t u : min_int64 <= t - u <= max_int64 -> Sub t u = t - u.
Proof. unfold Sub. lia. Qed.

(** For a duration inside the range, saturation does not change a test. *)
Lemma Sub_gt t u d : min_int64 <= d < max_int64 -> (d <? Sub t u) = (d <? t - u).
Proof. intros. unfold Sub, min_int64, max_int64 in *. destruct (Z.ltb_spec d (t - u)); lia. Qed.

Lemma Sub_ge t u d : min_int64 < d <= max_int64 -> (d <=? Sub t u) = (d <=? t - u).
Proof. intros. unfold Sub, min_int64, max_int64 in *. destruct (Z.leb_spec d (t - u)); lia. Qed.

Lemma of_UnixMilli_roundtrip ms : UnixMilli (of_UnixMilli ms) = ms.
Proof.
  unfold UnixMilli, of_UnixMilli.
  replace (unix_epoch + ms * Millisecond - unix_epoch) with (ms * Millisecond) by lia.
  apply Z.div_mul. discriminate.
Qed.

(** ** [Hours] of a duration that is not negative *)
Lemma Hours_parts d : 0 <= d <= max_int64 ->
  0 <= Z.quot d Hour <= 2562047 /\ 0 <= Z.rem d Hour < Hour /\ d = Hour * Z.quot d Hour + Z.rem d Hour.
Proof.
  intros Hd. pose proof (Z.quot_rem d Hour ltac:(discriminate)).
  assert (0 < Hour) by reflexivity.
  pose proof (Z.rem_bound_pos d Hour ltac:(lia) ltac:(lia)). split; [|lia].
  rewrite Z.quot_div_nonneg by lia. split; [apply Z.div_pos; lia|].
  apply Z.lt_succ_r, Z.div_lt_upper_bound; [lia|]. unfold max_int64, Hour, Minute, Second in *. lia.
Qed.

Definition rem_hours (r : Z) : f64 := fdiv (of_Z r) (of_Z 3600000000000).

Lemma rem_hours_mono a b : 0 <= a -> a <= b -> b < Hour -> le_rel (rem_hours a) (rem_hours b).
Proof.
  unfold rem_hours, Hour, Minute, Second. intros Ha Hab Hb.
  rewrite !of_Z_fin by lia. pose proof unit64_pos.
  unfold fdiv. destruct (Z.eqb_spec (3600000000000 * unit64) 0); [lia|].
  assert (S : 0 < 3600000000000 * unit64) by lia.
  rewrite (Z.sgn_pos _ S), (Z.abs_eq _ (Z.lt_le_incl _ _ S)), !Z.mul_1_l.
  apply rnd_mono; [exact S|exact S|].
  repeat apply Z.mul_le_mono_nonneg_r; lia.
Qed.

Lemma rem_hours_fact r : 0 <= r < Hour ->
  rank (rem_hours r) = 0 /\ le_rel (of_Z 0) (rem_hours r) /\
  (0 < r -> flt (of_Z 0) (rem_hours r) = true).
Proof.
  intros Hr.
  assert (M0 : le_rel (rem_hours 0) (rem_hours r)) by (apply rem_hours_mono; lia).
  assert (M1 : le_rel (rem_hours r) (rem_hours 3599999999999))
    by (apply rem_hours_mono; unfold Hour, Minute, Second in *; lia).
  assert (E0 : rem_hours 0 = of_Z 0) by (vm_compute; reflexivity).
  assert (E1 : rank (rem_hours 3599999999999) = 0) by (vm_compute; reflexivity).
  rewrite E0 in M0. split; [|split; [exact M0|]].
  - exact (rank_between _ _ M0 M1 E1).
  - intros Hp. assert (M2 : le_rel (rem_hours 1) (rem_hours r)) by (apply rem_hours_mono; lia).
    assert (E2 : flt (of_Z 0) (rem_hours 1) = true) by (vm_compute; reflexivity).
    exact (flt_le_trans _ _ _ E2 M2).
Qed.

Lemma Hours_fact d : 0 <= d <= max_int64 ->
  rank (Hours d) = 0 /\ le_rel (of_Z 0) (Hours d) /\ (0 < d -> flt (of_Z 0) (Hours d) = true) /\
  le_rel (Hours d) (of_Z 2562048).
Proof.
  intros Hd. destruct (Hours_parts d Hd) as (Hq & Hr & Ed). unfold Hours. fold (rem_hours (Z.rem d Hour)).
  destruct (rem_hours_fact _ Hr) as (R & N & P). set (q := Z.quot d Hour) in *.
  set (x := rem_hours (Z.rem d Hour)) in *.
  assert (Rq : rank (of_Z q) = 0) by (apply of_Z_rank; lia).
  assert (Nq : le_rel (of_Z 0) (of_Z q)) by (apply of_Z_mono; lia).
  assert (Nn : rank (fadd (of_Z q) x) <> 2) by (apply fadd_nn; assumption).
  assert (B : le_rel (fadd (of_Z q) x) (fadd (of_Z 2562047) (rem_hours 3599999999999))).
  { apply fadd_mono; [apply of_Z_mono; lia| |exact Nn|vm_compute; discriminate].
    apply rem_hours_mono; unfold Hour, Minute, Second in *; lia. }
  assert (E : rank (fadd (of_Z 2562047) (rem_hours 3599999999999)) = 0) by (vm_compute; reflexivity).
  assert (B' : le_rel (fadd (of_Z 2562047) (rem_hours 3599999999999)) (of_Z 2562048))
    by (apply fle_iff; vm_compute; reflexivity).
  pose proof (fadd_of_nonneg _ _ Nq N) as N0.
  split; [|split; [exact N0|split; [|exact (le_rel_trans _ _ _ B B')]]].
  - exact (rank_between _ _ N0 B E).
  - intros Hp. destruct (Z.eq_dec q 0) as [Eq|Hne].
    + assert (G : le_rel x (fadd (of_Z q) x)).
      { rewrite fadd_comm. apply fadd_of_ge; [unfold x, rem_hours; apply fdiv_wf|now apply finite_nn| |exact Nq].
        now rewrite fadd_comm. }
      exact (flt_le_trans _ _ _ (P ltac:(lia)) G).
    + assert (G : le_rel (of_Z q) (fadd (of_Z q) x))
        by (apply fadd_of_ge; [apply of_Z_wf|now apply finite_nn|exact Nn|exact N]).
      assert (G1 : le_rel (of_Z 1) (of_Z q)) by (apply of_Z_mono; lia).
      assert (E1 : flt (of_Z 0) (of_Z 1) = true) by (vm_compute; reflexivity).
      exact (flt_le_trans _ _ _ E1 (le_rel_trans _ _ _ G1 G)).
Qed.

Lemma Hours_nonpos d : min_int64 <= d <= 0 -> le_rel (Hours d) (of_Z 0).
Proof.
  intros Hd. unfold Hours. set (q := Z.quot d Hour). set (r := Z.rem d Hour).
  assert (Hh : 0 < Hour) by reflexivity.
  assert (Hr : - Hour < r <= 0) by (unfold r; pose proof (Z.rem_bound_pos_neg d Hour ltac:(lia) ltac:(lia)); lia).
  assert (Hq : -2562048 <= q <= 0).
  { unfold q. pose proof (Z.quot_rem d Hour ltac:(discriminate)) as E. fold q r in E. unfold min_int64, Hour, Minute, Second in *. nia. }
  assert (L : le_rel (fdiv (of_Z r) (of_Z 3600000000000)) (of_Z 0)).
  { unfold Hour, Minute, Second in Hr. rewrite of_Z_0, !of_Z_fin by lia. pose proof unit64_pos. unfold fdiv.
    destruct (Z.eqb_spec (3600000000000 * unit64) 0); [lia|]. apply rnd_nonpos; nia. }
  assert (N : rank (fadd (of_Z q) (fdiv (of_Z r) (of_Z 3600000000000))) <> 2).
  { rewrite of_Z_0 in L. rewrite (of_Z_fin q) by lia. destruct (fdiv (of_Z r) (of_Z 3600000000000)) as [|[]|z];
      unfold le_rel in L; cbn in L |- *; try lia; apply rnd_not_nan. }
  eapply le_rel_trans; [apply (fadd_mono _ (of_Z 0) _ (of_Z 0)); [apply of_Z_mono; lia|exact L|exact N|vm_compute; discriminate]|].
  apply fle_iff. vm_compute. reflexivity.
Qed.

(** ** [Seconds] of a duration that is not negative *)
Lemma Seconds_fact d : 0 <= d <= max_int64 -> rank (Seconds d) = 0 /\ le_rel (of_Z 0) (Seconds d).
Proof.
  intros Hd. unfold Seconds. assert (S0 : 0 < Second) by reflexivity.
  pose proof (Z.rem_bound_pos d Second ltac:(lia) S0) as Hr.
  assert (Hq : 0 <= Z.quot d Second <= 9223372036).
  { rewrite Z.quot_div_nonneg by lia. split; [apply Z.div_pos; lia|].
    apply Z.lt_succ_r, Z.div_lt_upper_bound; [lia|]. unfold max_int64, Second in *. lia. }
  set (q := Z.quot d Second) in *. set (r := Z.rem d Second) in *. unfold Second in *.
  assert (Lr : le_rel (of_Z r) (of_Z 1000000000)) by (apply of_Z_mono; lia).
  assert (P : flt (of_Z 0) (of_Z 1000000000) = true) by (vm_compute; reflexivity).
  assert (L0 : le_rel (of_Z 0) (of_Z r)) by (apply of_Z_mono; lia).
  assert (Rr : rank (of_Z r) = 0) by (apply of_Z_rank; lia).
  destruct (fdiv_ratio (of_Z r) (of_Z 1000000000) Rr L0 Lr P) as (R & N & U).
  set (x := fdiv _ _) in *. clearbody x. rewrite <- of_Z_0 in N. rewrite <- of_Z_1 in U.
  assert (Rq : rank (of_Z q) = 0) by (apply of_Z_rank; lia).
  assert (Lq : le_rel (of_Z 0) (of_Z q)) by (apply of_Z_mono; lia).
  pose proof (fadd_of_nonneg _ _ Lq N) as N0. split; [|exact N0].
  refine (rank_between _ (fadd (of_Z 9223372036) (of_Z 1)) N0 _ _).
  - apply fadd_mono; [apply of_Z_mono; lia|exact U|now apply fadd_nn|vm_compute; discriminate].
  - vm_compute. reflexivity.
Qed.
