(* ===== verification/Rfc3339.v ===== *)
(** * [time.Parse] with the layout [time.RFC3339Nano]

    The standard library's parser for the one layout the code uses, on the
    characters of a string: [2006-01-02T15:04:05.999999999Z07:00]. The hour may
    have one digit, a fraction may be absent, may start with a comma and keeps
    nine digits; the zone is [Z] or a signed offset of at most 24:60. *)
From Stdlib Require Import ZArith Lia Ascii String.
From S2P Require Import Prelude Float64 GoTime.
From stdpp Require Import base list strings.
#[local] Open Scope Z_scope.

(** ** Parsers on characters *)
Definition chars : Type := list ascii.
Definition parser (A : Type) : Type := chars -> option (A * chars).

Definition pret {A} (a : A) : parser A := fun s => Some (a, s).
Definition pbind {A B} (p : parser A) (f : A -> parser B) : parser B :=
  fun s => match p s with Some (a, rest) => f a rest | None => None end.
#[local] Notation "x <~ p ;; q" := (pbind p (fun x => q)) (at level 100, p at next level, right associativity).

Definition digit (c : ascii) : option Z :=
  let n := Z.of_nat (nat_of_ascii c) in
  if (48 <=? n) && (n <=? 57) then Some (n - 48) else None.

Definition pdigit : parser Z :=
  fun s => match s with c :: rest => match digit c with Some d => Some (d, rest) | None => None end | [] => None end.
Definition pchar (c : ascii) : parser unit :=
  fun s => match s with d :: rest => if ascii_dec c d then Some (tt, rest) else None | [] => None end.
Definition pcheck (b : bool) : parser unit := fun s => if b then Some (tt, s) else None.

(** [getnum] with [fixed]: exactly two digits. *)
Definition two : parser Z := a <~ pdigit ;; b <~ pdigit ;; pret (10 * a + b).
(** [getnum] without: one digit, or two. *)
Definition oneOrTwo : parser Z :=
  a <~ pdigit ;;
  fun s => match pdigit s with Some (b, rest) => Some (10 * a + b, rest) | None => Some (a, s) end.
Definition four : parser Z := a <~ two ;; b <~ two ;; pret (100 * a + b).

(** The digits at the front of a string. *)
Fixpoint digits (s : chars) : list Z * chars :=
  match s with
  | c :: rest =>
      match digit c with
      | Some d => let '(ds, r) := digits rest in (d :: ds, r)
      | None => ([], s)
      end
  | [] => ([], [])
  end.
(** Nine digits of a fraction, in nanoseconds. *)
Definition nanoseconds (ds : list Z) : Z :=
  fold_left (fun n d => 10 * n + d) (take 9 (ds ++ replicate 9 0)) 0.

Definition fraction : parser Z :=
  fun s => match s with
  | c :: rest =>
      if ascii_dec c "."%char then match digits rest with ([], _) => Some (0, s) | (ds, r) => Some (nanoseconds ds, r) end
      else if ascii_dec c ","%char then match digits rest with ([], _) => Some (0, s) | (ds, r) => Some (nanoseconds ds, r) end
      else Some (0, s)
  | [] => Some (0, [])
  end.

(** The zone's offset in seconds. *)
Definition offset : parser Z :=
  fun s => match s with
  | c :: rest =>
      if ascii_dec c "Z"%char then Some (0, rest)
      else
        let sign := if ascii_dec c "+"%char then Some 1 else if ascii_dec c "-"%char then Some (-1) else None in
        match sign with
        | None => None
        | Some g =>
            (h <~ two ;; _ <~ pchar ":" ;; m <~ two ;;
             _ <~ pcheck ((h <=? 24) && (m <=? 60)) ;; pret (g * (60 * (60 * h + m)))) rest
        end
  | [] => None
  end.

(** ** The calendar *)
Definition isLeap (year : Z) : bool :=
  (year mod 4 =? 0) && (negb (year mod 100 =? 0) || (year mod 400 =? 0)).
Definition daysIn (month year : Z) : Z :=
  if (month =? 2) && isLeap year then 29
  else nth (Z.to_nat (month - 1)) [31; 28; 31; 30; 31; 30; 31; 31; 30; 31; 30; 31] 0.
(** Days from January 1 of year 1. *)
Definition daysTo (year month day : Z) : Z :=
  let y := year - 1 in
  365 * y + y / 4 - y / 100 + y / 400 +
  fold_left (fun n m => n + daysIn m year) (seqZ 1 (month - 1)) 0 + (day - 1).

Definition rfc3339 : parser Time :=
  year <~ four ;; _ <~ pchar "-" ;; month <~ two ;; _ <~ pchar "-" ;; day <~ two ;; _ <~ pchar "T" ;;
  hour <~ oneOrTwo ;; _ <~ pchar ":" ;; minute <~ two ;; _ <~ pchar ":" ;; second <~ two ;;
  nsec <~ fraction ;; off <~ offset ;;
  _ <~ pcheck ((1 <=? month) && (month <=? 12) && (1 <=? day) && (day <=? daysIn month year) &&
               (hour <? 24) && (minute <? 60) && (second <? 60)) ;;
  pret ((86400 * daysTo year month day + 3600 * hour + 60 * minute + second - off) * Second + nsec).

(** The whole string, [None] on an error. *)
Definition ParseRFC3339Nano (s : string) : option Time :=
  match rfc3339 (list_ascii_of_string s) with Some (t, []) => Some t | _ => None end.

Example parse_epoch : ParseRFC3339Nano "1970-01-01T00:00:00Z" = Some unix_epoch.
Proof. vm_compute. reflexivity. Qed.
Example parse_zone : ParseRFC3339Nano "2024-02-29T8:30:15,25+02:00" = Some (unix_epoch + 1709188215250 * Millisecond).
Proof. vm_compute. reflexivity. Qed.
Example parse_refused :
  ParseRFC3339Nano "2023-02-29T08:30:15Z" = None /\ ParseRFC3339Nano "2024-02-29T08:30:15" = None /\
  ParseRFC3339Nano "2024-02-29T08:30:15Z " = None /\ ParseRFC3339Nano "2024-02-29T24:00:00Z" = None.
Proof. vm_compute. auto. Qed.
