(* ===== verification/Json.v ===== *)
(** * Decoded JSON, as the code reads driver data

    [json.RawMessage] payloads are modelled after the standard library's
    scanner: empty, not valid JSON, or a value. Object keys are compared
    exactly; drivers emit snake case, and encoding/json's case folding of keys
    is not modelled. The last of two equal keys wins, as in encoding/json. *)
From S2P Require Import Prelude Float64 GoTime.
From Stdlib Require Import ZArith Lia.
From stdpp Require Import base gmap strings list.
#[local] Open Scope Z_scope.

(** A number keeps its float64 value and, when it is written as an integer,
    that integer: [Unmarshal] into int64 takes only those in range. *)
#[warnings="-register-all"]
Inductive json : Type :=
| JNull
| JBool (b : bool)
| JNum (f : f64) (int : option Z)
| JString (s : string)
| JArray
| JObject (fields : list (string * json)).

Inductive RawMessage : Type :=
| RawEmpty
| RawInvalid
| RawJson (j : json).

(** The value of a key: the last entry with it. *)
Fixpoint lookup_last (k : string) (fs : list (string * json)) : option json :=
  match fs with
  | [] => None
  | (k', v) :: rest =>
      match lookup_last k rest with
      | Some w => Some w
      | None => if bool_decide (k = k') then Some v else None
      end
  end.

(** The fields of a payload that decodes to an object or [null]. *)
Definition obj_fields (d : RawMessage) : option (list (string * json)) :=
  match d with
  | RawJson (JObject fs) => Some fs
  | RawJson JNull => Some []
  | _ => None
  end.

(** Decoding one field into a pointer: an error, absent or null, or a value. *)
Inductive field (A : Type) : Type :=
| FErr
| FAbsent
| FVal (a : A).
Arguments FErr {A}.
Arguments FAbsent {A}.
Arguments FVal {A} a.

Definition bool_field (k : string) (fs : list (string * json)) : field bool :=
  match lookup_last k fs with
  | None | Some JNull => FAbsent
  | Some (JBool b) => FVal b
  | Some _ => FErr
  end.

Definition num_field (k : string) (fs : list (string * json)) : field f64 :=
  match lookup_last k fs with
  | None | Some JNull => FAbsent
  | Some (JNum f _) => if finite f then FVal f else FErr
  | Some _ => FErr
  end.

(** [json.Unmarshal] of one raw value into an int64 or a bool variable that
    starts at zero: [null] leaves it, a wrong type or range is an error. *)
Definition as_int64 (j : json) : option Z :=
  match j with
  | JNull => Some 0
  | JNum _ (Some n) => if (min_int64 <=? n) && (n <=? max_int64) then Some n else None
  | _ => None
  end.

Definition as_bool (j : json) : option bool :=
  match j with
  | JNull => Some false
  | JBool b => Some b
  | _ => None
  end.

Definition field_opt {A} (f : field A) : option A :=
  match f with FVal a => Some a | _ => None end.
Definition field_err {A} (f : field A) : bool :=
  match f with FErr => true | _ => false end.

Lemma num_field_finite k fs a : num_field k fs = FVal a -> finite a = true.
Proof.
  unfold num_field. intros H. repeat case_scrut_in H; try discriminate. congruence.
Qed.
