(* ===== verification/PIController.v ===== *)
(** * The PI controller (go/internal/control/pi.go)

    The record and its three methods, in float64. The invariant [pi_ok] is
    what the shipped controller ([NewState]) starts from; every operation
    keeps it, and under it no update can produce NaN or leave the limits. *)
From S2P Require Import Prelude Float64.
From Stdlib Require Import ZArith Lia.
From stdpp Require Import base list.
#[local] Open Scope Z_scope.

Record PIController : Type := mkPI {
  Setpoint : f64;
  Kp : f64;
  Ki : f64;
  IntegralLimit : f64;
  OutputLimit : f64;
  integral : f64
}.

Record PIOutput : Type := mkPIOutput { P : f64; I : f64; Output : f64; Error : f64 }.

Definition NewPI (kp ki iLimit outputLimit : f64) : PIController :=
  mkPI (of_Z 0) kp ki iLimit outputLimit (of_Z 0).

Definition with_integral (p : PIController) (i : f64) : PIController :=
  mkPI (Setpoint p) (Kp p) (Ki p) (IntegralLimit p) (OutputLimit p) i.

(** The symmetric clamp both branches of [Update] spell out. *)
Definition clamp_sym (x limit : f64) : f64 :=
  if flt limit x then limit else if flt x (fneg limit) then fneg limit else x.

Definition Update (p : PIController) (measurement : f64) : PIController * PIOutput :=
  let err := fsub (Setpoint p) measurement in
  let pTerm := fmul (Kp p) err in
  let i := clamp_sym (fadd (integral p) (fmul (Ki p) err)) (IntegralLimit p) in
  let out := clamp_sym (fadd pTerm i) (OutputLimit p) in
  (with_integral p i, mkPIOutput pTerm i out err).

Definition Reset (p : PIController) : PIController := with_integral p (of_Z 0).

Definition DecayIntegral (p : PIController) (factor : f64) : PIController :=
  let factor := if flt factor (of_Z 0) then of_Z 0 else factor in
  let factor := if flt (of_Z 1) factor then of_Z 1 else factor in
  with_integral p (fmul (integral p) factor).

Definition Integral (p : PIController) : f64 := integral p.

(** A run of the controller over a sequence of measurements. *)
Fixpoint run (p : PIController) (ms : list f64) : PIController * list PIOutput :=
  match ms with
  | [] => (p, [])
  | m :: rest =>
      let '(p1, o) := Update p m in
      let '(p2, os) := run p1 rest in
      (p2, o :: os)
  end.

(** The controller [NewState] builds. *)
Definition default_pi (gridTarget : f64) : PIController :=
  let p := NewPI (lit 5 10) (lit 1 10) (of_Z 3000) (of_Z 10000) in
  mkPI gridTarget (Kp p) (Ki p) (IntegralLimit p) (OutputLimit p) (integral p).

(** ** Invariant *)
Definition within (x limit : f64) : Prop :=
  finite x = true /\ fle (fneg limit) x = true /\ fle x limit = true.

Definition limit_ok (l : f64) : Prop := finite l = true /\ fle (of_Z 0) l = true.

Record pi_ok (p : PIController) : Prop := {
  ok_setpoint : finite (Setpoint p) = true;
  ok_kp : finite (Kp p) = true /\ fne (Kp p) (of_Z 0) = true;
  ok_ki : finite (Ki p) = true /\ fne (Ki p) (of_Z 0) = true;
  ok_ilimit : limit_ok (IntegralLimit p);
  ok_olimit : limit_ok (OutputLimit p);
  ok_integral : within (integral p) (IntegralLimit p);
  ok_wf : wf (integral p) /\ wf (IntegralLimit p)
}.

(** ** Lemmas *)
#[local] Arguments Update : simpl never.

Lemma clamp_within x l : isNaN x = false -> limit_ok l -> within (clamp_sym x l) l.
Proof.
  unfold within, limit_ok, clamp_sym. intros Hx [Hf Hl].
  destruct (flt l x) eqn:E1; [|destruct (flt x (fneg l)) eqn:E2]; repeat split; f64_lia.
Qed.

Lemma clamp_wf x l : wf x -> wf l -> wf (clamp_sym x l).
Proof. unfold clamp_sym. intros. repeat case_scrut; auto with f64. Qed.

(** A finite or infinite error never turns into NaN in a gain. *)
Lemma gain_not_nan k e :
  finite k = true -> fne k (of_Z 0) = true -> isNaN e = false -> isNaN (fmul k e) = false.
Proof.
  rewrite of_Z_0. destruct k as [|[]|k], e as [|[]|e]; try discriminate; simpl; intros _ Hk _.
  all: try (destruct (Z.eqb_spec k 0) as [->|]; [discriminate Hk|reflexivity]).
  rewrite isNaN_false_iff. apply rnd_not_nan.
Qed.

Lemma sub_finite_not_nan a b : finite a = true -> finite b = true -> isNaN (fsub a b) = false.
Proof.
  destruct a as [|[]|a], b as [|[]|b]; try discriminate. intros _ _.
  rewrite isNaN_false_iff. apply rnd_not_nan.
Qed.

Lemma add_finite_not_nan a b : finite a = true -> isNaN b = false -> isNaN (fadd a b) = false.
Proof.
  destruct a as [|[]|a], b as [|[]|b]; try discriminate; intros _ _; try reflexivity.
  rewrite isNaN_false_iff. apply rnd_not_nan.
Qed.

Lemma add_comm a b : fadd a b = fadd b a.
Proof.
  destruct a as [|[]|a], b as [|[]|b]; try reflexivity. simpl. now rewrite Z.add_comm.
Qed.

Lemma update_step p m :
  pi_ok p -> finite m = true ->
  pi_ok (fst (Update p m)) /\
  within (Output (snd (Update p m))) (OutputLimit p) /\
  I (snd (Update p m)) = integral (fst (Update p m)).
Proof.
  intros [Hs [Hkp Hkp0] [Hki Hki0] Hil Hol Hint [Hw Hwl]] Hm.
  pose proof (sub_finite_not_nan _ _ Hs Hm) as Herr.
  pose proof (gain_not_nan _ _ Hkp Hkp0 Herr) as Hp.
  pose proof (gain_not_nan _ _ Hki Hki0 Herr) as Hi.
  pose proof (add_finite_not_nan _ _ (proj1 Hint) Hi) as Hsum.
  pose proof (clamp_within _ _ Hsum Hil) as Hcl.
  unfold Update. simpl. split; [|split; [|reflexivity]].
  - constructor; simpl; auto. split; [|auto]. apply clamp_wf; auto with f64.
  - apply clamp_within; auto. rewrite add_comm. apply add_finite_not_nan; [apply Hcl|auto].
Qed.

Lemma default_ok t : finite t = true -> pi_ok (default_pi t).
Proof.
  intros Ht. constructor; simpl; auto; try (vm_compute; auto; fail);
    unfold limit_ok, within; repeat split; auto with f64; vm_compute; reflexivity.
Qed.

Lemma run_keeps p ms :
  pi_ok p -> Forall (fun m => finite m = true) ms ->
  pi_ok (fst (run p ms)) /\
  OutputLimit (fst (run p ms)) = OutputLimit p /\
  Forall (fun o => within (Output o) (OutputLimit p)) (snd (run p ms)).
Proof.
  revert p. induction ms as [|m ms IH]; intros p Hp Hms; cbn [run]; [auto|].
  apply Forall_cons_1 in Hms as [Hm Hms].
  destruct (update_step p m Hp Hm) as (H1 & H2 & _).
  destruct (Update p m) as [p1 o] eqn:E. simpl in *.
  assert (EO : OutputLimit p1 = OutputLimit p) by (injection E as <- <-; reflexivity).
  specialize (IH p1 H1 Hms). destruct (run p1 ms) as [p2 os]. simpl in *. rewrite EO in IH.
  destruct IH as (? & ? & ?). split_and!; auto.
Qed.

(** ** Properties *)

(** However long the shipped controller runs, and whatever finite meter
    readings it gets, every output it returns is a number within
    ±10000 W and its integral stays within ±3000: saturation cannot wind it
    up and no reading can turn it into NaN or infinity. *)
Theorem default_pi_bounded (target : f64) (ms : list f64) :
  finite target = true ->
  Forall (fun m => finite m = true) ms ->
  Forall (fun o => within (Output o) (of_Z 10000)) (snd (run (default_pi target) ms)) /\
  within (Integral (fst (run (default_pi target) ms))) (of_Z 3000).
Proof.
  intros Ht Hms. pose proof (default_ok target Ht) as H0.
  destruct (run_keeps _ ms H0 Hms) as (H1 & _ & H3). split; [exact H3|].
  assert (L : forall p l, IntegralLimit (fst (run p l)) = IntegralLimit p).
  { clear. intros p l. revert p. induction l as [|m l IH]; intros p; cbn [run]; [auto|].
    destruct (Update p m) as [p1 o] eqn:E. specialize (IH p1).
    destruct (run p1 l). simpl in *. rewrite IH. injection E as <- <-. reflexivity. }
  pose proof (ok_integral _ H1) as Hi. rewrite L in Hi. exact Hi.
Qed.

Lemma default_pi_bounded_witness :
  within (Integral (fst (run (default_pi (of_Z 0)) [of_Z 2000; of_Z (-90000); Fin 1]))) (of_Z 3000).
Proof.
  refine (proj2 (default_pi_bounded (of_Z 0) [of_Z 2000; of_Z (-90000); Fin 1] _ _)).
  - vm_compute; reflexivity.
  - repeat constructor.
Defined.

(** [DecayIntegral] keeps the controller's invariant and never moves the
    integral away from zero or across it, for every factor that is a number. *)
Theorem decay_shrinks (p : PIController) (factor : f64) :
  pi_ok p -> isNaN factor = false ->
  pi_ok (DecayIntegral p factor) /\
  fle (fabs (Integral (DecayIntegral p factor))) (fabs (Integral p)) = true /\
  (fle (of_Z 0) (Integral p) = true -> fle (of_Z 0) (Integral (DecayIntegral p factor)) = true) /\
  (fle (Integral p) (of_Z 0) = true -> fle (Integral (DecayIntegral p factor)) (of_Z 0) = true).
Proof.
  intros Hok Hf. destruct Hok as [Hs Hkp Hki Hil Hol [Hi1 Hi2] [Hw Hwl]].
  unfold DecayIntegral. set (k := if flt (of_Z 1) _ then _ else _). cbv zeta.
  assert (Hk : le_rel (Fin 0) k /\ le_rel k (Fin unit64)).
  { rewrite <- of_Z_0, <- of_Z_1. subst k.
    repeat case_scrut; split; f64_lia. }
  destruct Hk as [Hk0 Hk1].
  destruct (fmul_shrink_abs (integral p) k Hw Hi1 Hk0 Hk1) as (F & S & Pos & Neg).
  rewrite !of_Z_0, !fle_iff. unfold Integral, with_integral. simpl.
  split; [|auto]. constructor; simpl; auto.
  - unfold within. split; [auto|]. destruct Hil. clear Pos Neg Hk0 Hk1. clearbody k. split; f64_lia.
  - split; [apply fmul_wf|auto].
Qed.

Lemma decay_shrinks_witness :
  let p := fst (run (default_pi (of_Z 0)) [of_Z (-90000)]) in
  fle (fabs (Integral (DecayIntegral p (lit 6 10)))) (fabs (Integral p)) = true.
Proof.
  intros p. refine (proj1 (proj2 (decay_shrinks p (lit 6 10) _ _))).
  - apply run_keeps; [apply default_ok; reflexivity|repeat constructor].
  - reflexivity.
Defined.
