(* ===== verification/Kalman.v ===== *)
(** * The scalar Kalman filter (go/internal/telemetry/kalman.go)

    One filter smooths one power signal. The store builds every filter with
    process noise 100 W and measurement noise 50 W; [tuned] is that setting
    and [kalman_ok] the invariant the store's filters keep. *)
From S2P Require Import Prelude Float64.
From Stdlib Require Import ZArith Lia.
From stdpp Require Import base list.
#[local] Open Scope Z_scope.

Record KalmanFilter1D : Type := mkKalman {
  Estimate : f64;
  Uncertainty : f64;
  ProcessNoise : f64;
  MeasurementNoise : f64;
  initialized : bool
}.

Definition NewKalman (process measurement : f64) : KalmanFilter1D :=
  mkKalman (of_Z 0) (of_Z 1000) process measurement false.

(** The gain of one step, from the predicted uncertainty. *)
Definition gain (k : KalmanFilter1D) : f64 :=
  let predUnc := fadd (Uncertainty k) (ProcessNoise k) in
  fdiv predUnc (fadd predUnc (MeasurementNoise k)).

Definition KUpdate (k : KalmanFilter1D) (measurement : f64) : KalmanFilter1D * f64 :=
  if negb (initialized k) then
    (mkKalman measurement (MeasurementNoise k) (ProcessNoise k) (MeasurementNoise k) true,
     measurement)
  else
    let predUnc := fadd (Uncertainty k) (ProcessNoise k) in
    let g := fdiv predUnc (fadd predUnc (MeasurementNoise k)) in
    let e := fadd (Estimate k) (fmul g (fsub measurement (Estimate k))) in
    (mkKalman e (fmul (fsub (of_Z 1) g) predUnc) (ProcessNoise k) (MeasurementNoise k) true, e).

Definition Initialized (k : KalmanFilter1D) : bool := initialized k.

(** ** Invariant of the store's filters *)
Definition tuned (k : KalmanFilter1D) : Prop :=
  ProcessNoise k = of_Z 100 /\ MeasurementNoise k = of_Z 50.

Record kalman_ok (k : KalmanFilter1D) : Prop := {
  ko_tuned : tuned k;
  ko_unc_lo : le_rel (of_Z 0) (Uncertainty k);
  ko_unc_hi : le_rel (Uncertainty k) (of_Z 1000);
  ko_wf : wf (Estimate k)
}.

(** ** Interval arithmetic on the step

    Rounded arithmetic is monotone, so bounds are computed at the ends. *)
Lemma fadd_box x a b y :
  le_rel a x -> le_rel x b -> rank a = 0 -> rank b = 0 -> rank y = 0 ->
  le_rel (fadd a y) (fadd x y) /\ le_rel (fadd x y) (fadd b y).
Proof.
  intros Ha Hb Ra Rb Ry.
  assert (Rx : rank x = 0) by f64_lia.
  split; apply fadd_mono; auto; first [f64_nn | f64_lia].
Qed.

Lemma fdiv_mono_num x x' y :
  le_rel x x' -> le_rel (Fin 1) y -> rank x = 0 -> rank x' = 0 -> rank y = 0 ->
  le_rel (fdiv x y) (fdiv x' y).
Proof.
  destruct x as [|[]|a], x' as [|[]|a'], y as [|[]|b]; try discriminate; intros Hx Hy _ _ _.
  unfold le_rel in Hx, Hy; simpl in *. pose proof unit64_pos.
  destruct (Z.eqb_spec b 0); [lia|]. rewrite (Z.sgn_pos b), (Z.abs_eq b) by lia.
  apply rnd_mono; [lia..|]. do 2 (apply Z.mul_le_mono_nonneg_r; [lia|]). lia.
Qed.

Lemma fdiv_mono_den x y y' :
  le_rel (Fin 0) x -> le_rel (Fin 1) y -> le_rel y y' ->
  rank x = 0 -> rank y = 0 -> rank y' = 0 ->
  le_rel (fdiv x y') (fdiv x y).
Proof.
  destruct x as [|[]|a], y as [|[]|b], y' as [|[]|b']; try discriminate; intros Hx Hy Hyy _ _ _.
  unfold le_rel in *; simpl in *. pose proof unit64_pos.
  destruct (Z.eqb_spec b 0); [lia|]. destruct (Z.eqb_spec b' 0); [lia|].
  rewrite (Z.sgn_pos b), (Z.abs_eq b), (Z.sgn_pos b'), (Z.abs_eq b') by lia.
  apply rnd_mono; [lia..|]. apply Z.mul_le_mono_nonneg_l; [|lia]. nia.
Qed.

(** One step whose predicted uncertainty [p] lies in [lo, hi]: [den] and [g]
    are the step's denominator and gain, [top] and [glo] their bounds. *)
Record step_ctx (p lo hi den top g glo : f64) : Prop := {
  sc_wf : wf p;
  sc_lo : le_rel lo p;
  sc_hi : le_rel p hi;
  sc_rlo : rank lo = 0;
  sc_rhi : rank hi = 0;
  sc_pos : le_rel (of_Z 100) lo;
  sc_den : den = fadd p (of_Z 50);
  sc_top : top = fadd hi (of_Z 50);
  sc_g : g = fdiv p den;
  sc_glo : glo = fdiv lo top;
  sc_rtop : rank top = 0;
  sc_rglo : rank glo = 0
}.

Lemma step_rank_p p lo hi : le_rel lo p -> le_rel p hi -> rank lo = 0 -> rank hi = 0 -> rank p = 0.
Proof. intros. f64_lia. Qed.

(** [p <= p + 50 <= hi + 50], all finite. *)
Lemma step_den p lo hi den top g glo :
  step_ctx p lo hi den top g glo -> le_rel p den /\ le_rel den top /\ rank den = 0.
Proof.
  intros [Wp Hlo Hhi Rlo Rhi _ Eden Etop _ _ Rtop _].
  pose proof (step_rank_p p lo hi Hlo Hhi Rlo Rhi) as Rp.
  destruct (fadd_box p lo hi (of_Z 50)) as [_ H2]; [exact Hlo|exact Hhi|exact Rlo|exact Rhi|f64_fin|].
  rewrite <- Eden, <- Etop in H2.
  assert (N : rank den <> 2) by (rewrite Eden; apply fadd_nn; f64_fin).
  assert (H1 : le_rel p den).
  { rewrite <- (fadd_0_r p Wp) at 1. rewrite Eden in *.
    apply fadd_mono; [clear - Rp; f64_lia|clear; f64_lia|apply fadd_nn; f64_fin|exact N]. }
  split; [exact H1|split; [exact H2|]]. clear - H1 H2 Rtop Rp. f64_lia.
Qed.

Lemma step_gain p lo hi den top g glo :
  step_ctx p lo hi den top g glo -> le_rel glo g /\ le_rel g (of_Z 1).
Proof.
  intros C. destruct (step_den _ _ _ _ _ _ _ C) as (H1 & H2 & R).
  destruct C as [Wp Hlo Hhi Rlo Rhi Hpos Eden Etop Eg Eglo Rtop Rglo].
  pose proof (step_rank_p p lo hi Hlo Hhi Rlo Rhi) as Rp.
  assert (D0 : le_rel (Fin 1) den) by (clear - H1 Hlo Hpos Rlo R Rp; f64_lia).
  assert (D1 : le_rel (Fin 1) top) by (clear - D0 H2 Rtop R; f64_lia).
  assert (P0 : le_rel (Fin 0) p) by (clear - Hlo Hpos Rlo Rp; f64_lia).
  split.
  - assert (A : le_rel glo (fdiv p top)) by (rewrite Eglo; apply fdiv_mono_num; auto).
    assert (B : le_rel (fdiv p top) g) by (rewrite Eg; apply fdiv_mono_den; auto).
    clear - A B. f64_lia.
  - rewrite of_Z_1, Eg. apply fdiv_le_1; auto.
    apply fdiv_nn; auto. clear - D0 R. f64_lia.
Qed.

Lemma step_bound p lo hi den top g glo :
  step_ctx p lo hi den top g glo ->
  le_rel (of_Z 0) (fmul (fsub (of_Z 1) g) p) /\
  le_rel (fmul (fsub (of_Z 1) g) p) (fmul (fsub (of_Z 1) glo) hi).
Proof.
  intros C. destruct (step_gain _ _ _ _ _ _ _ C) as [G1 G2].
  destruct C as [Wp Hlo Hhi Rlo Rhi Hpos _ _ _ _ _ Rglo].
  pose proof (step_rank_p p lo hi Hlo Hhi Rlo Rhi) as Rp.
  assert (P0 : le_rel (Fin 0) p) by (clear - Hlo Hpos Rlo Rp; f64_lia).
  assert (Rg : rank g = 0) by (clear - G1 G2 Rglo; f64_lia).
  assert (N : rank (fsub (of_Z 1) g) <> 2) by (apply fsub_nn; f64_fin).
  assert (N' : rank (fsub (of_Z 1) glo) <> 2) by (apply fsub_nn; f64_fin).
  assert (A : le_rel (fsub (of_Z 1) g) (fsub (of_Z 1) glo)).
  { unfold fsub in N, N' |- *. apply fadd_mono; [| |exact N|exact N'].
    - clear. f64_lia.
    - clear - G1 Rg Rglo; f64_lia. }
  assert (B : le_rel (Fin 0) (fsub (of_Z 1) g)) by (apply fsub_nonneg; [exact G2|exact N]).
  assert (NN : forall a b, le_rel (Fin 0) a -> le_rel (Fin 1) b -> rank b = 0 -> rank (fmul a b) <> 2).
  { clear. intros a b Ha Hb Rb. destruct b as [|[]|b]; try discriminate Rb.
    unfold le_rel in *; simpl in *.
    destruct a as [|[]|a]; simpl in *; try lia; [|apply rnd_not_nan].
    destruct (Z.eqb_spec b 0); [lia|]. destruct (Z.ltb_spec b 0); simpl; lia. }
  assert (P1 : le_rel (Fin 1) p) by (clear - Hlo Hpos Rlo Rp; f64_lia).
  assert (H1 : le_rel (Fin 1) hi) by (clear - P1 Hhi Rhi Rp; f64_lia).
  assert (B' : le_rel (Fin 0) (fsub (of_Z 1) glo)) by (clear - A B; f64_lia).
  rewrite of_Z_0. split.
  - apply fmul_nonneg; [exact B|exact P0|exact (NN _ _ B P1 Rp)].
  - apply fmul_mono_nonneg;
      [exact B|exact A|exact P0|exact Hhi|exact (NN _ _ B P1 Rp)|exact (NN _ _ B' H1 Rhi)].
Qed.

(** ** The invariant over a step *)

(** The two bands of predicted uncertainty: [100, 300] and [300, 1100]. *)
Lemma band_ctx p lo hi :
  wf p -> le_rel (of_Z lo) p -> le_rel p (of_Z hi) -> 100 <= lo <= 300 -> 300 <= hi <= 1100 ->
  rank (fadd (of_Z hi) (of_Z 50)) = 0 ->
  rank (fdiv (of_Z lo) (fadd (of_Z hi) (of_Z 50))) = 0 ->
  step_ctx p (of_Z lo) (of_Z hi) (fadd p (of_Z 50)) (fadd (of_Z hi) (of_Z 50))
    (fdiv p (fadd p (of_Z 50))) (fdiv (of_Z lo) (fadd (of_Z hi) (of_Z 50))).
Proof.
  intros W Hl Hh Bl Bh R1 R2.
  constructor; [exact W|exact Hl|exact Hh|f64_fin|f64_fin|apply of_Z_mono; lia| | | | |exact R1|exact R2];
    reflexivity.
Qed.

Lemma band_ctx' p lo hi :
  wf p -> le_rel (of_Z lo) p -> le_rel p (of_Z hi) -> 100 <= lo <= 300 -> 300 <= hi <= 1100 ->
  finite (fadd (of_Z hi) (of_Z 50)) = true ->
  finite (fdiv (of_Z lo) (fadd (of_Z hi) (of_Z 50))) = true ->
  step_ctx p (of_Z lo) (of_Z hi) (fadd p (of_Z 50)) (fadd (of_Z hi) (of_Z 50))
    (fdiv p (fadd p (of_Z 50))) (fdiv (of_Z lo) (fadd (of_Z hi) (of_Z 50))).
Proof. rewrite !finite_iff. apply band_ctx. Qed.

Lemma band_unc p lo hi :
  wf p -> le_rel (of_Z lo) p -> le_rel p (of_Z hi) -> 100 <= lo <= 300 -> 300 <= hi <= 1100 ->
  finite (fadd (of_Z hi) (of_Z 50)) && finite (fdiv (of_Z lo) (fadd (of_Z hi) (of_Z 50))) &&
  fle (fmul (fsub (of_Z 1) (fdiv (of_Z lo) (fadd (of_Z hi) (of_Z 50)))) (of_Z hi)) (of_Z 1000) = true ->
  le_rel (of_Z 0) (fmul (fsub (of_Z 1) (fdiv p (fadd p (of_Z 50)))) p) /\
  le_rel (fmul (fsub (of_Z 1) (fdiv p (fadd p (of_Z 50)))) p) (of_Z 1000).
Proof.
  intros W Hl Hh Bl Bh H.
  apply andb_true_iff in H as [H H3]. apply andb_true_iff in H as [H1 H2].
  apply finite_iff in H1, H2. apply fle_iff in H3.
  destruct (step_bound _ _ _ _ _ _ _ (band_ctx p lo hi W Hl Hh Bl Bh H1 H2)) as [A B].
  split; [exact A|exact (le_rel_trans _ _ _ B H3)].
Qed.

Lemma predict_bounds u : le_rel (of_Z 0) u -> le_rel u (of_Z 1000) ->
  le_rel (of_Z 100) (fadd u (of_Z 100)) /\ le_rel (fadd u (of_Z 100)) (of_Z 1100).
Proof.
  intros H0 H1. destruct (fadd_box u (of_Z 0) (of_Z 1000) (of_Z 100)) as [A B];
    [exact H0|exact H1|f64_fin|f64_fin|f64_fin|].
  assert (E0 : fadd (of_Z 0) (of_Z 100) = of_Z 100) by (vm_compute; reflexivity).
  assert (E1 : fadd (of_Z 1000) (of_Z 100) = of_Z 1100) by (vm_compute; reflexivity).
  rewrite E0 in A. rewrite E1 in B. split; [exact A|exact B].
Qed.

Lemma new_kalman_ok : kalman_ok (NewKalman (of_Z 100) (of_Z 50)).
Proof. constructor; [split; reflexivity|apply of_Z_mono; lia..|apply of_Z_wf]. Qed.

Lemma KUpdate_ok k m : wf m -> kalman_ok k -> kalman_ok (fst (KUpdate k m)).
Proof.
  intros Wm [[Tq Tr] Ulo Uhi We]. unfold KUpdate. destruct (initialized k); simpl.
  2: { constructor; [split; auto|simpl; rewrite Tr; apply of_Z_mono; lia..|exact Wm]. }
  destruct (predict_bounds _ Ulo Uhi) as [Plo Phi].
  rewrite Tq, Tr. set (p := fadd (Uncertainty k) (of_Z 100)) in *.
  assert (W : wf p) by apply fadd_wf. clearbody p.
  assert (B : le_rel p (of_Z 300) \/ le_rel (of_Z 300) p).
  { pose proof (of_Z_rank 300). unfold le_rel in *. lia. }
  assert (R : le_rel (of_Z 0) (fmul (fsub (of_Z 1) (fdiv p (fadd p (of_Z 50)))) p) /\
              le_rel (fmul (fsub (of_Z 1) (fdiv p (fadd p (of_Z 50)))) p) (of_Z 1000)).
  { destruct B as [B|B].
    - apply (band_unc p 100 300 W Plo B); [lia|lia|vm_compute; reflexivity].
    - apply (band_unc p 300 1100 W B Phi); [lia|lia|vm_compute; reflexivity]. }
  destruct R as [R1 R2]. constructor; [split; reflexivity|exact R1|exact R2|apply fadd_wf].
Qed.

Lemma gain_bounds k : kalman_ok k -> le_rel (Fin 0) (gain k) /\ le_rel (gain k) (Fin unit64).
Proof.
  intros [[Tq Tr] Ulo Uhi _]. unfold gain. rewrite Tq, Tr.
  destruct (predict_bounds _ Ulo Uhi) as [Plo Phi].
  set (p := fadd (Uncertainty k) (of_Z 100)) in *.
  assert (W : wf p) by apply fadd_wf. clearbody p.
  assert (C : step_ctx p (of_Z 100) (of_Z 1100) (fadd p (of_Z 50)) (fadd (of_Z 1100) (of_Z 50))
    (fdiv p (fadd p (of_Z 50))) (fdiv (of_Z 100) (fadd (of_Z 1100) (of_Z 50)))).
  { apply band_ctx'; [exact W|exact Plo|exact Phi|lia|lia|vm_compute; reflexivity..]. }
  destruct (step_gain _ _ _ _ _ _ _ C) as [A B]. rewrite of_Z_1 in B. split; [|exact B].
  apply (le_rel_trans _ _ _) with (2 := A). apply fle_iff. vm_compute. reflexivity.
Qed.

(** Rounding never carries [x + d] to the wrong side of [x]. *)
Lemma fadd_ge x d : wf x -> rank x = 0 -> le_rel (Fin 0) d -> le_rel x (fadd x d).
Proof.
  intros W R Hd. rewrite <- (fadd_0_r x W) at 1.
  destruct x as [|[]|a]; try discriminate R. apply fadd_mono; try exact Hd.
  - unfold le_rel; simpl; lia.
  - apply rnd_not_nan.
  - destruct d as [|[]|d]; unfold le_rel in Hd; simpl in *; try lia. apply rnd_not_nan.
Qed.

Lemma fadd_le x d : wf x -> rank x = 0 -> le_rel d (Fin 0) -> le_rel (fadd x d) x.
Proof.
  intros W R Hd. rewrite <- (fadd_0_r x W) at 2.
  destruct x as [|[]|a]; try discriminate R. apply fadd_mono; try exact Hd.
  - unfold le_rel; simpl; lia.
  - destruct d as [|[]|d]; unfold le_rel in Hd; simpl in *; try lia. apply rnd_not_nan.
  - apply rnd_not_nan.
Qed.

(** ** Property *)

(** The smoothed value moves toward the measurement and never past a
    full step to it, and the filter keeps its invariant, in exact float64
    arithmetic. A full step is [est + (m - est)] as float64 computes it. *)
Theorem kalman_moves_toward (k : KalmanFilter1D) (m : f64) :
  kalman_ok k -> initialized k = true -> finite (Estimate k) = true ->
  wf m -> finite m = true -> finite (fsub m (Estimate k)) = true ->
  let e := snd (KUpdate k m) in
  let full := fadd (Estimate k) (fsub m (Estimate k)) in
  kalman_ok (fst (KUpdate k m)) /\
  (fle (Estimate k) m = true -> fle (Estimate k) e = true /\ fle e full = true) /\
  (fle m (Estimate k) = true -> fle e (Estimate k) = true /\ fle full e = true).
Proof.
  intros Hok Hi He Wm Hm Hd e full. split; [apply KUpdate_ok; auto|].
  assert (Ee : e = fadd (Estimate k) (fmul (gain k) (fsub m (Estimate k)))).
  { unfold e, KUpdate, gain. rewrite Hi. reflexivity. }
  destruct (gain_bounds k Hok) as [G0 G1]. pose proof (ko_wf k Hok) as We. rewrite Ee.
  clear Ee e. unfold full. clear full. set (d := fsub m (Estimate k)) in *.
  rewrite fmul_comm.
  destruct (fmul_shrink_abs d (gain k)) as (F & S & Pos & Neg); auto; [apply fsub_wf|].
  apply finite_iff in He, Hm, Hd, F.
  assert (M : forall a b, rank a = 0 -> rank b = 0 -> le_rel a b ->
    le_rel (fadd (Estimate k) a) (fadd (Estimate k) b)).
  { intros a b Ra Rb Hab.
    apply fadd_mono; [unfold le_rel; lia|exact Hab|apply fadd_nn; auto|apply fadd_nn; auto]. }
  rewrite !fle_iff. split; intros Hle.
  - assert (D0 : le_rel (Fin 0) d) by (apply fsub_nonneg; [exact Hle|apply fsub_nn; auto]).
    specialize (Pos D0). clear Neg. split; [apply fadd_ge; auto|]. apply M; auto.
    clear - F S Pos D0 Hd. clearbody d. f64_lia.
  - assert (D0 : le_rel d (Fin 0)) by (apply fsub_nonpos; [exact Hle|apply fsub_nn; auto]).
    specialize (Neg D0). clear Pos. split; [apply fadd_le; auto|]. apply M; auto.
    clear - F S Neg D0 Hd. clearbody d. f64_lia.
Qed.

Lemma kalman_moves_toward_witness :
  let k := fst (KUpdate (NewKalman (of_Z 100) (of_Z 50)) (of_Z 3000)) in
  fle (of_Z 1000) (snd (KUpdate k (of_Z 1000))) = true /\
  fle (snd (KUpdate k (of_Z 1000))) (Estimate k) = true.
Proof.
  intros k. split; [vm_compute; reflexivity|].
  refine (proj1 (proj2 (proj2 (kalman_moves_toward k (of_Z 1000) _ _ _ _ _ _)) _));
    try (vm_compute; reflexivity).
  - apply KUpdate_ok; [apply of_Z_wf|apply new_kalman_ok].
Defined.
