(* ===== verification/Health.v ===== *)
(** * Driver health (go/internal/telemetry/store.go: DriverHealth)

    The record a driver's polls, the watchdog and the command tracker write,
    as a state machine: one definition per method, and [health_op] for the
    events that reach it. Times come in as arguments where the code reads the
    clock. *)
From S2P Require Import Prelude Float64 GoTime.
From Stdlib Require Import ZArith Lia.
From stdpp Require Import base gmap strings list.
#[local] Open Scope Z_scope.

Inductive DriverStatus : Type := StatusOk | StatusDegraded | StatusOffline.
#[export] Instance DriverStatus_eq : EqDecision DriverStatus.
Proof. solve_decision. Defined.

Record DriverHealth : Type := mkHealth {
  hName : string;
  Status : DriverStatus;
  LastSuccess : option Time;
  ConsecutiveErrors : Z;
  LastError : string;
  TickCount : Z;
  StartedAt : Time;
  WatchdogTimeoutOverride : Duration;
  DeviceFault : bool;
  DeviceFaultReason : string;
  driverFault : bool;
  driverFaultReason : string;
  commandFault : bool;
  commandFaultReason : string
}.

Definition NewHealth (name : string) (now : Time) : DriverHealth :=
  mkHealth name StatusOk None 0 "" 0 now 0 false "" false "" false "".

Definition refreshDeviceFault (h : DriverHealth) : DriverHealth :=
  mkHealth (hName h) (Status h) (LastSuccess h) (ConsecutiveErrors h) (LastError h) (TickCount h)
    (StartedAt h) (WatchdogTimeoutOverride h)
    (driverFault h || commandFault h)
    (if driverFault h then driverFaultReason h
     else if commandFault h then commandFaultReason h else "")
    (driverFault h) (driverFaultReason h) (commandFault h) (commandFaultReason h).

Definition RecordSuccess (now : Time) (h : DriverHealth) : DriverHealth :=
  mkHealth (hName h) StatusOk (Some now) 0 "" (wrap_u64 (TickCount h + 1))
    (StartedAt h) (WatchdogTimeoutOverride h) (DeviceFault h) (DeviceFaultReason h)
    (driverFault h) (driverFaultReason h) (commandFault h) (commandFaultReason h).

Definition RecordTick (h : DriverHealth) : DriverHealth :=
  mkHealth (hName h) (Status h) (LastSuccess h) (ConsecutiveErrors h) (LastError h)
    (wrap_u64 (TickCount h + 1))
    (StartedAt h) (WatchdogTimeoutOverride h) (DeviceFault h) (DeviceFaultReason h)
    (driverFault h) (driverFaultReason h) (commandFault h) (commandFaultReason h).

Definition RecordError (err : string) (h : DriverHealth) : DriverHealth :=
  let errors := wrap64 (ConsecutiveErrors h + 1) in
  mkHealth (hName h)
    (if (3 <=? errors) && negb (bool_decide (Status h = StatusOffline)) then StatusDegraded
     else Status h)
    (LastSuccess h) errors err (wrap_u64 (TickCount h + 1))
    (StartedAt h) (WatchdogTimeoutOverride h) (DeviceFault h) (DeviceFaultReason h)
    (driverFault h) (driverFaultReason h) (commandFault h) (commandFaultReason h).

(** The status write shared by [SetOffline] and the scan's recovery. *)
Definition with_status (s : DriverStatus) (errors : Z) (h : DriverHealth) : DriverHealth :=
  mkHealth (hName h) s (LastSuccess h) errors (LastError h) (TickCount h)
    (StartedAt h) (WatchdogTimeoutOverride h) (DeviceFault h) (DeviceFaultReason h)
    (driverFault h) (driverFaultReason h) (commandFault h) (commandFaultReason h).

Definition SetOffline (h : DriverHealth) : DriverHealth :=
  with_status StatusOffline (ConsecutiveErrors h) h.

Definition SetDeviceFault (faulted : bool) (reason : string) (h : DriverHealth) : DriverHealth :=
  refreshDeviceFault
    (mkHealth (hName h) (Status h) (LastSuccess h) (ConsecutiveErrors h) (LastError h) (TickCount h)
       (StartedAt h) (WatchdogTimeoutOverride h) (DeviceFault h) (DeviceFaultReason h)
       faulted (if faulted then reason else "") (commandFault h) (commandFaultReason h)).

Definition SetCommandFault (faulted : bool) (reason : string) (h : DriverHealth) : DriverHealth :=
  refreshDeviceFault
    (mkHealth (hName h) (Status h) (LastSuccess h) (ConsecutiveErrors h) (LastError h) (TickCount h)
       (StartedAt h) (WatchdogTimeoutOverride h) (DeviceFault h) (DeviceFaultReason h)
       (driverFault h) (driverFaultReason h) faulted (if faulted then reason else "")).

Definition SetTimeout (d : Duration) (h : DriverHealth) : DriverHealth :=
  mkHealth (hName h) (Status h) (LastSuccess h) (ConsecutiveErrors h) (LastError h) (TickCount h)
    (StartedAt h) d (DeviceFault h) (DeviceFaultReason h)
    (driverFault h) (driverFaultReason h) (commandFault h) (commandFaultReason h).

Definition IsOnline (h : DriverHealth) : bool :=
  negb (bool_decide (Status h = StatusOffline)) && negb (DeviceFault h).

Definition TelemetryLive (h : DriverHealth) : bool :=
  negb (bool_decide (Status h = StatusOffline)).

Definition LastReadFailed (h : DriverHealth) : bool := 0 <? ConsecutiveErrors h.

(** One driver's part of [WatchdogScan]: whether it is stale, and the change. *)
Definition stale (timeout : Duration) (now : Time) (h : DriverHealth) : bool :=
  let eff := if 0 <? WatchdogTimeoutOverride h then WatchdogTimeoutOverride h else timeout in
  let since := match LastSuccess h with Some t => t | None => StartedAt h end in
  IsZero since || (eff <? Sub now since).

Definition scan_step (timeout : Duration) (now : Time) (h : DriverHealth)
  : DriverHealth * option bool :=
  let wasOnline := negb (bool_decide (Status h = StatusOffline)) in
  if stale timeout now h && wasOnline then (SetOffline h, Some false)
  else if negb (stale timeout now h) && negb wasOnline then (with_status StatusOk 0 h, Some true)
  else (h, None).

(** ** The events that reach one record *)
Inductive health_op : Type :=
| OpSuccess (now : Time)
| OpTick
| OpError (err : string)
| OpDeviceFault (faulted : bool) (reason : string)
| OpCommandFault (faulted : bool) (reason : string)
| OpTimeout (d : Duration)
| OpScan (timeout : Duration) (now : Time).

Definition apply_op (h : DriverHealth) (op : health_op) : DriverHealth :=
  match op with
  | OpSuccess now => RecordSuccess now h
  | OpTick => RecordTick h
  | OpError e => RecordError e h
  | OpDeviceFault f r => SetDeviceFault f r h
  | OpCommandFault f r => SetCommandFault f r h
  | OpTimeout d => SetTimeout d h
  | OpScan t now => fst (scan_step t now h)
  end.

Definition apply_ops (h : DriverHealth) (ops : list health_op) : DriverHealth :=
  fold_left apply_op ops h.

(** ** Specification

    The derived fault is a function of its two sources, and a record keeps
    the last verdict each source gave. *)
Definition fault_ok (h : DriverHealth) : Prop :=
  DeviceFault h = driverFault h || commandFault h /\
  DeviceFaultReason h =
    (if driverFault h then driverFaultReason h
     else if commandFault h then commandFaultReason h else ""%string).

(** The last verdict of each source in a history. *)
Fixpoint last_verdict (pick : health_op -> option bool) (ops : list health_op) (init : bool) : bool :=
  match ops with
  | [] => init
  | op :: rest => last_verdict pick rest (match pick op with Some b => b | None => init end)
  end.

Definition driver_verdict (op : health_op) : option bool :=
  match op with OpDeviceFault f _ => Some f | _ => None end.
Definition command_verdict (op : health_op) : option bool :=
  match op with OpCommandFault f _ => Some f | _ => None end.

(** Operations that may lift a driver out of offline. *)
Definition revives (op : health_op) : bool :=
  match op with OpSuccess _ | OpScan _ _ => true | _ => false end.

(** ** Lemmas *)
Lemma scan_fields t now h :
  driverFault (fst (scan_step t now h)) = driverFault h /\
  commandFault (fst (scan_step t now h)) = commandFault h /\
  LastSuccess (fst (scan_step t now h)) = LastSuccess h /\
  StartedAt (fst (scan_step t now h)) = StartedAt h /\
  WatchdogTimeoutOverride (fst (scan_step t now h)) = WatchdogTimeoutOverride h /\
  (fault_ok h -> fault_ok (fst (scan_step t now h))).
Proof.
  unfold scan_step, SetOffline, with_status.
  destruct (stale t now h && _); [|destruct (negb (stale t now h) && _)];
    unfold fault_ok; simpl; tauto.
Qed.

Lemma apply_op_fault_ok h op : fault_ok h -> fault_ok (apply_op h op).
Proof.
  intros H. destruct op; simpl; try exact H; try (split; reflexivity).
  now apply scan_fields.
Qed.

Lemma apply_op_verdicts h op :
  driverFault (apply_op h op) =
    match driver_verdict op with Some b => b | None => driverFault h end /\
  commandFault (apply_op h op) =
    match command_verdict op with Some b => b | None => commandFault h end.
Proof. destruct op; simpl; auto. destruct (scan_fields timeout now h) as (? & ? & _). auto. Qed.

Lemma apply_ops_verdicts ops h :
  driverFault (apply_ops h ops) = last_verdict driver_verdict ops (driverFault h) /\
  commandFault (apply_ops h ops) = last_verdict command_verdict ops (commandFault h).
Proof.
  revert h. induction ops as [|op ops IH]; intros h; simpl; [auto|].
  destruct (apply_op_verdicts h op) as [E1 E2].
  unfold apply_ops in *. simpl. destruct (IH (apply_op h op)) as [-> ->].
  now rewrite E1, E2.
Qed.

Lemma offline_stays h op :
  Status h = StatusOffline -> revives op = false -> Status (apply_op h op) = StatusOffline.
Proof.
  intros H. destruct op; simpl; try discriminate; auto. intros _.
  rewrite H, bool_decide_true, andb_false_r; auto.
Qed.

(** ** Properties *)

(** The two writers of a device fault cannot undo each other: after any
    sequence of events, a record counts as faulted exactly when the driver's
    own last verdict or Core's last command verdict says so, so neither a
    healthy poll, a success, an error nor a watchdog scan clears it. *)
Theorem fault_is_last_verdicts (name : string) (born : Time) (ops : list health_op) :
  let h := apply_ops (NewHealth name born) ops in
  DeviceFault h =
    last_verdict driver_verdict ops false || last_verdict command_verdict ops false /\
  (DeviceFault h = true -> IsOnline h = false).
Proof.
  intros h. assert (Hok : fault_ok h).
  { unfold h. assert (H0 : fault_ok (NewHealth name born)) by (split; reflexivity).
    clear h. revert H0. generalize (NewHealth name born).
    induction ops as [|op ops IH]; intros h H; [exact H|]. apply IH, apply_op_fault_ok, H. }
  destruct Hok as [E _]. destruct (apply_ops_verdicts ops (NewHealth name born)) as [E1 E2].
  fold h in E1, E2. split; [now rewrite E, E1, E2|].
  intros F. unfold IsOnline. rewrite F. apply andb_false_r.
Qed.

(** Only fresh data brings an offline driver back. Through any run of
    ticks, errors, fault verdicts and timeout changes an offline record stays
    offline; a watchdog scan lifts it only when its last success (or its
    start, before one) is within the timeout. *)
Theorem offline_until_fresh (h : DriverHealth) (ops : list health_op) :
  Status h = StatusOffline ->
  Forall (fun op => revives op = false) ops ->
  Status (apply_ops h ops) = StatusOffline /\
  forall timeout now,
    Status (apply_op (apply_ops h ops) (OpScan timeout now)) =
      if stale timeout now (apply_ops h ops) then StatusOffline else StatusOk.
Proof.
  intros H Hops. assert (Hs : Status (apply_ops h ops) = StatusOffline).
  { revert h H. induction Hops as [|op ops Hop _ IH]; intros h H; [exact H|].
    apply IH. now apply offline_stays. }
  split; [exact Hs|]. intros t now. simpl. unfold scan_step. rewrite Hs, bool_decide_true by auto.
  destruct (stale t now _); simpl; [exact Hs|reflexivity].
Qed.

Lemma offline_until_fresh_witness :
  let h := SetOffline (NewHealth "meter" 5) in
  Status (apply_ops h [OpTick; OpError "timeout"; OpError "t"; OpError "t"]) = StatusOffline.
Proof.
  intros h. refine (proj1 (offline_until_fresh h _ _ _)); [reflexivity|repeat constructor].
Defined.

(** After a scan no silent driver counts as live: a driver is offline
    exactly when its last success (or its start) is older than its own
    timeout, or the site's when it set none; and a degraded status survives
    the scan of a driver that is still fresh. *)
Theorem scan_exact (timeout : Duration) (now : Time) (h : DriverHealth) :
  TelemetryLive (fst (scan_step timeout now h)) = negb (stale timeout now h) /\
  (snd (scan_step timeout now h) = None <->
   TelemetryLive (fst (scan_step timeout now h)) = TelemetryLive h) /\
  (stale timeout now h = false -> Status h <> StatusOffline ->
   fst (scan_step timeout now h) = h).
Proof.
  unfold scan_step, TelemetryLive.
  destruct (stale timeout now h), (decide (Status h = StatusOffline)) as [E|E];
    rewrite ?(bool_decide_true _ E), ?(bool_decide_false _ E); simpl;
    rewrite ?(bool_decide_true _ E), ?(bool_decide_false _ E); simpl;
    repeat split; try done.
Qed.
