(* ===== verification/Telemetry.v ===== *)
(** * The telemetry store (go/internal/telemetry/store.go: Store)

    Latest readings, their filters, driver health, the metric buffer and the
    poll counters. Operations that read the clock take [now]; loops over Go
    maps whose result depends on their order take the order of keys. The
    command-evidence maps are not part of this state: what [Update] and [Remove]
    do to them is in CommandEvidence. Locking is not modelled:
    every operation holds the store's mutex for its whole effect. *)
From S2P Require Import Prelude Float64 GoTime Json Kalman Health.
From Stdlib Require Import ZArith Lia Sorted.
From stdpp Require Import base gmap strings list.
#[local] Open Scope Z_scope.

Inductive DerType : Type := DerMeter | DerPV | DerBattery | DerEV | DerV2X | DerVehicle.
#[export] Instance DerType_eq : EqDecision DerType.
Proof. solve_decision. Defined.

Definition allDerTypes : list DerType := [DerMeter; DerPV; DerBattery; DerEV; DerV2X; DerVehicle].
Definition AllDerTypes : list DerType := allDerTypes.

Definition DerString (d : DerType) : string :=
  match d with
  | DerMeter => "meter" | DerPV => "pv" | DerBattery => "battery"
  | DerEV => "ev" | DerV2X => "v2x_charger" | DerVehicle => "vehicle"
  end.

Definition ParseDerType (s : string) : option DerType :=
  if bool_decide (s = "meter"%string) then Some DerMeter
  else if bool_decide (s = "pv"%string) then Some DerPV
  else if bool_decide (s = "battery"%string) then Some DerBattery
  else if bool_decide (s = "ev"%string) then Some DerEV
  else if bool_decide (s = "v2x_charger"%string) then Some DerV2X
  else if bool_decide (s = "vehicle"%string) then Some DerVehicle
  else None.

Record DerReading : Type := mkReading {
  Driver : string;
  RType : DerType;
  RawW : f64;
  SmoothedW : f64;
  SoC : option f64;
  SoCUpdatedAt : Time;
  Data : RawMessage;
  UpdatedAt : Time
}.

Record MetricSample : Type := mkSample {
  sDriver : string; sMetric : string; sTsMs : Z; sValue : f64; sUnit : string
}.
Record metricSnap : Type := mkSnap {
  mValue : f64; mUnit : string; mRegister : string; mTitle : string; mUpdatedAt : Time
}.
Record pollHour : Type := mkPollHour { phHour : Z; phPolls : Z; phErrors : Z }.

Record Store : Type := mkStore {
  readings : gmap string DerReading;
  filters : gmap string KalmanFilter1D;
  health : gmap string DriverHealth;
  processNoise : f64;
  measurementNoise : f64;
  pending : list MetricSample;
  latestMetric : gmap string metricSnap;
  pollHours : list pollHour;
  born : Time
}.

Definition NewStore (now : Time) : Store :=
  mkStore ∅ ∅ ∅ (of_Z 100) (of_Z 50) [] ∅ (replicate 24 (mkPollHour 0 0 0)) now.

Definition key (driver : string) (t : DerType) : string :=
  driver +:+ ":" +:+ DerString t.

(** ** Validation *)
Definition ValidFraction (f : f64) : bool :=
  negb (isNaN f) && negb (isInf f) && fle (of_Z 0) f && fle f (of_Z 1).

Inductive reading_error : Type :=
| ErrPowerNonFinite | ErrSoCNonFinite | ErrSoCRange | ErrPVPositive | ErrEVNegative.


(** [ValidateReading]: the first violated rule, or [None]. *)
Definition ValidateReading (t : DerType) (rawW : f64) (soc : option f64) : option reading_error :=
  if negb (finite rawW) then Some ErrPowerNonFinite
  else if match soc with Some v => negb (finite v) | None => false end then Some ErrSoCNonFinite
  else if match soc with Some v => negb (ValidFraction v) | None => false end then Some ErrSoCRange
  else match t with
       | DerPV => if flt (of_Z 0) rawW then Some ErrPVPositive else None
       | DerEV => if flt rawW (of_Z 0) then Some ErrEVNegative else None
       | _ => None
       end.

(** ** Writing a reading *)
Definition freshSoCObservation (t : DerType) (soc : option f64) (data : RawMessage) : bool :=
  match soc with
  | None => false
  | Some _ =>
      if negb (bool_decide (t = DerVehicle)) then true
      else match data with
           | RawEmpty => true
           | _ =>
               match obj_fields data with
               | None => false
               | Some fields =>
                   match lookup_last "soc_fresh" fields with
                   | None => true
                   | Some raw => default false (as_bool raw)
                   end
               end
           end
  end.

Definition BatterySoCMaxAge : Duration := 5 * Minute.

(** Whether the SoC is a new observation, and the time it was made: a vehicle
    may date it with [soc_observed_at_ms]. *)
Definition soc_observation (t : DerType) (soc : option f64) (data : RawMessage) (now : Time)
    (previous : option DerReading) : bool * Time :=
  if freshSoCObservation t soc data then
    if bool_decide (t = DerVehicle) then
      match lookup_last "soc_observed_at_ms" (default [] (obj_fields data)) with
      | None => (true, now)
      | Some raw =>
          match as_int64 raw with
          | None => (false, now)
          | Some ms =>
              if (ms <=? 0) || (UnixMilli now <? ms) then (false, now)
              else
                let at_ := of_UnixMilli ms in
                match previous with
                | Some p => (After at_ (SoCUpdatedAt p), at_)
                | None => (true, at_)
                end
          end
      end
    else (true, now)
  else (false, zeroTime).

(** The SoC a reading keeps, and its time, when this emit has no new one. *)
Definition carried_soc (t : DerType) (now : Time) (previous : option DerReading)
  : option f64 * Time :=
  match previous with
  | None => (None, zeroTime)
  | Some p =>
      match SoC p with
      | None => (None, zeroTime)
      | Some _ =>
          if bool_decide (t = DerBattery) && (BatterySoCMaxAge <? Sub now (SoCUpdatedAt p))
          then (None, zeroTime)
          else (SoC p, SoCUpdatedAt p)
      end
  end.

Definition with_reading (k : string) (r : DerReading) (f : KalmanFilter1D)
    (samples : list MetricSample) (s : Store) : Store :=
  mkStore (<[k := r]> (readings s)) (<[k := f]> (filters s)) (health s) (processNoise s)
    (measurementNoise s) (pending s ++ samples) (latestMetric s) (pollHours s) (born s).

Definition Update (now : Time) (driver : string) (t : DerType) (rawW : f64) (soc : option f64)
    (data : RawMessage) (s : Store) : Store :=
  match ValidateReading t rawW soc with
  | Some _ => s
  | None =>
      let k := key driver t in
      let f := default (NewKalman (processNoise s) (measurementNoise s)) (filters s !! k) in
      let '(f', smoothed) := KUpdate f rawW in
      let '(socFresh, at_) := soc_observation t soc data now (readings s !! k) in
      let '(soc', socUpdatedAt) :=
        if socFresh then (soc, at_) else carried_soc t now (readings s !! k) in
      with_reading k
        (mkReading driver t rawW smoothed soc' socUpdatedAt data now) f'
        (mkSample driver (DerString t +:+ "_w") (UnixMilli now) rawW "" ::
         match soc' with
         | Some v =>
             if socFresh
             then [mkSample driver (DerString t +:+ "_soc") (UnixMilli socUpdatedAt) v ""]
             else []
         | None => []
         end)
        s
  end.

(** ** Scalar metrics *)
Definition EmitMetric (now : Time) (driver name : string) (value : f64)
    (unit_ register title : string) (s : Store) : Store :=
  if negb (finite value) then s
  else mkStore (readings s) (filters s) (health s) (processNoise s) (measurementNoise s)
         (pending s ++ [mkSample driver name (UnixMilli now) value unit_])
         (<[driver +:+ ":" +:+ name := mkSnap value unit_ register title now]> (latestMetric s))
         (pollHours s) (born s).

Definition LatestMetric (driver name : string) (s : Store) : option (f64 * Time) :=
  match latestMetric s !! (driver +:+ ":" +:+ name) with
  | Some snap => Some (mValue snap, mUpdatedAt snap)
  | None => None
  end.

(** Entries of one driver, keyed by metric name: the order is the map's. *)
Definition LatestMetricsByDriver (driver : string) (s : Store) : list (string * metricSnap) :=
  let pre := (driver +:+ ":")%string in
  omap (fun '(k, v) =>
          if (String.length pre <? String.length k)%nat && String.prefix pre k
          then Some (String.substring (String.length pre) (String.length k - String.length pre) k, v)
          else None)
       (map_to_list (latestMetric s)).

Definition FlushSamples (s : Store) : list MetricSample * Store :=
  (pending s,
   mkStore (readings s) (filters s) (health s) (processNoise s) (measurementNoise s) []
     (latestMetric s) (pollHours s) (born s)).

(** ** Reading back *)
Definition Get (driver : string) (t : DerType) (s : Store) : option DerReading :=
  readings s !! key driver t.

(** The health of a driver that is still reporting. *)
Definition live (driver : string) (s : Store) : bool :=
  match health s !! driver with Some h => TelemetryLive h | None => false end.

(** The loops over the readings: [order] lists the keys in the order the map
    gives them. *)
Definition sumReadings (order : list string) (pick : DerReading -> option f64) (s : Store) : f64 :=
  fold_left (fun sum k =>
      match readings s !! k with
      | Some r => match pick r with Some w => fadd sum w | None => sum end
      | None => sum
      end) order (of_Z 0).

Definition smoothedOf (t : DerType) (s : Store) (r : DerReading) : option f64 :=
  if negb (bool_decide (RType r = t)) then None
  else if live (Driver r) s then Some (SmoothedW r) else None.

Definition subWattFloor (sum : f64) : f64 :=
  if flt (fabs sum) (of_Z 1) then of_Z 0 else sum.

Definition SumOnlineEVW (order : list string) (s : Store) : f64 :=
  subWattFloor (sumReadings order (smoothedOf DerEV s) s).

Definition SumOnlineV2XW (order : list string) (s : Store) : f64 :=
  subWattFloor (sumReadings order (smoothedOf DerV2X s) s).

Definition SumOnlineHigherW (order : list string) (types : list DerType) (s : Store) : f64 :=
  sumReadings order
    (fun r => if live (Driver r) s && bool_decide (RType r ∈ types)
              then Some (fmax (RawW r) (SmoothedW r)) else None) s.

Definition OnlineLowerW (driver : string) (t : DerType) (s : Store) : f64 * bool :=
  match readings s !! key driver t, health s !! driver with
  | Some r, Some h =>
      if negb (TelemetryLive h) || LastReadFailed h then (of_Z 0, false)
      else let w := fmin (RawW r) (SmoothedW r) in (w, negb (isNaN w) && negb (isInf w))
  | _, _ => (of_Z 0, false)
  end.

Definition OnlineRawW (driver : string) (t : DerType) (s : Store) : option (f64 * Time) :=
  match readings s !! key driver t with
  | None => None
  | Some r =>
      if isNaN (RawW r) || isInf (RawW r) then None
      else if live driver s then Some (RawW r, UpdatedAt r) else None
  end.

Definition OnlineMeterW (driver : string) (s : Store) : option (f64 * Time) :=
  OnlineRawW driver DerMeter s.

Definition OnlineMeterSample (driver : string) (s : Store) : option (f64 * RawMessage * Time) :=
  match readings s !! key driver DerMeter with
  | None => None
  | Some r =>
      if isNaN (RawW r) || isInf (RawW r) then None
      else if live driver s then Some (RawW r, Data r, UpdatedAt r) else None
  end.

(** A set of entries; under [store_ok] every driver has at most one reading of
    a type, so their order does not matter. *)
Definition OnlineRawWByType (t : DerType) (s : Store) : gmap string f64 :=
  list_to_map
    (omap (fun '(_, r) =>
        if negb (bool_decide (RType r = t)) || isNaN (RawW r) || isInf (RawW r) then None
        else if live (Driver r) s then Some (Driver r, RawW r) else None)
      (map_to_list (readings s))).

Definition ReadingsByType (t : DerType) (s : Store) : list DerReading :=
  filter (fun r => RType r = t) (snd <$> map_to_list (readings s)).

Definition ReadingsByDriver (driver : string) (s : Store) : list DerReading :=
  filter (fun r => Driver r = driver) (snd <$> map_to_list (readings s)).

Definition IsStale (now : Time) (driver : string) (t : DerType) (timeout : Duration) (s : Store)
  : bool :=
  match Get driver t s with
  | None => true
  | Some r => timeout <? Sub now (UpdatedAt r)
  end.

(** ** Driver health *)
Definition with_health (h : gmap string DriverHealth) (s : Store) : Store :=
  mkStore (readings s) (filters s) h (processNoise s) (measurementNoise s) (pending s)
    (latestMetric s) (pollHours s) (born s).

Definition GetHealth (name : string) (s : Store) : option DriverHealth := health s !! name.

(** A write to a record, made when there is none. *)
Definition driverHealthLocked (now : Time) (name : string) (f : DriverHealth -> DriverHealth)
    (s : Store) : Store :=
  with_health (<[name := f (default (NewHealth name now) (health s !! name))]> (health s)) s.

Definition EnsureDriverHealth (now : Time) (name : string) : Store -> Store :=
  driverHealthLocked now name id.
Definition RecordDriverSuccess (now : Time) (name : string) : Store -> Store :=
  driverHealthLocked now name (RecordSuccess now).
Definition RecordDriverTick (now : Time) (name : string) : Store -> Store :=
  driverHealthLocked now name RecordTick.
Definition RecordDriverError (now : Time) (name err : string) : Store -> Store :=
  driverHealthLocked now name (RecordError err).
Definition SetDriverWatchdogTimeout (now : Time) (name : string) (d : Duration) : Store -> Store :=
  driverHealthLocked now name (SetTimeout d).
Definition SetDriverDeviceFault (now : Time) (name : string) (faulted : bool) (reason : string)
  : Store -> Store :=
  driverHealthLocked now name (SetDeviceFault faulted reason).

(** Core's verdict writes to a record that exists, and makes none. *)
Definition SetDriverCommandFault (name : string) (faulted : bool) (reason : string) (s : Store)
  : Store :=
  match health s !! name with
  | None => s
  | Some h => with_health (<[name := SetCommandFault faulted reason h]> (health s)) s
  end.

(** The scan and the drivers whose online state it changed; the order of the
    transitions is the map's. *)
Definition WatchdogScan (timeout : Duration) (now : Time) (s : Store)
  : Store * gmap string bool :=
  (with_health ((fun h => fst (scan_step timeout now h)) <$> health s) s,
   omap (fun h => snd (scan_step timeout now h)) (health s)).

Definition OfflineDrivers (kind : DerType) (s : Store) : gset string :=
  list_to_set (omap (fun '(_, r) =>
      if negb (bool_decide (RType r = kind)) then None
      else if live (Driver r) s then None else Some (Driver r))
    (map_to_list (readings s))).

(** ** Poll counters *)
Definition with_polls (p : list pollHour) (s : Store) : Store :=
  mkStore (readings s) (filters s) (health s) (processNoise s) (measurementNoise s) (pending s)
    (latestMetric s) p (born s).

Definition hourOf (now : Time) : Z := Z.quot (Unix now) 3600.

(** [None] is the index panic of a clock before 1970. *)
Definition countPollLocked (now : Time) (failed : bool) (s : Store) : option Store :=
  let hour := hourOf now in
  let i := Z.rem hour (Z.of_nat (length (pollHours s))) in
  if i <? 0 then None else
  match pollHours s !! Z.to_nat i with
  | None => None
  | Some slot =>
      let slot := if negb (phHour slot =? hour) then mkPollHour hour 0 0 else slot in
      let slot := mkPollHour (phHour slot) (wrap_u64 (phPolls slot + 1))
                    (if failed then wrap_u64 (phErrors slot + 1) else phErrors slot) in
      Some (with_polls (<[Z.to_nat i := slot]> (pollHours s)) s)
  end.

Definition inWindow (hour n h : Z) : bool := (hour - n <? h) && (h <=? hour).

Definition PollsLastDay (now : Time) (s : Store) : Z * Z * Duration :=
  let covered := Z.min (24 * Hour) (Z.max 0 (Sub now (born s))) in
  let hour := hourOf now in
  let '(polls, errors) :=
    fold_left (fun '(p, e) slot =>
        if inWindow hour (Z.of_nat (length (pollHours s))) (phHour slot)
        then (wrap_u64 (p + phPolls slot), wrap_u64 (e + phErrors slot))
        else (p, e))
      (pollHours s) (0, 0) in
  (polls, errors, covered).

(** ** Removal *)
Definition Remove (driver : string) (s : Store) : Store :=
  mkStore
    (foldr (fun t m => delete (key driver t) m) (readings s) allDerTypes)
    (foldr (fun t m => delete (key driver t) m) (filters s) allDerTypes)
    (delete driver (health s))
    (processNoise s) (measurementNoise s) (pending s)
    (filter (fun '(k, _) => String.prefix (driver +:+ ":") k = false) (latestMetric s))
    (pollHours s) (born s).

(** ** The operations that change the store, as one type *)
Inductive store_op : Type :=
| SUpdate (now : Time) (driver : string) (t : DerType) (rawW : f64) (soc : option f64) (data : RawMessage)
| SEmit (now : Time) (driver name : string) (value : f64) (unit_ register title : string)
| SFlush
| SEnsure (now : Time) (name : string)
| SSuccess (now : Time) (name : string)
| STick (now : Time) (name : string)
| SError (now : Time) (name err : string)
| STimeout (now : Time) (name : string) (d : Duration)
| SDeviceFault (now : Time) (name : string) (faulted : bool) (reason : string)
| SCommandFault (name : string) (faulted : bool) (reason : string)
| SScan (timeout : Duration) (now : Time)
| SRemove (driver : string).

Definition step_op (s : Store) (o : store_op) : Store :=
  match o with
  | SUpdate now d t w soc data => Update now d t w soc data s
  | SEmit now d n v u r ti => EmitMetric now d n v u r ti s
  | SFlush => snd (FlushSamples s)
  | SEnsure now n => EnsureDriverHealth now n s
  | SSuccess now n => RecordDriverSuccess now n s
  | STick now n => RecordDriverTick now n s
  | SError now n e => RecordDriverError now n e s
  | STimeout now n d => SetDriverWatchdogTimeout now n d s
  | SDeviceFault now n f r => SetDriverDeviceFault now n f r s
  | SCommandFault n f r => SetDriverCommandFault n f r s
  | SScan t now => fst (WatchdogScan t now s)
  | SRemove d => Remove d s
  end.

(** ** Invariant of the store *)
Record reading_ok (r : DerReading) : Prop := {
  ro_valid : ValidateReading (RType r) (RawW r) (SoC r) = None;
  ro_soc_age : RType r = DerBattery -> SoC r <> None ->
               Sub (UpdatedAt r) (SoCUpdatedAt r) <= BatterySoCMaxAge
}.

Record store_ok (s : Store) : Prop := {
  so_readings : forall k r, readings s !! k = Some r ->
                k = key (Driver r) (RType r) /\ reading_ok r;
  so_filters : forall k f, filters s !! k = Some f -> kalman_ok f;
  so_health : forall n h, health s !! n = Some h -> hName h = n /\ fault_ok h;
  so_noise : processNoise s = of_Z 100 /\ measurementNoise s = of_Z 50
}.

(** The driver that owns a reading reported a measurement it could store. *)
Definition op_wf (o : store_op) : Prop :=
  match o with SUpdate _ _ _ w _ _ => wf w | _ => True end.

Lemma key_inj d t d' t' : key d t = key d' t' -> d = d' /\ t = t'.
Proof.
  unfold key. intros H. apply (f_equal (fun s => rev (String.list_ascii_of_string s))) in H.
  assert (A : forall a b, String.list_ascii_of_string (a +:+ b) =
                String.list_ascii_of_string a ++ String.list_ascii_of_string b).
  { intros a b. induction a as [|c a IH]; [reflexivity|].
    change (c :: String.list_ascii_of_string (a +:+ b) = c :: (String.list_ascii_of_string a ++
      String.list_ascii_of_string b)). now rewrite IH. }
  rewrite !A, !rev_app_distr in H.
  destruct t, t'; simpl in H; try discriminate H; injection H as H;
    apply (f_equal (@rev _)) in H; rewrite !rev_involutive in H;
    apply (f_equal String.string_of_list_ascii) in H;
    rewrite !String.string_of_list_ascii_of_string in H; auto.
Qed.

Lemma BatterySoCMaxAge_eq : BatterySoCMaxAge = 300000000000.
Proof. reflexivity. Qed.

Lemma new_store_ok now : store_ok (NewStore now).
Proof. constructor; simpl; try (intros *; rewrite lookup_empty; discriminate). auto. Qed.

(** What the store keeps of a new SoC is either this emit's, or the one the
    last reading had. *)
Lemma kept_soc_cases t soc data now prev fresh at_ soc' at' :
  soc_observation t soc data now prev = (fresh, at_) ->
  (if fresh then (soc, at_) else carried_soc t now prev) = (soc', at') ->
  (soc' = None \/ soc' = soc \/ exists p, prev = Some p /\ soc' = SoC p) /\
  (t = DerBattery -> soc' <> None -> Sub now at' <= BatterySoCMaxAge).
Proof.
  rewrite BatterySoCMaxAge_eq.
  intros Ho Hs. destruct fresh.
  - injection Hs as <- <-. split; [auto|]. intros -> _.
    unfold soc_observation in Ho. case_match; [|discriminate].
    simpl in Ho. injection Ho as <-. unfold Sub, min_int64, max_int64. lia.
  - unfold carried_soc in Hs. destruct prev as [p|]; [|injection Hs as <- <-; split; [auto|done]].
    destruct (SoC p) as [v|] eqn:Ev; [|injection Hs as <- <-; split; [auto|done]].
    rewrite BatterySoCMaxAge_eq in Hs. case_match eqn:Eb.
    + injection Hs as <- <-. split; [auto|done].
    + injection Hs as <- <-. split.
      { right; right; exists p; rewrite Ev; auto. }
      intros ->. simpl in Eb. intros _. apply Z.ltb_ge in Eb. exact Eb.
Qed.

Lemma validate_swap_soc t w soc soc' :
  ValidateReading t w soc = None ->
  (soc' = None \/ exists w', ValidateReading t w' soc' = None) ->
  ValidateReading t w soc' = None.
Proof.
  unfold ValidateReading. destruct (finite w); simpl; [|discriminate].
  intros H Hs.
  assert (T : match t with
       | DerPV => if flt (of_Z 0) w then Some ErrPVPositive else None
       | DerEV => if flt w (of_Z 0) then Some ErrEVNegative else None
       | _ => None end = None).
  { destruct soc; simpl in H; repeat (case_match; try discriminate H; try done). }
  destruct Hs as [->|[w' Hw]]; [exact T|].
  destruct soc' as [v|]; [|exact T].
  destruct (finite w'); simpl in Hw; [|discriminate].
  destruct (negb (finite v)); [discriminate|].
  destruct (negb (ValidFraction v)); [discriminate|exact T].
Qed.

Lemma Update_ok now d t w soc data s : wf w -> store_ok s -> store_ok (Update now d t w soc data s).
Proof.
  intros Hw Hs. unfold Update. destruct (ValidateReading t w soc) eqn:Ev; [exact Hs|].
  destruct Hs as [Hr Hf Hh Hn].
  destruct (KUpdate _ w) as [f' sm] eqn:Ek.
  destruct (soc_observation t soc data now _) as [fresh at_] eqn:Eo.
  destruct (if fresh then _ else _) as [soc' at'] eqn:Es.
  destruct (kept_soc_cases _ _ _ _ _ _ _ _ _ Eo Es) as [Hsrc Hage].
  constructor; [| |exact Hh|exact Hn].
  - intros k r. cbn [readings with_reading]. rewrite lookup_insert_Some.
    intros [[<- <-]|[_ Hk]]; [|exact (Hr k r Hk)].
    split; [reflexivity|]. constructor; [|exact Hage]. cbn [RType RawW SoC].
    apply (validate_swap_soc t w soc); [exact Ev|].
    destruct Hsrc as [->|[->|(p & Hp & ->)]]; [auto|right; exists w; exact Ev|right].
    destruct (Hr _ _ Hp) as [Hkey [Hv _]]. apply key_inj in Hkey as [_ ->].
    exists (RawW p). exact Hv.
  - intros k f. cbn [filters with_reading]. rewrite lookup_insert_Some.
    intros [[<- <-]|[_ Hk]]; [|exact (Hf k f Hk)].
    replace f' with (fst (f', sm)) by reflexivity. rewrite <- Ek.
    apply KUpdate_ok; [exact Hw|]. destruct (filters s !! key d t) eqn:E; [exact (Hf _ _ E)|].
    destruct Hn as [-> ->]. apply new_kalman_ok.
Qed.

Lemma driverHealthLocked_ok now n f s :
  (forall h, hName h = n -> fault_ok h -> hName (f h) = n /\ fault_ok (f h)) ->
  store_ok s -> store_ok (driverHealthLocked now n f s).
Proof.
  intros Hf [Hr Hfi Hh Hn]. constructor; [exact Hr|exact Hfi| |exact Hn].
  intros m h. cbn [health with_health driverHealthLocked]. rewrite lookup_insert_Some.
  intros [[<- <-]|[_ Hm]]; [|exact (Hh m h Hm)].
  apply Hf; destruct (health s !! n) eqn:E; try apply (Hh _ _ E); split; reflexivity.
Qed.

Lemma apply_op_name h o : hName (apply_op h o) = hName h.
Proof. destruct o; try reflexivity. simpl. unfold scan_step. repeat case_match; reflexivity. Qed.

Lemma apply_op_ok h o n : hName h = n -> fault_ok h ->
  hName (apply_op h o) = n /\ fault_ok (apply_op h o).
Proof. intros <- H. split; [apply apply_op_name|apply apply_op_fault_ok, H]. Qed.

Lemma remove_lookup {A} d (m : gmap string A) ts k x :
  foldr (fun t m => delete (key d t) m) m ts !! k = Some x -> m !! k = Some x.
Proof. induction ts as [|t ts IH]; simpl; [auto|]. rewrite lookup_delete_Some. intros [_ H]. exact (IH H). Qed.

Lemma step_op_ok s o : op_wf o -> store_ok s -> store_ok (step_op s o).
Proof.
  intros Hw Hs. destruct o; cbn [step_op]; try (apply driverHealthLocked_ok; [intros h|exact Hs]).
  - apply Update_ok; assumption.
  - unfold EmitMetric. destruct (finite value); [|exact Hs]. destruct Hs. constructor; assumption.
  - destruct Hs. constructor; assumption.
  - auto.
  - exact (apply_op_ok h (OpSuccess now) name).
  - exact (apply_op_ok h OpTick name).
  - exact (apply_op_ok h (OpError err) name).
  - exact (apply_op_ok h (OpTimeout d) name).
  - exact (apply_op_ok h (OpDeviceFault faulted reason) name).
  - unfold SetDriverCommandFault. destruct (health s !! name) eqn:E; [|exact Hs].
    destruct Hs as [Hr Hf Hh Hn]. constructor; [exact Hr|exact Hf| |exact Hn].
    intros m h. cbn [health with_health]. rewrite lookup_insert_Some.
    intros [[<- <-]|[_ Hm]]; [|exact (Hh m h Hm)].
    destruct (Hh _ _ E). exact (apply_op_ok d (OpCommandFault faulted reason) name H H0).
  - destruct Hs as [Hr Hf Hh Hn]. constructor; [exact Hr|exact Hf| |exact Hn].
    intros m h. cbn [health with_health WatchdogScan fst]. rewrite lookup_fmap_Some.
    intros (h0 & <- & Hm). destruct (Hh _ _ Hm). exact (apply_op_ok h0 (OpScan timeout now) m H H0).
  - destruct Hs as [Hr Hf Hh Hn]. constructor; [| | |exact Hn]; cbn [readings filters health Remove].
    + intros k r Hk. apply Hr, (remove_lookup _ _ _ _ _ Hk).
    + intros k f Hk. apply (Hf k), (remove_lookup _ _ _ _ _ Hk).
    + intros n h. rewrite lookup_delete_Some. intros [_ Hk]. exact (Hh _ _ Hk).
Qed.

Lemma run_ops_ok ops s : Forall op_wf ops -> store_ok s -> store_ok (fold_left step_op ops s).
Proof.
  intros H. revert s. induction H as [|o ops Ho _ IH]; intros s Hs; [exact Hs|].
  apply IH, step_op_ok; assumption.
Qed.

(** ** Sums over the readings *)
Lemma sumReadings_ext order p p' s s' :
  (forall k, readings s !! k ≫= p = readings s' !! k ≫= p') ->
  sumReadings order p s = sumReadings order p' s'.
Proof.
  intros H. unfold sumReadings. generalize (of_Z 0). induction order as [|k order IH];
    intros acc; [reflexivity|]. cbn [fold_left]. specialize (H k).
  assert (E : match readings s !! k with
              | Some r => match p r with Some w => fadd acc w | None => acc end
              | None => acc end =
              match readings s' !! k with
              | Some r => match p' r with Some w => fadd acc w | None => acc end
              | None => acc end).
  { destruct (readings s !! k) as [r|], (readings s' !! k) as [r'|]; cbn in H;
      rewrite ?H; try reflexivity; now rewrite <- H. }
  rewrite E. apply IH.
Qed.

Lemma subWattFloor_spec w : subWattFloor w = of_Z 0 \/
  (subWattFloor w = w /\ flt (fabs w) (of_Z 1) = false).
Proof. unfold subWattFloor. destruct (flt (fabs w) (of_Z 1)); auto. Qed.

(** ** Poll counters *)

(** The polls whose clock hour is in the day's window, and those of them that
    failed: what the counters should say. *)
Definition pollsIn (hour : Z) (ps : list (Time * bool)) : Z :=
  countZ (fun p => inWindow hour 24 (hourOf (fst p))) ps.
Definition errorsIn (hour : Z) (ps : list (Time * bool)) : Z :=
  countZ (fun p => inWindow hour 24 (hourOf (fst p)) && snd p) ps.

(** A history of polls, each with its time and whether it failed. *)
Fixpoint countPolls (ps : list (Time * bool)) (s : Store) : option Store :=
  match ps with
  | [] => Some s
  | (t, failed) :: rest =>
      match countPollLocked t failed s with
      | None => None
      | Some s' => countPolls rest s'
      end
  end.

Definition atHour (h : Z) (p : Time * bool) : bool := hourOf (fst p) =? h.
Definition failedAt (h : Z) (p : Time * bool) : bool := (hourOf (fst p) =? h) && snd p.

(** Slot [i] is unused, or holds the newest hour congruent to it among the
    polls so far and counts the polls of exactly that hour. *)
Definition slot_ok (ps : list (Time * bool)) (i : nat) (slot : pollHour) : Prop :=
  (slot = mkPollHour 0 0 0 /\ forall p, p ∈ ps -> hourOf (fst p) mod 24 <> Z.of_nat i) \/
  ((exists p, p ∈ ps /\ hourOf (fst p) = phHour slot) /\
   phHour slot mod 24 = Z.of_nat i /\
   (forall p, p ∈ ps -> hourOf (fst p) mod 24 = Z.of_nat i -> hourOf (fst p) <= phHour slot) /\
   phPolls slot = countZ (atHour (phHour slot)) ps /\
   phErrors slot = countZ (failedAt (phHour slot)) ps).

Definition slots_ok (ps : list (Time * bool)) (slots : list pollHour) : Prop :=
  length slots = 24%nat /\ forall i slot, slots !! i = Some slot -> slot_ok ps i slot.

Lemma wrap_u64_id z : 0 <= z < 2 ^ 64 -> wrap_u64 z = z.
Proof. apply Z.mod_small. Qed.

Lemma new_slots_ok : slots_ok [] (replicate 24 (mkPollHour 0 0 0)).
Proof.
  split; [reflexivity|]. intros i slot H. apply lookup_replicate in H as [-> _].
  left. split; [reflexivity|]. intros p Hp. inversion Hp.
Qed.

(** The slot a poll is counted in. *)
Definition count_slot (hour : Z) (failed : bool) (slot : pollHour) : pollHour :=
  let slot := if negb (phHour slot =? hour) then mkPollHour hour 0 0 else slot in
  mkPollHour (phHour slot) (wrap_u64 (phPolls slot + 1))
    (if failed then wrap_u64 (phErrors slot + 1) else phErrors slot).

Lemma countZ_snoc {A} (p : A -> bool) l x : countZ p (l ++ [x]) = countZ p l + (if p x then 1 else 0).
Proof. rewrite countZ_app. cbn. destruct (p x); lia. Qed.

(** A slot that is unused or holds another hour has missed no poll of the
    hour that is being counted. *)
Lemma slot_no_missed ps i slot t :
  slot_ok ps i slot -> hourOf t mod 24 = Z.of_nat i ->
  (forall p, p ∈ ps -> hourOf (fst p) <= hourOf t) ->
  slot = mkPollHour 0 0 0 \/ phHour slot <> hourOf t ->
  forall p, p ∈ ps -> (hourOf (fst p) =? hourOf t) = false.
Proof.
  intros Hs Hi Hle Hcase p Hp. apply Z.eqb_neq. intros Ep.
  destruct Hs as [[-> Hno]|((q & Hq & Eq) & Hm & Hnew & Hpolls & _)].
  - apply (Hno p Hp). now rewrite Ep.
  - specialize (Hnew p Hp ltac:(now rewrite Ep)). specialize (Hle q Hq).
    destruct Hcase as [->|]; [|lia]. cbn [phHour phPolls] in *.
    pose proof (countZ_pos (atHour 0) ps q Hq ltac:(unfold atHour; now rewrite Eq)). lia.
Qed.

Lemma count_slot_own ps i slot t failed :
  slot_ok ps i slot -> hourOf t mod 24 = Z.of_nat i ->
  (forall p, p ∈ ps -> hourOf (fst p) <= hourOf t) ->
  Z.of_nat (length ps) + 1 < 2 ^ 64 ->
  slot_ok (ps ++ [(t, failed)]) i (count_slot (hourOf t) failed slot).
Proof.
  intros Hs Hi Hle Hlen. right. pose proof (slot_no_missed ps i slot t Hs Hi Hle) as Hno.
  assert (Hn : forall q : Time * bool -> bool, 0 <= countZ q ps + 1 < 2 ^ 64).
  { intros q. pose proof (countZ_bounds q ps). lia. }
  assert (Hhour : phHour (count_slot (hourOf t) failed slot) = hourOf t).
  { unfold count_slot. destruct (Z.eqb_spec (phHour slot) (hourOf t)); [assumption|reflexivity]. }
  rewrite Hhour. split_and!.
  - exists (t, failed). split; [apply elem_of_app; right; now left|reflexivity].
  - exact Hi.
  - intros p Hp _. apply elem_of_app in Hp as [Hp|Hp]; [exact (Hle p Hp)|].
    apply list_elem_of_singleton in Hp as ->. reflexivity.
  - rewrite countZ_snoc. unfold atHour at 2. cbn [fst]. rewrite Z.eqb_refl.
    unfold count_slot. destruct (Z.eqb_spec (phHour slot) (hourOf t)) as [E|E]; cbn [negb phPolls].
    + destruct Hs as [[-> Hs]|(_ & _ & _ & Hp & _)].
      * rewrite countZ_none; [reflexivity|]. apply Hno. now left.
      * rewrite Hp, E. apply wrap_u64_id, Hn.
    + rewrite countZ_none; [reflexivity|]. apply Hno. now right.
  - rewrite countZ_snoc. unfold failedAt at 2. cbn [fst snd]. rewrite Z.eqb_refl. cbn [andb].
    assert (Hno' : slot = mkPollHour 0 0 0 \/ phHour slot <> hourOf t ->
                   countZ (failedAt (hourOf t)) ps = 0).
    { intros H. apply countZ_none. intros p Hp. unfold failedAt. now rewrite (Hno H p Hp). }
    unfold count_slot. destruct (Z.eqb_spec (phHour slot) (hourOf t)) as [E|E]; cbn [negb phErrors].
    + destruct Hs as [[-> Hs]|(_ & _ & _ & _ & Hp)].
      * rewrite Hno' by now left. now destruct failed.
      * rewrite Hp, E. destruct failed; [apply wrap_u64_id, Hn|lia].
    + rewrite Hno' by now right. now destruct failed.
Qed.

Lemma count_slot_other ps i slot p0 :
  slot_ok ps i slot -> hourOf (fst p0) mod 24 <> Z.of_nat i -> slot_ok (ps ++ [p0]) i slot.
Proof.
  intros Hs Hi. destruct Hs as [[-> Hno]|((q & Hq & Eq) & Hm & Hnew & Hp & He)]; [left|right].
  - split; [reflexivity|]. intros p Hp. apply elem_of_app in Hp as [Hp|Hp]; [exact (Hno p Hp)|].
    apply list_elem_of_singleton in Hp as ->. exact Hi.
  - assert (Hne : (hourOf (fst p0) =? phHour slot) = false) by (apply Z.eqb_neq; congruence).
    split_and!; [|exact Hm| | |].
    + exists q. split; [apply elem_of_app; now left|exact Eq].
    + intros p Hp'. apply elem_of_app in Hp' as [Hp'|Hp']; [exact (Hnew p Hp')|].
      apply list_elem_of_singleton in Hp' as ->. intros. contradiction.
    + rewrite countZ_snoc. unfold atHour at 2. rewrite Hne. lia.
    + rewrite countZ_snoc. unfold failedAt at 2. rewrite Hne. cbn [andb]. lia.
Qed.

Lemma count_poll_ok ps t failed s :
  slots_ok ps (pollHours s) -> 0 <= hourOf t ->
  (forall p, p ∈ ps -> hourOf (fst p) <= hourOf t) ->
  Z.of_nat (length ps) + 1 < 2 ^ 64 ->
  exists s', countPollLocked t failed s = Some s' /\ born s' = born s /\
             slots_ok (ps ++ [(t, failed)]) (pollHours s').
Proof.
  intros [Hl Hs] H0 Hle Hlen. unfold countPollLocked. rewrite Hl.
  rewrite Z.rem_mod_nonneg by lia. change (Z.of_nat 24) with 24.
  pose proof (Z.mod_pos_bound (hourOf t) 24 ltac:(lia)) as Hb.
  destruct (Z.ltb_spec (hourOf t mod 24) 0); [lia|].
  destruct (lookup_lt_is_Some_2 (pollHours s) (Z.to_nat (hourOf t mod 24))) as [slot Es]; [lia|].
  rewrite Es. eexists. split; [reflexivity|]. split; [reflexivity|].
  change (slots_ok (ps ++ [(t, failed)])
            (<[Z.to_nat (hourOf t mod 24) := count_slot (hourOf t) failed slot]> (pollHours s))).
  split; [now rewrite length_insert|]. intros i slot' Hi.
  apply list_lookup_insert_Some in Hi as [(<- & <- & _)|[Hne Hi]].
  - apply count_slot_own; auto; lia.
  - apply count_slot_other; [auto|]. cbn [fst]. lia.
Qed.

Definition notLater (p q : Time * bool) : Prop := hourOf (fst p) <= hourOf (fst q).

Lemma countPolls_ok ps : forall done s,
  slots_ok done (pollHours s) -> Forall (fun p => 0 <= hourOf (fst p)) ps ->
  StronglySorted notLater ps -> (forall p, p ∈ done -> Forall (notLater p) ps) ->
  Z.of_nat (length (done ++ ps)) < 2 ^ 64 ->
  exists s', countPolls ps s = Some s' /\ born s' = born s /\ slots_ok (done ++ ps) (pollHours s').
Proof.
  induction ps as [|[t failed] ps IH]; intros done s Hs H0 Hsort Hdone Hlen.
  { exists s. rewrite app_nil_r. auto. }
  inversion_clear H0 as [|? ? Ht Hps]. inversion_clear Hsort as [|? ? Hsort' Hall].
  rewrite length_app, length_cons in Hlen.
  destruct (count_poll_ok done t failed s Hs Ht) as (s1 & E1 & Eb & Hs1); [|lia|].
  { intros p Hp. specialize (Hdone p Hp). inversion_clear Hdone. assumption. }
  destruct (IH (done ++ [(t, failed)]) s1 Hs1 Hps Hsort') as (s2 & E2 & Eb2 & Hs2).
  { intros p Hp. apply elem_of_app in Hp as [Hp|Hp].
    - specialize (Hdone p Hp). inversion_clear Hdone. assumption.
    - apply list_elem_of_singleton in Hp as ->. exact Hall. }
  { rewrite !length_app. cbn [length]. lia. }
  exists s2. cbn [countPolls]. rewrite E1, E2, Eb2, Eb. rewrite <- app_assoc in Hs2. auto.
Qed.

(** One slot's share of the window. *)
Lemma slot_share ps i slot hour (good : Time * bool -> bool) n :
  slot_ok ps i slot -> (forall p, p ∈ ps -> 0 <= hourOf (fst p) <= hour) ->
  (slot <> mkPollHour 0 0 0 -> n = countZ (fun p => (hourOf (fst p) =? phHour slot) && good p) ps) ->
  (slot = mkPollHour 0 0 0 -> n = 0) ->
  (if inWindow hour 24 (phHour slot) then n else 0) =
  countZ (fun p => (inWindow hour 24 (hourOf (fst p)) && good p) &&
                   (hourOf (fst p) mod 24 =? Z.of_nat i)) ps.
Proof.
  intros Hs Hb Hn Hz. symmetry. destruct Hs as [[-> Hno]|((q & Hq & Eq) & Hm & Hnew & Hp & _)].
  - rewrite Hz by reflexivity. transitivity 0; [|now case_match].
    apply countZ_none. intros p Hp. apply andb_false_iff. right. apply Z.eqb_neq. auto.
  - rewrite Hn.
    2: { intros ->. cbn [phHour phPolls] in *.
         pose proof (countZ_pos (atHour 0) ps q Hq ltac:(unfold atHour; now rewrite Eq)). lia. }
    unfold inWindow. specialize (Hb q Hq) as Hq'.
    destruct (Z.ltb_spec (hour - 24) (phHour slot)) as [Hlt|Hge]; cbn [andb].
    + destruct (Z.leb_spec (phHour slot) hour); [|lia]. apply countZ_ext. intros p Hin.
      specialize (Hb p Hin). specialize (Hnew p Hin).
      pose proof (Z.div_mod (hourOf (fst p)) 24). pose proof (Z.div_mod (phHour slot) 24).
      destruct (Z.eqb_spec (hourOf (fst p) mod 24) (Z.of_nat i)) as [E|E],
        (Z.eqb_spec (hourOf (fst p)) (phHour slot)) as [E'|E'];
        rewrite ?andb_false_r, ?andb_true_r; try reflexivity.
      * rewrite E'. destruct (Z.ltb_spec (hour - 24) (phHour slot)), (Z.leb_spec (phHour slot) hour);
          try lia. reflexivity.
      * cbn [andb]. destruct (Z.ltb_spec (hour - 24) (hourOf (fst p))); [|reflexivity]. lia.
      * rewrite E' in E. lia.
    + apply countZ_none. intros p Hin. specialize (Hnew p Hin).
      destruct (Z.eqb_spec (hourOf (fst p) mod 24) (Z.of_nat i)); [|apply andb_false_r].
      destruct (Z.ltb_spec (hour - 24) (hourOf (fst p))); [lia|reflexivity].
Qed.

Lemma wrap_u64_add a b : wrap_u64 (wrap_u64 a + b) = wrap_u64 (a + b).
Proof. unfold wrap_u64. apply Z.add_mod_idemp_l. lia. Qed.

(** The loop over the slots adds up, modulo the counters' width. *)
Lemma polls_fold (w : pollHour -> bool) slots : forall a b,
  fold_left (fun '(p, e) slot =>
      if w slot then (wrap_u64 (p + phPolls slot), wrap_u64 (e + phErrors slot)) else (p, e))
    slots (wrap_u64 a, wrap_u64 b) =
  (wrap_u64 (a + sumZ (map (fun s => if w s then phPolls s else 0) slots)),
   wrap_u64 (b + sumZ (map (fun s => if w s then phErrors s else 0) slots))).
Proof.
  unfold sumZ. induction slots as [|s slots IH]; intros a b; cbn [fold_left map fold_right].
  - now rewrite !Z.add_0_r.
  - destruct (w s).
    + rewrite !wrap_u64_add, IH. now rewrite !Z.add_assoc.
    + rewrite IH. now rewrite !Z.add_0_l.
Qed.

Lemma map_slots {A} (f : pollHour -> A) (g : nat -> A) slots :
  (forall i s, slots !! i = Some s -> f s = g i) -> map f slots = map g (seq 0 (length slots)).
Proof.
  intros H. apply list_eq. intros i. rewrite !list_lookup_fmap.
  destruct (decide (i < length slots)%nat) as [Hi|Hi].
  - destruct (lookup_lt_is_Some_2 _ _ Hi) as [s Es]. rewrite Es, lookup_seq_lt by exact Hi.
    cbn. f_equal. exact (H i s Es).
  - rewrite (lookup_ge_None_2 slots) by lia. rewrite lookup_seq_ge by lia. reflexivity.
Qed.

Lemma slots_sum ps slots hour (good : Time * bool -> bool) (get : pollHour -> Z) :
  slots_ok ps slots -> (forall p, p ∈ ps -> 0 <= hourOf (fst p) <= hour) ->
  get (mkPollHour 0 0 0) = 0 ->
  (forall i s, slots !! i = Some s -> s <> mkPollHour 0 0 0 ->
     get s = countZ (fun p => (hourOf (fst p) =? phHour s) && good p) ps) ->
  sumZ (map (fun s => if inWindow hour 24 (phHour s) then get s else 0) slots) =
  countZ (fun p => inWindow hour 24 (hourOf (fst p)) && good p) ps.
Proof.
  intros [Hl Hs] Hb H0 Hg.
  rewrite (map_slots _ (fun i => countZ (fun p => (inWindow hour 24 (hourOf (fst p)) && good p) &&
                   (hourOf (fst p) mod 24 =? Z.of_nat i)) ps)).
  2: { intros i s Es. apply slot_share; [exact (Hs i s Es)|exact Hb|exact (Hg i s Es)|].
       intros ->. exact H0. }
  rewrite Hl. change 24 with (Z.of_nat 24) at 2.
  apply (countZ_partition _ (fun p => hourOf (fst p) mod 24)).
  intros p _. apply Z.mod_pos_bound. lia.
Qed.

(** ** Properties *)

(** C32: whatever the drivers emit, in any order and with any operations in
    between, every reading the store holds keeps the site convention: finite
    power, PV at most zero, a charger's power at least zero, a state of
    charge in 0..1, filed under its own driver and type, and a battery's
    carried state of charge at most five minutes older than its power. *)
Theorem store_keeps_site_convention (started : Time) (ops : list store_op) (driver : string)
    (t : DerType) (r : DerReading) :
  Forall op_wf ops ->
  Get driver t (fold_left step_op ops (NewStore started)) = Some r ->
  Driver r = driver /\ RType r = t /\ finite (RawW r) = true /\
  (t = DerPV -> flt (of_Z 0) (RawW r) = false) /\
  (t = DerEV -> flt (RawW r) (of_Z 0) = false) /\
  (forall soc, SoC r = Some soc -> ValidFraction soc = true) /\
  (t = DerBattery -> SoC r <> None -> Sub (UpdatedAt r) (SoCUpdatedAt r) <= BatterySoCMaxAge).
Proof.
  intros Hwf Hget. pose proof (run_ops_ok ops _ Hwf (new_store_ok started)) as [Hr _ _ _].
  destruct (Hr _ _ Hget) as [Hk [Hv Hage]]. apply key_inj in Hk as [-> ->].
  unfold ValidateReading in Hv. destruct (finite (RawW r)); [|discriminate].
  split_and!; try reflexivity; auto.
  - intros E. rewrite E in Hv. repeat case_match; congruence.
  - intros E. rewrite E in Hv. repeat case_match; congruence.
  - intros soc E. rewrite E in Hv. destruct (ValidFraction soc); [reflexivity|].
    cbn [negb] in Hv. repeat case_match; discriminate.
Qed.

Lemma store_keeps_site_convention_witness :
  let ops := [SUpdate 5 "ferroamp" DerBattery (of_Z 500) (Some (lit 1 2)) RawEmpty;
              SUpdate 7 "ferroamp" DerBattery (of_Z 400) None RawEmpty] in
  exists r, Get "ferroamp" DerBattery (fold_left step_op ops (NewStore 0)) = Some r /\
            SoCUpdatedAt r = 5 /\ finite (RawW r) = true.
Proof.
  intros ops. eexists. split; [vm_compute; reflexivity|]. split; [reflexivity|].
  refine (proj1 (proj2 (proj2 (store_keeps_site_convention 0 ops "ferroamp" DerBattery _ _ _)))).
  - constructor; [apply of_Z_wf|constructor; [apply of_Z_wf|constructor]].
  - vm_compute. reflexivity.
Defined.

(** The EV power every consumer reads is either exactly zero or at least a
    watt (so a filter's decaying residue never passes a [> 0] guard), and
    nothing a driver that is not reporting has said, before or after it went
    quiet, can change it, whatever order the map gives the readings in. *)
Theorem ev_sum_floor_and_live (order : list string) (s : Store) (driver : string)
    (t : DerType) (r : DerReading) :
  store_ok s -> live driver s = false -> Driver r = driver ->
  (SumOnlineEVW order s = of_Z 0 \/ flt (fabs (SumOnlineEVW order s)) (of_Z 1) = false) /\
  SumOnlineEVW order
    (mkStore (<[key driver t := r]> (readings s)) (filters s) (health s) (processNoise s)
       (measurementNoise s) (pending s) (latestMetric s) (pollHours s) (born s)) =
  SumOnlineEVW order s.
Proof.
  intros Hs Hd Hr. split.
  { unfold SumOnlineEVW. destruct (subWattFloor_spec (sumReadings order (smoothedOf DerEV s) s))
      as [->|[-> H]]; auto. }
  unfold SumOnlineEVW. f_equal. apply sumReadings_ext. intros k. cbn [readings].
  assert (Hdead : forall q, Driver q = driver -> smoothedOf DerEV s q = None).
  { intros q Hq. unfold smoothedOf. rewrite Hq, Hd. now case_match. }
  destruct (decide (k = key driver t)) as [->|Hk].
  - rewrite lookup_insert_eq. cbn. etransitivity; [exact (Hdead r Hr)|]. symmetry.
    destruct (readings s !! key driver t) as [q|] eqn:E; [|reflexivity]. cbn.
    apply Hdead. destruct (so_readings s Hs _ _ E) as [Hk _]. now apply key_inj in Hk as [<- _].
  - now rewrite lookup_insert_ne by auto.
Qed.

Lemma ev_sum_floor_and_live_witness :
  let s := RecordDriverSuccess 5 "easee"
             (Update 5 "easee" DerEV (of_Z 3600) None RawEmpty (NewStore 0)) in
  let r := mkReading "old" DerEV (of_Z 11000) (of_Z 11000) None 0 RawEmpty 0 in
  SumOnlineEVW [key "easee" DerEV; key "old" DerEV]
    (mkStore (<[key "old" DerEV := r]> (readings s)) (filters s) (health s) (processNoise s)
       (measurementNoise s) (pending s) (latestMetric s) (pollHours s) (born s)) = of_Z 3600.
Proof.
  intros s r.
  assert (Hs : store_ok s).
  { apply driverHealthLocked_ok; [intros h; exact (apply_op_ok h (OpSuccess 5) "easee")|].
    apply Update_ok; [apply of_Z_wf|apply new_store_ok]. }
  destruct (ev_sum_floor_and_live [key "easee" DerEV; key "old" DerEV] s "old" DerEV r Hs)
    as [_ E]; [vm_compute; reflexivity|reflexivity|].
  rewrite E. vm_compute. reflexivity.
Defined.

(** Removing a driver takes all of its state and nobody else's: no reading,
    filter or health record of it is left, no metric of it either, while
    every other driver's readings, filters and health are untouched; and a
    late command verdict about it does not bring it back. *)
Theorem remove_is_complete (driver : string) (s : Store) :
  (forall t, Get driver t (Remove driver s) = None /\
             filters (Remove driver s) !! key driver t = None) /\
  GetHealth driver (Remove driver s) = None /\
  (forall name, LatestMetric driver name (Remove driver s) = None) /\
  (forall other t, other <> driver ->
     Get other t (Remove driver s) = Get other t s /\
     filters (Remove driver s) !! key other t = filters s !! key other t /\
     GetHealth other (Remove driver s) = GetHealth other s) /\
  (forall faulted reason,
     SetDriverCommandFault driver faulted reason (Remove driver s) = Remove driver s).
Proof.
  assert (Hin : forall A (m : gmap string A) t,
      foldr (fun t m => delete (key driver t) m) m allDerTypes !! key driver t = None).
  { intros A m t. assert (Ht : t ∈ allDerTypes) by (destruct t; set_solver).
    induction Ht as [t l|t u l Ht IH]; cbn [foldr]; [apply lookup_delete_eq|].
    destruct (decide (key driver u = key driver t)) as [->|]; [apply lookup_delete_eq|].
    now rewrite lookup_delete_ne by auto. }
  assert (Hout : forall A (m : gmap string A) l other t, other <> driver ->
      foldr (fun t m => delete (key driver t) m) m l !! key other t = m !! key other t).
  { intros A m l other t Ho. induction l as [|u l IH]; cbn [foldr]; [reflexivity|].
    rewrite lookup_delete_ne; [exact IH|]. intros E. apply key_inj in E as [E _]. auto. }
  split_and!.
  - intros t. split; apply Hin.
  - apply lookup_delete_eq.
  - intros name. unfold LatestMetric. cbn [latestMetric Remove].
    destruct (filter _ (latestMetric s) !! _) as [snap|] eqn:E; [|reflexivity].
    apply map_lookup_filter_Some in E as [_ E]. rewrite prefix_app_mid in E. discriminate E.
  - intros other t Ho. split_and!; [apply Hout, Ho|apply Hout, Ho|].
    apply lookup_delete_ne. auto.
  - intros f r. unfold SetDriverCommandFault. cbn [health Remove]. now rewrite lookup_delete_eq.
Qed.

(** The day's poll counters are exact. Over any history of polls in order
    of their clock hour, [PollsLastDay] counts the polls of the last 24 clock
    hours and those of them that failed, no matter how often a slot has been
    reused, and says the count covers the time since the store was made, at
    most a day. *)
Theorem polls_last_day_exact (started now : Time) (ps : list (Time * bool)) :
  StronglySorted notLater ps ->
  Forall (fun p => 0 <= hourOf (fst p) <= hourOf now) ps ->
  Z.of_nat (length ps) < 2 ^ 64 ->
  exists s, countPolls ps (NewStore started) = Some s /\
    PollsLastDay now s =
      (pollsIn (hourOf now) ps, errorsIn (hourOf now) ps,
       Z.min (24 * Hour) (Z.max 0 (Sub now started))).
Proof.
  intros Hsort Hall Hlen.
  destruct (countPolls_ok ps [] (NewStore started) new_slots_ok) as (s & E & Hb & Hs); auto.
  { eapply Forall_impl; [exact Hall|]. cbn. intros; lia. }
  { intros p Hp. inversion Hp. }
  exists s. split; [exact E|]. rewrite Forall_forall in Hall. cbn [app] in Hs.
  unfold PollsLastDay. destruct Hs as [Hl Hs]. rewrite Hl. change (Z.of_nat 24) with 24.
  pose proof (polls_fold (fun slot => inWindow (hourOf now) 24 (phHour slot)) (pollHours s) 0 0) as F.
  rewrite (wrap_u64_id 0) in F by lia. rewrite F. clear F. rewrite !Z.add_0_l, Hb. cbn [born NewStore].
  rewrite (slots_sum ps (pollHours s) (hourOf now) (fun _ => true) phPolls);
    [|split; assumption|exact Hall|reflexivity|].
  2: { intros i slot Es Hne. destruct (Hs i slot Es) as [[-> _]|(_ & _ & _ & -> & _)]; [done|].
       apply countZ_ext. intros p _. unfold atHour. now rewrite andb_true_r. }
  rewrite (slots_sum ps (pollHours s) (hourOf now) snd phErrors);
    [|split; assumption|exact Hall|reflexivity|].
  2: { intros i slot Es Hne. destruct (Hs i slot Es) as [[-> _]|(_ & _ & _ & _ & ->)]; done. }
  rewrite !wrap_u64_id.
  - unfold pollsIn, errorsIn. do 2 f_equal.
    apply countZ_ext. intros p _. apply andb_true_r.
  - pose proof (countZ_bounds (fun p : Time * bool => inWindow (hourOf now) 24 (hourOf (fst p)) && snd p) ps). lia.
  - pose proof (countZ_bounds (fun p : Time * bool => inWindow (hourOf now) 24 (hourOf (fst p)) && true) ps). lia.
Qed.

Lemma polls_last_day_exact_witness :
  let t0 := unix_epoch in
  exists s, countPolls [(t0, true); (t0 + 23 * Hour, false); (t0 + 24 * Hour, true)] (NewStore t0) = Some s /\
    PollsLastDay (t0 + 24 * Hour) s = (2, 1, 24 * Hour).
Proof.
  intros t0.
  destruct (polls_last_day_exact t0 (t0 + 24 * Hour)
              [(t0, true); (t0 + 23 * Hour, false); (t0 + 24 * Hour, true)]) as (s & E & P).
  - repeat constructor; unfold notLater; vm_compute; discriminate.
  - repeat constructor; vm_compute; discriminate.
  - vm_compute. reflexivity.
  - exists s. split; [exact E|]. rewrite P. vm_compute. reflexivity.
Defined.
