(* ===== verification/Observations.v ===== *)
(** * Raw power observations (go/internal/telemetry/control_observations.go)

    The bounded series of power samples per device that response checks read,
    and how a sample's own time and freshness come out of a driver's data. The
    series sit beside the store's readings: [controlObservations] is a map of
    its own here, passed to the operations that read or write it. *)
From Stdlib Require Import ZArith Lia Sorted.
From S2P Require Import Prelude Float64 GoTime Rfc3339 Json Kalman Health Telemetry.
From stdpp Require Import base gmap strings list sorting.
#[local] Open Scope Z_scope.

Record ControlObservation : Type := mkObs { oPowerW : f64; oAt : Time; ConfirmedAt : Time }.
Record ControlWindow : Type := mkWindow {
  MeanW : f64; MinW : f64; MaxW : f64; First : Time; Last : Time; Count : Z
}.
Record ControlBaseline : Type := mkBaseline {
  blDriver : string; blKind : DerType; blWindow : ControlWindow; blPoints : list ControlObservation
}.
Definition ControlWindowDuration : Duration := 20 * Second.
Definition noWindow : ControlWindow := mkWindow (of_Z 0) (of_Z 0) (of_Z 0) zeroTime zeroTime 0.

(** ** Fields of a driver's data *)
Definition str_field (k : string) (fs : list (string * json)) : field string :=
  match lookup_last k fs with
  | None | Some JNull => FAbsent
  | Some (JString s) => FVal s
  | Some _ => FErr
  end.
Definition int_field (k : string) (fs : list (string * json)) : field Z :=
  match lookup_last k fs with
  | None | Some JNull => FAbsent
  | Some (JNum _ (Some n)) => if (min_int64 <=? n) && (n <=? max_int64) then FVal n else FErr
  | Some _ => FErr
  end.

Record ForecastPowerSample : Type := mkForecast {
  Version : Z; Known : bool; Watts : f64; MeasuredAtMS : Z; ReceivedAtMS : Z
}.
Definition forecast_field (k : string) (fs : list (string * json)) : field ForecastPowerSample :=
  match lookup_last k fs with
  | None | Some JNull => FAbsent
  | Some (JObject gs) =>
      let v := int_field "version" gs in
      let kn := bool_field "known" gs in
      let w := num_field "watts" gs in
      let m := int_field "measured_at_ms" gs in
      let r := int_field "received_at_ms" gs in
      if field_err v || field_err kn || field_err w || field_err m || field_err r then FErr
      else FVal (mkForecast (default 0 (field_opt v)) (default false (field_opt kn))
                   (default (of_Z 0) (field_opt w)) (default 0 (field_opt m)) (default 0 (field_opt r)))
  | Some _ => FErr
  end.

(** ** Freshness *)
Definition Seen (p : ControlObservation) : Time :=
  if After (ConfirmedAt p) (oAt p) then ConfirmedAt p else oAt p.

(** A float64 in nanoseconds as a duration. Out of range the conversion is
    the machine's, and no machine gives a value in (0, 3 min]. *)
Definition toDuration (x : f64) : Duration :=
  match x with
  | Fin z => let n := Z.quot z unit64 in if (min_int64 <=? n) && (n <=? max_int64) then n else min_int64
  | _ => min_int64
  end.

Definition DeclaredPowerMaxAge (data : RawMessage) : Duration :=
  match obj_fields data with
  | None => 0
  | Some fs =>
      let f := num_field "power_max_age_s" fs in
      if field_err f then 0
      else
        let age := toDuration (fmul (default (of_Z 0) (field_opt f)) (of_Z Second)) in
        if (age <=? 0) || (3 * Minute <? age) then 0 else age
  end.
Definition ControlPowerMaxAge (data : RawMessage) : Duration :=
  let age := DeclaredPowerMaxAge data in if 0 <? age then age else Minute.

(** ** One sample out of a reading; [None] is the code's [false]. *)
Definition forecastOf (power : f64) (f : field ForecastPowerSample) (receivedAt : Time) : option (f64 * Time) :=
  match f with
  | FVal s =>
      if negb (Version s =? 1) || negb (Known s) || (MeasuredAtMS s <=? 0) ||
         (ReceivedAtMS s <? MeasuredAtMS s) || (UnixMilli receivedAt <? ReceivedAtMS s)
      then None else Some (Watts s, of_UnixMilli (MeasuredAtMS s))
  | _ => Some (power, receivedAt)
  end.

Definition stampOf (at' : Time) (control own : string) : option Time :=
  let stamp := if String.eqb control "" then own else control in
  if String.eqb stamp "" then Some at' else ParseRFC3339Nano stamp.

Definition decodedObservation (power : f64) (fs : list (string * json)) (receivedAt : Time)
  : option ControlObservation :=
  let w := num_field "control_power_w" fs in
  let available := bool_field "control_power_available" fs in
  let confirmed := bool_field "control_power_confirmed" fs in
  let control := str_field "control_power_observed_at" fs in
  let own := str_field "power_observed_at" fs in
  let forecast := forecast_field "forecast_power" fs in
  if field_err w || field_err available || field_err confirmed || field_err control || field_err own ||
     field_err forecast
  then None
  else if negb (default true (field_opt available)) then None
  else
    match forecastOf power forecast receivedAt with
    | None => None
    | Some (p, at') =>
        match stampOf at' (default ""%string (field_opt control)) (default ""%string (field_opt own)) with
        | None => None
        | Some at' =>
            Some (mkObs (default p (field_opt w)) at'
                    (if default false (field_opt confirmed) then receivedAt else zeroTime))
        end
    end.

Definition ControlPowerObservation (power : f64) (data : RawMessage) (receivedAt : Time)
  : option ControlObservation :=
  let decoded :=
    match data with
    | RawEmpty => Some (mkObs power receivedAt zeroTime)
    | _ => match obj_fields data with
           | None => None
           | Some fs => decodedObservation power fs receivedAt
           end
    end in
  match decoded with
  | None => None
  | Some p =>
      if finite (oPowerW p) && negb (After (oAt p) receivedAt) &&
         (Sub receivedAt (Seen p) <=? ControlPowerMaxAge data)
      then Some p else None
  end.

(** ** The series *)
Definition series : Type := gmap string (list ControlObservation).
Definition controlled (k : DerType) : bool := bool_decide (k = DerEV \/ k = DerBattery \/ k = DerV2X).

Definition lastPoints (points : list ControlObservation) : list ControlObservation :=
  drop (length points - 64) points.

Definition appendPoint (kind : DerType) (points : list ControlObservation) (p : ControlObservation)
  : list ControlObservation :=
  match last points with
  | None => points ++ [p]
  | Some q =>
      if negb (After (oAt p) (oAt q)) then points
      else lastPoints
        (if negb (controlled kind) && (Unix (oAt p) =? Unix (oAt q))
         then take (length points - 1) points ++ [p] else points ++ [p])
  end.

Definition recordControlObservation (driver : string) (kind : DerType) (power : f64) (data : RawMessage)
    (now : Time) (obs : series) : series :=
  if bool_decide (kind = DerVehicle) then obs
  else
    let k := key driver kind in
    match ControlPowerObservation power data now with
    | None => delete k obs
    | Some p =>
        if 10 * Second <? Sub now (oAt p) then delete k obs
        else
          let points := default [] (obs !! k) in
          if match last points with Some q => negb (After (oAt p) (oAt q)) | None => false end then obs
          else <[k := appendPoint kind points p]> obs
    end.

(** ** Windows *)
Definition inWindow (from until : Time) (p : ControlObservation) : bool :=
  negb (Before (oAt p) from) && negb (After (oAt p) until).

Definition windowStep (w : ControlWindow) (p : ControlObservation) : ControlWindow :=
  let w := if Count w =? 0 then mkWindow (MeanW w) (oPowerW p) (oPowerW p) (oAt p) (Last w) 0 else w in
  mkWindow (fadd (MeanW w) (oPowerW p)) (fmin (MinW w) (oPowerW p)) (fmax (MaxW w) (oPowerW p)) (First w)
    (oAt p) (Count w + 1).

Definition copyControlPoints (points : list ControlObservation) (from until : Time) : list ControlObservation :=
  List.filter (inWindow from until) points.

Definition observationWindow (points : list ControlObservation) (from now : Time) : ControlWindow :=
  let w := fold_left windowStep (copyControlPoints points from now) noWindow in
  if 0 <? Count w
  then mkWindow (fdiv (MeanW w) (of_Z (Count w))) (MinW w) (MaxW w) (First w) (Last w) (Count w)
  else w.

Definition Usable (w : ControlWindow) (now : Time) : bool :=
  (2 <=? Count w) && (5 * Second <=? Sub (Last w) (First w)) && negb (After (Last w) now) &&
  (Sub now (Last w) <=? 10 * Second).

Definition baselineOf (obs : series) (from until : Time) (k : string) (rd : DerReading) : ControlBaseline :=
  let points := default [] (obs !! k) in
  mkBaseline (Driver rd) (RType rd) (observationWindow points from until) (copyControlPoints points from until).

Definition controlBaseline (s : Store) (obs : series) (now : Time) : gmap string ControlBaseline :=
  map_imap (fun k rd =>
      if bool_decide (RType rd = DerVehicle) then None
      else
        let b := baselineOf obs (GoTime.Add now (- ControlWindowDuration)) now k rd in
        if Usable (blWindow b) now then Some b else None) (readings s).

Definition ControlWindows (s : Store) (obs : series) (from now : Time) : gmap string ControlBaseline :=
  map_imap (fun k rd =>
      if bool_decide (RType rd = DerVehicle) then None else Some (baselineOf obs from now k rd)) (readings s).

(** ** Lemmas *)
Definition earlier (p q : ControlObservation) : Prop := oAt p < oAt q.
Record points_ok (now : Time) (points : list ControlObservation) : Prop := {
  pts_len : (length points <= 64)%nat;
  pts_sorted : StronglySorted earlier points;
  pts_sound : Forall (fun p => finite (oPowerW p) = true /\ oAt p <= now) points
}.

Lemma points_ok_mono now now' points : now <= now' -> points_ok now points -> points_ok now' points.
Proof.
  intros L [A B C]. split; [exact A|exact B|]. eapply Forall_impl; [exact C|]. cbn. intros p [F U]. split; [exact F|lia].
Qed.
Lemma points_ok_sub now l1 l2 : points_ok now (l1 ++ l2) -> points_ok now l1 /\ points_ok now l2.
Proof.
  intros [A B C]. rewrite length_app in A. apply Forall_app in C as [C1 C2].
  split; split; auto; try lia; [exact (StronglySorted_app_1_l _ _ _ B)|exact (StronglySorted_app_1_r _ _ _ B)].
Qed.

(** Every point of a series is at or before its last one. *)
Lemma sorted_before_last l q : StronglySorted earlier l -> last l = Some q -> forall x, x ∈ l -> oAt x <= oAt q.
Proof.
  intros S E x I. destruct (last_Some l q) as [H _]. destruct (H E) as [l' ->].
  apply elem_of_app in I as [I|I]; [|apply list_elem_of_singleton in I; subst; lia].
  pose proof (StronglySorted_app_1_elem_of _ _ _ x q S I ltac:(set_solver)) as L. unfold earlier in L. lia.
Qed.

Lemma sorted_snoc l p q : StronglySorted earlier l -> last l = Some q -> oAt q < oAt p ->
  forall l1, (forall x, x ∈ l1 -> x ∈ l) -> StronglySorted earlier l1 -> StronglySorted earlier (l1 ++ [p]).
Proof.
  intros S E L l1 I S1. apply StronglySorted_app_2; [|exact S1|repeat constructor].
  intros x1 x2 H1 H2. apply list_elem_of_singleton in H2. subst x2.
  pose proof (sorted_before_last _ _ S E x1 (I _ H1)). unfold earlier. lia.
Qed.

Lemma lastPoints_length l : (length (lastPoints l) <= 64)%nat.
Proof. unfold lastPoints. rewrite length_drop. lia. Qed.

Lemma appendPoint_ok now kind points p :
  points_ok now points -> finite (oPowerW p) = true -> oAt p <= now -> points_ok now (appendPoint kind points p).
Proof.
  intros O F L. unfold appendPoint. destruct (last points) as [q|] eqn:E.
  - unfold After. destruct (Z.ltb_spec (oAt q) (oAt p)) as [Lq|]; cbn [negb]; [|exact O].
    assert (K : forall l1, (forall x, x ∈ l1 -> x ∈ points) -> points_ok now l1 -> points_ok now (lastPoints (l1 ++ [p]))).
    { intros l1 I [A B C]. pose proof (sorted_snoc _ p q (pts_sorted _ _ O) E Lq l1 I B) as S1.
      split; [apply lastPoints_length| |].
      - rewrite <- (take_drop (length (l1 ++ [p]) - 64) (l1 ++ [p])) in S1. exact (StronglySorted_app_1_r _ _ _ S1).
      - unfold lastPoints. apply Forall_drop, Forall_app. split; [exact C|]. apply Forall_singleton. now split. }
    destruct (negb (controlled kind) && _).
    + apply K.
      * intros x I. rewrite <- (take_drop (length points - 1) points). apply elem_of_app. now left.
      * rewrite <- (take_drop (length points - 1) points) in O. exact (proj1 (points_ok_sub _ _ _ O)).
    + now apply K.
  - apply last_None in E. subst points. split; [cbn; lia|repeat constructor|]. apply Forall_singleton. now split.
Qed.

Definition series_ok (now : Time) (obs : series) : Prop := map_Forall (fun _ => points_ok now) obs.

Lemma observation_sound power data now p : ControlPowerObservation power data now = Some p ->
  finite (oPowerW p) = true /\ oAt p <= now /\ Sub now (Seen p) <= ControlPowerMaxAge data.
Proof.
  unfold ControlPowerObservation. destruct (match data with RawEmpty => _ | _ => _ end) as [d|]; [|discriminate].
  destruct (finite (oPowerW d)) eqn:F; [|discriminate]. unfold After. destruct (Z.ltb_spec now (oAt d)); [discriminate|].
  cbn [negb andb]. destruct (Z.leb_spec (Sub now (Seen d)) (ControlPowerMaxAge data)); [|discriminate].
  intros [= <-]. auto.
Qed.

Lemma record_ok driver kind power data now obs :
  series_ok now obs -> series_ok now (recordControlObservation driver kind power data now obs).
Proof.
  intros O. unfold recordControlObservation. destruct (bool_decide _); [exact O|]. cbv zeta.
  destruct (ControlPowerObservation power data now) as [p|] eqn:E; [|now apply map_Forall_delete].
  destruct (observation_sound _ _ _ _ E) as (F & L & _).
  destruct (10 * Second <? _); [now apply map_Forall_delete|].
  destruct (match last _ with Some q => _ | None => false end); [exact O|].
  apply map_Forall_insert_2; [|exact O]. apply appendPoint_ok; auto.
  destruct (obs !! key driver kind) as [pts|] eqn:K; [exact (O _ _ K)|]. split; [cbn; lia|constructor|constructor].
Qed.

(** One call: what a driver reported, and when. *)
Record report : Type := mkReport { rpDriver : string; rpKind : DerType; rpPower : f64; rpData : RawMessage; rpNow : Time }.
Definition recordReport (obs : series) (r : report) : series :=
  recordControlObservation (rpDriver r) (rpKind r) (rpPower r) (rpData r) (rpNow r) obs.

Lemma copy_sorted points from until : StronglySorted earlier points -> StronglySorted earlier (copyControlPoints points from until).
Proof.
  induction 1 as [|p l S IH F]; [constructor|]. cbn. destruct (inWindow from until p); [|exact IH].
  constructor; [exact IH|]. rewrite Forall_forall in *. intros x I. apply F. apply list_elem_of_In in I. apply filter_In in I as [I _].
  now apply list_elem_of_In.
Qed.

(** ** Properties *)

(** The response checks read real, ordered samples. Whatever drivers
    report, and in whatever order of devices, a device's series holds at most
    64 samples with strictly rising times, none later than the last report and
    each with a finite power; and a report whose time is not newer than the
    newest sample changes nothing, so a repeated sample never counts twice. *)
Theorem control_series_invariant (reports : list report) (first : Time)
    (Ht : StronglySorted (fun a b => rpNow a <= rpNow b) reports)
    (Hf : Forall (fun r => first <= rpNow r) reports) :
  let obs := fold_left recordReport reports ∅ in
  series_ok (default first (rpNow <$> last reports)) obs /\
  forall r p q points, obs !! key (rpDriver r) (rpKind r) = Some points -> last points = Some q ->
    rpKind r <> DerVehicle -> ControlPowerObservation (rpPower r) (rpData r) (rpNow r) = Some p ->
    oAt p <= oAt q -> Sub (rpNow r) (oAt p) <= 10 * Second -> recordReport obs r = obs.
Proof.
  cbv zeta. split.
  - assert (G : forall obs now, series_ok now obs -> Forall (fun r => now <= rpNow r) reports ->
      series_ok (default now (rpNow <$> last reports)) (fold_left recordReport reports obs)).
    { clear Hf first. induction Ht as [|r l S IH F]; intros obs now O G; [exact O|]. cbn [fold_left].
      inversion_clear G as [|? ? Gr Gl].
      assert (O' : series_ok (rpNow r) (recordReport obs r)).
      { apply record_ok. intros k pts K. exact (points_ok_mono _ _ _ Gr (O k pts K)). }
      specialize (IH _ _ O' F). rewrite last_cons. destruct (last l); exact IH. }
    apply G; [apply map_Forall_empty|exact Hf].
  - intros r p q points K E V P L A. set (obs := fold_left recordReport reports ∅) in *. clearbody obs.
    unfold recordReport, recordControlObservation.
    rewrite bool_decide_eq_false_2 by exact V. cbv zeta. rewrite P. rewrite (proj2 (Z.ltb_ge _ _) A), K. cbn [from_option id].
    rewrite E. unfold After. now rewrite (proj2 (Z.ltb_ge _ _) L).
Qed.

(** ** Witnesses *)
Definition demoReports : list report :=
  [mkReport "b" DerBattery (of_Z 100) RawEmpty (1 * Second); mkReport "b" DerBattery (of_Z 200) RawEmpty (3 * Second)].
Lemma control_series_invariant_witness :
  series_ok (3 * Second) (fold_left recordReport demoReports ∅).
Proof.
  refine (proj1 (control_series_invariant demoReports 0 _ _)).
  - repeat constructor; vm_compute; discriminate.
  - repeat constructor; vm_compute; discriminate.
Defined.
