(* ===== verification/CommandEvidence.v ===== *)
(** * Evidence of the commands sent to the devices (go/internal/telemetry/command_evidence.go)

    One record per device function: the command in force, the marks its
    readings leave, and for a battery the highest order that may still be at
    the hardware. The records are the store's [commands] map, beside the
    readings and the raw series. The code's fields are kept in three groups:
    the marks, the battery's bound and the rest. *)
From Stdlib Require Import ZArith Lia.
From S2P Require Import Prelude Float64 GoTime Json Kalman Health Telemetry Observations.
From stdpp Require Import base gmap strings list.
#[local] Open Scope Z_scope.

Record CommandPoint : Type := mkCommandPoint { cpPowerW : f64; cpAt : Time }.
(** When the current run of each kind of reading began, and the last reading. *)
Record Marks : Type := mkMarks {
  ReadbackMismatchSince : Time; PowerMismatchSince : Time; PowerOverSince : Time; PowerMatchSince : Time;
  PowerObservedSince : Time; LastObservation : Time
}.
Record BatteryBound : Type := mkBound {
  batteryUpperW : f64; batteryUpperKnown : bool; batteryLowerW : f64; batteryLowerSince : Time;
  batteryReleased : bool; batteryOrderAt : Time
}.
Record CommandEvidence : Type := mkEvidence {
  ceDriver : string; ceKind : string; ceAction : string; cePowerW : option f64; ceAt : Time; ceSince : Time; ceResult : string;
  ceMarks : Marks; ceLastMeasuredAt : Time; NoPowerSince : Time; NoPowerAt : Time; LastGapW : option f64; ceMaxAge : Duration;
  ceRecent : list CommandPoint; ceBaseline : option (gmap string ControlBaseline); StepAfter : option (gmap string ControlBaseline);
  StepAfterAt : Time; ceBound : BatteryBound; ceCleared : bool
}.
Definition noMarks : Marks := mkMarks zeroTime zeroTime zeroTime zeroTime zeroTime zeroTime.
Definition noBound : BatteryBound := mkBound (of_Z 0) false (of_Z 0) zeroTime false zeroTime.
(** The zero value. *)
Definition noEvidence : CommandEvidence :=
  mkEvidence "" "" "" None zeroTime zeroTime "" noMarks zeroTime zeroTime zeroTime None 0 [] None None zeroTime noBound false.

Definition commandKind (action : string) : string :=
  if bool_decide (action = "battery"%string) then "battery"
  else if bool_decide (action ∈ ["ev_set_current"; "ev_pause"; "ev_resume"; "ev_start"]%string) then "ev"
  else if bool_decide (action ∈ ["curtail"; "curtail_disable"]%string) then "pv"
  else if bool_decide (action = "v2x_set_power"%string) then "v2x_charger"
  else "".
Definition ResponseDelay (kind : string) : Duration := if bool_decide (kind = "ev"%string) then 2 * Minute else 15 * Second.
Definition ControlToleranceW (sent : f64) : f64 := fmax (of_Z 100) (fmul (fabs sent) (lit 1 10)).
Definition materialStep (old next : option f64) : bool :=
  match old, next with
  | Some o, Some n => fle (fmax (of_Z 500) (ControlToleranceW o)) (fabs (fsub n o))
  | None, None => false
  | _, _ => true
  end.
Definition PowerFollowsCommand (kind : string) (sent actual : f64) : bool :=
  if negb (finite sent) || negb (finite actual) then false
  else if bool_decide (kind = "pv"%string) then fle (fabs (fsub (fabs actual) (fabs sent))) (ControlToleranceW sent)
  else fle (fabs (fsub actual sent)) (ControlToleranceW sent).

(** ** Setters *)
Definition withMarks (m : Marks) (c : CommandEvidence) : CommandEvidence :=
  mkEvidence (ceDriver c) (ceKind c) (ceAction c) (cePowerW c) (ceAt c) (ceSince c) (ceResult c) m (ceLastMeasuredAt c) (NoPowerSince c)
    (NoPowerAt c) (LastGapW c) (ceMaxAge c) (ceRecent c) (ceBaseline c) (StepAfter c) (StepAfterAt c) (ceBound c) (ceCleared c).
Definition withNoPower (since at' : Time) (c : CommandEvidence) : CommandEvidence :=
  mkEvidence (ceDriver c) (ceKind c) (ceAction c) (cePowerW c) (ceAt c) (ceSince c) (ceResult c) (ceMarks c) (ceLastMeasuredAt c) since
    at' (LastGapW c) (ceMaxAge c) (ceRecent c) (ceBaseline c) (StepAfter c) (StepAfterAt c) (ceBound c) (ceCleared c).
Definition withGap (gap : option f64) (c : CommandEvidence) : CommandEvidence :=
  mkEvidence (ceDriver c) (ceKind c) (ceAction c) (cePowerW c) (ceAt c) (ceSince c) (ceResult c) (ceMarks c) (ceLastMeasuredAt c)
    (NoPowerSince c) (NoPowerAt c) gap (ceMaxAge c) (ceRecent c) (ceBaseline c) (StepAfter c) (StepAfterAt c) (ceBound c) (ceCleared c).
Definition withMaxAge (age : Duration) (c : CommandEvidence) : CommandEvidence :=
  mkEvidence (ceDriver c) (ceKind c) (ceAction c) (cePowerW c) (ceAt c) (ceSince c) (ceResult c) (ceMarks c) (ceLastMeasuredAt c)
    (NoPowerSince c) (NoPowerAt c) (LastGapW c) age (ceRecent c) (ceBaseline c) (StepAfter c) (StepAfterAt c) (ceBound c) (ceCleared c).
Definition withMeasuredAt (at' : Time) (c : CommandEvidence) : CommandEvidence :=
  mkEvidence (ceDriver c) (ceKind c) (ceAction c) (cePowerW c) (ceAt c) (ceSince c) (ceResult c) (ceMarks c) at' (NoPowerSince c)
    (NoPowerAt c) (LastGapW c) (ceMaxAge c) (ceRecent c) (ceBaseline c) (StepAfter c) (StepAfterAt c) (ceBound c) (ceCleared c).
Definition withRecent (recent : list CommandPoint) (c : CommandEvidence) : CommandEvidence :=
  mkEvidence (ceDriver c) (ceKind c) (ceAction c) (cePowerW c) (ceAt c) (ceSince c) (ceResult c) (ceMarks c) (ceLastMeasuredAt c)
    (NoPowerSince c) (NoPowerAt c) (LastGapW c) (ceMaxAge c) recent (ceBaseline c) (StepAfter c) (StepAfterAt c) (ceBound c) (ceCleared c).
Definition withWindows (baseline after : option (gmap string ControlBaseline)) (at' : Time) (c : CommandEvidence) : CommandEvidence :=
  mkEvidence (ceDriver c) (ceKind c) (ceAction c) (cePowerW c) (ceAt c) (ceSince c) (ceResult c) (ceMarks c) (ceLastMeasuredAt c)
    (NoPowerSince c) (NoPowerAt c) (LastGapW c) (ceMaxAge c) (ceRecent c) baseline after at' (ceBound c) (ceCleared c).
Definition withBound (b : BatteryBound) (c : CommandEvidence) : CommandEvidence :=
  mkEvidence (ceDriver c) (ceKind c) (ceAction c) (cePowerW c) (ceAt c) (ceSince c) (ceResult c) (ceMarks c) (ceLastMeasuredAt c)
    (NoPowerSince c) (NoPowerAt c) (LastGapW c) (ceMaxAge c) (ceRecent c) (ceBaseline c) (StepAfter c) (StepAfterAt c) b (ceCleared c).
Definition withResult (result : string) (c : CommandEvidence) : CommandEvidence :=
  mkEvidence (ceDriver c) (ceKind c) (ceAction c) (cePowerW c) (ceAt c) (ceSince c) result (ceMarks c) (ceLastMeasuredAt c)
    (NoPowerSince c) (NoPowerAt c) (LastGapW c) (ceMaxAge c) (ceRecent c) (ceBaseline c) (StepAfter c) (StepAfterAt c) (ceBound c) (ceCleared c).
(** The run of [old] goes on in [c]. *)
Definition sameRun (old c : CommandEvidence) : CommandEvidence :=
  mkEvidence (ceDriver c) (ceKind c) (ceAction c) (cePowerW c) (ceAt c) (ceSince old) (ceResult c) (ceMarks old) (ceLastMeasuredAt c)
    (NoPowerSince c) (NoPowerAt c) (LastGapW old) (ceMaxAge c) (ceRecent c) (ceBaseline old) (StepAfter old) (StepAfterAt old) (ceBound c)
    (ceCleared c).

(** ** Sending a command *)
(** What an order does to the battery's bound. *)
Definition orderBound (power : option f64) (now : Time) (old : BatteryBound) : BatteryBound :=
  let b := mkBound (batteryUpperW old) (batteryUpperKnown old) (batteryLowerW old) (batteryLowerSince old) false now in
  match power with
  | None => b
  | Some w =>
      if negb (batteryUpperKnown b) || fle (batteryUpperW b) w
      then mkBound w true (batteryLowerW b) zeroTime false now
      else if IsZero (batteryLowerSince b) || flt (batteryLowerW b) w
      then mkBound (batteryUpperW b) (batteryUpperKnown b) w now false now
      else b
  end.
(** The action and the power of a payload; [None] when it is not recorded. *)
Definition requestOf (payload : RawMessage) : option (string * option f64) :=
  match obj_fields payload with
  | None => None
  | Some fs =>
      let action := str_field "action" fs in
      let power := num_field "power_w" fs in
      let expected := num_field "expected_w" fs in
      if field_err action || field_err power || field_err expected then None
      else
        let action := default ""%string (field_opt action) in
        let power :=
          match field_opt expected with
          | Some e => if finite e && fle (of_Z 0) e then Some e else field_opt power
          | None => field_opt power
          end in
        if bool_decide (action = "ev_resume"%string) && bool_decide (power = None) then None
        else
          let power := if bool_decide (action = "ev_pause"%string) then Some (of_Z 0) else power in
          if bool_decide (commandKind action = ""%string) || negb (default true (finite <$> power)) then None
          else Some (action, power)
  end.
Definition continues (old c : CommandEvidence) : bool :=
  bool_decide (ceAction old = ceAction c) && (bool_decide (ceResult old = "accepted"%string) || bool_decide (ceResult old = "pending"%string)).
Definition retune (old c : CommandEvidence) : CommandEvidence :=
  if continues old c then
    let c :=
      match cePowerW old, cePowerW c with
      | Some o, Some w =>
          if bool_decide (ceKind c = "ev"%string) && flt (of_Z 100) o && flt (of_Z 100) w
          then withNoPower (NoPowerSince old) (NoPowerAt old) c else c
      | _, _ => c
      end in
    let c := withMaxAge (ceMaxAge old) (withRecent (ceRecent old) c) in
    if negb (materialStep (cePowerW old) (cePowerW c)) then sameRun old c else c
  else c.
Definition addRecent (now : Time) (c : CommandEvidence) : CommandEvidence :=
  let recent :=
    match cePowerW c with
    | Some w =>
        match last (ceRecent c) with
        | Some p => if feq (cpPowerW p) w then ceRecent c else ceRecent c ++ [mkCommandPoint w now]
        | None => ceRecent c ++ [mkCommandPoint w now]
        end
    | None => ceRecent c
    end in
  withRecent (drop (length recent - 8) recent) c.
(** The record stored, and the token [CompleteCommand] takes. *)
Definition BeginCommand (s : Store) (obs : series) (driver : string) (payload : RawMessage) (now : Time) (cs : gmap string CommandEvidence) :
    gmap string CommandEvidence * CommandEvidence :=
  match requestOf payload with
  | None => (cs, noEvidence)
  | Some (action, power) =>
      let kind := commandKind action in
      let k := (driver +:+ ":" +:+ kind)%string in
      let stored := cs !! k in
      let old := default noEvidence stored in
      let bound := if bool_decide (kind = "battery"%string) then orderBound power now (ceBound old) else noBound in
      let c :=
        mkEvidence driver kind action power now now "pending" noMarks zeroTime zeroTime zeroTime None 0 [] None None zeroTime bound false in
      let c :=
        match stored with
        | Some old =>
            let c := if bool_decide (ceResult old = "released"%string) then c else withMeasuredAt (ceLastMeasuredAt old) c in
            retune old c
        | None => c
        end in
      let c := addRecent now c in
      let c := match ceBaseline c with None => withWindows (Some (controlBaseline s obs now)) (StepAfter c) (StepAfterAt c) c | Some _ => c end in
      (<[k := c]> cs, withRecent [] (withWindows None None (StepAfterAt c) c))
  end.
Definition CompleteCommand (c : CommandEvidence) (result : string) (cs : gmap string CommandEvidence) : gmap string CommandEvidence :=
  if bool_decide (ceKind c = ""%string) then cs
  else
    let k := (ceDriver c +:+ ":" +:+ ceKind c)%string in
    match cs !! k with
    | Some latest => if Equal (ceAt latest) (ceAt c) then <[k := withResult result latest]> cs else cs
    | None => cs
    end.
Definition lookupEvidence (driver kind : string) (cs : gmap string CommandEvidence) : option CommandEvidence :=
  match cs !! (driver +:+ ":" +:+ kind)%string with
  | Some c => if ceCleared c then None else Some c
  | None => None
  end.
Definition BatteryCommandUpperW (driver : string) (offers : list CommandPoint) (cs : gmap string CommandEvidence) : f64 * bool :=
  let b := ceBound (default noEvidence (cs !! (driver +:+ ":battery")%string)) in
  (fold_left (fun upper o => if batteryUpperKnown b && After (cpAt o) (batteryOrderAt b) then fmax upper (cpPowerW o) else upper) offers
     (batteryUpperW b), batteryUpperKnown b).

(** ** Returning a device to its own control *)
Definition clearedBound (b : BatteryBound) (now : Time) : BatteryBound :=
  mkBound (fmax (of_Z 0) (batteryUpperW b)) true (of_Z 0)
    (if negb (batteryReleased b) || IsZero (batteryLowerSince b) then now else batteryLowerSince b) true now.
Definition clearedEvidence (driver : string) (b : BatteryBound) (now : Time) : CommandEvidence :=
  mkEvidence driver "battery" "" None zeroTime zeroTime "released" noMarks zeroTime zeroTime zeroTime None 0 [] None None zeroTime
    (clearedBound b now) true.
Definition clearCommandEvidence (driver : string) (now : Time) (cs : gmap string CommandEvidence) : gmap string CommandEvidence :=
  map_imap (fun _ c =>
    if bool_decide (ceDriver c = driver) then
      if bool_decide (ceKind c = "battery"%string) && batteryUpperKnown (ceBound c) then Some (clearedEvidence driver (ceBound c) now) else None
    else Some c) cs.
(** What [Remove] does to the records of all drivers before it clears one. *)
Definition removeEvidence (driver : string) (now : Time) (cs : gmap string CommandEvidence) : gmap string CommandEvidence :=
  clearCommandEvidence driver now ((fun c => withWindows None None (StepAfterAt c) c) <$> cs).
Definition releasedBound (b : BatteryBound) (now : Time) : BatteryBound :=
  mkBound (fmax (of_Z 0) (batteryUpperW b)) (batteryUpperKnown b) (of_Z 0)
    (if negb (batteryReleased b) || IsZero (batteryLowerSince b) then now else batteryLowerSince b) true now.
Definition endResult (failed : bool) (result : string) : string :=
  if failed then "default_failed"
  else if bool_decide (result ∈ ["accepted"; "pending"; "default_failed"]%string) then "released" else result.
Definition endOne (failed : bool) (now : Time) (c : CommandEvidence) : CommandEvidence :=
  let c :=
    if bool_decide (ceKind c = "battery"%string) && batteryUpperKnown (ceBound c) then withBound (releasedBound (ceBound c) now) c else c in
  let c := withGap None (withMarks noMarks (withResult (endResult failed (ceResult c)) c)) in
  let c := withWindows (ceBaseline c) None zeroTime (withRecent [] c) in
  if failed then c else withMeasuredAt zeroTime c.
Definition endCommandControlAt (driver : string) (failed : bool) (now : Time) (cs : gmap string CommandEvidence) : gmap string CommandEvidence :=
  (fun c => if bool_decide (ceDriver c = driver) then endOne failed now c else c) <$> cs.

(** ** What a reading shows *)
(** The lowest and highest command that could be in force, and the last one
    before the response delay. *)
Definition gapStep (cutoff at' : Time) (acc : f64 * f64 * option CommandPoint) (p : CommandPoint) : f64 * f64 * option CommandPoint :=
  let '(lo, hi, inForce) := acc in
  if After (cpAt p) at' then acc
  else if negb (After (cpAt p) cutoff) then (lo, hi, Some p)
  else (fmin lo (cpPowerW p), fmax hi (cpPowerW p), inForce).
Definition commandGap (c : CommandEvidence) (power : f64) (at' : Time) : f64 :=
  let cutoff := GoTime.Add at' (- ResponseDelay (ceKind c)) in
  let '(lo, hi, inForce) := fold_left (gapStep cutoff at') (ceRecent c) (Inf false, Inf true, None) in
  let '(lo, hi) := match inForce with Some p => (fmin lo (cpPowerW p), fmax hi (cpPowerW p)) | None => (lo, hi) end in
  if flt hi lo then NaN
  else if bool_decide (ceKind c = "pv"%string) then fmax (of_Z 0) (fsub (fabs power) (fmax (fabs lo) (fabs hi)))
  else if flt power lo then fsub lo power
  else if flt hi power then fsub power hi
  else of_Z 0.
Definition HasMeasuredPower (c : CommandEvidence) (now : Time) : bool :=
  let m := ceMarks c in
  negb (IsZero (PowerObservedSince m)) && (10 * Second <=? Sub (LastObservation m) (PowerObservedSince m)) &&
  negb (After (LastObservation m) now) && (Sub now (LastObservation m) <=? Z.max (10 * Second) (ceMaxAge c)).
(** A fresh reading from after the lower run's response delay. *)
Definition provesLower (b : BatteryBound) (o : ControlObservation) (now : Time) : bool :=
  negb (Before (Seen o) (GoTime.Add (batteryLowerSince b) (ResponseDelay "battery"))) && negb (After (Seen o) now) &&
  (Sub now (Seen o) <=? ControlWindowDuration).
Definition observeBound (power : option f64) (observation : option ControlObservation) (now : Time) (b : BatteryBound) : BatteryBound :=
  if batteryUpperKnown b && negb (IsZero (batteryLowerSince b)) then
    match observation with
    | Some o =>
        if provesLower b o now then
          let upper := fmax (batteryLowerW b) (oPowerW o) in
          let upper :=
            if batteryReleased b then fmax (of_Z 0) upper
            else match power with Some w => fmax w upper | None => upper end in
          if flt upper (batteryUpperW b) then
            mkBound upper (batteryUpperKnown b) (batteryLowerW b)
              (if fle upper (batteryLowerW b) then zeroTime else batteryLowerSince b) (batteryReleased b) (batteryOrderAt b)
          else b
        else b
    | None => b
    end
  else b.
Definition mark (since : Time) (mismatch : bool) (at' : Time) : Time :=
  if negb mismatch then zeroTime else if IsZero since then at' else since.
(** A readback is a PV ceiling or a setpoint. *)
Definition readbackMismatch (c : CommandEvidence) (isPV : bool) (sent : f64) (setpoint : option f64) (now : Time) : bool :=
  match setpoint with
  | Some w =>
      if finite w then
        let tolerance := fmax (of_Z 100) (fmul (fabs sent) (lit 5 100)) in
        if isPV then flt tolerance (fabs (fsub (fabs w) (fabs sent)))
        else let gap := commandGap c w now in isNaN gap || flt tolerance gap
      else false
  | None => false
  end.
(** The clock of a car that draws nothing under orders that let it. *)
Definition noPowerClock (sent : f64) (observation : option ControlObservation) (c : CommandEvidence) : CommandEvidence :=
  match observation with
  | None => withNoPower zeroTime zeroTime c
  | Some o =>
      let at' := Seen o in
      if negb (finite (oPowerW o)) || fle sent (of_Z 100) || fle (of_Z 100) (fabs (oPowerW o)) then withNoPower zeroTime zeroTime c
      else if After at' (NoPowerAt c) && (negb (IsZero (NoPowerSince c)) || negb (Before at' (ceSince c))) then
        withNoPower (if IsZero (NoPowerSince c) || (Z.max Minute (ceMaxAge c) <? Sub at' (NoPowerAt c)) then at' else NoPowerSince c) at' c
      else c
  end.
(** A reading that is newer than the last one. *)
Definition newReading (kind : DerType) (sent power : f64) (at' now : Time) (c : CommandEvidence) : CommandEvidence :=
  let m := ceMarks c in
  let gap := commandGap c power at' in
  let mismatch := negb (finite gap) || flt (ControlToleranceW sent) gap in
  let isPV := bool_decide (kind = DerPV) in
  let follows := if isPV then PowerFollowsCommand (ceKind c) sent power else negb mismatch in
  let m :=
    mkMarks (ReadbackMismatchSince m) (mark (PowerMismatchSince m) mismatch at')
      (mark (PowerOverSince m) (mismatch && negb isPV && flt sent power) at') (mark (PowerMatchSince m) follows at')
      (mark (PowerObservedSince m) true at') at' in
  let c := withGap (if finite gap then Some gap else None) (withMarks m c) in
  if HasMeasuredPower c now then withMeasuredAt at' c else c.
Definition measure (kind : DerType) (sent power : f64) (data : RawMessage) (now : Time) (c : CommandEvidence) : CommandEvidence :=
  match obj_fields data with
  | None => withMarks noMarks (withNoPower zeroTime zeroTime c)
  | Some fs =>
      let setpoint := num_field "setpoint_w" fs in
      if field_err setpoint then withMarks noMarks (withNoPower zeroTime zeroTime c)
      else
        let c := withMaxAge (DeclaredPowerMaxAge data) c in
        let m := ceMarks c in
        let m :=
          if Z.max Minute (ceMaxAge c) <? Sub now (LastObservation m)
          then mkMarks zeroTime zeroTime zeroTime zeroTime zeroTime (LastObservation m) else m in
        let readback := readbackMismatch c (bool_decide (kind = DerPV)) sent (field_opt setpoint) now in
        let m :=
          mkMarks (mark (ReadbackMismatchSince m) readback now) (PowerMismatchSince m) (PowerOverSince m) (PowerMatchSince m)
            (PowerObservedSince m) (LastObservation m) in
        let c := withMarks m c in
        let observation := ControlPowerObservation power data now in
        let c := if bool_decide (kind = DerEV) then noPowerClock sent observation c else c in
        let stale := withGap None (withMarks (mkMarks (ReadbackMismatchSince m) zeroTime zeroTime zeroTime zeroTime zeroTime) c) in
        match observation with
        | None => stale
        | Some o =>
            if negb (finite (oPowerW o)) || Before (Seen o) (ceSince c) then stale
            else if negb (After (Seen o) (LastObservation m)) then c
            else newReading kind sent (oPowerW o) (Seen o) now c
        end
  end.
Definition observeEvidence (kind : DerType) (power : f64) (data : RawMessage) (now : Time) (c : CommandEvidence) : CommandEvidence :=
  let c :=
    if bool_decide (kind = DerBattery)
    then withBound (observeBound (cePowerW c) (ControlPowerObservation power data now) now (ceBound c)) c else c in
  match cePowerW c with
  | Some sent => if negb (bool_decide (ceResult c = "accepted"%string)) || ceCleared c then c else measure kind sent power data now c
  | None => c
  end.
Definition observeCommand (driver : string) (kind : DerType) (power : f64) (data : RawMessage) (now : Time) (cs : gmap string CommandEvidence) : gmap string CommandEvidence :=
  alter (observeEvidence kind power data now) (key driver kind) cs.
(** The completed window after a step stays with its command. *)
Definition freezeStepWindows (s : Store) (obs : series) (now : Time) (cs : gmap string CommandEvidence) : gmap string CommandEvidence :=
  (fun c =>
     match StepAfter c with
     | Some _ => c
     | None =>
         if IsZero (ceSince c) || (Sub now (ceSince c) <? ControlWindowDuration) then c
         else
           let until := GoTime.Add (ceSince c) ControlWindowDuration in
           withWindows (ceBaseline c) (Some (ControlWindows s obs (ceSince c) until)) until c
     end) <$> cs.
(** [Update] of the store with the records and the series beside it. *)
Definition UpdateAll (now : Time) (driver : string) (t : DerType) (rawW : f64) (soc : option f64) (data : RawMessage)
    (x : Store * series * gmap string CommandEvidence) : Store * series * gmap string CommandEvidence :=
  let '(s, obs, cs) := x in
  match ValidateReading t rawW soc with
  | Some _ => x
  | None =>
      let s := Update now driver t rawW soc data s in
      let cs := observeCommand driver t rawW data now cs in
      let obs := recordControlObservation driver t rawW data now obs in
      (s, obs, freezeStepWindows s obs now cs)
  end.

(** ** A history of commands and readings *)
Inductive evidenceOp : Type :=
| Sent (driver : string) (payload : RawMessage) (now : Time)
| Completed (token : CommandEvidence) (result : string)
| Ended (driver : string) (failed : bool) (now : Time)
| Cleared (driver : string) (now : Time)
| Removed (driver : string) (now : Time)
| Read (now : Time) (driver : string) (t : DerType) (rawW : f64) (soc : option f64) (data : RawMessage).
Definition removeSeries (driver : string) (obs : series) : series := foldr (fun t m => delete (key driver t) m) obs allDerTypes.
Definition evidenceStep (x : Store * series * gmap string CommandEvidence) (o : evidenceOp) : Store * series * gmap string CommandEvidence :=
  let '(s, obs, cs) := x in
  match o with
  | Sent driver payload now => (s, obs, fst (BeginCommand s obs driver payload now cs))
  | Completed token result => (s, obs, CompleteCommand token result cs)
  | Ended driver failed now => (s, obs, endCommandControlAt driver failed now cs)
  | Cleared driver now => (s, obs, clearCommandEvidence driver now cs)
  | Removed driver now => (Remove driver s, removeSeries driver obs, removeEvidence driver now cs)
  | Read now driver t rawW soc data => UpdateAll now driver t rawW soc data x
  end.
Definition evidenceRun (ops : list evidenceOp) (x : Store * series * gmap string CommandEvidence) : Store * series * gmap string CommandEvidence := fold_left evidenceStep ops x.
Definition opTime (o : evidenceOp) : option Time :=
  match o with
  | Sent _ _ now | Ended _ _ now | Cleared _ now | Removed _ now | Read now _ _ _ _ _ => Some now
  | Completed _ _ => None
  end.
(** The clock does not go back. *)
Fixpoint ordered (last : Time) (ops : list evidenceOp) : bool :=
  match ops with
  | [] => true
  | o :: rest =>
      match opTime o with
      | Some now => (last <=? now) && ordered now rest
      | None => ordered last rest
      end
  end.
(** The battery powers asked of a driver, and when. *)
Definition orderOf (driver : string) (o : evidenceOp) : list (f64 * Time) :=
  match o with
  | Sent d payload now =>
      if bool_decide (d = driver) then
        match requestOf payload with
        | Some (action, Some w) => if bool_decide (commandKind action = "battery"%string) then [(w, now)] else []
        | _ => []
        end
      else []
  | _ => []
  end.
Definition orders (driver : string) (ops : list evidenceOp) : list (f64 * Time) := concat (map (orderOf driver) ops).
(** The raw battery powers a driver reported, and when they arrived. *)
Definition reportOf (driver : string) (o : evidenceOp) : list (ControlObservation * Time) :=
  match o with
  | Read now d DerBattery rawW soc data =>
      if bool_decide (d = driver) then
        match ValidateReading DerBattery rawW soc, ControlPowerObservation rawW data now with None, Some p => [(p, now)] | _, _ => [] end
      else []
  | _ => []
  end.
Definition reports (driver : string) (ops : list evidenceOp) : list (ControlObservation * Time) := concat (map (reportOf driver) ops).
(** A reading, fresh when it arrived and from at least 15 seconds after an
    order, shows no more than [upper]. *)
Definition shownBelow (t : Time) (upper : f64) (r : ControlObservation * Time) : bool :=
  (t + 15 * Second <=? Seen (fst r)) && (Seen (fst r) <=? snd r) && (Sub (snd r) (Seen (fst r)) <=? ControlWindowDuration) &&
  fle (oPowerW (fst r)) upper.

(** ** Lemmas: one battery's bound *)
Definition covered (reps : list (ControlObservation * Time)) (upper : f64) (o : f64 * Time) : Prop :=
  le_rel (fst o) upper \/ exists r, r ∈ reps /\ shownBelow (snd o) upper r = true.
(** The bound [b] after some orders and readings, none later than [last]. *)
Record boundOk (last : Time) (ords : list (f64 * Time)) (reps : list (ControlObservation * Time)) (b : BatteryBound) : Prop := mkBoundOk {
  bkUpper : rank (batteryUpperW b) = 0;
  bkLower : rank (batteryLowerW b) = 0;
  bkReleased : batteryReleased b = true -> batteryLowerW b = of_Z 0;
  bkKnown : ords <> [] -> batteryUpperKnown b = true;
  bkCovered : Forall (covered reps (batteryUpperW b)) ords;
  bkPast : Forall (fun o => snd o <= last) ords;
  bkRun : batteryLowerSince b <> 0 -> Forall (fun o => snd o <= batteryLowerSince b \/ le_rel (fst o) (batteryLowerW b)) ords
}.
Lemma covered_up reps u u' o : le_rel u u' -> covered reps u o -> covered reps u' o.
Proof.
  intros L [H|(r & I & S)]; [left; exact (le_rel_trans _ _ _ H L)|]. right. exists r. split; [exact I|]. unfold shownBelow in *.
  apply andb_prop in S as [S P]. rewrite S. cbn [andb]. apply fle_iff. apply fle_iff in P. exact (le_rel_trans _ _ _ P L).
Qed.
Lemma covered_more reps reps' u o : covered reps u o -> covered (reps ++ reps') u o.
Proof. intros [H|(r & I & S)]; [now left|]. right. exists r. split; [apply elem_of_app; now left|exact S]. Qed.
Lemma boundOk_later last last' ords reps reps' b : last <= last' -> boundOk last ords reps b -> boundOk last' ords (reps ++ reps') b.
Proof.
  intros L [A B R K C P U]. constructor; auto.
  - apply (Forall_impl _ _ _ C). intros o. apply covered_more.
  - apply (Forall_impl _ _ _ P). intros o Ho. exact (Z.le_trans _ _ _ Ho L).
Qed.
Lemma fmax_fin_above x y : rank x = 0 -> rank y = 0 -> rank (fmax x y) = 0 /\ le_rel x (fmax x y) /\ le_rel y (fmax x y).
Proof.
  intros X Y. destruct (fmax_spec x y ltac:(lia) ltac:(lia)) as [[-> L]|[-> L]]; (split; [assumption|]); split; auto; apply le_rel_refl; lia.
Qed.
Lemma zero_fin : rank (of_Z 0) = 0.
Proof. apply of_Z_rank. lia. Qed.

Lemma orderBound_none last now ords reps b : last <= now -> boundOk last ords reps b -> boundOk now ords reps (orderBound None now b).
Proof.
  intros L H. apply (boundOk_later last now _ _ [] _ L) in H. rewrite app_nil_r in H. destruct H as [A B R K C P U].
  constructor; auto. discriminate.
Qed.
Lemma orderBound_some last now w ords reps b : last <= now -> rank w = 0 -> boundOk last ords reps b ->
  boundOk now (ords ++ [(w, now)]) reps (orderBound (Some w) now b).
Proof.
  intros L W H. apply (boundOk_later last now _ _ [] _ L) in H. rewrite app_nil_r in H. destruct H as [A B R K C P U].
  assert (P' : Forall (fun o : f64 * Time => snd o <= now) (ords ++ [(w, now)])).
  { apply Forall_app. split; [exact P|]. apply Forall_singleton. apply Z.le_refl. }
  unfold orderBound. cbn [batteryUpperKnown batteryUpperW batteryLowerW batteryLowerSince].
  destruct (negb (batteryUpperKnown b) || fle (batteryUpperW b) w) eqn:E.
  - constructor; cbn [batteryUpperKnown batteryUpperW batteryLowerW batteryLowerSince batteryReleased]; auto; try discriminate.
    + apply Forall_app. split; [|apply Forall_singleton; left; apply le_rel_refl; lia].
      destruct (batteryUpperKnown b) eqn:Kn.
      * cbn [negb orb] in E. apply fle_iff in E. apply (Forall_impl _ _ _ C). intros o. now apply covered_up.
      * destruct ords as [|o ords]; [constructor|]. discriminate K. discriminate.
    + intros N. exfalso. now apply N.
  - apply orb_false_iff in E as [E1 E2]. apply negb_false_iff in E1.
    assert (Lw : le_rel w (batteryUpperW b)).
    { destruct (le_rel_total w (batteryUpperW b) ltac:(lia) ltac:(lia)) as [G|G]; [exact G|]. apply fle_iff in G. congruence. }
    assert (C' : Forall (covered reps (batteryUpperW b)) (ords ++ [(w, now)])).
    { apply Forall_app. split; [exact C|]. apply Forall_singleton. now left. }
    destruct (IsZero (batteryLowerSince b) || flt (batteryLowerW b) w) eqn:G;
      constructor; cbn [batteryUpperKnown batteryUpperW batteryLowerW batteryLowerSince batteryReleased]; auto; try discriminate.
    + intros _. apply (Forall_impl _ _ _ P'). intros o Ho. now left.
    + intros N. apply Forall_app. split; [exact (U N)|]. apply Forall_singleton. right. cbn [fst].
      apply orb_false_iff in G as [_ G]. apply flt_false; [exact G|lia|lia].
Qed.
Lemma releasedBound_ok last now ords reps b : last <= now -> boundOk last ords reps b -> boundOk now ords reps (releasedBound b now).
Proof.
  intros L H. apply (boundOk_later last now _ _ [] _ L) in H. rewrite app_nil_r in H. destruct H as [A B R K C P U].
  destruct (fmax_fin_above (of_Z 0) (batteryUpperW b) zero_fin A) as (F & _ & G).
  constructor; cbn [releasedBound batteryUpperKnown batteryUpperW batteryLowerW batteryLowerSince batteryReleased]; auto using zero_fin.
  - apply (Forall_impl _ _ _ C). intros o. now apply covered_up.
  - destruct (batteryReleased b) eqn:E; cbn [negb orb].
    + destruct (IsZero (batteryLowerSince b)); intros N.
      * apply (Forall_impl _ _ _ P). intros o Ho. now left.
      * rewrite <- (R eq_refl). exact (U N).
    + intros _. apply (Forall_impl _ _ _ P). intros o Ho. now left.
Qed.
Lemma observeBound_ok last now ords reps power o b : last <= now -> (forall w, power = Some w -> rank w = 0) ->
  (forall p, o = Some p -> rank (oPowerW p) = 0) -> boundOk last ords reps b ->
  boundOk now ords (reps ++ match o with Some p => [(p, now)] | None => [] end) (observeBound power o now b).
Proof.
  intros L Wp Wo H. apply (boundOk_later last now _ _ (match o with Some p => [(p, now)] | None => [] end) _ L) in H.
  unfold observeBound. destruct (batteryUpperKnown b && negb (IsZero (batteryLowerSince b))) eqn:E; [|exact H].
  apply andb_prop in E as [Kn Z0]. apply negb_true_iff in Z0. unfold IsZero in Z0. apply Z.eqb_neq in Z0.
  destruct o as [p|]; [|exact H]. destruct (provesLower b p now) eqn:V; [|exact H]. cbv zeta.
  destruct H as [A B R K C P U]. destruct (fmax_fin_above _ (oPowerW p) B (Wo p eq_refl)) as (F1 & G1 & H1).
  set (u1 := fmax (batteryLowerW b) (oPowerW p)) in *. clearbody u1.
  set (u := if batteryReleased b then _ else _).
  assert (X : rank u = 0 /\ le_rel u1 u).
  { unfold u. destruct (batteryReleased b); [destruct (fmax_fin_above _ _ zero_fin F1) as (X1 & _ & X2); now split|].
    destruct power as [w|]; [|split; [exact F1|apply le_rel_refl; lia]].
    destruct (fmax_fin_above _ _ (Wp w eq_refl) F1) as (X1 & _ & X2). now split. }
  clearbody u. destruct X as [Ru Lu]. destruct (flt u (batteryUpperW b)) eqn:Lo; [|now constructor].
  constructor; cbn [batteryUpperKnown batteryUpperW batteryLowerW batteryLowerSince batteryReleased]; auto.
  - apply (Forall_impl _ _ _ (U Z0)). intros q [T|T].
    + right. exists (p, now). split; [apply elem_of_app; right; now apply list_elem_of_singleton|]. unfold provesLower in V.
      apply andb_prop in V as [V V3]. apply andb_prop in V as [V1 V2]. unfold shownBelow. cbn [fst snd]. rewrite V3.
      assert (Fu : fle (oPowerW p) u = true) by (apply fle_iff; exact (le_rel_trans _ _ _ H1 Lu)). rewrite Fu.
      unfold Before, After, GoTime.Add in *. rewrite negb_true_iff, Z.ltb_ge in V1, V2.
      change (ResponseDelay "battery") with (15 * Second) in V1. rewrite !andb_true_iff, !Z.leb_le. repeat split; [|exact V2].
      exact (Z.le_trans _ _ _ (Zplus_le_compat_r _ _ _ T) V1).
    + left. exact (le_rel_trans _ _ _ T (le_rel_trans _ _ _ G1 Lu)).
  - destruct (fle u (batteryLowerW b)); [intros N; exfalso; now apply N|exact U].
Qed.

(** ** Lemmas: the battery's record *)
Definition boundAt (driver : string) (cs : gmap string CommandEvidence) : BatteryBound := ceBound (default noEvidence (cs !! key driver DerBattery)).
(** The bound holds, and a record under a battery's key is that battery's. *)
Definition evidenceOk (driver : string) (last : Time) (ords : list (f64 * Time)) (reps : list (ControlObservation * Time)) (cs : gmap string CommandEvidence) : Prop :=
  boundOk last ords reps (boundAt driver cs) /\
  match cs !! key driver DerBattery with
  | Some c => ceDriver c = driver /\ ceKind c = "battery"%string /\ (forall w, cePowerW c = Some w -> rank w = 0)
  | None => ords = []
  end.
Definition sameRecord (c c' : CommandEvidence) : Prop :=
  ceDriver c' = ceDriver c /\ ceKind c' = ceKind c /\ cePowerW c' = cePowerW c /\ ceBound c' = ceBound c.
Lemma evidenceOk_same driver last last' ords reps reps' cs cs' : last <= last' ->
  (cs !! key driver DerBattery = None -> cs' !! key driver DerBattery = None) ->
  (forall c, cs !! key driver DerBattery = Some c -> exists c', cs' !! key driver DerBattery = Some c' /\ sameRecord c c') ->
  evidenceOk driver last ords reps cs -> evidenceOk driver last' ords (reps ++ reps') cs'.
Proof.
  intros L N Y [B R]. unfold evidenceOk, boundAt in *. destruct (cs !! key driver DerBattery) as [c|] eqn:E.
  - destruct (Y c eq_refl) as (c' & -> & D & K & P & Bd). change (default noEvidence (Some c')) with c'.
    change (default noEvidence (Some c)) with c in B. rewrite D, K, P, Bd. split; [now apply (boundOk_later last)|exact R].
  - rewrite (N eq_refl). split; [now apply (boundOk_later last)|exact R].
Qed.
Lemma measure_same kind sent power data now c : sameRecord c (measure kind sent power data now c).
Proof.
  unfold measure. destruct (obj_fields data) as [fs|]; [|now repeat split]. destruct (field_err _); [now repeat split|]. cbv zeta.
  assert (Np : forall a o x, sameRecord c x -> sameRecord c (noPowerClock a o x)).
  { intros a o x X. unfold noPowerClock. destruct o as [o|]; [|exact X]. cbv zeta. destruct (_ || _); [exact X|]. destruct (_ && _); exact X. }
  destruct (bool_decide (kind = DerEV)).
  - match goal with |- context [noPowerClock ?a ?o ?x] => set (y := noPowerClock a o x); assert (Y : sameRecord c y) by (apply Np; now repeat split) end.
    clearbody y. destruct (ControlPowerObservation power data now) as [o|]; [|exact Y]. destruct (_ || _); [exact Y|].
    destruct (negb _); [exact Y|]. unfold newReading. cbv zeta. destruct (HasMeasuredPower _ now); exact Y.
  - destruct (ControlPowerObservation power data now) as [o|]; [|now repeat split]. destruct (_ || _); [now repeat split|].
    destruct (negb _); [now repeat split|]. unfold newReading. cbv zeta. destruct (HasMeasuredPower _ now); now repeat split.
Qed.

Lemma continues_fields old c : ceDriver (retune old c) = ceDriver c /\ ceKind (retune old c) = ceKind c /\
  cePowerW (retune old c) = cePowerW c /\ ceBound (retune old c) = ceBound c.
Proof.
  unfold retune. destruct (continues old c); [|auto].
  destruct (cePowerW old) as [o|], (cePowerW c) as [w|] eqn:E; cbv zeta; try (destruct (_ && _ && _)); destruct (negb (materialStep _ _)); cbn; auto.
Qed.
Lemma requestOf_finite payload action w : requestOf payload = Some (action, Some w) -> rank w = 0.
Proof.
  unfold requestOf. destruct (obj_fields payload) as [fs|]; [|discriminate]. destruct (_ || _ || _); [discriminate|]. cbv zeta.
  destruct (_ && _); [discriminate|]. set (p := if bool_decide (_ = "ev_pause"%string) then _ else _). clearbody p.
  destruct (bool_decide (commandKind _ = ""%string)); [discriminate|]. destruct p as [x|]; [|discriminate]. cbn [fmap option_fmap option_map default from_option].
  change (default true (Some (finite x))) with (finite x). destruct (finite x) eqn:F; [|discriminate]. cbn [negb orb]. intros E. injection E as _ <-.
  now apply finite_iff.
Qed.
Lemma requestOf_kind payload action power : requestOf payload = Some (action, power) -> exists t, commandKind action = DerString t.
Proof.
  intros E. assert (N : commandKind action <> ""%string).
  { unfold requestOf in E. destruct (obj_fields payload) as [fs|]; [|discriminate E]. destruct (_ || _ || _); [discriminate E|]. cbv zeta in E.
    destruct (_ && _); [discriminate E|]. destruct (bool_decide (commandKind _ = ""%string)) eqn:K; [discriminate E|].
    destruct (negb _); [discriminate E|]. injection E as <- _. now apply bool_decide_eq_false in K. }
  unfold commandKind in *. destruct (bool_decide _); [now exists DerBattery|]. destruct (bool_decide _); [now exists DerEV|].
  destruct (bool_decide _); [now exists DerPV|]. destruct (bool_decide _); [now exists DerV2X|]. congruence.
Qed.
(** The record [BeginCommand] stores under its key. *)
Lemma BeginCommand_at s obs driver payload now cs action power : requestOf payload = Some (action, power) ->
  exists c, fst (BeginCommand s obs driver payload now cs) = <[(driver +:+ ":" +:+ commandKind action)%string := c]> cs /\
    ceDriver c = driver /\ ceKind c = commandKind action /\ cePowerW c = power /\
    ceBound c = (if bool_decide (commandKind action = "battery"%string)
                 then orderBound power now (ceBound (default noEvidence (cs !! (driver +:+ ":" +:+ commandKind action)%string))) else noBound).
Proof.
  intros E. unfold BeginCommand. rewrite E. cbv zeta. set (k := (driver +:+ _)%string). set (b := if bool_decide _ then _ else _).
  eexists. split; [reflexivity|]. set (c0 := mkEvidence _ _ _ _ _ _ _ _ _ _ _ _ _ _ _ _ _ _ _).
  set (c1 := match cs !! k with Some old => _ | None => c0 end).
  assert (H : ceDriver c1 = driver /\ ceKind c1 = commandKind action /\ cePowerW c1 = power /\ ceBound c1 = b).
  { unfold c1. destruct (cs !! k) as [old|]; [|now repeat split].
    destruct (continues_fields old (if bool_decide (ceResult old = "released"%string) then c0 else withMeasuredAt (ceLastMeasuredAt old) c0))
      as (-> & -> & -> & ->).
    destruct (bool_decide (ceResult old = "released"%string)); exact (conj eq_refl (conj eq_refl (conj eq_refl eq_refl))). }
  clearbody c1. destruct H as (H1 & H2 & H3 & H4). destruct (ceBaseline (addRecent now c1)); unfold addRecent; cbn; auto.
Qed.

Lemma noBound_ok last reps : boundOk last [] reps noBound.
Proof.
  constructor; [exact zero_fin|exact zero_fin|discriminate|intros N; now elim N|constructor|constructor|]. intros _. constructor.
Qed.
Section OneBattery.
Context (driver : string) (last : Time) (ords : list (f64 * Time)) (reps : list (ControlObservation * Time)).
Lemma sent_ok s obs d payload now cs : last <= now -> evidenceOk driver last ords reps cs ->
  evidenceOk driver now (ords ++ orderOf driver (Sent d payload now)) reps (fst (BeginCommand s obs d payload now cs)).
Proof.
  intros L H. assert (Same : evidenceOk driver now ords reps cs).
  { rewrite <- (app_nil_r reps). refine (evidenceOk_same _ _ _ _ _ _ _ _ L (fun N => N) _ H). intros c E. exists c. now repeat split. }
  cbn [orderOf]. destruct (requestOf payload) as [[action power]|] eqn:E.
  2:{ unfold BeginCommand. rewrite E. destruct (bool_decide _); now rewrite app_nil_r. }
  destruct (BeginCommand_at s obs d payload now cs action power E) as (c & -> & D & K & P & B).
  destruct (requestOf_kind _ _ _ E) as [t Kt]. rewrite Kt in *. fold (key d t) in *.
  destruct (decide (d = driver /\ t = DerBattery)) as [[-> ->]|N].
  - rewrite bool_decide_true in B by reflexivity. rewrite !bool_decide_true by reflexivity.
    destruct H as [H _]. unfold evidenceOk, boundAt in *. rewrite lookup_insert_eq. change (default noEvidence (Some c)) with c. rewrite B.
    assert (F : forall w, power = Some w -> rank w = 0) by (intros w ->; exact (requestOf_finite _ _ _ E)).
    destruct power as [w|]; (split; [|rewrite P; exact (conj D (conj K F))]).
    + now apply (orderBound_some last); [|apply F|].
    + rewrite app_nil_r. now apply (orderBound_none last).
  - assert (Nk : key d t <> key driver DerBattery) by (intros X; apply key_inj in X; auto).
    match goal with |- evidenceOk _ _ (ords ++ ?o) _ _ => assert (O : o = []) end.
    { destruct (bool_decide (d = driver)) eqn:X; [|reflexivity]. destruct power; [|reflexivity]. apply bool_decide_eq_true in X.
      rewrite bool_decide_false; [reflexivity|]. intros Y. apply N. split; [exact X|]. now destruct t. }
    rewrite O, app_nil_r. unfold evidenceOk, boundAt in *. rewrite (lookup_insert_ne cs (key d t) (key driver DerBattery) c Nk). exact Same.
Qed.
Lemma complete_ok token result cs : evidenceOk driver last ords reps cs -> evidenceOk driver last ords reps (CompleteCommand token result cs).
Proof.
  intros H. unfold CompleteCommand. destruct (bool_decide _); [exact H|]. set (k := (ceDriver token +:+ _)%string).
  clearbody k. destruct (cs !! k) as [latest|] eqn:E; [|exact H]. destruct (Equal _ _); [|exact H]. rewrite <- (app_nil_r reps).
  refine (evidenceOk_same _ _ _ _ _ _ _ _ (Z.le_refl _) _ _ H).
  - intros X. rewrite lookup_insert_ne; [exact X|]. intros ->. congruence.
  - intros c Y. destruct (decide (k = key driver DerBattery)) as [->|N].
    + rewrite E in Y. injection Y as <-. exists (withResult result latest). rewrite lookup_insert_eq. now repeat split.
    + exists c. rewrite lookup_insert_ne by exact N. now repeat split.
Qed.
(** A battery's record whose bound is released. *)
Lemma released_ok now cs cs' c c' : last <= now -> cs !! key driver DerBattery = Some c -> cs' !! key driver DerBattery = Some c' ->
  ceDriver c' = driver -> ceKind c' = "battery"%string -> (cePowerW c' = None \/ cePowerW c' = cePowerW c) ->
  ceBound c' = releasedBound (ceBound c) now -> evidenceOk driver last ords reps cs -> evidenceOk driver now ords reps cs'.
Proof.
  intros L E E' D K P B [H R]. unfold evidenceOk, boundAt in *. rewrite E in *. rewrite E'. destruct R as (_ & _ & R).
  change (default noEvidence (Some c')) with c'. change (default noEvidence (Some c)) with c in H. rewrite B.
  split; [now apply (releasedBound_ok last)|]. repeat split; auto. destruct P as [-> | ->]; [discriminate|exact R].
Qed.
Lemma end_ok d failed now cs : last <= now -> evidenceOk driver last ords reps cs ->
  evidenceOk driver now ords reps (endCommandControlAt d failed now cs).
Proof.
  intros L H. destruct (cs !! key driver DerBattery) as [c|] eqn:E.
  - pose proof (proj2 H) as R. rewrite E in R. destruct R as (D & K & P).
    assert (E' : endCommandControlAt d failed now cs !! key driver DerBattery = Some (if bool_decide (ceDriver c = d) then endOne failed now c else c))
      by (unfold endCommandControlAt; now rewrite lookup_fmap, E).
    destruct (bool_decide (ceDriver c = d)).
    + destruct (batteryUpperKnown (ceBound c)) eqn:Kn.
      * refine (released_ok now cs _ c _ L E E' _ _ _ _ H); unfold endOne; rewrite K, Kn; destruct failed; cbn; auto.
      * rewrite <- (app_nil_r reps). refine (evidenceOk_same _ _ _ _ _ _ _ _ L _ _ H); [congruence|]. intros c0 Ec. rewrite E in Ec. injection Ec as <-.
        eexists. split; [exact E'|]. unfold endOne. rewrite K, Kn. destruct failed; now repeat split.
    + rewrite <- (app_nil_r reps). refine (evidenceOk_same _ _ _ _ _ _ _ _ L _ _ H); [congruence|]. intros c0 Ec. rewrite E in Ec. injection Ec as <-.
      exists c. now repeat split.
  - rewrite <- (app_nil_r reps). refine (evidenceOk_same _ _ _ _ _ _ _ _ L _ _ H); [|congruence]. intros _.
    unfold endCommandControlAt. now rewrite lookup_fmap, E.
Qed.
Lemma clear_ok d now cs : last <= now -> evidenceOk driver last ords reps cs ->
  evidenceOk driver now ords reps (clearCommandEvidence d now cs).
Proof.
  intros L H. assert (X : clearCommandEvidence d now cs !! key driver DerBattery = (cs !! key driver DerBattery) ≫= fun c =>
      if bool_decide (ceDriver c = d) then
        if bool_decide (ceKind c = "battery"%string) && batteryUpperKnown (ceBound c) then Some (clearedEvidence d (ceBound c) now) else None
      else Some c) by (unfold clearCommandEvidence; apply map_lookup_imap).
  destruct (cs !! key driver DerBattery) as [c|] eqn:E; cbn [mbind option_bind] in X.
  - pose proof (proj2 H) as R. rewrite E in R. destruct R as (D & K & P). rewrite K in X.
    change (bool_decide ("battery"%string = "battery"%string)) with true in X. cbn [andb] in X.
    destruct (bool_decide (ceDriver c = d)) eqn:Ed.
    + apply bool_decide_eq_true in Ed. destruct (batteryUpperKnown (ceBound c)) eqn:Kn.
      * refine (released_ok now cs _ c _ L E X _ eq_refl (or_introl eq_refl) _ H); [exact (eq_trans (eq_sym Ed) D)|]. unfold releasedBound. cbn. now rewrite Kn.
      * assert (N : ords = []).
        { destruct ords as [|o rest] eqn:O; [reflexivity|]. pose proof (bkKnown _ _ _ _ (proj1 H)) as Kk. unfold boundAt in Kk. rewrite E in Kk.
          change (default noEvidence (Some c)) with c in Kk. rewrite Kk in Kn by discriminate. discriminate Kn. }
        unfold evidenceOk, boundAt. rewrite X, N. split; [|reflexivity]. apply noBound_ok.
    + rewrite <- (app_nil_r reps). refine (evidenceOk_same _ _ _ _ _ _ _ _ L _ _ H); [congruence|]. intros c0 Ec. rewrite E in Ec. injection Ec as <-.
      exists c. now repeat split.
  - rewrite <- (app_nil_r reps). refine (evidenceOk_same _ _ _ _ _ _ _ _ L _ _ H); [|congruence]. now intros _.
Qed.
Lemma windows_ok f cs : (forall c, sameRecord c (f c)) -> evidenceOk driver last ords reps cs -> evidenceOk driver last ords reps (f <$> cs).
Proof.
  intros F H. rewrite <- (app_nil_r reps). refine (evidenceOk_same _ _ _ _ _ _ _ _ (Z.le_refl _) _ _ H).
  - intros E. now rewrite lookup_fmap, E.
  - intros c E. exists (f c). split; [now rewrite lookup_fmap, E|apply F].
Qed.
Lemma read_ok d t rawW data now cs : last <= now -> evidenceOk driver last ords reps cs ->
  evidenceOk driver now ords
    (reps ++ (if bool_decide (d = driver /\ t = DerBattery)
              then match ControlPowerObservation rawW data now with Some p => [(p, now)] | None => [] end else []))
    (observeCommand d t rawW data now cs).
Proof.
  intros L H. unfold observeCommand. destruct (decide (d = driver /\ t = DerBattery)) as [[-> ->]|N].
  - rewrite bool_decide_true by auto. set (o := ControlPowerObservation rawW data now).
    destruct (cs !! key driver DerBattery) as [c|] eqn:E.
    + destruct H as [H R]. unfold evidenceOk, boundAt in *. rewrite lookup_alter_eq, E in *. cbn [fmap option_fmap option_map].
      destruct R as (D & K & P). set (c0 := withBound (observeBound (cePowerW c) o now (ceBound c)) c).
      assert (S : sameRecord c0 (observeEvidence DerBattery rawW data now c)).
      { unfold observeEvidence. rewrite bool_decide_true by reflexivity. fold o. fold c0. change (cePowerW c0) with (cePowerW c).
        destruct (cePowerW c); [|now repeat split]. destruct (_ || _); [now repeat split|apply measure_same]. }
      destruct S as (S1 & S2 & S3 & S4). change (default noEvidence (Some ?x)) with x. rewrite S1, S2, S3, S4.
      split; [|now repeat split]. change (default noEvidence (Some c)) with c in H. apply (observeBound_ok last); auto.
      intros p Ep. apply finite_iff. unfold o in Ep. exact (proj1 (observation_sound _ _ _ _ Ep)).
    + unfold evidenceOk, boundAt in *. rewrite lookup_alter_eq, E in *. destruct H as [H R]. split; [|exact R]. now apply (boundOk_later last).
  - rewrite bool_decide_false by exact N. refine (evidenceOk_same _ _ _ _ _ _ _ _ L _ _ H).
    + intros E. rewrite lookup_alter_ne; [exact E|]. intros X. apply key_inj in X. auto.
    + intros c E. exists c. split; [|now repeat split]. rewrite lookup_alter_ne; [exact E|]. intros X. apply key_inj in X. auto.
Qed.
End OneBattery.

Lemma evidenceStep_ok driver last ords reps o s obs cs : match opTime o with Some now => last <= now | None => True end ->
  evidenceOk driver last ords reps cs ->
  evidenceOk driver (default last (opTime o)) (ords ++ orderOf driver o) (reps ++ reportOf driver o) (snd (evidenceStep (s, obs, cs) o)).
Proof.
  intros L H. destruct o as [d payload now|token result|d failed now|d now|d now|now d t rawW soc data];
    cbn [evidenceStep snd opTime default from_option] in *; try change (default last (Some now)) with now; try change (default last None) with last.
  - cbn [reportOf]. rewrite (app_nil_r reps). exact (sent_ok driver last ords reps s obs d payload now cs L H).
  - cbn [reportOf orderOf]. rewrite !app_nil_r. now apply complete_ok.
  - cbn [reportOf orderOf]. rewrite !app_nil_r. now apply (end_ok driver last).
  - cbn [reportOf orderOf]. rewrite !app_nil_r. now apply (clear_ok driver last).
  - cbn [reportOf orderOf]. rewrite !app_nil_r. apply (clear_ok driver last); [exact L|]. apply windows_ok; [now repeat split|exact H].
  - cbn [orderOf]. rewrite app_nil_r. unfold UpdateAll. destruct (ValidateReading t rawW soc) eqn:V.
    + refine (evidenceOk_same _ _ _ _ _ _ _ _ L (fun N => N) _ H). intros c E. exists c. now repeat split.
    + cbn [snd]. apply windows_ok.
      { intros c. destruct (StepAfter c); [now repeat split|]. destruct (_ || _); now repeat split. }
      pose proof (read_ok driver last ords reps d t rawW data now cs L H) as R.
      assert (E : reportOf driver (Read now d t rawW soc data) =
                  if bool_decide (d = driver /\ t = DerBattery)
                  then match ControlPowerObservation rawW data now with Some p => [(p, now)] | None => [] end else []).
      { destruct (decide (t = DerBattery)) as [->|N].
        - cbn [reportOf]. rewrite V. destruct (decide (d = driver)) as [->|Nd]; [now rewrite !bool_decide_true by auto|].
          rewrite !bool_decide_false by tauto. reflexivity.
        - rewrite bool_decide_false by tauto. now destruct t. }
      rewrite E. exact R.
Qed.
Lemma evidenceRun_ok driver ops : forall last ords reps x, ordered last ops = true -> evidenceOk driver last ords reps (snd x) ->
  exists last', evidenceOk driver last' (ords ++ orders driver ops) (reps ++ reports driver ops) (snd (evidenceRun ops x)).
Proof.
  induction ops as [|o ops IH]; intros last ords reps x O H; [exists last; unfold orders, reports; cbn [map concat]; now rewrite !app_nil_r|].
  destruct x as [[s obs] cs]. cbn [ordered] in O.
  pose proof (evidenceStep_ok driver last ords reps o s obs cs) as S. change (snd (s, obs, cs)) with cs in H.
  change (evidenceRun (o :: ops) (s, obs, cs)) with (evidenceRun ops (evidenceStep (s, obs, cs) o)).
  assert (A : orders driver (o :: ops) = orderOf driver o ++ orders driver ops) by reflexivity.
  assert (B : reports driver (o :: ops) = reportOf driver o ++ reports driver ops) by reflexivity.
  rewrite A, B, !app_assoc. destruct (opTime o) as [now|].
  - apply andb_prop in O as [O1 O2]. apply Z.leb_le in O1. exact (IH now _ _ _ O2 (S O1 H)).
  - exact (IH last _ _ _ O (S I H)).
Qed.

(** C5: Whatever was sent, completed, released, reset and read since the start,
    [BatteryCommandUpperW] knows a bound once a battery was ordered anything,
    and each ordered power is still within it, unless a fresh raw reading from
    at least 15 seconds after that order showed a power within it: no order
    that may still reach the hardware is forgotten. *)
Theorem outstanding_order_bound driver start ops s obs w t : ordered start ops = true -> (w, t) ∈ orders driver ops ->
  let '(upper, known) := BatteryCommandUpperW driver [] (snd (evidenceRun ops (s, obs, ∅))) in
  known = true /\ (fle w upper = true \/ exists r, r ∈ reports driver ops /\ shownBelow t upper r = true).
Proof.
  intros O I. assert (H0 : evidenceOk driver start [] [] ∅).
  { unfold evidenceOk, boundAt. rewrite lookup_empty. split; [apply noBound_ok|reflexivity]. }
  destruct (evidenceRun_ok driver ops start [] [] (s, obs, ∅) O H0) as (last & H & _). cbn [app] in H.
  unfold BatteryCommandUpperW. cbn [fold_left]. change (driver +:+ ":battery")%string with (key driver DerBattery).
  fold (boundAt driver (snd (evidenceRun ops (s, obs, ∅)))). split.
  - apply (bkKnown _ _ _ _ H). intros E. rewrite E in I. now apply not_elem_of_nil in I.
  - pose proof (proj1 (Forall_forall _ _) (bkCovered _ _ _ _ H) _ I) as [L|R]; [left; now apply fle_iff|now right].
Qed.

(** Three kilowatts, then one, then a reading of 900 W twenty seconds later. *)
Definition batteryOrder (watts : Z) : RawMessage :=
  RawJson (JObject [("action"%string, JString "battery"); ("power_w"%string, JNum (of_Z watts) (Some watts))]).
Definition lowered_order : list evidenceOp :=
  [Sent "b" (batteryOrder 3000) (1 * Second); Sent "b" (batteryOrder 1000) (2 * Second);
   Read (20 * Second) "b" DerBattery (of_Z 900) None RawEmpty].
Lemma outstanding_order_bound_witness :
  let '(upper, known) := BatteryCommandUpperW "b" [] (snd (evidenceRun lowered_order (NewStore zeroTime, ∅, ∅))) in
  known = true /\ (fle (of_Z 3000) upper = true \/ exists r, r ∈ reports "b" lowered_order /\ shownBelow (1 * Second) upper r = true).
Proof.
  apply (outstanding_order_bound "b" 0 lowered_order (NewStore zeroTime) ∅ (of_Z 3000) (1 * Second)); [reflexivity|].
  apply (list_elem_of_lookup_2 _ 0%nat). vm_compute. reflexivity.
Defined.
(** The reading lowers the bound to the order in force; 16 seconds after the
    first order it would not have. *)
Example bound_lowered :
  feq (fst (BatteryCommandUpperW "b" [] (snd (evidenceRun lowered_order (NewStore zeroTime, ∅, ∅))))) (of_Z 1000) = true.
Proof. vm_compute. reflexivity. Qed.
Example bound_kept :
  feq (fst (BatteryCommandUpperW "b" [] (snd (evidenceRun
    (firstn 2 lowered_order ++ [Read (16 * Second) "b" DerBattery (of_Z 900) None RawEmpty]) (NewStore zeroTime, ∅, ∅))))) (of_Z 3000) = true.
Proof. vm_compute. reflexivity. Qed.
