(* ===== verification/Limits.v ===== *)
(** * Battery limits and the per-target floors (go/internal/control/dispatch.go)

    [PowerLimits], [DispatchTarget] and [batteryInfo], the clamps every
    command passes and the floors the safety pipeline applies. A slice that the
    code changes in place and returns is a list here; each caller goes on with
    the returned one. Sums and lists built over a Go map take their order from
    [MapIter]: any order the map may give. *)
From S2P Require Import Prelude Float64 GoTime Json Kalman Health Telemetry.
From Stdlib Require Import ZArith Lia.
From stdpp Require Import base gmap strings list.
#[local] Open Scope Z_scope.

(** The order a [range] over a map visits its entries. *)
Class MapIter : Type := {
  map_iter : forall {A : Type}, gmap string A -> list (string * A);
  map_iter_perm : forall (A : Type) (m : gmap string A), map_iter m ≡ₚ map_to_list m
}.
Definition canonical_iter : MapIter :=
  {| map_iter := fun A m => map_to_list m; map_iter_perm := fun A m => Permutation_refl _ |}.

Definition keys `{MapIter} {A} (m : gmap string A) : list string := fst <$> map_iter m.

Definition sumF (l : list f64) : f64 := fold_left fadd l (of_Z 0).

(** ** PowerLimits *)
Record PowerLimits : Type := mkLimits {
  MaxChargeW : f64;
  MaxDischargeW : f64;
  MaxChargeWSet : bool;
  MaxDischargeWSet : bool;
  SoCMax : f64;
  SoCMaxSet : bool;
  SoCMin : f64
}.

(** The zero value of the struct: every field unset. *)
Definition noLimits : PowerLimits :=
  mkLimits (of_Z 0) (of_Z 0) false false (of_Z 0) false (of_Z 0).

Definition MaxCommandW : f64 := of_Z 5000.
Definition dischargeFloorSoC : f64 := lit 5 100.

Definition socFloor (l : PowerLimits) : f64 :=
  if flt dischargeFloorSoC (SoCMin l) && fle (SoCMin l) (of_Z 1) then SoCMin l
  else dischargeFloorSoC.

Definition socCeiling (l : PowerLimits) : f64 :=
  if (SoCMaxSet l || flt (of_Z 0) (SoCMax l)) && fle (of_Z 0) (SoCMax l) && fle (SoCMax l) (of_Z 1)
  then SoCMax l else of_Z 1.

Definition effectivePowerLimit (value : f64) (set : bool) : f64 :=
  if set && fle (of_Z 0) value then value
  else if flt (of_Z 0) value then value
  else MaxCommandW.

Definition chargeCap (l : PowerLimits) : f64 := effectivePowerLimit (MaxChargeW l) (MaxChargeWSet l).
Definition dischargeCap (l : PowerLimits) : f64 :=
  effectivePowerLimit (MaxDischargeW l) (MaxDischargeWSet l).

(** [limits[driver]]: a missing entry is the zero value. *)
Definition limitsOf (limits : gmap string PowerLimits) (driver : string) : PowerLimits :=
  default noLimits (limits !! driver).

(** ** DispatchTarget *)
Record DispatchTarget : Type := mkTarget { tDriver : string; TargetW : f64; Clamped : bool }.

Definition setW (w : f64) (t : DispatchTarget) : DispatchTarget := mkTarget (tDriver t) w true.

Definition sumTargets (ts : list DispatchTarget) : f64 := sumF (TargetW <$> ts).

(** ** batteryInfo *)
Record batteryInfo : Type := mkBattery {
  bDriver : string;
  capacityWh : f64;
  currentW : f64;
  soc : f64;
  online : bool;
  group : string;
  maxChargeW : f64;
  maxDischargeW : f64;
  maxChargeWSet : bool;
  maxDischargeWSet : bool;
  dischargeBlocked : bool;
  chargeBlocked : bool;
  socMissing : bool;
  belowOwnerFloor : bool
}.

Definition bChargeCap (b : batteryInfo) : f64 := effectivePowerLimit (maxChargeW b) (maxChargeWSet b).
Definition bDischargeCap (b : batteryInfo) : f64 :=
  effectivePowerLimit (maxDischargeW b) (maxDischargeWSet b).

(** [(dischargeBlocked, chargeBlocked)] from a driver's capability flags. *)
Definition batteryDirectionBlocks (data : RawMessage) : bool * bool :=
  match data with
  | RawEmpty => (false, false)
  | _ =>
      match obj_fields data with
      | None => (false, false)
      | Some fields =>
          let d := bool_field "discharge_capable" fields in
          let c := bool_field "charge_capable" fields in
          if field_err d || field_err c then (false, false)
          else (negb (default true (field_opt d)), negb (default true (field_opt c)))
      end
  end.

(** ** Clamps *)
Definition clampWithSoC (target : f64) (b : batteryInfo) : f64 * bool :=
  let '(clamped, was) :=
    if fle (soc b) dischargeFloorSoC && flt target (of_Z 0) then (of_Z 0, true)
    else (target, false) in
  if flt (bChargeCap b) clamped then (bChargeCap b, true)
  else if flt clamped (fneg (bDischargeCap b)) then (fneg (bDischargeCap b), true)
  else (clamped, was).

Definition clampTarget (limits : gmap string PowerLimits) (t : DispatchTarget) : DispatchTarget :=
  let lim := limitsOf limits (tDriver t) in
  if flt (chargeCap lim) (TargetW t) then setW (chargeCap lim) t
  else if flt (TargetW t) (fneg (dischargeCap lim)) then setW (fneg (dischargeCap lim)) t
  else t.

Definition clampTargetsToPowerLimits (targets : list DispatchTarget)
    (limits : gmap string PowerLimits) : list DispatchTarget :=
  clampTarget limits <$> targets.

(** ** Floors *)
Definition floorNegativeTargets (targets : list DispatchTarget) : list DispatchTarget :=
  (fun t => if flt (TargetW t) (of_Z 0) then setW (of_Z 0) t else t) <$> targets.

Definition floorBlockedCharge (targets : list DispatchTarget) (noSelfCharge : bool)
    (blocked : gset string) : list DispatchTarget :=
  if negb noSelfCharge && bool_decide (size blocked = 0%nat) then targets
  else
    (fun t => if fle (TargetW t) (of_Z 0) then t
              else if noSelfCharge || bool_decide (tDriver t ∈ blocked) then setW (of_Z 0) t
              else t) <$> targets.

Definition floorBelowOwnerFloorDischarge (targets : list DispatchTarget) (blocked : gset string)
  : list DispatchTarget :=
  if bool_decide (size blocked = 0%nat) then targets
  else
    (fun t => if flt (TargetW t) (of_Z 0) && bool_decide (tDriver t ∈ blocked) then setW (of_Z 0) t
              else t) <$> targets.

(** ** Fleet predicates *)
Definition chargeBlockedDrivers (bats : list batteryInfo) : gset string :=
  list_to_set (bDriver <$> filter (fun b => chargeBlocked b = true) bats).
Definition belowOwnerFloorDrivers (bats : list batteryInfo) : gset string :=
  list_to_set (bDriver <$> filter (fun b => belowOwnerFloor b = true) bats).

Definition floorStandbyW : f64 := of_Z 50.

(** A command map read with Go's zero value for a missing key. *)
Definition atZero (m : gmap string f64) (k : string) : f64 := default (of_Z 0) (m !! k).

Definition dischargingAtFloor (b : batteryInfo) (prev : gmap string f64) : bool :=
  flt (currentW b) (fneg floorStandbyW) ||
  (flt (currentW b) (of_Z (-1)) && flt (atZero prev (bDriver b)) (of_Z 0)).

Definition anyBelowOwnerFloorDischarging (bats : list batteryInfo) (prev : gmap string f64) : bool :=
  existsb (fun b => belowOwnerFloor b && dischargingAtFloor b prev) bats.

Definition anyAtHardFloorDischarging (bats : list batteryInfo) (prev : gmap string f64) : bool :=
  existsb (fun b => negb (socMissing b) && fle (soc b) dischargeFloorSoC &&
                    dischargingAtFloor b prev) bats.

Definition anyBatteryDischarging (bats : list batteryInfo) : bool :=
  existsb (fun b => flt (currentW b) (of_Z (-1))) bats.

Definition anyExplicitZeroDischargeViolation (bats : list batteryInfo) : bool :=
  existsb (fun b => maxDischargeWSet b && feq (maxDischargeW b) (of_Z 0) &&
                    flt (currentW b) (of_Z (-1))) bats.

Definition anyBlockedBatteryCharging (bats : list batteryInfo) (noSelfCharge : bool) : bool :=
  existsb (fun b => negb (fle (currentW b) (of_Z 1)) && (noSelfCharge || chargeBlocked b)) bats.

(** ** Whole-fleet commands *)

(** A driver core may command: known, not offline, not faulted. *)
Definition usable (store : Store) (name : string) : bool :=
  match GetHealth name store with Some h => IsOnline h | None => false end.

Definition chargeAll `{MapIter} (store : Store) (capacities : gmap string f64)
    (limits : gmap string PowerLimits) : list DispatchTarget :=
  omap (fun name =>
          if usable store name then Some (mkTarget name (chargeCap (limitsOf limits name)) false)
          else None) (keys capacities).

Definition holdFleetAtZero `{MapIter} (store : Store) (capacities : gmap string f64)
  : list DispatchTarget :=
  omap (fun name =>
          if usable store name then
            match Get name DerBattery store with
            | Some _ => Some (mkTarget name (of_Z 0) false)
            | None => None
            end
          else None) (keys capacities).

Definition holdTarget (prev : gmap string f64) (t : DispatchTarget) : DispatchTarget :=
  let p := atZero prev (tDriver t) in
  let w := fmax (fmin (TargetW t) (fmax p (of_Z 0))) (fmin p (of_Z 0)) in
  if fne w (TargetW t) then setW w t else t.

Definition holdTowardZero (targets : list DispatchTarget) (prev : gmap string f64)
  : list DispatchTarget := holdTarget prev <$> targets.

(** ** Specification *)

(** A command inside the limits of its driver. *)
Definition withinLimits (limits : gmap string PowerLimits) (t : DispatchTarget) : Prop :=
  le_rel (fneg (dischargeCap (limitsOf limits (tDriver t)))) (TargetW t) /\
  le_rel (TargetW t) (chargeCap (limitsOf limits (tDriver t))).

(** A command that another one replaces for the same driver, without asking
    for more power in either direction. *)
Definition noStronger (t t' : DispatchTarget) : Prop :=
  tDriver t' = tDriver t /\
  (le_rel (of_Z 0) (TargetW t) -> le_rel (of_Z 0) (TargetW t') /\ le_rel (TargetW t') (TargetW t)) /\
  (le_rel (TargetW t) (of_Z 0) -> le_rel (TargetW t') (of_Z 0) /\ le_rel (TargetW t) (TargetW t')).

Definition targets_nn (ts : list DispatchTarget) : Prop := Forall (fun t => rank (TargetW t) <> 2) ts.

(** ** Lemmas *)
Lemma effectivePowerLimit_nn v set : le_rel (of_Z 0) (effectivePowerLimit v set).
Proof.
  unfold effectivePowerLimit. destruct (set && fle (of_Z 0) v) eqn:E.
  - bool_hyps. now apply fle_iff.
  - destruct (flt (of_Z 0) v) eqn:E'; [|apply of_Z_mono; lia].
    clear E. f64_lia.
Qed.

Lemma effectivePowerLimit_zero set v :
  set = true -> v = of_Z 0 -> effectivePowerLimit v set = of_Z 0.
Proof. intros -> ->. reflexivity. Qed.

Lemma chargeCap_nn l : le_rel (of_Z 0) (chargeCap l).
Proof. apply effectivePowerLimit_nn. Qed.
Lemma dischargeCap_nn l : le_rel (of_Z 0) (dischargeCap l).
Proof. apply effectivePowerLimit_nn. Qed.



Lemma cap_order c d : le_rel (of_Z 0) c -> le_rel (of_Z 0) d -> le_rel (fneg d) c.
Proof.
  intros. assert (rank c <> 2) by (eapply le_rel_nn_r; eassumption).
  assert (rank d <> 2) by (eapply le_rel_nn_r; eassumption).
  pose proof (rank_ok_all c). pose proof (rank_ok_all d). f64_lia.
Qed.

Lemma neg_cap_nonpos d : le_rel (of_Z 0) d -> le_rel (fneg d) (of_Z 0).
Proof.
  intros. assert (rank d <> 2) by (eapply le_rel_nn_r; eassumption). f64_lia.
Qed.

(** The two-sided clamp every command passes. *)
Definition clampBetween (lo hi w : f64) : f64 := if flt hi w then hi else if flt w lo then lo else w.

Lemma clampBetween_within lo hi w :
  rank w <> 2 -> le_rel lo hi -> le_rel lo (clampBetween lo hi w) /\ le_rel (clampBetween lo hi w) hi.
Proof.
  intros Hw Hlh. unfold clampBetween.
  assert (Hl : rank lo <> 2) by (eapply le_rel_nn_l; eassumption).
  assert (Hh : rank hi <> 2) by (eapply le_rel_nn_r; eassumption).
  destruct (flt hi w) eqn:E1; [split; [exact Hlh|now apply le_rel_refl]|].
  destruct (flt w lo) eqn:E2; [split; [now apply le_rel_refl|exact Hlh]|].
  split; apply flt_false; assumption.
Qed.

Lemma clampBetween_id lo hi w : le_rel lo w -> le_rel w hi -> clampBetween lo hi w = w.
Proof.
  intros H1 H2. unfold clampBetween.
  assert (E1 : flt hi w = false). { apply le_flt_false; assumption. }
  assert (E2 : flt w lo = false). { apply le_flt_false; assumption. }
  now rewrite E1, E2.
Qed.

Lemma clampBetween_nn lo hi w :
  rank lo <> 2 -> rank hi <> 2 -> rank w <> 2 -> rank (clampBetween lo hi w) <> 2.
Proof. intros. unfold clampBetween. repeat case_match; assumption. Qed.

Lemma clampTarget_W limits t :
  TargetW (clampTarget limits t) =
  clampBetween (fneg (dischargeCap (limitsOf limits (tDriver t)))) (chargeCap (limitsOf limits (tDriver t)))
    (TargetW t).
Proof. unfold clampTarget, clampBetween, setW. repeat case_match; reflexivity. Qed.

Lemma clampTarget_driver limits t : tDriver (clampTarget limits t) = tDriver t.
Proof. unfold clampTarget, setW. repeat case_match; reflexivity. Qed.

Lemma clampWithSoC_W target b :
  fst (clampWithSoC target b) =
  clampBetween (fneg (bDischargeCap b)) (bChargeCap b)
    (if fle (soc b) dischargeFloorSoC && flt target (of_Z 0) then of_Z 0 else target).
Proof.
  unfold clampWithSoC, clampBetween. destruct (fle (soc b) dischargeFloorSoC && _);
    destruct (flt (bChargeCap b) _); [reflexivity| |reflexivity|];
    destruct (flt _ (fneg (bDischargeCap b))); reflexivity.
Qed.

(** The clamp keeps the sign of what it is asked for. *)
Lemma clampBetween_sign lo hi w :
  le_rel lo (of_Z 0) -> le_rel (of_Z 0) hi ->
  (le_rel (of_Z 0) w -> le_rel (of_Z 0) (clampBetween lo hi w) /\ le_rel (clampBetween lo hi w) w) /\
  (le_rel w (of_Z 0) -> le_rel (clampBetween lo hi w) (of_Z 0) /\ le_rel w (clampBetween lo hi w)).
Proof.
  intros Hl Hh. unfold clampBetween.
  split; intros Hw; destruct (flt hi w) eqn:E1.
  - split; [exact Hh|now apply flt_le].
  - assert (E2 : flt w lo = false).
    { apply le_flt_false. eapply le_rel_trans; eassumption. }
    rewrite E2. split; [exact Hw|apply le_rel_refl; eapply le_rel_nn_r; exact Hw].
  - exfalso. apply (flt_le_contra _ _ E1). eapply le_rel_trans; eassumption.
  - destruct (flt w lo) eqn:E2; [split; [exact Hl|now apply flt_le]|].
    split; [exact Hw|apply le_rel_refl; eapply le_rel_nn_l; exact Hw].
Qed.

Lemma clampWithSoC_facts target b :
  rank target <> 2 ->
  let w := fst (clampWithSoC target b) in
  le_rel (fneg (bDischargeCap b)) w /\ le_rel w (bChargeCap b) /\
  (fle (soc b) dischargeFloorSoC = true -> le_rel (of_Z 0) w) /\
  (le_rel (of_Z 0) target -> le_rel (of_Z 0) w /\ le_rel w target) /\
  (le_rel target (of_Z 0) -> le_rel w (of_Z 0) /\ le_rel target w).
Proof.
  intros Hn w. unfold w. clear w. rewrite clampWithSoC_W.
  pose proof (effectivePowerLimit_nn (maxChargeW b) (maxChargeWSet b)) as HC.
  pose proof (effectivePowerLimit_nn (maxDischargeW b) (maxDischargeWSet b)) as HD.
  fold (bChargeCap b) in HC. fold (bDischargeCap b) in HD.
  pose proof (cap_order _ _ HC HD) as Hord. pose proof (neg_cap_nonpos _ HD) as Hneg.
  assert (H00 : le_rel (of_Z 0) (of_Z 0)) by (apply of_Z_mono; lia).
  set (start := if fle (soc b) dischargeFloorSoC && flt target (of_Z 0) then of_Z 0 else target).
  assert (Hs : rank start <> 2). { unfold start. case_match; [apply of_Z_nn; lia|exact Hn]. }
  destruct (clampBetween_within _ _ start Hs Hord) as [W1 W2].
  destruct (clampBetween_sign _ _ start Hneg HC) as [SP SN].
  split_and!; [exact W1|exact W2| | |].
  - intros Hempty. apply SP. unfold start. rewrite Hempty. cbn [andb].
    destruct (flt target (of_Z 0)) eqn:E; [exact H00|].
    apply flt_false in E; [exact E|exact Hn|apply of_Z_nn; lia].
  - intros Ht. assert (Es : start = target).
    { unfold start. replace (flt target (of_Z 0)) with false; [now rewrite andb_false_r|].
      symmetry. apply le_flt_false; assumption. }
    rewrite Es in *. exact (SP Ht).
  - intros Ht. assert (Hst : le_rel start (of_Z 0) /\ le_rel target start).
    { unfold start. case_match; split; auto using le_rel_refl. }
    destruct Hst as [S1 S2]. destruct (SN S1) as [A B]. split; [exact A|].
    eapply le_rel_trans; eassumption.
Qed.

Lemma noStronger_refl t : rank (TargetW t) <> 2 -> noStronger t t.
Proof. intros H. split_and!; [reflexivity|intros..]; split; auto using le_rel_refl. Qed.

Lemma noStronger_zero t t' :
  tDriver t' = tDriver t -> TargetW t' = of_Z 0 -> noStronger t t'.
Proof.
  intros Hd Hw. split_and!; [exact Hd|intros H..]; rewrite Hw; split; auto;
    apply of_Z_mono; lia.
Qed.

Lemma noStronger_nn t t' : noStronger t t' -> rank (TargetW t) <> 2 -> rank (TargetW t') <> 2.
Proof.
  intros (_ & Hp & Hn) H. destruct (le_rel_total (of_Z 0) (TargetW t)) as [L|L].
  - apply of_Z_nn; lia.
  - exact H.
  - destruct (Hp L) as [A _]. eapply le_rel_nn_r; exact A.
  - destruct (Hn L) as [A _]. eapply le_rel_nn_l; exact A.
Qed.

Lemma noStronger_trans a b c :
  noStronger a b -> noStronger b c -> noStronger a c.
Proof.
  intros (D1 & P1 & N1) (D2 & P2 & N2). split_and!; [congruence|intros L..].
  - destruct (P1 L) as [A B]. destruct (P2 A) as [C D]. eauto using le_rel_trans.
  - destruct (N1 L) as [A B]. destruct (N2 A) as [C D]. eauto using le_rel_trans.
Qed.

(** A pass over the targets that keeps or zeroes each one. *)
Lemma map_floor_noStronger (f : DispatchTarget -> DispatchTarget) ts :
  (forall t, f t = t \/ f t = setW (of_Z 0) t) -> targets_nn ts -> Forall2 noStronger ts (f <$> ts).
Proof.
  intros Hf H. induction H as [|t ts Ht _ IH]; [constructor|].
  constructor; [|exact IH]. destruct (Hf t) as [->| ->].
  - apply noStronger_refl, Ht.
  - apply noStronger_zero; reflexivity.
Qed.

Lemma Forall2_noStronger_refl ts : targets_nn ts -> Forall2 noStronger ts ts.
Proof. intros H. induction H; constructor; auto using noStronger_refl. Qed.

Lemma Forall2_noStronger_trans a b c :
  Forall2 noStronger a b -> Forall2 noStronger b c -> Forall2 noStronger a c.
Proof.
  intros H. revert c. induction H as [|x y l k Hxy _ IH]; intros c Hc; inversion_clear Hc.
  - constructor.
  - constructor; eauto using noStronger_trans.
Qed.

Lemma floorNegative_noStronger ts : targets_nn ts -> Forall2 noStronger ts (floorNegativeTargets ts).
Proof. apply map_floor_noStronger. intros t. case_match; auto. Qed.

Lemma floorBlockedCharge_noStronger ts b bl :
  targets_nn ts -> Forall2 noStronger ts (floorBlockedCharge ts b bl).
Proof.
  intros H. unfold floorBlockedCharge. case_match; [now apply Forall2_noStronger_refl|].
  apply map_floor_noStronger; [|exact H]. intros t. repeat case_match; auto.
Qed.

Lemma floorBelowOwner_noStronger ts bl :
  targets_nn ts -> Forall2 noStronger ts (floorBelowOwnerFloorDischarge ts bl).
Proof.
  intros H. unfold floorBelowOwnerFloorDischarge. case_match; [now apply Forall2_noStronger_refl|].
  apply map_floor_noStronger; [|exact H]. intros t. repeat case_match; auto.
Qed.

Lemma noStronger_targets_nn ts ts' : Forall2 noStronger ts ts' -> targets_nn ts -> targets_nn ts'.
Proof.
  intros H. induction H as [|t t' ts ts' Ht _ IH]; intros Hn; [constructor|].
  inversion_clear Hn. constructor; [eapply noStronger_nn; eassumption|apply IH; assumption].
Qed.

Lemma hold_one p w :
  rank p <> 2 -> rank w <> 2 ->
  let h := fmax (fmin w (fmax p (of_Z 0))) (fmin p (of_Z 0)) in
  le_rel (fmin p (of_Z 0)) h /\ le_rel h (fmax p (of_Z 0)) /\ le_rel (fabs h) (fabs w).
Proof.
  intros Hp Hw. assert (H0 : rank (of_Z 0) <> 2) by f64_nn. cbv zeta.
  assert (R0 : le_rel (fabs (of_Z 0)) (fabs w)) by f64_lia.
  assert (Rw : le_rel (fabs w) (fabs w)) by (apply le_rel_refl; f64_nn).
  destruct (le_rel_total (of_Z 0) p H0 Hp) as [L|L].
  - rewrite (fmax_l p) by exact L. rewrite (fmin_r p) by exact L.
    destruct (le_rel_total w p Hw Hp) as [M|M].
    + rewrite (fmin_l w) by exact M. destruct (le_rel_total w (of_Z 0) Hw H0) as [N|N].
      * rewrite fmax_r by exact N. auto using le_rel_refl.
      * rewrite fmax_l by exact N. auto.
    + rewrite (fmin_r w) by exact M. rewrite fmax_l by exact L.
      split_and!; auto using le_rel_refl. apply fabs_mono_nonneg; assumption.
  - rewrite (fmax_r p) by exact L. rewrite (fmin_l p) by exact L.
    destruct (le_rel_total w (of_Z 0) Hw H0) as [N|N].
    + rewrite (fmin_l w) by exact N. destruct (le_rel_total w p Hw Hp) as [M|M].
      * rewrite fmax_r by exact M. split_and!; auto using le_rel_refl.
        apply fabs_mono_nonpos; assumption.
      * rewrite fmax_l by exact M. auto.
    + rewrite (fmin_r w) by exact N. rewrite fmax_l by exact L. auto using le_rel_refl.
Qed.

(** ** Properties *)

(** The last-mile clamp is exact: whatever targets it is given (none of
    them NaN), it keeps the drivers and their order, puts every command
    inside its driver's charge and discharge limits (an explicit zero closes
    that direction, a missing limit is 5 kW), leaves a command that was
    already inside alone, and changes nothing when it is applied again. *)
Theorem clamp_to_limits_exact (targets : list DispatchTarget) (limits : gmap string PowerLimits) :
  targets_nn targets ->
  let out := clampTargetsToPowerLimits targets limits in
  tDriver <$> out = tDriver <$> targets /\
  Forall (withinLimits limits) out /\
  Forall2 (fun t t' => withinLimits limits t -> TargetW t' = TargetW t) targets out /\
  TargetW <$> clampTargetsToPowerLimits out limits = TargetW <$> out.
Proof.
  intros Hnn out. unfold out, clampTargetsToPowerLimits. clear out.
  assert (Hw : forall t, rank (TargetW t) <> 2 -> withinLimits limits (clampTarget limits t)).
  { intros t Ht. unfold withinLimits. rewrite clampTarget_driver, clampTarget_W.
    apply clampBetween_within; [exact Ht|]. apply cap_order; [apply chargeCap_nn|apply dischargeCap_nn]. }
  split_and!.
  - rewrite <- list_fmap_compose. apply list_fmap_ext. intros i t _. apply clampTarget_driver.
  - apply Forall_fmap. eapply Forall_impl; [exact Hnn|]. exact Hw.
  - apply Forall2_fmap_r. apply Forall_Forall2_diag. apply Forall_forall. intros t _ [H1 H2].
    rewrite clampTarget_W. now apply clampBetween_id.
  - rewrite <- !list_fmap_compose. apply list_fmap_ext. intros i t Hi. cbn.
    rewrite (clampTarget_W limits (clampTarget limits t)).
    unfold targets_nn in Hnn. rewrite Forall_lookup in Hnn. destruct (Hw t (Hnn i t Hi)).
    now apply clampBetween_id.
Qed.

Lemma clamp_to_limits_exact_witness :
  let limits : gmap string PowerLimits :=
    {[ "pixii" := mkLimits (of_Z 3000) (of_Z 0) true true (of_Z 0) false (of_Z 0) ]} in
  Forall (withinLimits limits)
    (clampTargetsToPowerLimits [mkTarget "pixii" (of_Z (-4000)) false; mkTarget "sungrow" (of_Z 9000) false] limits).
Proof.
  intros limits.
  refine (proj1 (proj2 (clamp_to_limits_exact _ limits _))).
  constructor; [apply of_Z_nn; lia|constructor; [apply of_Z_nn; lia|constructor]].
Defined.

(** One battery's own clamp: a command for an empty battery (5 % or less)
    never discharges it, and no command leaves the battery's charge and
    discharge limits; a command the battery may follow is not changed. *)
Theorem clamp_with_soc_safe (target : f64) (b : batteryInfo) :
  rank target <> 2 ->
  let w := fst (clampWithSoC target b) in
  le_rel (fneg (bDischargeCap b)) w /\ le_rel w (bChargeCap b) /\
  (fle (soc b) dischargeFloorSoC = true -> le_rel (of_Z 0) w) /\
  (le_rel (fneg (bDischargeCap b)) target -> le_rel target (bChargeCap b) ->
   fle (soc b) dischargeFloorSoC = false \/ le_rel (of_Z 0) target -> w = target).
Proof.
  intros Hn w. destruct (clampWithSoC_facts target b Hn) as (A & B & C & _).
  split_and!; [exact A|exact B|exact C|]. intros H1 H2 H3. unfold w. rewrite clampWithSoC_W.
  assert (E : fle (soc b) dischargeFloorSoC && flt target (of_Z 0) = false).
  { destruct H3 as [->|H3]; [reflexivity|]. apply andb_false_iff. right.
    apply le_flt_false; assumption. }
  rewrite E. now apply clampBetween_id.
Qed.

Lemma clamp_with_soc_safe_witness :
  let b := mkBattery "ferroamp" (of_Z 15000) (of_Z 0) (lit 4 100) true "" (of_Z 0) (of_Z 0) false false
             false false false false in
  le_rel (of_Z 0) (fst (clampWithSoC (of_Z (-3000)) b)).
Proof.
  intros b.
  refine (proj1 (proj2 (proj2 (clamp_with_soc_safe (of_Z (-3000)) b _))) _).
  - apply of_Z_nn. lia.
  - vm_compute. reflexivity.
Defined.

(** Without a new meter sample, dispatch may stop or reduce a battery but
    never raise one: each held target lies between 0 and the last command
    sent to that battery (0 when it got none) and is no larger than the
    target that was asked for. *)
Theorem hold_toward_zero_never_raises (targets : list DispatchTarget) (prev : gmap string f64) :
  targets_nn targets -> (forall d, rank (atZero prev d) <> 2) ->
  Forall2 (fun t t' =>
      tDriver t' = tDriver t /\
      le_rel (fmin (atZero prev (tDriver t)) (of_Z 0)) (TargetW t') /\
      le_rel (TargetW t') (fmax (atZero prev (tDriver t)) (of_Z 0)) /\
      le_rel (fabs (TargetW t')) (fabs (TargetW t)))
    targets (holdTowardZero targets prev).
Proof.
  intros Hnn Hp. unfold holdTowardZero. apply Forall2_fmap_r, Forall_Forall2_diag.
  eapply Forall_impl; [exact Hnn|]. intros t Ht.
  pose proof (hold_one (atZero prev (tDriver t)) (TargetW t) (Hp _) Ht) as (A & B & C).
  unfold compose, holdTarget. set (w := fmax _ _) in *. destruct (fne w (TargetW t)) eqn:E.
  - unfold setW. cbn [tDriver TargetW]. auto.
  - cut (w = TargetW t).
    { intros Ew. rewrite Ew in A, B, C. split_and!; [reflexivity|exact A|exact B|exact C]. }
    apply feq_eq. unfold fne in E. now apply negb_false_iff in E.
Qed.

Lemma hold_toward_zero_never_raises_witness :
  let targets := [mkTarget "a" (of_Z (-4000)) false] in
  let prev : gmap string f64 := {[ "a" := of_Z (-1500) ]} in
  TargetW <$> holdTowardZero targets prev = [of_Z (-1500)] /\
  Forall2 (fun t t' => tDriver t' = tDriver t) targets (holdTowardZero targets prev).
Proof.
  intros targets prev. split; [vm_compute; reflexivity|].
  eapply Forall2_impl.
  - apply (hold_toward_zero_never_raises targets prev).
    + constructor; [apply of_Z_nn; lia|constructor].
    + intros d. unfold atZero, prev. destruct (decide (d = "a"%string)) as [->|Hd].
      * rewrite lookup_singleton_eq. apply of_Z_nn. lia.
      * rewrite lookup_singleton_ne by auto. apply of_Z_nn. lia.
  - intros t t' [H _]. exact H.
Defined.
