(* ===== verification/Units.v ===== *)
(** * Physical quantities at the doors (go/internal/units/units.go)

    Core stores watts and 0..1 fractions; these are the conversions at its
    edges. [ValidFraction] is in Telemetry.v, where the store uses it. *)
From Stdlib Require Import ZArith Lia.
From S2P Require Import Prelude Float64 GoTime Json Kalman Health Telemetry Limits.
From stdpp Require Import base gmap strings list.
#[local] Open Scope Z_scope.

Definition STCIrradianceWm2 : f64 := of_Z 1000.

Definition WattsFromKWp (kwp : f64) : f64 := fmul kwp (of_Z 1000).

Definition KWpFromWatts (w : f64) : f64 :=
  if fle w (of_Z 0) then of_Z 0 else fdiv w (of_Z 1000).

Definition PVFromIrradiance (ratedW irradianceWm2 : f64) : f64 :=
  if fle ratedW (of_Z 0) || fle irradianceWm2 (of_Z 0) then of_Z 0
  else fmul ratedW (fdiv irradianceWm2 STCIrradianceWm2).

Definition FractionFromLegacyPercent (v : f64) : f64 :=
  if isNaN v || isInf v then of_Z 0
  else if flt v (of_Z 0) then of_Z 0
  else if flt (of_Z 1) v && flt v (of_Z 2) then of_Z 1
  else if flt (of_Z 1) v then fdiv v (of_Z 100)
  else v.

Definition DecodeJSONFraction (canonical legacyPercent : f64) : f64 :=
  FractionFromLegacyPercent
    (if feq canonical (of_Z 0) && fne legacyPercent (of_Z 0) then legacyPercent else canonical).

Definition ClampFraction (f : f64) : f64 :=
  if isNaN f || isInf f then of_Z 0
  else if flt f (of_Z 0) then of_Z 0
  else if flt (of_Z 1) f then of_Z 1
  else f.

Definition PercentFromFraction (f : f64) : f64 := fmul (ClampFraction f) (of_Z 100).

(** [math.Round] of a finite value, as an integer: half away from zero. *)
Definition roundZ (x : f64) : Z := Z.sgn (val x) * ((2 * Z.abs (val x) + unit64) / (2 * unit64)).

Definition PermilleFromFraction (f : f64) : Z := roundZ (fmul (ClampFraction f) (of_Z 1000)).
Definition FractionFromPermille (p : Z) : f64 := ClampFraction (fdiv (of_Z p) (of_Z 1000)).

Definition RatedWattsFromLegacyKWp (kwp : f64) : f64 :=
  if isNaN kwp || isInf kwp || fle kwp (of_Z 0) then of_Z 0
  else if fle (of_Z 1000) kwp then kwp
  else WattsFromKWp kwp.

(** ** Lemmas *)
Lemma ClampFraction_bounds f : le_rel (of_Z 0) (ClampFraction f) /\ le_rel (ClampFraction f) (of_Z 1).
Proof.
  assert (H : le_rel (of_Z 0) (of_Z 0) /\ le_rel (of_Z 0) (of_Z 1) /\ le_rel (of_Z 1) (of_Z 1)).
  { split_and!; apply of_Z_mono; lia. }
  destruct H as (H0 & H1 & H2). unfold ClampFraction.
  destruct (isNaN f) eqn:En; [cbn [orb]; split; assumption|].
  destruct (isInf f) eqn:Ei; cbn [orb]; [split; assumption|].
  apply isNaN_false_iff in En.
  destruct (flt f (of_Z 0)) eqn:E0; [split; assumption|].
  destruct (flt (of_Z 1) f) eqn:E1; [split; assumption|].
  split; apply flt_false; try assumption; f64_nn.
Qed.

Lemma ClampFraction_id f : le_rel (of_Z 0) f -> le_rel f (of_Z 1) -> ClampFraction f = f.
Proof.
  intros L0 L1. unfold ClampFraction.
  rewrite (proj2 (isNaN_false_iff f)) by (eapply le_rel_nn_r; exact L0).
  replace (isInf f) with false.
  2: { symmetry. apply isInf_false_iff. right. rewrite of_Z_0 in L0. rewrite of_Z_1 in L1.
       unfold le_rel in *. simpl in *. pose proof (rank_ok_all f). unfold rank_ok in *. lia. }
  cbn [orb]. rewrite (le_flt_false f), (le_flt_false (of_Z 1)) by assumption. reflexivity.
Qed.
