(* ===== verification/BatteryModel.v ===== *)
(** * The learned response of one battery (go/internal/battery/model.go)

    An ARX(1) model fed by recursive least squares, the powers a battery was
    seen to reach by state of charge, and the drift from a calibrated baseline.
    [math.Log] and [math.Exp] are arguments. *)
From Stdlib Require Import ZArith Lia Sorting.Sorted.
From S2P Require Import Prelude Float64 GoTime Units.
From stdpp Require Import base strings list.
#[local] Open Scope Z_scope.

Definition DefaultForgetting : f64 := lit 99 100.
Definition InitialCov : f64 := of_Z 1000.
Definition SoCBucket : f64 := lit 5 100.
Definition SatDecay : f64 := lit 9999 10000.
Definition MinCommandForRLS : f64 := of_Z 100.
Definition MinDeltaForRLS : f64 := of_Z 20.
Definition OutlierSigma : f64 := of_Z 5.
Definition GainHistoryLen : nat := 2000.
Definition MinSatSeedW : f64 := of_Z 1000.

Record SoCPoint : Type := mkSoCPoint { spSoC : f64; spValue : f64 }.
Record GainPoint : Type := mkGainPoint { gpTsMs : Z; gpGain : f64 }.
(** [P] by rows. *)
Record Covariance : Type := mkCov { p00 : f64; p01 : f64; p10 : f64; p11 : f64 }.
Record Model : Type := mkModel {
  bmName : string; bmA : f64; bmB : f64; bmP : Covariance; bmNSamples : Z; bmResidualVar : f64;
  bmLastU : f64; bmLastY : f64; bmHasPrev : bool; bmMaxCharge : list SoCPoint; bmMaxDischarge : list SoCPoint; bmDeadbandW : f64;
  bmBaselineGain : option f64; bmBaselineTauS : option f64; bmLastCalibrated : option Z;
  bmGainHistory : list GainPoint; bmLastUpdatedMs : Z; bmForgetting : f64
}.
Definition New (name : string) : Model :=
  mkModel name (lit 7 10) (lit 3 10) (mkCov InitialCov (of_Z 0) (of_Z 0) InitialCov) 0 (of_Z 1000) (of_Z 0) (of_Z 0) false [] []
    (of_Z 50) None None None [] 0 DefaultForgetting.

Definition clamp (v lo hi : f64) : f64 := if flt v lo then lo else if flt hi v then hi else v.

(** ** What the model says *)
Definition SteadyStateGainRaw (m : Model) : f64 :=
  let denom := fsub (of_Z 1) (bmA m) in
  if flt (fabs denom) (lit 1 1000) then of_Z 1 else fdiv (bmB m) denom.
Definition SteadyStateGain (m : Model) : f64 := clamp (SteadyStateGainRaw m) (lit 3 10) (lit 15 10).
Definition TimeConstantS (Log : f64 -> f64) (m : Model) (dtS : f64) : f64 :=
  if fle (lit 999 1000) (bmA m) || fle (bmA m) (of_Z 0) then of_Z 999
  else clamp (fdiv (fneg dtS) (Log (bmA m))) (lit 5 100) (of_Z 60).
Definition Confidence (m : Model) : f64 :=
  let n := fdiv (of_Z (bmNSamples m)) (of_Z 200) in
  let n := if flt (of_Z 1) n then of_Z 1 else n in
  fmul n (clamp (fsub (of_Z 1) (fdiv (bmResidualVar m) (of_Z 10000))) (of_Z 0) (of_Z 1)).
Definition HealthScore (m : Model) : f64 :=
  match bmBaselineGain m with
  | None => of_Z 1
  | Some g =>
      if flt (fabs g) (lit 1 10) then of_Z 1
      else
        let drift := fdiv (fabs (fsub (SteadyStateGain m) g)) (fabs g) in
        clamp (fsub (of_Z 1) (fmul (of_Z 2) drift)) (of_Z 0) (of_Z 1)
  end.
Definition HealthDriftPerDay (m : Model) : f64 :=
  let h := bmGainHistory m in
  if Nat.ltb (length h) 10 then of_Z 0
  else
    let n := of_Z (Z.of_nat (length h)) in
    let '(sumT, sumG) := fold_left (fun acc p => (fadd (fst acc) (of_Z (gpTsMs p)), fadd (snd acc) (gpGain p))) h (of_Z 0, of_Z 0) in
    let meanT := fdiv sumT n in
    let meanG := fdiv sumG n in
    let '(num, den) :=
      fold_left (fun acc p =>
        let dt := fsub (of_Z (gpTsMs p)) meanT in
        (fadd (fst acc) (fmul dt (fsub (gpGain p) meanG)), fadd (snd acc) (fmul dt dt))) h (of_Z 0, of_Z 0) in
    if flt den (of_Z 1) then of_Z 0 else fmul (fdiv num den) (of_Z 86400000).
Definition Inverse (m : Model) (target : f64) : f64 :=
  let g := SteadyStateGainRaw m in
  if flt (fabs g) (lit 3 10) || flt (of_Z 2) (fabs g) then target else fdiv target (SteadyStateGain m).

(** The first pair of neighbours that holds [soc]. *)
Fixpoint between (curve : list SoCPoint) (soc : f64) (beyond : f64) : f64 :=
  match curve with
  | a :: (b :: _) as rest =>
      if fle (spSoC a) soc && fle soc (spSoC b) then
        let denom := fsub (spSoC b) (spSoC a) in
        if flt denom (lit 1 1000000) then spValue a
        else fadd (spValue a) (fmul (fdiv (fsub soc (spSoC a)) denom) (fsub (spValue b) (spValue a)))
      else between rest soc beyond
  | _ => beyond
  end.
Definition interpolate (curve : list SoCPoint) (soc fallback : f64) : f64 :=
  match curve, last curve with
  | a :: _, Some z =>
      if fle soc (spSoC a) then spValue a
      else if fle (spSoC z) soc then spValue z
      else between curve soc (spValue z)
  | _, _ => fallback
  end.
Definition ClampToSaturation (m : Model) (target soc : f64) : f64 * bool :=
  if flt (of_Z 0) target then
    let mx := interpolate (bmMaxCharge m) soc (of_Z 5000) in
    if flt mx target then (mx, true) else (target, false)
  else if flt target (of_Z 0) then
    let mx := interpolate (bmMaxDischarge m) soc (of_Z 5000) in
    if flt mx (fneg target) then (fneg mx, true) else (target, false)
  else (target, false).

(** ** Learning *)
Definition sameBucket (bucket : f64) (p : SoCPoint) : bool := flt (fabs (fsub (spSoC p) bucket)) (lit 1 1000000).
Fixpoint raiseBucket (bucket value : f64) (curve : list SoCPoint) : option (list SoCPoint) :=
  match curve with
  | [] => None
  | p :: rest =>
      if sameBucket bucket p then Some ((if flt (spValue p) value then mkSoCPoint (spSoC p) value else p) :: rest)
      else (fun rest => p :: rest) <$> raiseBucket bucket value rest
  end.
(** The new point moves down past every point above it, from the end. *)
Fixpoint sinkIn (x : SoCPoint) (rev_curve : list SoCPoint) : list SoCPoint :=
  match rev_curve with
  | p :: rest => if flt (spSoC x) (spSoC p) then p :: sinkIn x rest else x :: rev_curve
  | [] => [x]
  end.
Definition updateCurve (curve : list SoCPoint) (bucket value : f64) : list SoCPoint :=
  match raiseBucket bucket value curve with
  | Some curve => curve
  | None => if flt value MinSatSeedW then curve else rev (sinkIn (mkSoCPoint bucket value) (rev curve))
  end.
Definition bucketOf (soc : f64) : f64 := clamp (fmul (of_Z (roundZ (fdiv soc SoCBucket))) SoCBucket) (of_Z 0) (of_Z 1).
Definition decay (curve : list SoCPoint) : list SoCPoint := map (fun p => mkSoCPoint (spSoC p) (fmul (spValue p) SatDecay)) curve.
Definition withCurves (charge discharge : list SoCPoint) (m : Model) : Model :=
  mkModel (bmName m) (bmA m) (bmB m) (bmP m) (bmNSamples m) (bmResidualVar m) (bmLastU m) (bmLastY m) (bmHasPrev m) charge discharge
    (bmDeadbandW m) (bmBaselineGain m) (bmBaselineTauS m) (bmLastCalibrated m) (bmGainHistory m) (bmLastUpdatedMs m) (bmForgetting m).
Definition updateSaturationCurves (m : Model) (actual soc : f64) : Model :=
  let bucket := bucketOf soc in
  let charge := if flt (of_Z 0) actual then updateCurve (bmMaxCharge m) bucket actual else bmMaxCharge m in
  let discharge :=
    if flt (of_Z 0) actual then bmMaxDischarge m
    else if flt actual (of_Z 0) then updateCurve (bmMaxDischarge m) bucket (fneg actual) else bmMaxDischarge m in
  withCurves (decay charge) (decay discharge) m.

Definition withLast (u y : f64) (m : Model) : Model :=
  mkModel (bmName m) (bmA m) (bmB m) (bmP m) (bmNSamples m) (bmResidualVar m) u y true (bmMaxCharge m) (bmMaxDischarge m)
    (bmDeadbandW m) (bmBaselineGain m) (bmBaselineTauS m) (bmLastCalibrated m) (bmGainHistory m) (bmLastUpdatedMs m) (bmForgetting m).
Definition withFit (a b : f64) (p : Covariance) (residualVar : f64) (m : Model) : Model :=
  mkModel (bmName m) a b p (bmNSamples m) residualVar (bmLastU m) (bmLastY m) (bmHasPrev m) (bmMaxCharge m) (bmMaxDischarge m)
    (bmDeadbandW m) (bmBaselineGain m) (bmBaselineTauS m) (bmLastCalibrated m) (bmGainHistory m) (bmLastUpdatedMs m) (bmForgetting m).
Definition countSample (nowMs : Z) (m : Model) : Model :=
  mkModel (bmName m) (bmA m) (bmB m) (bmP m) (wrap_u64 (bmNSamples m + 1)) (bmResidualVar m) (bmLastU m) (bmLastY m) (bmHasPrev m)
    (bmMaxCharge m) (bmMaxDischarge m) (bmDeadbandW m) (bmBaselineGain m) (bmBaselineTauS m) (bmLastCalibrated m)
    (bmGainHistory m) nowMs (bmForgetting m).
Definition recordGain (nowMs : Z) (m : Model) : Model :=
  let h := bmGainHistory m ++ [mkGainPoint nowMs (SteadyStateGain m)] in
  mkModel (bmName m) (bmA m) (bmB m) (bmP m) (bmNSamples m) (bmResidualVar m) (bmLastU m) (bmLastY m) (bmHasPrev m)
    (bmMaxCharge m) (bmMaxDischarge m) (bmDeadbandW m) (bmBaselineGain m) (bmBaselineTauS m) (bmLastCalibrated m)
    (drop (length h - GainHistoryLen) h) (bmLastUpdatedMs m) (bmForgetting m).

(** The least-squares step on the last command [u] and power [y]; [None] when
    the gain cannot be formed. *)
Definition rlsStep (m : Model) (err : f64) : option Model :=
  let y := bmLastY m in
  let u := bmLastU m in
  let P := bmP m in
  let lambda := bmForgetting m in
  let pp0 := fadd (fmul (p00 P) y) (fmul (p01 P) u) in
  let pp1 := fadd (fmul (p10 P) y) (fmul (p11 P) u) in
  let denom := fadd (fadd lambda (fmul y pp0)) (fmul u pp1) in
  if flt (fabs denom) (lit 1 1000000000) then None
  else
    let k0 := fdiv pp0 denom in
    let k1 := fdiv pp1 denom in
    let a := clamp (fadd (bmA m) (fmul k0 err)) (lit 1 10) (lit 99 100) in
    let b := clamp (fadd (bmB m) (fmul k1 err)) (lit (-15) 10) (lit 15 10) in
    let P' := mkCov (fdiv (fsub (p00 P) (fmul k0 pp0)) lambda) (fdiv (fsub (p01 P) (fmul k0 pp1)) lambda)
                    (fdiv (fsub (p10 P) (fmul k1 pp0)) lambda) (fdiv (fsub (p11 P) (fmul k1 pp1)) lambda) in
    Some (withFit a b P' (fadd (fmul (lit 95 100) (bmResidualVar m)) (fmul (fmul (lit 5 100) err) err)) m).
Definition prediction (m : Model) : f64 := fadd (fmul (bmA m) (bmLastY m)) (fmul (bmB m) (bmLastU m)).

(** [Update]: the model, and whether the reading was learned from. *)
Definition Update (m : Model) (command actual soc dtS : f64) (nowMs : Z) : Model * bool :=
  if negb (finite command) || negb (finite actual) || negb (finite soc) || negb (finite dtS) || flt soc (of_Z 0) ||
     flt (of_Z 1) soc || fle dtS (of_Z 0)
  then (m, false)
  else
    let m := updateSaturationCurves m actual soc in
    let seen := withLast command actual m in
    if negb (bmHasPrev m) then (seen, false)
    else if flt (fabs (bmLastU m)) MinCommandForRLS then (seen, false)
    else if flt (fabs (fsub actual (bmLastY m))) MinDeltaForRLS && (50 <? bmNSamples m) then (seen, false)
    else
      let err := fsub actual (prediction m) in
      let std := fsqrt (bmResidualVar m) in
      let std := if flt std (of_Z 10) then of_Z 10 else std in
      if flt (fmul OutlierSigma std) (fabs err) && (20 <? bmNSamples m) then (seen, false)
      else
        match rlsStep m err with
        | None => (seen, false)
        | Some m => (recordGain nowMs (countSample nowMs (withLast command actual m)), true)
        end.

Definition SetBaseline (gain tauS : f64) (nowMs : Z) (m : Model) : Model :=
  mkModel (bmName m) (bmA m) (bmB m) (bmP m) (bmNSamples m) (bmResidualVar m) (bmLastU m) (bmLastY m) (bmHasPrev m)
    (bmMaxCharge m) (bmMaxDischarge m) (bmDeadbandW m) (Some gain) (Some tauS) (Some nowMs) (bmGainHistory m) (bmLastUpdatedMs m)
    (bmForgetting m).
Definition SetFromStepFit (Exp : f64 -> f64) (gain tauS dtS : f64) (m : Model) : Model :=
  let a := clamp (Exp (fdiv (fneg dtS) (fmax tauS (lit 1 10)))) (lit 1 1000) (lit 99 100) in
  let b := clamp (fmul (fsub (of_Z 1) a) gain) (lit (-15) 10) (lit 15 10) in
  withFit a b (mkCov (of_Z 10) (of_Z 0) (of_Z 0) (of_Z 10)) (of_Z 100) m.

(** ** What happens to a model *)
Inductive modelOp : Type :=
| Observed (command actual soc dtS : f64) (nowMs : Z)
| Fitted (gain tauS dtS : f64)
| Calibrated (gain tauS : f64) (nowMs : Z).
Section Learning.
Variable Exp : f64 -> f64.
Definition modelStep (m : Model) (o : modelOp) : Model :=
  match o with
  | Observed command actual soc dtS nowMs => fst (Update m command actual soc dtS nowMs)
  | Fitted gain tauS dtS => SetFromStepFit Exp gain tauS dtS m
  | Calibrated gain tauS nowMs => SetBaseline gain tauS nowMs m
  end.
Definition modelRun (os : list modelOp) (m : Model) : Model := fold_left modelStep os m.
(** The powers are float64 values. *)
Definition realOp (o : modelOp) : Prop := match o with Observed _ actual _ _ _ => wf actual | _ => True end.

(** ** Lemmas: the curves *)
Definition okPoint (p : SoCPoint) : Prop :=
  le_rel (of_Z 0) (spSoC p) /\ le_rel (spSoC p) (of_Z 1) /\ wf (spValue p) /\ rank (spValue p) = 0 /\ le_rel (of_Z 0) (spValue p).
Definition below (a b : f64) : Prop := le_rel b a.
Definition ascending (curve : list SoCPoint) : Prop := Sorted below (rev (map spSoC curve)).
Definition okCurve (curve : list SoCPoint) : Prop := Forall okPoint curve /\ ascending curve.

Lemma fneg_fneg x : fneg (fneg x) = x.
Proof. destruct x as [|s|a]; cbn; [reflexivity|now rewrite negb_involutive|now rewrite Z.opp_involutive]. Qed.

Lemma clamp_spec v lo hi : le_rel lo hi -> flt (clamp v lo hi) lo = false /\ flt hi (clamp v lo hi) = false.
Proof.
  intros L. unfold clamp. destruct (flt v lo) eqn:A; [split; [apply flt_irrefl|now apply le_flt_false]|].
  destruct (flt hi v) eqn:B; [|auto]. split; [now apply le_flt_false|apply flt_irrefl].
Qed.
Lemma model_clamp_between v lo hi : rank v <> 2 -> le_rel lo hi -> le_rel lo (clamp v lo hi) /\ le_rel (clamp v lo hi) hi.
Proof.
  intros N L. destruct (clamp_spec v lo hi L) as [A B].
  pose proof (le_rel_nn_l lo hi L) as Nl. pose proof (le_rel_nn_r lo hi L) as Nh.
  assert (M : rank (clamp v lo hi) <> 2) by (unfold clamp; destruct (flt v lo), (flt hi v); assumption).
  split; apply flt_false; assumption.
Qed.

(** Between two powers that are not negative there is no negative one. *)
Lemma blend_notNeg va vb t : wf va -> rank va = 0 -> rank vb = 0 -> wf vb -> le_rel (of_Z 0) va -> le_rel (of_Z 0) vb ->
  le_rel (Fin 0) t -> le_rel t (Fin unit64) -> notNeg (fadd va (fmul t (fsub vb va))).
Proof.
  intros Wa Ra Rb Wb Pa Pb T0 T1. set (d := fsub vb va).
  assert (Nd : rank d <> 2) by (apply fsub_nn; assumption).
  assert (Hn : le_rel (fneg va) d).
  { assert (E : fneg va = fadd (of_Z 0) (fneg va)).
    { rewrite fadd_comm, of_Z_0. symmetry. apply fadd_0_r. now apply fneg_wf. }
    rewrite E. unfold d, fsub. apply fadd_mono; [exact Pb|apply le_rel_refl; apply fneg_nn; lia| |exact Nd].
    rewrite <- E. apply fneg_nn. lia. }
  assert (Hd : le_rel d vb) by (apply fsub_le; [exact Wb|rewrite <- of_Z_0; exact Pa|lia|exact Nd]).
  assert (Rd : rank d = 0) by (apply (rank_mid _ _ _ Hn Hd); [apply fneg_fin; exact Ra|exact Rb]).
  rewrite (fmul_comm t d). destruct (fmul_ratio d t (fsub_wf vb va) Rd T0 T1) as (R & P & Q).
  apply notNeg_of_le. destruct (le_rel_total (of_Z 0) d) as [L|L]; [rewrite of_Z_rank; lia|exact Nd| |].
  - apply fadd_of_nonneg; [exact Pa|exact (proj1 (P L))].
  - assert (X : le_rel (fneg va) (fmul d t)) by exact (le_rel_trans _ _ _ Hn (proj2 (Q L))).
    assert (E : le_rel (of_Z 0) (fsub va va)) by (rewrite of_Z_0; apply fsub_nonneg; [apply le_rel_refl; lia|now apply fsub_nn]).
    refine (le_rel_trans _ _ _ E _). unfold fsub. apply fadd_mono; [apply le_rel_refl; lia|exact X| |]; apply fadd_nn; auto; now apply fneg_fin.
Qed.

Lemma unit_gap_fin x y : le_rel (of_Z 0) y -> le_rel y x -> le_rel x (of_Z 1) -> rank (fsub x y) = 0.
Proof.
  intros Y L X. assert (R1 : rank (of_Z 1) = 0) by (apply of_Z_rank; lia). assert (R0 : rank (of_Z 0) = 0) by (apply of_Z_rank; lia).
  assert (Rx : rank x = 0) by exact (rank_mid _ _ _ (le_rel_trans _ _ _ Y L) X R0 R1).
  assert (Ry : rank y = 0) by exact (rank_mid _ _ _ Y L R0 Rx).
  assert (N : rank (fsub x y) <> 2) by (apply fsub_nn; assumption).
  apply (rank_mid (of_Z 0) _ (of_Z 1)); [rewrite of_Z_0; now apply fsub_nonneg| |exact R0|exact R1].
  assert (E : fadd (of_Z 1) (fneg (of_Z 0)) = of_Z 1) by (rewrite (of_Z_0); apply fadd_0_r; apply of_Z_wf).
  rewrite <- E. apply fadd_mono; [exact X|now apply fneg_anti|exact N|rewrite E; lia].
Qed.
Lemma between_notNeg curve soc beyond : Forall okPoint curve -> notNeg beyond -> notNeg (between curve soc beyond).
Proof.
  intros F B. induction F as [|a rest A F IH]; [exact B|]. destruct rest as [|b rest]; [exact B|]. cbn [between].
  destruct (fle (spSoC a) soc && fle soc (spSoC b)) eqn:E; [|exact IH]. inversion F as [|? ? Bk _]; subst. cbv zeta.
  destruct A as (A0 & A1 & A2 & A3 & A4), Bk as (B0 & B1 & B2 & B3 & B4). destruct (flt _ (lit 1 1000000)) eqn:D; [now apply notNeg_of_le|].
  apply andb_true_iff in E as [E1 E2]. apply fle_iff in E1, E2.
  assert (R1 : rank (of_Z 1) = 0) by (apply of_Z_rank; lia). assert (R0 : rank (of_Z 0) = 0) by (apply of_Z_rank; lia).
  assert (Ra : rank (spSoC a) = 0) by exact (rank_mid _ _ _ A0 A1 R0 R1). assert (Rb : rank (spSoC b) = 0) by exact (rank_mid _ _ _ B0 B1 R0 R1).
  assert (Rs : rank soc = 0) by exact (rank_mid _ _ _ E1 E2 Ra Rb).
  assert (N1 : rank (fsub soc (spSoC a)) <> 2) by (apply fsub_nn; assumption).
  assert (N2 : rank (fsub (spSoC b) (spSoC a)) <> 2) by (apply fsub_nn; assumption).
  assert (L : le_rel (fsub soc (spSoC a)) (fsub (spSoC b) (spSoC a))).
  { unfold fsub in *. apply fadd_mono; auto. apply le_rel_refl. apply fneg_nn. lia. }
  assert (P : flt (of_Z 0) (fsub (spSoC b) (spSoC a)) = true).
  { apply (flt_le_trans _ (lit 1 1000000)); [vm_compute; reflexivity|]. apply flt_false; [exact D|exact N2|vm_compute; discriminate]. }
  assert (L0 : le_rel (of_Z 0) (fsub soc (spSoC a))) by (rewrite of_Z_0; now apply fsub_nonneg).
  destruct (fdiv_ratio (fsub soc (spSoC a)) (fsub (spSoC b) (spSoC a))) as (_ & T0 & T1); auto.
  { apply unit_gap_fin; [exact A0|exact E1|exact (le_rel_trans _ _ _ E2 B1)]. }
  now apply blend_notNeg.
Qed.
Lemma interpolate_notNeg curve soc fallback : Forall okPoint curve -> notNeg fallback -> notNeg (interpolate curve soc fallback).
Proof.
  intros F B. unfold interpolate. destruct curve as [|a rest]; [exact B|]. destruct (last (a :: rest)) as [z|] eqn:L; [|exact B].
  assert (V : forall p, okPoint p -> notNeg (spValue p)) by (intros p P; apply notNeg_of_le; apply P).
  assert (Z : notNeg (spValue z)).
  { apply V. apply (proj1 (Forall_forall _ _) F). apply last_Some_elem_of. exact L. }
  destruct (fle soc (spSoC a)); [apply V; now inversion F|]. destruct (fle (spSoC z) soc); [exact Z|]. now apply between_notNeg.
Qed.

Definition okValue (v : f64) : Prop := wf v /\ rank v = 0 /\ le_rel (of_Z 0) v.
Lemma raiseBucket_ok bucket value curve curve' : okValue value -> Forall okPoint curve -> raiseBucket bucket value curve = Some curve' ->
  Forall okPoint curve' /\ map spSoC curve' = map spSoC curve.
Proof.
  intros V F. revert curve'. induction F as [|p rest P F IH]; intros curve' E; [discriminate E|]. cbn [raiseBucket] in E.
  destruct (sameBucket bucket p).
  - apply (inj Some) in E. subst. destruct (flt (spValue p) value); [|split; [now constructor|reflexivity]].
    split; [|reflexivity]. constructor; [|exact F]. destruct P as (A & B & _), V as (C & D & G). exact (conj A (conj B (conj C (conj D G)))).
  - destruct (raiseBucket bucket value rest) as [r|]; [|discriminate E]. apply (inj Some) in E. subst.
    destruct (IH r eq_refl) as [G M]. split; [now constructor|]. cbn [map]. now rewrite M.
Qed.
Lemma sinkIn_ok x curve : okPoint x -> Forall okPoint curve -> Forall okPoint (sinkIn x curve).
Proof.
  intros X F. induction F as [|p rest P F IH]; cbn [sinkIn]; [now constructor|].
  destruct (flt _ _); [now constructor|]. constructor; [exact X|now constructor].
Qed.
Lemma sinkIn_descends x curve : okPoint x -> Forall okPoint curve -> Sorted below (map spSoC curve) -> Sorted below (map spSoC (sinkIn x curve)).
Proof.
  intros X F. assert (N : forall p, okPoint p -> rank (spSoC p) <> 2) by (intros p (P & _); exact (le_rel_nn_r _ _ P)).
  induction F as [|p rest P F IH]; intros S; [repeat constructor|]. cbn [sinkIn map] in *. apply Sorted_inv in S as [S H].
  destruct (flt (spSoC x) (spSoC p)) eqn:E.
  - cbn [map]. constructor; [now apply IH|]. destruct rest as [|q rest]; cbn [sinkIn map] in *.
    + constructor. now apply flt_le.
    + destruct (flt (spSoC x) (spSoC q)); constructor; [now inversion H|now apply flt_le].
  - cbn [map]. constructor; [now constructor|]. constructor. apply flt_false; auto.
Qed.
Lemma updateCurve_ok curve bucket value : le_rel (of_Z 0) bucket -> le_rel bucket (of_Z 1) -> okValue value -> okCurve curve ->
  okCurve (updateCurve curve bucket value).
Proof.
  intros B0 B1 V [F S]. unfold updateCurve. destruct (raiseBucket bucket value curve) as [c|] eqn:E.
  - destruct (raiseBucket_ok _ _ _ _ V F E) as [G M]. split; [exact G|]. unfold ascending. now rewrite M.
  - destruct (flt value MinSatSeedW); [now split|]. destruct V as (W & R & P).
    assert (X : okPoint (mkSoCPoint bucket value)) by exact (conj B0 (conj B1 (conj W (conj R P)))). apply Forall_rev in F.
    split; [apply Forall_rev; now apply sinkIn_ok|]. unfold ascending in *. rewrite map_rev, rev_involutive.
    apply sinkIn_descends; [exact X|exact F|]. now rewrite map_rev.
Qed.
Lemma decay_ok curve : okCurve curve -> okCurve (decay curve).
Proof.
  intros [F S]. split.
  - apply Forall_map. apply (Forall_impl _ _ _ F). intros p (A & B & W & R & P).
    assert (K : le_rel (Fin 0) SatDecay /\ le_rel SatDecay (Fin unit64)) by (split; apply fle_iff; vm_compute; reflexivity).
    destruct (fmul_ratio _ SatDecay W R (proj1 K) (proj2 K)) as (R' & P' & _).
    exact (conj A (conj B (conj (fmul_wf _ _) (conj R' (proj1 (P' P)))))).
  - unfold ascending, decay in *. rewrite map_map. exact S.
Qed.

(** ** Lemmas: the whole model *)
Definition within (lo hi x : f64) : Prop := flt x lo = false /\ flt hi x = false.
Record modelOk (m : Model) : Prop := mkModelOk {
  okCharge : okCurve (bmMaxCharge m);
  okDischarge : okCurve (bmMaxDischarge m);
  okA : within (lit 1 1000) (lit 99 100) (bmA m);
  okB : within (lit (-15) 10) (lit 15 10) (bmB m);
  okHistory : (length (bmGainHistory m) <= GainHistoryLen)%nat
}.
Lemma bucket_within soc : le_rel (of_Z 0) (bucketOf soc) /\ le_rel (bucketOf soc) (of_Z 1).
Proof.
  apply model_clamp_between; [|apply fle_iff; vm_compute; reflexivity]. unfold bucketOf.
  destruct (of_Z (roundZ (fdiv soc SoCBucket))) as [|b|z] eqn:E.
  - assert (N : rank (of_Z (roundZ (fdiv soc SoCBucket))) <> 2) by (with_strategy transparent [of_Z] unfold of_Z; apply rnd_not_nan).
    now rewrite E in N.
  - destruct b; vm_compute; discriminate.
  - apply fmul_nn; reflexivity.
Qed.
Lemma curves_ok m actual soc : finite actual = true -> wf actual -> modelOk m -> modelOk (updateSaturationCurves m actual soc).
Proof.
  intros F W [C D A B H]. pose proof (bucket_within soc) as [B0 B1]. apply finite_iff in F.
  assert (R0 : rank (of_Z 0) = 0) by (apply of_Z_rank; lia).
  refine (mkModelOk (updateSaturationCurves m actual soc) _ _ A B H); unfold updateSaturationCurves, withCurves; cbn [bmMaxCharge bmMaxDischarge]; apply decay_ok.
  - destruct (flt (of_Z 0) actual) eqn:E; [|exact C]. apply updateCurve_ok; auto. exact (conj W (conj F (flt_le _ _ E))).
  - destruct (flt (of_Z 0) actual) eqn:E; [exact D|]. destruct (flt actual (of_Z 0)) eqn:G; [|exact D]. apply updateCurve_ok; auto.
    split; [now apply fneg_wf|]. split; [now apply fneg_fin|]. apply flt_le, fneg_anti in G. exact G.
Qed.
Lemma recordGain_ok nowMs m : modelOk m -> modelOk (recordGain nowMs m).
Proof.
  intros [C D A B H]. refine (mkModelOk (recordGain nowMs m) C D A B _). cbn [recordGain bmGainHistory].
  rewrite length_drop, length_app. cbn [length]. generalize dependent GainHistoryLen. intros n H. lia.
Qed.
(** Inside tight limits is inside wide ones. *)
Lemma within_lower lo lo' hi x : flt lo lo' = true -> within lo' hi x -> within lo hi x.
Proof.
  intros L [A B]. split; [|exact B]. destruct (flt x lo) eqn:E; [|reflexivity]. now rewrite (flt_trans _ _ _ E L) in A.
Qed.
Lemma fit_ok a b p v m : within (lit 1 1000) (lit 99 100) a -> within (lit (-15) 10) (lit 15 10) b -> modelOk m -> modelOk (withFit a b p v m).
Proof. intros A' B' [C D _ _ H]. exact (mkModelOk (withFit a b p v m) C D A' B' H). Qed.
Lemma rlsStep_ok m err m' : modelOk m -> rlsStep m err = Some m' -> modelOk m'.
Proof.
  intros M E. unfold rlsStep in E. destruct (flt (fabs _) (lit 1 1000000000)); [discriminate E|]. apply (inj Some) in E. rewrite <- E.
  apply fit_ok; [|apply clamp_spec; apply fle_iff; vm_compute; reflexivity|exact M].
  apply (within_lower _ (lit 1 10)); [vm_compute; reflexivity|]. apply clamp_spec. apply fle_iff. vm_compute. reflexivity.
Qed.
Lemma withLast_ok u y m : modelOk m -> modelOk (withLast u y m).
Proof. intros [C D A B H]. exact (mkModelOk (withLast u y m) C D A B H). Qed.
Lemma modelUpdate_ok m command actual soc dtS nowMs : wf actual -> modelOk m -> modelOk (fst (Update m command actual soc dtS nowMs)).
Proof.
  intros W M. unfold Update. destruct (negb (finite command) || _ || _ || _ || _ || _ || _) eqn:G; [exact M|].
  assert (F : finite actual = true) by (destruct (finite command), (finite actual); cbn in G; congruence).
  pose proof (curves_ok m actual soc F W M) as C. cbv zeta. set (m1 := updateSaturationCurves m actual soc) in *. clearbody m1.
  pose proof (withLast_ok command actual m1 C) as S.
  destruct (negb (bmHasPrev m1)); [exact S|]. destruct (flt (fabs (bmLastU m1)) MinCommandForRLS); [exact S|].
  destruct (flt (fabs (fsub actual (bmLastY m1))) MinDeltaForRLS && _); [exact S|].
  destruct (flt (fmul OutlierSigma _) _ && _); [exact S|]. destruct (rlsStep m1 _) as [m2|] eqn:E; [|exact S]. cbn [fst].
  apply recordGain_ok. destruct (withLast_ok command actual m2 (rlsStep_ok _ _ _ C E)) as [C' D A B H].
  exact (mkModelOk (countSample nowMs (withLast command actual m2)) C' D A B H).
Qed.
Lemma modelStep_ok o m : realOp o -> modelOk m -> modelOk (modelStep m o).
Proof.
  intros R M. destruct o as [command actual soc dtS nowMs|gain tauS dtS|gain tauS nowMs]; cbn [modelStep].
  - now apply modelUpdate_ok.
  - apply fit_ok; [| |exact M]; apply clamp_spec; apply fle_iff; vm_compute; reflexivity.
  - destruct M as [C D A B H]. exact (mkModelOk (SetBaseline gain tauS nowMs m) C D A B H).
Qed.
Lemma New_ok name : modelOk (New name).
Proof.
  assert (E : okCurve []) by (split; constructor).
  constructor; [exact E|exact E|split; vm_compute; reflexivity|split; vm_compute; reflexivity|]. apply Nat.le_0_l.
Qed.
Lemma modelRun_ok os m : Forall realOp os -> modelOk m -> modelOk (modelRun os m).
Proof.
  unfold modelRun. revert m. induction os as [|o os IH]; intros m R M; cbn [fold_left]; [exact M|].
  inversion R. apply IH; [assumption|]. now apply modelStep_ok.
Qed.

Lemma flt_fneg_swap x y : flt x (fneg y) = flt y (fneg x).
Proof.
  destruct x as [|[]|a], y as [|[]|b]; try reflexivity. rewrite !flt_fin by reflexivity. cbn [fneg val].
  destruct (Z.ltb_spec a (- b)), (Z.ltb_spec b (- a)); lia || reflexivity.
Qed.
(** A target that is cut keeps its direction and gets smaller. *)
Definition cutFairly (target : f64) (r : f64 * bool) : Prop :=
  match r with
  | (p, false) => p = target
  | (p, true) => flt (of_Z 0) target = true /\ notNeg p /\ flt p target = true \/
                 flt target (of_Z 0) = true /\ flt (of_Z 0) p = false /\ flt target p = true
  end.
Lemma clamped_shrinks m target soc : modelOk m -> cutFairly target (ClampToSaturation m target soc).
Proof.
  intros [[C _] [D _] _ _ _]. unfold ClampToSaturation, cutFairly. cbv zeta. assert (N5 : notNeg (of_Z 5000)) by (vm_compute; reflexivity).
  destruct (flt (of_Z 0) target) eqn:E.
  - pose proof (interpolate_notNeg _ soc _ C N5) as P. destruct (flt (interpolate _ _ _) target) eqn:L; [left|reflexivity].
    exact (conj eq_refl (conj P L)).
  - destruct (flt target (of_Z 0)) eqn:G; [|reflexivity]. pose proof (interpolate_notNeg _ soc _ D N5) as P.
    destruct (flt (interpolate _ _ _) (fneg target)) eqn:L; [right|reflexivity].
    rewrite (flt_fneg_swap (of_Z 0)), (flt_fneg_swap target). refine (conj eq_refl (conj _ L)). assert (Z0 : fneg (of_Z 0) = of_Z 0) by (vm_compute; reflexivity).
    rewrite Z0. exact P.
Qed.

End Learning.

(** A battery that was seen to take 3 kW at half charge. *)
Definition half_charge_model : Model :=
  modelRun (fun x => x) [Observed (of_Z 4000) (of_Z 3000) (lit 1 2) (of_Z 5) 5000] (New "b").
(** The command is cut to the power seen at that charge, less its decay. *)
Example cut_to_seen_power : snd (ClampToSaturation half_charge_model (of_Z 4500) (lit 6 10)) = true.
Proof. vm_compute. reflexivity. Qed.
