(* ===== verification/SelfTune.v ===== *)
(** * Step-response calibration of the batteries (go/internal/selftune/selftune.go)

    A tune drives one battery after another through a fixed pattern of steps,
    fits the responses and writes the result into the battery's model. A
    [Tick] reads the clock once. The lookup of a battery's power is an argument
    of each tick. *)
From S2P Require Import Prelude Float64 GoTime BatteryModel.
From Stdlib Require Import ZArith Lia.
From stdpp Require Import base strings gmap list.
#[local] Open Scope Z_scope.

(** ** Steps *)
Inductive Step : Type :=
| StepStabilize | StepUpSmall | StepSettleUp | StepDownSmall | StepSettleDown | StepUpLarge
| StepSettleHighUp | StepDownLarge | StepSettleHighDown | StepFit | StepDone.
#[export] Instance Step_eq_dec : EqDecision Step.
Proof. solve_decision. Defined.
Definition DurationS (s : Step) : Z :=
  match s with
  | StepStabilize => 15 | StepUpSmall => 25 | StepSettleUp => 15 | StepDownSmall => 25 | StepSettleDown => 15
  | StepUpLarge => 25 | StepSettleHighUp => 10 | StepDownLarge => 25 | StepSettleHighDown => 10 | StepFit => 1
  | StepDone => 0
  end.
Definition CommandW (s : Step) : f64 :=
  match s with
  | StepUpSmall => of_Z 1000
  | StepDownSmall => of_Z (-1000)
  | StepUpLarge => of_Z 3000
  | StepDownLarge => of_Z (-3000)
  | _ => of_Z 0
  end.
Definition Collecting (s : Step) : bool :=
  match s with StepUpSmall | StepDownSmall | StepUpLarge | StepDownLarge => true | _ => false end.
Definition Next (s : Step) : Step :=
  match s with
  | StepStabilize => StepUpSmall | StepUpSmall => StepSettleUp | StepSettleUp => StepDownSmall
  | StepDownSmall => StepSettleDown | StepSettleDown => StepUpLarge | StepUpLarge => StepSettleHighUp
  | StepSettleHighUp => StepDownLarge | StepDownLarge => StepSettleHighDown | StepSettleHighDown => StepFit
  | StepFit => StepDone | StepDone => StepDone
  end.

Record Sample : Type := mkSample { saElapsedS : f64; saCommand : f64; saActual : f64; saSoC : f64 }.
Record ModelSnapshot : Type := mkSnapshot { msGain : f64; msTauS : f64; msDeadbandW : f64; msNSamples : Z; msConfidence : f64 }.
Record stepFit : Type := mkFit { sfGain : f64; sfTauS : f64; sfValid : bool }.

(** ** One step's response *)
Definition sumActual (samples : list Sample) : f64 := fold_left (fun acc s => fadd acc (saActual s)) samples (of_Z 0).
Definition crosses (delta target : f64) (s : Sample) : bool :=
  (flt (of_Z 0) delta && fle target (saActual s)) || (flt delta (of_Z 0) && fle (saActual s) target).
Definition crossing (delta target : f64) (samples : list Sample) : f64 :=
  match list_find (fun s => crosses delta target s = true) samples with
  | Some (_, s) => if flt (lit 5 10) (saElapsedS s) then saElapsedS s else lit 5 10
  | None => of_Z 5
  end.
Definition fitStepResponse (samples : list Sample) : stepFit :=
  match samples with
  | first :: _ :: _ :: _ =>
      let u := saCommand first in
      if flt (fabs u) (of_Z 100) then mkFit (of_Z 1) (of_Z 5) false
      else
        let initial := saActual first in
        let tailStart := Nat.div (length samples) 2 in
        let ySS := fdiv (sumActual (drop tailStart samples)) (of_Z (Z.of_nat (length samples - tailStart))) in
        let delta := fsub ySS initial in
        let gain := clamp (fdiv ySS u) (lit 3 10) (lit 15 10) in
        if flt (fabs delta) (of_Z 50) then mkFit gain (of_Z 5) false
        else
          let target := fadd initial (fmul (lit 632 1000) delta) in
          mkFit gain (clamp (crossing delta target samples) (lit 5 10) (of_Z 30)) true
  | _ => mkFit (of_Z 1) (of_Z 5) false
  end.

(** ** The coordinator *)
(** The message the API shows; [None] is the empty one. *)
Inductive tuneFailure : Type := NoUsableResponse (name : string).
Record Coordinator : Type := mkCoordinator {
  coActive : bool; coBatteries : list string; coCurrentIdx : Z;
  coBefore : gmap string ModelSnapshot; coAfter : gmap string ModelSnapshot;
  coStartedAt : option Time; coLastError : option tuneFailure;
  coName : string; coStep : Step; coStepStartedAt : Time; coSamples : list Sample; coFits : list stepFit
}.
Definition NewCoordinator : Coordinator := mkCoordinator false [] 0 ∅ ∅ None None "" StepDone zeroTime [] [].
Inductive tuneError : Type := AlreadyRunning | NoBatteries.
Section Tune.
Variable Log : f64 -> f64.
Variable Exp : f64 -> f64.

Definition SnapshotOf (m : Model) (dtS : f64) : ModelSnapshot :=
  mkSnapshot (SteadyStateGain m) (TimeConstantS Log m dtS) (bmDeadbandW m) (bmNSamples m) (Confidence m).
Definition Start (c : Coordinator) (batteries : list string) (models : gmap string Model) (dtS : f64) (now : Time) :
    Coordinator + tuneError :=
  if coActive c then inr AlreadyRunning
  else
    match batteries with
    | [] => inr NoBatteries
    | first :: _ =>
        let before :=
          fold_left (fun acc name => match models !! name with Some m => <[name := SnapshotOf m dtS]> acc | None => acc end) batteries ∅ in
        inl (mkCoordinator true batteries 0 before ∅ (Some now) None first StepStabilize now [] [])
    end.
Definition Cancel (c : Coordinator) : Coordinator :=
  mkCoordinator false (coBatteries c) (coCurrentIdx c) (coBefore c) (coAfter c) (coStartedAt c) (coLastError c) (coName c) StepDone
    (coStepStartedAt c) (coSamples c) (coFits c).
Definition CurrentCommand (c : Coordinator) : option (string * f64) :=
  if coActive c then Some (coName c, CommandW (coStep c)) else None.
Definition IsTuning (c : Coordinator) (name : string) : bool := coActive c && bool_decide (coName c = name).

(** Setters. *)
Definition withSamples (samples : list Sample) (fits : list stepFit) (c : Coordinator) : Coordinator :=
  mkCoordinator (coActive c) (coBatteries c) (coCurrentIdx c) (coBefore c) (coAfter c) (coStartedAt c) (coLastError c) (coName c)
    (coStep c) (coStepStartedAt c) samples fits.
Definition atStep (s : Step) (now : Time) (c : Coordinator) : Coordinator :=
  mkCoordinator (coActive c) (coBatteries c) (coCurrentIdx c) (coBefore c) (coAfter c) (coStartedAt c) (coLastError c) (coName c)
    s now (coSamples c) (coFits c).
Definition withResult (after : gmap string ModelSnapshot) (err : option tuneFailure) (c : Coordinator) : Coordinator :=
  mkCoordinator (coActive c) (coBatteries c) (coCurrentIdx c) (coBefore c) after (coStartedAt c) err (coName c)
    (coStep c) (coStepStartedAt c) (coSamples c) (coFits c).

Definition record (actualLookup : string -> option (f64 * f64)) (now : Time) (c : Coordinator) : Coordinator :=
  if Collecting (coStep c) then
    match actualLookup (coName c) with
    | Some (actual, soc) =>
        withSamples (coSamples c ++ [mkSample (Seconds (Sub now (coStepStartedAt c))) (CommandW (coStep c)) actual soc]) (coFits c) c
    | None => c
    end
  else c.
Definition fitStep (c : Coordinator) : Coordinator :=
  if Collecting (coStep c) && negb (bool_decide (coSamples c = [])) then withSamples [] (coFits c ++ [fitStepResponse (coSamples c)]) c
  else c.
(** The mean of the usable fits. *)
Definition usableFits (fits : list stepFit) : f64 * f64 * Z :=
  fold_left (fun acc f => let '(g, t, n) := acc in if sfValid f then (fadd g (sfGain f), fadd t (sfTauS f), n + 1) else acc) fits
    (of_Z 0, of_Z 0, 0).
Definition writeBaseline (dtS : f64) (nowMs : Z) (c : Coordinator) (models : gmap string Model) : Coordinator * gmap string Model :=
  let '(validGain, validTau, validCount) := usableFits (coFits c) in
  if validCount =? 0 then (withResult (coAfter c) (Some (NoUsableResponse (coName c))) c, models)
  else
    let avgGain := fdiv validGain (of_Z validCount) in
    let avgTau := fdiv validTau (of_Z validCount) in
    match models !! coName c with
    | Some m =>
        let m := SetBaseline avgGain avgTau nowMs (SetFromStepFit Exp avgGain avgTau dtS m) in
        (withResult (<[coName c := SnapshotOf m dtS]> (coAfter c)) (coLastError c) c, <[coName c := m]> models)
    | None => (c, models)
    end.
Definition nextBattery (now : Time) (c : Coordinator) : Coordinator :=
  let idx := coCurrentIdx c + 1 in
  match coBatteries c !! Z.to_nat idx with
  | None =>
      mkCoordinator false (coBatteries c) idx (coBefore c) (coAfter c) (coStartedAt c) (coLastError c) "" (coStep c)
        (coStepStartedAt c) (coSamples c) (coFits c)
  | Some name =>
      mkCoordinator (coActive c) (coBatteries c) idx (coBefore c) (coAfter c) (coStartedAt c) (coLastError c) name StepStabilize
        now [] []
  end.
Definition stepOver (c : Coordinator) (now : Time) : bool := DurationS (coStep c) <=? int_of (Seconds (Sub now (coStepStartedAt c))).
Definition Tick (actualLookup : string -> option (f64 * f64)) (dtS : f64) (nowMs : Z) (now : Time)
    (c : Coordinator) (models : gmap string Model) : Coordinator * gmap string Model :=
  if negb (coActive c) then (c, models)
  else
    let c := record actualLookup now c in
    if negb (stepOver c now) then (c, models)
    else
      let c := fitStep c in
      let c := atStep (Next (coStep c)) now c in
      let '(c, models) := if bool_decide (coStep c = StepFit) then writeBaseline dtS nowMs c models else (c, models) in
      (if bool_decide (coStep c = StepDone) then nextBattery now c else c, models).

(** What the API reads. *)
Record Status : Type := mkStatus {
  tsActive : bool; tsBatteryIdx : Z; tsBatteryTotal : Z; tsCurrentBattery : string; tsCurrentStep : Step; tsStepElapsedS : f64;
  tsTotalElapsedS : f64; tsBefore : gmap string ModelSnapshot; tsAfter : gmap string ModelSnapshot; tsLastError : option tuneFailure
}.
Definition statusOf (c : Coordinator) (now : Time) : Status :=
  mkStatus (coActive c) (coCurrentIdx c) (Z.of_nat (length (coBatteries c))) (coName c) (coStep c)
    (Seconds (Sub now (coStepStartedAt c)))
    match coStartedAt c with Some t => Seconds (Sub now t) | None => of_Z 0 end (coBefore c) (coAfter c) (coLastError c).

(** ** How long a tune takes *)
Record tick : Type := mkTick { tkLookup : string -> option (f64 * f64); tkDtS : f64; tkNowMs : Z; tkNow : Time }.
Definition tickOne (x : Coordinator * gmap string Model) (k : tick) : Coordinator * gmap string Model :=
  Tick (tkLookup k) (tkDtS k) (tkNowMs k) (tkNow k) (fst x) (snd x).
Definition ticks (ks : list tick) (x : Coordinator * gmap string Model) : Coordinator * gmap string Model := fold_left tickOne ks x.
(** The clock goes forward by at most [gap] from tick to tick. *)
Fixpoint spaced (gap : Duration) (last : Time) (ks : list tick) : bool :=
  match ks with
  | [] => true
  | k :: rest => (last <=? tkNow k) && (tkNow k <=? last + gap) && spaced gap (tkNow k) rest
  end.
Definition lastTick (start : Time) (ks : list tick) : Time := fold_left (fun _ k => tkNow k) ks start.
(** Seconds and steps a battery still has from a step on. *)
Definition secondsLeft (s : Step) : Z :=
  match s with
  | StepStabilize => 166 | StepUpSmall => 151 | StepSettleUp => 126 | StepDownSmall => 111 | StepSettleDown => 86
  | StepUpLarge => 71 | StepSettleHighUp => 46 | StepDownLarge => 36 | StepSettleHighDown => 11 | StepFit => 1 | StepDone => 0
  end.
Definition stepsLeft (s : Step) : Z :=
  match s with
  | StepStabilize => 10 | StepUpSmall => 9 | StepSettleUp => 8 | StepDownSmall => 7 | StepSettleDown => 6
  | StepUpLarge => 5 | StepSettleHighUp => 4 | StepDownLarge => 3 | StepSettleHighDown => 2 | StepFit => 1 | StepDone => 0
  end.
Definition perBattery (gap : Duration) : Duration := 166 * Second + 10 * gap.
Definition deadline (gap : Duration) (c : Coordinator) : Time :=
  coStepStartedAt c + secondsLeft (coStep c) * Second + stepsLeft (coStep c) * gap +
  (Z.of_nat (length (coBatteries c)) - coCurrentIdx c - 1) * perBattery gap.

(** ** Lemmas: whole seconds *)
Lemma int_of_within x lo hi : 0 <= lo <= 9007199254740992 -> 0 <= hi <= 9007199254740992 ->
  le_rel (of_Z lo) x -> le_rel x (of_Z hi) -> lo <= int_of x.
Proof.
  intros L H A B. rewrite of_Z_fin in A, B by lia. destruct x as [|[]|z]; unfold le_rel in A, B; cbn [rank val] in A, B; try lia.
  pose proof unit64_pos as U. assert (Az : lo * unit64 <= z) by lia. assert (Bz : z <= hi * unit64) by lia.
  unfold int_of. cbv zeta. rewrite Z.quot_div_nonneg by nia.
  assert (Q : lo <= z / unit64) by (apply Z.div_le_lower_bound; [exact U|lia]).
  assert (R : z / unit64 < hi + 1) by (apply Z.div_lt_upper_bound; [exact U|nia]).
  destruct (Z.leb_spec (- 2 ^ 63) (z / unit64)); [|lia]. destruct (Z.ltb_spec (z / unit64) (2 ^ 63)); [exact Q|lia].
Qed.
Lemma whole_seconds d k : 0 <= k -> k * Second <= d -> d <= max_int64 -> k <= int_of (Seconds d).
Proof.
  intros K D M. assert (S0 : 0 < Second) by reflexivity. assert (D0 : 0 <= d) by nia.
  pose proof (Z.rem_bound_pos d Second D0 S0) as Hr.
  assert (Hk : k <= Z.quot d Second) by (rewrite Z.quot_div_nonneg by lia; apply Z.div_le_lower_bound; lia).
  assert (Hq : Z.quot d Second <= 9223372036).
  { rewrite Z.quot_div_nonneg by lia. apply Z.lt_succ_r, Z.div_lt_upper_bound; [lia|]. unfold max_int64, Second in *. lia. }
  unfold Seconds. set (q := Z.quot d Second) in *. set (r := Z.rem d Second) in *. unfold Second in *.
  assert (Lr : le_rel (of_Z r) (of_Z 1000000000)) by (apply of_Z_mono; lia).
  assert (P : flt (of_Z 0) (of_Z 1000000000) = true) by (vm_compute; reflexivity).
  assert (L0 : le_rel (of_Z 0) (of_Z r)) by (apply of_Z_mono; lia).
  destruct (fdiv_ratio (of_Z r) (of_Z 1000000000) ltac:(apply of_Z_rank; lia) L0 Lr P) as (R & N & U).
  set (x := fdiv _ _) in *. clearbody x. rewrite <- of_Z_0 in N. rewrite <- of_Z_1 in U.
  assert (Rq : rank (of_Z q) = 0) by (apply of_Z_rank; lia).
  assert (B : le_rel (fadd (of_Z q) x) (fadd (of_Z 9223372036) (of_Z 1))).
  { apply fadd_mono; [apply of_Z_mono; lia|exact U|now apply fadd_nn|vm_compute; discriminate]. }
  apply (int_of_within _ k 9223372037); [lia|lia| |refine (le_rel_trans _ _ _ B _); apply fle_iff; vm_compute; reflexivity].
  refine (le_rel_trans _ (of_Z q) _ _ _); [apply of_Z_mono; lia|].
  apply fadd_of_ge; [apply of_Z_wf|now apply finite_nn|now apply fadd_nn|exact N].
Qed.
Lemma stepOver_due c now : coStepStartedAt c + DurationS (coStep c) * Second <= now -> stepOver c now = true.
Proof.
  intros D. unfold stepOver. apply Z.leb_le. apply whole_seconds; unfold Sub, max_int64, min_int64, Second in *; destruct (coStep c); cbn [DurationS] in *; lia.
Qed.

(** ** Lemmas: one tick *)
(** What a tick that does not end its step leaves alone. *)
Definition position (c : Coordinator) := (coActive c, coBatteries c, coCurrentIdx c, coStep c, coStepStartedAt c, coName c).
Lemma record_position f now c : position (record f now c) = position c.
Proof. unfold record. destruct (Collecting (coStep c)); [|reflexivity]. destruct (f (coName c)) as [[a s]|]; reflexivity. Qed.
Lemma fitStep_position c : position (fitStep c) = position c.
Proof. unfold fitStep. destruct (Collecting (coStep c) && _); reflexivity. Qed.
Lemma writeBaseline_position dtS nowMs c models : position (fst (writeBaseline dtS nowMs c models)) = position c.
Proof.
  unfold writeBaseline. destruct (usableFits (coFits c)) as [[g t] n]. destruct (n =? 0); [reflexivity|].
  destruct (models !! coName c); reflexivity.
Qed.
Definition advanced (now : Time) (c : Coordinator) : Coordinator :=
  let c := atStep (Next (coStep c)) now c in if bool_decide (coStep c = StepDone) then nextBattery now c else c.
Lemma nextBattery_position now c c' : position c = position c' -> position (nextBattery now c) = position (nextBattery now c').
Proof.
  unfold position. intros E. injection E as E1 E2 E3 E4 E5 E6. unfold nextBattery. rewrite E2, E3.
  destruct (coBatteries c' !! Z.to_nat (coCurrentIdx c' + 1)); cbn; now rewrite ?E1, ?E4, ?E5.
Qed.
Lemma Tick_position f dtS nowMs now c models :
  position (fst (Tick f dtS nowMs now c models)) =
  position (if negb (coActive c) || negb (stepOver c now) then c else advanced now c).
Proof.
  unfold Tick. destruct (coActive c) eqn:A; [|reflexivity]. cbn [negb orb]. cbv zeta. pose proof (record_position f now c) as R.
  set (c1 := record f now c) in *. clearbody c1. assert (O : stepOver c1 now = stepOver c now).
  { unfold stepOver. unfold position in R. injection R as _ _ _ -> -> _. reflexivity. }
  rewrite O. destruct (stepOver c now); [|exact R]. cbn [negb]. pose proof (fitStep_position c1) as F. rewrite R in F.
  set (c2 := fitStep c1) in *. clearbody c2. clear c1 R O. set (c3 := atStep (Next (coStep c2)) now c2).
  assert (P3 : position c3 = position (atStep (Next (coStep c)) now c)).
  { unfold position in *. injection F as E1 E2 E3 E4 E5 E6. cbn. now rewrite E1, E2, E3, E4, E6. }
  set (w := if bool_decide (coStep c3 = StepFit) then writeBaseline dtS nowMs c3 models else (c3, models)).
  assert (P4 : position (fst w) = position c3) by (unfold w; destruct (bool_decide _); [apply writeBaseline_position|reflexivity]).
  clearbody w. destruct w as [c4 models4]. cbn [fst] in *. rewrite P3 in P4. clear P3 c3. unfold advanced. cbv zeta.
  assert (S4 : coStep c4 = coStep (atStep (Next (coStep c)) now c)) by (unfold position in P4; now injection P4).
  rewrite S4. destruct (bool_decide _); [now apply nextBattery_position|exact P4].
Qed.

(** ** Lemmas: a whole tune *)
Lemma CommandW_known s : CommandW s ∈ [of_Z 0; of_Z 1000; of_Z (-1000); of_Z 3000; of_Z (-3000)].
Proof.
  assert (H : exists n : nat, [of_Z 0; of_Z 1000; of_Z (-1000); of_Z 3000; of_Z (-3000)] !! n = Some (CommandW s)).
  { destruct s; [exists 0%nat|exists 1%nat|exists 0%nat|exists 2%nat|exists 0%nat|exists 3%nat|exists 0%nat|exists 4%nat
      |exists 0%nat|exists 0%nat|exists 0%nat]; reflexivity. }
  destruct H as [n H]. exact (list_elem_of_lookup_2 _ n _ H).
Qed.
Lemma left_next s : s <> StepDone -> secondsLeft s = DurationS s + secondsLeft (Next s) /\ stepsLeft s = 1 + stepsLeft (Next s).
Proof. destruct s; intros N; try (split; reflexivity). congruence. Qed.
Lemma left_pos s : s <> StepDone -> 0 < DurationS s <= secondsLeft s /\ 1 <= stepsLeft s.
Proof. destruct s; intros N; cbn; try lia. congruence. Qed.

(** While a tune is active it is inside one step of one battery. *)
Record underWay (batteries : list string) (gap : Duration) (due last : Time) (c : Coordinator) : Prop := mkUnderWay {
  uwBatteries : coBatteries c = batteries;
  uwIdx : 0 <= coCurrentIdx c;
  uwName : batteries !! Z.to_nat (coCurrentIdx c) = Some (coName c);
  uwStep : coStep c <> StepDone;
  uwLast : last < coStepStartedAt c + DurationS (coStep c) * Second;
  uwDue : deadline gap c <= due
}.
Definition tuneOk (batteries : list string) (gap : Duration) (due last : Time) (c : Coordinator) : Prop :=
  coActive c = true -> underWay batteries gap due last c.
Lemma tuneOk_position batteries gap due last c c' : position c = position c' ->
  tuneOk batteries gap due last c -> tuneOk batteries gap due last c'.
Proof.
  unfold position. intros E H A. injection E as E1 E2 E3 E4 E5 E6. rewrite <- E1 in A. destruct (H A) as [B I N S L D].
  unfold deadline in D. constructor; unfold deadline; rewrite <- ?E2, <- ?E3, <- ?E4, <- ?E5, <- ?E6; assumption.
Qed.
Lemma idx_below batteries gap due last c : underWay batteries gap due last c -> coCurrentIdx c < Z.of_nat (length batteries).
Proof. intros [_ I N _ _ _]. apply lookup_lt_Some in N. lia. Qed.

Lemma nextBattery_ok batteries gap due now c : 0 <= gap -> coBatteries c = batteries -> 0 <= coCurrentIdx c ->
  now + (Z.of_nat (length batteries) - coCurrentIdx c - 1) * perBattery gap <= due ->
  tuneOk batteries gap due now (nextBattery now c).
Proof.
  intros G B I D. unfold nextBattery. rewrite B. destruct (batteries !! Z.to_nat (coCurrentIdx c + 1)) as [name|] eqn:N; [|discriminate].
  intros _. constructor; cbn [coBatteries coCurrentIdx coName coStep coStepStartedAt]; [reflexivity|lia|exact N|discriminate| |].
  - unfold Second. cbn [DurationS]. lia.
  - unfold deadline. cbn [coBatteries coCurrentIdx coName coStep coStepStartedAt secondsLeft stepsLeft]. unfold perBattery in *. nia.
Qed.
Lemma advanced_ok batteries gap due last now c : 0 <= gap -> now <= last + gap -> underWay batteries gap due last c ->
  tuneOk batteries gap due now (advanced now c).
Proof.
  intros G N U. pose proof (idx_below _ _ _ _ _ U) as X. destruct U as [B I M S L D]. unfold advanced. cbv zeta.
  destruct (left_next _ S) as [E1 E2]. unfold deadline in D. rewrite B, E1, E2 in D. change (coStep (atStep _ _ _)) with (Next (coStep c)).
  destruct (bool_decide (Next (coStep c) = StepDone)) eqn:F.
  - apply bool_decide_eq_true in F. rewrite F in D. cbn [secondsLeft stepsLeft] in D. apply nextBattery_ok; auto.
    cbn [atStep coCurrentIdx]. lia.
  - apply bool_decide_eq_false in F. destruct (left_pos _ F) as [P1 P2]. intros _. constructor; cbn [atStep coBatteries coCurrentIdx coName coStep coStepStartedAt].
    + exact B. + exact I. + exact M. + exact F.
    + unfold Second. lia.
    + unfold deadline. cbn [atStep coBatteries coCurrentIdx coName coStep coStepStartedAt]. rewrite B. lia.
Qed.
Lemma tick_ok batteries gap due last k c models : 0 <= gap -> last <= tkNow k <= last + gap ->
  tuneOk batteries gap due last c -> tuneOk batteries gap due (tkNow k) (fst (tickOne (c, models) k)).
Proof.
  intros G N H. unfold tickOne. cbn [fst snd]. refine (tuneOk_position _ _ _ _ _ _ (eq_sym (Tick_position _ _ _ _ _ _)) _).
  destruct (coActive c) eqn:A; [|intros A'; change (coActive c = true) in A'; congruence]. pose proof (H A) as U. cbn [negb orb].
  destruct (stepOver c (tkNow k)) eqn:O; cbn [negb]; [exact (advanced_ok _ _ _ last _ _ G (proj2 N) U)|].
  intros _. destruct U as [B I M S L D]. constructor; auto.
  apply Z.nle_gt. intros W. rewrite (stepOver_due _ _ W) in O. discriminate O.
Qed.
Lemma ticks_ok batteries gap due ks : 0 <= gap -> forall last x, spaced gap last ks = true ->
  tuneOk batteries gap due last (fst x) -> tuneOk batteries gap due (lastTick last ks) (fst (ticks ks x)).
Proof.
  intros G. induction ks as [|k ks IH]; intros last [c models] S H; [exact H|]. cbn [spaced] in S.
  apply andb_prop in S as [S1 S2]. apply andb_prop in S1 as [A B]. apply Z.leb_le in A, B.
  change (lastTick last (k :: ks)) with (lastTick (tkNow k) ks).
  change (ticks (k :: ks) (c, models)) with (ticks ks (tickOne (c, models) k)). apply IH; [exact S2|]. now apply (tick_ok _ _ _ last).
Qed.

(** C27: A tune of [n] batteries is over [n] times 166 seconds and ten tick
    gaps after its start, whatever the batteries answer; until then it drives
    only a battery it was asked for, with 0, 1000 or 3000 W either way. *)
Theorem self_tune_ends c0 batteries before models dtS start c gap ks : Start c0 batteries before dtS start = inl c ->
  (0 <=? gap) = true -> spaced gap start ks = true ->
  let c' := fst (ticks ks (c, models)) in
  (forall name w, CurrentCommand c' = Some (name, w) ->
     name ∈ batteries /\ w ∈ [of_Z 0; of_Z 1000; of_Z (-1000); of_Z 3000; of_Z (-3000)]) /\
  (start + Z.of_nat (length batteries) * perBattery gap <= lastTick start ks -> CurrentCommand c' = None).
Proof.
  intros E G S c'. apply Z.leb_le in G. set (due := start + Z.of_nat (length batteries) * perBattery gap).
  assert (H : tuneOk batteries gap due start c).
  { unfold Start in E. destruct (coActive c0); [discriminate E|]. destruct batteries as [|first rest]; [discriminate E|].
    injection E as <-. intros _. constructor; cbn [coBatteries coCurrentIdx coName coStep coStepStartedAt]; try reflexivity; [discriminate| |].
    - unfold Second. cbn [DurationS]. lia.
    - unfold deadline, due. cbn [coBatteries coCurrentIdx coName coStep coStepStartedAt secondsLeft stepsLeft]. unfold perBattery. lia. }
  pose proof (ticks_ok batteries gap due ks G start (c, models) S H) as U. fold c' in U. unfold CurrentCommand.
  destruct (coActive c') eqn:A; [|split; [discriminate|reflexivity]]. pose proof (U A) as V. split.
  - intros name w X. injection X as <- <-. split; [exact (list_elem_of_lookup_2 _ _ _ (uwName _ _ _ _ _ V))|].
    apply CommandW_known.
  - intros D. exfalso. pose proof (idx_below _ _ _ _ _ V) as I. destruct V as [B _ _ W L Q].
    destruct (left_pos _ W) as [P1 P2]. unfold deadline in Q. rewrite B in Q. unfold perBattery, due, Second in *. nia.
Qed.
End Tune.

(** A tune of one battery, ticked once a minute for 13 minutes. *)
Definition minute_ticks : list tick :=
  map (fun k => mkTick (fun _ => Some (of_Z 900, lit 1 2)) (of_Z 60) 0 (k * Minute)) [1; 2; 3; 4; 5; 6; 7; 8; 9; 10; 11; 12; 13].
Lemma self_tune_ends_witness :
  CurrentCommand (fst (ticks (fun x => x) (fun x => x) minute_ticks
    (mkCoordinator true ["b"%string] 0 ∅ ∅ (Some 0) None "b" StepStabilize 0 [] [], ∅))) = None.
Proof.
  apply (self_tune_ends (fun x => x) (fun x => x) NewCoordinator ["b"%string] ∅ ∅ (of_Z 60) 0 _ Minute minute_ticks);
    [reflexivity|reflexivity|reflexivity|]. vm_compute. discriminate.
Defined.
