(* ===== verification/Distribution.v ===== *)
(** * Splitting the fleet's power (go/internal/control/dispatch.go)

    [distributeProportional] and the splits it is built from: by capacity, by
    capacity with DC-local solar first, and the scoped manual hold; and the
    projection that keeps a safety snap inside the fleet's target. *)
From S2P Require Import Prelude Float64 GoTime Json Kalman Health Telemetry Limits.
From Stdlib Require Import ZArith Lia.
From stdpp Require Import base gmap strings list.
#[local] Open Scope Z_scope.

Definition clampedTarget (b : batteryInfo) (target : f64) : DispatchTarget :=
  let '(w, was) := clampWithSoC target b in mkTarget (bDriver b) w was.

Definition distributeScopedManualHold (bats : list batteryInfo) (driver : string) (powerW : f64)
  : list DispatchTarget :=
  (fun b => clampedTarget b (if bool_decide (bDriver b = driver) then powerW else of_Z 0)) <$> bats.

Definition distributeByCapacity (bats : list batteryInfo) (desiredTotal totalCap : f64)
  : list DispatchTarget :=
  (fun b => clampedTarget b (fmul desiredTotal (fdiv (capacityWh b) totalCap))) <$> bats.

(** [capByGroup[g]]. *)
Definition capOfGroup (bats : list batteryInfo) (g : string) : f64 :=
  sumF (capacityWh <$> filter (fun b => group b = g) bats).

Section Split.
Context `{MapIter}.

Definition splitByCapacityAndPV (bats : list batteryInfo) (desiredTotal : f64)
    (groupPV : gmap string f64) : list DispatchTarget :=
  let totalCap := sumF (capacityWh <$> bats) in
  if fle totalCap (of_Z 0) then []
  else
    let totalPV :=
      sumF (snd <$> filter (fun gw => flt (of_Z 0) (capOfGroup bats (fst gw)) = true) (map_iter groupPV)) in
    if fle desiredTotal (of_Z 0) || fle totalPV (of_Z 0)
    then distributeByCapacity bats desiredTotal totalCap
    else
      let localCap := fmin desiredTotal totalPV in
      let overflow := fsub desiredTotal localCap in
      (fun b =>
         let capG := capOfGroup bats (group b) in
         let pv := atZero groupPV (group b) in
         let localShare :=
           if flt (of_Z 0) capG && flt (of_Z 0) pv
           then fmul (fmul (fdiv pv totalPV) localCap) (fdiv (capacityWh b) capG)
           else of_Z 0 in
         let overflowShare := fmul overflow (fdiv (capacityWh b) totalCap) in
         clampedTarget b (fadd localShare overflowShare)) <$> bats.

(** Whether a battery cannot move in the demanded direction. *)
Definition blockedFor (desiredTotal : f64) (b : batteryInfo) : bool :=
  if flt (of_Z 0) desiredTotal then chargeBlocked b else dischargeBlocked b.

Definition park (b : batteryInfo) : DispatchTarget := mkTarget (bDriver b) (of_Z 0) true.

Definition distributeProportional (bats : list batteryInfo) (totalCorrection : f64)
    (groupPV : gmap string f64) : list DispatchTarget :=
  let desiredTotal := fadd (sumF (currentW <$> bats)) totalCorrection in
  if fne desiredTotal (of_Z 0) then
    let parked := park <$> filter (fun b => blockedFor desiredTotal b = true) bats in
    let capable := filter (fun b => blockedFor desiredTotal b = false) bats in
    if (0 <? length parked)%nat
    then splitByCapacityAndPV capable desiredTotal groupPV ++ parked
    else splitByCapacityAndPV bats desiredTotal groupPV
  else splitByCapacityAndPV bats desiredTotal groupPV.

(** ** The slew projection *)
Record slewFleetPoint : Type := mkPoint { pIndex : nat; liveW : f64; preSlewW : f64; ordinaryW : f64 }.

Definition epsilonW : f64 := lit 1 1000000.

Definition targetAt (targets : list DispatchTarget) (i : nat) : f64 :=
  match targets !! i with Some t => TargetW t | None => of_Z 0 end.

Definition projectSlewToFleetClamp (targets : list DispatchTarget) (points : list slewFleetPoint)
  : list DispatchTarget :=
  if (length targets =? 0)%nat || (length points =? 0)%nat then targets
  else
    let liveTotalW := sumF (liveW <$> points) in
    let preSlewTotalW := sumF (preSlewW <$> points) in
    let targetTotalW := sumF ((fun p => targetAt targets (pIndex p)) <$> points) in
    let lowerW := fmin liveTotalW preSlewTotalW in
    let upperW := fmax liveTotalW preSlewTotalW in
    if fle (fsub lowerW epsilonW) targetTotalW && fle targetTotalW (fadd upperW epsilonW) then targets
    else
      let boundaryW := if flt upperW targetTotalW then upperW else lowerW in
      let denominatorW := fsub (sumF (ordinaryW <$> points)) targetTotalW in
      let small := fle (fabs denominatorW) epsilonW in
      let fraction0 := if small then of_Z 0 else fdiv (fsub boundaryW targetTotalW) denominatorW in
      let useEndpoint := if small then true else flt fraction0 (of_Z 0) || flt (of_Z 1) fraction0 in
      let fraction := if useEndpoint then of_Z 1 else fraction0 in
      let atLive := fle (fabs (fsub boundaryW liveTotalW)) epsilonW in
      fold_left (fun ts p =>
          alter (fun t =>
              let restoreW := if useEndpoint then (if atLive then liveW p else preSlewW p)
                              else ordinaryW p in
              setW (fadd (TargetW t) (fmul fraction (fsub restoreW (TargetW t)))) t)
            (pIndex p) ts)
        points targets.
End Split.

(** ** Specification *)

(** Capacities as the configuration gives them. *)
Definition capacity_ok (w : f64) : Prop := wf w /\ rank w = 0 /\ le_rel (of_Z 0) w.
Definition fleet_ok (bats : list batteryInfo) : Prop := Forall (fun b => capacity_ok (capacityWh b)) bats.
Definition pv_ok (m : gmap string f64) : Prop := map_Forall (fun _ w => capacity_ok w) m.

(** What a share of the fleet's power may be for one battery. *)
Record share_ok (desired : f64) (b : batteryInfo) (t : DispatchTarget) : Prop := {
  sh_driver : tDriver t = bDriver b;
  sh_low : le_rel (fneg (bDischargeCap b)) (TargetW t);
  sh_high : le_rel (TargetW t) (bChargeCap b);
  sh_empty : fle (soc b) dischargeFloorSoC = true -> le_rel (of_Z 0) (TargetW t);
  sh_pos : le_rel (of_Z 0) desired -> le_rel (of_Z 0) (TargetW t);
  sh_neg : le_rel desired (of_Z 0) -> le_rel (TargetW t) (of_Z 0)
}.

(** ** Lemmas *)
Lemma fold_fadd_ge l : forall acc,
  wf acc -> le_rel (of_Z 0) acc -> Forall (fun x => le_rel (of_Z 0) x) l ->
  le_rel acc (fold_left fadd l acc).
Proof.
  induction l as [|x l IH]; intros acc Ha H0 Hl; cbn [fold_left].
  - apply le_rel_refl. eapply le_rel_nn_r; exact H0.
  - inversion_clear Hl as [|? ? Hx Hl']. pose proof (fadd_of_nonneg _ _ H0 Hx) as Hs.
    eapply le_rel_trans; [|apply IH; [apply fadd_wf|exact Hs|exact Hl']].
    apply fadd_of_ge; [exact Ha|eapply le_rel_nn_r; exact H0|eapply le_rel_nn_r; exact Hs|exact Hx].
Qed.

Lemma sumF_member l x :
  Forall (fun x => le_rel (of_Z 0) x) l -> wf x -> x ∈ l -> le_rel x (sumF l).
Proof.
  intros Hl Hw Hx. unfold sumF.
  assert (G : forall acc, wf acc -> le_rel (of_Z 0) acc -> le_rel x (fold_left fadd l acc));
    [|apply G; [apply of_Z_wf|apply of_Z_mono; lia]].
  induction l as [|y l IH]; [inversion Hx|]. intros acc Ha H0. cbn [fold_left].
  inversion_clear Hl as [|? ? Hy Hl']. pose proof (fadd_of_nonneg _ _ H0 Hy) as Hs.
  apply elem_of_cons in Hx as [<-|Hx].
  - eapply le_rel_trans; [|apply fold_fadd_ge; [apply fadd_wf|exact Hs|exact Hl']].
    rewrite fadd_comm. rewrite fadd_comm in Hs.
    apply fadd_of_ge; [exact Hw|eapply le_rel_nn_r; exact Hy|eapply le_rel_nn_r; exact Hs|exact H0].
  - apply IH; auto using fadd_wf.
Qed.

Lemma fle0_flt x : rank x <> 2 -> fle x (of_Z 0) = false -> flt (of_Z 0) x = true.
Proof. intros Hx H. f64_lia. Qed.

Lemma clampedTarget_share desired b target :
  rank target <> 2 ->
  (le_rel (of_Z 0) desired -> le_rel (of_Z 0) target) ->
  (le_rel desired (of_Z 0) -> le_rel target (of_Z 0)) ->
  share_ok desired b (clampedTarget b target).
Proof.
  intros Hn Hp Hneg. destruct (clampWithSoC_facts target b Hn) as (A & B & C & D & E).
  unfold clampedTarget. destruct (clampWithSoC target b) as [w was]. cbn [fst] in *.
  constructor; cbn [tDriver TargetW]; auto; intros Hd; [apply D|apply E]; auto.
Qed.

Lemma share_nonneg b total :
  capacity_ok (capacityWh b) -> le_rel (capacityWh b) total -> flt (of_Z 0) total = true ->
  rank (fdiv (capacityWh b) total) = 0 /\ le_rel (Fin 0) (fdiv (capacityWh b) total) /\
  le_rel (fdiv (capacityWh b) total) (Fin unit64).
Proof. intros (W & R & N) L P. now apply fdiv_ratio. Qed.

Lemma byCapacity_share bats desired total :
  wf desired -> rank desired = 0 -> fleet_ok bats ->
  (forall b, b ∈ bats -> le_rel (capacityWh b) total) -> flt (of_Z 0) total = true ->
  Forall2 (share_ok desired) bats (distributeByCapacity bats desired total).
Proof.
  intros Wd Rd Hf Hle Hpos. unfold distributeByCapacity. apply Forall2_fmap_r, Forall_Forall2_diag.
  apply Forall_forall. intros b Hb. unfold fleet_ok in Hf. rewrite Forall_forall in Hf.
  destruct (share_nonneg b total (Hf b Hb) (Hle b Hb) Hpos) as (R & K0 & K1).
  destruct (fmul_ratio desired _ Wd Rd K0 K1) as (F & P & N).
  unfold compose. apply clampedTarget_share; [now apply finite_nn|apply P|apply N].
Qed.

Lemma capacities_nonneg bats : fleet_ok bats -> Forall (fun x => le_rel (of_Z 0) x) (capacityWh <$> bats).
Proof. intros H. apply Forall_fmap. eapply Forall_impl; [exact H|]. now intros b (_ & _ & ?). Qed.

Lemma capOfGroup_ge bats b : fleet_ok bats -> b ∈ bats -> le_rel (capacityWh b) (capOfGroup bats (group b)).
Proof.
  intros H Hb. unfold capOfGroup. apply sumF_member.
  - apply capacities_nonneg. unfold fleet_ok in *. rewrite Forall_forall in *.
    intros x Hx. apply list_elem_of_filter in Hx as [_ Hx]. auto.
  - unfold fleet_ok in H. rewrite Forall_forall in H. apply (H b Hb).
  - apply list_elem_of_fmap. exists b. split; [reflexivity|]. now apply list_elem_of_filter.
Qed.

Lemma total_ge bats b : fleet_ok bats -> b ∈ bats -> le_rel (capacityWh b) (sumF (capacityWh <$> bats)).
Proof.
  intros H Hb. apply sumF_member; [now apply capacities_nonneg| |].
  - unfold fleet_ok in H. rewrite Forall_forall in H. apply (H b Hb).
  - apply list_elem_of_fmap. eauto.
Qed.

Lemma sumF_nonneg l : Forall (fun x => le_rel (of_Z 0) x) l -> le_rel (of_Z 0) (sumF l).
Proof. intros H. apply fold_fadd_ge; [apply of_Z_wf|apply of_Z_mono; lia|exact H]. Qed.

Lemma fsub_fmin_rest d x :
  wf d -> rank d = 0 -> le_rel (of_Z 0) d -> le_rel (of_Z 0) x ->
  wf (fsub d (fmin d x)) /\ rank (fsub d (fmin d x)) = 0 /\ le_rel (of_Z 0) (fsub d (fmin d x)).
Proof.
  intros W R D X. assert (NX : rank x <> 2) by (eapply le_rel_nn_r; exact X).
  assert (Hm : rank (fmin d x) = 0 /\ le_rel (fmin d x) d /\ le_rel (of_Z 0) (fmin d x)).
  { destruct (fmin_spec d x (finite_nn _ R) NX) as [[-> L]|[-> L]].
    - split_and!; [exact R|apply le_rel_refl, finite_nn, R|exact D].
    - split_and!; [|exact L|exact X]. clear W. rewrite of_Z_0 in *. unfold le_rel in *. simpl in *. lia. }
  destruct Hm as (Rm & Lm & Pm).
  assert (N : rank (fsub d (fmin d x)) <> 2) by (apply fsub_nn; assumption).
  assert (L0 : le_rel (of_Z 0) (fsub d (fmin d x))).
  { rewrite of_Z_0. apply fsub_nonneg; assumption. }
  split_and!; [apply fsub_wf| |exact L0].
  assert (L1 : le_rel (fsub d (fmin d x)) d).
  { apply fsub_le; [exact W|rewrite <- of_Z_0; exact Pm|now apply finite_nn|exact N]. }
  rewrite of_Z_0 in *. unfold le_rel in *. simpl in *. lia.
Qed.

(** One battery's share of a charge with local solar. *)
Lemma pv_share d pv totalPV k1 k2 (local : bool) :
  wf d -> rank d = 0 -> le_rel (of_Z 0) d ->
  capacity_ok pv -> wf totalPV -> le_rel (of_Z 0) totalPV ->
  (local = true -> le_rel pv totalPV /\ flt (of_Z 0) totalPV = true) ->
  (local = true -> rank k1 = 0 /\ le_rel (Fin 0) k1 /\ le_rel k1 (Fin unit64)) ->
  rank k2 = 0 /\ le_rel (Fin 0) k2 /\ le_rel k2 (Fin unit64) ->
  le_rel (of_Z 0)
    (fadd (if local then fmul (fmul (fdiv pv totalPV) (fmin d totalPV)) k1 else of_Z 0)
          (fmul (fsub d (fmin d totalPV)) k2)).
Proof.
  intros Wd Rd D (Wpv & Rpv & Ppv) Wtot Ptot Hpv Hk1 (R2 & A2 & B2).
  destruct (fsub_fmin_rest d totalPV Wd Rd D Ptot) as (Wo & Ro & Po).
  destruct (fmul_ratio _ k2 Wo Ro A2 B2) as (_ & Po2 & _). specialize (Po2 Po) as [Po2 _].
  apply fadd_of_nonneg; [|exact Po2]. destruct local; [|apply of_Z_mono; lia].
  destruct (Hpv eq_refl) as [L Hpos]. destruct (Hk1 eq_refl) as (R1 & A1 & B1).
  destruct (fdiv_ratio pv totalPV Rpv Ppv L Hpos) as (Rr & Ar & Br).
  assert (Hc : rank (fmin d totalPV) = 0 /\ le_rel (of_Z 0) (fmin d totalPV)).
  { destruct (fmin_spec d totalPV (finite_nn _ Rd) (le_rel_nn_r _ _ Ptot)) as [[-> _]|[-> L']]; [auto|].
    split; [|exact Ptot]. clear - L' Rd Ptot. rewrite of_Z_0 in *. unfold le_rel in *. simpl in *. lia. }
  destruct Hc as [Rc Pc]. rewrite (fmul_comm (fdiv pv totalPV)).
  destruct (fmul_ratio (fmin d totalPV) (fdiv pv totalPV)) as (Rm & Pm & _); auto using fmin_wf.
  destruct (fmul_ratio (fmul (fmin d totalPV) (fdiv pv totalPV)) k1) as (_ & P & _);
    auto using fmul_wf.
  apply P, Pm, Pc.
Qed.

Section SplitFacts.
Context `{MapIter}.

Definition pvTotal (bats : list batteryInfo) (groupPV : gmap string f64) : f64 :=
  sumF (snd <$> filter (fun gw => flt (of_Z 0) (capOfGroup bats (fst gw)) = true) (map_iter groupPV)).

Lemma pvTotal_nonneg bats groupPV : pv_ok groupPV ->
  Forall (fun x => le_rel (of_Z 0) x)
    (snd <$> filter (fun gw => flt (of_Z 0) (capOfGroup bats (fst gw)) = true) (map_iter groupPV)).
Proof.
  intros Hpv. apply Forall_fmap, Forall_forall. intros [g w] Hg.
  apply list_elem_of_filter in Hg as [_ Hg]. rewrite (map_iter_perm _ groupPV) in Hg.
  apply elem_of_map_to_list in Hg. apply (Hpv g w Hg).
Qed.

Lemma pvTotal_member bats groupPV g :
  pv_ok groupPV -> flt (of_Z 0) (capOfGroup bats g) = true -> flt (of_Z 0) (atZero groupPV g) = true ->
  le_rel (atZero groupPV g) (pvTotal bats groupPV).
Proof.
  intros Hpv Hcap Hw. unfold atZero in *. destruct (groupPV !! g) as [w|] eqn:E.
  2: { exfalso. clear - Hw. cbn in Hw. apply (flt_le_contra _ _ Hw), of_Z_mono; lia. }
  cbn [default] in *. apply sumF_member; [now apply pvTotal_nonneg|apply (Hpv g w E)|].
  apply list_elem_of_fmap. exists (g, w). split; [reflexivity|].
  apply list_elem_of_filter. split; [exact Hcap|].
  rewrite (map_iter_perm _ groupPV). now apply elem_of_map_to_list.
Qed.

Lemma sumF_wf l : wf (sumF l).
Proof.
  unfold sumF. assert (G : forall acc, wf acc -> wf (fold_left fadd l acc)); [|apply G, of_Z_wf].
  induction l as [|x l IH]; intros acc Ha; cbn [fold_left]; [exact Ha|]. apply IH, fadd_wf.
Qed.

Lemma split_shares bats desired groupPV :
  wf desired -> rank desired = 0 -> fleet_ok bats -> pv_ok groupPV ->
  splitByCapacityAndPV bats desired groupPV = [] \/
  Forall2 (share_ok desired) bats (splitByCapacityAndPV bats desired groupPV).
Proof.
  intros Wd Rd Hf Hpv. unfold splitByCapacityAndPV. fold (pvTotal bats groupPV).
  pose proof (sumF_nonneg _ (capacities_nonneg bats Hf)) as Ht.
  destruct (fle (sumF (capacityWh <$> bats)) (of_Z 0)) eqn:Et; [now left|right].
  apply fle0_flt in Et; [|eapply le_rel_nn_r; exact Ht].
  pose proof (fun b Hb => total_ge bats b Hf Hb) as Hle.
  destruct (fle desired (of_Z 0) || fle (pvTotal bats groupPV) (of_Z 0)) eqn:Eb.
  { now apply byCapacity_share. }
  apply orb_false_iff in Eb as [Ed Ep]. apply fle0_flt in Ed; [|now apply finite_nn].
  pose proof (sumF_nonneg _ (pvTotal_nonneg bats groupPV Hpv)) as Hp0.
  fold (pvTotal bats groupPV) in Hp0. apply fle0_flt in Ep; [|eapply le_rel_nn_r; exact Hp0].
  apply Forall2_fmap_r, Forall_Forall2_diag, Forall_forall. intros b Hb. unfold compose.
  assert (Hb' : capacity_ok (capacityWh b)) by (unfold fleet_ok in Hf; rewrite Forall_forall in Hf; auto).
  match goal with |- share_ok _ _ (clampedTarget _ ?x) => set (share := x) end.
  assert (P : le_rel (of_Z 0) share).
  { apply pv_share; auto; [now apply flt_le| |apply sumF_wf| | |apply share_nonneg; [exact Hb'|apply Hle, Hb|exact Et]].
    - unfold atZero. destruct (groupPV !! group b) as [w|] eqn:E; [exact (Hpv _ _ E)|].
      split_and!; [apply of_Z_wf|apply of_Z_rank; lia|apply of_Z_mono; lia].
    - intros Hl. apply andb_true_iff in Hl as [Hc Hw]. split; [now apply pvTotal_member|exact Ep].
    - intros Hl. apply andb_true_iff in Hl as [Hc Hw].
      apply share_nonneg; [exact Hb'|now apply capOfGroup_ge|exact Hc]. }
  apply clampedTarget_share; [eapply le_rel_nn_r; exact P|auto|].
  intros Hd. destruct (flt_le_contra _ _ Ed Hd).
Qed.

Definition capableOf (desired : f64) (bats : list batteryInfo) : list batteryInfo :=
  filter (fun b => blockedFor desired b = false) bats.
Definition stuckOf (desired : f64) (bats : list batteryInfo) : list batteryInfo :=
  filter (fun b => blockedFor desired b = true) bats.

(** Every result is a split over the batteries that can move, then the parked
    rest. *)
Lemma distribute_shape bats corr groupPV :
  let desired := fadd (sumF (currentW <$> bats)) corr in
  distributeProportional bats corr groupPV =
    if decide (desired = of_Z 0) then splitByCapacityAndPV bats desired groupPV
    else splitByCapacityAndPV (capableOf desired bats) desired groupPV ++
         (park <$> stuckOf desired bats).
Proof.
  intros desired. unfold distributeProportional. fold desired.
  fold (capableOf desired bats) (stuckOf desired bats). destruct (decide (desired = of_Z 0)) as [Ez|Ez].
  - replace (fne desired (of_Z 0)) with false; [reflexivity|].
    symmetry. unfold fne. rewrite Ez. reflexivity.
  - replace (fne desired (of_Z 0)) with true.
    2: { symmetry. unfold fne. destruct (feq desired (of_Z 0)) eqn:E; [|reflexivity].
         now apply feq_eq in E. }
    destruct (stuckOf desired bats) as [|b0 stuck] eqn:Es; [|reflexivity].
    cbn [fmap list_fmap length Nat.ltb Nat.leb]. rewrite app_nil_r. unfold capableOf.
    rewrite filter_all; [reflexivity|]. intros b Hb. destruct (blockedFor desired b) eqn:E; [|reflexivity].
    assert (Hin : b ∈ stuckOf desired bats) by (apply list_elem_of_filter; auto).
    rewrite Es in Hin. inversion Hin.
Qed.

Lemma park_share desired b : share_ok desired b (park b).
Proof.
  assert (Hz : le_rel (of_Z 0) (of_Z 0)) by (apply of_Z_mono; lia).
  constructor; cbn [park tDriver TargetW]; auto; [apply neg_cap_nonpos|]; apply effectivePowerLimit_nn.
Qed.

Lemma shares_drivers desired bs ts : Forall2 (share_ok desired) bs ts -> tDriver <$> ts = bDriver <$> bs.
Proof.
  intros F. induction F as [|b t bs ts Hb _ IH]; [reflexivity|].
  rewrite !fmap_cons, IH. f_equal. apply (sh_driver _ _ _ Hb).
Qed.

Lemma shares_members desired (Q : batteryInfo -> DispatchTarget -> Prop) bats bs ts :
  Forall2 (share_ok desired) bs ts -> bs ⊆ bats ->
  (forall b t, b ∈ bs -> share_ok desired b t -> Q b t) ->
  Forall (fun t => exists b, b ∈ bats /\ share_ok desired b t /\ Q b t) ts.
Proof.
  intros F. induction F as [|b t bs ts Hb _ IH]; intros Hsub HQ; constructor.
  - exists b. split_and!; [apply Hsub; now left|exact Hb|apply HQ; [now left|exact Hb]].
  - apply IH; [set_solver|]. intros b' t' Hb'. apply HQ. now right.
Qed.

(** ** Properties *)

End SplitFacts.

