(* ===== verification/CommandLog.v ===== *)
(** * Core's own recent commands (go/internal/control/ev_fuse_budget.go)

    The log of commands per device that the site meter may or may not show
    yet, and one charger's offers. No device reading enters here. A Go slice
    is a list, oldest first. *)
From Stdlib Require Import ZArith Lia Sorted.
From S2P Require Import Prelude Float64 GoTime Json Kalman Health Telemetry Limits.
From stdpp Require Import base gmap strings list sorting.
#[local] Open Scope Z_scope.

(** [evSettle] is loadpoint.CommandSettle, 20 s. *)
Definition evSettle : Duration := 20 * Second.
Definition evUnknownSettle : Duration := 3 * Minute.
Definition evStepA : f64 := of_Z 1.
Definition evMoveA : f64 := fdiv evStepA (of_Z 2).

Record sentCommand : Type := mkSent { at_ : Time; cw : f64; ca : f64; cn : Z }.
Definition noCommand : sentCommand := mkSent zeroTime (of_Z 0) (of_Z 0) 0.

Definition commandLog : Type := list sentCommand.

(** Drop the commands that were replaced at or before [from]. *)
Fixpoint dropReplaced (from : Time) (l : commandLog) : commandLog :=
  match l with
  | c :: ((d :: _) as rest) => if negb (After (at_ d) from) then dropReplaced from rest else l
  | _ => l
  end.

Definition keep (l : commandLog) (c : sentCommand) (from : Time) : commandLog :=
  dropReplaced from (l ++ [c]).

Definition addCommand (l : commandLog) (now : Time) (w : f64) : commandLog :=
  keep l (mkSent now w (of_Z 0) 0) (GoTime.Add now (- evSettle)).

(** The commands [span] reads: those not replaced before the window opened. *)
Fixpoint shown (now : Time) (l : commandLog) : commandLog :=
  match l with
  | c :: ((d :: _) as rest) =>
      if evSettle <=? Sub now (at_ d) then shown now rest else c :: shown now rest
  | _ => l
  end.

Record spanned : Type := mkSpan { spLow : f64; spHigh : f64; spLatest : f64 }.

Definition spanStep (acc : option spanned) (c : sentCommand) : option spanned :=
  match acc with
  | None => Some (mkSpan (cw c) (cw c) (cw c))
  | Some s =>
      Some (mkSpan (if flt (cw c) (spLow s) then cw c else spLow s)
              (if flt (spHigh s) (cw c) then cw c else spHigh s) (cw c))
  end.

(** [None] is the code's [ok = false]. *)
Definition span (l : commandLog) (now : Time) : option spanned :=
  match fold_left spanStep (shown now l) None with
  | None => None
  | Some s =>
      match l with
      | c :: _ =>
          if Sub now (at_ c) <? evSettle
          then Some (mkSpan (fmin (spLow s) (of_Z 0)) (fmax (spHigh s) (of_Z 0)) (spLatest s))
          else Some s
      | [] => Some s
      end
  end.

(** ** What a reading does not show yet *)
Record unshownAcc : Type := mkUnshown {
  settledW : f64; settledA : f64; lowW : f64; lowA : f64; highW : f64; highA : f64
}.

Definition unshownStep (at' from : Time) (s : unshownAcc) (c : sentCommand) : unshownAcc :=
  if negb (After (at_ c) from) then mkUnshown (cw c) (ca c) (lowW s) (lowA s) (highW s) (highA s)
  else
    let hW := if flt (cw c) (highW s) then cw c else highW s in
    let hA := if flt (ca c) (highA s) then ca c else highA s in
    let seen_ := negb (After (at_ c) at') in
    mkUnshown (settledW s) (settledA s)
      (if seen_ then fmin (lowW s) (cw c) else lowW s)
      (if seen_ then fmin (lowA s) (ca c) else lowA s)
      (fmax hW (cw c)) (fmax hA (ca c)).

Definition unshown (l : commandLog) (at' : Time) (settle : Duration) : f64 * f64 :=
  let from := GoTime.Add at' (- settle) in
  let s := fold_left (unshownStep at' from) l
             (mkUnshown (of_Z 0) (of_Z 0) (Inf false) (Inf false) (Inf true) (Inf true)) in
  (fmax (of_Z 0) (fsub (highW s) (fmin (lowW s) (settledW s))),
   fmax (of_Z 0) (fsub (highA s) (fmin (lowA s) (settledA s)))).

Record toComeAcc : Type := mkToCome {
  tcLowW : f64; tcLowA : f64; tcPrev : sentCommand; tcCutW : bool; tcCutA : bool; tcOther : bool
}.

Definition toComeStep (from at' : Time) (latestN : Z) (s : toComeAcc) (c : sentCommand) : toComeAcc :=
  if negb (After (at_ c) from) || After (at_ c) at' then s
  else
    let cutW := tcCutW s || flt (cw c) (cw (tcPrev s)) in
    let cutA := tcCutA s || flt (ca c) (ca (tcPrev s)) in
    mkToCome (if negb cutW then fmin (tcLowW s) (cw c) else tcLowW s)
      (if negb cutA then fmin (tcLowA s) (ca c) else tcLowA s)
      c cutW cutA
      (tcOther s || (flt (of_Z 0) (ca c) && negb (cn c =? latestN))).

(** The offer in force at [from], and the latest one. *)
Definition settledAndLatest (l : commandLog) (from : Time) (before : sentCommand)
  : sentCommand * sentCommand :=
  fold_left (fun '(settled, _) c => (if negb (After (at_ c) from) then c else settled, c)) l (before, before).

Definition toCome (l : commandLog) (from at' : Time) (before : sentCommand) : f64 * f64 :=
  let '(settled, latest) := settledAndLatest l from before in
  let other := flt (of_Z 0) (ca settled) && negb (cn settled =? cn latest) in
  let s := fold_left (toComeStep from at' (cn latest)) l
             (mkToCome (cw settled) (ca settled) settled false false other) in
  (fsub (cw latest) (tcLowW s),
   fsub (ca latest) (if tcOther s then of_Z 0 else tcLowA s)).

(** ** One charger's offers *)
Record evDraw : Type := mkDraw { dAt : Time; dGot : Time; dSeen : Time; dConfirmed : bool; dW : f64 }.

Definition mergeDraw (e d : evDraw) : evDraw :=
  let adopt := dConfirmed d && After (dSeen d) (dSeen e) in
  mkDraw (dAt e) (if Before (dGot d) (dGot e) then dGot d else dGot e)
    (if adopt then dSeen d else dSeen e) (if adopt then true else dConfirmed e)
    (fmin (dW e) (dW d)).

Record chargerOffers : Type := mkOffers {
  oLog : commandLog;
  settle : Duration;
  declared : bool;
  found : sentCommand;
  oDriver : string;
  maxW : f64;
  draws : list evDraw;
  watchFrom : Time;
  carPhases : Z;
  carPhase : Z;
  shownA : list f64;
  unsure : bool;
  riseBaseA : list f64;
  riseFromA : f64;
  riseSet : bool
}.

Definition readable (c : chargerOffers) : bool :=
  match oLog c with
  | [] => false
  | o0 :: _ => forallb (fun o => cn o =? cn o0) (oLog c)
  end.

Definition offerRangeA (c : chargerOffers) (at' : Time) : f64 * f64 :=
  let from := GoTime.Add at' (- settle c) in
  fold_left (fun '(low, high) o =>
      if After (at_ o) at' then (low, high)
      else if negb (After (at_ o) from) then (ca o, ca o)
      else (fmin low (ca o), fmax high (ca o)))
    (oLog c) (ca (found c), ca (found c)).

Definition batterySettle (c : chargerOffers) : Duration :=
  if declared c then settle c else evSettle.

Definition foundOpen (c : chargerOffers) (at' : Time) : bool :=
  negb (IsZero (at_ (found c))) && (Sub at' (at_ (found c)) <? settle c).

Definition arrivedBy (c : chargerOffers) (d : evDraw) (edge : Time) : bool :=
  negb (IsZero (watchFrom c)) && After (dGot d) (watchFrom c) && negb (After (dGot d) edge).

(** ** The shape of an order landing *)
Record moveAcc : Type := mkMove {
  mvSum : f64; mvHeld : Z; mvMoved : Z; mvD1 : f64; mvP1 : Z; mvLo : f64; mvHi : f64
}.

Definition moveStep (s : moveAcc) (x : nat * (f64 * f64)) : moveAcc :=
  let '(i, (p, n)) := x in
  let d := fsub n p in
  let big := fle (fmul (of_Z 2) evMoveA) (fabs d) in
  let held := negb big && flt (fabs d) evMoveA in
  mkMove (fadd (mvSum s) d) (if held then mvHeld s + 1 else mvHeld s)
    (if big then mvMoved s + 1 else mvMoved s)
    (if big then d else mvD1 s) (if big then Z.of_nat i else mvP1 s)
    (fmin (mvLo s) d) (fmax (mvHi s) d).

(** [(alikeA, oneA, phase)]. *)
Definition chargerMoveA (prev now : list f64) : f64 * f64 * Z :=
  let s := fold_left moveStep (zip (seq 0 (length now)) (zip prev now))
             (mkMove (of_Z 0) 0 0 (of_Z 0) 0 (Inf false) (Inf true)) in
  let n := Z.of_nat (length now) in
  let mean := fdiv (mvSum s) (of_Z n) in
  if fle (fsub (mvHi s) (mvLo s)) (fmul (of_Z 2) evMoveA) &&
     ((flt (of_Z 0) (mvLo s) && fle evMoveA mean) ||
      (flt (mvHi s) (of_Z 0) && fle mean (fneg evMoveA)))
  then (mean, of_Z 0, 0)
  else if (mvMoved s =? 1) && (mvHeld s =? n - 1) then (of_Z 0, mvD1 s, mvP1 s + 1)
  else (of_Z 0, of_Z 0, 0).

Definition evHeadroomW (ceiling gridW poolW : f64) : f64 :=
  if negb (finite ceiling) || negb (finite gridW) || negb (finite poolW) ||
     fle ceiling (of_Z 0) || flt poolW (of_Z 0) then of_Z 0
  else fmax (of_Z 0) (fadd (fsub ceiling gridW) poolW).

(** ** A whole history of commands *)
Definition sent (h : list (Time * f64)) : commandLog :=
  (fun '(t, w) => mkSent t w (of_Z 0) 0) <$> h.
Definition logOf (h : list (Time * f64)) : commandLog :=
  fold_left (fun l '(t, w) => addCommand l t w) h [].

(** ** Lemmas *)
Lemma evSettle_eq : evSettle = 20000000000.
Proof. reflexivity. Qed.

Definition byTime (c d : sentCommand) : Prop := at_ c <= at_ d.

(** Times are less than 292 years apart, the range of a Go duration. *)
Definition near (now : Time) (l : commandLog) : Prop :=
  Forall (fun c => min_int64 < now - at_ c < max_int64) l.

Lemma settled_iff now t :
  min_int64 < now - t < max_int64 -> (evSettle <=? Sub now t) = (evSettle <=? now - t).
Proof. intros H. apply Sub_ge. rewrite evSettle_eq. unfold min_int64, max_int64. lia. Qed.

Lemma dropReplaced_cons from c d rest :
  dropReplaced from (c :: d :: rest) =
  if negb (After (at_ d) from) then dropReplaced from (d :: rest) else c :: d :: rest.
Proof. reflexivity. Qed.

Lemma shown_cons now c d rest :
  shown now (c :: d :: rest) =
  if evSettle <=? Sub now (at_ d) then shown now (d :: rest) else c :: shown now (d :: rest).
Proof. reflexivity. Qed.

(** The log after dropping, as a suffix of what it was: either nothing was
    dropped, or its first command was in force when the window opened. *)
Lemma dropReplaced_suffix from l :
  exists p, l = p ++ dropReplaced from l /\
    (p = [] \/ exists c rest, dropReplaced from l = c :: rest /\ at_ c <= from).
Proof.
  induction l as [|c [|d rest] IH]; [exists []; auto..|].
  rewrite dropReplaced_cons. destruct (After (at_ d) from) eqn:E; cbn [negb]; [exists []; auto|].
  unfold After in E. apply Z.ltb_ge in E.
  destruct IH as (p & Ep & H). exists (c :: p). split; [cbn [app]; f_equal; exact Ep|right].
  destruct H as [->|H]; [|exact H]. cbn [app] in Ep. exists d, rest. auto.
Qed.

(** [span] skips what came before a command that has settled. *)
Lemma shown_skip now p c rest :
  StronglySorted byTime (p ++ c :: rest) -> near now (p ++ c :: rest) -> at_ c <= now - evSettle ->
  shown now (p ++ c :: rest) = shown now (c :: rest).
Proof.
  intros Hs Hn Hc.
  induction p as [|a p IH]; [reflexivity|]. cbn [app] in *.
  inversion_clear Hs as [|? ? Hs' Ha]. inversion_clear Hn as [|? ? _ Hn'].
  rewrite <- IH by assumption. destruct (p ++ c :: rest) as [|d q] eqn:E.
  { now destruct p. }
  rewrite shown_cons. inversion_clear Hn' as [|? ? Hd _]. rewrite settled_iff by exact Hd.
  replace (evSettle <=? now - at_ d) with true; [reflexivity|]. symmetry. apply Z.leb_le.
  assert (Hdc : byTime d c).
  { inversion_clear Hs' as [|? ? _ Hd']. destruct p as [|b p]; injection E as <- <-.
    - unfold byTime. lia.
    - rewrite Forall_app in Hd'. destruct Hd' as [_ Hd']. now inversion_clear Hd'. }
  unfold byTime in Hdc. lia.
Qed.

(** A log that lost only commands from before a settled one reads the same. *)
Lemma span_suffix now p l :
  StronglySorted byTime (p ++ l) -> near now (p ++ l) ->
  (p = [] \/ exists c rest, l = c :: rest /\ at_ c <= now - evSettle) ->
  span (p ++ l) now = span l now.
Proof.
  intros Hs Hn [->|(c & rest & -> & Hc)]; [reflexivity|].
  destruct p as [|a p]; [reflexivity|].
  unfold span. rewrite shown_skip by assumption. cbn [app].
  inversion_clear Hs as [|? ? _ Ha].
  apply Forall_app in Ha as [_ Ha]. inversion_clear Ha as [|? ? Hac _]. unfold byTime in Hac.
  inversion_clear Hn as [|? ? Hna Hn']. apply Forall_app in Hn' as [_ Hn'].
  inversion_clear Hn' as [|? ? Hnc _].
  rewrite !Z.ltb_antisym, (settled_iff now (at_ a) Hna), (settled_iff now (at_ c) Hnc).
  replace (evSettle <=? now - at_ a) with true by (symmetry; apply Z.leb_le; lia).
  replace (evSettle <=? now - at_ c) with true by (symmetry; apply Z.leb_le; lia). reflexivity.
Qed.

Lemma logOf_snoc h t w : logOf (h ++ [(t, w)]) = addCommand (logOf h) t w.
Proof. unfold logOf. rewrite fold_left_app. reflexivity. Qed.

Lemma sent_snoc h t w : sent (h ++ [(t, w)]) = sent h ++ [mkSent t w (of_Z 0) 0].
Proof. unfold sent. now rewrite fmap_app. Qed.

(** What a log built over a history has lost. *)
Lemma logOf_suffix h :
  StronglySorted byTime (sent h) ->
  exists p, sent h = p ++ logOf h /\
    (p = [] \/ exists c rest, logOf h = c :: rest /\
       forall t w, last h = Some (t, w) -> at_ c <= t - evSettle).
Proof.
  induction h as [|[t w] h IH] using rev_ind; intros Hs; [exists []; auto|].
  rewrite sent_snoc in *. rewrite logOf_snoc. unfold addCommand, keep, GoTime.Add.
  set (x := mkSent t w (of_Z 0) 0) in *.
  apply StronglySorted_app in Hs as (Hall & Hs0 & _).
  destruct (IH Hs0) as (p & Ep & Hp). set (l := logOf h) in *.
  destruct (dropReplaced_suffix (t + - evSettle) (l ++ [x])) as (q & Eq & Hq).
  exists (p ++ q). rewrite <- app_assoc, <- Eq. split.
  { rewrite Ep. now rewrite <- app_assoc. }
  assert (Hlast : forall t' w', last (h ++ [(t, w)]) = Some (t', w') -> t' = t).
  { intros t' w' E. rewrite last_snoc in E. now injection E. }
  destruct Hq as [->|(c & rest & E & Hc)].
  - destruct Hp as [->|(c & rest & El & Hc)]; [now left|right].
    cbn [app] in Eq. rewrite <- Eq, El. cbn [app]. exists c, (rest ++ [x]). split; [reflexivity|].
    intros t' w' E. apply Hlast in E as ->.
    destruct (last h) as [[t0 w0]|] eqn:E0.
    2: { apply last_None in E0. subst h. cbn in El. discriminate El. }
    specialize (Hc _ _ eq_refl).
    assert (t0 <= t).
    { apply last_Some in E0 as (h' & ->). rewrite sent_snoc in Hall.
      assert (Hb : byTime (mkSent t0 w0 (of_Z 0) 0) x); [|exact Hb].
      apply Hall; [apply elem_of_app; right; now left|now left]. }
    lia.
  - right. exists c, rest. split; [exact E|]. intros t' w' El. apply Hlast in El as ->. lia.
Qed.

Lemma spanStep_fold l : forall s,
  rank (spLow s) <> 2 -> rank (spHigh s) <> 2 -> Forall (fun c => rank (cw c) <> 2) l ->
  exists s', fold_left spanStep l (Some s) = Some s' /\
    rank (spLow s') <> 2 /\ rank (spHigh s') <> 2 /\
    le_rel (spLow s') (spLow s) /\ le_rel (spHigh s) (spHigh s') /\
    Forall (fun c => le_rel (spLow s') (cw c) /\ le_rel (cw c) (spHigh s')) l /\
    spLatest s' = default (spLatest s) (cw <$> last l).
Proof.
  induction l as [|c l IH]; intros s Hlo Hhi Hl.
  - exists s. cbn. split_and!; auto using le_rel_refl.
  - inversion_clear Hl as [|? ? Hc Hl']. cbn [fold_left spanStep].
    set (s1 := mkSpan _ _ _).
    assert (L1 : le_rel (spLow s1) (spLow s) /\ le_rel (spLow s1) (cw c)).
    { cbn. destruct (flt (cw c) (spLow s)) eqn:E.
      - split; [now apply flt_le|now apply le_rel_refl].
      - split; [now apply le_rel_refl|now apply flt_false]. }
    assert (H1 : le_rel (spHigh s) (spHigh s1) /\ le_rel (cw c) (spHigh s1)).
    { cbn. destruct (flt (spHigh s) (cw c)) eqn:E.
      - split; [now apply flt_le|now apply le_rel_refl].
      - split; [now apply le_rel_refl|now apply flt_false]. }
    destruct L1 as [L1 L2], H1 as [H1 H2].
    destruct (IH s1) as (s' & E & N1 & N2 & A & B & F & La); auto;
      [eapply le_rel_nn_l; exact L1|eapply le_rel_nn_r; exact H1|].
    exists s'. split_and!; auto; [eapply le_rel_trans; eassumption..| |].
    + constructor; [|exact F]. split; eapply le_rel_trans; eassumption.
    + rewrite La. destruct l as [|d l]; [reflexivity|].
      change (last (c :: d :: l)) with (last (d :: l)).
      destruct (last (d :: l)) eqn:E'; [reflexivity|]. now apply last_None in E'.
Qed.

Lemma shown_last now l : last (shown now l) = last l.
Proof.
  induction l as [|c [|d rest] IH]; [reflexivity..|]. rewrite shown_cons.
  change (last (c :: d :: rest)) with (last (d :: rest)). rewrite <- IH.
  destruct (evSettle <=? Sub now (at_ d)); [reflexivity|].
  destruct (shown now (d :: rest)) eqn:E; [|reflexivity].
  symmetry in IH. apply last_None in IH. discriminate IH.
Qed.

Lemma shown_sublist now l : forall c, c ∈ shown now l -> c ∈ l.
Proof.
  induction l as [|a [|d rest] IH]; intros c Hc; [exact Hc..|]. rewrite shown_cons in Hc.
  destruct (evSettle <=? Sub now (at_ d)); [right; auto|].
  apply elem_of_cons in Hc as [->|Hc]; [now left|right; auto].
Qed.

Lemma span_bounds l now s :
  Forall (fun c => rank (cw c) <> 2) l -> span l now = Some s ->
  rank (spLow s) <> 2 /\ rank (spHigh s) <> 2 /\
  Forall (fun c => le_rel (spLow s) (cw c) /\ le_rel (cw c) (spHigh s)) (shown now l) /\
  Some (spLatest s) = cw <$> last l.
Proof.
  intros Hl Hs. unfold span in Hs.
  assert (Hsh : Forall (fun c => rank (cw c) <> 2) (shown now l)).
  { rewrite Forall_forall in *. intros c Hc. apply Hl, (shown_sublist now), Hc. }
  pose proof (shown_last now l) as Hlast.
  destruct (shown now l) as [|c rest]; [discriminate Hs|]. cbn [fold_left spanStep] in Hs.
  inversion_clear Hsh as [|? ? Hc Hrest].
  destruct (spanStep_fold rest (mkSpan (cw c) (cw c) (cw c)) Hc Hc Hrest)
    as (s1 & E & N1 & N2 & A & B & F & La). rewrite E in Hs. cbn [spLow spHigh spLatest] in *.
  assert (F' : Forall (fun c => le_rel (spLow s1) (cw c) /\ le_rel (cw c) (spHigh s1)) (c :: rest)).
  { constructor; auto. }
  assert (La' : Some (spLatest s1) = cw <$> last l).
  { rewrite <- Hlast, La. destruct rest as [|d rest]; [reflexivity|].
    change (last (c :: d :: rest)) with (last (d :: rest)).
    destruct (last (d :: rest)) eqn:E'; [reflexivity|]. now apply last_None in E'. }
  destruct l as [|c0 l0]; [injection Hs as <-; auto|].
  destruct (Sub now (at_ c0) <? evSettle); injection Hs as <-; [|auto].
  cbn [spLow spHigh spLatest]. assert (H0 : rank (of_Z 0) <> 2) by f64_nn.
  destruct (fmin_spec (spLow s1) (of_Z 0) N1 H0) as [[-> Lm]|[-> Lm]];
    destruct (fmax_spec (spHigh s1) (of_Z 0) N2 H0) as [[-> Lx]|[-> Lx]];
    split_and!; auto; (eapply Forall_impl; [exact F'|]); cbn; intros d [D1 D2];
    split; eauto using le_rel_trans.
Qed.

Lemma fold_unshown_settled at' from l : forall s,
  Forall (fun c => at_ c <= from) l ->
  lowW (fold_left (unshownStep at' from) l s) = lowW s /\
  lowA (fold_left (unshownStep at' from) l s) = lowA s /\
  highW (fold_left (unshownStep at' from) l s) = highW s /\
  highA (fold_left (unshownStep at' from) l s) = highA s.
Proof.
  induction l as [|c l IH]; intros s H; [auto|]. inversion_clear H as [|? ? Hc Hl].
  cbn [fold_left]. destruct (IH (unshownStep at' from s c) Hl) as (-> & -> & -> & ->).
  unfold unshownStep. replace (After (at_ c) from) with false; [auto|].
  symmetry. apply Z.ltb_ge. exact Hc.
Qed.

Lemma fsub_inf x : rank x = 0 \/ x = Inf false -> fsub (Inf true) x = Inf true.
Proof. intros [H| ->]; [|reflexivity]. destruct x as [|[]|a]; try discriminate H. reflexivity. Qed.

Lemma settled_fold_finite at' from l : forall s,
  Forall (fun c => rank (cw c) = 0 /\ rank (ca c) = 0) l ->
  rank (settledW s) = 0 -> rank (settledA s) = 0 ->
  rank (settledW (fold_left (unshownStep at' from) l s)) = 0 /\
  rank (settledA (fold_left (unshownStep at' from) l s)) = 0.
Proof.
  induction l as [|c l IH]; intros s H R1 R2; [auto|]. inversion_clear H as [|? ? [C1 C2] Hl].
  cbn [fold_left]. apply IH; [exact Hl|unfold unshownStep; case_match; assumption..].
Qed.

Lemma fmin_infty_l x : rank x = 0 -> fmin (Inf false) x = x.
Proof. destruct x as [|[]|a]; try discriminate. reflexivity. Qed.

(** ** Properties *)

(** Cutting the log loses nothing. However many commands a device got,
    in time order, the short log reads exactly like the whole history: the
    same lowest, highest and latest command the site meter may show. Every
    command in force in the last 20 s lies between the two, and the latest is
    the last one sent. *)
Theorem span_of_whole_history (h : list (Time * f64)) (now : Time) :
  StronglySorted byTime (sent h) -> near now (sent h) ->
  Forall (fun tw => fst tw <= now /\ rank (snd tw) <> 2) h ->
  span (logOf h) now = span (sent h) now /\
  forall s, span (logOf h) now = Some s ->
    Forall (fun c => le_rel (spLow s) (cw c) /\ le_rel (cw c) (spHigh s)) (shown now (sent h)) /\
    Some (spLatest s) = snd <$> last h.
Proof.
  intros Hs Hn Hh. destruct (logOf_suffix h Hs) as (p & Ep & Hp).
  assert (E : span (logOf h) now = span (sent h) now).
  { rewrite Ep. symmetry. rewrite Ep in Hs, Hn. apply span_suffix; [exact Hs|exact Hn|].
    destruct Hp as [->|(c & rest & El & Hc)]; [now left|right]. exists c, rest. split; [exact El|].
    destruct (last h) as [[t w]|] eqn:Et.
    - specialize (Hc _ _ eq_refl). apply last_Some_elem_of in Et.
      rewrite Forall_forall in Hh. specialize (Hh _ Et). cbn in Hh. lia.
    - apply last_None in Et. subst h. cbn in El. discriminate El. }
  split; [exact E|]. intros s Hsp. rewrite E in Hsp.
  destruct (span_bounds (sent h) now s) as (_ & _ & F & La); [|exact Hsp|].
  { unfold sent. apply Forall_fmap. eapply Forall_impl; [exact Hh|]. now intros [t w] [_ Hw]. }
  split; [exact F|]. rewrite La. unfold sent. rewrite fmap_last.
  destruct (last h) as [[t w]|]; reflexivity.
Qed.

Lemma span_of_whole_history_witness :
  let h := [(1 * Minute, of_Z 4000); (90 * Second, of_Z 1000); (2 * Minute + 5 * Second, of_Z (-500))] in
  length (logOf h) = 2%nat /\
  span (logOf h) (2 * Minute + 10 * Second) = span (sent h) (2 * Minute + 10 * Second).
Proof.
  intros h. split; [vm_compute; reflexivity|].
  refine (proj1 (span_of_whole_history h (2 * Minute + 10 * Second) _ _ _)).
  - repeat constructor; unfold byTime; vm_compute; discriminate.
  - repeat constructor; vm_compute; auto.
  - repeat (constructor; [split; [vm_compute; discriminate|apply of_Z_nn; lia]|]). constructor.
Defined.

(** An offer is reserved only until its charger can have applied it: what
    a reading may still not show is exactly zero, in watts and in amps, once
    every offer is older than the charger's settle time. *)
Theorem unshown_settles (l : commandLog) (at' : Time) (d : Duration) :
  Forall (fun c => rank (cw c) = 0 /\ rank (ca c) = 0 /\ at_ c <= at' - d) l ->
  unshown l at' d = (of_Z 0, of_Z 0).
Proof.
  intros H. unfold unshown. cbv zeta. unfold GoTime.Add. set (from := at' + - d).
  destruct (fold_unshown_settled at' from l
              (mkUnshown (of_Z 0) (of_Z 0) (Inf false) (Inf false) (Inf true) (Inf true)))
    as (-> & -> & -> & ->).
  { eapply Forall_impl; [exact H|]. cbn. unfold from. intros; lia. }
  cbn [lowW lowA highW highA].
  destruct (settled_fold_finite at' from l
     (mkUnshown (of_Z 0) (of_Z 0) (Inf false) (Inf false) (Inf true) (Inf true))) as [R1 R2];
    [eapply Forall_impl; [exact H|]; intros c (? & ? & _); auto|apply of_Z_rank; lia..|].
  rewrite !fmin_infty_l by assumption. rewrite !fsub_inf by auto. reflexivity.
Qed.

Lemma unshown_settles_witness :
  unshown [mkSent (1 * Minute) (of_Z 11000) (of_Z 16) 3] (5 * Minute) evUnknownSettle = (of_Z 0, of_Z 0) /\
  unshown [mkSent (1 * Minute) (of_Z 11000) (of_Z 16) 3] (2 * Minute) evUnknownSettle = (of_Z 11000, of_Z 16).
Proof.
  split; [|vm_compute; reflexivity]. apply unshown_settles.
  repeat constructor; try (apply of_Z_rank; lia). vm_compute. discriminate.
Defined.
