(* ===== verification/Site.v ===== *)
(** * The site's settings and its plan slot (go/internal/control)

    Modes, manual holds, the fuse and the peak limit, the plan slot's
    directive with its execution time, and the settings of [State] that the
    operations of this library read and do not write. *)
From Stdlib Require Import ZArith Lia.
From S2P Require Import Prelude Float64 GoTime Json Kalman Health Telemetry Limits Units.
From S2P Require Import CommandLog PIController.
From stdpp Require Import base gmap strings list.
#[local] Open Scope Z_scope.

(** ** Modes *)
Definition Mode : Type := string.
Definition ModeIdle : Mode := "idle".
Definition ModeSelfConsumption : Mode := "self_consumption".
Definition ModePeakShaving : Mode := "peak_shaving".
Definition ModeCharge : Mode := "charge".
Definition ModePlannerSelf : Mode := "planner_self".
Definition ModePlannerCheap : Mode := "planner_cheap".
Definition ModePlannerPassiveArbitrage : Mode := "planner_passive_arbitrage".
Definition ModePlannerArbitrage : Mode := "planner_arbitrage".

Definition isMode (m n : Mode) : bool := bool_decide (m = n).

Definition AllModes : list Mode :=
  [ModeIdle; ModeSelfConsumption; ModePeakShaving; ModeCharge; ModePlannerSelf; ModePlannerCheap;
   ModePlannerPassiveArbitrage; ModePlannerArbitrage].

Definition IsValidMode (m : Mode) : bool := existsb (isMode m) AllModes.

(** The strategy names of package mpc. *)
Definition PlannerMPCMode (m : Mode) : option string :=
  if isMode m ModePlannerSelf then Some "self_consumption"%string
  else if isMode m ModePlannerCheap then Some "cheap_charge"%string
  else if isMode m ModePlannerPassiveArbitrage then Some "passive_arbitrage"%string
  else if isMode m ModePlannerArbitrage then Some "arbitrage"%string
  else None.

Definition IsPlannerMode (m : Mode) : bool :=
  isMode m ModePlannerSelf || isMode m ModePlannerCheap || isMode m ModePlannerPassiveArbitrage ||
  isMode m ModePlannerArbitrage.

Definition batteryMayNotExport (m : Mode) : bool :=
  isMode m ModePlannerSelf || isMode m ModePlannerCheap || isMode m ModePlannerPassiveArbitrage.

(** ** The plan slot *)
(** [mpc.PVCurtailment]: the licence to cap one inverter that makes all the
    solar power, with the whole watts it can be capped to. *)
Record PVCurtailment : Type := mkCurtailment { proofDriver : string; Proof : string; proofMinW : f64; proofMaxW : f64 }.
Definition noCurtailment : PVCurtailment := mkCurtailment "" "" (of_Z 0) (of_Z 0).

Record SlotDirective : Type := mkSlot {
  PriceSlotStart : Time;
  DecisionID : string;
  SlotStart : Time;
  SlotEnd : Time;
  BatteryEnergyWh : f64;
  StorageEnergyWh : gmap string f64;
  SoCTarget : f64;
  Strategy : string;
  PVLimitW : f64;
  PVCurtailActive : bool;
  PlanCurtailment : PVCurtailment;
  PlannedGridW : f64;
  HasPlannedGridW : bool;
  LivePVSurplusSoCCap : f64;
  LoadpointEnergyWh : gmap string f64;
  LoadpointMaxPowerW : gmap string f64;
  EVOnly : bool
}.

Definition noSlot : SlotDirective :=
  mkSlot 0 "" 0 0 (of_Z 0) ∅ (of_Z 0) "" (of_Z 0) false noCurtailment (of_Z 0) false (of_Z 0) ∅ ∅ false.

Definition priceSlotStart (d : SlotDirective) : Time :=
  if negb (IsZero (PriceSlotStart d)) then PriceSlotStart d else SlotStart d.

Definition averageBatteryW (d : SlotDirective) : f64 :=
  let hours := Hours (Sub (SlotEnd d) (SlotStart d)) in
  if fle hours (of_Z 0) then of_Z 0 else fdiv (BatteryEnergyWh d) hours.

Definition intentEnergyWh (d : SlotDirective) : f64 :=
  if IsZero (PriceSlotStart d) then BatteryEnergyWh d
  else fmul (averageBatteryW d) (Hours (Sub (SlotEnd d) (priceSlotStart d))).

Definition elapsedDirectiveEnergy (d : SlotDirective) (now : Time) : f64 :=
  if IsZero (PriceSlotStart d) || negb (After (SlotStart d) (PriceSlotStart d)) then of_Z 0
  else
    let elapsed := Sub now (SlotStart d) in
    if elapsed <=? 0 then of_Z 0
    else if After now (SlotEnd d) then BatteryEnergyWh d
    else fmul (averageBatteryW d) (Hours elapsed).

Definition IdleGateThresholdW : f64 := of_Z 100.

Definition plannerSelfDirectiveIsIdle (dir : SlotDirective) : bool :=
  let slotH := Hours (Sub (SlotEnd dir) (SlotStart dir)) in
  if fle slotH (of_Z 0) then false
  else if HasPlannedGridW dir
  then flt (fabs (fsub (PlannedGridW dir) (fdiv (BatteryEnergyWh dir) slotH))) IdleGateThresholdW
  else flt (fdiv (fabs (BatteryEnergyWh dir)) slotH) IdleGateThresholdW.

Definition plannerSelfDirectiveExportsSurplus (dir : SlotDirective) : bool :=
  let slotH := Hours (Sub (SlotEnd dir) (SlotStart dir)) in
  if fle slotH (of_Z 0) || negb (HasPlannedGridW dir) then false
  else
    let battW := fdiv (BatteryEnergyWh dir) slotH in
    if flt IdleGateThresholdW battW then false
    else flt (fsub (PlannedGridW dir) battW) (fneg IdleGateThresholdW).

(** ** The plan one tick reads *)
Inductive controlPlanSource : Type := controlPlanNone | controlPlanDirective | controlPlanLegacyTarget.

Record controlPlanSnapshot : Type := mkSnapshot {
  active : bool;
  source : controlPlanSource;
  tickAt : Time;
  directiveCaptured : bool;
  directiveOK : bool;
  directive : SlotDirective;
  legacyCaptured : bool;
  legacyOK : bool;
  legacyMode : string;
  legacyGridW : f64;
  legacyID : string
}.

Definition noSnapshot : controlPlanSnapshot :=
  mkSnapshot false controlPlanNone 0 false false noSlot false false "" (of_Z 0) "".

Record evFuseDemand : Type := mkDemand { driverName : string; powerW : f64; phaseMode : string }.

(** The settings of [State]: what the modelled operations read only. The two
    plan callbacks are functions of the time, [None] when not wired. *)
Record Site : Type := mkSite {
  sMode : Mode;
  SiteMeterDriver : string;
  SiteFuseAmps : f64;
  SiteFuseVoltage : f64;
  SiteFusePhases : Z;
  SiteFuseSafetyA : f64;
  PeakImportCeilingW : f64;
  MaxExportW : f64;
  EVChargingW : f64;
  ManualEVChargingW : f64;
  EVSurplusOnlyReserveW : f64;
  EVSurplusOnlyChargingW : f64;
  BatteryCoversEV : bool;
  BatteryBoostEVChargingW : f64;
  BatteryBoostReserveSoC : f64;
  EVCommandedW : f64;
  evCommanded : gmap string f64;
  evFuseDemands : list evFuseDemand;
  evFuseDemandsSet : bool;
  MinDispatchIntervalS : Z;
  ControlIntervalS : Z;
  SlotDirectiveFn : option (Time -> SlotDirective * bool);
  PlanTargetFn : option (Time -> string * f64 * string * bool);
  planSnapshot : controlPlanSnapshot;
  PVSurplusAbsorbSoCCap : f64;
  PVSurplusAbsorbThresholdW : f64;
  DriverLimits : gmap string PowerLimits
}.

(** ** The fuse in watts *)
Definition siteFuseMaxW (s : Site) : f64 :=
  if fle (SiteFuseAmps s) (of_Z 0) || fle (SiteFuseVoltage s) (of_Z 0) || (SiteFusePhases s <=? 0)
  then of_Z 0
  else fmul (fmul (SiteFuseAmps s) (SiteFuseVoltage s)) (of_Z (SiteFusePhases s)).

Definition fuseSafetyMarginW (s : Site) : f64 :=
  if fle (SiteFuseSafetyA s) (of_Z 0) || fle (SiteFuseVoltage s) (of_Z 0) || (SiteFusePhases s <=? 0)
  then of_Z 0
  else fmul (fmul (SiteFuseSafetyA s) (SiteFuseVoltage s)) (of_Z (SiteFusePhases s)).

(** Each phase's working limit in amps. *)
Definition fuseLineA (s : Site) : f64 :=
  fmax (of_Z 0) (fsub (SiteFuseAmps s) (fmax (of_Z 0) (SiteFuseSafetyA s))).

Definition peakLimitCeilingW (s : Site) : f64 :=
  let fuseW := siteFuseMaxW s in
  if fle fuseW (of_Z 0) then of_Z 0
  else
    let ceiling := fsub fuseW (fuseSafetyMarginW s) in
    if flt ceiling (of_Z 0) then of_Z 0 else ceiling.

(** The new [PeakLimitW], or the error the code returns and the limit stays. *)
Inductive peak_error : Type := PeakNotFinite | PeakNegative | PeakAboveCeiling.

Definition SetPeakLimit (s : Site) (w : f64) : peak_error + f64 :=
  if isNaN w || isInf w then inl PeakNotFinite
  else if flt w (of_Z 0) then inl PeakNegative
  else
    let ceiling := peakLimitCeilingW s in
    if flt (of_Z 0) ceiling && flt ceiling w then inl PeakAboveCeiling
    else inr w.

Definition PeakLimitIsDead (s : Site) (peak : f64) : f64 * bool :=
  let ceiling := peakLimitCeilingW s in
  (ceiling, flt (of_Z 0) ceiling && flt ceiling peak).

Definition effectiveExportCeilingW (s : Site) (fuseMaxW : f64) : f64 :=
  let eff := fsub fuseMaxW (fuseSafetyMarginW s) in
  let eff := if flt eff (of_Z 0) then of_Z 0 else eff in
  if flt (of_Z 0) (MaxExportW s) && flt (MaxExportW s) eff then MaxExportW s else eff.

(** ** Manual holds *)
Record BatteryManualHold : Type := mkHold {
  mhDriver : string; mhDeviceID : string; mhPowerW : f64; mhExpiresAt : Time
}.
Definition noHold : BatteryManualHold := mkHold "" "" (of_Z 0) 0.

Definition SetBatteryManualHold (h : BatteryManualHold) : BatteryManualHold :=
  if IsZero (mhExpiresAt h) then noHold else h.
Definition ClearBatteryManualHold : BatteryManualHold := noHold.

(** The hold in force, and the hold left in the state. *)
Definition GetBatteryManualHold (now : Time) (h : BatteryManualHold)
  : option BatteryManualHold * BatteryManualHold :=
  if IsZero (mhExpiresAt h) then (None, h)
  else if negb (Before now (mhExpiresAt h)) then (None, noHold)
  else (Some h, h).

Record PVManualHold : Type := mkPVHold { pvDriver : string; pvLimitW : f64; pvExpiresAt : Time }.
Definition noPVHold : PVManualHold := mkPVHold "" (of_Z 0) 0.

Definition SetPVManualHold (h : PVManualHold) : PVManualHold :=
  if IsZero (pvExpiresAt h) then noPVHold else h.
Definition ClearPVManualHold : PVManualHold := noPVHold.

Definition GetPVManualHold (now : Time) (h : PVManualHold) : option PVManualHold * PVManualHold :=
  if IsZero (pvExpiresAt h) then (None, h)
  else if negb (Before now (pvExpiresAt h)) then (None, noPVHold)
  else (Some h, h).

(** ** Changing the mode: the mode, the hold and the integral together *)
Definition ApplyMode (m : Mode) (st : Mode * BatteryManualHold * PIController)
  : option (Mode * BatteryManualHold * PIController) :=
  if negb (IsValidMode m) then None
  else let '(_, _, pi) := st in Some (m, ClearBatteryManualHold, Reset pi).

(** ** The car's share *)
Definition evActiveThresholdW : f64 := of_Z 100.

Definition coveredEVChargingW (s : Site) : f64 :=
  if BatteryCoversEV s then EVChargingW s
  else
    let w := BatteryBoostEVChargingW s in
    if flt w (of_Z 0) then of_Z 0
    else if flt (EVChargingW s) w then EVChargingW s
    else w.

Definition uncoveredEVChargingW (s : Site) : f64 :=
  if BatteryCoversEV s then of_Z 0
  else
    let w := fsub (EVChargingW s) (coveredEVChargingW s) in
    if flt w (of_Z 0) then of_Z 0 else w.

Definition batteryMayCoverEV (s : Site) : bool :=
  BatteryCoversEV s || flt evActiveThresholdW (BatteryBoostEVChargingW s).

(** [(ManualEVChargingW, EVChargingW)] after the operator declares a load. *)
Definition SetManualEVCharging (w : f64) (on : bool) (liveEVChargingW : f64) : f64 * f64 :=
  let manual := if on && flt (of_Z 0) w then w else of_Z 0 in
  (manual, fadd manual liveEVChargingW).

(** ** Properties *)

(** A peak limit that is accepted can bind and shave: it is a finite
    number, at least zero, and [PeakLimitIsDead] is false for it. One that is
    refused is not finite, negative, or above a described fuse's ceiling;
    nothing else is refused. *)
Theorem set_peak_limit_exact (s : Site) (w : f64) :
  match SetPeakLimit s w with
  | inr accepted =>
      accepted = w /\ finite w = true /\ flt w (of_Z 0) = false /\ snd (PeakLimitIsDead s w) = false
  | inl PeakNotFinite => finite w = false
  | inl PeakNegative => flt w (of_Z 0) = true
  | inl PeakAboveCeiling => flt (of_Z 0) (peakLimitCeilingW s) = true /\ flt (peakLimitCeilingW s) w = true
  end.
Proof.
  unfold SetPeakLimit, PeakLimitIsDead. cbv zeta.
  destruct w as [|b|z]; [reflexivity|reflexivity|]. cbn [isNaN isInf orb].
  destruct (flt (Fin z) (of_Z 0)) eqn:E0; [reflexivity|].
  destruct (flt (of_Z 0) (peakLimitCeilingW s) && flt (peakLimitCeilingW s) (Fin z)) eqn:E; cbn [snd].
  - now apply andb_true_iff in E.
  - split_and!; try reflexivity; assumption.
Qed.

(** A manual hold lasts exactly until it expires: it is in force at every
    time before its end and at none from its end on, an expired one is dropped
    from the state, and a mode change leaves none behind and clears the
    controller's integral with it. *)
Theorem manual_hold_lifetime (h : BatteryManualHold) (now : Time) (m : Mode) (old : Mode)
    (pi : PIController) :
  let stored := SetBatteryManualHold h in
  (fst (GetBatteryManualHold now stored) = Some h <->
   mhExpiresAt h <> zeroTime /\ now < mhExpiresAt h) /\
  (fst (GetBatteryManualHold now stored) = None -> snd (GetBatteryManualHold now stored) = noHold) /\
  (forall m' h' pi', ApplyMode m (old, stored, pi) = Some (m', h', pi') ->
     m' = m /\ In m AllModes /\ fst (GetBatteryManualHold now h') = None /\ Integral pi' = of_Z 0).
Proof.
  intros stored. unfold stored, SetBatteryManualHold. split_and!.
  - destruct (IsZero (mhExpiresAt h)) eqn:Ez.
    + unfold IsZero in Ez. apply Z.eqb_eq in Ez. unfold GetBatteryManualHold. cbn.
      unfold zeroTime. split; [discriminate|intros [H _]; contradiction].
    + unfold GetBatteryManualHold. rewrite Ez. unfold IsZero in Ez. apply Z.eqb_neq in Ez.
      unfold Before, zeroTime. destruct (Z.ltb_spec now (mhExpiresAt h)); cbn [negb fst].
      * split; [intros _; auto|reflexivity].
      * split; [discriminate|lia].
  - destruct (IsZero (mhExpiresAt h)) eqn:Ez; [reflexivity|].
    unfold GetBatteryManualHold. rewrite Ez. destruct (negb (Before now (mhExpiresAt h)));
      [reflexivity|discriminate].
  - intros m' h' pi' H. unfold ApplyMode in H. destruct (IsValidMode m) eqn:Em; [|discriminate H].
    injection H as <- <- <-. split_and!; try reflexivity.
    unfold IsValidMode in Em. apply existsb_exists in Em as (x & Hx & E).
    unfold isMode in E. apply bool_decide_eq_true in E as <-. exact Hx.
Qed.

Lemma manual_hold_lifetime_witness :
  fst (GetBatteryManualHold 10 (SetBatteryManualHold (mkHold "" "" (of_Z 2000) 20))) =
    Some (mkHold "" "" (of_Z 2000) 20).
Proof.
  apply (manual_hold_lifetime (mkHold "" "" (of_Z 2000) 20) 10 ModeIdle ModeIdle
           (NewPI (of_Z 0) (of_Z 0) (of_Z 0) (of_Z 0))).
  split; [discriminate|reflexivity].
Defined.
