(* ===== verification/PlanIntent.v ===== *)
(** * What the plan wants, and the surplus (go/internal/control/dispatch.go)

    The intent of the active plan slot, the sign floor that keeps a command
    from contradicting it, the surplus arithmetic for solar the plan did not
    expect, scheduled EV power and the slot's delivery score. *)
From Stdlib Require Import ZArith Lia.
From S2P Require Import Prelude Float64 GoTime Json Kalman Health Telemetry Limits Units.
From S2P Require Import CommandLog PIController Site.
From stdpp Require Import base gmap strings list.
#[local] Open Scope Z_scope.

(** ** Reading the tick's plan *)
Definition callDirective (s : Site) (at' : Time) : SlotDirective * bool :=
  match SlotDirectiveFn s with Some f => f at' | None => (noSlot, false) end.

Definition withDirective (snap : controlPlanSnapshot) (d : SlotDirective) (ok : bool)
  : controlPlanSnapshot :=
  mkSnapshot (active snap) (source snap) (tickAt snap) true ok d (legacyCaptured snap)
    (legacyOK snap) (legacyMode snap) (legacyGridW snap) (legacyID snap).

(** The directive, and the snapshot it leaves: an active tick asks once. *)
Definition plannerSelfDirectiveAt (s : Site) (now : Time)
  : SlotDirective * bool * controlPlanSnapshot :=
  let snap := planSnapshot s in
  if active snap then
    let snap :=
      if directiveCaptured snap then snap
      else match SlotDirectiveFn s with
           | Some f => let '(d, ok) := f (tickAt snap) in withDirective snap d ok
           | None => withDirective snap (directive snap) (directiveOK snap)
           end in
    (directive snap, directiveOK snap, snap)
  else (callDirective s now, snap).

Definition planTargetAt (s : Site) (now : Time) : string * f64 * string * bool * controlPlanSnapshot :=
  let snap := planSnapshot s in
  let none := (""%string, of_Z 0, ""%string, false) in
  if active snap then
    let snap :=
      if legacyCaptured snap then snap
      else
        let '(m, w, i, ok) :=
          match PlanTargetFn s with
          | Some f => f (tickAt snap)
          | None => (legacyMode snap, legacyGridW snap, legacyID snap, legacyOK snap)
          end in
        mkSnapshot (active snap) (source snap) (tickAt snap) (directiveCaptured snap)
          (directiveOK snap) (directive snap) true ok m w i in
    (legacyMode snap, legacyGridW snap, legacyID snap, legacyOK snap, snap)
  else
    (match PlanTargetFn s with Some f => f now | None => none end, snap).

Definition planDirectiveForIntent (s : Site) (now : Time) : option SlotDirective :=
  let snap := planSnapshot s in
  if active snap then
    match source snap with
    | controlPlanDirective => if directiveOK snap then Some (directive snap) else None
    | controlPlanLegacyTarget =>
        if directiveOK snap && bool_decide (DecisionID (directive snap) = legacyID snap)
        then Some (directive snap) else None
    | controlPlanNone => None
    end
  else let '(d, ok) := callDirective s now in if ok then Some d else None.

Definition planTargetForIntent (s : Site) (now : Time) : option (string * f64) :=
  let snap := planSnapshot s in
  if active snap then
    match source snap with
    | controlPlanLegacyTarget => if legacyOK snap then Some (legacyMode snap, legacyGridW snap) else None
    | _ => None
    end
  else
    match PlanTargetFn s with
    | None => None
    | Some f => let '(m, w, _, ok) := f now in if ok then Some (m, w) else None
    end.

(** ** Intent *)
Definition coverLoadChargeSlot (s : Site) (dir : SlotDirective) : bool :=
  if negb (HasPlannedGridW dir) || fle (intentEnergyWh dir) (of_Z 50) ||
     fle (of_Z 100) (PlannedGridW dir) then false
  else if isMode (sMode s) ModePlannerArbitrage then true
  else isMode (sMode s) ModePlannerPassiveArbitrage && batteryMayCoverEV s &&
       flt evActiveThresholdW (EVChargingW s).

(** The energy path's answer, when the plan has one. *)
Definition directiveIntent (s : Site) (now : Time) : option SlotDirective :=
  match SlotDirectiveFn s with Some _ => planDirectiveForIntent s now | None => None end.
Definition targetIntent (s : Site) (now : Time) : option (string * f64) :=
  match PlanTargetFn s with Some _ => planTargetForIntent s now | None => None end.

Definition planHasNonDischargeIntent (s : Site) (now : Time) : bool :=
  if negb (IsPlannerMode (sMode s)) || isMode (sMode s) ModePlannerSelf then false
  else
    match directiveIntent s now with
    | Some dir =>
        if (isMode (sMode s) ModePlannerPassiveArbitrage || isMode (sMode s) ModePlannerArbitrage) &&
           coverLoadChargeSlot s dir
        then false
        else fle (of_Z (-50)) (intentEnergyWh dir)
    | None =>
        match targetIntent s now with
        | Some (m, gridW) =>
            if isMode m ModeCharge then true
            else if isMode m ModeSelfConsumption then
              if isMode (sMode s) ModePlannerPassiveArbitrage then flt (of_Z 100) gridW
              else fle (of_Z (-100)) gridW
            else false
        | None => false
        end
    end.

(** [+1] charge, [-1] discharge, [0] idle or unknown. *)
Definition planSignIntent (s : Site) (now : Time) : Z :=
  match directiveIntent s now with
  | Some dir =>
      if flt (of_Z 50) (intentEnergyWh dir) then (if coverLoadChargeSlot s dir then 0 else 1)
      else if flt (intentEnergyWh dir) (of_Z (-50)) then -1
      else 0
  | None =>
      match targetIntent s now with
      | Some (m, gridW) =>
          if isMode m ModeCharge then 1
          else if isMode m ModeSelfConsumption then
            (if flt gridW (of_Z (-100)) then -1 else 0)
          else 0
      | None => 0
      end
  end.

Definition idleBand : f64 := of_Z 100.

Definition applyPlanSignFloor (targets : list DispatchTarget) (s : Site) (now : Time)
  : list DispatchTarget :=
  if (length targets =? 0)%nat || negb (IsPlannerMode (sMode s)) || isMode (sMode s) ModePlannerSelf
  then targets
  else
    let intent := planSignIntent s now in
    if intent =? 0 then targets
    else
      let sumTarget := sumTargets targets in
      if flt (fabs sumTarget) idleBand then targets
      else
        let execSign :=
          if flt idleBand sumTarget then 1 else if flt sumTarget (fneg idleBand) then -1 else 0 in
        if (execSign =? 0) || (execSign =? intent) then targets
        else setW (of_Z 0) <$> targets.

(** ** Surplus the plan did not expect *)
Record surplusAccounting : Type := mkSurplus {
  rawGridW : f64;
  effectiveGridW : f64;
  currentBatteryW : f64;
  evReserveRemaining : f64;
  evActive : bool
}.

Definition evReserveRemainingW (s : Site) : f64 :=
  if fle (EVSurplusOnlyReserveW s) (of_Z 0) then of_Z 0
  else
    let remaining := fsub (EVSurplusOnlyReserveW s) (EVSurplusOnlyChargingW s) in
    if flt remaining (of_Z 0) then of_Z 0 else remaining.

Definition newSurplusAccounting (raw effective battery : f64) (s : Site) : surplusAccounting :=
  mkSurplus raw effective battery (evReserveRemainingW s)
    (flt evActiveThresholdW (EVSurplusOnlyChargingW s)).

Definition rawMeterWWithoutBattery (a : surplusAccounting) : f64 :=
  fsub (rawGridW a) (currentBatteryW a).

Definition trueMeterExportWithoutBatteryW (a : surplusAccounting) : f64 :=
  let exportW := fneg (rawMeterWWithoutBattery a) in
  if flt exportW (of_Z 0) then of_Z 0 else exportW.

Definition idleChargeOnlySurplusW (a : surplusAccounting) (thresholdW : f64) : f64 :=
  let chargeW := fsub (trueMeterExportWithoutBatteryW a) (evReserveRemaining a) in
  if fle chargeW thresholdW then of_Z 0 else chargeW.

Definition effectiveChargeSurplusW (a : surplusAccounting) : f64 :=
  let surplusW := fadd (fneg (effectiveGridW a)) (currentBatteryW a) in
  if flt surplusW (of_Z 0) then of_Z 0 else surplusW.

Definition evCanUseReserve (a : surplusAccounting) : bool :=
  if fle (evReserveRemaining a) (of_Z 0) then false
  else evActive a || fle (evReserveRemaining a) (effectiveChargeSurplusW a).

Definition chargeCeilingAfterEVReserveW (a : surplusAccounting) : f64 :=
  let surplus := effectiveChargeSurplusW a in
  if negb (evCanUseReserve a) then surplus
  else
    let ceiling := fsub surplus (evReserveRemaining a) in
    if flt ceiling (of_Z 0) then of_Z 0 else ceiling.

Definition plannerSelfIdleDesiredTotal (a : surplusAccounting) (s : Site) : f64 :=
  idleChargeOnlySurplusW a
    (if flt (of_Z 0) (PVSurplusAbsorbThresholdW s) then PVSurplusAbsorbThresholdW s
     else IdleGateThresholdW).

Definition unexpectedExportBeyondPlanW (projectedGridW : f64) (dir : SlotDirective) : f64 :=
  let plannedExportW :=
    if HasPlannedGridW dir && flt (PlannedGridW dir) (of_Z 0) then fneg (PlannedGridW dir)
    else of_Z 0 in
  let unexpectedW := fsub (fneg projectedGridW) plannedExportW in
  if flt unexpectedW (of_Z 0) then of_Z 0 else unexpectedW.

Definition unexpectedIdleExportBeyondPlanW (a : surplusAccounting) (dir : SlotDirective)
    (thresholdW : f64) : f64 :=
  let unexpectedW :=
    fsub (unexpectedExportBeyondPlanW (fneg (trueMeterExportWithoutBatteryW a)) dir)
         (evReserveRemaining a) in
  if fle unexpectedW thresholdW then of_Z 0 else unexpectedW.

Definition pvSurplusAbsorbCap (s : Site) (dir : SlotDirective) : f64 :=
  let operatorCap := ClampFraction (PVSurplusAbsorbSoCCap s) in
  let plannerCap := ClampFraction (LivePVSurplusSoCCap dir) in
  if flt (of_Z 0) operatorCap then operatorCap
  else if flt (of_Z 0) plannerCap then plannerCap
  else of_Z 0.

Definition pvSurplusAbsorbHeadroomW (batteries : list batteryInfo) (capPct remainingS : f64) : f64 :=
  if fle capPct (of_Z 0) then of_Z 0
  else
    let storedWh := sumF ((fun b => fmul (soc b) (capacityWh b)) <$> batteries) in
    let totalCapWh := sumF (capacityWh <$> batteries) in
    if fle totalCapWh (of_Z 0) then of_Z 0
    else
      let headroomWh := fsub (fmul capPct totalCapWh) storedWh in
      if fle headroomWh (of_Z 0) then of_Z 0
      else
        let remainingS := if flt remainingS (of_Z 60) then of_Z 60 else remainingS in
        fdiv (fmul headroomWh (of_Z 3600)) remainingS.

(** ** Scheduled EV power *)
Record FuseDemand : Type := mkFuseDemand { fdDriver : string; fdPowerW : f64; fdPhaseMode : string }.

Definition demandPhase (p : string) : string :=
  if bool_decide (p = "1p"%string) || bool_decide (p = "3p"%string) then p else "auto"%string.

(** One charger's demand folded into the list: demands of the same driver
    merge into the highest power, and into auto when their phases differ. *)
Fixpoint mergeDemand (d : evFuseDemand) (l : list evFuseDemand) : list evFuseDemand :=
  match l with
  | [] => [d]
  | e :: rest =>
      if bool_decide (driverName e = driverName d)
      then mkDemand (driverName e) (fmax (powerW e) (powerW d))
             (if bool_decide (phaseMode e = phaseMode d) then phaseMode e else "auto"%string) :: rest
      else e :: mergeDemand d rest
  end.

Definition SetEVFuseDemands (demands : list FuseDemand) : list evFuseDemand :=
  fold_left (fun l d =>
      if bool_decide (fdDriver d = ""%string) || negb (finite (fdPowerW d)) || fle (fdPowerW d) (of_Z 0)
      then l
      else mergeDemand (mkDemand (fdDriver d) (fdPowerW d) (demandPhase (fdPhaseMode d))) l)
    demands [].

Section Scheduled.
Context `{MapIter}.

(** The loop over the slot's loadpoints: [None] is the early return. *)
Definition reservedEVW (dir : SlotDirective) (hours : f64) : option f64 :=
  fold_left (fun acc '(id, wh) =>
      match acc with
      | None => None
      | Some reserved =>
          if negb (finite wh) || flt wh (of_Z 0) then None
          else if fle wh (of_Z 0) then Some reserved
          else
            match LoadpointMaxPowerW dir !! id with
            | Some peak =>
                if negb (finite peak) || flt peak (of_Z 0) then None
                else if flt (of_Z 0) peak then Some (fadd reserved peak)
                else Some (fadd reserved (fdiv wh hours))
            | None => Some (fadd reserved (fdiv wh hours))
            end
      end) (map_iter (LoadpointEnergyWh dir)) (Some (of_Z 0)).

Definition scheduledEVPowerW (s : Site) (now : Time) : f64 :=
  let commanded :=
    if negb (finite (EVCommandedW s)) || flt (EVCommandedW s) (of_Z 0) then of_Z 0
    else EVCommandedW s in
  let commanded := fmax commanded (sumF (powerW <$> evFuseDemands s)) in
  if evFuseDemandsSet s then commanded
  else if negb (IsPlannerMode (sMode s)) then commanded
  else
    let snap := planSnapshot s in
    let dir :=
      match planDirectiveForIntent s now with
      | Some d => Some d
      | None => if directiveOK snap && EVOnly (directive snap) then Some (directive snap) else None
      end in
    match dir with
    | None => commanded
    | Some d =>
        if Before now (SlotStart d) || negb (Before now (SlotEnd d)) then commanded
        else
          let hours := Hours (Sub (SlotEnd d) (SlotStart d)) in
          if fle hours (of_Z 0) then commanded
          else match reservedEVW d hours with
               | None => commanded
               | Some reserved => fmax commanded reserved
               end
    end.
End Scheduled.

(** ** Lemmas *)
Lemma fold_zero l : Forall (fun w => w = of_Z 0) l -> fold_left fadd l (of_Z 0) = of_Z 0.
Proof.
  intros H. induction H as [|w l -> _ IH]; [reflexivity|]. cbn [fold_left].
  replace (fadd (of_Z 0) (of_Z 0)) with (of_Z 0); [exact IH|].
  rewrite of_Z_0. reflexivity.
Qed.

Lemma sumTargets_zeroed ts : sumTargets (setW (of_Z 0) <$> ts) = of_Z 0.
Proof.
  unfold sumTargets, sumF. apply fold_zero. apply Forall_fmap, Forall_fmap, Forall_forall.
  reflexivity.
Qed.

Lemma mergeDemand_drivers d l :
  driverName <$> mergeDemand d l =
  if bool_decide (driverName d ∈ driverName <$> l) then driverName <$> l
  else (driverName <$> l) ++ [driverName d].
Proof.
  induction l as [|e l IH]; [reflexivity|]. cbn [mergeDemand].
  destruct (decide (driverName e = driverName d)) as [E|E].
  - rewrite (bool_decide_true (driverName e = driverName d)) by exact E. rewrite !fmap_cons.
    rewrite (bool_decide_true (driverName d ∈ _)); [reflexivity|]. rewrite E. now left.
  - rewrite (bool_decide_false (driverName e = driverName d)) by exact E. rewrite !fmap_cons, IH.
    destruct (decide (driverName d ∈ driverName <$> l)) as [Hin|Hin].
    + rewrite !bool_decide_true; [reflexivity|now right|exact Hin].
    + rewrite !bool_decide_false; [reflexivity| |exact Hin].
      intros H. apply elem_of_cons in H as [H|H]; [congruence|contradiction].
Qed.

Definition demand_ok (d : evFuseDemand) : Prop :=
  finite (powerW d) = true /\ flt (of_Z 0) (powerW d) = true.

Lemma mergeDemand_ok d l : demand_ok d -> Forall demand_ok l -> Forall demand_ok (mergeDemand d l).
Proof.
  intros Hd Hl. induction Hl as [|e l He Hl IH]; [constructor; [exact Hd|constructor]|].
  cbn [mergeDemand]. case_match; constructor; auto.
  destruct He as [F1 P1], Hd as [F2 P2]. apply finite_iff in F1, F2.
  unfold demand_ok. cbn [powerW].
  destruct (fmax_spec (powerW e) (powerW d) (finite_nn _ F1) (finite_nn _ F2)) as [[-> _]|[-> _]];
    rewrite finite_iff; auto.
Qed.

(** Everything about a driver's demands but the highest power is lost. *)
Definition atLeast (driver : string) (w : f64) (l : list evFuseDemand) : Prop :=
  exists d, d ∈ l /\ driverName d = driver /\ le_rel w (powerW d).

Lemma mergeDemand_atLeast d l driver w :
  demand_ok d -> Forall demand_ok l ->
  (atLeast driver w l \/ driver = driverName d /\ w = powerW d) -> atLeast driver w (mergeDemand d l).
Proof.
  intros Hd Hl. assert (Nd : rank (powerW d) <> 2).
  { destruct Hd as [F _]. apply finite_iff in F. now apply finite_nn. }
  induction Hl as [|e l He Hl IH]; intros H; cbn [mergeDemand].
  - destruct H as [(x & Hx & _)|[-> ->]]; [inversion Hx|].
    exists d. split_and!; [now left|reflexivity|now apply le_rel_refl].
  - assert (Ne : rank (powerW e) <> 2).
    { destruct He as [F _]. apply finite_iff in F. now apply finite_nn. }
    case_bool_decide as E.
    + set (m := mkDemand _ _ _). assert (M1 : le_rel (powerW e) (powerW m) /\ le_rel (powerW d) (powerW m)).
      { cbn. destruct (fmax_spec _ _ Ne Nd) as [[-> L]|[-> L]]; auto using le_rel_refl. }
      destruct M1 as [M1 M2].
      destruct H as [(x & Hx & Ex & Lx)|[-> ->]].
      * apply elem_of_cons in Hx as [->|Hx].
        -- exists m. split_and!; [now left|exact Ex|eapply le_rel_trans; eassumption].
        -- exists x. split_and!; [now right|exact Ex|exact Lx].
      * exists m. split_and!; [now left|exact E|exact M2].
    + destruct H as [(x & Hx & Ex & Lx)|H].
      * apply elem_of_cons in Hx as [->|Hx].
        -- exists e. split_and!; [now left|exact Ex|exact Lx].
        -- destruct IH as (y & Hy & Ey & Ly); [left; exists x; auto|].
           exists y. split_and!; [now right|exact Ey|exact Ly].
      * destruct IH as (y & Hy & Ey & Ly); [now right|].
        exists y. split_and!; [now right|exact Ey|exact Ly].
Qed.

Lemma SetEVFuseDemands_snoc ds d :
  SetEVFuseDemands (ds ++ [d]) =
  if bool_decide (fdDriver d = ""%string) || negb (finite (fdPowerW d)) || fle (fdPowerW d) (of_Z 0)
  then SetEVFuseDemands ds
  else mergeDemand (mkDemand (fdDriver d) (fdPowerW d) (demandPhase (fdPhaseMode d))) (SetEVFuseDemands ds).
Proof. unfold SetEVFuseDemands. now rewrite fold_left_app. Qed.

Lemma NoDup_mergeDemand d l : NoDup (driverName <$> l) -> NoDup (driverName <$> mergeDemand d l).
Proof.
  intros H. rewrite mergeDemand_drivers. case_bool_decide as E; [exact H|].
  apply NoDup_app. split_and!; [exact H| |apply NoDup_singleton].
  intros x Hx Hd. apply list_elem_of_singleton in Hd as ->. contradiction.
Qed.

Lemma surplus_finite a :
  finite (fadd (fneg (effectiveGridW a)) (currentBatteryW a)) = true ->
  wf (effectiveChargeSurplusW a) /\ rank (effectiveChargeSurplusW a) = 0 /\
  le_rel (of_Z 0) (effectiveChargeSurplusW a).
Proof.
  unfold effectiveChargeSurplusW. cbv zeta. intros F. apply finite_iff in F.
  set (w := fadd _ _) in *. assert (Ww : wf w) by apply fadd_wf. clearbody w.
  destruct (flt w (of_Z 0)) eqn:E.
  - split_and!; [apply of_Z_wf|apply of_Z_rank; lia|apply of_Z_mono; lia].
  - split_and!; [exact Ww|exact F|]. apply flt_false; [exact E|f64_nn|f64_nn].
Qed.

Lemma reserve_in_use a :
  evCanUseReserve a = true -> rank (evReserveRemaining a) = 0 ->
  flt (of_Z 0) (evReserveRemaining a) = true /\
  (evActive a = false -> le_rel (evReserveRemaining a) (effectiveChargeSurplusW a)).
Proof.
  unfold evCanUseReserve. intros Eu R3.
  destruct (fle (evReserveRemaining a) (of_Z 0)) eqn:E; [discriminate|]. split.
  - clear - E R3. f64_lia.
  - intros Ha. rewrite Ha in Eu. cbn [orb] in Eu. now apply fle_iff in Eu.
Qed.

(** ** Properties *)

(** An executed command never contradicts the plan. In a planner mode that
    follows the plan's sign, the fleet never ends a tick charging by more than
    100 W against a discharge slot, nor discharging by more than 100 W against
    a charge slot: such a tick is idle, and every other tick's commands pass
    unchanged. *)
Theorem sign_floor_follows_plan (targets : list DispatchTarget) (s : Site) (now : Time) :
  IsPlannerMode (sMode s) = true -> sMode s <> ModePlannerSelf ->
  let out := applyPlanSignFloor targets s now in
  (planSignIntent s now = -1 -> flt idleBand (sumTargets out) = false) /\
  (planSignIntent s now = 1 -> flt (sumTargets out) (fneg idleBand) = false) /\
  (out = targets \/ out = setW (of_Z 0) <$> targets).
Proof.
  intros Hm Hs out. unfold out, applyPlanSignFloor. rewrite Hm. unfold isMode.
  rewrite bool_decide_false by exact Hs. rewrite !orb_false_r.
  assert (Z1 : flt idleBand (of_Z 0) = false) by (vm_compute; reflexivity).
  assert (Z2 : flt (of_Z 0) (fneg idleBand) = false) by (vm_compute; reflexivity).
  destruct targets as [|t ts]; [cbn [length Nat.eqb orb]; unfold sumTargets; cbn; auto|].
  cbn [length Nat.eqb orb]. set (targets := t :: ts). set (w := sumTargets targets).
  pose proof (sumTargets_zeroed targets) as Z0. set (z := setW (of_Z 0) <$> targets) in *. clearbody z.
  assert (B1 : flt (fabs w) idleBand = true -> flt idleBand w = false /\ flt w (fneg idleBand) = false).
  { unfold idleBand. clear. intros H. split; f64_lia. }
  destruct (planSignIntent s now =? 0) eqn:E0; [apply Z.eqb_eq in E0; rewrite E0; split_and!; auto; lia|].
  destruct (flt (fabs w) idleBand) eqn:Eb.
  { destruct (B1 eq_refl). auto. }
  destruct (flt idleBand w) eqn:E1.
  - change (1 =? 0) with false. cbn [orb]. destruct (1 =? planSignIntent s now) eqn:E2.
    + apply Z.eqb_eq in E2. rewrite <- E2. split_and!; [lia| |auto].
      intros _. fold targets. fold w. apply le_flt_false, (le_rel_trans _ idleBand); [|now apply flt_le].
      apply fle_iff. vm_compute. reflexivity.
    + cbv iota. rewrite Z0. auto.
  - destruct (flt w (fneg idleBand)) eqn:E2.
    + change (-1 =? 0) with false. cbn [orb]. destruct (-1 =? planSignIntent s now) eqn:E3.
      * apply Z.eqb_eq in E3. rewrite <- E3. split_and!; auto. lia.
      * cbv iota. rewrite Z0. auto.
    + cbn [Z.eqb orb]. fold targets. fold w. auto.
Qed.

(** The chargers' demands kept for the fuse are one entry per charger,
    each finite and positive, and none below a valid demand that charger made
    in this tick. *)
Theorem ev_demands_merged (demands : list FuseDemand) :
  let kept := SetEVFuseDemands demands in
  NoDup (driverName <$> kept) /\ Forall demand_ok kept /\
  Forall (fun d => fdDriver d <> ""%string -> finite (fdPowerW d) = true ->
            flt (of_Z 0) (fdPowerW d) = true -> atLeast (fdDriver d) (fdPowerW d) kept) demands.
Proof.
  cbv zeta. induction demands as [|d ds IH] using rev_ind.
  { split_and!; constructor. }
  destruct IH as (N & O & A). rewrite SetEVFuseDemands_snoc.
  destruct (bool_decide (fdDriver d = ""%string) || negb (finite (fdPowerW d)) ||
            fle (fdPowerW d) (of_Z 0)) eqn:E.
  - split_and!; [exact N|exact O|]. apply Forall_app. split; [exact A|].
    constructor; [|constructor]. intros H1 H2 H3. exfalso.
    rewrite (bool_decide_false _ H1), H2 in E. cbn [negb orb] in E.
    apply fle_iff in E. exact (flt_le_contra _ _ H3 E).
  - apply orb_false_iff in E as [E E3]. apply orb_false_iff in E as [E1 E2].
    apply negb_false_iff in E2. apply bool_decide_eq_false in E1.
    set (m := mkDemand (fdDriver d) (fdPowerW d) (demandPhase (fdPhaseMode d))).
    assert (Hm : demand_ok m).
    { split; [exact E2|]. cbn [powerW m]. apply finite_iff in E2.
      clear - E2 E3. f64_lia. }
    split_and!; [now apply NoDup_mergeDemand|now apply mergeDemand_ok|].
    apply Forall_app. split.
    + eapply Forall_impl; [exact A|]. cbn. intros x Hx H1 H2 H3.
      apply mergeDemand_atLeast; auto.
    + constructor; [|constructor]. intros _ _ _. apply mergeDemand_atLeast; auto.
Qed.

(** Solar held back for the car is released when the car cannot take it.
    The charge ceiling left after the car's reserve is never negative and
    never above the surplus; it is the whole surplus when the car neither
    draws nor could start on it, and otherwise at most the surplus less what
    the reserve still holds. *)
Theorem ev_reserve_released (a : surplusAccounting) :
  finite (fadd (fneg (effectiveGridW a)) (currentBatteryW a)) = true ->
  finite (evReserveRemaining a) = true ->
  let surplus := effectiveChargeSurplusW a in
  let ceiling := chargeCeilingAfterEVReserveW a in
  le_rel (of_Z 0) ceiling /\ le_rel ceiling surplus /\
  (evActive a = false -> flt surplus (evReserveRemaining a) = true -> ceiling = surplus) /\
  (evCanUseReserve a = true ->
   ceiling = of_Z 0 \/ ceiling = fsub surplus (evReserveRemaining a)).
Proof.
  intros F R3 surplus ceiling. apply finite_iff in R3.
  destruct (surplus_finite a F) as (Ws & Rs & Ps). fold surplus in Ws, Rs, Ps.
  unfold ceiling, chargeCeilingAfterEVReserveW. fold surplus. cbv zeta.
  destruct (evCanUseReserve a) eqn:Eu; cbn [negb].
  - destruct (reserve_in_use a Eu R3) as (Hres & Huse). fold surplus in Huse.
    set (c := fsub surplus (evReserveRemaining a)).
    assert (Nc : rank c <> 2) by (apply fsub_nn; assumption).
    assert (Lc : le_rel c surplus).
    { apply fsub_le; [exact Ws| |now apply finite_nn|exact Nc]. rewrite <- of_Z_0. now apply flt_le. }
    destruct (flt c (of_Z 0)) eqn:E.
    + split_and!; [apply of_Z_mono; lia|exact Ps| |auto].
      intros Ha Hl. exfalso. exact (flt_le_contra _ _ Hl (Huse Ha)).
    + split_and!; [apply flt_false; [exact E|exact Nc|f64_nn]|exact Lc| |auto].
      intros Ha Hl. exfalso. exact (flt_le_contra _ _ Hl (Huse Ha)).
  - split_and!; [exact Ps|apply le_rel_refl, finite_nn, Rs|auto|discriminate].
Qed.

Lemma ev_reserve_released_witness :
  let a := mkSurplus (of_Z (-1000)) (of_Z (-1000)) (of_Z 0) (of_Z 1400) false in
  chargeCeilingAfterEVReserveW a = effectiveChargeSurplusW a.
Proof.
  intros a.
  refine (proj1 (proj2 (proj2 (ev_reserve_released a _ _))) _ _); vm_compute; reflexivity.
Defined.

Lemma sign_floor_follows_plan_witness :
  let slot := mkSlot 0 "p" 0 (60 * Minute) (of_Z (-1000)) ∅ (of_Z 0) "" (of_Z 0) false noCurtailment (of_Z 0) false
                (of_Z 0) ∅ ∅ false in
  let s := mkSite ModePlannerArbitrage "meter" (of_Z 16) (of_Z 230) 3 (of_Z 0) (of_Z 0) (of_Z 0)
             (of_Z 0) (of_Z 0) (of_Z 0) (of_Z 0) false (of_Z 0) (of_Z 0) (of_Z 0) ∅ [] false 5 2
             (Some (fun _ => (slot, true))) None noSnapshot (of_Z 0) (of_Z 0) ∅ in
  flt idleBand (sumTargets (applyPlanSignFloor [mkTarget "a" (of_Z 1640) false] s 10)) = false.
Proof.
  intros slot s.
  refine (proj1 (sign_floor_follows_plan [mkTarget "a" (of_Z 1640) false] s 10 _ _) _).
  - reflexivity.
  - discriminate.
  - vm_compute. reflexivity.
Defined.
