(* ===== verification/StoragePlan.v ===== *)
(** * Shares of the planned batteries (go/internal/control/storage_plan.go)

    The energy each battery owes the plan in a slot, the split of a live
    target by it, and the split of interchangeable batteries by the energy
    each can still give or take. *)
From Stdlib Require Import ZArith Lia.
From S2P Require Import Prelude Float64 GoTime Json Kalman Health Telemetry Limits Distribution Units.
From S2P Require Import CommandLog PIController Site PlanIntent.
From stdpp Require Import base gmap strings list.
#[local] Open Scope Z_scope.

Record storageSlotDelivery : Type := mkDelivery {
  dStart : Time; dEnd : Time; dTick : Time; dDecision : string;
  budget : gmap string f64; delivered : gmap string f64
}.
Definition noDelivery : storageSlotDelivery := mkDelivery 0 0 0 "" ∅ ∅.

Definition interchangeablePowerSpread : f64 := lit 5 100.

(** [maps.Equal]: the same keys, each with equal numbers. *)
Definition mapsEqual (a b : gmap string f64) : bool :=
  bool_decide (dom a = dom b) && forallb (fun '(k, x) => feq x (atZero b k)) (map_to_list a).

Definition interchangeableStorages (bats : list batteryInfo) : bool :=
  if (length bats =? 0)%nat then false
  else if existsb (fun b => fle (capacityWh b) (of_Z 0)) bats then false
  else
    let c := (fun b => fdiv (bChargeCap b) (capacityWh b)) <$> bats in
    let d := (fun b => fdiv (bDischargeCap b) (capacityWh b)) <$> bats in
    let lowC := fold_left fmin c (Inf false) in
    let highC := fold_left fmax c (Inf true) in
    let lowD := fold_left fmin d (Inf false) in
    let highD := fold_left fmax d (Inf true) in
    fle (fsub highC lowC) (fmul interchangeablePowerSpread highC) &&
    fle (fsub highD lowD) (fmul interchangeablePowerSpread highD).

(** ** Interchangeable batteries *)

(** [bats[i]], [out[i]] and [room[i]]. *)
Record cell : Type := mkCell { cBat : batteryInfo; cOut : DispatchTarget; cRoom : f64 }.

Definition roomOf (desired : f64) (b : batteryInfo) : f64 :=
  if flt desired (of_Z 0) && negb (dischargeBlocked b)
  then fmul (capacityWh b) (fmax (of_Z 0) (fsub (soc b) dischargeFloorSoC))
  else if flt (of_Z 0) desired && negb (chargeBlocked b)
  then fmul (capacityWh b) (fmax (of_Z 0) (fsub (of_Z 1) (soc b)))
  else of_Z 0.
Definition startCell (desired : f64) (b : batteryInfo) : cell :=
  let room := roomOf desired b in
  mkCell b (mkTarget (bDriver b) (of_Z 0) (fne desired (of_Z 0) && fle room (of_Z 0))) room.

Definition limitFor (desired : f64) (b : batteryInfo) : f64 :=
  if flt desired (of_Z 0) then bDischargeCap b else bChargeCap b.

Definition shareOf (wanted total : f64) (c : cell) : f64 := fdiv (fmul wanted (cRoom c)) total.
Definition pins (desired wanted total : f64) (c : cell) : bool :=
  flt (of_Z 0) (cRoom c) && flt (limitFor desired (cBat c)) (shareOf wanted total c).
Definition pinCell (desired wanted total : f64) (c : cell) : cell :=
  if pins desired wanted total c
  then mkCell (cBat c) (mkTarget (tDriver (cOut c)) (copysign (limitFor desired (cBat c)) desired) true) (of_Z 0)
  else c.
Definition fillCell (desired wanted total : f64) (c : cell) : cell :=
  if flt (of_Z 0) (cRoom c)
  then mkCell (cBat c) (mkTarget (tDriver (cOut c)) (copysign (shareOf wanted total c) desired) (Clamped (cOut c))) (cRoom c)
  else c.

(** One round of the loop: [inr] is the loop's end. *)
Definition shareRound (desired : f64) (st : list cell * f64) : list cell * f64 + list cell :=
  let '(cells, wanted) := st in
  if negb (flt (of_Z 0) wanted) then inr cells
  else
    let total := sumF (cRoom <$> cells) in
    if fle total (of_Z 0) then inr cells
    else if existsb (pins desired wanted total) cells
    then
      let pinnedW := sumSome (fun c => if pins desired wanted total c then Some (limitFor desired (cBat c)) else None) cells in
      inl (pinCell desired wanted total <$> cells, fsub wanted pinnedW)
    else inr (fillCell desired wanted total <$> cells).

(** Every round but the last takes the room of one battery at least. *)
Definition shareFuel (bats : list batteryInfo) : positive := Pos.of_succ_nat (length bats).
Definition shareLoop (bats : list batteryInfo) (desired : f64) : list cell * f64 + list cell :=
  Prelude.run (shareRound desired) (shareFuel bats) (startCell desired <$> bats, fabs desired).

Definition finishCell (c : cell) : DispatchTarget :=
  let '(w, was) := clampWithSoC (TargetW (cOut c)) (cBat c) in
  mkTarget (tDriver (cOut c)) w (Clamped (cOut c) || was).
Definition shareByAvailableEnergy (bats : list batteryInfo) (desired : f64) : list DispatchTarget :=
  match shareLoop bats desired with
  | inr cells => finishCell <$> cells
  | inl (cells, _) => finishCell <$> cells
  end.

(** ** The slot's energy per battery *)
Definition mapValues (f : string -> f64 -> f64) (m : gmap string f64) : gmap string f64 := map_imap (fun k w => Some (f k w)) m.

(** Where the slot stands, 0 to 1. *)
Definition elapsedOf (dir : SlotDirective) (slotS : f64) (now : Time) : f64 :=
  fmax (of_Z 0) (fmin (of_Z 1) (fdiv (Seconds (Sub now (SlotStart dir))) slotS)).

(** A battery's measured energy moves its account, when it has a budget. *)
Definition accrue (bats : list batteryInfo) (dt : f64) (d : storageSlotDelivery) : gmap string f64 :=
  fold_left (fun m b =>
      match budget d !! bDriver b with
      | Some _ => <[bDriver b := fadd (atZero m (bDriver b)) (fmul (currentW b) dt)]> m
      | None => m
      end) bats (delivered d).

(** A new budget: never behind the pace it would have had from the start. *)
Definition rebase (d : storageSlotDelivery) (acc : gmap string f64) (elapsed : f64) (id : string) (wh : f64) : f64 :=
  let actual := atZero acc id in
  let restart := match budget d !! id with Some w => flt (fmul wh w) (of_Z 0) | None => true end in
  if restart then fmul wh elapsed
  else if flt (of_Z 0) wh then fmax actual (fmul wh elapsed)
  else if flt wh (of_Z 0) then fmin actual (fmul wh elapsed)
  else actual.

Definition deliveredBy (bats : list batteryInfo) (dir : SlotDirective) (now : Time) (elapsed : f64)
    (d : storageSlotDelivery) : gmap string f64 :=
  let energy := StorageEnergyWh dir in
  if negb (Equal (dStart d) (SlotStart dir)) || IsZero (dTick d) || (5 * Minute <=? Sub now (dTick d))
  then mapValues (fun _ wh => fmul wh elapsed) energy
  else
    let dt := Hours (Sub now (dTick d)) in
    let acc := if flt (of_Z 0) dt then accrue bats dt d else delivered d in
    if negb (bool_decide (dDecision d = DecisionID dir)) || negb (mapsEqual (budget d) energy) ||
       negb (Equal (dEnd d) (SlotEnd dir))
    then mapValues (rebase d acc elapsed) energy ∪ acc
    else acc.

(** What is left of one battery's energy, never against its direction. *)
Definition remainingOf (wh done : f64) : f64 :=
  let remaining := fsub wh done in
  if flt (of_Z 0) wh then fmax (of_Z 0) remaining
  else if flt wh (of_Z 0) then fmin (of_Z 0) remaining
  else of_Z 0.

Definition plannedW (d : storageSlotDelivery) (desired remainingS : f64) (b : batteryInfo) : f64 :=
  let remaining := remainingOf (atZero (budget d) (bDriver b)) (atZero (delivered d) (bDriver b)) in
  let w := if flt (lit 5 10) remainingS then fdiv (fmul remaining (of_Z 3600)) remainingS else of_Z 0 in
  let w :=
    if fle (fmul w desired) (of_Z 0) || (flt (of_Z 0) w && chargeBlocked b) || (flt w (of_Z 0) && dischargeBlocked b)
    then of_Z 0 else w in
  fst (clampWithSoC w b).

Definition scaleTo (desired sum : f64) : f64 :=
  if flt (of_Z 0) (fmul sum desired) then fmin (of_Z 1) (fabs (fdiv desired sum)) else of_Z 0.

Definition splitPlanned (d : storageSlotDelivery) (desired remainingS : f64) (bats : list batteryInfo)
  : list DispatchTarget :=
  let targets := plannedW d desired remainingS <$> bats in
  let scale := scaleTo desired (sumF targets) in
  zip_with (fun b w => mkTarget (bDriver b) (fmul w scale) true) bats targets.

(** The commands, [None] when another split applies, the account and the
    tick's plan as they leave it. *)
Definition distributePlannedStorages (s : Site) (planStale : bool) (now : Time) (bats : list batteryInfo) (desired : f64)
    (manual : bool) (d : storageSlotDelivery)
  : option (list DispatchTarget) * storageSlotDelivery * controlPlanSnapshot :=
  if manual || negb (IsPlannerMode (sMode s)) || planStale || (length bats <? 2)%nat
  then (None, noDelivery, planSnapshot s)
  else
    let '(dir, ok, snap) := plannerSelfDirectiveAt s now in
    if negb ok || (size (StorageEnergyWh dir) <? 2)%nat then (None, noDelivery, snap)
    else if forallb (fun '(_, wh) => flt (fabs wh) (lit 1 1000000)) (map_to_list (StorageEnergyWh dir))
    then (None, noDelivery, snap)
    else if interchangeableStorages bats
    then (if existsb socMissing bats then None else Some (shareByAvailableEnergy bats desired), noDelivery, snap)
    else
      let slotS := Seconds (Sub (SlotEnd dir) (SlotStart dir)) in
      if fle slotS (of_Z 0) || Before now (SlotStart dir) || negb (Before now (SlotEnd dir)) then (None, d, snap)
      else
        let elapsed := elapsedOf dir slotS now in
        let d := mkDelivery (SlotStart dir) (SlotEnd dir) now (DecisionID dir) (StorageEnergyWh dir)
                   (deliveredBy bats dir now elapsed d) in
        (Some (splitPlanned d desired (Seconds (Sub (SlotEnd dir) now)) bats), d, snap).

(** ** Lemmas: the sharing loop *)

Lemma copysign_sides x s : le_rel (of_Z 0) x -> wf x ->
  (flt s (of_Z 0) = true -> le_rel (copysign x s) (of_Z 0)) /\ (flt (of_Z 0) s = true -> le_rel (of_Z 0) (copysign x s)).
Proof.
  rewrite of_Z_0. intros L _. split; intros S; apply flt_iff in S; unfold copysign, le_rel in *;
    destruct s as [|[]|z], x as [|[]|a]; cbn in *; repeat case_match; cbn; lia.
Qed.

(** How many batteries can still take part. *)
Definition roomy (c : cell) : bool := flt (of_Z 0) (cRoom c).

Lemma pin_no_room desired wanted total c :
  roomy (pinCell desired wanted total c) = roomy c && negb (pins desired wanted total c).
Proof.
  unfold pinCell, roomy, pins. destruct (flt (of_Z 0) (cRoom c)) eqn:E; cbn [andb]; [|now rewrite E].
  destruct (flt (limitFor _ _) _); cbn [cRoom negb]; [vm_compute; reflexivity|exact E].
Qed.

Lemma pin_count desired wanted total cells :
  countZ roomy (pinCell desired wanted total <$> cells) <= countZ roomy cells /\
  (existsb (pins desired wanted total) cells = true ->
   countZ roomy (pinCell desired wanted total <$> cells) < countZ roomy cells).
Proof.
  induction cells as [|c cells [IH1 IH2]]; [split; [reflexivity|discriminate]|].
  rewrite fmap_cons, !countZ_cons, pin_no_room. cbn [existsb].
  destruct (pins desired wanted total c) eqn:P; cbn [negb orb].
  - assert (R : roomy c = true) by (unfold pins in P; now apply andb_true_iff in P as [? _]). rewrite R. cbn [andb]. split; lia.
  - rewrite andb_true_r. destruct (roomy c); split; try lia; intros E; specialize (IH2 E); lia.
Qed.

Lemma share_loop_ends bats desired : exists cells, shareLoop bats desired = inr cells.
Proof.
  unfold shareLoop. apply (run_stops (fun _ => True) (fun st => countZ roomy (fst st))); [|exact Logic.I|].
  - intros [cells wanted] st' _. unfold shareRound. destruct (negb _); [discriminate|]. cbv zeta.
    destruct (fle _ _); [discriminate|]. destruct (existsb _ _) eqn:E; [|discriminate].
    intros [= <-]. split; [exact Logic.I|]. cbn [fst]. pose proof (pin_count desired wanted (sumF (cRoom <$> cells)) cells) as [_ L].
    specialize (L E). pose proof (countZ_bounds roomy (pinCell desired wanted (sumF (cRoom <$> cells)) <$> cells)). lia.
  - cbn [fst]. pose proof (countZ_bounds roomy (startCell desired <$> bats)) as B. rewrite length_fmap in B.
    unfold shareFuel. lia.
Qed.

(** *** What a battery may get, at every point of the loop *)
Definition maxWh : Z := 2147483648.
Record storage_ok (b : batteryInfo) : Prop := {
  so_capacity : capacity_ok (capacityWh b);
  so_size : le_rel (capacityWh b) (of_Z maxWh);
  so_soc : le_rel (of_Z 0) (soc b) /\ le_rel (soc b) (of_Z 1);
  so_caps : rank (bChargeCap b) = 0 /\ rank (bDischargeCap b) = 0;
  so_caps_wf : wf (bChargeCap b) /\ wf (bDischargeCap b)
}.

Record cell_ok (desired : f64) (c : cell) : Prop := {
  co_bat : storage_ok (cBat c);
  co_driver : tDriver (cOut c) = bDriver (cBat c);
  co_room : le_rel (of_Z 0) (cRoom c) /\ le_rel (cRoom c) (of_Z maxWh);
  co_open : roomy c = true -> blockedFor desired (cBat c) = false /\ (flt desired (of_Z 0) = true \/ flt (of_Z 0) desired = true);
  co_blocked : blockedFor desired (cBat c) = true -> TargetW (cOut c) = of_Z 0;
  co_pos : flt (of_Z 0) desired = true -> le_rel (of_Z 0) (TargetW (cOut c));
  co_neg : flt desired (of_Z 0) = true -> le_rel (TargetW (cOut c)) (of_Z 0);
  co_zero : desired = of_Z 0 -> TargetW (cOut c) = of_Z 0
}.

Lemma le_0_0 : le_rel (of_Z 0) (of_Z 0).
Proof. apply of_Z_mono; lia. Qed.

(** A share of the capacity, for a fraction of it. *)
Lemma capacity_share c k : capacity_ok c -> le_rel c (of_Z maxWh) -> le_rel (of_Z 0) k -> le_rel k (of_Z 1) ->
  le_rel (of_Z 0) (fmul c k) /\ le_rel (fmul c k) (of_Z maxWh).
Proof.
  intros (W & R & L) U K0 K1. rewrite of_Z_0 in K0. rewrite of_Z_1 in K1.
  destruct (fmul_ratio c k W R K0 K1) as (_ & P & _). destruct (P L) as [P0 P1].
  split; [exact P0|exact (le_rel_trans _ _ _ P1 U)].
Qed.

Lemma part_of_one x y : le_rel (of_Z 0) x -> le_rel x (of_Z 1) -> le_rel (of_Z 0) y -> le_rel y (of_Z 1) ->
  le_rel (of_Z 0) (fmax (of_Z 0) (fsub x y)) /\ le_rel (fmax (of_Z 0) (fsub x y)) (of_Z 1).
Proof.
  intros X0 X1 Y0 Y1. assert (N : rank (fsub x y) <> 2).
  { apply fsub_nn; apply (rank_mid (of_Z 0) _ (of_Z 1)); auto; apply of_Z_rank; lia. }
  split; [now apply fmax_0_nonneg|].
  assert (L : le_rel (fsub x y) (of_Z 1)).
  { replace (of_Z 1) with (fadd (of_Z 1) (Fin 0)) by (apply fadd_0_r, of_Z_wf).
    apply fadd_mono; [exact X1| |exact N|rewrite fadd_0_r by apply of_Z_wf; apply of_Z_nn; lia].
    rewrite of_Z_0 in Y0. exact (fneg_anti _ _ Y0). }
  apply fmax_lub; [apply of_Z_mono; lia|exact L].
Qed.

Lemma floor_soc_range : le_rel (of_Z 0) dischargeFloorSoC /\ le_rel dischargeFloorSoC (of_Z 1).
Proof. split; apply fle_iff; vm_compute; reflexivity. Qed.

Lemma roomOf_ok desired b : storage_ok b ->
  (le_rel (of_Z 0) (roomOf desired b) /\ le_rel (roomOf desired b) (of_Z maxWh)) /\
  (flt (of_Z 0) (roomOf desired b) = true ->
   blockedFor desired b = false /\ (flt desired (of_Z 0) = true \/ flt (of_Z 0) desired = true)).
Proof.
  intros [C U [S0 S1] _ _]. destruct floor_soc_range as [F0 F1]. unfold roomOf, blockedFor.
  assert (O1 : le_rel (of_Z 0) (of_Z 1) /\ le_rel (of_Z 1) (of_Z 1)) by (split; apply of_Z_mono; lia).
  destruct (flt desired (of_Z 0)) eqn:N.
  - assert (P : flt (of_Z 0) desired = false) by (apply le_flt_false, flt_le, N). rewrite P. cbn [andb].
    destruct (dischargeBlocked b) eqn:D; cbn [negb andb].
    + split; [split; apply of_Z_mono; unfold maxWh; lia|]. intros E. vm_compute in E. discriminate.
    + split; [|auto]. destruct (part_of_one _ _ S0 S1 F0 F1). now apply capacity_share.
  - cbn [andb]. destruct (flt (of_Z 0) desired) eqn:P; cbn [andb].
    2:{ split; [split; apply of_Z_mono; unfold maxWh; lia|]. intros E. vm_compute in E. discriminate. }
    destruct (chargeBlocked b) eqn:D; cbn [negb].
    + split; [split; apply of_Z_mono; unfold maxWh; lia|]. intros E. vm_compute in E. discriminate.
    + split; [|auto]. destruct O1. destruct (part_of_one (of_Z 1) (soc b)); [assumption..|]. now apply capacity_share.
Qed.

Lemma startCell_ok desired b : storage_ok b -> cell_ok desired (startCell desired b).
Proof.
  intros B. destruct (roomOf_ok desired b B) as [R O]. constructor; cbn [startCell cBat cOut cRoom tDriver TargetW]; auto using le_0_0.
Qed.

(** A share that may stand in for a battery's target. *)
Lemma signed_ok desired c w was room : cell_ok desired c -> roomy c = true -> le_rel (of_Z 0) w -> wf w ->
  room = of_Z 0 \/ room = cRoom c ->
  cell_ok desired (mkCell (cBat c) (mkTarget (tDriver (cOut c)) (copysign w desired) was) room).
Proof.
  intros [B D R O _ _ _ _] Y W0 Ww E. destruct (O Y) as [Bl Side]. destruct (copysign_sides w desired W0 Ww) as [Sn Sp].
  constructor; cbn [cBat cOut cRoom tDriver TargetW]; auto.
  - destruct E as [->| ->]; [split; apply of_Z_mono; unfold maxWh; lia|exact R].
  - congruence.
  - intros Z. exfalso. rewrite Z in Side. destruct Side as [F|F]; vm_compute in F; discriminate.
Qed.

Lemma pinCell_ok desired wanted total c : cell_ok desired c -> cell_ok desired (pinCell desired wanted total c).
Proof.
  intros C. unfold pinCell. destruct (pins desired wanted total c) eqn:P; [|exact C].
  apply andb_true_iff in P as [P _]. destruct (co_bat _ _ C) as [_ _ _ _ [Wc Wd]].
  apply signed_ok; auto; unfold limitFor; destruct (flt desired (of_Z 0)); auto; apply effectivePowerLimit_nn.
Qed.

Lemma room_total desired cells : Z.of_nat (length cells) <= 524288 -> Forall (cell_ok desired) cells ->
  rank (sumF (cRoom <$> cells)) = 0.
Proof.
  intros Hn F. assert (W : Float64.within (Z.of_nat (length (cRoom <$> cells)) * maxWh) (sumSome Some (cRoom <$> cells))).
  { apply sumSome_within; rewrite ?length_fmap; [unfold maxWh; lia|unfold maxWh; lia|]. apply Forall_fmap.
    apply (Forall_impl _ _ _ F). intros c C w [= <-]. exact (co_room _ _ C). }
  rewrite length_fmap in W. apply within_rank in W; [exact W|]. unfold maxWh. lia.
Qed.

Lemma fillCell_ok desired wanted cells c : Z.of_nat (length cells) <= 524288 -> Forall (cell_ok desired) cells ->
  flt (of_Z 0) wanted = true -> fle (sumF (cRoom <$> cells)) (of_Z 0) = false -> c ∈ cells ->
  cell_ok desired (fillCell desired wanted (sumF (cRoom <$> cells)) c).
Proof.
  intros Hn F Hw Ht Hc. assert (C : cell_ok desired c) by (rewrite Forall_forall in F; auto). unfold fillCell.
  destruct (flt (of_Z 0) (cRoom c)) eqn:P; [|exact C]. pose proof (room_total desired cells Hn F) as R.
  apply fle0_flt in Ht; [|now apply finite_nn]. apply signed_ok; auto; [|apply fdiv_wf].
  unfold shareOf. assert (N : rank (fmul wanted (cRoom c)) <> 2).
  { apply fmul_pos_nn; [now apply flt_le|exact P|]. destruct (co_room _ _ C) as [R0 R1].
    apply (rank_mid _ _ _ R0 R1); apply of_Z_rank; unfold maxWh; lia. }
  assert (M : le_rel (of_Z 0) (fmul wanted (cRoom c))) by (apply fmul_of_nonneg; [apply flt_le; assumption..|exact N]).
  apply fdiv_of_nonneg; [exact M|now apply flt_le|now apply fdiv_pos_nn].
Qed.

(** *** The loop keeps the batteries and what each may get *)
Definition loop_ok (desired : f64) (bats : list batteryInfo) (cells : list cell) : Prop :=
  cBat <$> cells = bats /\ Forall (cell_ok desired) cells.

Lemma loop_map desired bats cells f : loop_ok desired bats cells ->
  (forall c, c ∈ cells -> cBat (f c) = cBat c /\ cell_ok desired (f c)) -> loop_ok desired bats (f <$> cells).
Proof.
  intros [E _] Hf. split.
  - rewrite <- E, <- list_fmap_compose. apply list_fmap_ext. intros i c Hc. apply Hf. eapply list_elem_of_lookup_2, Hc.
  - apply Forall_fmap, Forall_forall. intros c Hc. apply Hf, Hc.
Qed.

Lemma round_ok desired bats st : Z.of_nat (length bats) <= 524288 -> loop_ok desired bats (fst st) ->
  match shareRound desired st with
  | inl st' => loop_ok desired bats (fst st')
  | inr cells => loop_ok desired bats cells
  end.
Proof.
  intros Hn. destruct st as [cells wanted]. cbn [fst]. intros L. unfold shareRound. cbv zeta.
  assert (Hl : Z.of_nat (length cells) <= 524288) by (destruct L as [<- _]; rewrite length_fmap in Hn; exact Hn).
  destruct (flt (of_Z 0) wanted) eqn:W; cbn [negb]; [|exact L]. destruct (fle _ (of_Z 0)) eqn:T; [exact L|].
  destruct (existsb _ _); cbn [fst]; apply loop_map; auto; intros c Hc; pose proof (proj2 L) as F; pose proof F as F'; rewrite Forall_forall in F'.
  - split; [unfold pinCell; now destruct (pins _ _ _ _)|]. apply pinCell_ok. auto.
  - split; [unfold fillCell; now destruct (flt _ (cRoom c))|]. now apply fillCell_ok.
Qed.

Lemma loop_result desired bats cells : Z.of_nat (length bats) <= 524288 -> Forall storage_ok bats ->
  shareLoop bats desired = inr cells -> loop_ok desired bats cells.
Proof.
  intros Hn F E. assert (S0 : loop_ok desired bats (startCell desired <$> bats)).
  { split; [rewrite <- list_fmap_compose; apply list_fmap_id|]. apply Forall_fmap. apply (Forall_impl _ _ _ F).
    intros b. apply startCell_ok. }
  pose proof (run_invariant (fun st => loop_ok desired bats (fst st)) (loop_ok desired bats) (shareRound desired)
    (fun st => round_ok desired bats st Hn) (shareFuel bats) (startCell desired <$> bats, fabs desired) S0) as R.
  unfold shareLoop in E. rewrite E in R. exact R.
Qed.

(** What a planned share may be: a share of the live target, and nothing for
    a battery that cannot move that way. *)
Definition planned_share (desired : f64) (b : batteryInfo) (t : DispatchTarget) : Prop :=
  share_ok desired b t /\ (blockedFor desired b = true -> TargetW t = of_Z 0).

Lemma clamp_zero b : fst (clampWithSoC (of_Z 0) b) = of_Z 0.
Proof.
  destruct (clampWithSoC_facts (of_Z 0) b) as (_ & _ & _ & P & N); [apply of_Z_nn; lia|].
  destruct (P le_0_0), (N le_0_0). now apply le_rel_antisym.
Qed.

Lemma sides_of desired w : rank desired <> 2 ->
  (flt (of_Z 0) desired = true -> le_rel (of_Z 0) w) -> (flt desired (of_Z 0) = true -> le_rel w (of_Z 0)) ->
  (desired = of_Z 0 -> w = of_Z 0) ->
  (le_rel (of_Z 0) desired -> le_rel (of_Z 0) w) /\ (le_rel desired (of_Z 0) -> le_rel w (of_Z 0)).
Proof.
  intros R P N Z. split; intros D.
  - destruct (flt (of_Z 0) desired) eqn:E; [auto|]. rewrite Z; [exact le_0_0|]. apply le_rel_antisym; [|exact D].
    apply flt_false; [exact E|apply of_Z_nn; lia|exact R].
  - destruct (flt desired (of_Z 0)) eqn:E; [auto|]. rewrite Z; [exact le_0_0|]. apply le_rel_antisym; [exact D|].
    apply flt_false; [exact E|exact R|apply of_Z_nn; lia].
Qed.

Lemma clamped_share desired b d w was : rank w <> 2 -> d = bDriver b ->
  (le_rel (of_Z 0) desired -> le_rel (of_Z 0) w) -> (le_rel desired (of_Z 0) -> le_rel w (of_Z 0)) ->
  share_ok desired b (mkTarget d (fst (clampWithSoC w b)) was).
Proof.
  intros R E P N. destruct (clampWithSoC_facts w b R) as (A & B & C & D & F).
  constructor; cbn [tDriver TargetW]; auto; intros Hd; [apply D|apply F]; auto.
Qed.

Lemma target_nn desired c : rank desired <> 2 -> cell_ok desired c -> rank (TargetW (cOut c)) <> 2.
Proof.
  intros R C. destruct (sides_of desired (TargetW (cOut c)) R (co_pos _ _ C) (co_neg _ _ C) (co_zero _ _ C)) as [P N].
  destruct (le_rel_total (of_Z 0) desired) as [L|L]; [apply of_Z_nn; lia|exact R| |].
  - exact (le_rel_nn_r _ _ (P L)).
  - exact (le_rel_nn_l _ _ (N L)).
Qed.

Lemma finishCell_share desired c : rank desired <> 2 -> cell_ok desired c -> planned_share desired (cBat c) (finishCell c).
Proof.
  intros R C. unfold finishCell. destruct (clampWithSoC (TargetW (cOut c)) (cBat c)) as [w was] eqn:E.
  replace w with (fst (clampWithSoC (TargetW (cOut c)) (cBat c))) by now rewrite E. clear E w. split.
  - destruct (sides_of desired (TargetW (cOut c)) R (co_pos _ _ C) (co_neg _ _ C) (co_zero _ _ C)).
    apply clamped_share; auto; [now apply (target_nn desired)|apply (co_driver _ _ C)].
  - intros B. cbn [TargetW]. rewrite (co_blocked _ _ C B). apply clamp_zero.
Qed.

Lemma available_energy_shares bats desired : rank desired <> 2 -> Z.of_nat (length bats) <= 524288 -> Forall storage_ok bats ->
  Forall2 (planned_share desired) bats (shareByAvailableEnergy bats desired).
Proof.
  intros R Hn F. unfold shareByAvailableEnergy. destruct (share_loop_ends bats desired) as [cells E]. rewrite E.
  destruct (loop_result desired bats cells Hn F E) as [<- Fc]. apply Forall2_fmap_l, Forall2_fmap_r, Forall_Forall2_diag.
  apply (Forall_impl _ _ _ Fc). intros c. now apply finishCell_share.
Qed.

(** ** Lemmas: the split by the plan's energy *)
Definition accounts_ok (d : storageSlotDelivery) : Prop :=
  map_Forall (fun _ wh => rank wh = 0) (budget d) /\ map_Forall (fun _ wh => rank wh <> 2) (delivered d).

Lemma atZero_fin m k : map_Forall (fun _ wh => rank wh = 0) m -> rank (atZero m k) = 0.
Proof. intros F. unfold atZero. destruct (m !! k) as [w|] eqn:E; [exact (F _ _ E)|apply of_Z_rank; lia]. Qed.
Lemma atZero_nn m k : map_Forall (fun _ wh => rank wh <> 2) m -> rank (atZero m k) <> 2.
Proof. intros F. unfold atZero. destruct (m !! k) as [w|] eqn:E; [exact (F _ _ E)|apply of_Z_nn; lia]. Qed.

Lemma fsub_fin_l x y : rank x = 0 -> rank y <> 2 -> rank (fsub x y) <> 2.
Proof. destruct x as [|[]|a], y as [|[]|b]; cbn; try lia. intros _ _. apply rnd_not_nan. Qed.
Lemma fmul_fin_nz x y : rank x <> 2 -> rank y = 0 -> y <> of_Z 0 -> rank (fmul x y) <> 2.
Proof.
  rewrite of_Z_0. destruct x as [|[]|a], y as [|[]|b]; cbn; try lia; intros _ _ Z; try apply rnd_not_nan;
    destruct (Z.eqb_spec b 0) as [->|]; try congruence; destruct (b <? 0); cbn; lia.
Qed.
Lemma of_Z_nz z : z <> 0 -> Z.abs z <= 2 ^ 53 -> of_Z z <> of_Z 0.
Proof. intros N B. rewrite !of_Z_fin by lia. pose proof unit64_pos. intros [= E]. nia. Qed.

Lemma remaining_nn wh done : rank wh = 0 -> rank done <> 2 -> rank (remainingOf wh done) <> 2.
Proof.
  intros W D. pose proof (fsub_fin_l wh done W D) as S. assert (Z : rank (of_Z 0) <> 2) by (apply of_Z_nn; lia).
  unfold remainingOf. destruct (flt _ wh); [now apply fmax_nn|]. destruct (flt wh _); [now apply fmin_nn|exact Z].
Qed.

(** The power asked of one battery before its clamp. *)
Definition rawPlannedW (d : storageSlotDelivery) (remainingS : f64) (b : batteryInfo) : f64 :=
  if flt (lit 5 10) remainingS
  then fdiv (fmul (remainingOf (atZero (budget d) (bDriver b)) (atZero (delivered d) (bDriver b))) (of_Z 3600)) remainingS
  else of_Z 0.
Lemma rawPlanned_nn d remainingS b : accounts_ok d -> rank remainingS = 0 -> rank (rawPlannedW d remainingS b) <> 2.
Proof.
  intros [B D] R. unfold rawPlannedW. destruct (flt _ remainingS) eqn:E; [|apply of_Z_nn; lia].
  apply fdiv_pos_nn; [|eapply le_flt_trans; [|exact E]; apply fle_iff; vm_compute; reflexivity|exact R].
  apply fmul_fin_nz; [|apply of_Z_rank; lia|apply of_Z_nz; lia].
  apply remaining_nn; [now apply atZero_fin|now apply atZero_nn].
Qed.

Definition openW (desired : f64) (b : batteryInfo) (w : f64) : f64 :=
  if fle (fmul w desired) (of_Z 0) || (flt (of_Z 0) w && chargeBlocked b) || (flt w (of_Z 0) && dischargeBlocked b)
  then of_Z 0 else w.

Lemma plannedW_eq d desired remainingS b :
  plannedW d desired remainingS b = fst (clampWithSoC (openW desired b (rawPlannedW d remainingS b)) b).
Proof. reflexivity. Qed.

Lemma flt_flip x y : flt x y = true -> flt y x = false.
Proof. intros E. apply le_flt_false, flt_le, E. Qed.

(** Against the sign of the live target, or blocked, it is nothing. *)
Lemma openW_sides desired b w : rank w <> 2 -> rank desired = 0 -> desired <> of_Z 0 ->
  (flt (of_Z 0) desired = true -> le_rel (of_Z 0) (openW desired b w)) /\
  (flt desired (of_Z 0) = true -> le_rel (openW desired b w) (of_Z 0)) /\
  (blockedFor desired b = true -> openW desired b w = of_Z 0).
Proof.
  intros Rw Rd Nd. unfold openW, blockedFor. destruct (fle (fmul w desired) (of_Z 0)) eqn:E; cbn [orb].
  { split_and!; auto using le_0_0. }
  pose proof (fmul_fin_nz w desired Rw Rd Nd) as N. apply fle0_flt in E; [|exact N].
  assert (S : (flt (of_Z 0) desired = true -> flt (of_Z 0) w = true) /\ (flt desired (of_Z 0) = true -> flt w (of_Z 0) = true)).
  { clear Nd. rewrite of_Z_0, !flt_iff in *. destruct w as [|[]|a], desired as [|[]|c]; cbn in *; try lia.
    - destruct (Z.eqb_spec c 0); [cbn in *; lia|]. destruct (Z.ltb_spec c 0); cbn in *; lia.
    - destruct (Z.eqb_spec c 0); [cbn in *; lia|]. destruct (Z.ltb_spec c 0); cbn in *; lia.
    - split; intros (_ & _ & C).
      + destruct (Z.lt_ge_cases 0 a) as [P|P]; [lia|exfalso].
        pose proof (rnd_nonpos (a * c) unit64 ltac:(nia) unit64_pos) as U. unfold le_rel in U. cbn in U. lia.
      + destruct (Z.lt_ge_cases a 0) as [P|P]; [lia|exfalso].
        pose proof (rnd_nonpos (a * c) unit64 ltac:(nia) unit64_pos) as U. unfold le_rel in U. cbn in U. lia. }
  destruct S as [Sp Sn].
  destruct (flt (of_Z 0) desired) eqn:P.
  - rewrite (Sp eq_refl), (flt_flip _ _ (Sp eq_refl)), (flt_flip _ _ P). cbn [andb orb]. rewrite orb_false_r.
    destruct (chargeBlocked b); split_and!; auto using le_0_0; try discriminate. intros _. now apply flt_le, Sp.
  - destruct (flt desired (of_Z 0)) eqn:M.
    + rewrite (Sn eq_refl), (flt_flip _ _ (Sn eq_refl)). cbn [andb orb].
      destruct (dischargeBlocked b); split_and!; auto using le_0_0; try discriminate. intros _. now apply flt_le, Sn.
    + exfalso. apply Nd. apply le_rel_antisym; apply flt_false; auto using finite_nn; apply of_Z_nn; lia.
Qed.

Lemma fmin_1_range x : le_rel (of_Z 0) x -> le_rel (of_Z 0) (fmin (of_Z 1) x) /\ le_rel (fmin (of_Z 1) x) (of_Z 1).
Proof.
  intros L. assert (L01 : le_rel (of_Z 0) (of_Z 1)) by (apply of_Z_mono; lia).
  split; [now apply fmin_glb|]. destruct (le_rel_total (of_Z 1) x) as [M|M];
    [apply of_Z_nn; lia|exact (le_rel_nn_r _ _ L)|rewrite fmin_l by exact M; apply of_Z_mono; lia|now rewrite fmin_r].
Qed.

Lemma scaleTo_facts desired sum : rank desired = 0 ->
  (le_rel (of_Z 0) (scaleTo desired sum) /\ le_rel (scaleTo desired sum) (of_Z 1)) /\
  (scaleTo desired sum = of_Z 0 \/ desired <> of_Z 0).
Proof.
  intros Rd. unfold scaleTo. destruct (flt (of_Z 0) (fmul sum desired)) eqn:E.
  2:{ split; [split; apply of_Z_mono; lia|now left]. }
  assert (S : rank sum <> 2 /\ sum <> of_Z 0 /\ desired <> of_Z 0).
  { rewrite of_Z_0 in *. destruct sum as [|[]|a], desired as [|[]|c]; cbn in *; try lia; try discriminate E.
    - split_and!; [lia|congruence|]. intros [= ->]. discriminate E.
    - split_and!; [lia|congruence|]. intros [= ->]. discriminate E.
    - split_and!; [lia| |]; intros [= ->]; rewrite ?Z.mul_0_l, ?Z.mul_0_r in E; discriminate E. }
  destruct S as (Rs & Ns & Nd). split; [|now right]. apply fmin_1_range.
  assert (N : rank (fdiv desired sum) <> 2).
  { rewrite of_Z_0 in Ns. destruct sum as [|[]|a], desired as [|[]|c]; cbn in *; try lia.
    destruct (Z.eqb_spec a 0); [congruence|apply rnd_not_nan]. }
  rewrite of_Z_0. destruct (fdiv desired sum) as [|[]|q]; unfold le_rel; cbn in *; lia.
Qed.

Lemma clamped_fin w b : rank w <> 2 -> storage_ok b -> rank (fst (clampWithSoC w b)) = 0.
Proof.
  intros R B. destruct (clampWithSoC_facts w b R) as (L & U & _). destruct (so_caps _ B) as [C D].
  apply (rank_mid _ _ _ L U); [now apply fneg_fin|exact C].
Qed.
Lemma clamped_wf w b : wf w -> storage_ok b -> wf (fst (clampWithSoC w b)).
Proof.
  intros W B. destruct (so_caps_wf _ B) as [C D]. unfold clampWithSoC.
  destruct (_ && _); destruct (flt (bChargeCap b) _); cbn [fst]; auto;
    destruct (flt _ (fneg (bDischargeCap b))); cbn [fst]; auto using of_Z_wf, fneg_wf.
Qed.
Lemma openW_wf desired b w : wf w -> wf (openW desired b w).
Proof. intros W. unfold openW. destruct (_ || _); [apply of_Z_wf|exact W]. Qed.
Lemma rawPlannedW_wf d remainingS b : wf (rawPlannedW d remainingS b).
Proof. unfold rawPlannedW. destruct (flt _ remainingS); [apply fdiv_wf|apply of_Z_wf]. Qed.

Lemma scaled_share desired b w k : le_rel (of_Z 0) k -> le_rel k (of_Z 1) -> wf w -> rank w = 0 ->
  planned_share desired b (mkTarget (bDriver b) w true) -> planned_share desired b (mkTarget (bDriver b) (fmul w k) true).
Proof.
  intros K0 K1 W R [[D L U E P N] B]. cbn [tDriver TargetW] in *. rewrite of_Z_0 in K0. rewrite of_Z_1 in K1.
  destruct (fmul_ratio w k W R K0 K1) as (F & Sp & Sn). pose proof (cap_order _ _ (effectivePowerLimit_nn (maxChargeW b) (maxChargeWSet b))
    (effectivePowerLimit_nn (maxDischargeW b) (maxDischargeWSet b))) as _.
  assert (H0 : le_rel (of_Z 0) w \/ le_rel w (of_Z 0)) by (apply le_rel_total; [apply of_Z_nn; lia|now apply finite_nn]).
  split; [constructor; cbn [tDriver TargetW]|].
  - reflexivity.
  - destruct H0 as [H0|H0].
    + eapply le_rel_trans; [apply neg_cap_nonpos, effectivePowerLimit_nn|apply Sp, H0].
    + eapply le_rel_trans; [exact L|apply Sn, H0].
  - destruct H0 as [H0|H0].
    + eapply le_rel_trans; [apply Sp, H0|exact U].
    + eapply le_rel_trans; [apply Sn, H0|apply effectivePowerLimit_nn].
  - intros Em. apply Sp, E, Em.
  - intros Hd. apply Sp, P, Hd.
  - intros Hd. apply Sn, N, Hd.
  - intros Bl. cbn [TargetW] in *. rewrite (B Bl) in *. destruct (Sp le_0_0), (Sn le_0_0). now apply le_rel_antisym.
Qed.

Lemma fmul_0_fin w : wf w -> rank w = 0 -> fmul w (of_Z 0) = of_Z 0.
Proof.
  intros W R. rewrite of_Z_0. destruct w as [|[]|a]; try discriminate R. cbn. rewrite Z.mul_0_r. reflexivity.
Qed.

Lemma zero_share desired b was : planned_share desired b (mkTarget (bDriver b) (of_Z 0) was).
Proof. split; [destruct (park_share desired b) as [D L U E P N]; constructor; auto|reflexivity]. Qed.

Lemma splitPlanned_shares d desired remainingS bats : rank desired = 0 -> rank remainingS = 0 -> accounts_ok d ->
  Forall storage_ok bats -> Forall2 (planned_share desired) bats (splitPlanned d desired remainingS bats).
Proof.
  intros Rd Rr A F. unfold splitPlanned. set (sum := sumF _). destruct (scaleTo_facts desired sum Rd) as [[K0 K1] Z].
  set (k := scaleTo desired sum) in *. clearbody k. clear sum.
  induction F as [|b bats B _ IH]; [constructor|]. cbn [fmap list_fmap zip_with]. constructor; [|exact IH].
  rewrite plannedW_eq. pose proof (rawPlanned_nn d remainingS b A Rr) as Rw.
  set (raw := rawPlannedW d remainingS b) in *. assert (Wr : wf raw) by apply rawPlannedW_wf. clearbody raw.
  assert (Ro : rank (openW desired b raw) <> 2) by (unfold openW; destruct (_ || _); [apply of_Z_nn; lia|exact Rw]).
  assert (Wc : wf (fst (clampWithSoC (openW desired b raw) b))) by (apply clamped_wf; [now apply openW_wf|exact B]).
  pose proof (clamped_fin (openW desired b raw) b Ro B) as Rc.
  destruct Z as [->|Nd]; [rewrite fmul_0_fin by assumption; apply zero_share|].
  apply scaled_share; auto. destruct (openW_sides desired b raw Rw Rd Nd) as (P & N & Bl). split.
  - destruct (sides_of desired (openW desired b raw) (finite_nn _ Rd) P N) as [P' N']; [congruence|].
    now apply clamped_share.
  - intros Hb. cbn [TargetW]. rewrite (Bl Hb). apply clamp_zero.
Qed.

(** *** The accounts stay numbers *)
Lemma Sub_range t u : u <= t -> 0 <= Sub t u <= max_int64.
Proof. unfold Sub, max_int64, min_int64. lia. Qed.

Lemma elapsedOf_range dir slotS now : SlotStart dir <= now -> flt (of_Z 0) slotS = true -> rank slotS = 0 ->
  le_rel (of_Z 0) (elapsedOf dir slotS now) /\ le_rel (elapsedOf dir slotS now) (of_Z 1).
Proof.
  intros L P R. unfold elapsedOf. destruct (Seconds_fact (Sub now (SlotStart dir)) (Sub_range _ _ L)) as [Rs Ls].
  set (x := Seconds _) in *. clearbody x.
  assert (N : le_rel (of_Z 0) (fdiv x slotS)).
  { apply fdiv_of_nonneg; [exact Ls|now apply flt_le|]. apply fdiv_pos_nn; [now apply finite_nn|exact P|exact R]. }
  destruct (fmin_1_range _ N) as [N0 N1]. rewrite fmax_r by exact N0. now split.
Qed.

Definition live_ok (b : batteryInfo) : Prop := wf (currentW b) /\ rank (currentW b) = 0.

Lemma fadd_fin_nn' x y : rank x <> 2 -> rank y = 0 -> rank (fadd x y) <> 2.
Proof. destruct x as [|[]|a], y as [|[]|b]; cbn; try lia. intros _ _. apply rnd_not_nan. Qed.

Lemma accrue_nn bats dt d : Forall live_ok bats -> le_rel (of_Z 0) dt -> le_rel dt (of_Z 1) -> accounts_ok d ->
  map_Forall (fun _ wh => rank wh <> 2) (accrue bats dt d).
Proof.
  intros F D0 D1 [_ D]. unfold accrue. revert D. generalize (delivered d) as m. induction F as [|b bats [W R] _ IH]; intros m D; [exact D|].
  cbn [fold_left]. apply IH. destruct (budget d !! bDriver b); [|exact D]. apply map_Forall_insert_2; [|exact D].
  apply fadd_fin_nn'; [now apply atZero_nn|]. rewrite of_Z_0 in D0. rewrite of_Z_1 in D1. apply (fmul_ratio _ _ W R D0 D1).
Qed.

Definition energy_ok (dir : SlotDirective) : Prop := map_Forall (fun _ wh => wf wh /\ rank wh = 0) (StorageEnergyWh dir).

Lemma mapValues_Forall (P : f64 -> Prop) (Q : f64 -> Prop) f m : map_Forall (fun _ wh => Q wh) m ->
  (forall k wh, Q wh -> P (f k wh)) -> map_Forall (fun _ wh => P wh) (mapValues f m).
Proof.
  intros M Hf k w E. unfold mapValues in E. rewrite map_lookup_imap in E. destruct (m !! k) as [x|] eqn:Ex; [|discriminate].
  injection E as <-. apply Hf, (M _ _ Ex).
Qed.

Lemma scaled_energy wh k : wf wh -> rank wh = 0 -> le_rel (of_Z 0) k -> le_rel k (of_Z 1) -> rank (fmul wh k) = 0.
Proof. intros W R K0 K1. rewrite of_Z_0 in K0. rewrite of_Z_1 in K1. apply (fmul_ratio _ _ W R K0 K1). Qed.

Lemma rebase_nn d acc elapsed id wh : wf wh -> rank wh = 0 -> le_rel (of_Z 0) elapsed -> le_rel elapsed (of_Z 1) ->
  map_Forall (fun _ w => rank w <> 2) acc -> rank (rebase d acc elapsed id wh) <> 2.
Proof.
  intros W R E0 E1 A. pose proof (finite_nn _ (scaled_energy wh elapsed W R E0 E1)) as N. pose proof (atZero_nn acc id A) as Na.
  unfold rebase. cbv zeta. set (restart := match budget d !! id with Some _ => _ | None => _ end). destruct restart; [exact N|].
  destruct (flt (of_Z 0) wh); [now apply fmax_nn|]. destruct (flt wh (of_Z 0)); [now apply fmin_nn|exact Na].
Qed.

Lemma dt_range now tick : 0 < Sub now tick < 5 * Minute ->
  le_rel (of_Z 0) (Hours (Sub now tick)) /\ le_rel (Hours (Sub now tick)) (of_Z 1).
Proof.
  intros D. destruct (Hours_fact (Sub now tick)) as (R & N & _ & _); [unfold max_int64, Minute, Second in *; lia|].
  split; [exact N|]. unfold Hours. fold (rem_hours (Z.rem (Sub now tick) Hour)).
  unfold Minute, Second in D. rewrite Z.quot_small, Z.rem_small by (unfold Hour, Minute, Second; lia).
  pose proof (rem_hours_mono (Sub now tick) 300000000000 ltac:(lia) ltac:(lia) ltac:(reflexivity)) as M.
  destruct (rem_hours_fact (Sub now tick)) as (Rr & L & _); [unfold Hour, Minute, Second; lia|].
  rewrite of_Z_0. rewrite fadd_comm, fadd_0_r by (unfold rem_hours; apply fdiv_wf).
  eapply le_rel_trans; [exact M|]. apply fle_iff. vm_compute. reflexivity.
Qed.

Lemma deliveredBy_nn bats dir now elapsed d : Forall live_ok bats -> energy_ok dir -> accounts_ok d ->
  le_rel (of_Z 0) elapsed -> le_rel elapsed (of_Z 1) ->
  map_Forall (fun _ wh => rank wh <> 2) (deliveredBy bats dir now elapsed d).
Proof.
  intros F En A E0 E1. unfold deliveredBy. cbv zeta.
  destruct (_ || (5 * Minute <=? Sub now (dTick d))) eqn:Reset.
  { apply (mapValues_Forall _ (fun wh => wf wh /\ rank wh = 0)); [exact En|]. intros _ wh [W R]. now apply finite_nn, scaled_energy. }
  apply orb_false_iff in Reset as [_ Gap]. apply Z.leb_gt in Gap.
  set (acc := if flt (of_Z 0) _ then accrue _ _ _ else delivered d).
  assert (Na : map_Forall (fun _ wh => rank wh <> 2) acc).
  { unfold acc. destruct (flt (of_Z 0) (Hours (Sub now (dTick d)))) eqn:P; [|apply A].
    assert (D : 0 < Sub now (dTick d)).
    { destruct (Z.lt_ge_cases 0 (Sub now (dTick d))) as [L|L]; [exact L|exfalso]. apply (flt_le_contra _ _ P), Hours_nonpos. unfold Sub, max_int64, min_int64 in *. lia. }
    destruct (dt_range now (dTick d)) as [D0 D1]; [lia|]. now apply accrue_nn. }
  clearbody acc. destruct (_ || _); [|exact Na].
  apply map_Forall_union_2; [|exact Na].
  apply (mapValues_Forall _ (fun wh => wf wh /\ rank wh = 0)); [exact En|]. intros k wh [W R]. now apply rebase_nn.
Qed.

(** *** Whose commands they are, whatever the numbers *)
Definition cells_of (bats : list batteryInfo) (cells : list cell) : Prop :=
  cBat <$> cells = bats /\ Forall (fun c => tDriver (cOut c) = bDriver (cBat c)) cells.

Lemma cells_map bats cells f : cells_of bats cells -> (forall c, cBat (f c) = cBat c /\ tDriver (cOut (f c)) = tDriver (cOut c)) ->
  cells_of bats (f <$> cells).
Proof.
  intros [E D] Hf. split.
  - rewrite <- E, <- list_fmap_compose. apply list_fmap_ext. intros i c _. apply Hf.
  - apply Forall_fmap. apply (Forall_impl _ _ _ D). intros c Ec. unfold compose. destruct (Hf c) as [-> ->]. exact Ec.
Qed.

Lemma round_cells desired bats st : cells_of bats (fst st) ->
  match shareRound desired st with inl st' => cells_of bats (fst st') | inr cells => cells_of bats cells end.
Proof.
  destruct st as [cells wanted]. cbn [fst]. intros C. unfold shareRound. cbv zeta.
  destruct (negb _); [exact C|]. destruct (fle _ _); [exact C|].
  destruct (existsb _ _); cbn [fst]; apply cells_map; auto; intros c.
  - unfold pinCell. now destruct (pins _ _ _ _).
  - unfold fillCell. now destruct (flt _ _).
Qed.

Lemma available_energy_drivers bats desired : tDriver <$> shareByAvailableEnergy bats desired = bDriver <$> bats.
Proof.
  assert (S0 : cells_of bats (startCell desired <$> bats)).
  { split; [rewrite <- list_fmap_compose; apply list_fmap_id|]. apply Forall_fmap, Forall_true. reflexivity. }
  pose proof (run_invariant (fun st => cells_of bats (fst st)) (cells_of bats) (shareRound desired)
    (round_cells desired bats) (shareFuel bats) (startCell desired <$> bats, fabs desired) S0) as R.
  assert (G : forall cells, cells_of bats cells -> tDriver <$> (finishCell <$> cells) = bDriver <$> bats).
  { clear. intros cells [<- D]. induction D as [|c cells E D IH]; [reflexivity|]. cbn [fmap list_fmap]. f_equal; [|exact IH].
    unfold finishCell. destruct (clampWithSoC _ _). exact E. }
  unfold shareByAvailableEnergy, shareLoop in *. destruct (Prelude.run _ _ _) as [[cells w]|cells]; apply G, R.
Qed.

Lemma splitPlanned_drivers d desired remainingS bats : tDriver <$> splitPlanned d desired remainingS bats = bDriver <$> bats.
Proof.
  unfold splitPlanned. set (scale := scaleTo _ _). clearbody scale. induction bats as [|b bats IH]; [reflexivity|].
  cbn [fmap list_fmap zip_with]. f_equal. exact IH.
Qed.

Lemma planned_drivers s stale now bats desired manual d :
  match fst (fst (distributePlannedStorages s stale now bats desired manual d)) with
  | Some ts => tDriver <$> ts = bDriver <$> bats
  | None => True
  end.
Proof.
  unfold distributePlannedStorages. destruct (_ || _); [exact Logic.I|].
  destruct (plannerSelfDirectiveAt s now) as [[dir ok] snap]. destruct (_ || _); [exact Logic.I|].
  destruct (forallb _ _); [exact Logic.I|]. destruct (interchangeableStorages bats).
  { cbn [fst]. destruct (existsb _ _); [exact Logic.I|apply available_energy_drivers]. }
  cbv zeta. destruct (_ || negb (Before now (SlotEnd dir))); [exact Logic.I|]. cbn [fst]. apply splitPlanned_drivers.
Qed.

(** ** Properties *)

(** The loop that shares a target among interchangeable batteries always
    ends. Each round but the last takes one battery out, so it is over within
    one round more than there are batteries, for any capacities, states of
    charge and targets, numbers or not. For batteries with plain capacities
    the result is one command per battery, inside its limits, never against
    the target, and nothing for a battery that cannot move that way. *)
Theorem sharing_ends (bats : list batteryInfo) (desired : f64) :
  (exists cells, shareLoop bats desired = inr cells /\
                 shareByAvailableEnergy bats desired = finishCell <$> cells) /\
  (rank desired <> 2 -> Z.of_nat (length bats) <= 524288 -> Forall storage_ok bats ->
   Forall2 (planned_share desired) bats (shareByAvailableEnergy bats desired)).
Proof.
  split; [|apply available_energy_shares]. destruct (share_loop_ends bats desired) as [cells E].
  exists cells. split; [exact E|]. unfold shareByAvailableEnergy. now rewrite E.
Qed.

(** The batteries' planned shares are safe and their accounts stay
    numbers. Whatever the slot, the account and the live target, each battery
    gets one command inside its own limits that never moves it against the
    live target; a blocked battery gets nothing, an empty one no discharge;
    and no account of delivered energy ever becomes NaN. *)
Theorem planned_storages_safe (s : Site) (planStale manual : bool) (now : Time) (bats : list batteryInfo) (desired : f64)
    (d : storageSlotDelivery)
    (Hd : rank desired = 0) (Hn : Z.of_nat (length bats) <= 524288)
    (Hb : Forall storage_ok bats) (Hl : Forall live_ok bats)
    (Hp : energy_ok (fst (fst (plannerSelfDirectiveAt s now)))) (Ha : accounts_ok d) :
  let '(out, d', _) := distributePlannedStorages s planStale now bats desired manual d in
  accounts_ok d' /\ match out with Some ts => Forall2 (planned_share desired) bats ts | None => True end.
Proof.
  assert (A0 : accounts_ok noDelivery) by (split; apply map_Forall_empty).
  unfold distributePlannedStorages. destruct (_ || _); [now split|].
  destruct (plannerSelfDirectiveAt s now) as [[dir ok] snap]. cbn [fst] in Hp.
  destruct (_ || _); [now split|]. destruct (forallb _ _); [now split|].
  destruct (interchangeableStorages bats).
  { split; [exact A0|]. destruct (existsb _ _); [exact Logic.I|]. apply available_energy_shares; auto using finite_nn. }
  cbv zeta. destruct (_ || negb (Before now (SlotEnd dir))) eqn:Slot; [now split|].
  apply orb_false_iff in Slot as [Slot Open]. apply orb_false_iff in Slot as [Long Begun].
  unfold Before in *. apply negb_false_iff, Z.ltb_lt in Open. apply Z.ltb_ge in Begun.
  destruct (Seconds_fact (Sub (SlotEnd dir) (SlotStart dir))) as [Rs _]; [apply Sub_range; lia|].
  destruct (Seconds_fact (Sub (SlotEnd dir) now)) as [Rr _]; [apply Sub_range; lia|].
  apply fle0_flt in Long; [|now apply finite_nn].
  destruct (elapsedOf_range dir _ now Begun Long Rs) as [E0 E1].
  set (d' := mkDelivery _ _ _ _ _ _). assert (A : accounts_ok d').
  { split; [intros k wh E; now destruct (Hp k wh E)|]. now apply deliveredBy_nn. }
  split; [exact A|]. now apply splitPlanned_shares.
Qed.

(** ** Witnesses *)
Definition demoStorage (name : string) (wh soc : f64) : batteryInfo :=
  mkBattery name wh (of_Z 0) soc true "" (of_Z 0) (of_Z 0) false false false false false false.
Definition demoStorages : list batteryInfo :=
  [demoStorage "b1" (of_Z 10000) (lit 8 10); demoStorage "b2" (of_Z 5000) (lit 4 10)].
Definition storageSlot : SlotDirective :=
  mkSlot 0 "p" (10 * Minute) (25 * Minute) (of_Z (-500)) {["b1"%string := of_Z (-400); "b2"%string := of_Z (-100)]}
    (of_Z 0) "arbitrage" (of_Z 0) false noCurtailment (of_Z 0) false (of_Z 0) ∅ ∅ false.
Definition storageSite : Site :=
  mkSite ModePlannerArbitrage "meter" (of_Z 16) (of_Z 230) 3 (of_Z 0) (of_Z 0) (of_Z 0)
    (of_Z 0) (of_Z 0) (of_Z 0) (of_Z 0) false (of_Z 0) (of_Z 0) (of_Z 0) ∅ [] false 5 2
    (Some (fun _ => (storageSlot, true))) None noSnapshot (of_Z 0) (of_Z 0) ∅.

Lemma demo_storages_ok : Forall storage_ok demoStorages /\ Forall live_ok demoStorages.
Proof.
  assert (C : forall z, 0 <= z <= maxWh -> capacity_ok (of_Z z)).
  { intros z Hz. split_and!; [apply of_Z_wf|apply of_Z_rank; unfold maxWh in *; lia|apply of_Z_mono; unfold maxWh in *; lia]. }
  assert (B : forall n z x, 0 <= z <= maxWh -> le_rel (of_Z 0) x -> le_rel x (of_Z 1) -> storage_ok (demoStorage n (of_Z z) x)).
  { intros n z x Hz X0 X1. constructor; [exact (C z Hz)|apply of_Z_mono; unfold maxWh in *; lia|now split| |].
    - split; vm_compute; reflexivity.
    - split; change (wf (of_Z 5000)); apply of_Z_wf. }
  split; (apply Forall_cons_2; [|apply Forall_cons_2; [|apply Forall_nil_2]]);
    try (split; [apply of_Z_wf|apply of_Z_rank; lia]);
    (apply B; [unfold maxWh; lia|apply fle_iff; vm_compute; reflexivity|apply fle_iff; vm_compute; reflexivity]).
Defined.

Definition storageRun : option (list DispatchTarget) * storageSlotDelivery * controlPlanSnapshot :=
  distributePlannedStorages storageSite false (12 * Minute) demoStorages (of_Z (-3000)) false noDelivery.

Lemma planned_storages_safe_witness :
  accounts_ok (snd (fst storageRun)) /\
  exists ts, fst (fst storageRun) = Some ts /\ Forall2 (planned_share (of_Z (-3000))) demoStorages ts.
Proof.
  assert (P : energy_ok (fst (fst (plannerSelfDirectiveAt storageSite (12 * Minute))))).
  { intros k wh E. change (StorageEnergyWh storageSlot !! k = Some wh) in E. unfold storageSlot in E. cbn [StorageEnergyWh] in E.
    apply lookup_insert_Some in E as [[_ <-]|[_ E]]; [split; [apply of_Z_wf|apply of_Z_rank; lia]|].
    apply lookup_singleton_Some in E as [_ <-]. split; [apply of_Z_wf|apply of_Z_rank; lia]. }
  destruct demo_storages_ok as [B L].
  pose proof (planned_storages_safe storageSite false false (12 * Minute) demoStorages (of_Z (-3000)) noDelivery
    ltac:(apply of_Z_rank; lia) ltac:(cbn; lia) B L P ltac:(split; apply map_Forall_empty)) as T.
  assert (O : match fst (fst storageRun) with Some _ => true | None => false end = true) by (vm_compute; reflexivity).
  fold storageRun in T. destruct storageRun as [[out d'] snap]. cbn [fst snd] in *.
  destruct T as [A T]. split; [exact A|]. destruct out as [ts|]; [exists ts; now split|discriminate O].
Defined.

Lemma sharing_ends_witness :
  Forall2 (planned_share (of_Z (-3000))) demoStorages (shareByAvailableEnergy demoStorages (of_Z (-3000))).
Proof.
  refine (proj2 (sharing_ends demoStorages (of_Z (-3000))) _ _ _).
  - apply of_Z_nn. lia.
  - cbn. lia.
  - exact (proj1 demo_storages_ok).
Defined.
