(* ===== verification/SlotDelivery.v ===== *)
(** * What a price slot delivered (go/internal/control/dispatch.go)

    The measured energy of a price slot beside the decisions that applied
    while it was measured, and the three counters of slots that missed their
    plan. Dispatch reads none of it. *)
From Stdlib Require Import ZArith Lia.
From S2P Require Import Prelude Float64 GoTime Json Kalman Health Telemetry Limits Units.
From S2P Require Import CommandLog PIController Site PlanIntent.
From stdpp Require Import base gmap strings list.
#[local] Open Scope Z_scope.

Definition slotDeliveryOverThreshold : f64 := lit 15 10.
Definition slotDeliveryUnderThreshold : f64 := lit 5 10.
Definition slotDeliveryIdleWhCutoff : f64 := of_Z 50.
Definition slotDeliveryMaxTickDtS : f64 := of_Z 300.

(** uint64 counters. *)
Record SlotDeliveryStats : Type := mkStats {
  OverDeliveryCount : Z; UnderDeliveryCount : Z; SignMismatchCount : Z
}.

(** The [slotActual...] fields of [State] and the counters. *)
Record slotActual : Type := mkActual {
  slotActualReplans : Z;
  slotActualDirective : SlotDirective;
  slotPlannedPastWh : f64;
  slotActualWh : f64;
  slotActualLastTs : Time;
  slotActualSlotStart : Time;
  slotActualPlannedWh : f64;
  Stats : SlotDeliveryStats
}.
Definition noActual : slotActual := mkActual 0 noSlot (of_Z 0) (of_Z 0) 0 0 (of_Z 0) (mkStats 0 0 0).

Definition scoreSlotDeliveryMetrics (plannedWh actualWh : f64) (c : SlotDeliveryStats) : SlotDeliveryStats :=
  if negb (flt slotDeliveryIdleWhCutoff (fabs plannedWh)) then c
  else if flt (fmul plannedWh actualWh) (of_Z 0) && flt slotDeliveryIdleWhCutoff (fabs actualWh)
  then mkStats (OverDeliveryCount c) (UnderDeliveryCount c) (wrap_u64 (SignMismatchCount c + 1))
  else
    let ratio := fdiv (fabs actualWh) (fmax (fabs plannedWh) (of_Z 1)) in
    if flt slotDeliveryOverThreshold ratio
    then mkStats (wrap_u64 (OverDeliveryCount c + 1)) (UnderDeliveryCount c) (SignMismatchCount c)
    else if flt ratio slotDeliveryUnderThreshold
    then mkStats (OverDeliveryCount c) (wrap_u64 (UnderDeliveryCount c + 1)) (SignMismatchCount c)
    else c.

(** The hours since the last tick that both accounts take. *)
Definition observedHours (x : slotActual) (now : Time) : option f64 :=
  let previous := slotActualDirective x in
  let dt := Seconds (Sub now (slotActualLastTs x)) in
  if flt (of_Z 0) dt && flt dt slotDeliveryMaxTickDtS && negb (IsZero (SlotStart previous)) then
    let start := if Before (slotActualLastTs x) (SlotStart previous) then SlotStart previous else slotActualLastTs x in
    let stop := if After now (SlotEnd previous) then SlotEnd previous else now in
    if After stop start then Some (Hours (Sub stop start)) else None
  else None.

Definition accrueSlot (x : slotActual) (currentTotalW : f64) (now : Time) : slotActual :=
  match observedHours x now with
  | None => x
  | Some hours =>
      mkActual (slotActualReplans x) (slotActualDirective x)
        (fadd (slotPlannedPastWh x) (fmul (averageBatteryW (slotActualDirective x)) hours))
        (fadd (slotActualWh x) (fmul currentTotalW hours))
        (slotActualLastTs x) (slotActualSlotStart x) (slotActualPlannedWh x) (Stats x)
  end.

(** The end of a price slot, or a replan within it. *)
Definition rollSlot (x : slotActual) (dir : SlotDirective) (bucket : Time) : slotActual :=
  let previous := slotActualDirective x in
  if negb (Equal bucket (slotActualSlotStart x))
  then mkActual 0 previous (of_Z 0) (of_Z 0) (slotActualLastTs x) (slotActualSlotStart x) (slotPlannedPastWh x)
         (scoreSlotDeliveryMetrics (slotPlannedPastWh x) (slotActualWh x) (Stats x))
  else if negb (IsZero (SlotStart previous)) &&
          (negb (bool_decide (DecisionID previous = DecisionID dir)) || negb (Equal (SlotStart previous) (SlotStart dir)) ||
           fne (BatteryEnergyWh previous) (BatteryEnergyWh dir))
  then mkActual (wrap_u64 (slotActualReplans x + 1)) previous (slotPlannedPastWh x) (slotActualWh x) (slotActualLastTs x)
         (slotActualSlotStart x) (slotActualPlannedWh x) (Stats x)
  else x.

Definition updateSlotDeliveryMetrics (s : Site) (currentTotalW : f64) (now : Time) (x : slotActual)
  : slotActual * controlPlanSnapshot :=
  match SlotDirectiveFn s with
  | None => (x, planSnapshot s)
  | Some _ =>
      let '(dir, ok, snap) := plannerSelfDirectiveAt s now in
      if negb ok
      then (mkActual (slotActualReplans x) noSlot (slotPlannedPastWh x) (slotActualWh x) now (slotActualSlotStart x)
              (slotActualPlannedWh x) (Stats x), snap)
      else
        let bucket := priceSlotStart dir in
        let x := if negb (IsZero (slotActualSlotStart x)) then rollSlot (accrueSlot x currentTotalW now) dir bucket else x in
        let remaining := Hours (Sub (SlotEnd dir) now) in
        let remaining := if flt remaining (of_Z 0) then of_Z 0 else remaining in
        (mkActual (slotActualReplans x) dir (slotPlannedPastWh x) (slotActualWh x) now bucket
           (fadd (slotPlannedPastWh x) (fmul (averageBatteryW dir) remaining)) (Stats x), snap)
  end.

(** What the API shows. *)
Record SlotEnergySnapshot : Type := mkEnergy {
  HasSlot : bool; eDecisionID : string; PlannedWh : f64; PlannedSoFarWh : f64; ActualWh : f64; EnergyPathWh : f64;
  eSlotStart : Time; eSlotEnd : Time
}.
Definition SlotEnergy (decisionID : string) (slotDelivered : f64) (currentDirective : SlotDirective) (x : slotActual)
  : SlotEnergySnapshot :=
  let start := slotActualSlotStart x in
  let stop := SlotEnd (slotActualDirective x) in
  mkEnergy (negb (IsZero start)) decisionID (slotActualPlannedWh x) (slotPlannedPastWh x) (slotActualWh x) slotDelivered
    start (if IsZero stop && negb (IsZero (SlotStart currentDirective)) then SlotStart currentDirective else stop).
