(* ===== verification/ImportHour.v ===== *)
(** * The clock hour's import budget (go/internal/control/import_hour.go)

    The import ceiling bills like a power tariff, on the mean import over each
    local clock hour. [hourImport] is that hour as the site meter measured it
    and the two limits it sets. The zone's rules are not under src/: [zone] is
    its UTC offset at each instant. *)
From Stdlib Require Import ZArith Lia.
From S2P Require Import Prelude Float64 GoTime Json Kalman Health Telemetry Limits CommandLog.
From S2P Require Import Site.
From stdpp Require Import base gmap strings list.
#[local] Open Scope Z_scope.

Definition importHourChangeEvery : Duration := Minute.
Definition importHourRiseGap : Duration := 5 * Minute.
Definition importHourRiseMinLeft : Duration := 15 * Minute.

Record hourImport : Type := mkHour {
  hStart : Time;
  importedWh : f64;
  unknown : Duration;
  lastAt : Time;
  lastW : f64;
  ceilingW : f64;
  limitW : f64;
  riseW : f64;
  changedAt : Time;
  cutAt : Time;
  hSeen : bool;
  seenCeiling : f64
}.

(** A composite literal that sets only the hour's account. *)
Definition newHour (start : Time) (wh : f64) (unk : Duration) (at' : Time) (w : f64) : hourImport :=
  mkHour start wh unk at' w (of_Z 0) (of_Z 0) (of_Z 0) zeroTime zeroTime false (of_Z 0).
Definition noHour : hourImport := newHour zeroTime (of_Z 0) 0 zeroTime (of_Z 0).

Definition setAccount (wh : f64) (unk : Duration) (h : hourImport) : hourImport :=
  mkHour (hStart h) wh unk (lastAt h) (lastW h) (ceilingW h) (limitW h) (riseW h) (changedAt h)
    (cutAt h) (hSeen h) (seenCeiling h).
Definition setLast (at' : Time) (w : f64) (h : hourImport) : hourImport :=
  mkHour (hStart h) (importedWh h) (unknown h) at' w (ceilingW h) (limitW h) (riseW h) (changedAt h)
    (cutAt h) (hSeen h) (seenCeiling h).
Definition setLimits (ceiling limit rise : f64) (changed cut : Time) (h : hourImport) : hourImport :=
  mkHour (hStart h) (importedWh h) (unknown h) (lastAt h) (lastW h) ceiling limit rise changed cut
    (hSeen h) (seenCeiling h).
Definition setSeen (ceiling : f64) (h : hourImport) : hourImport :=
  mkHour (hStart h) (importedWh h) (unknown h) (lastAt h) (lastW h) (ceilingW h) (limitW h) (riseW h)
    (changedAt h) (cutAt h) true ceiling.

Section Zone.
(** The UTC offset in force at an instant. *)
Variable zone : Time -> Duration.

(** The local clock's minutes, seconds and nanoseconds taken off. *)
Definition importHourStart (t : Time) : Time := t - (t + zone t) mod Hour.

Definition SeedHourImport (at' : Time) (importWh : f64) (covered : Duration) (h : hourImport)
  : hourImport :=
  if negb (finite importWh) || flt importWh (of_Z 0) then h
  else
    let start := importHourStart at' in
    newHour start importWh (Z.max 0 (wrap64 (Sub at' start - covered))) at' NaN.

(** ** The hour's rate *)
Definition hourRateW (s : Site) (at' : Time) (h : hourImport) : f64 :=
  let ceiling := PeakImportCeilingW s in
  if negb (flt (of_Z 0) ceiling) then of_Z 0
  else
    let leftWh := fsub (fmul ceiling (fsub (of_Z 1) (Hours (unknown h)))) (importedWh h) in
    let left := Z.max Second (Sub (hStart h + Hour) at') in
    fmax (of_Z 0) (fdiv leftWh (Hours left)).

(** ** Counting import into each clock hour it spans *)
Definition rollHour (t : Time) (h : hourImport) : hourImport :=
  let start := importHourStart t in
  if Equal start (hStart h) then h else newHour start (of_Z 0) 0 (lastAt h) (lastW h).

(** One turn of the loop over the hours from [from] to [to]. *)
Definition addHourStep (s : Site) (to : Time) (prevW w : f64) (gap : bool) (st : Time * hourImport)
  : Time * hourImport + hourImport :=
  let '(from, h) := st in
  if Before from to then
    let h := rollHour from h in
    let end' := hStart h + Hour in
    let end' := if Before to end' then to else end' in
    let rateW := fdiv (fadd prevW w) (of_Z 2) in
    let rateW := if gap then fmax (fmax prevW w) (hourRateW s from h) else rateW in
    inl (end', setAccount (fadd (importedWh h) (fmul rateW (Hours (Sub end' from)))) (unknown h) h)
  else inr h.

(** [None] is a loop that has not ended; [add_hour_ends] shows it never is. *)
Definition addHourImport (s : Site) (from to : Time) (w : f64) (gap : bool) (h : hourImport)
  : option hourImport :=
  let prevW := if isNaN (lastW h) then w else lastW h in
  match run (addHourStep s to prevW w gap) (Z.to_pos (Z.max 0 (to - from) + 1)) (from, h) with
  | inl _ => None
  | inr h => Some (rollHour to h)
  end.

(** ** Moving the limits *)
Definition riseStepW (s : Site) : f64 :=
  fmul (fmul evStepA (SiteFuseVoltage s)) (of_Z (SiteFusePhases s)).

(** The rest of the step, once the ceiling in force set the limits. *)
Definition moveLimits (s : Site) (at' : Time) (gap : bool) (ceiling : f64) (h : hourImport)
  : hourImport :=
  let rateW := hourRateW s at' h in
  if (Sub at' (changedAt h) <? importHourChangeEvery) || (gap && fle (limitW h) rateW) then h
  else
    let cut := if flt rateW (fsub (limitW h) (of_Z 1)) then at' else cutAt h in
    let h := setLimits (ceilingW h) rateW (fmin (riseW h) rateW) at' cut h in
    let step := riseStepW s in
    let left := Sub (hStart h + Hour) at' in
    if gap || negb (flt (of_Z 0) step) || (Sub at' (cutAt h) <? importHourRiseGap) ||
       (left <? importHourRiseMinLeft) || flt rateW (fadd (riseW h) (fmul (of_Z 2) step))
    then h
    else
      let rise :=
        fadd (riseW h)
          (fmul step (fsub (ffloor (fdiv (fsub rateW (riseW h)) step)) (of_Z 1))) in
      setLimits (ceilingW h) (limitW h) rise (changedAt h) (cutAt h) h.

Definition stepHourImportLimits (s : Site) (at' : Time) (gap : bool) (h : hourImport) : hourImport :=
  let ceiling := PeakImportCeilingW s in
  let ceiling := if negb (flt (of_Z 0) ceiling) then of_Z 0 else ceiling in
  let h :=
    if hSeen h && fne ceiling (seenCeiling h) && flt (of_Z 0) ceiling
    then setAccount (of_Z 0) (Sub at' (hStart h)) h else h in
  let h := setSeen ceiling h in
  if feq ceiling (of_Z 0) then setLimits (of_Z 0) (limitW h) (riseW h) (changedAt h) (cutAt h) h
  else if fne (ceilingW h) ceiling then
    let rateW := hourRateW s at' h in
    setLimits ceiling rateW (fmin ceiling rateW) at' zeroTime h
  else moveLimits s at' gap ceiling h.

(** The store's newest site-meter reading counts once. *)
Definition freshSiteReading (s : Site) (now : Time) (store : Store) (h : hourImport)
  : option (f64 * Time) :=
  match OnlineMeterW (SiteMeterDriver s) store with
  | Some (gridW, at') =>
      if IsZero at' || negb (After at' (lastAt h)) || After at' now then None else Some (gridW, at')
  | None => None
  end.

Definition observe (s : Site) (gridW : f64) (at' : Time) (h : hourImport) : option hourImport :=
  let w := fmax (of_Z 0) gridW in
  let counted :=
    if IsZero (lastAt h) then
      let start := importHourStart at' in
      Some (newHour start (of_Z 0) (Sub at' start) zeroTime (of_Z 0), false)
    else
      let from := lastAt h in
      let gap := evSettle <? Sub at' from in
      let from := if Hour <? Sub at' from then importHourStart at' else from in
      match addHourImport s from at' w gap h with
      | Some h => Some (h, gap)
      | None => None
      end in
  match counted with
  | None => None
  | Some (h, gap) => Some (stepHourImportLimits s at' gap (setLast at' w h))
  end.

Definition ObserveSiteImport (s : Site) (now : Time) (store : Store) (h : hourImport)
  : option hourImport :=
  match freshSiteReading s now store h with
  | None => Some h
  | Some (gridW, at') => observe s gridW at' h
  end.

(** ** What the limits are *)
Definition importHourMeasured (s : Site) (now : Time) (h : hourImport) : bool :=
  flt (of_Z 0) (PeakImportCeilingW s) && feq (ceilingW h) (PeakImportCeilingW s) &&
  Equal (importHourStart now) (hStart h).

(** [(limitW, riseW)], [None] while the ceiling is off. *)
Definition importHourLimitsW (s : Site) (now : Time) (h : hourImport) : option (f64 * f64) :=
  if negb (flt (of_Z 0) (PeakImportCeilingW s)) then None
  else if negb (importHourMeasured s now h) then Some (PeakImportCeilingW s, PeakImportCeilingW s)
  else Some (limitW h, riseW h).

Definition importLimitSets (s : Site) (now : Time) (h : hourImport) (ceiling : f64) : bool :=
  match importHourLimitsW s now h with Some (l, _) => fle l ceiling | None => false end.

Definition effectiveImportCeilingW (s : Site) (now : Time) (h : hourImport) (fuseMaxW : f64) : f64 :=
  let eff := fsub fuseMaxW (fuseSafetyMarginW s) in
  let eff := if flt eff (of_Z 0) then of_Z 0 else eff in
  match importHourLimitsW s now h with
  | Some (l, _) => if flt l eff then l else eff
  | None => eff
  end.

Definition importRiseCeilingW (s : Site) (now : Time) (h : hourImport) (fuseMaxW : f64) : f64 :=
  let eff := effectiveImportCeilingW s now h fuseMaxW in
  match importHourLimitsW s now h with
  | Some (_, r) => if flt r eff then r else eff
  | None => eff
  end.

(** [(W, MeanW, HourStart, ElapsedWh)], and [None] for the zero value. *)
Definition PlanningImportCeiling (s : Site) (now : Time) (h : hourImport)
  : option (f64 * f64 * Time * f64) :=
  let ceiling := PeakImportCeilingW s in
  if negb (flt (of_Z 0) ceiling) then None
  else
    let start := importHourStart now in
    let elapsedWh :=
      if importHourMeasured s now h
      then fadd (importedWh h) (fmul ceiling (Hours (unknown h)))
      else fmul ceiling (Hours (Sub now start)) in
    Some (ceiling, fmax (of_Z 0) (fsub ceiling (fdiv (riseStepW s) (of_Z 2))), start, elapsedWh).

(** [(Start, ImportedWh, Covered)], and [None] for the zero value. *)
Definition MeasuredHourImport (now : Time) (h : hourImport) : option (Time * f64 * Duration) :=
  if IsZero (lastAt h) || negb (Equal (importHourStart now) (hStart h)) then None
  else Some (hStart h, importedWh h, Z.max 0 (wrap64 (Sub (lastAt h) (hStart h) - unknown h))).

(** [(leftWh, limitW)], [None] while the ceiling is off. *)
Definition ImportHourStatus (s : Site) (now : Time) (h : hourImport) (fuseMaxW : f64)
  : option (f64 * f64) :=
  match importHourLimitsW s now h with
  | None => None
  | Some (l, _) =>
      let leftWh :=
        if Equal (importHourStart now) (hStart h)
        then fsub (fmul (PeakImportCeilingW s) (fsub (of_Z 1) (Hours (unknown h)))) (importedWh h)
        else PeakImportCeilingW s in
      let l := if flt (of_Z 0) fuseMaxW then effectiveImportCeilingW s now h fuseMaxW else l in
      Some (leftWh, l)
  end.

(** What every operation keeps: no negative import, limits that are numbers at
    least zero, and the clock hour of the newest reading. *)
Record hour_ok (h : hourImport) : Prop := {
  ok_wh : le_rel (of_Z 0) (importedWh h);
  ok_unknown : 0 <= unknown h <= max_int64;
  ok_lastW : isNaN (lastW h) = true \/ le_rel (of_Z 0) (lastW h);
  ok_limit : le_rel (of_Z 0) (limitW h);
  ok_limit_wf : wf (limitW h)
}.
Definition inHour (h : hourImport) : Prop := IsZero (lastAt h) = true \/ hStart h = importHourStart (lastAt h).

Definition ceiling_ok (s : Site) : Prop :=
  finite (PeakImportCeilingW s) = true /\ wf (PeakImportCeilingW s).

(** ** Lemmas: the local clock hour *)
Lemma importHourStart_bounds t : importHourStart t <= t < importHourStart t + Hour.
Proof.
  unfold importHourStart. pose proof (Z.mod_pos_bound (t + zone t) Hour ltac:(reflexivity)). lia.
Qed.

Lemma rollHour_start t h : hStart (rollHour t h) = importHourStart t.
Proof.
  unfold rollHour, Equal. destruct (Z.eqb_spec (importHourStart t) (hStart h)); [auto|reflexivity].
Qed.

Lemma rollHour_last t h : lastAt (rollHour t h) = lastAt h /\ lastW (rollHour t h) = lastW h.
Proof. unfold rollHour. destruct (Equal _ _); auto. Qed.

Lemma addHourStep_progress s to prevW w gap from h st :
  addHourStep s to prevW w gap (from, h) = inl st -> from < fst st <= to.
Proof.
  unfold addHourStep, Before. destruct (Z.ltb_spec from to) as [L|]; [|discriminate].
  intros H. injection H as <-. cbn [fst]. rewrite rollHour_start.
  pose proof (importHourStart_bounds from).
  destruct (Z.ltb_spec to (importHourStart from + Hour)); lia.
Qed.

Lemma addHourImport_total s from to w gap h : exists h', addHourImport s from to w gap h = Some h'.
Proof.
  unfold addHourImport. cbv zeta. set (pw := if isNaN (lastW h) then w else lastW h).
  destruct (run_stops (fun _ : Time * hourImport => True) (fun st => Z.max 0 (to - fst st))
    (addHourStep s to pw w gap)) with (p := Z.to_pos (Z.max 0 (to - from) + 1)) (a := (from, h))
    as [b E]; [|exact I|cbn [fst]; lia|rewrite E; eauto].
  intros [f0 h0] a' _ E. apply addHourStep_progress in E. cbn [fst]. split; [exact I|lia].
Qed.

Lemma addHourImport_start s from to w gap h h' :
  addHourImport s from to w gap h = Some h' -> hStart h' = importHourStart to.
Proof.
  unfold addHourImport. destruct (run _ _ _); [discriminate|]. intros H. injection H as <-.
  apply rollHour_start.
Qed.

Lemma step_keeps_account s at' gap h :
  let h' := stepHourImportLimits s at' gap h in
  hStart h' = hStart h /\ lastAt h' = lastAt h /\ lastW h' = lastW h.
Proof.
  cbv zeta. unfold stepHourImportLimits, moveLimits. cbv zeta.
  repeat (case_match; try (cbn; auto; fail)).
Qed.

Lemma observe_total s w at' h :
  exists h', observe s w at' h = Some h' /\ lastAt h' = at' /\ hStart h' = importHourStart at'.
Proof.
  unfold observe. cbv zeta. destruct (IsZero (lastAt h)).
  - eexists. split; [reflexivity|].
    match goal with |- lastAt (stepHourImportLimits _ _ ?g ?x) = _ /\ _ =>
      destruct (step_keeps_account s at' g x) as (-> & -> & _) end. auto.
  - match goal with |- context [addHourImport ?a ?b ?c ?d ?e ?f] =>
      destruct (addHourImport_total a b c d e f) as [h' E] end.
    rewrite E. eexists. split; [reflexivity|].
    match goal with |- lastAt (stepHourImportLimits _ _ ?g ?x) = _ /\ _ =>
      destruct (step_keeps_account s at' g x) as (-> & -> & _) end.
    split; [reflexivity|]. cbn. exact (addHourImport_start _ _ _ _ _ _ _ E).
Qed.

Lemma freshSiteReading_after s now store h w at' :
  freshSiteReading s now store h = Some (w, at') -> lastAt h < at' <= now /\ finite w = true.
Proof.
  unfold freshSiteReading, OnlineMeterW, OnlineRawW. intros E.
  destruct (readings store !! key (SiteMeterDriver s) DerMeter) as [r|]; [|discriminate].
  destruct (isNaN (RawW r) || isInf (RawW r)) eqn:Ef; [discriminate|].
  destruct (live _ _); [|discriminate].
  destruct (IsZero (UpdatedAt r) || _ || _) eqn:Ea; [discriminate|].
  injection E as <- <-. bool_hyps. unfold After in *.
  split; [lia|]. destruct (RawW r) as [|[]|]; try discriminate; reflexivity.
Qed.

(** ** Lemmas: the account and the limits stay numbers *)
Lemma Sub_hour t u : u <= t < u + Hour -> 0 <= Sub t u <= max_int64 /\ Sub t u = t - u.
Proof. unfold Hour, Minute, Second. intros. rewrite Sub_exact by (unfold min_int64, max_int64; lia).
  unfold max_int64. lia. Qed.

Lemma rate_nonneg s at' h : ceiling_ok s -> hour_ok h -> le_rel (of_Z 0) (hourRateW s at' h).
Proof.
  intros [Hc Wc] [Hwh Hu _ _ _]. unfold hourRateW. cbv zeta. apply finite_iff in Hc.
  destruct (flt (of_Z 0) (PeakImportCeilingW s)) eqn:E; cbn [negb]; [|apply of_Z_mono; lia].
  destruct (Hours_fact _ Hu) as (Ru & Nu & _ & Bu).
  set (left := Z.max Second _).
  assert (Hl : 0 < left <= max_int64).
  { unfold left, Sub, max_int64, min_int64, Second. lia. }
  destruct (Hours_fact left ltac:(lia)) as (Rl & _ & Pl & _). specialize (Pl ltac:(lia)).
  apply fmax_0_nonneg, fdiv_pos_nn; [|exact Pl|exact Rl].
  set (k := fsub (of_Z 1) (Hours (unknown h))).
  assert (R1 : rank (of_Z 1) = 0) by (apply of_Z_rank; lia).
  assert (Nk : rank k <> 2) by (apply fsub_nn; assumption).
  assert (Lk : le_rel k (of_Z 1)).
  { apply fsub_le; [apply of_Z_wf| |now apply finite_nn|exact Nk]. now rewrite <- of_Z_0. }
  assert (Bk : le_rel (fsub (of_Z 1) (of_Z 2562048)) k).
  { apply fadd_mono; [now apply le_rel_refl, finite_nn|now apply fneg_anti|vm_compute; discriminate|exact Nk]. }
  assert (Rk : rank k = 0) by (refine (rank_mid _ _ _ Bk Lk _ R1); vm_compute; reflexivity).
  apply (fsub_nn_bounded _ (PeakImportCeilingW s)); [now apply fmul_nn| |exact Hc|exact Hwh].
  rewrite <- (fmul_1_r _ Wc) at 2. rewrite <- of_Z_1.
  apply fmul_mono_r; try assumption. now apply flt_le.
Qed.

Lemma newHour_ok start at' w unk :
  0 <= unk <= max_int64 -> isNaN w = true \/ le_rel (of_Z 0) w -> hour_ok (newHour start (of_Z 0) unk at' w).
Proof.
  intros Hu Hw. assert (Z0 : le_rel (of_Z 0) (of_Z 0)) by (apply of_Z_mono; lia).
  constructor; cbn; auto. apply of_Z_wf.
Qed.

Lemma rollHour_ok t h : hour_ok h -> hour_ok (rollHour t h).
Proof.
  intros Hh. unfold rollHour. destruct (Equal _ _); [exact Hh|].
  apply newHour_ok; [unfold max_int64; lia|apply Hh].
Qed.

(** What the step adds is never negative, whatever the rate rounds to. *)
Lemma addHourStep_ok s to prevW w gap from h :
  ceiling_ok s -> le_rel (of_Z 0) prevW -> le_rel (of_Z 0) w -> hour_ok h ->
  match addHourStep s to prevW w gap (from, h) with inl st => hour_ok (snd st) | inr h' => hour_ok h' end.
Proof.
  intros Hc Hp Hw Hh. unfold addHourStep, Before. destruct (Z.ltb_spec from to) as [L|]; [|exact Hh].
  cbn [snd]. pose proof (rollHour_ok from h Hh) as Ho. pose proof (rollHour_start from h) as Hs.
  set (h1 := rollHour from h) in *. clearbody h1. pose proof (importHourStart_bounds from) as Hb.
  set (end' := if to <? hStart h1 + Hour then to else hStart h1 + Hour).
  assert (He : from < end' <= from + Hour) by (unfold end'; rewrite Hs; destruct (Z.ltb_spec to (importHourStart from + Hour)); lia).
  destruct (Hours_fact (Sub end' from)) as (Rd & Nd & Pd & _).
  { unfold Sub, min_int64, max_int64, Hour, Minute, Second in *. lia. }
  specialize (Pd ltac:(unfold Sub, min_int64, max_int64, Hour, Minute, Second in *; lia)).
  set (rate := if gap then _ else _).
  assert (Hr : le_rel (of_Z 0) rate).
  { unfold rate. destruct gap.
    - apply fmax_nonneg; [now apply fmax_nonneg|now apply rate_nonneg].
    - assert (P2 : flt (of_Z 0) (of_Z 2) = true) by (vm_compute; reflexivity).
      apply fdiv_of_nonneg; [now apply fadd_of_nonneg|now apply flt_le|].
      apply fdiv_pos_nn; [now apply fadd_nn_nonneg|exact P2|apply of_Z_rank; lia]. }
  destruct Ho. constructor; cbn; auto.
  apply fadd_of_nonneg; [assumption|].
  apply fmul_of_nonneg; [exact Hr|exact Nd|now apply fmul_pos_nn].
Qed.

Lemma addHourImport_ok s from to w gap h h' :
  ceiling_ok s -> le_rel (of_Z 0) w -> hour_ok h -> addHourImport s from to w gap h = Some h' -> hour_ok h'.
Proof.
  intros Hc Hw Hh. unfold addHourImport. cbv zeta. set (pw := if isNaN (lastW h) then w else lastW h).
  assert (Hp : le_rel (of_Z 0) pw).
  { unfold pw. destruct (isNaN (lastW h)) eqn:E; [exact Hw|].
    destruct (ok_lastW h Hh) as [E'|L]; [congruence|exact L]. }
  pose proof (run_invariant (fun st : Time * hourImport => hour_ok (snd st)) hour_ok
    (addHourStep s to pw w gap)) as R.
  specialize (R ltac:(intros [f0 h0] H0; now apply addHourStep_ok)
    (Z.to_pos (Z.max 0 (to - from) + 1)) (from, h) Hh).
  destruct (run _ _ _) as [st|h1]; [discriminate|]. intros E. injection E as <-. now apply rollHour_ok.
Qed.

Lemma setLimits_ok c l r ch cut h :
  hour_ok h -> le_rel (of_Z 0) l -> wf l -> hour_ok (setLimits c l r ch cut h).
Proof. intros [] Hl Wl. constructor; assumption. Qed.
Lemma rate_wf s at' h : wf (hourRateW s at' h).
Proof. unfold hourRateW. cbv zeta. case_match; auto with f64. Qed.
Lemma setSeen_ok c h : hour_ok h -> hour_ok (setSeen c h).
Proof. intros []. constructor; assumption. Qed.

Lemma moveLimits_ok s at' gap c h : ceiling_ok s -> hour_ok h -> hour_ok (moveLimits s at' gap c h).
Proof.
  intros Hc Hh. unfold moveLimits. cbv zeta. pose proof (rate_nonneg s at' h Hc Hh) as Hr.
  set (cut := if flt _ _ then at' else _). clearbody cut.
  case_match; [exact Hh|]. set (h1 := setLimits _ _ _ _ cut h).
  assert (H1 : hour_ok h1) by (apply setLimits_ok; [assumption..|apply rate_wf]).
  case_match; [exact H1|]. apply setLimits_ok; [exact H1|apply H1..].
Qed.

Lemma stepHourImportLimits_ok s at' gap h :
  ceiling_ok s -> hour_ok h -> hStart h <= at' < hStart h + Hour ->
  hour_ok (stepHourImportLimits s at' gap h).
Proof.
  intros Hc Hh Ha. unfold stepHourImportLimits. cbv zeta.
  set (c := if negb _ then of_Z 0 else _). clearbody c.
  set (h1 := if hSeen h && _ && _ then _ else h).
  assert (H1 : hour_ok h1).
  { unfold h1. case_match; [|exact Hh]. destruct Hh. constructor; cbn; auto.
    - apply of_Z_mono; lia.
    - now apply Sub_hour. }
  clearbody h1. set (h2 := setSeen c h1). assert (H2 : hour_ok h2) by now apply setSeen_ok. clearbody h2.
  case_match; [apply setLimits_ok; [exact H2|apply H2..]|].
  case_match; [|now apply moveLimits_ok].
  apply setLimits_ok; [exact H2|now apply rate_nonneg|apply rate_wf].
Qed.

Lemma observe_ok s w at' h h' :
  ceiling_ok s -> hour_ok h -> finite w = true -> observe s w at' h = Some h' -> hour_ok h'.
Proof.
  intros Hc Hh Fw. unfold observe. cbv zeta. apply finite_iff in Fw.
  assert (Hw : le_rel (of_Z 0) (fmax (of_Z 0) w)) by now apply fmax_0_nonneg, finite_nn.
  set (w0 := fmax (of_Z 0) w) in *. clearbody w0. pose proof (importHourStart_bounds at') as Hb.
  assert (F : forall g h1, hour_ok h1 -> hStart h1 = importHourStart at' ->
    hour_ok (stepHourImportLimits s at' g (setLast at' w0 h1))).
  { intros g h1 H1 E1. apply stepHourImportLimits_ok; [exact Hc| |cbn; lia].
    destruct H1. constructor; cbn; auto. }
  destruct (IsZero (lastAt h)).
  - intros E. injection E as <-. apply F; [|reflexivity]. apply newHour_ok; [now apply Sub_hour|].
    right. apply of_Z_mono; lia.
  - match goal with |- context [addHourImport ?a ?b ?c ?d ?e ?f] =>
      destruct (addHourImport a b c d e f) as [h1|] eqn:E1; [|discriminate] end.
    intros E. injection E as <-. apply F; [|exact (addHourImport_start _ _ _ _ _ _ _ E1)].
    exact (addHourImport_ok _ _ _ _ _ _ _ Hc Hw Hh E1).
Qed.

(** ** A run of the account *)
Inductive import_op : Type :=
| OpSeed (at' : Time) (importWh : f64) (covered : Duration)
| OpObserve (s : Site) (now : Time) (store : Store).

Definition import_step (acc : option hourImport) (o : import_op) : option hourImport :=
  match acc, o with
  | Some h, OpSeed at' wh cov => Some (SeedHourImport at' wh cov h)
  | Some h, OpObserve s now store => ObserveSiteImport s now store h
  | None, _ => None
  end.
Definition import_run (ops : list import_op) : option hourImport :=
  fold_left import_step ops (Some noHour).

Definition op_ok (o : import_op) : Prop :=
  match o with OpObserve s _ _ => ceiling_ok s | OpSeed _ _ _ => True end.

Lemma seed_ok at' wh cov h : hour_ok h -> hour_ok (SeedHourImport at' wh cov h).
Proof.
  intros Hh. unfold SeedHourImport. destruct (negb (finite wh) || flt wh (of_Z 0)) eqn:E; [exact Hh|].
  apply orb_false_iff in E as [E1 E2]. apply negb_false_iff, finite_iff in E1. cbv zeta.
  set (d := Sub at' (importHourStart at') - cov).
  pose proof (wrap64_bounds d). constructor; cbn.
  - apply flt_false; [exact E2|now apply finite_nn|apply of_Z_nn; lia].
  - unfold max_int64 in *. lia.
  - left. reflexivity.
  - apply of_Z_mono; lia.
  - apply of_Z_wf.
Qed.

Lemma import_step_ok h o :
  op_ok o -> hour_ok h -> inHour h -> exists h', import_step (Some h) o = Some h' /\ hour_ok h' /\ inHour h'.
Proof.
  intros Ho Hh Hi. destruct o as [at' wh cov|s now store]; cbn [import_step].
  - exists (SeedHourImport at' wh cov h). split_and!; [reflexivity|now apply seed_ok|].
    unfold SeedHourImport. case_match; [exact Hi|]. right. reflexivity.
  - unfold ObserveSiteImport. destruct (freshSiteReading s now store h) as [[w at']|] eqn:Ef; [|eauto].
    destruct (observe_total s w at' h) as (h' & E & El & Es). exists h'. split_and!; [exact E| |].
    + apply freshSiteReading_after in Ef as [_ Fw]. exact (observe_ok _ _ _ _ _ Ho Hh Fw E).
    + right. congruence.
Qed.

(** One move of limits the ceiling in force set. *)
Lemma moveLimits_calm s at' gap c h :
  le_rel (of_Z 0) (hourRateW s at' h) -> rank (riseW h) <> 2 -> rank (limitW h) <> 2 -> wf (limitW h) ->
  let h' := moveLimits s at' gap c h in
  (Sub at' (changedAt h) < Minute -> limitW h' = limitW h /\ riseW h' = riseW h) /\
  (gap = true -> le_rel (limitW h') (limitW h)) /\
  (gap = true \/ Sub at' (cutAt h') < 5 * Minute \/ Sub (hStart h + Hour) at' < 15 * Minute ->
   le_rel (riseW h') (riseW h)) /\
  (flt (limitW h') (fsub (limitW h) (of_Z 1)) = true -> cutAt h' = at').
Proof.
  intros Nr Hr Hn Wl. cbv zeta. unfold moveLimits. cbv zeta.
  set (rate := hourRateW s at' h) in *. clearbody rate.
  assert (Lself : le_rel (limitW h) (limitW h)) by now apply le_rel_refl.
  assert (Rself : le_rel (riseW h) (riseW h)) by now apply le_rel_refl.
  assert (Mr : le_rel (fmin (riseW h) rate) (riseW h)).
  { destruct (fmin_spec (riseW h) rate Hr (le_rel_nn_r _ _ Nr)) as [[-> _]|[-> L]]; assumption. }
  destruct ((Sub at' (changedAt h) <? importHourChangeEvery) || gap && fle (limitW h) rate) eqn:E1.
  { split_and!; auto. intros H. exfalso. refine (flt_le_contra _ _ H _).
    apply fsub_le; [exact Wl|rewrite <- of_Z_0; apply of_Z_mono; lia|exact Hn|].
    apply flt_iff in H. tauto. }
  apply orb_false_iff in E1 as [E1 E2]. apply Z.ltb_ge in E1.
  assert (G : gap = true -> le_rel rate (limitW h)).
  { intros ->. apply fle_false; [exact E2|exact Hn|exact (le_rel_nn_r _ _ Nr)]. }
  set (cut := if flt rate _ then at' else _).
  assert (Hcut : flt rate (fsub (limitW h) (of_Z 1)) = true -> cut = at')
    by (unfold cut; now intros ->).
  clearbody cut. cbn [setLimits riseW cutAt hStart limitW changedAt].
  destruct (gap || _ || _ || _ || _) eqn:E3; cbn [setLimits riseW cutAt limitW].
  - split_and!; auto. unfold importHourChangeEvery in E1. lia.
  - apply orb_false_iff in E3 as [E3 _]. apply orb_false_iff in E3 as [E3 E4].
    apply orb_false_iff in E3 as [E3 E5]. apply orb_false_iff in E3 as [E3 _].
    apply Z.ltb_ge in E4, E5. unfold importHourRiseGap, importHourRiseMinLeft, importHourChangeEvery in *.
    split_and!; auto; [lia|]. intros [H|[H|H]]; [congruence|lia|lia].
Qed.

(** ** Properties *)

(** The hour's account never breaks. Any sequence of boot seeds and site
    observations, with any clock, store and finite ceiling, ends (the loop
    over the hours a reading spans always finishes), and leaves an account
    with no negative import, a limit that is a number at least zero, and the
    clock hour of the newest reading. *)
Theorem hour_account_invariant (ops : list import_op) :
  Forall op_ok ops ->
  exists h, import_run ops = Some h /\ hour_ok h /\ inHour h.
Proof.
  induction ops as [|o ops IH] using rev_ind; intros H.
  - exists noHour. split_and!; [reflexivity| |left; reflexivity].
    apply newHour_ok; [unfold max_int64; lia|right; apply of_Z_mono; lia].
  - apply Forall_app in H as [H1 [H2 _]%Forall_cons].
    destruct (IH H1) as (h & E & Hh & Hi). unfold import_run in *. rewrite fold_left_app, E.
    exact (import_step_ok h o H2 Hh Hi).
Qed.

(** A site-meter reading counts once. An observation always returns; one
    with no newer reading of a live meter, or with one from the future, leaves
    the account as it is; any other moves it to the reading's time and clock
    hour, and observing the same store again at any time changes nothing. *)
Theorem site_reading_counts_once (s : Site) (now : Time) (store : Store) (h : hourImport) :
  exists h', ObserveSiteImport s now store h = Some h' /\
    match freshSiteReading s now store h with
    | None => h' = h
    | Some (_, at') =>
        lastAt h < at' <= now /\ lastAt h' = at' /\ hStart h' = importHourStart at' /\
        forall now', ObserveSiteImport s now' store h' = Some h'
    end.
Proof.
  unfold ObserveSiteImport. destruct (freshSiteReading s now store h) as [[w at']|] eqn:Ef; [|eauto].
  destruct (observe_total s w at' h) as (h' & E & El & Es). exists h'.
  pose proof (freshSiteReading_after _ _ _ _ _ _ Ef) as [Ha _]. split_and!; try assumption; try lia.
  intros now'. assert (En : freshSiteReading s now' store h' = None); [|now rewrite En].
  unfold freshSiteReading in *. destruct (OnlineMeterW _ _) as [[w1 at1]|]; [|reflexivity].
  destruct (IsZero at1 || _ || _); [discriminate|]. injection Ef as -> ->.
  unfold After. rewrite El, Z.ltb_irrefl. cbn [negb]. now rewrite orb_true_r.
Qed.

(** The hour's limits never hunt. While the ceiling in force set them they
    stand for at least a minute; a reading after a gap raises neither; and a
    rise is refused within five minutes of the last cut and in the hour's last
    quarter. A drop of the limit by more than a watt is recorded as a cut. *)
Theorem hour_limits_never_hunt (s : Site) (at' : Time) (gap : bool) (h : hourImport) :
  ceiling_ok s -> hour_ok h -> rank (riseW h) <> 2 ->
  hSeen h = true -> feq (PeakImportCeilingW s) (seenCeiling h) = true ->
  feq (ceilingW h) (PeakImportCeilingW s) = true -> flt (of_Z 0) (PeakImportCeilingW s) = true ->
  let h' := stepHourImportLimits s at' gap h in
  (Sub at' (changedAt h) < Minute -> limitW h' = limitW h /\ riseW h' = riseW h) /\
  (gap = true -> le_rel (limitW h') (limitW h)) /\
  (gap = true \/ Sub at' (cutAt h') < 5 * Minute \/ Sub (hStart h + Hour) at' < 15 * Minute ->
   le_rel (riseW h') (riseW h)) /\
  (flt (limitW h') (fsub (limitW h) (of_Z 1)) = true -> cutAt h' = at').
Proof.
  intros Hc Hh Hr Es Ec1 Ec2 Ep. cbv zeta. unfold stepHourImportLimits. cbv zeta. rewrite Ep. cbn [negb].
  assert (E0 : feq (PeakImportCeilingW s) (of_Z 0) = false).
  { destruct (feq (PeakImportCeilingW s) (of_Z 0)) eqn:E; [|reflexivity]. apply feq_eq in E. rewrite E in Ep.
    exfalso. apply (flt_le_contra _ _ Ep), le_rel_refl, of_Z_nn. lia. }
  unfold fne. rewrite Es, Ec1, E0. cbn [negb andb]. set (h1 := setSeen _ h).
  change (ceilingW h1) with (ceilingW h). rewrite Ec2. cbn [negb].
  assert (Hn : rank (limitW h) <> 2) by exact (le_rel_nn_r _ _ (ok_limit h Hh)).
  pose proof (rate_nonneg s at' h1 Hc (setSeen_ok _ h Hh)) as Nr.
  exact (moveLimits_calm s at' gap _ h1 Nr Hr Hn (ok_limit_wf h Hh)).
Qed.

(** C33: every import clamp works under one ceiling: a number from 0 up to the
    fuse less its margin, which the hour's limit lowers to itself while
    the import ceiling is on, and never changes while it is off. Beside a car
    that waits, battery charge may rise no further than that. The hour is
    reported as what set the ceiling only when the ceiling is its limit. *)
Theorem import_ceiling_bounds (s : Site) (now : Time) (h : hourImport) (fuseMaxW : f64) :
  rank (fsub fuseMaxW (fuseSafetyMarginW s)) <> 2 -> ceiling_ok s -> hour_ok h -> rank (riseW h) <> 2 ->
  let fuseW := fmax (of_Z 0) (fsub fuseMaxW (fuseSafetyMarginW s)) in
  let eff := effectiveImportCeilingW s now h fuseMaxW in
  le_rel (of_Z 0) eff /\ le_rel eff fuseW /\
  le_rel (importRiseCeilingW s now h fuseMaxW) eff /\
  match importHourLimitsW s now h with
  | None => eff = fuseW
  | Some (limit, _) =>
      eff = fmin limit fuseW /\ (importLimitSets s now h eff = true -> eff = limit)
  end.
Proof.
  intros Nf Hc Hh Hr fuseW eff. unfold importLimitSets, importRiseCeilingW. cbv zeta.
  assert (Ef : (if flt (fsub fuseMaxW (fuseSafetyMarginW s)) (of_Z 0) then of_Z 0
    else fsub fuseMaxW (fuseSafetyMarginW s)) = fuseW).
  { unfold fuseW. destruct (flt _ _) eqn:E.
    - symmetry. apply fmax_l. now apply flt_le.
    - symmetry. apply fmax_r, flt_false; [exact E|exact Nf|f64_nn]. }
  assert (F0 : le_rel (of_Z 0) fuseW) by now apply fmax_0_nonneg.
  fold eff. unfold eff, effectiveImportCeilingW in *. cbv zeta. rewrite Ef. clearbody fuseW. clear Ef.
  assert (L : match importHourLimitsW s now h with
              | None => True
              | Some (l, r) => le_rel (of_Z 0) l /\ rank r <> 2
              end).
  { unfold importHourLimitsW. destruct (flt (of_Z 0) (PeakImportCeilingW s)) eqn:E; cbn [negb]; [|exact I].
    destruct (importHourMeasured s now h); cbn [negb]; [split; [apply Hh|exact Hr]|]. apply flt_le in E.
    split; [exact E|exact (le_rel_nn_r _ _ E)]. }
  pose proof (le_rel_nn_r _ _ F0) as Nfu.
  destruct (importHourLimitsW s now h) as [[l r]|].
  - destruct L as [L0 Nr]. pose proof (le_rel_nn_r _ _ L0) as Nl.
    assert (E : (if flt l fuseW then l else fuseW) = fmin l fuseW).
    { destruct (flt l fuseW) eqn:E; symmetry; [now apply fmin_l, flt_le|now apply fmin_r, flt_false]. }
    rewrite E. set (e := fmin l fuseW) in *.
    assert (Le : le_rel (of_Z 0) e /\ le_rel e fuseW /\ le_rel e l).
    { unfold e. destruct (fmin_spec l fuseW Nl Nfu) as [[-> M]|[-> M]]; split_and!; auto using le_rel_refl. }
    destruct Le as (Le0 & Le1 & Le2). pose proof (le_rel_nn_r _ _ Le0) as Ne. split_and!; auto.
    + destruct (flt r e) eqn:Er; [now apply flt_le|now apply le_rel_refl].
    + intros H. apply fle_iff in H. now apply le_rel_antisym.
  - split_and!; auto using le_rel_refl.
Qed.
End Zone.

(** ** Witnesses *)
Definition demoSite : Site :=
  mkSite ModeSelfConsumption "meter" (of_Z 16) (of_Z 230) 3 (of_Z 0) (of_Z 4000) (of_Z 0)
    (of_Z 0) (of_Z 0) (of_Z 0) (of_Z 0) false (of_Z 0) (of_Z 0) (of_Z 0) ∅ [] false 5 2
    None None noSnapshot (of_Z 0) (of_Z 0) ∅.
Definition demoHour : hourImport :=
  mkHour 0 (of_Z 500) 0 (10 * Minute) (of_Z 3000) (of_Z 4000) (of_Z 4200) (of_Z 4000) (9 * Minute) 0
    true (of_Z 4000).

Lemma demo_ceiling_ok : ceiling_ok demoSite.
Proof. split; [apply finite_iff, of_Z_rank; lia|apply of_Z_wf]. Defined.

Lemma demo_hour_ok : hour_ok demoHour.
Proof.
  constructor.
  - apply of_Z_mono; lia.
  - unfold max_int64. cbn. lia.
  - right. apply of_Z_mono; lia.
  - apply of_Z_mono; lia.
  - apply of_Z_wf.
Defined.

Lemma hour_account_invariant_witness :
  exists h, import_run (fun _ => 0)
    [OpSeed (5 * Minute) (of_Z 100) (5 * Minute); OpObserve demoSite (6 * Minute) (NewStore 0)] = Some h /\
    hour_ok h /\ inHour (fun _ => 0) h.
Proof.
  apply hour_account_invariant.
  apply Forall_cons_2; [exact I|]. apply Forall_cons_2; [exact demo_ceiling_ok|apply Forall_nil_2].
Defined.

Lemma hour_limits_never_hunt_witness :
  let h' := stepHourImportLimits demoSite (9 * Minute + Second) false demoHour in
  limitW h' = limitW demoHour /\ riseW h' = riseW demoHour.
Proof.
  intros h'.
  refine (proj1 (hour_limits_never_hunt (fun _ => 0) demoSite (9 * Minute + Second) false demoHour
    demo_ceiling_ok demo_hour_ok _ _ _ _ _) _).
  - apply of_Z_nn. lia.
  - reflexivity.
  - vm_compute. reflexivity.
  - vm_compute. reflexivity.
  - vm_compute. reflexivity.
  - vm_compute. reflexivity.
Defined.

Lemma import_ceiling_bounds_witness :
  le_rel (of_Z 0) (effectiveImportCeilingW (fun _ => 0) demoSite (11 * Minute) demoHour (of_Z 11040)).
Proof.
  refine (proj1 (import_ceiling_bounds (fun _ => 0) demoSite (11 * Minute) demoHour (of_Z 11040) _
    demo_ceiling_ok demo_hour_ok _)).
  - vm_compute. discriminate.
  - apply of_Z_nn. lia.
Defined.
