(* ===== verification/PhaseFuse.v ===== *)
(** * The fuse per phase (go/internal/control/fuse_phase.go, fuse_heat.go, dispatch.go)

    Reading a meter's phase currents with their direction, the imbalance the
    aggregate budget cannot use, and the battery relief that keeps every phase
    inside the working limit. *)
From Stdlib Require Import ZArith Lia.
From S2P Require Import Prelude Float64 GoTime Json Kalman Health Telemetry Limits CommandLog.
From S2P Require Import Site ImportHour.
From stdpp Require Import base gmap strings list.
#[local] Open Scope Z_scope.

(** ** Phase currents with their direction *)
Definition exportSignMinW : f64 := of_Z 25.

(** The decoded phase fields of a payload; [None] is a decoding error. *)
Definition numFields (names : list string) (data : RawMessage) : option (list (option f64)) :=
  match obj_fields data with
  | None => None
  | Some fs =>
      let vs := (fun k => num_field k fs) <$> names in
      if existsb field_err vs then None else Some (field_opt <$> vs)
  end.

Definition currentNames : list string := ["l1_a"%string; "l2_a"%string; "l3_a"%string].
Definition powerNames : list string := ["l1_w"%string; "l2_w"%string; "l3_w"%string].

Definition finiteField (v : option f64) : option f64 :=
  match v with Some x => if finite x then Some x else None | None => None end.

(** [None] stands for a nil pointer among the powers. *)
Definition phasePowersAddUp (powers : list (option f64)) (totalW : f64) : bool :=
  match mapM finiteField powers with
  | None => false
  | Some ws =>
      let sum := sumF ws in
      let abs := sumF (fabs <$> ws) in
      finite totalW &&
      fle (fabs (fsub sum totalW)) (fmax (of_Z 250) (fdiv abs (of_Z 10)))
  end.

(** One phase's signed current. *)
Definition signPhase (s : Site) (signs : bool) (a : f64) (power : option f64) : f64 :=
  let signed := fabs a in
  match power with
  | Some w =>
      if signs && flt w (fneg (fmax exportSignMinW (fdiv (fmul signed (SiteFuseVoltage s)) (of_Z 4))))
      then fneg signed else signed
  | None => signed
  end.

Record phaseRead : Type := mkPhases { amps : list f64; present : bool; valid : bool }.

Definition phaseCurrentsA (meter : DerReading) (s : Site) (totalW : f64) : phaseRead :=
  match numFields (currentNames ++ powerNames) (Data meter) with
  | None => mkPhases [] false false
  | Some vs =>
      let currents := take 3 vs in
      if forallb (fun c => match c with None => true | Some _ => false end) currents
      then mkPhases [] false false
      else if negb (finite (SiteFuseAmps s)) || negb (finite (SiteFuseVoltage s)) ||
              fle (SiteFuseAmps s) (of_Z 0) || fle (SiteFuseVoltage s) (of_Z 0) ||
              (SiteFusePhases s <? 1) || (3 <? SiteFusePhases s)
      then mkPhases [] true false
      else
        let n := Z.to_nat (SiteFusePhases s) in
        let powers := take n (drop 3 vs) in
        let signs := phasePowersAddUp powers totalW in
        match mapM finiteField (take n currents) with
        | None => mkPhases [] true false
        | Some cs => mkPhases (zip_with (signPhase s signs) cs powers) true true
        end
  end.

(** [sitePhases.A] and [sitePhases.At]. *)
Definition SitePhases (s : Site) (store : Store) : option (list f64 * Time) :=
  if negb (SiteFusePhases s =? 3) then None
  else
    match Get (SiteMeterDriver s) DerMeter store, OnlineMeterW (SiteMeterDriver s) store with
    | Some meter, Some (totalW, at') =>
        if negb (Equal at' (UpdatedAt meter)) then None
        else
          let r := phaseCurrentsA meter s totalW in
          if negb (valid r) || negb (Z.of_nat (length (amps r)) =? 3) then None
          else Some (amps r, UpdatedAt meter)
    | _, _ => None
    end.

Definition worstPhaseA (meter : DerReading) (s : Site) (totalW : f64) : f64 * bool * bool :=
  let r := phaseCurrentsA meter s totalW in
  (fold_left fmax (amps r) (of_Z 0), present r, valid r).

(** ** Imbalance *)
Definition phaseImbalanceA (r : option DerReading) (s : Site) : option f64 :=
  if fle (SiteFuseAmps s) (of_Z 0) || fle (SiteFuseVoltage s) (of_Z 0) || (SiteFusePhases s <=? 1)
  then None
  else
    match r with
    | None => None
    | Some r =>
        match numFields currentNames (Data r) with
        | None => None
        | Some vs =>
            let phases := Z.min (SiteFusePhases s) 3 in
            match mapM finiteField (take (Z.to_nat phases) vs) with
            | None => None
            | Some cs =>
                let worst := fold_left (fun worst a => fmax worst (fabs a)) cs (of_Z 0) in
                if negb (finite (RawW r)) then None
                else
                  let mean := fdiv (fabs (RawW r)) (fmul (SiteFuseVoltage s) (of_Z phases)) in
                  Some (fmax (of_Z 0) (fsub worst mean))
            end
        end
    end.

Definition phaseImportCeilingW (zone : Time -> Duration) (s : Site) (now : Time) (h : hourImport)
    (fuseMaxW : f64) (meter : option DerReading) : f64 :=
  let eff := effectiveImportCeilingW zone s now h fuseMaxW in
  match phaseImbalanceA meter s with
  | None => eff
  | Some imbalanceA =>
      if fle imbalanceA (of_Z 0) then eff
      else
        let phaseBudget :=
          fsub (fsub fuseMaxW (fuseSafetyMarginW s))
            (fmul (fmul imbalanceA (SiteFuseVoltage s)) (of_Z (SiteFusePhases s))) in
        fmax (of_Z 0) (fmin eff phaseBudget)
  end.

Definition PhaseImbalanceW (store : Store) (s : Site) (maxAge : Duration) (now : Time) : f64 :=
  if bool_decide (SiteMeterDriver s = ""%string) then of_Z 0
  else
    match Get (SiteMeterDriver s) DerMeter store with
    | None => of_Z 0
    | Some r =>
        if maxAge <? Sub now (UpdatedAt r) then of_Z 0
        else match phaseImbalanceA (Some r) s with
             | None => of_Z 0
             | Some a => fmul (fmul a (SiteFuseVoltage s)) (of_Z (SiteFusePhases s))
             end
    end.

(** ** One reading's phases with its total *)
Record phaseData : Type := mkSampleP { pMeter : DerReading; pTotalW : f64; pStore : Store }.
Definition phaseSample : Type := option phaseData.

Definition livePhaseSample (store : Store) (driver : string) (meter : option DerReading) : phaseSample :=
  match meter, OnlineMeterW driver store with
  | Some m, Some (totalW, at') =>
      if negb (Equal at' (UpdatedAt m)) then None else Some (mkSampleP m totalW store)
  | _, _ => None
  end.

(** Phases the total forces to export, where the meter gives no direction. *)
Definition forceExports (s : Site) (totalW : f64) (as_ : list f64) : list f64 :=
  let v := SiteFuseVoltage s in
  let sumW := sumF ((fun a => fmul a v) <$> as_) in
  let exports := flt totalW (of_Z 0) && forallb (fun a => fle (of_Z 0) a) as_ in
  if negb exports then as_
  else
    let tolW := fmax (of_Z 250) (fdiv sumW (of_Z 10)) in
    (fun a => if flt (fsub sumW (fmul a v)) (fsub (fneg totalW) tolW) then fneg a else a) <$> as_.

Definition signedPhasesA (p : phaseSample) (s : Site) : option (list f64) :=
  match p with
  | None => None
  | Some d =>
      let r := phaseCurrentsA (pMeter d) s (pTotalW d) in
      if negb (valid r) || (length (amps r) =? 0)%nat then None
      else Some (forceExports s (pTotalW d) (amps r))
  end.

(** ** The batteries' move *)
Definition lastDispatchedW (log : commandLog) (lastDispatch : option Time) : option f64 :=
  match last log, lastDispatch with
  | Some c, Some t => if Equal (at_ c) t then Some (cw c) else None
  | _, _ => None
  end.

Record moved : Type := mkMoved { mMoveW : f64; mSentW : f64; mRawW : gmap string f64 }.

Definition moveStepW (store : Store) (commands : gmap string commandLog) (lastDispatch : option Time)
    (batteries : gmap string DerReading) (acc : option moved) (t : DispatchTarget) : option moved :=
  match acc with
  | None => None
  | Some m =>
      let m := mkMoved (fadd (mMoveW m) (TargetW t)) (fadd (mSentW m) (TargetW t)) (mRawW m) in
      match mRawW m !! tDriver t with
      | Some _ => Some m
      | None =>
          match batteries !! tDriver t, OnlineRawW (tDriver t) DerBattery store with
          | Some r, Some (w, at') =>
              if negb (Equal at' (UpdatedAt r)) then None
              else
                let was := default w (lastDispatchedW (default [] (commands !! tDriver t)) lastDispatch) in
                Some (mkMoved (fsub (mMoveW m) w) (fsub (mSentW m) was) (<[tDriver t := w]> (mRawW m)))
          | _, _ => None
          end
      end
  end.

Definition moveW (p : phaseSample) (commands : gmap string commandLog) (lastDispatch : option Time)
    (targets : list DispatchTarget) (batteries : gmap string DerReading) : option moved :=
  match p with
  | None => None
  | Some d =>
      fold_left (moveStepW (pStore d) commands lastDispatch batteries) targets
        (Some (mkMoved (of_Z 0) (of_Z 0) ∅))
  end.

(** ** Relief that keeps every phase inside the line *)
Definition perAmpW (s : Site) : f64 := fmul (SiteFuseVoltage s) (of_Z (SiteFusePhases s)).
Definition maxOf (l : list f64) : f64 := fold_left fmax l (Inf true).
Definition minOf (l : list f64) : f64 := fold_left fmin l (Inf false).
(** A relief under a watt is a rounding error. *)
Definition dropUnderWatt (w : f64) : f64 := if flt w (of_Z 1) then of_Z 0 else w.

Definition phaseSentReliefW (p : phaseSample) (s : Site) (sentW : f64) : f64 * f64 :=
  match signedPhasesA p s with
  | None => (of_Z 0, of_Z 0)
  | Some as_ =>
      let perA := perAmpW s in
      let limitA := fuseLineA s in
      let overImport := existsb (fun a => flt limitA a) as_ in
      let overExport := existsb (fun a => flt a (fneg limitA)) as_ in
      let as' := (fun a => fadd (fmax (fneg limitA) (fmin limitA a)) (fdiv sentW perA)) <$> as_ in
      let hi := maxOf as' in
      let lo := minOf as' in
      let importW := fmul (fmax (of_Z 0) (fsub hi limitA)) perA in
      let exportW := fmul (fmax (of_Z 0) (fsub (fneg limitA) lo)) perA in
      (if flt importW (of_Z 1) || overExport then of_Z 0 else importW,
       if flt exportW (of_Z 1) || overImport then of_Z 0 else exportW)
  end.

(** The smallest shift that keeps every phase inside, or the middle one. *)
Definition phaseShiftA (limitA hi lo : f64) : f64 :=
  if flt (fsub limitA hi) (fsub (fneg limitA) lo) then fdiv (fneg (fadd hi lo)) (of_Z 2)
  else fmax (fsub (fneg limitA) lo) (fmin (of_Z 0) (fsub limitA hi)).

Definition phaseFuseReliefW (p : phaseSample) (s : Site) (move : f64) : f64 * f64 :=
  match signedPhasesA p s with
  | None => (of_Z 0, of_Z 0)
  | Some as_ =>
      let perA := perAmpW s in
      let limitA := fuseLineA s in
      let as' := (fun a => fadd a (fdiv move perA)) <$> as_ in
      let shiftA := phaseShiftA limitA (maxOf as') (minOf as') in
      (dropUnderWatt (fmul (fmax (of_Z 0) (fneg shiftA)) perA),
       dropUnderWatt (fmul (fmax (of_Z 0) shiftA) perA))
  end.

(** ** Whether the meter shows the batteries *)
Definition phaseResponseA : f64 := of_Z 1.

Record phaseResponse : Type := mkResponse {
  prAmps : list f64;
  prChanged : list f64;
  prRawW : gmap string f64;
  prChangedRawW : gmap string f64;
  offPhase : bool;
  offPhaseAt : nat
}.
Definition noResponse : phaseResponse := mkResponse [] [] ∅ ∅ false 0.

(** [slices.Equal] on floats. *)
Fixpoint slicesEqual (a b : list f64) : bool :=
  match a, b with
  | [], [] => true
  | x :: a, y :: b => feq x y && slicesEqual a b
  | _, _ => false
  end.

(** Index of the first largest magnitude. *)
Definition worstIndex (as_ : list f64) : nat :=
  fold_left (fun worst i =>
      if flt (fabs (nth worst as_ NaN)) (fabs (nth i as_ NaN)) then i else worst)
    (seq 0 (length as_)) 0%nat.

Section Iterate.
Context `{MapIter}.

Definition batteriesMovedW (ref rawW : gmap string f64) : f64 * gmap string f64 :=
  fold_left (fun '(movedW, ref) '(driver, w) =>
      match ref !! driver with
      | Some was => (fadd movedW (fsub w was), ref)
      | None => (movedW, <[driver := w]> ref)
      end) (map_iter rawW) (of_Z 0, ref).

Record verdict : Type := mkVerdict {
  vWorstA : f64; vStuck : bool; vBackTo : option (gmap string f64)
}.

(** Another phase moved by twice the even share or more. *)
Definition offWorst (as_ refAmps : list f64) (worst : nat) (share : f64) : bool :=
  existsb (fun i => negb (i =? worst)%nat &&
      fle (of_Z 2) (fdiv (fsub (nth i as_ NaN) (nth i refAmps NaN)) share)) (seq 0 (length as_)).

(** The worst phase's reference has ended: it moved, is inside the line, or
    another phase is the worst. *)
Definition refEnded (s : Site) (as_ : list f64) (worst : nat) (ref : phaseResponse) : bool :=
  negb (length (prAmps ref) =? length as_)%nat ||
  fle (fdiv phaseResponseA (of_Z 2)) (fabs (fsub (nth worst as_ NaN) (nth worst (prAmps ref) NaN))) ||
  fle (fabs (nth worst as_ NaN)) (fuseLineA s) ||
  (offPhase ref && negb (worst =? offPhaseAt ref)%nat).

Definition phaseUnresponsive (s : Site) (as_ : list f64) (totalW : f64) (rawW : gmap string f64)
    (ref : phaseResponse) : verdict * phaseResponse :=
  if (length as_ =? 0)%nat then (mkVerdict (of_Z 0) false None, ref)
  else
    let worst := worstIndex as_ in
    let worstA := nth worst as_ NaN in
    let perA := perAmpW s in
    let changed := as_ ++ [totalW] in
    let ref :=
      if slicesEqual changed (prChanged ref) then ref
      else mkResponse (prAmps ref) changed (prRawW ref) rawW (offPhase ref) (offPhaseAt ref) in
    let '(movedC, changedRaw) := batteriesMovedW (prChangedRawW ref) rawW in
    let ref := mkResponse (prAmps ref) (prChanged ref) (prRawW ref) changedRaw (offPhase ref) (offPhaseAt ref) in
    if fle (fmul phaseResponseA perA) (fabs movedC) then (mkVerdict worstA true None, ref)
    else if refEnded s as_ worst ref then
      (mkVerdict worstA false None,
       mkResponse as_ (prChanged ref) rawW (prChangedRawW ref) false (offPhaseAt ref))
    else
      let '(movedW, refRaw) := batteriesMovedW (prRawW ref) rawW in
      let ref := mkResponse (prAmps ref) (prChanged ref) refRaw (prChangedRawW ref) (offPhase ref) (offPhaseAt ref) in
      if offPhase ref then (mkVerdict worstA true (Some refRaw), ref)
      else if flt (fabs movedW) (fmul phaseResponseA perA) then (mkVerdict worstA false None, ref)
      else if offWorst as_ (prAmps ref) worst (fdiv movedW perA) then
        (mkVerdict worstA true (Some refRaw),
         mkResponse (prAmps ref) (prChanged ref) refRaw (prChangedRawW ref) true worst)
      else (mkVerdict worstA false None, ref).

(** The targets' change from the batteries' power in [from]. *)
Definition targetsMoveFromW (targets : list DispatchTarget) (from rawW : gmap string f64) : f64 :=
  fst (fold_left (fun '(move, seen) t =>
      let move := fadd move (TargetW t) in
      if bool_decide (tDriver t ∈ (seen : gset string)) then (move, seen)
      else
        let was := match from !! tDriver t with Some w => w | None => atZero rawW (tDriver t) end in
        (fsub move was, {[tDriver t]} ∪ seen)) targets (of_Z 0, ∅)).

(** The cap an unresponsive meter puts on the relief toward its worst phase. *)
Definition capRelief (targets : list DispatchTarget) (m : moved) (v : verdict) (relief : f64 * f64)
  : f64 * f64 :=
  if negb (vStuck v) then relief
  else
    let capW := match vBackTo v with Some from => targetsMoveFromW targets from (mRawW m) | None => mSentW m end in
    let '(importW, exportW) := relief in
    if flt (of_Z 0) (vWorstA v) then (fmin importW (fmax (of_Z 0) capW), exportW)
    else (importW, fmin exportW (fmax (of_Z 0) (fneg capW))).

Definition phaseReliefForTargets (p : phaseSample) (s : Site) (commands : gmap string commandLog)
    (lastDispatch : option Time) (targets : list DispatchTarget) (batteries : gmap string DerReading)
    (ref : phaseResponse) : f64 * f64 * phaseResponse :=
  match moveW p commands lastDispatch targets batteries with
  | None => (of_Z 0, of_Z 0, ref)
  | Some m =>
      let '(importW, exportW) := phaseFuseReliefW p s (mMoveW m) in
      let '(sentImportW, sentExportW) := phaseSentReliefW p s (mSentW m) in
      let relief := (fmax importW sentImportW, fmax exportW sentExportW) in
      match p, signedPhasesA p s with
      | Some d, Some as_ =>
          let '(v, ref) := phaseUnresponsive s as_ (pTotalW d) (mRawW m) ref in
          (capRelief targets m v relief, ref)
      | _, _ => (relief, ref)
      end
  end.
End Iterate.

(** ** Lemmas *)
Lemma finiteField_some v x : finiteField v = Some x <-> v = Some x /\ finite x = true.
Proof.
  unfold finiteField. destruct v as [y|]; [|split; [discriminate|intros [? _]; discriminate]].
  destruct (finite y) eqn:E; split.
  - intros H. injection H as <-. auto.
  - intros [H _]. exact H.
  - discriminate.
  - intros [H F]. injection H as <-. congruence.
Qed.

Lemma phasePowersAddUp_present powers totalW :
  phasePowersAddUp powers totalW = true -> Forall (fun w => exists x, w = Some x /\ finite x = true) powers.
Proof.
  unfold phasePowersAddUp. destruct (mapM finiteField powers) as [ws|] eqn:E; [|discriminate]. intros _.
  apply mapM_Some in E. induction E as [|w x ws' xs Hw _ IH]; constructor; [|exact IH].
  exists x. now apply finiteField_some.
Qed.

(** A signed current keeps the reading's magnitude, and is negative only when
    its own power shows a clear export. *)
Lemma signPhase_spec s signs a power :
  rank a = 0 ->
  fabs (signPhase s signs a power) = fabs a /\ rank (signPhase s signs a power) = 0 /\
  (flt (signPhase s signs a power) (of_Z 0) = true ->
   signs = true /\ exists w, power = Some w /\ le_rel w (fneg exportSignMinW)).
Proof.
  intros R. pose proof (fabs_fin a R) as Ra.
  assert (P : le_rel (of_Z 0) (fabs a)).
  { rewrite of_Z_0. destruct a as [|[]|z]; try discriminate. unfold le_rel. cbn. lia. }
  assert (A : fabs (fabs a) = fabs a) by (destruct a as [|[]|z]; cbn; [reflexivity..|f_equal; lia]).
  assert (B : fabs (fneg (fabs a)) = fabs a) by (destruct a as [|[]|z]; cbn; [reflexivity..|f_equal; lia]).
  assert (C : flt (fabs a) (of_Z 0) = false) by now apply le_flt_false.
  unfold signPhase. cbv zeta. destruct power as [w|]; [|split_and!; [exact A|exact Ra|congruence]].
  destruct (signs && flt w _) eqn:E; [|split_and!; [exact A|exact Ra|congruence]].
  apply andb_true_iff in E as [-> E]. split_and!; [exact B|now apply fneg_fin|].
  intros _. split; [reflexivity|]. exists w. split; [reflexivity|].
  set (m := fdiv _ _) in E.
  assert (Nm : rank (fmax exportSignMinW m) <> 2).
  { apply flt_iff in E as (_ & N & _). intros H. apply N. now apply fneg_nan. }
  apply flt_le in E. apply (le_rel_trans _ _ _ E), fneg_anti.
  apply fmax_ge_l; [exact Nm|]. apply of_Z_rank. lia.
Qed.

Lemma numFields_finite names data vs v x :
  numFields names data = Some vs -> v ∈ vs -> v = Some x -> finite x = true.
Proof.
  unfold numFields. destruct (obj_fields data) as [fs|]; [|discriminate].
  destruct (existsb field_err _); [discriminate|]. intros E Hv ->. injection E as <-.
  apply list_elem_of_fmap in Hv as (f & Ef & Hf). apply list_elem_of_fmap in Hf as (k & -> & _).
  unfold field_opt in Ef. destruct (num_field k fs) as [| |a] eqn:En; try discriminate.
  injection Ef as <-. exact (num_field_finite _ _ _ En).
Qed.

(** The readings behind valid phase currents. *)
Definition readingsOf (meter : DerReading) (s : Site) : list (option f64) * list (option f64) :=
  match numFields (currentNames ++ powerNames) (Data meter) with
  | None => ([], [])
  | Some vs => let n := Z.to_nat (SiteFusePhases s) in (take n (take 3 vs), take n (drop 3 vs))
  end.

Lemma phaseCurrentsA_valid meter s totalW :
  valid (phaseCurrentsA meter s totalW) = true ->
  1 <= SiteFusePhases s <= 3 /\
  exists cs,
    fst (readingsOf meter s) = Some <$> cs /\ Forall (fun a => finite a = true) cs /\
    length cs = Z.to_nat (SiteFusePhases s) /\ length (snd (readingsOf meter s)) = length cs /\
    amps (phaseCurrentsA meter s totalW) =
      zip_with (signPhase s (phasePowersAddUp (snd (readingsOf meter s)) totalW)) cs (snd (readingsOf meter s)).
Proof.
  unfold phaseCurrentsA, readingsOf.
  destruct (numFields (currentNames ++ powerNames) (Data meter)) as [vs|] eqn:Ev; [|discriminate].
  assert (Lv : length vs = 6%nat).
  { unfold numFields in Ev. destruct (obj_fields _); [|discriminate].
    destruct (existsb _ _); [discriminate|]. injection Ev as <-. reflexivity. }
  cbv zeta. destruct (forallb _ _); [discriminate|].
  destruct (_ || _) eqn:E; [discriminate|]. apply orb_false_iff in E as [E E3%Z.ltb_ge].
  apply orb_false_iff in E as [_ E1%Z.ltb_ge].
  destruct (mapM finiteField _) as [cs|] eqn:Ec; [|discriminate]. intros _. cbn [fst snd amps].
  split; [lia|]. exists cs. apply mapM_Some in Ec.
  assert (Lc : length cs = Z.to_nat (SiteFusePhases s)).
  { apply Forall2_length in Ec. rewrite !length_take in Ec. lia. }
  split_and!.
  - clear Lc. induction Ec as [|v x vs' xs Hv _ IH]; [reflexivity|].
    apply finiteField_some in Hv as [-> _]. cbn. now rewrite IH.
  - clear Lc. induction Ec as [|v x vs' xs Hv _ IH]; constructor; [|exact IH].
    now apply finiteField_some in Hv.
  - exact Lc.
  - rewrite length_take, length_drop. lia.
  - reflexivity.
Qed.

Lemma signedPhases_zip s signs cs ps :
  Forall (fun a => finite a = true) cs -> length ps = length cs ->
  length (zip_with (signPhase s signs) cs ps) = length cs /\
  fabs <$> zip_with (signPhase s signs) cs ps = fabs <$> cs /\
  Forall2 (fun a p => flt a (of_Z 0) = true -> signs = true /\ exists w, p = Some w /\ le_rel w (fneg exportSignMinW))
    (zip_with (signPhase s signs) cs ps) ps.
Proof.
  intros F. revert ps. induction F as [|a cs Fa _ IH]; intros [|p ps] L; try discriminate.
  - split_and!; constructor.
  - apply finite_iff in Fa. destruct (signPhase_spec s signs a p Fa) as (A & _ & N).
    destruct (IH ps ltac:(now injection L)) as (I1 & I2 & I3). cbn [zip_with]. split_and!.
    + cbn. now rewrite I1.
    + rewrite !fmap_cons. now rewrite A, I2.
    + constructor; assumption.
Qed.

(** ** Relief on phases that are inside the line *)
Lemma maxOf_le l limit : Forall (fun a => le_rel a limit) l -> rank limit = 0 -> le_rel (maxOf l) limit.
Proof.
  intros F R. unfold maxOf. assert (H : le_rel (Inf true) limit) by (unfold le_rel; cbn; rewrite R; lia).
  revert H. generalize (Inf true). induction F as [|a l La _ IH]; intros acc H; [exact H|].
  cbn [fold_left]. apply IH.
  destruct (fmax_spec acc a (le_rel_nn_l _ _ H) (le_rel_nn_l _ _ La)) as [[-> _]|[-> _]]; assumption.
Qed.
Lemma minOf_ge l limit : Forall (fun a => le_rel limit a) l -> rank limit = 0 -> le_rel limit (minOf l).
Proof.
  intros F R. unfold minOf. assert (H : le_rel limit (Inf false)) by (unfold le_rel; cbn; rewrite R; lia).
  revert H. generalize (Inf false). induction F as [|a l La _ IH]; intros acc H; [exact H|].
  cbn [fold_left]. apply IH.
  destruct (fmin_spec acc a (le_rel_nn_r _ _ H) (le_rel_nn_r _ _ La)) as [[-> _]|[-> _]]; assumption.
Qed.

Lemma fmul_0_l y : rank y = 0 -> fmul (of_Z 0) y = of_Z 0.
Proof.
  rewrite of_Z_0. destruct y as [|[]|b]; try discriminate. intros _. unfold fmul.
  rewrite Z.mul_0_l. reflexivity.
Qed.

Lemma maxOf_fin l : l <> [] -> Forall (fun a => rank a = 0) l -> rank (maxOf l) = 0.
Proof.
  intros Hl F. unfold maxOf. destruct F as [|a l Ra F]; [congruence|]. cbn [fold_left].
  assert (E : fmax (Inf true) a = a) by (apply fmax_r; unfold le_rel; cbn; rewrite Ra; lia). rewrite E.
  clear Hl E. revert a Ra. induction F as [|b l Rb _ IH]; intros a Ra; [exact Ra|].
  cbn [fold_left]. apply IH. now apply fmax_fin.
Qed.
Lemma minOf_fin l : l <> [] -> Forall (fun a => rank a = 0) l -> rank (minOf l) = 0.
Proof.
  intros Hl F. unfold minOf. destruct F as [|a l Ra F]; [congruence|]. cbn [fold_left].
  assert (E : fmin (Inf false) a = a) by (apply fmin_r; unfold le_rel; cbn; rewrite Ra; lia). rewrite E.
  clear Hl E. revert a Ra. induction F as [|b l Rb _ IH]; intros a Ra; [exact Ra|].
  cbn [fold_left]. apply IH. now apply fmin_fin.
Qed.
Lemma fold_fmax_nn l acc : rank acc <> 2 -> Forall (fun a => rank a <> 2) l -> rank (fold_left fmax l acc) <> 2.
Proof. intros Ha F. revert acc Ha. induction F; intros acc Ha; cbn; auto using fmax_nn. Qed.
Lemma fold_fmin_nn l acc : rank acc <> 2 -> Forall (fun a => rank a <> 2) l -> rank (fold_left fmin l acc) <> 2.
Proof. intros Ha F. revert acc Ha. induction F; intros acc Ha; cbn; auto using fmin_nn. Qed.

Lemma fsub_fin_nn x y : rank x <> 2 -> rank y <> 2 -> rank x = 0 \/ rank y = 0 -> rank (fsub x y) <> 2.
Proof.
  unfold fsub. destruct x as [|[]|a], y as [|[]|b]; cbn; intros ? ? [?|?]; try lia; apply rnd_not_nan.
Qed.
Lemma fadd_fin_nn x y : rank x <> 2 -> rank y <> 2 -> rank x = 0 \/ rank y = 0 -> rank (fadd x y) <> 2.
Proof.
  destruct x as [|[]|a], y as [|[]|b]; cbn; intros ? ? [?|?]; try lia; apply rnd_not_nan.
Qed.

Lemma flt_0_1 : flt (of_Z 0) (of_Z 1) = true.
Proof. vm_compute. reflexivity. Qed.

Lemma dropUnderWatt_zero w perA : w = of_Z 0 -> rank perA = 0 -> dropUnderWatt (fmul w perA) = of_Z 0.
Proof. intros -> R. unfold dropUnderWatt. now rewrite fmul_0_l, flt_0_1 by exact R. Qed.

Lemma dropUnderWatt_nonneg w perA :
  le_rel (of_Z 0) w -> flt (of_Z 0) perA = true -> rank perA = 0 ->
  le_rel (of_Z 0) (dropUnderWatt (fmul w perA)).
Proof.
  intros Hw Hp R. pose proof (fmul_pos_nn w perA Hw Hp R) as N. unfold dropUnderWatt.
  destruct (flt (fmul w perA) _); [apply of_Z_mono; lia|]. apply fmul_of_nonneg; [exact Hw|now apply flt_le|exact N].
Qed.

(** What the site's description must say for its phases to be usable. *)
Record phases_ok (s : Site) : Prop := {
  line_fin : rank (fuseLineA s) = 0;
  perA_fin : rank (perAmpW s) = 0;
  perA_pos : flt (of_Z 0) (perAmpW s) = true
}.

Lemma phaseShiftA_nn limitA hi lo : rank limitA = 0 -> rank hi = 0 -> rank lo = 0 -> rank (phaseShiftA limitA hi lo) <> 2.
Proof.
  intros R Rh Rl. unfold phaseShiftA.
  assert (N1 : rank (fsub limitA hi) <> 2) by now apply fsub_nn.
  assert (N2 : rank (fsub (fneg limitA) lo) <> 2) by (apply fsub_nn; [now apply fneg_fin|exact Rl]).
  destruct (flt (fsub limitA hi) _).
  - apply fdiv_pos_nn; [apply fneg_nn; now apply fadd_nn|vm_compute; reflexivity|apply of_Z_rank; lia].
  - apply fmax_nn; [exact N2|]. apply fmin_nn; [apply of_Z_nn; lia|exact N1].
Qed.

Lemma fmax_0_of_nonpos x : le_rel x (of_Z 0) -> fmax (of_Z 0) x = of_Z 0.
Proof. apply fmax_l. Qed.

Lemma fneg_nonpos x : le_rel (of_Z 0) x -> le_rel (fneg x) (of_Z 0).
Proof. rewrite of_Z_0. destruct x as [|[]|z]; unfold le_rel; cbn; lia. Qed.

Lemma phaseFuseReliefW_facts p s move as_ :
  phases_ok s -> signedPhasesA p s = Some as_ -> as_ <> [] ->
  Forall (fun a => rank (fadd a (fdiv move (perAmpW s))) = 0) as_ ->
  let r := phaseFuseReliefW p s move in
  le_rel (of_Z 0) (fst r) /\ le_rel (of_Z 0) (snd r) /\ (fst r = of_Z 0 \/ snd r = of_Z 0).
Proof.
  intros [Rl Rp Pp] Es Ne F. cbv zeta. unfold phaseFuseReliefW. rewrite Es. cbv zeta. cbn [fst snd].
  set (as' := _ <$> as_). assert (F' : Forall (fun a => rank a = 0) as') by now apply Forall_fmap.
  assert (Ne' : as' <> []) by (unfold as'; destruct as_; [congruence|discriminate]).
  pose proof (phaseShiftA_nn _ _ _ Rl (maxOf_fin _ Ne' F') (minOf_fin _ Ne' F')) as Ns.
  set (shift := phaseShiftA _ _ _) in *. clearbody shift.
  assert (N' : rank (fneg shift) <> 2) by now apply fneg_nn.
  split_and!.
  - apply dropUnderWatt_nonneg; [now apply fmax_0_nonneg|exact Pp|exact Rp].
  - apply dropUnderWatt_nonneg; [now apply fmax_0_nonneg|exact Pp|exact Rp].
  - destruct (le_rel_total shift (of_Z 0) Ns ltac:(apply of_Z_nn; lia)) as [L|L].
    + right. apply dropUnderWatt_zero; [now apply fmax_0_of_nonpos|exact Rp].
    + left. apply dropUnderWatt_zero; [now apply fmax_0_of_nonpos, fneg_nonpos|exact Rp].
Qed.

Lemma phaseFuseReliefW_inside p s move as_ :
  phases_ok s -> signedPhasesA p s = Some as_ -> as_ <> [] ->
  Forall (fun a => let a' := fadd a (fdiv move (perAmpW s)) in
    le_rel (fneg (fuseLineA s)) a' /\ le_rel a' (fuseLineA s)) as_ ->
  phaseFuseReliefW p s move = (of_Z 0, of_Z 0).
Proof.
  intros [Rl Rp Pp] Es Ne F. unfold phaseFuseReliefW. rewrite Es. cbv zeta.
  set (as' := _ <$> as_). set (limit := fuseLineA s) in *.
  assert (Fu : Forall (fun a => le_rel a limit) as') by (apply Forall_fmap; eapply Forall_impl; [exact F|cbn; tauto]).
  assert (Fl : Forall (fun a => le_rel (fneg limit) a) as') by (apply Forall_fmap; eapply Forall_impl; [exact F|cbn; tauto]).
  assert (Rn : rank (fneg limit) = 0) by now apply fneg_fin.
  assert (Ne' : as' <> []) by (unfold as'; destruct as_; [congruence|discriminate]).
  assert (F' : Forall (fun a => rank a = 0) as').
  { apply Forall_forall. intros a Ha. rewrite Forall_forall in Fu, Fl.
    exact (rank_mid _ _ _ (Fl a Ha) (Fu a Ha) Rn Rl). }
  pose proof (maxOf_fin _ Ne' F') as Rh. pose proof (minOf_fin _ Ne' F') as Rlo.
  pose proof (maxOf_le _ _ Fu Rl) as Lh. pose proof (minOf_ge _ _ Fl Rn) as Ll.
  assert (A : le_rel (of_Z 0) (fsub limit (maxOf as'))).
  { rewrite of_Z_0. apply fsub_nonneg; [exact Lh|now apply fsub_nn]. }
  assert (B : le_rel (fsub (fneg limit) (minOf as')) (of_Z 0)).
  { rewrite of_Z_0. apply fsub_nonpos; [exact Ll|now apply fsub_nn]. }
  assert (E : phaseShiftA limit (maxOf as') (minOf as') = of_Z 0).
  { unfold phaseShiftA. rewrite (le_flt_false _ _ (le_rel_trans _ _ _ B A)).
    rewrite (fmin_l _ _ A). now apply fmax_r. }
  rewrite E. assert (Z : fmax (of_Z 0) (of_Z 0) = of_Z 0) by (apply fmax_l, le_rel_refl, of_Z_nn; lia).
  assert (Zn : fneg (of_Z 0) = of_Z 0) by (rewrite of_Z_0; reflexivity).
  now rewrite Zn, (dropUnderWatt_zero _ _ Z Rp).
Qed.

Lemma phaseSentReliefW_facts p s sentW as_ :
  phases_ok s -> signedPhasesA p s = Some as_ -> as_ <> [] -> Forall (fun a => rank a = 0) as_ ->
  rank sentW = 0 ->
  let r := phaseSentReliefW p s sentW in le_rel (of_Z 0) (fst r) /\ le_rel (of_Z 0) (snd r).
Proof.
  intros [Rl Rp Pp] Es Ne F Rs. cbv zeta. unfold phaseSentReliefW. rewrite Es. cbv zeta. cbn [fst snd].
  set (as' := _ <$> as_). set (limit := fuseLineA s) in *.
  assert (Nd : rank (fdiv sentW (perAmpW s)) <> 2) by (apply fdiv_pos_nn; [now apply finite_nn|assumption..]).
  assert (F' : Forall (fun a => rank a <> 2) as').
  { apply Forall_fmap. eapply Forall_impl; [exact F|]. cbn. intros a Ra.
    assert (Rn : rank (fneg limit) = 0) by now apply fneg_fin.
    apply fadd_fin_nn; [apply finite_nn, fmax_fin, fmin_fin; assumption|exact Nd|].
    left. now apply fmax_fin, fmin_fin. }
  assert (Nh : rank (maxOf as') <> 2) by (apply fold_fmax_nn; [discriminate|exact F']).
  assert (Nl : rank (minOf as') <> 2) by (apply fold_fmin_nn; [discriminate|exact F']).
  assert (Z0 : le_rel (of_Z 0) (of_Z 0)) by (apply of_Z_mono; lia).
  assert (G : forall w (b : bool), rank w <> 2 ->
    le_rel (of_Z 0) (if flt (fmul (fmax (of_Z 0) w) (perAmpW s)) (of_Z 1) || b then of_Z 0
                     else fmul (fmax (of_Z 0) w) (perAmpW s))).
  { intros w b Nw. pose proof (fmax_0_nonneg w Nw) as Hw.
    destruct (_ || b); [exact Z0|].
    apply fmul_of_nonneg; [exact Hw|now apply flt_le|now apply fmul_pos_nn]. }
  split; apply G; apply fsub_fin_nn; auto.
  - now apply finite_nn.
  - now apply fneg_nn, finite_nn.
  - left. now apply fneg_fin.
Qed.

(** Where the verdict is stuck, the relief toward the worst phase is capped. *)
Lemma capRelief_bound targets m v relief :
  vStuck v = true -> rank (fst relief) <> 2 -> rank (snd relief) <> 2 -> vBackTo v = None ->
  rank (mSentW m) <> 2 ->
  let r := capRelief targets m v relief in
  (flt (of_Z 0) (vWorstA v) = true -> le_rel (fst r) (fmax (of_Z 0) (mSentW m))) /\
  (flt (of_Z 0) (vWorstA v) = false -> le_rel (snd r) (fmax (of_Z 0) (fneg (mSentW m)))).
Proof.
  intros Es N1 N2 Eb Nm. cbv zeta. unfold capRelief. rewrite Es, Eb. cbn [negb].
  destruct relief as [i e]. cbn [fst snd] in *.
  assert (M : forall x y, rank x <> 2 -> rank y <> 2 -> le_rel (fmin x y) y).
  { intros x y Nx Ny. destruct (fmin_spec x y Nx Ny) as [[-> L]|[-> _]]; [exact L|now apply le_rel_refl]. }
  assert (N0 : forall x, rank x <> 2 -> rank (fmax (of_Z 0) x) <> 2)
    by (intros x Nx; apply fmax_nn; [apply of_Z_nn; lia|exact Nx]).
  destruct (flt (of_Z 0) (vWorstA v)); cbn [fst snd]; split; intros H; try discriminate; apply M; auto.
  apply N0. now apply fneg_nn.
Qed.

Section Properties.
Context `{MapIter}.

(** A meter that repeats one reading while the batteries moved is stuck. *)
Lemma phaseUnresponsive_repeats s as_ totalW rawW ref :
  as_ <> [] -> slicesEqual (as_ ++ [totalW]) (prChanged ref) = true ->
  fle (fmul phaseResponseA (perAmpW s)) (fabs (fst (batteriesMovedW (prChangedRawW ref) rawW))) = true ->
  let '(v, ref') := phaseUnresponsive s as_ totalW rawW ref in
  vStuck v = true /\ vBackTo v = None /\ vWorstA v = nth (worstIndex as_) as_ NaN /\
  prAmps ref' = prAmps ref /\ prChanged ref' = prChanged ref.
Proof.
  intros Ne E M. unfold phaseUnresponsive. destruct as_ as [|a l]; [congruence|]. cbn [length Nat.eqb].
  cbv zeta. rewrite E. destruct (batteriesMovedW _ rawW) as [movedC changedRaw]. cbn [fst] in M.
  rewrite M. cbn. auto.
Qed.

(** ** Properties *)

(** A phase counts as export only on clear evidence. The currents read
    from a meter are one per configured phase with the magnitudes it reported,
    and one is negative only when every phase power is present and they add up
    to the reading's total, and that phase's own power exports 25 W or more. *)
Theorem phase_direction_needs_evidence (meter : DerReading) (s : Site) (totalW : f64) :
  let r := phaseCurrentsA meter s totalW in
  let currents := fst (readingsOf meter s) in
  let powers := snd (readingsOf meter s) in
  valid r = true ->
  Z.of_nat (length (amps r)) = SiteFusePhases s /\
  (Some ∘ fabs) <$> amps r = fmap fabs <$> currents /\
  Forall2 (fun a p => flt a (of_Z 0) = true ->
      phasePowersAddUp powers totalW = true /\ exists w, p = Some w /\ le_rel w (fneg exportSignMinW))
    (amps r) powers.
Proof.
  intros r currents powers V. unfold r in *.
  destruct (phaseCurrentsA_valid _ _ _ V) as (Hp & cs & Ec & Fc & Lc & Lp & ->).
  fold currents in Ec. fold powers in Lp |- *.
  destruct (signedPhases_zip s (phasePowersAddUp powers totalW) cs powers Fc Lp) as (L & A & N).
  split_and!; [lia| |exact N]. rewrite Ec, list_fmap_compose, A.
  clear. induction cs as [|c cs IH]; [reflexivity|]. cbn. now rewrite <- IH.
Qed.

(** The per-phase relief leaves a site inside its line alone. Both sides
    are numbers at least zero and never ask at once for more and for less; with
    every phase inside the working limit after the move, both are zero. *)
Theorem phase_relief_only_over_the_line (p : phaseSample) (s : Site) (move : f64) (as_ : list f64) :
  phases_ok s -> signedPhasesA p s = Some as_ ->
  Forall (fun a => rank (fadd a (fdiv move (perAmpW s))) = 0) as_ ->
  let '(importW, exportW) := phaseFuseReliefW p s move in
  le_rel (of_Z 0) importW /\ le_rel (of_Z 0) exportW /\ (importW = of_Z 0 \/ exportW = of_Z 0) /\
  (Forall (fun a => let a' := fadd a (fdiv move (perAmpW s)) in
     le_rel (fneg (fuseLineA s)) a' /\ le_rel a' (fuseLineA s)) as_ ->
   importW = of_Z 0 /\ exportW = of_Z 0).
Proof.
  intros Hs Es F. assert (Ne : as_ <> []).
  { unfold signedPhasesA in Es. destruct p as [d|]; [|discriminate].
    destruct (amps _) as [|a l]; [now rewrite orb_true_r in Es|].
    destruct (negb _ || _); [discriminate|]. injection Es as <-. unfold forceExports. cbv zeta.
    destruct (negb _); discriminate. }
  destruct (phaseFuseReliefW_facts _ _ _ _ Hs Es Ne F) as (A & B & C).
  pose proof (phaseFuseReliefW_inside p s move as_ Hs Es Ne) as D.
  destruct (phaseFuseReliefW p s move) as [i e]. split_and!; auto.
  intros I. specialize (D I). injection D as -> ->. auto.
Qed.

(** A meter that repeats its reading cannot wind the batteries up. Once
    they have moved by an ampere per phase since the meter last changed, the
    relief toward the worst phase is at most the distance back to the last
    command, so the order never goes further out than it stands, and the
    references it is judged against stay where they are. *)
Theorem repeating_meter_stops_relief (d : phaseData) (s : Site) (commands : gmap string commandLog)
    (lastDispatch : option Time) (targets : list DispatchTarget) (batteries : gmap string DerReading)
    (ref : phaseResponse) (as_ : list f64) (m : moved) :
  phases_ok s -> signedPhasesA (Some d) s = Some as_ -> as_ <> [] ->
  moveW (Some d) commands lastDispatch targets batteries = Some m ->
  Forall (fun a => rank a = 0 /\ rank (fadd a (fdiv (mMoveW m) (perAmpW s))) = 0) as_ ->
  rank (mSentW m) = 0 ->
  slicesEqual (as_ ++ [pTotalW d]) (prChanged ref) = true ->
  fle (fmul phaseResponseA (perAmpW s)) (fabs (fst (batteriesMovedW (prChangedRawW ref) (mRawW m)))) = true ->
  let '(importW, exportW, ref') :=
    phaseReliefForTargets (Some d) s commands lastDispatch targets batteries ref in
  let worst := nth (worstIndex as_) as_ NaN in
  (flt (of_Z 0) worst = true -> le_rel importW (fmax (of_Z 0) (mSentW m))) /\
  (flt (of_Z 0) worst = false -> le_rel exportW (fmax (of_Z 0) (fneg (mSentW m)))) /\
  prAmps ref' = prAmps ref /\ prChanged ref' = prChanged ref.
Proof.
  intros Hs Es Ne Em F Rs Eq Mv. unfold phaseReliefForTargets. rewrite Em, Es.
  assert (F1 : Forall (fun a => rank a = 0) as_) by (eapply Forall_impl; [exact F|cbn; tauto]).
  assert (F2 : Forall (fun a => rank (fadd a (fdiv (mMoveW m) (perAmpW s))) = 0) as_)
    by (eapply Forall_impl; [exact F|cbn; tauto]).
  pose proof (phaseFuseReliefW_facts _ _ _ _ Hs Es Ne F2) as (A & B & _).
  pose proof (phaseSentReliefW_facts _ _ _ _ Hs Es Ne F1 Rs) as (C & D).
  destruct (phaseFuseReliefW _ _ _) as [i e]. destruct (phaseSentReliefW _ _ _) as [i' e'].
  cbn [fst snd] in *. cbv zeta.
  pose proof (phaseUnresponsive_repeats s as_ (pTotalW d) (mRawW m) ref Ne Eq Mv) as V.
  destruct (phaseUnresponsive _ _ _ _ _) as [v ref']. destruct V as (V1 & V2 & <- & V4 & V5).
  destruct (capRelief_bound targets m v (fmax i i', fmax e e') V1 (le_rel_nn_r _ _ (fmax_nonneg _ _ A C))
    (le_rel_nn_r _ _ (fmax_nonneg _ _ B D)) V2 (finite_nn _ Rs)) as [K1 K2].
  destruct (capRelief targets m v _) as [ri re]. cbn [fst snd] in K1, K2.
  split; [exact K1|]. split; [exact K2|]. split; [exact V4|exact V5].
Qed.
End Properties.

(** ** Witnesses *)
Definition demoField (k : string) (n : Z) : string * json := (k, JNum (of_Z n) (Some n)).
Definition demoMeter : DerReading :=
  mkReading "meter" DerMeter (of_Z 4140) (of_Z 4140) None 0
    (RawJson (JObject [demoField "l1_a" 20; demoField "l2_a" (-4); demoField "l3_a" 2;
                       demoField "l1_w" 4600; demoField "l2_w" (-920); demoField "l3_w" 460]))
    (10 * Second).
Definition demoSample : phaseData := mkSampleP demoMeter (of_Z 4140) (NewStore 0).

Lemma demo_phases_ok : phases_ok demoSite.
Proof. constructor; vm_compute; reflexivity. Defined.

Lemma phase_direction_needs_evidence_witness :
  Z.of_nat (length (amps (phaseCurrentsA demoMeter demoSite (of_Z 4140)))) = 3.
Proof.
  refine (proj1 (phase_direction_needs_evidence demoMeter demoSite (of_Z 4140) _)).
  vm_compute. reflexivity.
Defined.

Lemma phase_relief_only_over_the_line_witness :
  fst (phaseFuseReliefW (Some demoSample) demoSite (of_Z 0)) = of_Z 0 \/
  snd (phaseFuseReliefW (Some demoSample) demoSite (of_Z 0)) = of_Z 0.
Proof.
  pose proof (phase_relief_only_over_the_line (Some demoSample) demoSite (of_Z 0)
    [of_Z 20; of_Z (-4); of_Z 2] demo_phases_ok) as T.
  destruct (phaseFuseReliefW (Some demoSample) demoSite (of_Z 0)) as [i e].
  refine (proj1 (proj2 (proj2 (T _ _)))).
  - vm_compute. reflexivity.
  - apply Forall_cons_2; [vm_compute; reflexivity|]. apply Forall_cons_2; [vm_compute; reflexivity|].
    apply Forall_cons_2; [vm_compute; reflexivity|]. apply Forall_nil_2.
Defined.

(** The meter still shows the reading of when the battery stood at 0 W; the
    battery has since discharged 1 kW. *)
Definition demoStuck : phaseResponse :=
  mkResponse [] [of_Z 20; of_Z (-4); of_Z 2; of_Z 4140] ∅ {["b"%string := of_Z 0]} false 0.
Definition demoBattery : DerReading :=
  mkReading "b" DerBattery (of_Z (-1000)) (of_Z (-1000)) None 0 RawEmpty (10 * Second).
Definition demoStore : Store :=
  let s := NewStore 0 in
  mkStore {[key "b" DerBattery := demoBattery]} ∅ {["b"%string := NewHealth "b" (10 * Second)]}
    (of_Z 100) (of_Z 50) [] ∅ [] 0.

Lemma repeating_meter_stops_relief_witness :
  let d := mkSampleP demoMeter (of_Z 4140) demoStore in
  let ts := [mkTarget "b" (of_Z (-1000)) false] in
  let r := @phaseReliefForTargets canonical_iter (Some d) demoSite ∅ None ts
             {["b"%string := demoBattery]} demoStuck in
  le_rel (fst (fst r)) (fmax (of_Z 0) (of_Z 0)).
Proof.
  intros d ts r.
  pose proof (@repeating_meter_stops_relief canonical_iter d demoSite ∅ None ts {["b"%string := demoBattery]}
    demoStuck [of_Z 20; of_Z (-4); of_Z 2]
    (mkMoved (of_Z 0) (of_Z 0) {["b"%string := of_Z (-1000)]}) demo_phases_ok) as T.
  fold r in T. destruct r as [[i e] ref']. cbn [fst].
  refine (proj1 (T _ _ _ _ _ _ _) _).
  - vm_compute. reflexivity.
  - discriminate.
  - vm_compute. reflexivity.
  - apply Forall_cons_2; [split; vm_compute; reflexivity|].
    apply Forall_cons_2; [split; vm_compute; reflexivity|].
    apply Forall_cons_2; [split; vm_compute; reflexivity|]. apply Forall_nil_2.
  - vm_compute. reflexivity.
  - vm_compute. reflexivity.
  - vm_compute. reflexivity.
  - vm_compute. reflexivity.
Defined.
