(* ===== verification/FuseHeat.v ===== *)
(** * The main fuse's heat (go/internal/control/fuse_heat.go)

    Each phase of the fuse as a first-order low-pass on the square of its
    current, fed by the site meter's readings only. [math.Expm1] is a
    transcendental function of the standard library: it is a parameter, with
    its documented range for arguments that are not positive. *)
From Stdlib Require Import ZArith Lia.
From S2P Require Import Prelude Float64 GoTime Json Kalman Health Telemetry Limits CommandLog Site.
From S2P Require Import ImportHour PhaseFuse.
From stdpp Require Import base gmap strings list.
#[local] Open Scope Z_scope.

Definition fuseHeatTau : Duration := 60 * Second.
Definition fuseInstantFactor : f64 := lit 12 10.

(** The arrays have one entry for each of three phases. *)
Record fuseHeat : Type := mkHeat { hSet : bool; hAt : Time; hAmps : list f64; hSq : list f64 }.
Definition noHeat : fuseHeat := mkHeat false zeroTime (replicate 3 (of_Z 0)) (replicate 3 (of_Z 0)).

(** [copy] of a slice into the front of an array. *)
Definition copyInto (as_ arr : list f64) : list f64 := take (length arr) (as_ ++ drop (length as_) arr).
(** The array's front entries replaced by those of the slice. *)
Definition frontWith (f : f64 -> f64 -> f64) (as_ arr : list f64) : list f64 :=
  zip_with f as_ arr ++ drop (length as_) arr.

Section Model.
Variable Expm1 : f64 -> f64.

Definition heatGain (dt : Duration) : f64 := fneg (Expm1 (fdiv (fneg (Seconds dt)) (Seconds fuseHeatTau))).

Definition heatStep (k sq a : f64) : f64 := fadd sq (fmul (fsub (fmul a a) sq) k).

Definition step (at' : Time) (as_ : list f64) (h : fuseHeat) : fuseHeat :=
  let hold := copyInto as_ (replicate 3 (of_Z 0)) in
  if negb (hSet h) then mkHeat true at' hold (frontWith (fun a _ => fmul a a) as_ (hSq h))
  else
    let dt := Sub at' (hAt h) in
    if dt <=? 0 then h
    else mkHeat true at' hold (zip_with (heatStep (heatGain dt)) (hSq h) (hAmps h)).

Definition start (at' : Time) (as_ : list f64) (lineA : f64) (h : fuseHeat) : fuseHeat :=
  let h := step at' as_ h in
  mkHeat (hSet h) (hAt h) (hAmps h) ((fun sq => fmin sq (fmul lineA lineA)) <$> hSq h).

(** The level a phase counts at: an importing one at the higher of the reading
    and its heat. *)
Definition phaseLevelA (a sq : f64) : f64 := if fle (of_Z 0) a then fmax a (fsqrt sq) else a.
Definition phaseStartLevelA (limitA a sq : f64) : f64 :=
  if fle (of_Z 0) a && flt (fmul limitA limitA) sq then fmax a (fsqrt sq) else a.

Definition overA (as_ : list f64) (limitA instantA : f64) (h : fuseHeat) : f64 :=
  fold_left (fun over '(a, sq) =>
      if flt (fmul limitA limitA) sq || flt instantA a then fmax over (fsub a limitA) else over)
    (zip as_ (hSq h)) (of_Z 0).

Definition levelA (as_ pendingA : list f64) (h : fuseHeat) : f64 :=
  fold_left (fun level '(a, sq, p) => fmax level (fadd (phaseLevelA a sq) p))
    (zip (zip as_ (hSq h)) pendingA) (Inf true).

Definition startLevelA (as_ pendingA : list f64) (limitA : f64) (h : fuseHeat) : f64 :=
  fold_left (fun level '(a, sq, p) => fmax level (fadd (phaseStartLevelA limitA a sq) p))
    (zip (zip as_ (hSq h)) pendingA) (Inf true).

(** The builtin [max]: NaN wins. *)
Definition maxNaN (x y : f64) : f64 := if isNaN x || isNaN y then NaN else fmax x y.
Definition worstA (h : fuseHeat) : f64 :=
  match hSq h with
  | [a; b; c] => fsqrt (maxNaN (maxNaN a b) c)
  | _ => NaN
  end.

Definition stepFuseHeat (s : Site) (meter : DerReading) (totalW : f64) (h : fuseHeat) : fuseHeat :=
  if hSet h && negb (After (UpdatedAt meter) (hAt h)) then h
  else
    let r := phaseCurrentsA meter s totalW in
    if negb (valid r) then h
    else if negb (hSet h) then start (UpdatedAt meter) (amps r) (fuseLineA s) h
    else step (UpdatedAt meter) (amps r) h.

(** ** Lemmas *)
(** The documented range of [math.Expm1] on arguments that are not positive. *)
Definition expm1_range : Prop :=
  forall x, le_rel x (of_Z 0) -> le_rel (of_Z (-1)) (Expm1 x) /\ le_rel (Expm1 x) (of_Z 0).

Lemma heatGain_range dt : expm1_range -> 0 <= dt <= max_int64 ->
  le_rel (Fin 0) (heatGain dt) /\ le_rel (heatGain dt) (Fin unit64).
Proof.
  intros He Hd. destruct (Seconds_fact dt Hd) as [R N]. unfold heatGain.
  assert (P : flt (of_Z 0) (Seconds fuseHeatTau) = true) by (vm_compute; reflexivity).
  assert (R6 : rank (Seconds fuseHeatTau) = 0) by (vm_compute; reflexivity).
  set (tau := Seconds fuseHeatTau) in *. clearbody tau. set (sec := Seconds dt) in *. clearbody sec.
  set (x := fdiv (fneg sec) tau).
  assert (Lx : le_rel x (of_Z 0)).
  { unfold x. rewrite of_Z_0 in *. destruct sec as [|[]|a], tau as [|[]|b]; try discriminate.
    apply flt_iff in P. unfold le_rel in N. cbn in P, N. cbn.
    assert (Hb : 0 < b) by lia. assert (Ha : 0 <= a) by lia. pose proof unit64_pos.
    destruct (Z.eqb_spec b 0); [lia|]. rewrite Z.sgn_pos by exact Hb. apply rnd_nonpos; nia. }
  destruct (He x Lx) as [A B]. apply fneg_anti in A, B.
  replace (fneg (of_Z (-1))) with (Fin unit64) in A by (rewrite of_Z_fin by lia; cbn; f_equal; lia).
  rewrite of_Z_0 in B. cbn in B. split; [exact B|exact A].
Qed.

(** One phase's step, from a heat that is not negative toward the square of
    the current it held. *)
Lemma heatStep_toward k sq a :
  le_rel (Fin 0) k -> le_rel k (Fin unit64) ->
  rank sq = 0 -> wf sq -> le_rel (of_Z 0) sq -> rank (fmul a a) = 0 ->
  let sq' := heatStep k sq a in
  le_rel (of_Z 0) sq' /\
  (le_rel sq (fmul a a) -> le_rel sq sq') /\ (le_rel (fmul a a) sq -> le_rel sq' sq).
Proof.
  intros K0 K1 R W P Ra. cbv zeta. unfold heatStep. set (a2 := fmul a a) in *.
  assert (P2 : le_rel (of_Z 0) a2).
  { rewrite of_Z_0. unfold a2 in *. destruct a as [|[]|z]; try discriminate.
    apply rnd_nonneg; [nia|apply unit64_pos]. }
  assert (W2 : wf a2) by apply fmul_wf. clearbody a2.
  assert (Nd : rank (fsub a2 sq) <> 2) by now apply fsub_nn.
  assert (Z0 : rank (of_Z 0) = 0) by (apply of_Z_rank; lia).
  assert (Ud : le_rel (fsub a2 sq) a2)
    by (apply fsub_le; [exact W2|now rewrite <- of_Z_0|now apply finite_nn|exact Nd]).
  assert (Ld : le_rel (fneg sq) (fsub a2 sq)).
  { rewrite <- (fadd_0_r (fneg sq)) by now apply fneg_wf. rewrite fadd_comm, <- of_Z_0.
    apply fadd_mono; [exact P2|now apply le_rel_refl, finite_nn, fneg_fin| |exact Nd].
    apply fadd_nn; [exact Z0|now apply fneg_fin]. }
  assert (Rd : rank (fsub a2 sq) = 0) by exact (rank_mid _ _ _ Ld Ud (fneg_fin _ R) Ra).
  destruct (fmul_ratio (fsub a2 sq) k (fsub_wf _ _) Rd K0 K1) as (Rm & Mp & Mn).
  assert (Up : le_rel sq a2 -> le_rel (of_Z 0) (fsub a2 sq))
    by (intros L; rewrite of_Z_0; now apply fsub_nonneg).
  assert (Dn : le_rel a2 sq -> le_rel (fsub a2 sq) (of_Z 0))
    by (intros L; rewrite of_Z_0; now apply fsub_nonpos).
  set (d := fsub a2 sq) in *. set (m := fmul d k) in *. clearbody m d.
  assert (Nm : rank (fadd sq m) <> 2) by now apply fadd_nn.
  assert (A : le_rel sq a2 -> le_rel sq (fadd sq m)).
  { intros L. apply fadd_of_ge; [exact W|now apply finite_nn|exact Nm|exact (proj1 (Mp (Up L)))]. }
  split_and!.
  - destruct (le_rel_total sq a2 (finite_nn _ R) (finite_nn _ Ra)) as [L|L].
    + exact (le_rel_trans _ _ _ P (A L)).
    + destruct (Mn (Dn L)) as [_ Lm].
      assert (E : fadd sq (fneg sq) = of_Z 0).
      { rewrite of_Z_0. destruct sq as [|[]|z]; try discriminate. cbn. now rewrite Z.add_opp_diag_r. }
      rewrite <- E. apply fadd_mono; [now apply le_rel_refl, finite_nn|exact (le_rel_trans _ _ _ Ld Lm)| |exact Nm].
      rewrite E. now apply finite_nn.
  - exact A.
  - intros L. rewrite <- (fadd_0_r sq W) at 2. rewrite <- of_Z_0.
    apply fadd_mono; [now apply le_rel_refl, finite_nn|exact (proj1 (Mn (Dn L)))|exact Nm|now apply fadd_nn].
Qed.
(** The model's shape: three phases, each with a heat that is a number at
    least zero and a held current whose square is one. *)
Record heat_ok (h : fuseHeat) : Prop := {
  heat_len : length (hSq h) = 3%nat /\ length (hAmps h) = 3%nat;
  heat_amps : Forall (fun a => rank (fmul a a) = 0) (hAmps h);
  heat_sq : Forall (fun sq => rank sq = 0 /\ wf sq /\ le_rel (of_Z 0) sq) (hSq h)
}.

Definition follows (x : f64 * f64) (sq' : f64) : Prop :=
  let '(sq, a) := x in
  le_rel (of_Z 0) sq' /\ (le_rel sq (fmul a a) -> le_rel sq sq') /\ (le_rel (fmul a a) sq -> le_rel sq' sq).

Lemma zip_follows k sqs as_ :
  le_rel (Fin 0) k -> le_rel k (Fin unit64) ->
  Forall (fun sq => rank sq = 0 /\ wf sq /\ le_rel (of_Z 0) sq) sqs ->
  Forall (fun a => rank (fmul a a) = 0) as_ ->
  Forall2 follows (zip sqs as_) (zip_with (heatStep k) sqs as_).
Proof.
  intros K0 K1 Fs. revert as_. induction Fs as [|sq sqs (R & W & P) _ IH]; intros as_ Fa; [constructor|].
  destruct Fa as [|a as_ Ra Fa]; [constructor|]. cbn. constructor; [|now apply IH].
  now apply heatStep_toward.
Qed.

Lemma zip_follows_refl sqs as_ :
  Forall (fun sq => rank sq = 0 /\ wf sq /\ le_rel (of_Z 0) sq) sqs -> length sqs = length as_ ->
  Forall2 follows (zip sqs as_) sqs.
Proof.
  intros Fs. revert as_. induction Fs as [|sq sqs (R & W & P) _ IH]; intros [|a as_] L; try discriminate; [constructor|].
  constructor; [|apply IH; now injection L]. pose proof (le_rel_refl sq (finite_nn _ R)) as S.
  split; [exact P|]. split; intros _; exact S.
Qed.

(** ** The highest of a list of levels *)
Definition highest {A} (f : A -> f64) (l : list A) (acc : f64) : f64 :=
  fold_left (fun m x => fmax m (f x)) l acc.

Lemma highest_ge {A} (f : A -> f64) l acc :
  rank acc <> 2 -> Forall (fun x => rank (f x) <> 2) l ->
  rank (highest f l acc) <> 2 /\ le_rel acc (highest f l acc) /\ Forall (fun x => le_rel (f x) (highest f l acc)) l.
Proof.
  intros Na F. revert acc Na. induction F as [|x l Nx _ IH]; intros acc Na.
  - split_and!; [exact Na|now apply le_rel_refl|constructor].
  - cbn [highest fold_left]. fold (highest f l (fmax acc (f x))).
    destruct (IH (fmax acc (f x)) (fmax_nn _ _ Na Nx)) as (N & L & F').
    assert (M : le_rel acc (fmax acc (f x)) /\ le_rel (f x) (fmax acc (f x))).
    { destruct (fmax_spec acc (f x) Na Nx) as [[-> M]|[-> M]]; split; auto using le_rel_refl. }
    destruct M as [M1 M2]. split_and!; [exact N|exact (le_rel_trans _ _ _ M1 L)|].
    constructor; [exact (le_rel_trans _ _ _ M2 L)|exact F'].
Qed.

Lemma highest_mono {A} (f g : A -> f64) l acc acc' :
  Forall (fun x => rank (f x) <> 2 /\ le_rel (f x) (g x)) l -> le_rel acc acc' ->
  le_rel (highest f l acc) (highest g l acc').
Proof.
  intros F. revert acc acc'. induction F as [|x l [Nx L] _ IH]; intros acc acc' La; [exact La|].
  cbn [highest fold_left]. apply IH.
  pose proof (le_rel_nn_l _ _ La). pose proof (le_rel_nn_r _ _ La). pose proof (le_rel_nn_r _ _ L) as Ng.
  assert (M : le_rel acc' (fmax acc' (g x)) /\ le_rel (g x) (fmax acc' (g x))).
  { destruct (fmax_spec acc' (g x)) as [[-> M]|[-> M]]; auto using le_rel_refl. }
  destruct M as [M1 M2].
  destruct (fmax_spec acc (f x)) as [[-> _]|[-> _]]; auto; eapply le_rel_trans; eauto.
Qed.

Lemma levelA_highest as_ pendingA h :
  levelA as_ pendingA h =
  highest (fun '(a, sq, p) => fadd (phaseLevelA a sq) p) (zip (zip as_ (hSq h)) pendingA) (Inf true).
Proof. unfold levelA, highest. generalize (Inf true). induction (zip _ _) as [|[[a sq] p] l IH]; intros acc; [reflexivity|]. cbn. apply IH. Qed.
Lemma startLevelA_highest as_ pendingA limitA h :
  startLevelA as_ pendingA limitA h =
  highest (fun '(a, sq, p) => fadd (phaseStartLevelA limitA a sq) p) (zip (zip as_ (hSq h)) pendingA) (Inf true).
Proof. unfold startLevelA, highest. generalize (Inf true). induction (zip _ _) as [|[[a sq] p] l IH]; intros acc; [reflexivity|]. cbn. apply IH. Qed.

(** The square root of a finite number at least zero is a number. *)
Lemma fsqrt_nn x : rank x = 0 -> le_rel (of_Z 0) x -> rank (fsqrt x) <> 2.
Proof.
  rewrite of_Z_0. destruct x as [|[]|a]; try discriminate. intros _ L. unfold le_rel in L. cbn in L.
  unfold fsqrt. destruct (Z.ltb_spec a 0); [lia|]. destruct (_ =? _); apply rnd_not_nan.
Qed.

Lemma phaseLevelA_ge a sq :
  rank a = 0 -> rank (fsqrt sq) <> 2 ->
  rank (phaseLevelA a sq) <> 2 /\ le_rel a (phaseLevelA a sq) /\
  (le_rel (of_Z 0) a -> le_rel (fsqrt sq) (phaseLevelA a sq)).
Proof.
  intros Ra Ns. pose proof (finite_nn _ Ra) as Na. unfold phaseLevelA. destruct (fle (of_Z 0) a) eqn:E.
  - assert (M : le_rel a (fmax a (fsqrt sq)) /\ le_rel (fsqrt sq) (fmax a (fsqrt sq))).
    { destruct (fmax_spec a (fsqrt sq) Na Ns) as [[-> M]|[-> M]]; auto using le_rel_refl. }
    destruct M. split_and!; auto. now apply fmax_nn.
  - split_and!; auto using le_rel_refl. intros L. exfalso. apply fle_iff in L. congruence.
Qed.

Lemma phaseStartLevelA_le limitA a sq :
  rank a = 0 -> rank (fsqrt sq) <> 2 ->
  rank (phaseStartLevelA limitA a sq) <> 2 /\ le_rel a (phaseStartLevelA limitA a sq) /\
  le_rel (phaseStartLevelA limitA a sq) (phaseLevelA a sq).
Proof.
  intros Ra Ns. destruct (phaseLevelA_ge a sq Ra Ns) as (N & L & _). pose proof (finite_nn _ Ra) as Na.
  unfold phaseStartLevelA. destruct (fle (of_Z 0) a) eqn:E; cbn [andb]; [|split_and!; auto using le_rel_refl].
  destruct (flt _ sq); [|split_and!; auto using le_rel_refl].
  unfold phaseLevelA in *. rewrite E in *. split_and!; auto using le_rel_refl.
Qed.
(** ** Properties *)

(** The fuse's heat follows the reading it held. Over a meter gap each
    phase's heat stays a number at least zero and moves only toward the square
    of the current last seen; the reading that ends the gap plays no part in
    it, and a reading that is not newer changes nothing. *)
Theorem heat_follows_held_reading (at' : Time) (as_ : list f64) (h : fuseHeat) :
  expm1_range -> heat_ok h -> hSet h = true ->
  let h' := step at' as_ h in
  Forall2 follows (zip (hSq h) (hAmps h)) (hSq h') /\
  (forall others, hSq (step at' others h) = hSq h') /\
  (at' <= hAt h -> h' = h).
Proof.
  intros He [[L1 L2] Fa Fs] Es. cbv zeta. unfold step. rewrite Es. cbn [negb].
  destruct (Sub at' (hAt h) <=? 0) eqn:Ed.
  - split_and!; [apply zip_follows_refl; [exact Fs|lia]|reflexivity|reflexivity].
  - apply Z.leb_gt in Ed. cbn [hSq].
    destruct (heatGain_range (Sub at' (hAt h)) He) as [K0 K1].
    { unfold Sub, min_int64, max_int64 in *. lia. }
    split_and!; [now apply zip_follows|reflexivity|].
    intros H. exfalso. unfold Sub, min_int64, max_int64 in Ed. lia.
Qed.

(** A restart does not charge its first reading as an overload. The model
    starts with every phase at most at the working limit, so the first
    reading's overage is zero unless a phase is above the instant cut. *)
Theorem first_reading_spends_no_heat (at' : Time) (as_ : list f64) (lineA instantA : f64) (h : fuseHeat) :
  hSet h = false -> length (hSq h) = 3%nat -> Forall (fun sq => rank sq <> 2) (hSq h) ->
  rank (fmul lineA lineA) <> 2 ->
  Forall (fun a => rank (fmul a a) <> 2 /\ le_rel a instantA) as_ ->
  let h' := start at' as_ lineA h in
  Forall (fun sq => le_rel sq (fmul lineA lineA)) (hSq h') /\ overA as_ lineA instantA h' = of_Z 0.
Proof.
  intros Es L Fs Nl Fa. cbv zeta. unfold start, step. rewrite Es. cbn [negb hSq hSet hAt hAmps].
  set (line := fmul lineA lineA) in *.
  assert (N : Forall (fun sq => rank sq <> 2) (frontWith (fun a _ => fmul a a) as_ (hSq h))).
  { unfold frontWith. apply Forall_app. split; [|now apply Forall_drop].
    clear L. revert Fs. generalize (hSq h). induction Fa as [|a l [Na _] _ IH]; intros [|sq sqs] Fs; try constructor; auto.
    apply IH. now inversion Fs. }
  set (sqs := (fun sq => fmin sq line) <$> _).
  assert (B : Forall (fun sq => le_rel sq line) sqs).
  { apply Forall_fmap. eapply Forall_impl; [exact N|]. cbn. intros sq Nsq.
    destruct (fmin_spec sq line Nsq Nl) as [[-> M]|[-> _]]; [exact M|now apply le_rel_refl]. }
  split; [exact B|]. unfold overA. cbn [hSq]. fold line. clearbody sqs line. clear N L Fs.
  revert sqs B. induction Fa as [|a l [_ La] _ IH]; intros [|sq sqs] B; try reflexivity.
  apply Forall_cons in B as [Lsq B]. cbn.
  rewrite (le_flt_false _ _ Lsq), (le_flt_false _ _ La). cbn [orb]. now apply IH.
Qed.

(** A rise never spends heat or room twice. The level a running pool's
    rise reads is at least every phase's current and, where the phase imports,
    its heat, each with what was sent on top; an idle start reads a level at
    least every current and never above the level of a rise. *)
Theorem rise_level_covers (as_ pendingA : list f64) (limitA : f64) (h : fuseHeat) :
  Forall (fun a => rank a = 0) as_ -> Forall (fun p => rank p = 0) pendingA ->
  Forall (fun sq => rank sq = 0 /\ le_rel (of_Z 0) sq) (hSq h) ->
  let level := levelA as_ pendingA h in
  let idle := startLevelA as_ pendingA limitA h in
  le_rel idle level /\
  Forall (fun '(a, sq, p) =>
      le_rel (fadd a p) idle /\
      (le_rel (of_Z 0) a -> le_rel (fadd (fsqrt sq) p) level)) (zip (zip as_ (hSq h)) pendingA).
Proof.
  intros Fa Fp Fs. cbv zeta. rewrite levelA_highest, startLevelA_highest.
  set (l := zip (zip as_ (hSq h)) pendingA).
  assert (F : Forall (fun '(a, sq, p) => rank a = 0 /\ rank (fsqrt sq) <> 2 /\ rank p = 0) l).
  { unfold l. clear l. revert pendingA Fp. revert Fs. generalize (hSq h).
    induction Fa as [|a l Ra _ IH]; intros sqs Fs ps Fp; [constructor|].
    destruct Fs as [|sq sqs [Rs Ps] Fs]; [constructor|]. destruct Fp as [|p ps Rp Fp]; [constructor|].
    constructor; [|now apply IH]. split_and!; [exact Ra|now apply fsqrt_nn|exact Rp]. }
  clearbody l. clear Fa Fp Fs.
  assert (Z : forall x p, rank x <> 2 -> rank p = 0 -> rank (fadd x p) <> 2)
    by (intros x p Nx Rp; apply fadd_fin_nn; auto using finite_nn).
  split.
  - apply highest_mono; [|unfold le_rel; cbn; lia]. eapply Forall_impl; [exact F|].
    intros [[a sq] p] (Ra & Ns & Rp). destruct (phaseStartLevelA_le limitA a sq Ra Ns) as (N1 & _ & M).
    pose proof (le_rel_nn_r _ _ M) as N2. split; [now apply Z|].
    apply fadd_mono; auto. now apply le_rel_refl, finite_nn.
  - assert (G : forall f, (forall x, x ∈ l -> rank (f x) <> 2) ->
      forall x, x ∈ l -> le_rel (f x) (highest f l (Inf true))).
    { intros f N. apply Forall_forall, highest_ge; [discriminate|]. now apply Forall_forall. }
    apply Forall_forall. intros [[a sq] p] Hx. rewrite Forall_forall in F.
    destruct (F _ Hx) as (Ra & Ns & Rp). pose proof (le_rel_refl p (finite_nn _ Rp)) as Lp.
    destruct (phaseStartLevelA_le limitA a sq Ra Ns) as (N1 & M1 & _).
    destruct (phaseLevelA_ge a sq Ra Ns) as (N2 & _ & M2). split.
    + apply (le_rel_trans _ (fadd (phaseStartLevelA limitA a sq) p)); [apply fadd_mono; auto using finite_nn|].
      refine (G (fun '(a, sq, p) => fadd (phaseStartLevelA limitA a sq) p) _ _ Hx).
      intros [[a' sq'] p'] Hy. destruct (F _ Hy) as (Ra' & Ns' & Rp'). apply Z; [|exact Rp'].
      now destruct (phaseStartLevelA_le limitA a' sq' Ra' Ns').
    + intros P. apply (le_rel_trans _ (fadd (phaseLevelA a sq) p)); [apply fadd_mono; auto|].
      refine (G (fun '(a, sq, p) => fadd (phaseLevelA a sq) p) _ _ Hx).
      intros [[a' sq'] p'] Hy. destruct (F _ Hy) as (Ra' & Ns' & Rp'). apply Z; [|exact Rp'].
      now destruct (phaseLevelA_ge a' sq' Ra' Ns').
Qed.
End Model.

(** ** Witnesses *)
(** Any function with the range will do: here the flat one. *)
Definition flatExpm1 (x : f64) : f64 := of_Z 0.

Lemma flat_range : expm1_range flatExpm1.
Proof. intros x _. split; apply of_Z_mono; lia. Defined.

Definition demoHeat : fuseHeat :=
  mkHeat true 0 [of_Z 18; of_Z 4; of_Z 2] [of_Z 256; of_Z 16; of_Z 4].

Lemma demo_heat_ok : heat_ok demoHeat.
Proof.
  constructor; [split; reflexivity| |].
  - apply Forall_cons_2; [vm_compute; reflexivity|]. apply Forall_cons_2; [vm_compute; reflexivity|].
    apply Forall_cons_2; [vm_compute; reflexivity|]. apply Forall_nil_2.
  - assert (G : forall z, 0 <= z <= 1000 -> rank (of_Z z) = 0 /\ wf (of_Z z) /\ le_rel (of_Z 0) (of_Z z)).
    { intros z Hz. split; [apply of_Z_rank; lia|]. split; [apply of_Z_wf|apply of_Z_mono; lia]. }
    apply Forall_cons_2; [apply G; lia|]. apply Forall_cons_2; [apply G; lia|].
    apply Forall_cons_2; [apply G; lia|]. apply Forall_nil_2.
Defined.

Lemma heat_follows_held_reading_witness :
  step flatExpm1 0 [of_Z 5; of_Z 5; of_Z 5] demoHeat = demoHeat.
Proof.
  refine (proj2 (proj2 (heat_follows_held_reading flatExpm1 0 [of_Z 5; of_Z 5; of_Z 5] demoHeat
    flat_range demo_heat_ok _)) _).
  - reflexivity.
  - cbn. lia.
Defined.

Lemma first_reading_spends_no_heat_witness :
  overA [of_Z 18] (of_Z 16) (of_Z 19) (start flatExpm1 5 [of_Z 18] (of_Z 16) noHeat) = of_Z 0.
Proof.
  refine (proj2 (first_reading_spends_no_heat flatExpm1 5 [of_Z 18] (of_Z 16) (of_Z 19) noHeat _ _ _ _ _)).
  - reflexivity.
  - reflexivity.
  - apply Forall_replicate. apply of_Z_nn. lia.
  - vm_compute. discriminate.
  - apply Forall_cons_2; [split; [vm_compute; discriminate|apply of_Z_mono; lia]|apply Forall_nil_2].
Defined.

Lemma rise_level_covers_witness :
  le_rel (startLevelA [of_Z 12] [of_Z 1] (of_Z 16) demoHeat) (levelA [of_Z 12] [of_Z 1] demoHeat).
Proof.
  refine (proj1 (rise_level_covers [of_Z 12] [of_Z 1] (of_Z 16) demoHeat _ _ _)).
  - apply Forall_cons_2; [apply of_Z_rank; lia|apply Forall_nil_2].
  - apply Forall_cons_2; [apply of_Z_rank; lia|apply Forall_nil_2].
  - assert (G : forall z, 0 <= z <= 1000 -> rank (of_Z z) = 0 /\ le_rel (of_Z 0) (of_Z z)).
    { intros z Hz. split; [apply of_Z_rank; lia|apply of_Z_mono; lia]. }
    apply Forall_cons_2; [apply G; lia|]. apply Forall_cons_2; [apply G; lia|].
    apply Forall_cons_2; [apply G; lia|]. apply Forall_nil_2.
Defined.
