(* ===== verification/ControlState.v ===== *)
(** * The control loop's own state (go/internal/control/dispatch.go, [State])

    [Site] holds the settings; this record holds what the dispatch and the
    fuse guard change, in the groups they change together. Every setter
    replaces one group. *)
From Stdlib Require Import ZArith Lia.
From S2P Require Import Prelude Float64 GoTime Json Kalman Health Telemetry Limits CommandLog Site.
From S2P Require Import ImportHour PhaseFuse FuseHeat.
From stdpp Require Import base gmap strings list.
#[local] Open Scope Z_scope.

(** [evBatteryYield]. *)
Record evBatteryYield : Type := mkYield {
  yTried : bool; yUntil : Time; yActive : bool; yMaxChargeW : f64
}.
Definition noYield : evBatteryYield := mkYield false zeroTime false (of_Z 0).

(** The managed EVs' common cap and when it last moved. *)
Record evCap : Type := mkEVCap {
  lSet : bool; lCapW : f64; lCutAt : Time; lReadingAt : Time; lRoomSince : Time; lIdleWh : f64; lByImport : bool
}.
(** The site meter's phases at [lReadingAt] and the room below the line there. *)
Record evPhases : Type := mkEVPhases {
  phaseRoomA : f64; phaseRoomKnown : bool; phasesA : list f64; phasesSeen : bool
}.
(** Each phase's highest reading that a cut still on its way was sent on. *)
Record evCutFor : Type := mkEVCutFor { cutForA : list f64; cutForSet : bool }.
(** A run over the fuse's working limit: its start, its first cut, and the
    stretch under the limit that may end it. *)
Record evFuseRun : Type := mkEVRun { fuseOverAt : Time; fuseCutAt : Time; fuseUnderAt : Time }.

(** [evMeterLimit], its scalar fields in the groups above. *)
Record evMeterLimit : Type := mkEVLimit {
  offers : gmap string chargerOffers;
  overSince : Time;
  overOffers : gmap string f64;
  batteryYield : evBatteryYield;
  cap : evCap;
  phases : evPhases;
  cutFor : evCutFor;
  fuseRun : evFuseRun
}.
Definition no3 : list f64 := replicate 3 (of_Z 0).
Definition noEVLimit : evMeterLimit :=
  mkEVLimit ∅ zeroTime ∅ noYield (mkEVCap false (of_Z 0) zeroTime zeroTime zeroTime (of_Z 0) false)
    (mkEVPhases (of_Z 0) false no3 false) (mkEVCutFor no3 false) (mkEVRun zeroTime zeroTime zeroTime).

Definition withOffers (x : gmap string chargerOffers) (l : evMeterLimit) : evMeterLimit :=
  mkEVLimit x (overSince l) (overOffers l) (batteryYield l) (cap l) (phases l) (cutFor l) (fuseRun l).
Definition withHourRun (since : Time) (o : gmap string f64) (l : evMeterLimit) : evMeterLimit :=
  mkEVLimit (offers l) since o (batteryYield l) (cap l) (phases l) (cutFor l) (fuseRun l).
Definition withYield (x : evBatteryYield) (l : evMeterLimit) : evMeterLimit :=
  mkEVLimit (offers l) (overSince l) (overOffers l) x (cap l) (phases l) (cutFor l) (fuseRun l).
Definition withCap (x : evCap) (l : evMeterLimit) : evMeterLimit :=
  mkEVLimit (offers l) (overSince l) (overOffers l) (batteryYield l) x (phases l) (cutFor l) (fuseRun l).
Definition withPhases (x : evPhases) (l : evMeterLimit) : evMeterLimit :=
  mkEVLimit (offers l) (overSince l) (overOffers l) (batteryYield l) (cap l) x (cutFor l) (fuseRun l).
Definition withCutFor (x : evCutFor) (l : evMeterLimit) : evMeterLimit :=
  mkEVLimit (offers l) (overSince l) (overOffers l) (batteryYield l) (cap l) (phases l) x (fuseRun l).
Definition withFuseRun (x : evFuseRun) (l : evMeterLimit) : evMeterLimit :=
  mkEVLimit (offers l) (overSince l) (overOffers l) (batteryYield l) (cap l) (phases l) (cutFor l) x.

(** [FuseHoldMaxDischargeW], [FuseHoldMaxChargeW], [FuseHoldUntil]. *)
Record fuseHold : Type := mkFuseHold { maxDischargeHoldW : f64; maxChargeHoldW : f64; holdUntil : Time }.
Definition noFuseHold : fuseHold := mkFuseHold (of_Z 0) (of_Z 0) zeroTime.

(** The joint allocator's verdict for the cars. *)
Record fuseShare : Type := mkShare {
  FuseEVMaxW : f64; FuseSaturated : bool; FuseSaturatedByImport : bool
}.

(** What the guard added to each battery, and since when it is offline. *)
Record reliefLog : Type := mkReliefLog {
  batteryFuseRelief : gmap string f64; batteriesOfflineSince : gmap string Time
}.

(** Our own recent commands and the readings beside them. *)
Record sentLog : Type := mkSentLog {
  batteryCommands : gmap string commandLog;
  batteryReadings : gmap string commandLog;
  LastDispatch : option Time;
  PrevTargets : gmap string f64;
  LastTargets : list DispatchTarget
}.

Record State : Type := mkState {
  site : Site;
  importHour : hourImport;
  evLimit : evMeterLimit;
  hold : fuseHold;
  share : fuseShare;
  relief : reliefLog;
  phaseResp : phaseResponse;
  sentTo : sentLog;
  batteryChargeFull : gset string;
  heat : fuseHeat
}.

Definition withSite (s : Site) (st : State) : State :=
  mkState s (importHour st) (evLimit st) (hold st) (share st) (relief st)
    (phaseResp st) (sentTo st) (batteryChargeFull st) (heat st).
Definition withEVLimit (l : evMeterLimit) (st : State) : State :=
  mkState (site st) (importHour st) l (hold st) (share st) (relief st)
    (phaseResp st) (sentTo st) (batteryChargeFull st) (heat st).
Definition withHold (h : fuseHold) (st : State) : State :=
  mkState (site st) (importHour st) (evLimit st) h (share st) (relief st)
    (phaseResp st) (sentTo st) (batteryChargeFull st) (heat st).
Definition withShare (x : fuseShare) (st : State) : State :=
  mkState (site st) (importHour st) (evLimit st) (hold st) x (relief st)
    (phaseResp st) (sentTo st) (batteryChargeFull st) (heat st).
Definition withRelief (r : reliefLog) (st : State) : State :=
  mkState (site st) (importHour st) (evLimit st) (hold st) (share st) r
    (phaseResp st) (sentTo st) (batteryChargeFull st) (heat st).
Definition withResponse (p : phaseResponse) (st : State) : State :=
  mkState (site st) (importHour st) (evLimit st) (hold st) (share st) (relief st)
    p (sentTo st) (batteryChargeFull st) (heat st).
Definition withSent (l : sentLog) (st : State) : State :=
  mkState (site st) (importHour st) (evLimit st) (hold st) (share st) (relief st)
    (phaseResp st) l (batteryChargeFull st) (heat st).
Definition withChargeFull (f : gset string) (st : State) : State :=
  mkState (site st) (importHour st) (evLimit st) (hold st) (share st) (relief st)
    (phaseResp st) (sentTo st) f (heat st).
Definition withHeat (h : fuseHeat) (st : State) : State :=
  mkState (site st) (importHour st) (evLimit st) (hold st) (share st) (relief st)
    (phaseResp st) (sentTo st) (batteryChargeFull st) h.

(** The log of one driver, empty when it has none. *)
Definition logOfDriver (logs : gmap string commandLog) (driver : string) : commandLog :=
  default [] (logs !! driver).

(** Readings captured for one decision: the first reading of each target. *)
Definition captureReadings (store : Store) (targets : list DispatchTarget) : gmap string DerReading :=
  fold_left (fun m t =>
      match Get (tDriver t) DerBattery store with
      | Some r => <[tDriver t := r]> m
      | None => m
      end) targets ∅.

(** ** Full batteries (battery_full.go) *)
Definition batteryChargeHysteresisSoC : f64 := lit 1 100.

Definition BatteryChargeResumeSoC (st : State) (driver : string) : f64 :=
  fmax (of_Z 0) (fsub (socCeiling (limitsOf (DriverLimits (site st)) driver)) batteryChargeHysteresisSoC).

Definition BatteryChargePaused (st : State) (driver : string) : bool :=
  bool_decide (driver ∈ batteryChargeFull st).

(** One battery's fresh state of charge, when it may decide. *)
Definition freshSoC (store : Store) (now : Time) (name : string) : option f64 :=
  match Get name DerBattery store, GetHealth name store with
  | Some r, Some h =>
      match SoC r with
      | Some soc =>
          let age := Sub now (SoCUpdatedAt r) in
          if negb (IsOnline h) || (age <? 0) || (BatterySoCMaxAge <? age) || negb (finite soc) ||
             flt soc (of_Z 0) || flt (of_Z 1) soc
          then None else Some soc
      | None => None
      end
  | _, _ => None
  end.

Definition stepChargeFull (st : State) (store : Store) (now : Time) (full : gset string) (name : string)
  : gset string :=
  match freshSoC store now name with
  | None => full
  | Some soc =>
      if fle (socCeiling (limitsOf (DriverLimits (site st)) name)) soc then {[name]} ∪ full
      else if fle soc (BatteryChargeResumeSoC st name) then full ∖ {[name]}
      else full
  end.

(** The order over the capacities does not matter: each name touches itself. *)
Definition updateBatteryChargeFull `{MapIter} (store : Store) (now : Time) (capacities : gmap string f64)
    (st : State) : State :=
  let kept := filter (fun name => is_Some (capacities !! name)) (batteryChargeFull st) in
  withChargeFull (fold_left (stepChargeFull st store now) (keys capacities) kept) st.

Definition floorFull (st : State) (t : DispatchTarget) : DispatchTarget :=
  if flt (of_Z 0) (TargetW t) && BatteryChargePaused st (tDriver t) then setW (of_Z 0) t else t.
Definition floorFullBatteryCharge (st : State) (targets : list DispatchTarget) : list DispatchTarget :=
  floorFull st <$> targets.

(** The full batteries not yet commanded, and [PrevTargets] as they leave it. *)
Definition stopFullStep (store : Store) (st : State) (seen : gset string)
    (acc : list DispatchTarget * gmap string f64) (name : string) : list DispatchTarget * gmap string f64 :=
  let '(targets, prev) := acc in
  if bool_decide (name ∈ seen) || negb (BatteryChargePaused st name) then acc
  else
    match Get name DerBattery store, GetHealth name store with
    | Some r, Some h =>
        if negb (IsOnline h) || (fle (atZero prev name) (of_Z 0) && fle (RawW r) (of_Z 100)) then acc
        else (targets ++ [mkTarget name (of_Z 0) true], <[name := of_Z 0]> prev)
    | _, _ => acc
    end.

Definition withPrev (prev : gmap string f64) (l : sentLog) : sentLog :=
  mkSentLog (batteryCommands l) (batteryReadings l) (LastDispatch l) prev (LastTargets l).

Definition stopFullBatteries `{MapIter} (targets : list DispatchTarget) (store : Store)
    (capacities : gmap string f64) (st : State) : list DispatchTarget * State :=
  let seen := list_to_set (tDriver <$> targets) in
  let '(targets, prev) :=
    fold_left (stopFullStep store st seen) (keys capacities) (targets, PrevTargets (sentTo st)) in
  (floorFullBatteryCharge st targets, withSent (withPrev prev (sentTo st)) st).

(** ** Bookkeeping of a dispatch *)
Definition recordCommands (now : Time) (targets : list DispatchTarget) (logs : gmap string commandLog)
  : gmap string commandLog :=
  fold_left (fun m t => <[tDriver t := addCommand (logOfDriver m (tDriver t)) now (TargetW t)]> m) targets logs.

Definition recordDispatchTargets (now : Time) (targets : list DispatchTarget)
    (updatePrevTargets recordDispatch : bool) (st : State) : State :=
  let l := sentTo st in
  let cmds := if recordDispatch then recordCommands now targets (batteryCommands l) else batteryCommands l in
  let last := if recordDispatch then Some now else LastDispatch l in
  let prev :=
    if updatePrevTargets
    then fold_left (fun m t => <[tDriver t := TargetW t]> m) targets (PrevTargets l)
    else PrevTargets l in
  withSent (mkSentLog cmds (batteryReadings l) last prev targets) st.

Definition recordBatteryReadings (now : Time) (store : Store) (targets : list DispatchTarget) (st : State)
  : State :=
  let l := sentTo st in
  let reads := fold_left (fun m t =>
      match OnlineRawW (tDriver t) DerBattery store with
      | Some (w, _) => <[tDriver t := addCommand (logOfDriver m (tDriver t)) now w]> m
      | None => m
      end) targets (batteryReadings l) in
  withSent (mkSentLog (batteryCommands l) reads (LastDispatch l) (PrevTargets l) (LastTargets l)) st.

(** Watts per driver: its targets added up. *)
Definition perDriverW (targets : list DispatchTarget) : gmap string f64 :=
  fold_left (fun m t => <[tDriver t := fadd (atZero m (tDriver t)) (TargetW t)]> m) targets ∅.

(** [None] is an entry the code does not make. *)
Definition reliefOf (pre : gmap string f64) (driver : string) (w : f64) : option f64 :=
  let r := fmin (fsub (atZero pre driver) w) (fneg w) in
  if flt (of_Z 0) r then Some r else None.

Definition carriedRelief (l : reliefLog) (post : gmap string f64) (driver : string) (_ : Time) : option f64 :=
  match post !! driver with
  | Some _ => None
  | None => let w := atZero (batteryFuseRelief l) driver in if flt (of_Z 0) w then Some w else None
  end.

Definition recordFuseRelief (before after : list DispatchTarget) (st : State) : State :=
  let l := relief st in
  let pre := perDriverW before in
  let post := perDriverW after in
  let fresh := map_imap (reliefOf pre) post in
  let carried := map_imap (carriedRelief l post) (batteriesOfflineSince l) in
  withRelief (mkReliefLog (carried ∪ fresh) (batteriesOfflineSince l)) st.

Definition offlineSince (l : reliefLog) (now : Time) (driver : string) : Time :=
  default now (batteriesOfflineSince l !! driver).

Definition expireOfflineFuseRelief (now : Time) (online : list batteryInfo) (st : State) : State :=
  let l := relief st in
  let live : gset string := list_to_set (bDriver <$> online) in
  let expired driver := evSettle <=? Sub now (offlineSince l now driver) in
  let kept := map_imap (fun driver w =>
      if bool_decide (driver ∈ live) then Some w
      else if expired driver then None else Some w) (batteryFuseRelief l) in
  let since := map_imap (fun driver (_ : f64) =>
      if bool_decide (driver ∈ live) then None
      else if expired driver then None else Some (offlineSince l now driver)) (batteryFuseRelief l) in
  withRelief (mkReliefLog kept since) st.

Definition evFuseReliefW `{MapIter} (store : Store) (st : State) : f64 :=
  sumF ((fun '(driver, w) =>
      match OnlineRawW driver DerBattery store with
      | Some (raw, _) => fmin w (fmax (of_Z 0) (fneg raw))
      | None => w
      end) <$> map_iter (batteryFuseRelief (relief st))).

(** ** Lemmas *)
Section Lemmas.
Context `{MapIter}.

Lemma keys_spec {A} (m : gmap string A) name : name ∈ keys m <-> is_Some (m !! name).
Proof.
  unfold keys. rewrite (map_iter_perm _ m), list_elem_of_fmap. split.
  - intros ([k v] & -> & I). apply elem_of_map_to_list in I. eauto.
  - intros [v E]. exists (name, v). split; [reflexivity|now apply elem_of_map_to_list].
Qed.
Lemma keys_NoDup {A} (m : gmap string A) : NoDup (keys m).
Proof. unfold keys. rewrite (map_iter_perm _ m). apply NoDup_fst_map_to_list. Qed.

(** What one tick makes of one battery's full flag. *)
Definition chargeFullAfter (st : State) (store : Store) (now : Time) (name : string) (was : bool) : bool :=
  match freshSoC store now name with
  | None => was
  | Some soc =>
      fle (socCeiling (limitsOf (DriverLimits (site st)) name)) soc ||
      (was && negb (fle soc (BatteryChargeResumeSoC st name)))
  end.

Lemma stepChargeFull_same st store now full name :
  bool_decide (name ∈ stepChargeFull st store now full name) =
  chargeFullAfter st store now name (bool_decide (name ∈ full)).
Proof.
  unfold stepChargeFull, chargeFullAfter. destruct (freshSoC store now name) as [soc|]; [|reflexivity].
  destruct (fle (socCeiling _) soc); cbn [orb]; [apply bool_decide_eq_true; set_solver|].
  destruct (fle soc _); cbn [negb].
  - rewrite andb_false_r. apply bool_decide_eq_false. set_solver.
  - now rewrite andb_true_r.
Qed.
Lemma stepChargeFull_other st store now full name other :
  other <> name -> other ∈ stepChargeFull st store now full name <-> other ∈ full.
Proof. unfold stepChargeFull. intros. repeat case_match; set_solver. Qed.

Lemma fold_chargeFull_other st store now names other : other ∉ names -> forall full,
  other ∈ fold_left (stepChargeFull st store now) names full <-> other ∈ full.
Proof.
  intros N. induction names as [|n names IH]; intros full; [reflexivity|]. cbn [fold_left].
  rewrite IH by set_solver. apply stepChargeFull_other. set_solver.
Qed.
Lemma fold_chargeFull st store now names name : NoDup names -> name ∈ names -> forall full,
  bool_decide (name ∈ fold_left (stepChargeFull st store now) names full) =
  chargeFullAfter st store now name (bool_decide (name ∈ full)).
Proof.
  induction 1 as [|n names Nn _ IH]; intros I full; [now apply not_elem_of_nil in I|]. cbn [fold_left].
  destruct (decide (name = n)) as [->|D].
  - rewrite <- stepChargeFull_same. apply bool_decide_ext. now apply fold_chargeFull_other.
  - rewrite IH by set_solver. f_equal. apply bool_decide_ext. now apply stepChargeFull_other.
Qed.

(** *** An offline battery's relief over several ticks *)
Definition expireStep (st : State) (x : Time * list batteryInfo) : State :=
  expireOfflineFuseRelief (fst x) (snd x) st.
Definition offlineIn (driver : string) (x : Time * list batteryInfo) : Prop :=
  driver ∉ bDriver <$> snd x.
Definition settledSince (t0 : Time) (x : Time * list batteryInfo) : bool := evSettle <=? Sub (fst x) t0.

Definition reliefEntry (st : State) (driver : string) : option f64 * option Time :=
  (batteryFuseRelief (relief st) !! driver, batteriesOfflineSince (relief st) !! driver).

Lemma expire_entry driver x st : offlineIn driver x ->
  reliefEntry (expireStep st x) driver =
  match fst (reliefEntry st driver) with
  | None => (None, None)
  | Some w =>
      let t0 := default (fst x) (snd (reliefEntry st driver)) in
      if settledSince t0 x then (None, None) else (Some w, Some t0)
  end.
Proof.
  intros N. destruct x as [now online]. unfold offlineIn, reliefEntry, expireStep, settledSince in *. cbn [fst snd] in *.
  unfold expireOfflineFuseRelief. cbn. rewrite !map_lookup_imap.
  destruct (batteryFuseRelief (relief st) !! driver) as [w|]; [|reflexivity]. cbn.
  rewrite !bool_decide_eq_false_2 by (rewrite elem_of_list_to_set; exact N).
  unfold offlineSince. now destruct (evSettle <=? _).
Qed.

Lemma expire_gone driver l st : Forall (offlineIn driver) l -> reliefEntry st driver = (None, None) ->
  reliefEntry (fold_left expireStep l st) driver = (None, None).
Proof.
  intros F. revert st. induction F as [|x l N _ IH]; intros st E; [exact E|]. cbn [fold_left]. apply IH.
  now rewrite (expire_entry _ _ _ N), E.
Qed.

Lemma expire_since driver l t0 w st : Forall (offlineIn driver) l -> reliefEntry st driver = (Some w, Some t0) ->
  reliefEntry (fold_left expireStep l st) driver =
  if existsb (settledSince t0) l then (None, None) else (Some w, Some t0).
Proof.
  intros F. revert st. induction F as [|x l N F IH]; intros st E; [exact E|]. cbn [fold_left existsb].
  pose proof (expire_entry _ _ st N) as S. rewrite E in S. cbn [fst snd default] in S. cbv zeta in S.
  cbn in S. destruct (settledSince t0 x); cbn [orb].
  - now apply expire_gone.
  - now apply IH.
Qed.

(** ** Properties *)

(** A battery stops charging when it is full and starts again only a
    percentage point below its ceiling. After a tick a controlled battery
    with a fresh reading counts as full exactly when it reached its ceiling,
    or counted as full before and is still above the resume level; without a
    fresh reading it keeps its verdict, and one core no longer controls has
    none. No target then charges a full battery, and every other target
    passes unchanged. *)
Theorem full_battery_hysteresis (store : Store) (now : Time) (capacities : gmap string f64) (st : State)
    (name : string) :
  let st' := updateBatteryChargeFull store now capacities st in
  BatteryChargePaused st' name =
    match capacities !! name with
    | Some _ => chargeFullAfter st store now name (BatteryChargePaused st name)
    | None => false
    end /\
  forall targets t', t' ∈ floorFullBatteryCharge st' targets ->
    (BatteryChargePaused st' (tDriver t') = true -> flt (of_Z 0) (TargetW t') = false) /\
    (BatteryChargePaused st' (tDriver t') = false -> t' ∈ targets).
Proof.
  cbv zeta. split.
  - unfold BatteryChargePaused at 1, updateBatteryChargeFull. cbn.
    destruct (capacities !! name) as [c|] eqn:E.
    + rewrite (fold_chargeFull _ _ _ _ _ (keys_NoDup _)) by (apply keys_spec; eauto). f_equal.
      unfold BatteryChargePaused. apply bool_decide_ext. rewrite elem_of_filter. naive_solver.
    + apply bool_decide_eq_false. rewrite fold_chargeFull_other.
      * rewrite elem_of_filter, E. intros [[? X] _]. discriminate.
      * rewrite keys_spec, E. intros [? X]. discriminate.
  - intros targets t' I. unfold floorFullBatteryCharge in I. apply list_elem_of_fmap in I as (t & -> & I).
    unfold floorFull. destruct (flt (of_Z 0) (TargetW t)) eqn:P; cbn [andb].
    + destruct (BatteryChargePaused _ (tDriver t)) eqn:B; cbn; [|now rewrite B].
      split; [intros _; vm_compute; reflexivity|]. now rewrite B.
    + auto.
Qed.

End Lemmas.

(** ** Witnesses *)
Definition offlineState : State :=
  mkState demoSite demoHour noEVLimit noFuseHold (mkShare (of_Z 0) false false)
    (mkReliefLog {["b"%string := of_Z 900]} ∅) noResponse (mkSentLog ∅ ∅ None ∅ []) ∅ noHeat.

