(* ===== verification/FuseRelief.v ===== *)
(** * Fuse relief from the batteries (go/internal/control/dispatch.go)

    The import-side relief one decision needs, and how it is taken from the
    batteries' targets without crossing their bounds; the fuse-saver that acts
    on a tick the control law leaves early. *)
From Stdlib Require Import ZArith Lia.
From S2P Require Import Prelude Float64 GoTime Json Kalman Health Telemetry Limits CommandLog Site.
From S2P Require Import ImportHour PhaseFuse FuseHeat ControlState.
From stdpp Require Import base gmap strings list sorting.
#[local] Open Scope Z_scope.

(** ** Bounds of one battery's command *)
Definition fuseTargetBounds (r : DerReading) (lim : PowerLimits) : f64 * f64 :=
  let lower := fneg (dischargeCap lim) in
  let upper := chargeCap lim in
  let '(dischargeBlocked, chargeBlocked) := batteryDirectionBlocks (Data r) in
  let lower :=
    match SoC r with
    | None => of_Z 0
    | Some soc => if fle soc (socFloor lim) || dischargeBlocked then of_Z 0 else lower
    end in
  let upper :=
    if chargeBlocked || match SoC r with Some soc => fle (socCeiling lim) soc | None => false end
    then of_Z 0 else upper in
  (lower, upper).

(** The lowest target that keeps a battery above the boost reserve until the
    next tick, [-Inf] without a reserve. *)
Definition boostReserveLowerW (r : option DerReading) (capacity : f64) (s : Site) : f64 :=
  if fle (BatteryBoostReserveSoC s) (of_Z 0) then Inf true
  else
    match r with
    | None => of_Z 0
    | Some r =>
        match SoC r with
        | None => of_Z 0
        | Some soc =>
            if fle capacity (of_Z 0) || fle soc (BatteryBoostReserveSoC s) then of_Z 0
            else
              let dtS := of_Z (MinDispatchIntervalS s) in
              let dtS := if fle dtS (of_Z 0) then of_Z 5 else dtS in
              let headroomWh := fmul (fsub soc (BatteryBoostReserveSoC s)) capacity in
              fdiv (fmul (fmul (fneg headroomWh) (lit 9 10)) (of_Z 3600)) dtS
        end
    end.

(** ** Predicting the grid *)
Definition currentBattery (targets : list DispatchTarget) (readings : gmap string DerReading) : f64 :=
  fst (fold_left (fun '(w, seen) t =>
      if bool_decide (tDriver t ∈ (seen : gset string)) then (w, seen)
      else (match readings !! tDriver t with Some r => fadd w (SmoothedW r) | None => w end,
            {[tDriver t]} ∪ seen)) targets (of_Z 0, ∅)).

(** [(currentBat, sumTarget, predicted)]. *)
Definition predictedGridFromSnapshot (targets : list DispatchTarget) (readings : gmap string DerReading)
    (meter : option DerReading) : f64 * f64 * f64 :=
  let currentBat := currentBattery targets readings in
  let sumTarget := sumTargets targets in
  let currentGrid := match meter with Some m => SmoothedW m | None => of_Z 0 end in
  (currentBat, sumTarget, fadd (fsub currentGrid currentBat) sumTarget).

Definition predictedGrid (targets : list DispatchTarget) (readings : gmap string DerReading)
    (meter : option DerReading) : f64 := snd (predictedGridFromSnapshot targets readings meter).

(** ** Allocation *)
Definition roomAbove (t : DispatchTarget) (lower : f64) : f64 := fsub (TargetW t) lower.

Definition takeShare (allocate total : f64) (t : DispatchTarget) (lower : f64) : DispatchTarget :=
  let room := roomAbove t lower in
  if fle room (of_Z 0) then t
  else setW (fsub (TargetW t) (fmul allocate (fdiv room total))) t.

Definition totalHeadroom (targets : list DispatchTarget) (lowers : list f64) : f64 :=
  fold_left (fun acc '(t, lower) =>
      let room := roomAbove t lower in if flt (of_Z 0) room then fadd acc room else acc)
    (zip targets lowers) (of_Z 0).

Definition allocateFuseRelief (targets : list DispatchTarget) (reliefW : f64) (lowers : list f64)
  : list DispatchTarget :=
  if fle reliefW (of_Z 0) then targets
  else
    let total := totalHeadroom targets lowers in
    if fle total (of_Z 0) then targets
    else zip_with (takeShare (fmin reliefW total) total) targets lowers.

(** ** Sorting: [sort.Slice] on distinct keys, [sort.SliceStable] *)
Section Sort.
Context {A : Type} (less : A -> A -> bool).
Fixpoint insertSorted (x : A) (l : list A) : list A :=
  match l with
  | [] => [x]
  | y :: l' => if less y x then y :: insertSorted x l' else x :: l
  end.
Definition sortSlice (l : list A) : list A := fold_right insertSorted [] l.
End Sort.

Definition stringLess (a b : string) : bool := String.ltb a b.
Definition targetLess (a b : DispatchTarget) : bool := stringLess (tDriver a) (tDriver b).

(** ** The safe baseline an early relief starts from *)
Record candidate : Type := mkCandidate { cTarget : DispatchTarget; cRelief : f64; cHeadroom : f64 }.
Definition candidateLess (a b : candidate) : bool :=
  if feq (cRelief a) (cRelief b) then stringLess (tDriver (cTarget a)) (tDriver (cTarget b))
  else flt (cRelief a) (cRelief b).

Definition epsilon : f64 := lit 1 1000000000.
Definition maxExactCandidates : nat := 12.
Definition maxFrontierStates : Z := 512.

(** Relief and headroom of the candidates a mask selects. *)
Definition maskSums (cs : list candidate) (mask : Z) : f64 * f64 :=
  fold_left (fun '(r, h) '(i, c) =>
      if Z.testbit mask (Z.of_nat i) then (fadd r (cRelief c), fadd h (cHeadroom c)) else (r, h))
    (zip (seq 0 (length cs)) cs) (of_Z 0, of_Z 0).

Record maskSearch : Type := mkSearch {
  bestCoverRelief : f64; bestCover : Z;
  bestPartialDelivered : f64; bestPartialRelief : f64; bestPartial : Z
}.

Definition near9 (a b : f64) : bool := fle (fabs (fsub a b)) epsilon.

Definition searchStep (cs : list candidate) (baseHeadroom goal maxRelief : f64) (b : maskSearch) (mask : Z)
  : maskSearch :=
  let '(relief, headroom) := maskSums cs mask in
  if flt (fadd maxRelief epsilon) relief then b
  else
    let delivered := fadd (fadd relief baseHeadroom) headroom in
    let delivered := if flt maxRelief delivered then maxRelief else delivered in
    if fle goal (fadd delivered epsilon) then
      if flt relief (fsub (bestCoverRelief b) epsilon) ||
         (near9 relief (bestCoverRelief b) && (mask <? bestCover b))
      then mkSearch relief mask (bestPartialDelivered b) (bestPartialRelief b) (bestPartial b)
      else b
    else if flt (fadd (bestPartialDelivered b) epsilon) delivered ||
            (near9 delivered (bestPartialDelivered b) &&
             (flt relief (fsub (bestPartialRelief b) epsilon) ||
              (near9 relief (bestPartialRelief b) && (mask <? bestPartial b))))
    then mkSearch (bestCoverRelief b) (bestCover b) delivered relief mask
    else b.

Definition exactSelection (cs : list candidate) (baseHeadroom requiredRelief maxRelief : f64) : Z :=
  let b := fold_left (searchStep cs baseHeadroom (fmin requiredRelief maxRelief) maxRelief)
             (seqZ 0 (2 ^ Z.of_nat (length cs))) (mkSearch (Inf false) 0 (of_Z (-1)) (Inf false) 0) in
  match bestCoverRelief b with Inf false => bestPartial b | _ => bestCover b end.

(** The bounded frontier for larger fleets; [sel] lists the chosen candidates,
    the last one first. *)
Record selectionState : Type := mkSelection { sRelief : f64; sDelivered : f64; sel : list nat }.
Definition selectionLess (a b : selectionState) : bool :=
  if feq (sRelief a) (sRelief b) then flt (sDelivered b) (sDelivered a) else flt (sRelief a) (sRelief b).

Definition extendSelection (maxRelief : f64) (i : nat) (c : candidate) (x : selectionState)
  : list selectionState :=
  let relief := fadd (sRelief x) (cRelief c) in
  if flt (fadd maxRelief epsilon) relief then []
  else
    let delivered := fadd (fadd (sDelivered x) (cRelief c)) (cHeadroom c) in
    [mkSelection relief (if flt maxRelief delivered then maxRelief else delivered) (i :: sel x)].

Definition pruneStep (acc : list selectionState * f64) (x : selectionState) : list selectionState * f64 :=
  let '(kept, best) := acc in
  if fle (sDelivered x) (fadd best epsilon) then acc else (kept ++ [x], sDelivered x).

Definition boundFrontier (l : list selectionState) : list selectionState :=
  if maxFrontierStates <? Z.of_nat (length l)
  then (fun j => nth (Z.to_nat (j * (Z.of_nat (length l) - 1) / (maxFrontierStates - 1))) l
                   (mkSelection NaN NaN [])) <$> seqZ 0 maxFrontierStates
  else l.

Definition frontierStep (maxRelief : f64) (frontier : list selectionState) (x : nat * candidate)
  : list selectionState :=
  let '(i, c) := x in
  let next := frontier ++ (frontier ≫= extendSelection maxRelief i c) in
  boundFrontier (fst (fold_left pruneStep (sortSlice selectionLess next) ([], of_Z (-1)))).

Definition frontierSelection (cs : list candidate) (baseHeadroom requiredRelief maxRelief : f64) : list nat :=
  let goal := fmin requiredRelief maxRelief in
  let frontier := fold_left (frontierStep maxRelief) (zip (seq 0 (length cs)) cs)
                    [mkSelection (of_Z 0) (fmin baseHeadroom maxRelief) []] in
  match list_find (fun x => fle goal (fadd (sDelivered x) epsilon) = true) frontier with
  | Some (_, x) => sel x
  | None => match last frontier with Some x => sel x | None => [] end
  end.

Section Relief.
Context `{MapIter}.
(** The local zone's UTC offset, for the import hour. *)
Variable zone : Time -> Duration.

Definition effImportW (st : State) (now : Time) (fuseMaxW : f64) : f64 :=
  effectiveImportCeilingW zone (site st) now (importHour st) fuseMaxW.
Definition effExportW (st : State) (fuseMaxW : f64) : f64 := effectiveExportCeilingW (site st) fuseMaxW.

Definition pendingEVCutW (st : State) (now : Time) : f64 :=
  let lim := evLimit st in
  if IsZero (overSince lim) || (evSettle <=? Sub now (overSince lim)) then of_Z 0
  else
    fold_left (fun cutW '(driver, startW) =>
        match evCommanded (site st) !! driver with
        | Some nowW => fadd cutW (fmax (of_Z 0) (fsub startW (fmax (of_Z 0) nowW)))
        | None => cutW
        end) (map_iter (overOffers lim)) (of_Z 0).

(** The phases' relief, and the state whose references it moved. *)
Definition phaseRelief (st : State) (p : phaseSample) (targets : list DispatchTarget)
    (readings : gmap string DerReading) : f64 * f64 * State :=
  let '(importW, exportW, ref) :=
    phaseReliefForTargets p (site st) (batteryCommands (sentTo st)) (LastDispatch (sentTo st)) targets
      readings (phaseResp st) in
  (importW, exportW, withResponse ref st).

Definition fuseReliefPartsFromSnapshot (targets : list DispatchTarget) (readings : gmap string DerReading)
    (meter : option DerReading) (p : phaseSample) (st : State) (now : Time) (fuseMaxW : f64)
  : f64 * f64 * State :=
  if fle fuseMaxW (of_Z 0) || (length targets =? 0)%nat then (of_Z 0, of_Z 0, st)
  else
    let predicted := predictedGrid targets readings meter in
    let fuseW := fmax (of_Z 0) (fsub fuseMaxW (fuseSafetyMarginW (site st))) in
    let overage := fsub predicted fuseW in
    let ceiling := effImportW st now fuseMaxW in
    let limitOverage :=
      if flt ceiling fuseW then fsub (fsub predicted ceiling) (pendingEVCutW st now) else Inf true in
    let '(phaseW, _, st) := phaseRelief st p targets readings in
    let overage := if flt overage phaseW then phaseW else overage in
    if flt overage limitOverage
    then (limitOverage, fmax (of_Z 0) (fsub limitOverage (fmax (of_Z 0) overage)), st)
    else (overage, of_Z 0, st).

Definition fuseReliefFromSnapshot (targets : list DispatchTarget) (readings : gmap string DerReading)
    (meter : option DerReading) (p : phaseSample) (st : State) (now : Time) (fuseMaxW : f64) : f64 * State :=
  let '(overage, _, st) := fuseReliefPartsFromSnapshot targets readings meter p st now fuseMaxW in
  (overage, st).

(** One target's lowest command for the fuse, and for the hour's limit. *)
Definition reliefLowers (st : State) (readings : gmap string DerReading) (capacities : gmap string f64)
    (t : DispatchTarget) : f64 * f64 :=
  match capacities !! tDriver t, readings !! tDriver t with
  | Some cap, Some r =>
      if fle cap (of_Z 0) then (Inf false, Inf false)
      else
        let lower := fst (fuseTargetBounds r (limitsOf (DriverLimits (site st)) (tDriver t))) in
        (lower, fmax lower (boostReserveLowerW (Some r) cap (site st)))
  | _, _ => (Inf false, Inf false)
  end.

Definition forceFuseDischargeWithSnapshot (targets : list DispatchTarget)
    (readings : gmap string DerReading) (meter : option DerReading) (p : phaseSample) (st : State)
    (now : Time) (capacities : gmap string f64) (fuseMaxW : f64) : list DispatchTarget * State :=
  if fle fuseMaxW (of_Z 0) || (length targets =? 0)%nat then (targets, st)
  else
    let '(overage, limitOnlyW, st) :=
      fuseReliefPartsFromSnapshot targets readings meter p st now fuseMaxW in
    if fle overage (of_Z 0) then (targets, st)
    else
      let exportRoom := fadd (predictedGrid targets readings meter) (effExportW st fuseMaxW) in
      if fle exportRoom (of_Z 0) then (targets, st)
      else
        let overage := if flt exportRoom overage then exportRoom else overage in
        let lowers := fst ∘ reliefLowers st readings capacities <$> targets in
        let limitLowers := snd ∘ reliefLowers st readings capacities <$> targets in
        let fusePartW := fmax (of_Z 0) (fsub overage limitOnlyW) in
        let out := allocateFuseRelief targets (fsub overage fusePartW) limitLowers in
        (allocateFuseRelief out fusePartW lowers, st).

Definition forceFuseDischarge (targets : list DispatchTarget) (store : Store) (st : State) (now : Time)
    (capacities : gmap string f64) (fuseMaxW : f64) : list DispatchTarget * State :=
  let readings := captureReadings store targets in
  let meter := Get (SiteMeterDriver (site st)) DerMeter store in
  forceFuseDischargeWithSnapshot targets readings meter
    (livePhaseSample store (SiteMeterDriver (site st)) meter) st now capacities fuseMaxW.

(** ** The early path: the fuse-saver from live power *)
Record liveFleet : Type := mkFleet {
  fRaw : list DispatchTarget; fSafe : list DispatchTarget; fReadings : gmap string DerReading
}.

Definition liveStep (store : Store) (limits : gmap string PowerLimits) (f : liveFleet) (name : string)
  : liveFleet :=
  match GetHealth name store, Get name DerBattery store with
  | Some h, Some r =>
      if negb (IsOnline h) then f
      else
        let raw := mkTarget name (SmoothedW r) false in
        let '(lower, upper) := fuseTargetBounds r (limitsOf limits name) in
        let safe :=
          if flt (TargetW raw) lower then []
          else [if flt upper (TargetW raw) then setW upper raw else raw] in
        mkFleet (fRaw f ++ [raw]) (fSafe f ++ safe) (<[name := r]> (fReadings f))
  | _, _ => f
  end.

Definition fleetAtLivePower (store : Store) (capacities : gmap string f64)
    (limits : gmap string PowerLimits) : liveFleet :=
  fold_left (liveStep store limits) (keys capacities) (mkFleet [] [] ∅).

Definition byDriver (ts : list DispatchTarget) : gmap string DispatchTarget :=
  fold_left (fun m t => <[tDriver t := t]> m) ts ∅.

Definition boundsCurrent (st : State) (fresh : gmap string DerReading) (t : DispatchTarget) : bool :=
  match fresh !! tDriver t with
  | None => false
  | Some r =>
      let '(lower, upper) := fuseTargetBounds r (limitsOf (DriverLimits (site st)) (tDriver t)) in
      negb (flt (TargetW t) lower || flt upper (TargetW t))
  end.

Definition sampleCurrent (store : Store) (x : string * DerReading) : bool :=
  let '(driver, captured) := x in
  match Get driver DerBattery store, GetHealth driver store with
  | Some r, Some h => IsOnline h && Equal (UpdatedAt r) (UpdatedAt captured)
  | _, _ => false
  end.

Definition fuseSnapshotStillCurrent (store : Store) (st : State) (meterUpdatedAt : Time)
    (readings : gmap string DerReading) (targets : list DispatchTarget) : bool :=
  if IsZero meterUpdatedAt then false
  else
    match Get (SiteMeterDriver (site st)) DerMeter store with
    | None => false
    | Some meter =>
        if negb (Equal (UpdatedAt meter) meterUpdatedAt) then false
        else if negb (forallb (sampleCurrent store) (map_iter readings)) then false
        else
          let fresh := map_imap (fun driver _ => Get driver DerBattery store) readings in
          forallb (boundsCurrent st fresh) targets
    end.

(** The safe targets split into the uncontrolled baseline, its headroom, and
    the discrete cap candidates. *)
Definition baselineStep (rawBy : gmap string DispatchTarget) (readings : gmap string DerReading)
    (limits : gmap string PowerLimits) (capacities : gmap string f64)
    (acc : list DispatchTarget * f64 * list candidate) (t : DispatchTarget)
  : list DispatchTarget * f64 * list candidate :=
  let '(baseline, baseHeadroom, cs) := acc in
  match rawBy !! tDriver t with
  | None => acc
  | Some raw =>
      let headroom :=
        if flt (of_Z 0) (atZero capacities (tDriver t)) then
          match readings !! tDriver t with
          | Some r =>
              let h := fsub (TargetW t) (fst (fuseTargetBounds r (limitsOf limits (tDriver t)))) in
              if flt h (of_Z 0) then of_Z 0 else h
          | None => of_Z 0
          end
        else of_Z 0 in
      let relief := fsub (TargetW raw) (TargetW t) in
      if fle relief (of_Z 0) then (baseline ++ [t], fadd baseHeadroom headroom, cs)
      else (baseline, baseHeadroom, cs ++ [mkCandidate t relief headroom])
  end.

Definition fuseSafeBaselineForRelief (raw safe : list DispatchTarget) (readings : gmap string DerReading)
    (limits : gmap string PowerLimits) (capacities : gmap string f64) (requiredRelief maxRelief : f64)
  : list DispatchTarget :=
  let '(baseline, baseHeadroom, cs) :=
    fold_left (baselineStep (byDriver raw) readings limits capacities) safe ([], of_Z 0, []) in
  let baseline := sortSlice targetLess baseline in
  let cs := sortSlice candidateLess cs in
  let chosen :=
    if (length cs <=? maxExactCandidates)%nat then
      let mask := exactSelection cs baseHeadroom requiredRelief maxRelief in
      omap (fun '(i, c) => if Z.testbit mask (Z.of_nat i) then Some (cTarget c) else None)
        (zip (seq 0 (length cs)) cs)
    else omap (fun i => cTarget <$> cs !! i) (frontierSelection cs baseHeadroom requiredRelief maxRelief) in
  sortSlice targetLess (baseline ++ chosen).

(** The first target that differs from its live power. *)
Definition changedFrom (rawBy : gmap string DispatchTarget) (t : DispatchTarget) : bool :=
  match rawBy !! tDriver t with
  | None => true
  | Some raw => fne (TargetW t) (TargetW raw) || negb (Bool.eqb (Clamped t) (Clamped raw))
  end.

(** [([], [])] is the nil result: no command. *)
Definition fuseSaverAtLivePower (store : Store) (st : State) (now : Time) (capacities : gmap string f64)
    (fuseMaxW : f64) : option (list DispatchTarget * list DispatchTarget) * State :=
  if fle fuseMaxW (of_Z 0) || (size capacities =? 0)%nat then (None, st)
  else
    match Get (SiteMeterDriver (site st)) DerMeter store with
    | None => (None, st)
    | Some meter =>
        let limits := DriverLimits (site st) in
        let f := fleetAtLivePower store capacities limits in
        if (length (fRaw f) =? 0)%nat then (None, st)
        else
          let p := livePhaseSample store (SiteMeterDriver (site st)) (Some meter) in
          let '(required, st) := fuseReliefFromSnapshot (fRaw f) (fReadings f) (Some meter) p st now fuseMaxW in
          if fle required (of_Z 0) then (None, st)
          else
            let maxRelief :=
              fadd (predictedGrid (fRaw f) (fReadings f) (Some meter)) (effExportW st fuseMaxW) in
            let safe :=
              fuseSafeBaselineForRelief (fRaw f) (fSafe f) (fReadings f) limits capacities required maxRelief in
            if (length safe =? 0)%nat then (None, st)
            else
              let '(out, st) :=
                forceFuseDischargeWithSnapshot safe (fReadings f) (Some meter) p st now capacities fuseMaxW in
              if existsb (changedFrom (byDriver (fRaw f))) out &&
                 fuseSnapshotStillCurrent store st (UpdatedAt meter) (fReadings f) out
              then (Some (out, fRaw f), st)
              else (None, st)
    end.

Definition fuseSaverFromLivePower (store : Store) (st : State) (now : Time) (capacities : gmap string f64)
    (fuseMaxW : f64) : option (list DispatchTarget) * State :=
  let '(r, st) := fuseSaverAtLivePower store st now capacities fuseMaxW in (fst <$> r, st).

(** An empty result is Go's nil: the last commands stand. *)
Definition fuseSaverEarlyExit (store : Store) (st : State) (now : Time) (capacities : gmap string f64)
    (fuseMaxW : f64) : list DispatchTarget * State :=
  let '(r, st) := fuseSaverAtLivePower store st now capacities fuseMaxW in
  let '(out, rawLive) := match r with Some x => x | None => ([], []) end in
  let '(out', st) := stopFullBatteries out store capacities st in
  if (length out' =? 0)%nat then ([], st)
  else
    let st := recordFuseRelief rawLive out' st in
    let l := sentTo st in
    (out', withSent (mkSentLog (batteryCommands l) (batteryReadings l) (Some now) (PrevTargets l) out') st).
End Relief.

(** ** Lemmas: relief only lowers *)
Definition maxW : Z := 2147483648.
Definition roomB : Z := 4294967296.

(** A lower bound a relief can work with: a number, not below [- 2^31] W. *)
Definition lower_ok (lower : f64) : Prop := le_rel (of_Z (- maxW)) lower.
Definition target_ok (b : Z) (t : DispatchTarget) : Prop :=
  wf (TargetW t) /\ within b (TargetW t) /\ le_rel (TargetW t) (of_Z maxW).

Lemma room_bound b t lower :
  0 <= b <= 2 ^ 52 -> target_ok b t -> lower_ok lower ->
  rank (roomAbove t lower) <> 2 /\ le_rel (roomAbove t lower) (of_Z roomB).
Proof.
  intros Hb (W & B & U) L. pose proof (within_rank b _ ltac:(lia) B) as R. unfold roomAbove.
  assert (N : rank (fsub (TargetW t) lower) <> 2).
  { apply fsub_fin_nn; [now apply finite_nn|exact (le_rel_nn_r _ _ L)|now left]. }
  split; [exact N|]. replace roomB with (maxW + maxW) by reflexivity.
  rewrite <- of_Z_add by (unfold maxW; lia).
  replace (of_Z maxW) with (fneg (of_Z (- maxW))) at 2
    by (rewrite of_Z_opp by (unfold maxW; lia); f_equal; lia).
  apply fadd_mono; [exact U|now apply fneg_anti|exact N|].
  rewrite of_Z_opp, of_Z_add by (unfold maxW; lia). apply of_Z_nn. unfold maxW. lia.
Qed.

Definition addRoom (acc : f64) (x : DispatchTarget * f64) : f64 :=
  let '(t, lower) := x in
  let room := roomAbove t lower in if flt (of_Z 0) room then fadd acc room else acc.

Lemma totalHeadroom_fold targets lowers :
  totalHeadroom targets lowers = fold_left addRoom (zip targets lowers) (of_Z 0).
Proof. reflexivity. Qed.

Lemma fold_wf l : forall acc, wf acc -> wf (fold_left addRoom l acc).
Proof.
  induction l as [|[t w] l IH]; intros acc W; [exact W|]. cbn [fold_left]. apply IH. unfold addRoom.
  cbv zeta. destruct (flt _ _); [apply fadd_wf|exact W].
Qed.

Definition slot_ok (b : Z) (x : DispatchTarget * f64) : Prop := target_ok b (fst x) /\ lower_ok (snd x).

Lemma addRoom_step b k acc x :
  0 <= b <= 2 ^ 52 -> slot_ok b x -> 0 <= k -> (k + 1) * roomB <= 2 ^ 51 ->
  wf acc -> le_rel (of_Z 0) acc -> within (k * roomB) acc ->
  let acc' := addRoom acc x in
  wf acc' /\ le_rel acc acc' /\ within ((k + 1) * roomB) acc' /\
  (flt (of_Z 0) (roomAbove (fst x) (snd x)) = true -> le_rel (roomAbove (fst x) (snd x)) acc').
Proof.
  destruct x as [t lower]. intros Hb [Ht Hl] Hk Hs Wa H0 Ha. cbn [fst snd] in *. cbv zeta. unfold addRoom.
  destruct (room_bound b t lower Hb Ht Hl) as [N U]. pose proof (fsub_wf (TargetW t) lower) as Wr.
  fold (roomAbove t lower) in Wr. set (room := roomAbove t lower) in *. clearbody room.
  unfold roomB in *. destruct (flt (of_Z 0) room) eqn:E.
  - pose proof (flt_le _ _ E) as P.
    assert (Wi : within 4294967296 room).
    { split; [|exact U]. apply (le_rel_trans _ (of_Z 0)); [apply of_Z_mono; lia|exact P]. }
    assert (W' : within ((k + 1) * 4294967296) (fadd acc room)).
    { replace ((k + 1) * 4294967296) with (k * 4294967296 + 4294967296) by lia. apply within_fadd; auto; lia. }
    pose proof (finite_nn _ (within_rank ((k + 1) * 4294967296) _ ltac:(lia) W')) as N'.
    split_and!; [apply fadd_wf| |exact W'|intros _].
    + apply fadd_of_ge; auto. exact (le_rel_nn_r _ _ H0).
    + rewrite fadd_comm in N' |- *. apply fadd_of_ge; auto.
  - split_and!; [exact Wa|apply le_rel_refl, (le_rel_nn_r _ _ H0)| |discriminate].
    apply (within_mono (k * 4294967296)); [lia|lia|exact Ha].
Qed.

Lemma headroom_fold b l :
  0 <= b <= 2 ^ 52 -> Forall (slot_ok b) l ->
  forall acc k, 0 <= k -> (k + Z.of_nat (length l)) * roomB <= 2 ^ 51 ->
  wf acc -> le_rel (of_Z 0) acc -> within (k * roomB) acc ->
  let total := fold_left addRoom l acc in
  le_rel acc total /\ within ((k + Z.of_nat (length l)) * roomB) total /\
  Forall (fun x => flt (of_Z 0) (roomAbove (fst x) (snd x)) = true ->
                   le_rel (roomAbove (fst x) (snd x)) total) l.
Proof.
  intros Hb F. induction F as [|x l Hx _ IH]; intros acc k Hk Hsum Wa H0 Hacc; cbv zeta.
  - cbn [fold_left length]. rewrite Z.add_0_r. split_and!; [|exact Hacc|constructor].
    apply le_rel_refl. exact (le_rel_nn_r _ _ H0).
  - cbn [fold_left]. rewrite length_cons, Nat2Z.inj_succ in *.
    destruct (addRoom_step b k acc x Hb Hx Hk) as (W1 & L1 & B1 & R1); auto.
    { unfold roomB in *. lia. }
    destruct (IH (addRoom acc x) (k + 1)) as (L2 & B2 & F2); auto.
    { lia. }
    { replace (k + 1 + Z.of_nat (length l)) with (k + Z.succ (Z.of_nat (length l))) by lia. exact Hsum. }
    { exact (le_rel_trans _ _ _ H0 L1). }
    split_and!; [exact (le_rel_trans _ _ _ L1 L2)| |].
    + replace (k + Z.succ (Z.of_nat (length l))) with (k + 1 + Z.of_nat (length l)) by lia. exact B2.
    + constructor; [|exact F2]. intros P. exact (le_rel_trans _ _ _ (R1 P) L2).
Qed.

(** What relief does to one target: the same battery, never a higher command,
    and no change where there is no room. *)
Definition lowered (t t' : DispatchTarget) : Prop :=
  tDriver t' = tDriver t /\ le_rel (TargetW t') (TargetW t).

(** The part of a share one target gives up lies between nothing and the
    whole share. *)
Lemma share_bounds alloc total room :
  wf alloc -> le_rel (of_Z 0) alloc -> le_rel alloc total -> rank total = 0 ->
  flt (of_Z 0) total = true -> flt (of_Z 0) room = true -> le_rel room total ->
  le_rel (of_Z 0) (fmul alloc (fdiv room total)) /\ le_rel (fmul alloc (fdiv room total)) alloc.
Proof.
  intros W A0 At Rt Pt Pr Lr. pose proof (flt_le _ _ Pr) as R0.
  destruct (fdiv_ratio room total (rank_between _ _ R0 Lr Rt) R0 Lr Pt) as (_ & Q0 & Q1).
  exact (proj1 (proj2 (fmul_ratio alloc _ W (rank_between _ _ A0 At Rt) Q0 Q1)) A0).
Qed.

Lemma target_lowered b t m : 0 <= b <= 2 ^ 52 -> target_ok b t -> le_rel (of_Z 0) m -> le_rel m (of_Z (2 ^ 51)) ->
  lowered t (setW (fsub (TargetW t) m) t) /\ target_ok (b + 2 ^ 51) (setW (fsub (TargetW t) m) t).
Proof.
  intros Hb (W & B & U) M0 M1.
  assert (Wm : within (2 ^ 51) m).
  { split; [|exact M1]. apply (le_rel_trans _ (of_Z 0)); [apply of_Z_mono; lia|exact M0]. }
  pose proof (within_fsub b (2 ^ 51) (TargetW t) m ltac:(lia) ltac:(lia) ltac:(lia) B Wm) as B'.
  assert (L : le_rel (fsub (TargetW t) m) (TargetW t)).
  { rewrite of_Z_0 in M0. apply fsub_le; [exact W|exact M0| |].
    - exact (finite_nn _ (within_rank b _ ltac:(lia) B)).
    - exact (finite_nn _ (within_rank (b + 2 ^ 51) _ ltac:(lia) B')). }
  split; [split; [reflexivity|exact L]|].
  split; [apply fsub_wf|split; [exact B'|exact (le_rel_trans _ _ _ L U)]].
Qed.

Lemma takeShare_lowered b alloc total t lower :
  0 <= b <= 2 ^ 52 -> slot_ok b (t, lower) ->
  wf alloc -> le_rel (of_Z 0) alloc -> le_rel alloc total -> within (2 ^ 51) total -> flt (of_Z 0) total = true ->
  (flt (of_Z 0) (roomAbove t lower) = true -> le_rel (roomAbove t lower) total) ->
  lowered t (takeShare alloc total t lower) /\ target_ok (b + 2 ^ 51) (takeShare alloc total t lower).
Proof.
  intros Hb [Ht Hl] Wa A0 At Wt Pt Hr. cbn [fst snd] in *. pose proof Ht as (W & B & U).
  unfold takeShare. cbv zeta.
  destruct (room_bound b t lower Hb Ht Hl) as [N _]. set (room := roomAbove t lower) in *. clearbody room.
  destruct (fle room (of_Z 0)) eqn:E.
  - pose proof (within_rank b _ ltac:(lia) B) as R. split; [split; [reflexivity|now apply le_rel_refl, finite_nn]|].
    split; [exact W|split; [|exact U]]. apply (within_mono b); [lia|lia|exact B].
  - pose proof (fle_false_flt _ _ E N (of_Z_nn 0 ltac:(lia))) as P.
    destruct (share_bounds alloc total room Wa A0 At (within_rank (2 ^ 51) _ ltac:(lia) Wt) Pt P (Hr P)) as [M0 M1].
    apply target_lowered; [exact Hb|exact Ht|exact M0|].
    exact (le_rel_trans _ _ _ M1 (le_rel_trans _ _ _ At (proj2 Wt))).
Qed.

Lemma lowered_refl b t : 0 <= b <= 2 ^ 53 -> target_ok b t -> lowered t t.
Proof. intros Hb (_ & B & _). split; [reflexivity|]. exact (le_rel_refl _ (finite_nn _ (within_rank b _ Hb B))). Qed.
Lemma lowered_trans t t1 t2 : lowered t t1 -> lowered t1 t2 -> lowered t t2.
Proof. intros [D1 L1] [D2 L2]. split; [congruence|exact (le_rel_trans _ _ _ L2 L1)]. Qed.
Lemma target_ok_mono b b' t : 0 <= b <= b' -> b' <= 2 ^ 53 -> target_ok b t -> target_ok b' t.
Proof. intros H1 H2 (W & B & U). split; [exact W|split; [exact (within_mono b b' _ H1 H2 B)|exact U]]. Qed.

Lemma slots_of b targets lowers :
  Forall (target_ok b) targets -> Forall lower_ok lowers -> Forall (slot_ok b) (zip targets lowers).
Proof.
  intros Ft. revert lowers. induction Ft as [|t l Ht _ IH]; intros lowers Fl; [constructor|].
  destruct Fl as [|w ws Hw Fl]; [constructor|]. constructor; [now split|now apply IH].
Qed.

Lemma zip_takeShare alloc total b targets lowers :
  0 <= b <= 2 ^ 52 -> length lowers = length targets ->
  Forall (slot_ok b) (zip targets lowers) ->
  wf alloc -> le_rel (of_Z 0) alloc -> le_rel alloc total -> within (2 ^ 51) total -> flt (of_Z 0) total = true ->
  Forall (fun x => flt (of_Z 0) (roomAbove (fst x) (snd x)) = true ->
                   le_rel (roomAbove (fst x) (snd x)) total) (zip targets lowers) ->
  Forall2 lowered targets (zip_with (takeShare alloc total) targets lowers) /\
  Forall (target_ok (b + 2 ^ 51)) (zip_with (takeShare alloc total) targets lowers).
Proof.
  intros Hb Hl Fs Wa A0 At Wt Pt. revert lowers Hl Fs. induction targets as [|t l IH]; intros [|w ws] Hl Fs Fr;
    try discriminate; [split; constructor|]. cbn [zip_with] in *.
  inversion_clear Fs as [|? ? Hs Fs']. inversion_clear Fr as [|? ? Hr Fr'].
  destruct (takeShare_lowered b alloc total t w Hb Hs Wa A0 At Wt Pt Hr) as [L K].
  destruct (IH ws (eq_add_S _ _ Hl) Fs' Fr') as [F1 F2]. split; constructor; assumption.
Qed.

Lemma targets_unchanged b targets : 0 <= b <= 2 ^ 52 -> Forall (target_ok b) targets ->
  Forall2 lowered targets targets /\ Forall (target_ok (b + 2 ^ 51)) targets.
Proof.
  intros Hb Ft. split.
  - apply Forall_Forall2_diag. apply (Forall_impl _ _ _ Ft). intros t. apply lowered_refl. lia.
  - apply (Forall_impl _ _ _ Ft). intros t. apply target_ok_mono; lia.
Qed.

(** One relief over a fleet of at most 2^19 batteries. *)
Lemma allocate_lowered b targets reliefW lowers :
  0 <= b <= 2 ^ 52 -> Z.of_nat (length targets) * roomB <= 2 ^ 51 ->
  wf reliefW -> rank reliefW <> 2 ->
  length lowers = length targets ->
  Forall (target_ok b) targets -> Forall lower_ok lowers ->
  Forall2 lowered targets (allocateFuseRelief targets reliefW lowers) /\
  Forall (target_ok (b + 2 ^ 51)) (allocateFuseRelief targets reliefW lowers).
Proof.
  intros Hb Hn Ww Nw Hl Ft Fl. pose proof (targets_unchanged b targets Hb Ft) as Id.
  unfold allocateFuseRelief. destruct (fle reliefW (of_Z 0)) eqn:E; [exact Id|]. cbv zeta.
  rewrite totalHeadroom_fold. pose proof (slots_of b _ _ Ft Fl) as Fs.
  assert (Hz : length (zip targets lowers) = length targets) by (rewrite length_zip_with; lia).
  destruct (headroom_fold b (zip targets lowers) Hb Fs (of_Z 0) 0) as (L & B & R).
  { lia. }
  { rewrite Hz. lia. }
  { apply of_Z_wf. }
  { apply le_rel_refl, of_Z_nn. lia. }
  { apply within_0. unfold roomB. lia. }
  pose proof (fold_wf (zip targets lowers) (of_Z 0) (of_Z_wf 0)) as Wtot.
  set (total := fold_left addRoom (zip targets lowers) (of_Z 0)) in *. clearbody total.
  destruct (fle total (of_Z 0)) eqn:Et; [exact Id|].
  assert (Wt : within (2 ^ 51) total).
  { apply (within_mono ((0 + Z.of_nat (length (zip targets lowers))) * roomB)); [|lia|exact B].
    rewrite Hz. unfold roomB in *. lia. }
  pose proof (within_rank (2 ^ 51) _ ltac:(lia) Wt) as Rt. pose proof (finite_nn _ Rt) as Nt.
  pose proof (fle_false_flt _ _ Et Nt (of_Z_nn 0 ltac:(lia))) as Pt.
  assert (A : le_rel (of_Z 0) (fmin reliefW total) /\ le_rel (fmin reliefW total) total).
  { pose proof (fle_false _ _ E Nw (of_Z_nn 0 ltac:(lia))) as Hw.
    destruct (fmin_spec reliefW total Nw Nt) as [[-> Hm]|[-> Hm]]; split; auto; now apply le_rel_refl. }
  destruct A as [A0 A1]. apply zip_takeShare; auto. now apply fmin_wf.
Qed.

(** ** Properties *)
Section Properties.
Context `{MapIter}.
Variable zone : Time -> Duration.

(** A battery whose limits can be worked with: a discharge limit between 0
    and 2^31 W and a reserve bound that is a number. *)
Definition battery_ok (st : State) (readings : gmap string DerReading) (capacities : gmap string f64)
    (t : DispatchTarget) : Prop :=
  let lim := limitsOf (DriverLimits (site st)) (tDriver t) in
  le_rel (of_Z 0) (dischargeCap lim) /\ le_rel (dischargeCap lim) (of_Z maxW) /\
  forall cap, capacities !! tDriver t = Some cap ->
    rank (boostReserveLowerW (readings !! tDriver t) cap (site st)) <> 2.

Lemma lower_ok_inf : lower_ok (Inf false).
Proof. unfold lower_ok, le_rel. rewrite of_Z_fin by (unfold maxW; lia). cbn. lia. Qed.

Lemma fuseTargetBounds_lower r lim :
  le_rel (of_Z 0) (dischargeCap lim) -> le_rel (dischargeCap lim) (of_Z maxW) ->
  lower_ok (fst (fuseTargetBounds r lim)).
Proof.
  intros L0 L1. assert (Z0 : lower_ok (of_Z 0)) by (apply of_Z_mono; unfold maxW; lia).
  assert (D : lower_ok (fneg (dischargeCap lim))).
  { unfold lower_ok. rewrite <- of_Z_opp by (unfold maxW; lia). now apply fneg_anti. }
  unfold fuseTargetBounds. destruct (batteryDirectionBlocks _) as [d c]. cbn [fst].
  destruct (SoC r) as [soc|]; [|exact Z0]. now destruct (fle soc (socFloor lim) || d).
Qed.

Lemma reliefLowers_ok st readings capacities t :
  battery_ok st readings capacities t ->
  lower_ok (fst (reliefLowers st readings capacities t)) /\ lower_ok (snd (reliefLowers st readings capacities t)).
Proof.
  intros (L0 & L1 & N). unfold reliefLowers. pose proof lower_ok_inf as I.
  destruct (capacities !! tDriver t) as [cap|]; [|now split].
  destruct (readings !! tDriver t) as [r|] eqn:Er; [|now split]. specialize (N cap eq_refl).
  destruct (fle cap (of_Z 0)); [now split|]. cbv zeta. cbn [fst snd].
  pose proof (fuseTargetBounds_lower r _ L0 L1) as B. split; [exact B|].
  destruct (fmax_spec _ (boostReserveLowerW (Some r) cap (site st)) (le_rel_nn_r _ _ B) N) as [[-> _]|[-> L]];
    [exact B|exact (le_rel_trans _ _ _ B L)].
Qed.

Lemma flt_neg_inf x : flt x (Inf true) = false.
Proof. now destruct x as [|[]|]. Qed.

(** The power figures a relief is computed from, all bounded. *)
Record figures_ok (st : State) (now : Time) (targets : list DispatchTarget) (readings : gmap string DerReading)
    (meter : option DerReading) (p : phaseSample) (fuseMaxW : f64) : Prop := {
  fig_grid : within (2 ^ 48) (predictedGrid targets readings meter);
  fig_fuse : within (2 ^ 48) (fmax (of_Z 0) (fsub fuseMaxW (fuseSafetyMarginW (site st))));
  fig_ceiling : within (2 ^ 48) (effImportW zone st now fuseMaxW);
  fig_export : within (2 ^ 48) (effExportW st fuseMaxW);
  fig_cut : within (2 ^ 48) (pendingEVCutW st now);
  fig_phases : within (2 ^ 48) (fst (fst (phaseRelief st p targets readings)))
}.

Lemma parts_bounded st now targets readings meter p fuseMaxW :
  figures_ok st now targets readings meter p fuseMaxW ->
  let parts := fuseReliefPartsFromSnapshot zone targets readings meter p st now fuseMaxW in
  within (2 ^ 50) (fst (fst parts)) /\ within (2 ^ 51) (snd (fst parts)).
Proof.
  intros [G F C _ U P]. unfold fuseReliefPartsFromSnapshot.
  assert (Z0 : within (2 ^ 50) (of_Z 0) /\ within (2 ^ 51) (of_Z 0)) by (split; apply within_0; lia).
  destruct (fle fuseMaxW (of_Z 0) || (length targets =? 0)%nat); [exact Z0|]. cbv zeta.
  destruct (phaseRelief st p targets readings) as [[phaseW e] st']. cbn [fst] in P.
  pose proof (within_fsub (2 ^ 48) (2 ^ 48) _ _ ltac:(lia) ltac:(lia) ltac:(lia) G F) as O.
  set (grid := predictedGrid _ _ _) in *. set (fuseW := fmax (of_Z 0) _) in *. clearbody grid fuseW.
  set (over := if flt (fsub grid fuseW) phaseW then phaseW else fsub grid fuseW).
  assert (Bo : within (2 ^ 49) over).
  { unfold over. destruct (flt _ phaseW); [apply (within_mono (2 ^ 48)); [lia|lia|exact P]|exact O]. }
  clearbody over. set (lim := if flt _ fuseW then _ else Inf true).
  destruct (flt over lim) eqn:E; cbn [fst snd].
  - assert (Bl : within (2 ^ 50) lim).
    { unfold lim in *. destruct (flt _ fuseW); [|rewrite flt_neg_inf in E; discriminate E].
      pose proof (within_fsub (2 ^ 48) (2 ^ 48) _ _ ltac:(lia) ltac:(lia) ltac:(lia) G C) as B1.
      apply (within_mono (2 ^ 49 + 2 ^ 48)); [lia|lia|].
      apply within_fsub; [lia|lia|lia|exact B1|exact U]. }
    clearbody lim. split; [exact Bl|]. apply within_fmax; [lia|apply within_0; lia|].
    apply (within_fsub (2 ^ 50) (2 ^ 50)); [lia|lia|lia|exact Bl|].
    apply within_fmax; [lia|apply within_0; lia|apply (within_mono (2 ^ 49)); [lia|lia|exact Bo]].
  - split; [apply (within_mono (2 ^ 49)); [lia|lia|exact Bo]|apply within_0; lia].
Qed.

Lemma phaseRelief_rest st p targets readings :
  let st' := snd (phaseRelief st p targets readings) in
  site st' = site st /\ hold st' = hold st /\ sentTo st' = sentTo st /\ relief st' = relief st.
Proof.
  unfold phaseRelief. destruct (phaseReliefForTargets _ _ _ _ _ _ _) as [[i e] r]. cbn. auto.
Qed.

Lemma parts_rest st now targets readings meter p fuseMaxW :
  let st' := snd (fuseReliefPartsFromSnapshot zone targets readings meter p st now fuseMaxW) in
  site st' = site st /\ hold st' = hold st /\ sentTo st' = sentTo st /\ relief st' = relief st.
Proof.
  unfold fuseReliefPartsFromSnapshot. destruct (_ || _); [cbn; auto|]. cbv zeta.
  pose proof (phaseRelief_rest st p targets readings) as R.
  destruct (phaseRelief st p targets readings) as [[i e] st']. destruct (flt _ _); exact R.
Qed.

Lemma Forall2_lowered_trans l1 l2 l3 : Forall2 lowered l1 l2 -> Forall2 lowered l2 l3 -> Forall2 lowered l1 l3.
Proof.
  intros F. revert l3. induction F as [|a b l1 l2 L F IH]; intros l3 G; inversion_clear G; constructor.
  - eapply lowered_trans; eassumption.
  - now apply IH.
Qed.

Lemma exportCapped_bounded room overage :
  within (2 ^ 50) room -> within (2 ^ 50) overage -> within (2 ^ 50) (if flt room overage then room else overage).
Proof. intros R O. destruct (flt room overage); assumption. Qed.

(** Two reliefs one after the other, each with its own bounds. *)
Lemma twice_lowered targets lowers1 lowers2 relief1 relief2 :
  Z.of_nat (length targets) * roomB <= 2 ^ 51 -> Forall (target_ok maxW) targets ->
  length lowers1 = length targets -> length lowers2 = length targets ->
  Forall lower_ok lowers1 -> Forall lower_ok lowers2 ->
  wf relief1 -> rank relief1 <> 2 -> wf relief2 -> rank relief2 <> 2 ->
  Forall2 lowered targets (allocateFuseRelief (allocateFuseRelief targets relief1 lowers1) relief2 lowers2).
Proof.
  intros Hn Ft L1 L2 F1 F2 W1 N1 W2 N2.
  destruct (allocate_lowered maxW targets relief1 lowers1 ltac:(unfold maxW; lia) Hn W1 N1 L1 Ft F1) as [A B].
  pose proof (Forall2_length _ _ _ A) as E.
  destruct (allocate_lowered (maxW + 2 ^ 51) (allocateFuseRelief targets relief1 lowers1) relief2 lowers2
    ltac:(unfold maxW; lia) ltac:(rewrite <- E; exact Hn) W2 N2 ltac:(congruence) B F2) as [A' _].
  exact (Forall2_lowered_trans _ _ _ A A').
Qed.


Lemma existsb_changed rawBy out : existsb (changedFrom rawBy) out = true ->
  exists t, t ∈ out /\ changedFrom rawBy t = true.
Proof. rewrite existsb_exists. intros (t & I & C). exists t. split; [now apply list_elem_of_In|exact C]. Qed.

(** What the snapshot check lets through is inside every battery's bounds. *)
Lemma snapshot_in_bounds store st at' readings targets t :
  fuseSnapshotStillCurrent store st at' readings targets = true -> t ∈ targets ->
  exists r h, Get (tDriver t) DerBattery store = Some r /\ GetHealth (tDriver t) store = Some h /\
    IsOnline h = true /\ is_Some (readings !! tDriver t) /\
    let b := fuseTargetBounds r (limitsOf (DriverLimits (site st)) (tDriver t)) in
    flt (TargetW t) (fst b) = false /\ flt (snd b) (TargetW t) = false.
Proof.
  unfold fuseSnapshotStillCurrent. intros E I. destruct (IsZero at'); [discriminate|].
  destruct (Get _ DerMeter store) as [m|]; [|discriminate]. destruct (negb (Equal _ _)); [discriminate|].
  destruct (forallb (sampleCurrent store) (map_iter readings)) eqn:S; [|discriminate]. cbn [negb] in E. cbv zeta in E.
  rewrite forallb_forall in E, S. specialize (E t (proj1 (list_elem_of_In _ _) I)). unfold boundsCurrent in E.
  rewrite map_lookup_imap in E. destruct (readings !! tDriver t) as [c|] eqn:Ec; [|discriminate]. cbn [mbind option_bind] in E.
  assert (In (tDriver t, c) (map_iter readings)) as J.
  { apply list_elem_of_In. rewrite (map_iter_perm _ readings). now apply elem_of_map_to_list. }
  specialize (S _ J). cbn in S. destruct (Get (tDriver t) DerBattery store) as [r|]; [|discriminate].
  destruct (GetHealth (tDriver t) store) as [h|]; [|discriminate]. apply andb_true_iff in S as [S _].
  exists r, h. do 3 (split; [auto|]). split; [eauto|]. cbv zeta. destruct (fuseTargetBounds _ _) as [lo up]. cbn [fst snd].
  now apply negb_true_iff, orb_false_iff in E.
Qed.

Lemma bounds_no_soc r lim : SoC r = None -> fst (fuseTargetBounds r lim) = of_Z 0.
Proof. unfold fuseTargetBounds. intros ->. now destruct (batteryDirectionBlocks _). Qed.
Lemma bounds_at_floor r lim soc : SoC r = Some soc -> fle soc (socFloor lim) = true ->
  fst (fuseTargetBounds r lim) = of_Z 0.
Proof. unfold fuseTargetBounds. intros -> ->. now destruct (batteryDirectionBlocks _). Qed.
Lemma bounds_at_ceiling r lim soc : SoC r = Some soc -> fle (socCeiling lim) soc = true ->
  snd (fuseTargetBounds r lim) = of_Z 0.
Proof. unfold fuseTargetBounds. intros -> ->. destruct (batteryDirectionBlocks _). cbn [fst snd]. now rewrite orb_true_r. Qed.

Lemma fleet_of_capacities store caps limits d : is_Some (fReadings (fleetAtLivePower store caps limits) !! d) ->
  is_Some (caps !! d).
Proof.
  unfold fleetAtLivePower. assert (G : forall names f, (forall k, is_Some (fReadings f !! k) -> is_Some (caps !! k)) ->
    (forall k, k ∈ names -> is_Some (caps !! k)) ->
    is_Some (fReadings (fold_left (liveStep store limits) names f) !! d) -> is_Some (caps !! d)).
  { induction names as [|k names IH]; intros f Hf Hn; [apply Hf|]. cbn [fold_left]. apply IH; [|intros k' K; apply Hn; now right].
    intros k' K. unfold liveStep in K. destruct (GetHealth k store) as [h|]; [|now apply Hf].
    destruct (Get k DerBattery store) as [r|]; [|now apply Hf]. destruct (negb (IsOnline h)); [now apply Hf|].
    destruct (fuseTargetBounds _ _) as [lo up]. cbv zeta in K. cbn [fReadings] in K.
    destruct (decide (k = k')) as [<-|N]; [apply Hn; now left|]. rewrite lookup_insert_ne in K by exact N. now apply Hf. }
  apply G; [intros k [r K]; discriminate K|]. intros k K. unfold keys in K.
  apply list_elem_of_fmap in K as ([k' w] & -> & K). rewrite (map_iter_perm _ caps) in K.
  apply elem_of_map_to_list in K. now exists w.
Qed.

(** What the early saver sends has passed the check of every battery. *)
Definition saver_checked (store : Store) (caps : gmap string f64) (s : Site) (t : DispatchTarget) : Prop :=
  exists r h, Get (tDriver t) DerBattery store = Some r /\ GetHealth (tDriver t) store = Some h /\ IsOnline h = true /\
    is_Some (caps !! tDriver t) /\
    let b := fuseTargetBounds r (limitsOf (DriverLimits s) (tDriver t)) in
    flt (TargetW t) (fst b) = false /\ flt (snd b) (TargetW t) = false.

Lemma saver_sends store st now capacities fuseMaxW out raw :
  fst (fuseSaverAtLivePower zone store st now capacities fuseMaxW) = Some (out, raw) ->
  Forall (saver_checked store capacities (site st)) out /\ existsb (changedFrom (byDriver raw)) out = true.
Proof.
  unfold fuseSaverAtLivePower. destruct (_ || _); [discriminate|].
  destruct (Get _ DerMeter store) as [m|]; [|discriminate]. cbv zeta.
  set (f := fleetAtLivePower store capacities _). destruct (length (fRaw f) =? 0)%nat; [discriminate|].
  destruct (fuseReliefFromSnapshot _ _ _ _ _ _ _ _) as [required st1] eqn:E1.
  destruct (fle required (of_Z 0)); [discriminate|].
  set (safe := fuseSafeBaselineForRelief _ _ _ _ _ _ _). clearbody safe.
  destruct (length safe =? 0)%nat; [discriminate|].
  destruct (forceFuseDischargeWithSnapshot _ _ _ _ _ _ _ _ _) as [o st2] eqn:E2.
  destruct (existsb _ o) eqn:C; [|discriminate]. destruct (fuseSnapshotStillCurrent _ _ _ _ _) eqn:S; [|discriminate].
  cbn [andb fst]. intros [= -> <-]. split; [|exact C].
  assert (Es : site st2 = site st).
  { transitivity (site st1).
    - revert E2. unfold forceFuseDischargeWithSnapshot.
      pose proof (proj1 (parts_rest st1 now safe (fReadings f) (Some m)
        (livePhaseSample store (SiteMeterDriver (site st)) (Some m)) fuseMaxW)) as R.
      destruct (fuseReliefPartsFromSnapshot _ _ _ _ _ _ _ _) as [[a b] st3]. cbn [snd] in R.
      repeat case_match; intros [= _ <-]; congruence.
    - revert E1. unfold fuseReliefFromSnapshot.
      pose proof (proj1 (parts_rest st now (fRaw f) (fReadings f) (Some m)
        (livePhaseSample store (SiteMeterDriver (site st)) (Some m)) fuseMaxW)) as R.
      destruct (fuseReliefPartsFromSnapshot _ _ _ _ _ _ _ _) as [[a b] st3]. now intros [= _ <-]. }
  apply Forall_forall. intros t I. destruct (snapshot_in_bounds _ _ _ _ _ t S I) as (r & h & Er & Eh & Ho & Hc & B).
  rewrite Es in B. exists r, h. do 3 (split; [assumption|]). split; [exact (fleet_of_capacities _ _ _ _ Hc)|exact B].
Qed.

End Properties.

(** ** Witnesses *)
Definition fleetReading (name : string) (w : Z) (soc : option f64) : DerReading :=
  mkReading name DerBattery (of_Z w) (of_Z w) soc (10 * Second) RawEmpty (10 * Second).
Definition gridReading (w : Z) : DerReading :=
  mkReading "meter" DerMeter (of_Z w) (of_Z w) None 0 RawEmpty (10 * Second).
(** A site meter and the batteries b1 and b2, all online. *)
Definition fleetStore (gridW w1 w2 : Z) : Store :=
  let half := Some (lit 5 10) in
  mkStore {[key "meter" DerMeter := gridReading gridW; key "b1" DerBattery := fleetReading "b1" w1 half;
            key "b2" DerBattery := fleetReading "b2" w2 half]} ∅
    {["meter"%string := NewHealth "meter" (10 * Second); "b1"%string := NewHealth "b1" (10 * Second);
      "b2"%string := NewHealth "b2" (10 * Second)]}
    (of_Z 100) (of_Z 50) [] ∅ [] 0.
Definition fleetCapacities : gmap string f64 := {["b1"%string := of_Z 10000; "b2"%string := of_Z 10000]}.
(** Two batteries behind three 16 A phases, with no hourly import limit. *)
Definition fuseSite : Site :=
  mkSite ModeSelfConsumption "meter" (of_Z 16) (of_Z 230) 3 (of_Z 0) (of_Z 0) (of_Z 0)
    (of_Z 0) (of_Z 0) (of_Z 0) (of_Z 0) false (of_Z 0) (of_Z 0) (of_Z 0) ∅ [] false 5 2
    None None noSnapshot (of_Z 0) (of_Z 0) ∅.
Definition demoState : State :=
  mkState fuseSite demoHour noEVLimit noFuseHold (mkShare (of_Z 0) false false) (mkReliefLog ∅ ∅) noResponse
    (mkSentLog ∅ ∅ None ∅ []) ∅ noHeat.
Definition demoSaver (gridW w1 w2 : Z) : option (list DispatchTarget * list DispatchTarget) :=
  fst (@fuseSaverAtLivePower canonical_iter (fun _ => 0) (fleetStore gridW w1 w2) demoState (10 * Second)
         fleetCapacities (of_Z 11040)).

(** The share [allocate * (room / total)] rounds, and a battery that gives up
    all its room can end one ulp below its limit. The snapshot check then
    refuses the whole command: at 25 kW of import the saver does nothing about
    two batteries that charge at 1921 W and 392 W. *)
Theorem early_relief_lost_to_rounding :
  match demoSaver 25000 1921 392 with Some _ => true | None => false end = false /\
  existsb (fun t => flt (TargetW t) (of_Z (-5000)))
    (allocateFuseRelief [mkTarget "b1" (of_Z 1921) false; mkTarget "b2" (of_Z 392) false]
       (of_Z 13960) [of_Z (-5000); of_Z (-5000)]) = true.
Proof.
  split; vm_compute; reflexivity.
Qed.

Definition demoTargets : list DispatchTarget := [mkTarget "b1" (of_Z 1921) false; mkTarget "b2" (of_Z 392) false].
Definition demoReadings : gmap string DerReading := captureReadings (fleetStore 25000 1921 392) demoTargets.

Lemma demo_battery_ok name w : battery_ok demoState demoReadings fleetCapacities (mkTarget name w false).
Proof.
  unfold battery_ok. replace (limitsOf (DriverLimits (site demoState)) _) with noLimits by reflexivity. cbv zeta.
  split; [apply fle_iff; vm_compute; reflexivity|]. split; [apply fle_iff; vm_compute; reflexivity|].
  intros cap _. unfold boostReserveLowerW.
  replace (fle (BatteryBoostReserveSoC (site demoState)) (of_Z 0)) with true by (vm_compute; reflexivity).
  discriminate.
Defined.


