(* ===== verification/FuseGuard.v ===== *)
(** * The fuse guard and the battery-rise fit (go/internal/control/dispatch.go)

    The bidirectional guard that scales battery charge down on predicted
    import over the line and discharge down on predicted export, with its
    30-second hold; the fit of charge rises to the room the busiest phase
    shows; and the floor under a blocked pack's discharge. *)
From Stdlib Require Import ZArith Lia.
From S2P Require Import Prelude Float64 GoTime Json Kalman Health Telemetry Limits CommandLog Site.
From S2P Require Import ImportHour PhaseFuse FuseHeat ControlState FuseRelief.
From stdpp Require Import base gmap strings list sorting.
#[local] Open Scope Z_scope.

(** The commanded charge, and the commanded discharge as a positive number. *)
Definition totalCharge (ts : list DispatchTarget) : f64 :=
  sumSome (fun t => if flt (of_Z 0) (TargetW t) then Some (TargetW t) else None) ts.
Definition totalDischarge (ts : list DispatchTarget) : f64 :=
  sumSome (fun t => if flt (TargetW t) (of_Z 0) then Some (fneg (TargetW t)) else None) ts.

Definition scaleCharge (scale : f64) (t : DispatchTarget) : DispatchTarget :=
  if flt (of_Z 0) (TargetW t) then setW (fmul (TargetW t) scale) t else t.
Definition scaleDischarge (scale : f64) (t : DispatchTarget) : DispatchTarget :=
  if flt (TargetW t) (of_Z 0) then setW (fmul (TargetW t) scale) t else t.

Definition holdDuration : Duration := 30 * Second.

(** ** The hold: re-applied while it lasts, reset once it is over *)
Definition applyHold (h : fuseHold) (now : Time) (targets : list DispatchTarget)
  : list DispatchTarget * fuseHold :=
  if After (holdUntil h) now then
    let out :=
      if flt (of_Z 0) (maxDischargeHoldW h) && flt (maxDischargeHoldW h) (totalDischarge targets)
      then scaleDischarge (fdiv (maxDischargeHoldW h) (totalDischarge targets)) <$> targets else targets in
    let out :=
      if flt (of_Z 0) (maxChargeHoldW h) && flt (maxChargeHoldW h) (totalCharge out)
      then scaleCharge (fdiv (maxChargeHoldW h) (totalCharge out)) <$> out else out in
    (out, h)
  else (targets, if negb (IsZero (holdUntil h)) then noFuseHold else h).

(** ** One overage, cut out of the commands that cause it *)
Definition cutCharge (h : fuseHold) (now : Time) (over : f64) (out : list DispatchTarget)
  : list DispatchTarget * fuseHold :=
  let total := totalCharge out in
  if fle total (of_Z 0) then (out, h)
  else
    let newTotal := fsub total over in
    let newTotal := if flt newTotal (of_Z 0) then of_Z 0 else newTotal in
    (scaleCharge (fdiv newTotal total) <$> out,
     mkFuseHold (maxDischargeHoldW h) newTotal (GoTime.Add now holdDuration)).

Definition cutDischarge (h : fuseHold) (now : Time) (over : f64) (out : list DispatchTarget)
  : list DispatchTarget * fuseHold :=
  let total := totalDischarge out in
  if fle total (of_Z 0) then (out, h)
  else
    let newTotal := fsub total over in
    let newTotal := if flt newTotal (of_Z 0) then of_Z 0 else newTotal in
    (scaleDischarge (fdiv newTotal total) <$> out,
     mkFuseHold newTotal (maxChargeHoldW h) (GoTime.Add now holdDuration)).

(** The cut for the overages; import comes first. *)
Definition cutOverage (h : fuseHold) (now : Time) (importOver exportOver : f64) (out : list DispatchTarget)
  : list DispatchTarget * fuseHold :=
  if fle importOver (of_Z 0) && fle exportOver (of_Z 0) then (out, h)
  else if flt (of_Z 0) importOver then cutCharge h now importOver out
  else if flt (of_Z 0) exportOver then cutDischarge h now exportOver out
  else (out, h).

Section Guard.
Context `{MapIter}.
Variable zone : Time -> Duration.

Definition siteMeter (store : Store) (st : State) : option DerReading :=
  if String.eqb (SiteMeterDriver (site st)) "" then None else Get (SiteMeterDriver (site st)) DerMeter store.

(** The guard predicts from the held targets. *)
Definition applyFuseGuard (targets : list DispatchTarget) (store : Store) (st : State) (now : Time)
    (fuseMaxW : f64) : list DispatchTarget * State :=
  if fle fuseMaxW (of_Z 0) then (targets, st)
  else
    let batteries := captureReadings store targets in
    let currentBat := currentBattery targets batteries in
    let meter := siteMeter store st in
    let currentGrid := match meter with Some m => SmoothedW m | None => of_Z 0 end in
    let phases := match meter with Some m => livePhaseSample store (SiteMeterDriver (site st)) meter | None => None end in
    let '(out, h) := applyHold (hold st) now targets in
    let predicted := fadd (fsub currentGrid currentBat) (sumTargets out) in
    let '(phaseImportW, phaseExportW, st) := phaseRelief (withHold h st) phases out batteries in
    let importOver := fmax (fsub predicted (effImportW zone st now fuseMaxW)) phaseImportW in
    let exportOver := fmax (fsub (fneg (effExportW st fuseMaxW)) predicted) phaseExportW in
    let '(out, h) := cutOverage h now importOver exportOver out in
    (out, withHold h st).

(** ** Battery rises and the busiest phase *)
Definition unshownOf (now : Time) (store : Store) (st : State) (driver : string) (log : commandLog) : f64 :=
  match span log now with
  | None => of_Z 0
  | Some s =>
      let low := spLow s in
      let low := match span (logOfDriver (batteryReadings (sentTo st)) driver) now with
                 | Some r => fmin low (spLow r) | None => low end in
      let low := match OnlineRawW driver DerBattery store with Some (w, _) => fmin low w | None => low end in
      fmax (of_Z 0) (fsub (spLatest s) low)
  end.

Definition unshownBatteryW (now : Time) (store : Store) (st : State) : f64 :=
  fold_left (fun acc '(driver, log) =>
      match span log now with None => acc | Some _ => fadd acc (unshownOf now store st driver log) end)
    (map_iter (batteryCommands (sentTo st))) (of_Z 0).

(** A battery's latest order, or its reading before our first order. *)
Definition riseBase (now : Time) (store : Store) (st : State) (driver : string) : f64 :=
  match span (logOfDriver (batteryCommands (sentTo st)) driver) now with
  | Some s => spLatest s
  | None => match OnlineRawW driver DerBattery store with Some (w, _) => w | None => of_Z 0 end
  end.

Definition riseHold (base : f64) (t : DispatchTarget) : f64 := fmin (TargetW t) (fmax (of_Z 0) base).

Definition riseStep (now : Time) (store : Store) (st : State) (acc : f64 * f64) (t : DispatchTarget) : f64 * f64 :=
  let '(roomW, riseW) := acc in
  let base := riseBase now store st (tDriver t) in
  (fsub roomW (fmax (of_Z 0) (fsub (fmin (of_Z 0) (TargetW t)) (fmin (of_Z 0) base))),
   fadd riseW (fsub (TargetW t) (riseHold base t))).

Definition scaleRise (now : Time) (store : Store) (st : State) (scale : f64) (t : DispatchTarget) : DispatchTarget :=
  let h := riseHold (riseBase now store st (tDriver t)) t in
  if flt h (TargetW t) then setW (fadd h (fmul (fsub (TargetW t) h) scale)) t else t.

(** The room the meter shows on the busiest phase, in watts. *)
Definition riseRoomW (now : Time) (store : Store) (st : State) (as_ : list f64) : f64 :=
  let perA := perAmpW (site st) in
  let unshownA := fdiv (unshownBatteryW now store st) perA in
  let unshownA := fold_left (fun a '(_, c) => fadd a (snd (unshown (oLog c) now (batterySettle c))))
                    (map_iter (offers (evLimit st))) unshownA in
  let worstA := fold_left fmax as_ (Inf true) in
  fmul (fsub (fsub (fuseLineA (site st)) worstA) unshownA) perA.

Definition fitBatteryRisesToFuse (targets : list DispatchTarget) (store : Store) (st : State) (now : Time)
  : list DispatchTarget :=
  if (length targets =? 0)%nat || fle (SiteFuseVoltage (site st)) (of_Z 0) || (SiteFusePhases (site st) <=? 0)
  then targets
  else
    match Get (SiteMeterDriver (site st)) DerMeter store with
    | None => targets
    | Some meter =>
        match signedPhasesA (livePhaseSample store (SiteMeterDriver (site st)) (Some meter)) (site st) with
        | None => targets
        | Some as_ =>
            let '(roomW, riseW) :=
              fold_left (riseStep now store st) targets (riseRoomW now store st as_, of_Z 0) in
            if fle riseW (of_Z 0) || fle riseW roomW then targets
            else
              let scale := fdiv (fmax (of_Z 0) roomW) riseW in
              scaleRise now store st scale <$> targets
        end
    end.

(** Battery increase we ordered that the meter may not show yet. *)
Definition pendingBatteryCommandsW (now : Time) (st : State) : f64 :=
  fold_left (fun acc '(_, log) =>
      match span log now with
      | None => acc
      | Some s => fadd acc (fmax (of_Z 0) (fsub (spLatest s) (spLow s)))
      end) (map_iter (batteryCommands (sentTo st))) (of_Z 0).

(** ** Blocked packs *)
Definition dischargeParked (r : DerReading) (lim : PowerLimits) : bool :=
  match SoC r with
  | None => true
  | Some soc => fle soc dischargeFloorSoC || fst (batteryDirectionBlocks (Data r)) || feq (dischargeCap lim) (of_Z 0)
  end.

Definition parked (store : Store) (st : State) (t : DispatchTarget) : bool :=
  flt (TargetW t) (of_Z 0) &&
  match Get (tDriver t) DerBattery store with
  | Some r => dischargeParked r (limitsOf (DriverLimits (site st)) (tDriver t))
  | None => false
  end.

(** What the capable packs can still take over. *)
Definition capableRoomW (st : State) (readings : gmap string DerReading) (capacities : gmap string f64)
    (out : list (DispatchTarget * bool)) : f64 :=
  fold_left (fun roomW '(t, blocked) =>
      match readings !! tDriver t with
      | Some r =>
          if blocked || fle (atZero capacities (tDriver t)) (of_Z 0) then roomW
          else
            let lower := fst (fuseTargetBounds r (limitsOf (DriverLimits (site st)) (tDriver t))) in
            fadd roomW (fmax (of_Z 0) (fsub (TargetW t) lower))
      | None => roomW
      end) out (of_Z 0).

Definition blockedDischargeKeepW (store : Store) (out : list (DispatchTarget * bool))
    (readings : gmap string DerReading) (meter : option DerReading) (st : State) (now : Time)
    (capacities : gmap string f64) (fuseMaxW : f64) : f64 * State :=
  let targets := fst <$> out in
  let '(required, st) :=
    fuseReliefFromSnapshot zone targets readings meter (livePhaseSample store (SiteMeterDriver (site st)) meter)
      st now fuseMaxW in
  let reliefW := fmax (of_Z 0) required in
  let roomW := capableRoomW st readings capacities out in
  let predicted := predictedGrid targets readings meter in
  (fsub reliefW (fmin roomW (fmax (of_Z 0) (fadd predicted (effExportW st fuseMaxW)))), st).

(** One reading per driver, the last target's. *)
Definition floorBlockedDischarge (targets : list DispatchTarget) (store : Store) (st : State) (now : Time)
    (capacities : gmap string f64) (fuseMaxW : f64) : list DispatchTarget * State :=
  let flags := parked store st <$> targets in
  if negb (existsb id flags) then (targets, st)
  else
    let out := zip_with (fun t b => (if b : bool then setW (of_Z 0) t else t, b)) targets flags in
    if fle fuseMaxW (of_Z 0) then (fst <$> out, st)
    else
      let rampW := fold_left (fun w '(t, b) => if b : bool then fsub w (TargetW t) else w)
                     (zip targets flags) (of_Z 0) in
      let meter := Get (SiteMeterDriver (site st)) DerMeter store in
      let '(keepW, st) :=
        blockedDischargeKeepW store out (captureReadings store targets) meter st now capacities fuseMaxW in
      if fle keepW (of_Z 0) then (fst <$> out, st)
      else if fle rampW keepW then (targets, st)
      else
        (zip_with (fun t b => if b : bool then setW (fdiv (fmul (TargetW t) keepW) rampW) t else t) targets flags,
         st).
End Guard.

(** ** Lemmas *)

(** A command that can be scaled: a number within 2^31 W. *)
Definition command_ok (t : DispatchTarget) : Prop := wf (TargetW t) /\ within maxW (TargetW t).

Lemma le_rel_both x : rank x = 0 -> le_rel (of_Z 0) x \/ le_rel x (of_Z 0).
Proof. intros R. apply le_rel_total; [apply of_Z_nn; lia|now apply finite_nn]. Qed.
Lemma command_fin t : command_ok t -> rank (TargetW t) = 0.
Proof. intros [_ B]. exact (within_rank maxW _ ltac:(unfold maxW; lia) B). Qed.

Lemma command_unchanged t : command_ok t -> noStronger t t.
Proof. intros C. apply noStronger_refl, finite_nn. exact (command_fin t C). Qed.

Lemma noStronger_command t t' : noStronger t t' -> command_ok t -> wf (TargetW t') -> command_ok t'.
Proof.
  intros (_ & P & N) C W. split; [exact W|]. pose proof (command_fin t C) as R. destruct C as [_ B].
  assert (Z : within maxW (of_Z 0)) by (apply within_0; unfold maxW; lia).
  destruct (le_rel_both _ R) as [L|L].
  - destruct (P L) as [A A']. exact (within_between _ _ _ _ A A' Z B).
  - destruct (N L) as [A A']. exact (within_between _ _ _ _ A' A B Z).
Qed.

Lemma scaled_noStronger k t : command_ok t -> le_rel (of_Z 0) k -> le_rel k (of_Z 1) ->
  noStronger t (setW (fmul (TargetW t) k) t) /\ command_ok (setW (fmul (TargetW t) k) t).
Proof.
  intros C K0 K1. rewrite of_Z_0 in K0. rewrite of_Z_1 in K1.
  destruct (fmul_ratio (TargetW t) k (proj1 C) (command_fin t C) K0 K1) as (_ & P & N).
  assert (T : noStronger t (setW (fmul (TargetW t) k) t)) by (split; [reflexivity|now split]).
  split; [exact T|]. exact (noStronger_command _ _ T C (fmul_wf _ _)).
Qed.

Lemma scaleCharge_noStronger k t : command_ok t -> le_rel (of_Z 0) k -> le_rel k (of_Z 1) ->
  noStronger t (scaleCharge k t) /\ command_ok (scaleCharge k t).
Proof.
  intros C K0 K1. unfold scaleCharge. destruct (flt _ _); [now apply scaled_noStronger|]. split; [now apply command_unchanged|exact C].
Qed.
Lemma scaleDischarge_noStronger k t : command_ok t -> le_rel (of_Z 0) k -> le_rel k (of_Z 1) ->
  noStronger t (scaleDischarge k t) /\ command_ok (scaleDischarge k t).
Proof.
  intros C K0 K1. unfold scaleDischarge. destruct (flt _ _); [now apply scaled_noStronger|]. split; [now apply command_unchanged|exact C].
Qed.

(** A stage that moves every command toward zero. *)
Definition shrinks (ts out : list DispatchTarget) : Prop := Forall2 noStronger ts out /\ Forall command_ok out.
Lemma shrinks_refl ts : Forall command_ok ts -> shrinks ts ts.
Proof. intros F. split; [|exact F]. apply Forall_Forall2_diag. apply (Forall_impl _ _ _ F). exact command_unchanged. Qed.
Lemma shrinks_map f ts : Forall command_ok ts ->
  (forall t, command_ok t -> noStronger t (f t) /\ command_ok (f t)) -> shrinks ts (f <$> ts).
Proof.
  intros F H. split.
  - apply Forall2_fmap_r, Forall_Forall2_diag. apply (Forall_impl _ _ _ F). intros t C. exact (proj1 (H t C)).
  - apply Forall_fmap. apply (Forall_impl _ _ _ F). intros t C. exact (proj2 (H t C)).
Qed.
Lemma shrinks_trans a b c : shrinks a b -> shrinks b c -> shrinks a c.
Proof.
  intros [F1 _] [F2 C]. split; [|exact C]. clear C. revert c F2. induction F1 as [|x y a b L F IH]; intros c F2.
  - inversion_clear F2. constructor.
  - inversion_clear F2 as [|? z ? c' L2 F2']. constructor; [exact (noStronger_trans _ _ _ L L2)|exact (IH _ F2')].
Qed.

(** The totals of at most 2^19 commands. *)
Lemma total_ok (f : DispatchTarget -> option f64) ts : Z.of_nat (length ts) <= 524288 ->
  Forall (fun t => forall w, f t = Some w -> le_rel (of_Z 0) w /\ le_rel w (of_Z maxW)) ts ->
  le_rel (of_Z 0) (sumSome f ts) /\ rank (sumSome f ts) = 0.
Proof.
  intros Hn F. destruct (sumSome_within f maxW ts) as [L W]; [unfold maxW; lia|unfold maxW; lia|exact F|].
  split; [exact L|]. refine (within_rank _ _ _ W). unfold maxW. lia.
Qed.
Lemma totalCharge_ok ts : Z.of_nat (length ts) <= 524288 -> Forall command_ok ts ->
  le_rel (of_Z 0) (totalCharge ts) /\ rank (totalCharge ts) = 0.
Proof.
  intros Hn F. apply total_ok; [exact Hn|]. apply (Forall_impl _ _ _ F). intros t [_ [_ U]] w.
  destruct (flt (of_Z 0) (TargetW t)) eqn:E; [|discriminate]. intros [= <-]. split; [now apply flt_le|exact U].
Qed.
Lemma totalDischarge_ok ts : Z.of_nat (length ts) <= 524288 -> Forall command_ok ts ->
  le_rel (of_Z 0) (totalDischarge ts) /\ rank (totalDischarge ts) = 0.
Proof.
  intros Hn F. apply total_ok; [exact Hn|]. apply (Forall_impl _ _ _ F). intros t [_ B] w.
  destruct (flt (TargetW t) (of_Z 0)) eqn:E; [|discriminate]. intros [= <-]. split.
  - apply flt_le, fneg_anti in E. replace (fneg (of_Z 0)) with (of_Z 0) in E by (rewrite of_Z_0; reflexivity). exact E.
  - exact (proj2 (within_fneg maxW _ ltac:(unfold maxW; lia) B)).
Qed.

(** Scales below a total are between 0 and 1. *)
Lemma ratio_ok part total : rank total = 0 -> flt (of_Z 0) total = true -> le_rel (of_Z 0) part -> le_rel part total ->
  le_rel (of_Z 0) (fdiv part total) /\ le_rel (fdiv part total) (of_Z 1).
Proof.
  intros R P L0 L1. destruct (fdiv_ratio part total (rank_between _ _ L0 L1 R) L0 L1 P) as (_ & A & B).
  rewrite of_Z_0, of_Z_1. now split.
Qed.

Lemma applyHold_shrinks h now ts : Z.of_nat (length ts) <= 524288 -> Forall command_ok ts ->
  shrinks ts (fst (applyHold h now ts)).
Proof.
  intros Hn F. unfold applyHold. destruct (After (holdUntil h) now); [|now apply shrinks_refl]. cbn [fst].
  set (out := if _ && _ then scaleDischarge _ <$> ts else ts).
  assert (S1 : shrinks ts out).
  { unfold out. destruct (flt (of_Z 0) (maxDischargeHoldW h)) eqn:P; [|now apply shrinks_refl].
    destruct (flt (maxDischargeHoldW h) (totalDischarge ts)) eqn:L; [|now apply shrinks_refl]. cbn [andb].
    destruct (totalDischarge_ok ts Hn F) as [_ R].
    destruct (ratio_ok (maxDischargeHoldW h) _ R (flt_le_trans _ _ _ P (flt_le _ _ L)) (flt_le _ _ P) (flt_le _ _ L)).
    apply shrinks_map; [exact F|]. intros t C. now apply scaleDischarge_noStronger. }
  clearbody out. pose proof (Forall2_length _ _ _ (proj1 S1)) as E.
  destruct (flt (of_Z 0) (maxChargeHoldW h)) eqn:P; [|exact S1].
  destruct (flt (maxChargeHoldW h) (totalCharge out)) eqn:L; [|exact S1]. cbn [andb].
  destruct (totalCharge_ok out ltac:(rewrite <- E; exact Hn) (proj2 S1)) as [_ R].
  destruct (ratio_ok (maxChargeHoldW h) _ R (flt_le_trans _ _ _ P (flt_le _ _ L)) (flt_le _ _ P) (flt_le _ _ L)).
  apply (shrinks_trans _ _ _ S1), shrinks_map; [exact (proj2 S1)|]. intros t C. now apply scaleCharge_noStronger.
Qed.

(** What is left of a total after a cut. *)
Lemma cut_left total over : wf total -> rank total = 0 -> le_rel (of_Z 0) total -> flt (of_Z 0) over = true ->
  let left := let n := fsub total over in if flt n (of_Z 0) then of_Z 0 else n in
  le_rel (of_Z 0) left /\ le_rel left total.
Proof.
  intros W R L P. cbv zeta.
  assert (N : rank (fsub total over) <> 2).
  { apply fsub_fin_nn; [now apply finite_nn|exact (le_rel_nn_r _ _ (flt_le _ _ P))|now left]. }
  destruct (flt (fsub total over) (of_Z 0)) eqn:E.
  - split; [apply le_rel_refl, of_Z_nn; lia|exact L].
  - split; [apply flt_false; [exact E|exact N|apply of_Z_nn; lia]|]. apply flt_le in P. rewrite of_Z_0 in P.
    apply fsub_le; [exact W|exact P|now apply finite_nn|exact N].
Qed.

Lemma sumSome_wf {A} (f : A -> option f64) l : wf (sumSome f l).
Proof.
  unfold sumSome. assert (G : forall acc, wf acc -> wf (fold_left (fun acc x => match f x with Some w => fadd acc w | None => acc end) l acc)).
  { induction l as [|x l IH]; intros acc W; [exact W|]. cbn [fold_left]. apply IH. destruct (f x); [apply fadd_wf|exact W]. }
  apply G, of_Z_wf.
Qed.

(** What a cut makes of the hold: it stays, or the direction's cap is what is
    left of the total, for half a minute. *)
Definition held (h : fuseHold) (now : Time) (h' : fuseHold) : Prop :=
  h' = h \/
  holdUntil h' = GoTime.Add now holdDuration /\
  ((maxDischargeHoldW h' = maxDischargeHoldW h /\ le_rel (of_Z 0) (maxChargeHoldW h')) \/
   (maxChargeHoldW h' = maxChargeHoldW h /\ le_rel (of_Z 0) (maxDischargeHoldW h'))).

Lemma cutCharge_ok h now over out : Z.of_nat (length out) <= 524288 -> Forall command_ok out -> flt (of_Z 0) over = true ->
  shrinks out (fst (cutCharge h now over out)) /\ held h now (snd (cutCharge h now over out)).
Proof.
  intros Hn F P. unfold cutCharge. destruct (totalCharge_ok out Hn F) as [L R].
  destruct (fle (totalCharge out) (of_Z 0)) eqn:E; [split; [now apply shrinks_refl|now left]|]. cbv zeta. cbn [fst snd].
  destruct (cut_left (totalCharge out) over (sumSome_wf _ _) R L P) as [A B]. cbv zeta in A, B.
  set (left := if flt _ _ then _ else _) in *. clearbody left.
  destruct (ratio_ok left _ R (fle_false_flt _ _ E (finite_nn _ R) (of_Z_nn 0 ltac:(lia))) A B).
  split; [|right; split; [reflexivity|left; split; [reflexivity|exact A]]].
  apply shrinks_map; [exact F|]. intros t C. now apply scaleCharge_noStronger.
Qed.
Lemma cutDischarge_ok h now over out : Z.of_nat (length out) <= 524288 -> Forall command_ok out -> flt (of_Z 0) over = true ->
  shrinks out (fst (cutDischarge h now over out)) /\ held h now (snd (cutDischarge h now over out)).
Proof.
  intros Hn F P. unfold cutDischarge. destruct (totalDischarge_ok out Hn F) as [L R].
  destruct (fle (totalDischarge out) (of_Z 0)) eqn:E; [split; [now apply shrinks_refl|now left]|]. cbv zeta. cbn [fst snd].
  destruct (cut_left (totalDischarge out) over (sumSome_wf _ _) R L P) as [A B]. cbv zeta in A, B.
  set (left := if flt _ _ then _ else _) in *. clearbody left.
  destruct (ratio_ok left _ R (fle_false_flt _ _ E (finite_nn _ R) (of_Z_nn 0 ltac:(lia))) A B).
  split; [|right; split; [reflexivity|right; split; [reflexivity|exact A]]].
  apply shrinks_map; [exact F|]. intros t C. now apply scaleDischarge_noStronger.
Qed.
Lemma cutOverage_ok h now i e out : Z.of_nat (length out) <= 524288 -> Forall command_ok out ->
  shrinks out (fst (cutOverage h now i e out)) /\ held h now (snd (cutOverage h now i e out)).
Proof.
  intros Hn F. unfold cutOverage.
  assert (Id : shrinks out out /\ held h now h) by (split; [now apply shrinks_refl|now left]).
  destruct (fle i _ && fle e _); [exact Id|].
  destruct (flt (of_Z 0) i) eqn:Pi; [now apply cutCharge_ok|].
  destruct (flt (of_Z 0) e) eqn:Pe; [now apply cutDischarge_ok|exact Id].
Qed.

(** ** Properties *)
Section Properties.
Context `{MapIter}.
Variable zone : Time -> Duration.

Lemma applyHold_exact h now ts :
  snd (applyHold h now ts) = if After (holdUntil h) now then h else if IsZero (holdUntil h) then h else noFuseHold.
Proof. unfold applyHold. destruct (After _ _); [reflexivity|]. cbn. now destruct (IsZero _). Qed.


Lemma below_hold h m : wf h -> rank h <> 2 -> notNeg m -> flt (fadd h m) h = false.
Proof.
  intros W N P. apply notNeg_cases in P as [->|[->|(z & -> & L)]].
  - destruct h as [|[]|]; reflexivity.
  - destruct h as [|[]|]; reflexivity.
  - apply le_flt_false. apply fadd_of_ge; [exact W|exact N| |rewrite of_Z_0; unfold le_rel; cbn; lia].
    destruct h as [|[]|y]; [now destruct N|discriminate|discriminate|apply rnd_not_nan].
Qed.
Lemma fsub_notNeg x y : flt y x = true -> notNeg (fsub x y).
Proof.
  unfold fsub. destruct x as [|[]|a], y as [|[]|b]; try discriminate; try reflexivity.
  rewrite flt_fin by reflexivity. cbn [val]. rewrite Z.ltb_lt. intros L. apply notNeg_rnd; lia.
Qed.

(** The room on the busiest phase holds back rises only. Every battery
    keeps its place; a command at or below the battery's latest order, and
    with it every discharge, passes unchanged; and a larger charge is never
    cut below that order. *)
Theorem battery_rise_never_cuts_the_hold (targets : list DispatchTarget) (store : Store) (st : State) (now : Time)
    (Hw : Forall (fun t => wf (TargetW t) /\ wf (riseBase now store st (tDriver t))) targets) :
  Forall2 (fun t t' =>
      let order := riseHold (riseBase now store st (tDriver t)) t in
      tDriver t' = tDriver t /\
      (flt order (TargetW t) = false -> t' = t) /\
      (flt (of_Z 0) (TargetW t) = false -> rank (TargetW t) <> 2 -> rank (riseBase now store st (tDriver t)) <> 2 -> t' = t) /\
      (flt order (TargetW t) = true -> flt (TargetW t') order = false))
    targets (fitBatteryRisesToFuse targets store st now).
Proof.
  assert (D : forall t, flt (of_Z 0) (TargetW t) = false -> rank (TargetW t) <> 2 ->
    rank (riseBase now store st (tDriver t)) <> 2 -> flt (riseHold (riseBase now store st (tDriver t)) t) (TargetW t) = false).
  { intros t P N B. unfold riseHold. apply flt_false in P; [|apply of_Z_nn; lia|exact N].
    rewrite fmin_l; [now apply le_flt_false, le_rel_refl|].
    apply (le_rel_trans _ (of_Z 0)); [exact P|now apply fmax_0_nonneg]. }
  assert (Id : Forall2 (fun t t' => tDriver t' = tDriver t /\
      (flt (riseHold (riseBase now store st (tDriver t)) t) (TargetW t) = false -> t' = t) /\
      (flt (of_Z 0) (TargetW t) = false -> rank (TargetW t) <> 2 -> rank (riseBase now store st (tDriver t)) <> 2 -> t' = t) /\
      (flt (riseHold (riseBase now store st (tDriver t)) t) (TargetW t) = true ->
       flt (TargetW t') (riseHold (riseBase now store st (tDriver t)) t) = false)) targets targets).
  { apply Forall_Forall2_diag, Forall_true. intros t. split_and!; auto. intros L. apply le_flt_false. now apply flt_le. }
  unfold fitBatteryRisesToFuse. destruct (_ || _); [exact Id|].
  destruct (Get _ DerMeter store) as [m|]; [|exact Id]. destruct (signedPhasesA _ _) as [as_|]; [|exact Id].
  destruct (fold_left _ targets _) as [roomW riseW]. destruct (fle riseW (of_Z 0)) eqn:E; [exact Id|].
  destruct (fle riseW roomW); [exact Id|]. cbn [orb]. cbv zeta. clear Id.
  pose proof (fdiv_notNeg _ riseW (notNeg_max0 roomW) E) as Hs. set (scale := fdiv _ riseW) in *. clearbody scale.
  apply Forall2_fmap_r, Forall_Forall2_diag. apply (Forall_impl _ _ _ Hw). intros t [W Wb].
  unfold compose, scaleRise. cbv beta zeta.
  set (order := riseHold _ t) in *.
  assert (Wo : wf order) by (apply fmin_wf; [exact W|apply fmax_wf; [apply of_Z_wf|exact Wb]]).
  destruct (flt order (TargetW t)) eqn:L; [|split_and!; auto; intros; discriminate].
  split; [reflexivity|]. split; [discriminate|]. split.
  - intros P N B. specialize (D t P N B). fold order in D. congruence.
  - intros _. apply below_hold; [exact Wo| |].
    + destruct order as [|[]|]; try discriminate.
    + apply notNeg_mul; [now apply fsub_notNeg|exact Hs].
Qed.
End Properties.

(** ** Witnesses *)
Lemma demo_commands_ok : Forall command_ok demoTargets.
Proof.
  assert (T : forall n z, - maxW <= z <= maxW -> command_ok (mkTarget n (of_Z z) false)).
  { intros n z Hz. unfold command_ok, maxW in *. split; [apply of_Z_wf|apply within_of_Z; lia]. }
  apply Forall_cons_2; [exact (T "b1"%string 1921 ltac:(unfold maxW; lia))|].
  apply Forall_cons_2; [exact (T "b2"%string 392 ltac:(unfold maxW; lia))|]. apply Forall_nil_2.
Defined.


Definition riseTargets : list DispatchTarget := [mkTarget "b" (of_Z 3000) false].
Lemma battery_rise_never_cuts_the_hold_witness :
  Forall2 (fun t t' => tDriver t' = tDriver t) riseTargets
    (@fitBatteryRisesToFuse canonical_iter riseTargets demoStore demoState (10 * Second)).
Proof.
  refine (Forall2_impl _ _ _ _ (@battery_rise_never_cuts_the_hold canonical_iter riseTargets demoStore demoState
    (10 * Second) _) _).
  - apply Forall_cons_2; [|apply Forall_nil_2]. split; [apply of_Z_wf|].
    replace (riseBase _ _ _ _) with (of_Z (-1000)) by (vm_compute; reflexivity). apply of_Z_wf.
  - intros t t' (D & _). exact D.
Defined.
