(* ===== verification/EvHeadroom.v ===== *)
(** * Battery charge beside a waiting car
    (go/internal/control/ev_battery_headroom.go and the part of
    ev_fuse_budget.go it reads)

    What the site reading surely shows of the chargers, the draw of a car
    found charging, and the cap that keeps optional battery charge out of the
    room a car still needs. *)
From Stdlib Require Import ZArith Lia.
From S2P Require Import Prelude Float64 GoTime Json Kalman Health Telemetry Observations Limits CommandLog Site.
From S2P Require Import ImportHour PhaseFuse FuseHeat ControlState FuseRelief FuseGuard.
From stdpp Require Import base gmap strings list sorting.
#[local] Open Scope Z_scope.

Definition evMeterDelay : Duration := Second.

Section Draw.
Context `{MapIter}.

(** A reading whose power sample is current. *)
Definition qualifiedFuseObservation (r : option DerReading) (now : Time) : option ControlObservation :=
  match r with
  | None => None
  | Some r =>
      if negb (finite (RawW r)) || After (UpdatedAt r) now ||
         (ControlPowerMaxAge (Data r) <? Sub now (UpdatedAt r))
      then None
      else
        match ControlPowerObservation (RawW r) (Data r) (UpdatedAt r) with
        | None => None
        | Some p =>
            if negb (After (Seen p) now) && (Sub now (Seen p) <=? ControlWindowDuration) then Some p else None
        end
  end.

Definition readEVDraw (store : Store) (driver : string) (at' : Time) : option evDraw :=
  let '(lowerW, isLive) := OnlineLowerW driver DerEV store in
  if negb isLive then None
  else
    match Get driver DerEV store with
    | None => None
    | Some r =>
        match qualifiedFuseObservation (Some r) at' with
        | None => None
        | Some p =>
            let w := fmin (oPowerW p) lowerW in
            if finite w
            then Some (mkDraw (oAt p) (UpdatedAt r) (UpdatedAt r) (negb (IsZero (ConfirmedAt p))) w)
            else None
        end
    end.

(** [slices.DeleteFunc] of the samples older than the window, then the new
    one; the last sample of the same stamp takes it in instead. *)
Definition noteDraw (store : Store) (at' : Time) (c : chargerOffers) : chargerOffers :=
  let withDraws ds w :=
    mkOffers (oLog c) (settle c) (declared c) (found c) (oDriver c) (CommandLog.maxW c) ds w (carPhases c) (carPhase c)
      (shownA c) (unsure c) (riseBaseA c) (riseFromA c) (riseSet c) in
  if negb (foundOpen c at') || String.eqb (oDriver c) "" then withDraws [] zeroTime
  else
    match readEVDraw store (oDriver c) at' with
    | None => c
    | Some d =>
        let from := if IsZero (watchFrom c) then dGot d else watchFrom c in
        match last (draws c) with
        | Some e =>
            if negb (After (dAt d) (dAt e)) then
              withDraws (if Equal (dAt d) (dAt e)
                         then take (length (draws c) - 1) (draws c) ++ [mergeDraw e d] else draws c) from
            else withDraws (List.filter (fun e => Sub at' (dSeen e) <=? ControlWindowDuration) (draws c) ++ [d]) from
        | None => withDraws [d] from
        end
    end.

Definition siteConsumptionW (order : list string) (store : Store) (gridW : f64) : f64 :=
  fsub gridW (SumOnlineHigherW order [DerBattery; DerPV; DerV2X] store).

(** One charger's offers the reading surely shows. *)
Definition shownOf (at' : Time) (c : chargerOffers) : option f64 :=
  match last (oLog c) with
  | None => None
  | Some o => Some (fmax (of_Z 0) (fsub (cw o) (fst (unshown (oLog c) at' (batterySettle c)))))
  end.
Definition evShownW (st : State) (at' : Time) : f64 :=
  sumSome (fun x => shownOf at' (snd x)) (map_iter (offers (evLimit st))).

(** The sample in force: the present one, with every repeat of it. *)
Definition mergedDraw (c : chargerOffers) (now : evDraw) : evDraw :=
  fold_left (fun now d => if Equal (dAt d) (dAt now) then mergeDraw d now else now) (draws c) now.

Definition foundOf (st : State) (store : Store) (edge from at' : Time) (c : chargerOffers) : option f64 :=
  match last (oLog c) with
  | None => None
  | Some o =>
      if negb (foundOpen c at') || String.eqb (oDriver c) "" || negb (flt (of_Z 0) (CommandLog.maxW c)) ||
         negb (finite (CommandLog.maxW c))
      then None
      else
        match readEVDraw store (oDriver c) at' with
        | None => None
        | Some now =>
            let now := mergedDraw c now in
            if Before (dSeen now) from then None
            else
              let '(drawW, before) :=
                fold_left (fun '(w, b) d =>
                    if Before (dSeen d) from then (w, b) else (fmin w (dW d), b || arrivedBy c d edge))
                  (draws c) (dW now, arrivedBy c now edge) in
              if negb before then None
              else
                let unshownW := fst (unshown (oLog c) at' (batterySettle c)) in
                let latest := cw o in
                let capW := fmax (CommandLog.maxW c) (siteFuseMaxW (site st)) in
                let inLatestW := fmin latest (fsub drawW (fmax (of_Z 0) (fsub capW latest))) in
                Some (fmax (of_Z 0) (fsub inLatestW (fmax (of_Z 0) (fsub latest unshownW))))
        end
  end.

Definition evFoundDrawW (order : list string) (st : State) (store : Store) (gridW : f64) (meterAt at' : Time)
    (shownW : f64) : f64 :=
  let consumptionW := siteConsumptionW order store gridW in
  if negb (finite consumptionW) then of_Z 0
  else
    let skew := wrap64 (ControlIntervalS (site st) * Second) in
    let skew := if skew <=? 0 then 2 * Second else skew in
    let edge := GoTime.Add meterAt (- evMeterDelay) in
    let from := GoTime.Add edge (- skew) in
    let w := sumSome (fun x => foundOf st store edge from at' (snd x)) (map_iter (offers (evLimit st))) in
    fmax (of_Z 0) (fmin w (fsub consumptionW shownW)).
End Draw.

(** Whether a battery's state of charge is known at all. *)
Definition hasSoC (store : Store) (driver : string) : bool :=
  match Get driver DerBattery store with
  | Some r => match SoC r with Some _ => true | None => false end
  | None => false
  end.

(** ** The cap on optional charge *)
Definition floorPositive (t : DispatchTarget) : DispatchTarget :=
  if flt (of_Z 0) (TargetW t) then setW (of_Z 0) t else t.
Definition floorPositiveEVBatteryTargets (targets : list DispatchTarget) : list DispatchTarget :=
  floorPositive <$> targets.

(** A battery's latest order and the lowest one it may keep, 0 where the code
    has no entry. *)
Definition lostW (latest : gmap string f64) (t : DispatchTarget) : f64 :=
  fmax (of_Z 0) (fsub (fmin (of_Z 0) (TargetW t)) (fmin (of_Z 0) (atZero latest (tDriver t)))).
Definition holdOf (latest : gmap string f64) (t : DispatchTarget) : f64 :=
  if flt (of_Z 0) (TargetW t) then fmin (TargetW t) (fmax (of_Z 0) (atZero latest (tDriver t))) else of_Z 0.

Record capSums : Type := mkSums { csSpare : f64; csLost : f64; csHold : f64; csIncrease : f64 }.
Definition capStep (latest : gmap string f64) (s : capSums) (t : DispatchTarget) : capSums :=
  let lost := lostW latest t in
  let s := mkSums (fsub (csSpare s) lost) (fadd (csLost s) lost) (csHold s) (csIncrease s) in
  if flt (of_Z 0) (TargetW t)
  then mkSums (csSpare s) (csLost s) (fadd (csHold s) (holdOf latest t))
         (fadd (csIncrease s) (fsub (TargetW t) (holdOf latest t)))
  else s.

Definition capOne (latest : gmap string f64) (holdScale increaseScale : f64) (t : DispatchTarget) : DispatchTarget :=
  if fle (TargetW t) (of_Z 0) then t
  else
    let h := holdOf latest t in
    let capped := fadd (fmul h holdScale) (fmul (fsub (TargetW t) h) increaseScale) in
    if flt capped (TargetW t) then setW capped t else t.

Definition keepable (latest lowest : gmap string f64) (t : DispatchTarget) : f64 :=
  let last := atZero latest (tDriver t) in
  if flt last (of_Z 0)
  then fmax (of_Z 0) (fsub (fmin (of_Z 0) (TargetW t)) (fmax last (atZero lowest (tDriver t))))
  else of_Z 0.

Definition keepOne (latest lowest : gmap string f64) (share : f64) (t : DispatchTarget) : DispatchTarget :=
  let k := keepable latest lowest t in
  if flt (of_Z 0) k then setW (fsub (fmin (of_Z 0) (TargetW t)) (fmul k share)) t else t.

Definition keepEndingDischarge (out : list DispatchTarget) (latest lowest : gmap string f64) (shortW : f64)
  : list DispatchTarget :=
  let keepW := fold_left (fun w t =>
      if flt (atZero latest (tDriver t)) (of_Z 0) then fadd w (keepable latest lowest t) else w) out (of_Z 0) in
  if negb (flt (of_Z 0) shortW) || fle keepW (of_Z 0) then out
  else keepOne latest lowest (fmin (of_Z 1) (fdiv shortW keepW)) <$> out.

Definition holdScaleOf (spare holdW : f64) : f64 :=
  if flt spare (of_Z 0) && flt (of_Z 0) holdW then fmax (of_Z 0) (fadd (of_Z 1) (fdiv spare holdW)) else of_Z 1.
Definition increaseScaleOf (spare pendingW increaseW : f64) : f64 :=
  let room := fsub spare pendingW in
  if flt (of_Z 0) room && flt (of_Z 0) increaseW then fmin (of_Z 1) (fdiv room increaseW) else of_Z 0.

Definition capBatteryCharge (targets : list DispatchTarget) (latest lowest : gmap string f64)
    (pendingW spare releaseSpare : f64) : list DispatchTarget :=
  if negb (finite spare) || negb (finite pendingW) then floorPositiveEVBatteryTargets targets
  else
    let s := fold_left (capStep latest) targets (mkSums spare (of_Z 0) (of_Z 0) (of_Z 0)) in
    let holdScale := holdScaleOf (csSpare s) (csHold s) in
    let increaseScale := increaseScaleOf (csSpare s) pendingW (csIncrease s) in
    let out := capOne latest holdScale increaseScale <$> targets in
    let shortW := fsub (fsub (fadd (csLost s) pendingW) releaseSpare)
                    (fmul (csHold s) (fsub (of_Z 1) holdScale)) in
    keepEndingDischarge out latest lowest shortW.

(** [(spare, true)], or [None] where the meter has no phase currents. *)
Definition evBatteryPhaseSpareW (meter : DerReading) (s : Site) (gridW evIncreaseA : f64) : option f64 :=
  let '(worst, isPresent, isValid) := worstPhaseA meter s gridW in
  if negb isPresent then None
  else if negb isValid then Some (Inf true)
  else Some (fmul (fmul (fsub (fsub (fuseLineA s) worst) evIncreaseA) (SiteFuseVoltage s)) (of_Z (SiteFusePhases s))).

(** ** The stage *)
Section Clamp.
Context `{MapIter}.
Variable zone : Time -> Duration.

Definition latestOf (st : State) (now : Time) (driver : string) : f64 :=
  match span (logOfDriver (batteryCommands (sentTo st)) driver) now with
  | Some s => spLatest s
  | None => fneg (dischargeCap (limitsOf (DriverLimits (site st)) driver))
  end.
Definition lowestOf (store : Store) (st : State) (now : Time) (driver : string) : option f64 :=
  match span (logOfDriver (batteryCommands (sentTo st)) driver) now with
  | Some _ =>
      match Get driver DerBattery store with
      | Some r => Some (fst (fuseTargetBounds r (limitsOf (DriverLimits (site st)) driver)))
      | None => None
      end
  | None => None
  end.
Definition latestMap (st : State) (now : Time) (targets : list DispatchTarget) : gmap string f64 :=
  fold_left (fun m t => <[tDriver t := latestOf st now (tDriver t)]> m) targets ∅.
Definition lowestMap (store : Store) (st : State) (now : Time) (targets : list DispatchTarget) : gmap string f64 :=
  fold_left (fun m t => match lowestOf store st now (tDriver t) with
                        | Some w => <[tDriver t := w]> m | None => m end) targets ∅.

Definition tighten (spare : f64) (phase : option f64) : f64 :=
  match phase with Some p => fmin spare p | None => spare end.

(** [(spare, releaseSpare)]. *)
Definition evSpareW (meter : DerReading) (st : State) (now : Time) (fuseMaxW gridW needW riseW phases : f64)
  : f64 * f64 :=
  let ceilingW := fsub (importRiseCeilingW zone (site st) now (importHour st) fuseMaxW) gridW in
  let spare := fsub ceilingW needW in
  let releaseSpare := fsub ceilingW riseW in
  if fle (fneg (effExportW st fuseMaxW)) gridW && flt (of_Z 0) (SiteFuseVoltage (site st))
  then
    let perA := fmul (SiteFuseVoltage (site st)) phases in
    (tighten spare (evBatteryPhaseSpareW meter (site st) gridW (fdiv needW perA)),
     tighten releaseSpare (evBatteryPhaseSpareW meter (site st) gridW (fdiv riseW perA)))
  else (spare, releaseSpare).

Definition positiveSum (ts : list DispatchTarget) : f64 :=
  fold_left (fun w t => fadd w (fmax (of_Z 0) (TargetW t))) ts (of_Z 0).

(** Charge that measured export needs is put back, up to what was asked. *)
Definition restoreOne (scale : f64) (t o : DispatchTarget) : DispatchTarget :=
  if flt (TargetW o) (TargetW t) && flt (of_Z 0) (TargetW t)
  then mkTarget (tDriver o) (fadd (TargetW o) (fmul (fsub (TargetW t) (TargetW o)) scale)) (Clamped o) else o.
Definition restoreExportCharge (st : State) (fuseMaxW gridW : f64) (targets out : list DispatchTarget)
  : list DispatchTarget :=
  let offeredCharge := positiveSum targets in
  let finalCharge := positiveSum out in
  let exportFloor :=
    fmin offeredCharge (fmax (of_Z 0) (fsub (fneg gridW) (effExportW st fuseMaxW))) in
  if flt finalCharge exportFloor && flt finalCharge offeredCharge
  then zip_with (restoreOne (fdiv (fsub exportFloor finalCharge) (fsub offeredCharge finalCharge))) targets out
  else out.

Definition clampEVBatteryHeadroom (order : list string) (targets : list DispatchTarget) (store : Store)
    (st : State) (now : Time) (fuseMaxW : f64) : list DispatchTarget :=
  if (length targets =? 0)%nat || fle fuseMaxW (of_Z 0) then targets
  else if (length (evFuseDemands (site st)) =? 0)%nat then targets
  else
    let demandW := sumF (powerW <$> evFuseDemands (site st)) in
    let phases := if existsb (fun d => negb (String.eqb (phaseMode d) "3p")) (evFuseDemands (site st))
                  then of_Z 1 else of_Z 3 in
    match Get (SiteMeterDriver (site st)) DerMeter store with
    | None => floorPositiveEVBatteryTargets targets
    | Some meter =>
        let gridW := RawW meter in
        if negb (finite gridW) || negb (finite fuseMaxW) then floorPositiveEVBatteryTargets targets
        else
          let shown := evShownW st now in
          let offeredW := fadd shown (evFoundDrawW order st store gridW (UpdatedAt meter) now shown) in
          let needW := fmax (of_Z 0) (fsub demandW offeredW) in
          if negb (bool_decide (NoDup (tDriver <$> targets))) then floorPositiveEVBatteryTargets targets
          else
            let latest := latestMap st now targets in
            let lowest := lowestMap store st now targets in
            let riseW := fmax (of_Z 0) (fsub (EVCommandedW (site st)) offeredW) in
            let '(spare, releaseSpare) := evSpareW meter st now fuseMaxW gridW needW riseW phases in
            let out := capBatteryCharge targets latest lowest (pendingBatteryCommandsW now st) spare releaseSpare in
            restoreExportCharge st fuseMaxW gridW targets out
    end.
End Clamp.

(** ** Lemmas: no discharge is made up *)
Lemma fmin_left_cases t x : flt (of_Z 0) t = true -> fmin t x = NaN \/ fmin t x = t \/ flt (fmin t x) t = true.
Proof.
  intros P. destruct (pos_cases _ P) as [->|(z & -> & Hz)]; destruct x as [|[]|y]; auto.
  cbn [fmin]. destruct (flt (Fin z) (Fin y)) eqn:E; [auto|]. apply flt_false in E; try discriminate.
  destruct (Z.eq_dec y z) as [->|D]; [auto|]. right. right. rewrite flt_fin by reflexivity. cbn [val].
  apply Z.ltb_lt. unfold le_rel in E. cbn in E. lia.
Qed.
Lemma fsub_self_notNeg t : notNeg (fsub t t).
Proof.
  unfold fsub. destruct t as [|[]|z]; try reflexivity. unfold fadd. cbn [fneg]. apply notNeg_rnd; lia.
Qed.
Lemma fsub_min_notNeg t x : flt (of_Z 0) t = true -> notNeg (fsub t (fmin t x)).
Proof.
  intros P. destruct (fmin_left_cases t x P) as [->|[->|L]].
  - destruct t; reflexivity.
  - apply fsub_self_notNeg.
  - now apply fsub_notNeg.
Qed.

Lemma holdOf_notNeg latest t : notNeg (holdOf latest t).
Proof.
  unfold holdOf. destruct (flt (of_Z 0) (TargetW t)) eqn:P; [|exact notNeg_0].
  apply notNeg_min; [now apply notNeg_pos|apply notNeg_max0].
Qed.
Lemma notNeg_1 : notNeg (of_Z 1).
Proof. apply notNeg_pos. exact flt_0_1. Qed.
Lemma holdScaleOf_notNeg spare holdW : notNeg (holdScaleOf spare holdW).
Proof. unfold holdScaleOf. destruct (_ && _); [apply notNeg_max0|exact notNeg_1]. Qed.
Lemma increaseScaleOf_notNeg spare pendingW increaseW : notNeg (increaseScaleOf spare pendingW increaseW).
Proof.
  unfold increaseScaleOf. cbv zeta. destruct (flt (of_Z 0) (fsub spare pendingW)) eqn:R; [|exact notNeg_0].
  destruct (flt (of_Z 0) increaseW) eqn:I; [|exact notNeg_0].
  apply notNeg_min; [exact notNeg_1|]. now apply notNeg_div; [apply notNeg_pos|].
Qed.

Lemma capOne_notNeg latest hs is_ t : notNeg hs -> notNeg is_ -> notNeg (TargetW t) -> notNeg (TargetW (capOne latest hs is_ t)).
Proof.
  intros Hh Hi Ht. unfold capOne. destruct (fle (TargetW t) (of_Z 0)) eqn:E; [exact Ht|]. cbv zeta.
  destruct (flt _ (TargetW t)); [|exact Ht]. cbn [TargetW setW].
  apply notNeg_add; apply notNeg_mul; auto; [apply holdOf_notNeg|].
  unfold holdOf. destruct (flt (of_Z 0) (TargetW t)) eqn:P; [now apply fsub_min_notNeg|].
  destruct (isNaN (TargetW t)) eqn:N; [destruct (TargetW t); try discriminate; reflexivity|].
  apply isNaN_false_iff in N. pose proof (fle_false_flt _ _ E N (of_Z_nn 0 ltac:(lia))). congruence.
Qed.

(** A battery that may not discharge keeps none of one. *)
Lemma keepable_none latest lowest t : notNeg (TargetW t) -> atZero lowest (tDriver t) = of_Z 0 ->
  flt (of_Z 0) (keepable latest lowest t) = false.
Proof.
  intros Ht El. unfold keepable. cbv zeta. destruct (flt (atZero latest (tDriver t)) (of_Z 0)) eqn:L;
    [|vm_compute; reflexivity].
  rewrite El. assert (M : fmax (atZero latest (tDriver t)) (of_Z 0) = of_Z 0) by (apply fmax_r; now apply flt_le).
  rewrite M. rewrite of_Z_0. apply notNeg_cases in Ht as [->|[->|(z & -> & Hz)]]; [reflexivity|reflexivity|].
  assert (E : fmin (Fin 0) (Fin z) = Fin 0) by (apply fmin_l; unfold le_rel; cbn; lia). rewrite E. reflexivity.
Qed.

Lemma keepOne_notNeg latest lowest share t : notNeg (TargetW t) -> atZero lowest (tDriver t) = of_Z 0 ->
  notNeg (TargetW (keepOne latest lowest share t)).
Proof. intros Ht El. unfold keepOne. cbv zeta. now rewrite (keepable_none latest lowest t Ht El). Qed.

Lemma floorPositive_notNeg t : notNeg (TargetW t) -> notNeg (TargetW (floorPositive t)).
Proof. intros Ht. unfold floorPositive. destruct (flt _ _); [exact notNeg_0|exact Ht]. Qed.

Lemma fsub_pos x y : flt y x = true -> rank x <> 2 -> flt (of_Z 0) (fsub x y) = true.
Proof.
  rewrite of_Z_0. unfold fsub. destruct x as [|[]|a], y as [|[]|b]; try discriminate; try reflexivity; intros L _.
  rewrite flt_fin in L by reflexivity. cbn [val] in L. apply Z.ltb_lt in L. unfold fadd. cbn [fneg].
  pose proof (rnd_mono 1 1 (a + - b) 1 ltac:(lia) ltac:(lia) ltac:(lia)) as M.
  refine (flt_le_trans _ _ _ _ M). vm_compute. reflexivity.
Qed.

Lemma restoreOne_notNeg scale t o : notNeg scale -> notNeg (TargetW o) -> notNeg (TargetW (restoreOne scale t o)).
Proof.
  intros Hs Ho. unfold restoreOne. destruct (flt (TargetW o) (TargetW t)) eqn:L; [|exact Ho].
  destruct (flt (of_Z 0) (TargetW t)); [|exact Ho]. cbn [andb TargetW].
  apply notNeg_add; [exact Ho|]. apply notNeg_mul; [now apply fsub_notNeg|exact Hs].
Qed.

(** What a stage may do to a battery of unknown energy: the same battery, and
    no discharge it did not have. *)
Definition noNewDischarge (store : Store) (t o : DispatchTarget) : Prop :=
  tDriver o = tDriver t /\ (hasSoC store (tDriver t) = false -> notNeg (TargetW t) -> notNeg (TargetW o)).

Lemma noNewDischarge_refl store ts : Forall2 (noNewDischarge store) ts ts.
Proof. apply Forall_Forall2_diag, Forall_true. intros t. split; auto. Qed.
Lemma noNewDischarge_trans store a b c :
  Forall2 (noNewDischarge store) a b -> Forall2 (noNewDischarge store) b c -> Forall2 (noNewDischarge store) a c.
Proof.
  intros F. revert c. induction F as [|x y a b [D1 N1] F IH]; intros c G; inversion_clear G as [|? z ? c' [D2 N2] G']; constructor.
  - split; [congruence|]. intros S N. apply N2; [now rewrite D1|auto].
  - now apply IH.
Qed.
Lemma noNewDischarge_map store f ts : (forall t, noNewDischarge store t (f t)) -> Forall2 (noNewDischarge store) ts (f <$> ts).
Proof. intros Hf. apply Forall2_fmap_r, Forall_Forall2_diag, Forall_true. exact Hf. Qed.

Section Lemmas.
Context `{MapIter}.
Variable zone : Time -> Duration.

Lemma lowestMap_no_soc store st now targets driver : hasSoC store driver = false ->
  atZero (lowestMap store st now targets) driver = of_Z 0.
Proof.
  intros N. assert (L : forall w, lowestOf store st now driver = Some w -> w = of_Z 0).
  { unfold lowestOf. intros w. destruct (span _ now); [|discriminate]. unfold hasSoC in N.
    destruct (Get driver DerBattery store) as [r|]; [|discriminate]. intros [= <-]. apply bounds_no_soc.
    now destruct (SoC r). }
  unfold lowestMap. assert (G : forall m : gmap string f64, atZero m driver = of_Z 0 ->
    atZero (fold_left (fun m t => match lowestOf store st now (tDriver t) with
      | Some w => <[tDriver t := w]> m | None => m end) targets m) driver = of_Z 0).
  { induction targets as [|t l IH]; intros m Hm; [exact Hm|]. cbn [fold_left]. apply IH.
    destruct (lowestOf store st now (tDriver t)) as [w|] eqn:E; [|exact Hm]. unfold atZero.
    destruct (decide (tDriver t = driver)) as [D|D].
    - rewrite D in *. rewrite lookup_insert_eq. exact (L w E).
    - rewrite lookup_insert_ne by exact D. exact Hm. }
  apply G. unfold atZero. now rewrite lookup_empty.
Qed.

Lemma floorPositive_noNew store ts : Forall2 (noNewDischarge store) ts (floorPositiveEVBatteryTargets ts).
Proof.
  apply noNewDischarge_map. intros t. split; [|intros _; apply floorPositive_notNeg].
  unfold floorPositive. now destruct (flt _ _).
Qed.

Lemma capBatteryCharge_noNew store st now ts latest pendingW spare releaseSpare :
  Forall2 (noNewDischarge store) ts
    (capBatteryCharge ts latest (lowestMap store st now ts) pendingW spare releaseSpare).
Proof.
  unfold capBatteryCharge. destruct (_ || _); [apply floorPositive_noNew|]. cbv zeta.
  set (s := fold_left _ ts _). clearbody s. set (low := lowestMap store st now ts).
  eapply noNewDischarge_trans.
  - apply noNewDischarge_map with (f := capOne latest (holdScaleOf (csSpare s) (csHold s))
      (increaseScaleOf (csSpare s) pendingW (csIncrease s))).
    intros t. split; [unfold capOne; cbv zeta; repeat case_match; reflexivity|]. intros _ N.
    apply capOne_notNeg; [apply holdScaleOf_notNeg|apply increaseScaleOf_notNeg|exact N].
  - unfold keepEndingDischarge. destruct (_ || _); [apply noNewDischarge_refl|].
    apply noNewDischarge_map. intros t. split; [unfold keepOne; cbv zeta; now destruct (flt _ _)|]. intros S N.
    apply keepOne_notNeg; [exact N|]. now apply lowestMap_no_soc.
Qed.

Lemma restore_noNew store st fuseMaxW gridW ts out : Forall2 (noNewDischarge store) ts out ->
  Forall2 (noNewDischarge store) ts (restoreExportCharge st fuseMaxW gridW ts out).
Proof.
  intros F. unfold restoreExportCharge. cbv zeta.
  set (offered := positiveSum ts). set (final := positiveSum out). clearbody offered final.
  set (goal := fmin offered _). clearbody goal. destruct (flt final goal) eqn:L1; [|exact F].
  destruct (flt final offered) eqn:L2; [|exact F]. cbn [andb].
  assert (Hs : notNeg (fdiv (fsub goal final) (fsub offered final))).
  { apply notNeg_div; [now apply fsub_notNeg|]. apply fsub_pos; [exact L2|].
    exact (le_rel_nn_r _ _ (flt_le _ _ L2)). }
  set (scale := fdiv _ _) in *. clearbody scale. clear - F Hs.
  induction F as [|t o ts out [D N] F IH]; [constructor|]. constructor; [|exact IH]. split.
  - unfold restoreOne. destruct (_ && _); exact D.
  - intros S T. apply restoreOne_notNeg; [exact Hs|auto].
Qed.

Lemma clampEV_noNew order store st now fuseMaxW ts :
  Forall2 (noNewDischarge store) ts (clampEVBatteryHeadroom zone order ts store st now fuseMaxW).
Proof.
  unfold clampEVBatteryHeadroom. destruct (_ || _); [apply noNewDischarge_refl|].
  destruct (length (evFuseDemands _) =? 0)%nat; [apply noNewDischarge_refl|]. cbv zeta.
  destruct (Get _ DerMeter store) as [m|]; [|apply floorPositive_noNew].
  destruct (_ || _); [apply floorPositive_noNew|]. destruct (negb _); [apply floorPositive_noNew|].
  destruct (evSpareW _ _ _ _ _ _ _ _ _) as [spare release].
  apply restore_noNew, capBatteryCharge_noNew.
Qed.
End Lemmas.
