(* ===== verification/LoadpointData.v ===== *)
(** * Loadpoints: their data (go/internal/loadpoint: loadpoint.go, controller.go)

    A loadpoint's configuration, the site fuse, the snapshot of its state as
    far as the modelled code reads it, an operator's hold, the plan's
    directive and the command that goes to a charger's driver. *)
From Stdlib Require Import ZArith.
From S2P Require Import Prelude Float64 GoTime.
From stdpp Require Import base gmap strings list.
#[local] Open Scope Z_scope.

Record LPConfig : Type := mkConfig {
  cfID : string; cfDriver : string;
  cfMinChargeW : f64; cfMaxChargeW : f64; cfSteps : list f64;
  cfPhaseMode : string; cfPhaseSplitW : f64; cfMinPhaseHoldS : Z; cfSurplusOnly : bool
}.
Definition noConfig : LPConfig := mkConfig "" "" (of_Z 0) (of_Z 0) [] "" (of_Z 0) 0 false.
Definition withMinCharge (w : f64) (c : LPConfig) : LPConfig :=
  mkConfig (cfID c) (cfDriver c) w (cfMaxChargeW c) (cfSteps c) (cfPhaseMode c) (cfPhaseSplitW c)
    (cfMinPhaseHoldS c) (cfSurplusOnly c).
Definition withPhaseMode (m : string) (c : LPConfig) : LPConfig :=
  mkConfig (cfID c) (cfDriver c) (cfMinChargeW c) (cfMaxChargeW c) (cfSteps c) m (cfPhaseSplitW c)
    (cfMinPhaseHoldS c) (cfSurplusOnly c).

(** [SiteFuse], and its phases with their default. *)
Record SiteFuse : Type := mkFuse { fuseMaxA : f64; fuseVoltage : f64; fusePhaseCnt : Z }.
Definition Phases (s : SiteFuse) : Z := if fusePhaseCnt s <=? 0 then 3 else fusePhaseCnt s.
Definition PerPhaseMaxW (s : SiteFuse) : f64 :=
  fmul (fuseMaxA s) (if fle (fuseVoltage s) (of_Z 0) then of_Z 230 else fuseVoltage s).

(** The last order a loadpoint was given: the commanded fields of [State]. *)
Record lpOrder : Type := mkOrder {
  coKnown : bool; coW : f64; coPhases : Z; coReason : string; coSince : Time; coManualAt : Time
}.
Definition noOrder : lpOrder := mkOrder false (of_Z 0) 0 "" zeroTime zeroTime.

(** The fields of [State] the modelled code reads. *)
Record LPState : Type := mkLPState {
  lpID : string; lpDriver : string; lpPluggedIn : bool; lpCommanded : lpOrder;
  lpMinChargeW : f64; lpMaxChargeW : f64; lpSteps : list f64;
  lpCarPhases : Z; lpCarPhase : Z; lpCarMaxW : f64; lpCarChargeLimit : f64;
  lpCurrentSoC : f64; lpTargetSoC : f64; lpTargetTime : Time; lpCurrentPowerW : f64;
  lpVehicleCapacityWh : f64; lpChargingDeclined : bool; lpGoalComplete : bool;
  lpFinishAtVehicleLimit : bool; lpRecurring : bool; lpSurplusOnly : bool; lpManualActive : bool;
  lpVehicleSoC : f64; lpVehicleChargeLimit : f64
}.
Definition lpCommandedKnown (s : LPState) : bool := coKnown (lpCommanded s).
Definition lpCommandedW (s : LPState) : f64 := coW (lpCommanded s).
Definition lpCommandedPhases (s : LPState) : Z := coPhases (lpCommanded s).
Definition noLPState : LPState :=
  mkLPState "" "" false noOrder (of_Z 0) (of_Z 0) [] 0 0 (of_Z 0) (of_Z 0) (of_Z 0) (of_Z 0) zeroTime
    (of_Z 0) (of_Z 0) false false false false false false (of_Z 0) (of_Z 0).
(** A car on one phase as the planner's limits see it. *)
Definition withLimits (minW maxW : f64) (s : LPState) : LPState :=
  mkLPState (lpID s) (lpDriver s) (lpPluggedIn s) (lpCommanded s)
    minW maxW (lpSteps s) (lpCarPhases s) (lpCarPhase s) (lpCarMaxW s) (lpCarChargeLimit s) (lpCurrentSoC s)
    (lpTargetSoC s) (lpTargetTime s) (lpCurrentPowerW s) (lpVehicleCapacityWh s) (lpChargingDeclined s)
    (lpGoalComplete s) (lpFinishAtVehicleLimit s) (lpRecurring s) (lpSurplusOnly s) (lpManualActive s)
    (lpVehicleSoC s) (lpVehicleChargeLimit s).
Definition withOrder (o : lpOrder) (s : LPState) : LPState :=
  mkLPState (lpID s) (lpDriver s) (lpPluggedIn s) o
    (lpMinChargeW s) (lpMaxChargeW s) (lpSteps s) (lpCarPhases s) (lpCarPhase s) (lpCarMaxW s) (lpCarChargeLimit s)
    (lpCurrentSoC s) (lpTargetSoC s) (lpTargetTime s) (lpCurrentPowerW s) (lpVehicleCapacityWh s)
    (lpChargingDeclined s) (lpGoalComplete s) (lpFinishAtVehicleLimit s) (lpRecurring s) (lpSurplusOnly s)
    (lpManualActive s) (lpVehicleSoC s) (lpVehicleChargeLimit s).
Definition withVerdict (declined complete : bool) (targetSoC : f64) (s : LPState) : LPState :=
  mkLPState (lpID s) (lpDriver s) (lpPluggedIn s) (lpCommanded s)
    (lpMinChargeW s) (lpMaxChargeW s) (lpSteps s) (lpCarPhases s) (lpCarPhase s) (lpCarMaxW s) (lpCarChargeLimit s)
    (lpCurrentSoC s) targetSoC (lpTargetTime s) (lpCurrentPowerW s) (lpVehicleCapacityWh s)
    declined complete (lpFinishAtVehicleLimit s) (lpRecurring s) (lpSurplusOnly s)
    (lpManualActive s) (lpVehicleSoC s) (lpVehicleChargeLimit s).

(** [setCommandedForManual] at wall-clock time [wall], and [setCommandedPhases]. *)
Definition commandOrder (wall : Time) (w : f64) (reason : string) (updatedAt : Time) (o : lpOrder) : lpOrder :=
  let changed := negb (coKnown o) || fne (coW o) w ||
                 (negb (String.eqb reason "") && negb (String.eqb reason (coReason o))) in
  mkOrder true w (coPhases o) (if String.eqb reason "" then coReason o else reason)
    (if changed then wall else coSince o) updatedAt.
Definition setCommandedForManual (wall : Time) (id : string) (w : f64) (reason : string) (updatedAt : Time)
    (m : gmap string LPState) : gmap string LPState :=
  alter (fun s => withOrder (commandOrder wall w reason updatedAt (lpCommanded s)) s) id m.
Definition orderPhases (n : Z) (o : lpOrder) : lpOrder :=
  mkOrder (coKnown o) (coW o) n (coReason o) (coSince o) (coManualAt o).
Definition setCommandedPhases (id : string) (n : Z) (m : gmap string LPState) : gmap string LPState :=
  alter (fun s => withOrder (orderPhases n (lpCommanded s)) s) id m.

(** The fields of [EVSample] the modelled code reads, and [Schedule]. *)
Record EVSample : Type := mkSample {
  saConnectionUnknown : bool; saGeneration : Z; saPowerW : f64; saSessionWh : f64;
  saSessionWhUnavailable : bool; saPowerUnavailable : bool; saPowerAt : Time; saPowerMaxAge : Duration;
  saEnergyAt : Time; saConnected : bool; saRequestActive : bool; saDeviceID : string; saSessionID : string
}.
Definition noSample : EVSample :=
  mkSample false 0 (of_Z 0) (of_Z 0) false false zeroTime 0 zeroTime false false "" "".

(** [scClock] is the household clock in minutes once it is set, [scMinUTC] the
    ready time of older clients. *)
Record Schedule : Type := mkSchedule {
  scSoC : f64; scFinish : bool; scRecurring : bool; scUnlock : f64;
  scIntent : string; scFirstMS : Z; scMinUTC : Z; scDays : Z; scClock : option Z
}.
Definition noSchedule : Schedule := mkSchedule (of_Z 0) false false (of_Z 0) "" 0 0 0 None.
Definition withClock (c : option Z) (s : Schedule) : Schedule :=
  mkSchedule (scSoC s) (scFinish s) (scRecurring s) (scUnlock s) (scIntent s) (scFirstMS s) (scMinUTC s) (scDays s) c.
Definition withFractions (soc unlock : f64) (s : Schedule) : Schedule :=
  mkSchedule soc (scFinish s) (scRecurring s) unlock (scIntent s) (scFirstMS s) (scMinUTC s) (scDays s) (scClock s).
Definition HasTarget (s : Schedule) : bool := flt (of_Z 0) (scSoC s) || scFinish s.

Record ManualHold : Type := mkManual {
  mlPowerW : f64; mlPhaseMode : string; mlPhaseSplitW : f64; mlMinPhaseHoldS : Z;
  mlVoltage : f64; mlMaxAmps : f64; mlSitePhases : Z;
  mlExpiresAt : Time; mlPersistent : bool; mlReleaseAtSoC : f64;
  mlStartedAt : Time; mlUpdatedAt : Time; mlSetBy : string
}.

Record Directive : Type := mkDirective {
  dSlotStart : Time; dSlotEnd : Time;
  dEnergyWh : gmap string f64; dMaxPowerW : gmap string f64; dFallback : gmap string bool
}.

(** The payload of [ev_set_current]; a key the code does not set is [None]. *)
Record Cmd : Type := mkCmd {
  kPowerW : option f64; kPhaseMode : option string; kPhaseSplitW : option f64; kMinPhaseHoldS : option Z;
  kVoltage : option f64; kMaxAmps : option f64; kSitePhases : option Z;
  kCapAmps : option f64; kExpectedW : option f64
}.
Definition noCmd : Cmd := mkCmd None None None None None None None None None.
Definition setPower (w : f64) (c : Cmd) : Cmd :=
  mkCmd (Some w) (kPhaseMode c) (kPhaseSplitW c) (kMinPhaseHoldS c) (kVoltage c) (kMaxAmps c) (kSitePhases c)
    (kCapAmps c) (kExpectedW c).
Definition setMode (m : string) (c : Cmd) : Cmd :=
  mkCmd (kPowerW c) (Some m) (kPhaseSplitW c) (kMinPhaseHoldS c) (kVoltage c) (kMaxAmps c) (kSitePhases c)
    (kCapAmps c) (kExpectedW c).
Definition setSplit (w : f64) (c : Cmd) : Cmd :=
  mkCmd (kPowerW c) (kPhaseMode c) (Some w) (kMinPhaseHoldS c) (kVoltage c) (kMaxAmps c) (kSitePhases c)
    (kCapAmps c) (kExpectedW c).
Definition setHoldS (s : Z) (c : Cmd) : Cmd :=
  mkCmd (kPowerW c) (kPhaseMode c) (kPhaseSplitW c) (Some s) (kVoltage c) (kMaxAmps c) (kSitePhases c)
    (kCapAmps c) (kExpectedW c).
Definition setVoltage (v : f64) (c : Cmd) : Cmd :=
  mkCmd (kPowerW c) (kPhaseMode c) (kPhaseSplitW c) (kMinPhaseHoldS c) (Some v) (kMaxAmps c) (kSitePhases c)
    (kCapAmps c) (kExpectedW c).
Definition setMaxAmps (a : f64) (c : Cmd) : Cmd :=
  mkCmd (kPowerW c) (kPhaseMode c) (kPhaseSplitW c) (kMinPhaseHoldS c) (kVoltage c) (Some a) (kSitePhases c)
    (kCapAmps c) (kExpectedW c).
Definition setSitePhases (n : Z) (c : Cmd) : Cmd :=
  mkCmd (kPowerW c) (kPhaseMode c) (kPhaseSplitW c) (kMinPhaseHoldS c) (kVoltage c) (kMaxAmps c) (Some n)
    (kCapAmps c) (kExpectedW c).
Definition setCapAmps (a : f64) (c : Cmd) : Cmd :=
  mkCmd (kPowerW c) (kPhaseMode c) (kPhaseSplitW c) (kMinPhaseHoldS c) (kVoltage c) (kMaxAmps c) (kSitePhases c)
    (Some a) (kExpectedW c).
Definition setExpected (w : f64) (c : Cmd) : Cmd :=
  mkCmd (kPowerW c) (kPhaseMode c) (kPhaseSplitW c) (kMinPhaseHoldS c) (kVoltage c) (kMaxAmps c) (kSitePhases c)
    (kCapAmps c) (Some w).

(** [x, _ := cmd[key].(float64)]: zero when the key is not set. *)
Definition num (x : option f64) : f64 := default (of_Z 0) x.
Definition str (x : option string) : string := default ""%string x.
