(* ===== verification/BatteryBoost.v ===== *)
(** * Battery boost (go/internal/loadpoint/battery_boost.go)

    A lease lets the home battery cover a charger's draw for a while: its
    validation, the permission as it is granted, restored after a restart and
    withdrawn, the check of every tick, and what the leases allow in sum. The
    saver's rows and the calls of the stop hook are kept as they were made. *)
From Stdlib Require Import ZArith Lia.
From S2P Require Import Prelude Float64 GoTime Units LoadpointData.
From stdpp Require Import base gmap strings list.
#[local] Open Scope Z_scope.

Definition MaxBatteryBoostDuration : Duration := 4 * Hour.
Definition MinBatteryBoostDuration : Duration := Minute.

Definition BatteryBoostStopReason : Type := string.
Definition BatteryBoostStoppedCancelled : BatteryBoostStopReason := "cancelled".
Definition BatteryBoostStoppedExpired : BatteryBoostStopReason := "expired".
Definition BatteryBoostStoppedVehicleUnplugged : BatteryBoostStopReason := "vehicle_unplugged".
Definition BatteryBoostStoppedEVTargetReached : BatteryBoostStopReason := "ev_target_reached".
Definition BatteryBoostStoppedDepartureReached : BatteryBoostStopReason := "departure_reached".
Definition BatteryBoostStoppedSurplusOnly : BatteryBoostStopReason := "surplus_only".
Definition BatteryBoostStoppedSiteSafety : BatteryBoostStopReason := "site_safety_block".
Definition BatteryBoostStoppedRestartInvalid : BatteryBoostStopReason := "restart_lease_invalid".

Record BatteryBoostLease : Type := mkLease {
  blStartedAt : Time; blExpiresAt : Time; blMinBatterySoC : f64; blEVTargetSoC : f64; blDepartureAt : Time
}.
Definition noLease : BatteryBoostLease := mkLease zeroTime zeroTime (of_Z 0) (of_Z 0) zeroTime.
(** [UnmarshalJSON], after the decoding: a row may carry the old percentages. *)
Definition readLease (l : BatteryBoostLease) (minPct targetPct : option f64) : BatteryBoostLease :=
  let older v pct := match pct with Some p => if feq v (of_Z 0) then p else v | None => v end in
  let fraction v := ClampFraction (FractionFromLegacyPercent v) in
  mkLease (blStartedAt l) (blExpiresAt l) (fraction (older (blMinBatterySoC l) minPct))
    (fraction (older (blEVTargetSoC l) targetPct)) (blDepartureAt l).

Record BatteryBoostStatus : Type := mkStatus {
  bsState : string; bsActive : bool; bsStartedAtMs : Z; bsExpiresAtMs : Z; bsMinBatterySoC : f64; bsEVTargetSoC : f64;
  bsDepartureAtMs : Z; bsStopReason : BatteryBoostStopReason; bsStoppedAtMs : Z
}.
Definition noStatus : BatteryBoostStatus := mkStatus "" false 0 0 (of_Z 0) (of_Z 0) 0 "" 0.
Definition inactiveStatus : BatteryBoostStatus := mkStatus "inactive" false 0 0 (of_Z 0) (of_Z 0) 0 "" 0.

Inductive LeaseError : Type :=
| ErrTimesRequired | ErrStartInFuture | ErrExpired | ErrTooShort | ErrTooLong | ErrRemainsTooLong | ErrMinSoC | ErrTargetSoC
| ErrDeparturePast | ErrDepartureAfterExpiry.
Definition ValidateBatteryBoostLease (l : BatteryBoostLease) (now : Time) : option LeaseError :=
  let length := Sub (blExpiresAt l) (blStartedAt l) in
  if IsZero (blStartedAt l) || IsZero (blExpiresAt l) then Some ErrTimesRequired
  else if After (blStartedAt l) (GoTime.Add now Minute) then Some ErrStartInFuture
  else if negb (After (blExpiresAt l) now) then Some ErrExpired
  else if length <? MinBatteryBoostDuration then Some ErrTooShort
  else if MaxBatteryBoostDuration <? length then Some ErrTooLong
  else if MaxBatteryBoostDuration <? Sub (blExpiresAt l) now then Some ErrRemainsTooLong
  else if flt (blMinBatterySoC l) (lit 5 100) || flt (of_Z 1) (blMinBatterySoC l) then Some ErrMinSoC
  else if flt (blEVTargetSoC l) (of_Z 0) || flt (of_Z 1) (blEVTargetSoC l) then Some ErrTargetSoC
  else if negb (IsZero (blDepartureAt l)) then
    (if negb (After (blDepartureAt l) now) then Some ErrDeparturePast
     else if After (blDepartureAt l) (blExpiresAt l) then Some ErrDepartureAfterExpiry else None)
  else None.

Definition batteryBoostStatusFromLease (l : BatteryBoostLease) : BatteryBoostStatus :=
  mkStatus "active" true (UnixMilli (blStartedAt l)) (UnixMilli (blExpiresAt l)) (blMinBatterySoC l) (blEVTargetSoC l)
    (if negb (IsZero (blDepartureAt l)) then UnixMilli (blDepartureAt l) else 0) "" 0.
Definition stoppedStatus (reason : BatteryBoostStopReason) (now : Time) (startedMs expiresMs : Z) (s : BatteryBoostStatus) : BatteryBoostStatus :=
  mkStatus "stopped" false startedMs expiresMs (bsMinBatterySoC s) (bsEVTargetSoC s) (bsDepartureAtMs s) reason (UnixMilli now).

(** [boSaver]: the rows kept, when a saver is wired. [boStopped]: the stop
    hook's calls, the latest first. *)
Record Boosts : Type := mkBoosts {
  boLeases : gmap string BatteryBoostLease; boStatus : gmap string BatteryBoostStatus;
  boSaver : option (gmap string BatteryBoostLease); boStopped : list (string * BatteryBoostStopReason)
}.
Definition noBoosts (saver : option (gmap string BatteryBoostLease)) : Boosts := mkBoosts ∅ ∅ saver [].
(** What the rest of Core answers at a call: the loadpoint's state, and the
    safety evaluator when it is wired. *)
Record LiveSite : Type := mkLive {
  liState : option LPState; liSafety : option (string -> BatteryBoostLease -> BatteryBoostStopReason)
}.

(** The reason an enable or a restore is refused with. *)
Definition batteryBoostLivePreflight (live : LiveSite) (id : string) (l : BatteryBoostLease) (requireSafety : bool)
    : option BatteryBoostStopReason :=
  match liState live with
  | None => Some BatteryBoostStoppedRestartInvalid
  | Some st =>
      if negb (lpPluggedIn st) then Some BatteryBoostStoppedVehicleUnplugged
      else if lpSurplusOnly st then Some BatteryBoostStoppedSurplusOnly
      else
        match liSafety live with
        | None => if requireSafety then Some BatteryBoostStoppedRestartInvalid else None
        | Some safety => let reason := safety id l in if negb (String.eqb reason "") then Some reason else None
        end
  end.

Definition grant (id : string) (l : BatteryBoostLease) (c : Boosts) : Boosts :=
  mkBoosts (<[id := l]> (boLeases c)) (<[id := batteryBoostStatusFromLease l]> (boStatus c)) (boSaver c) (boStopped c).
(** The error of the validation, or the reason of the preflight. *)
Definition EnableBatteryBoost (live : LiveSite) (id : string) (l : BatteryBoostLease) (now : Time) (c : Boosts)
    : (LeaseError + BatteryBoostStopReason + BatteryBoostStatus) * Boosts :=
  match ValidateBatteryBoostLease l now with
  | Some e => (inl (inl e), c)
  | None =>
      match batteryBoostLivePreflight live id l false with
      | Some reason => (inl (inr reason), c)
      | None =>
          let c := grant id l c in
          (inr (batteryBoostStatusFromLease l),
           mkBoosts (boLeases c) (boStatus c) ((fun rows => <[id := l]> rows) <$> boSaver c) (boStopped c))
      end
  end.

Definition recordRejectedBatteryBoostRestore (id : string) (l : BatteryBoostLease) (reason : BatteryBoostStopReason) (now : Time)
    (c : Boosts) : Boosts :=
  let reason := if String.eqb reason "" then BatteryBoostStoppedRestartInvalid else reason in
  let s := batteryBoostStatusFromLease l in
  let s := stoppedStatus reason now (if IsZero (blStartedAt l) then 0 else bsStartedAtMs s)
             (if IsZero (blExpiresAt l) then 0 else bsExpiresAtMs s) s in
  mkBoosts (delete id (boLeases c)) (<[id := s]> (boStatus c)) (boSaver c) (boStopped c).
Definition RestoreBatteryBoost (live : LiveSite) (id : string) (l : BatteryBoostLease) (now : Time) (c : Boosts) : bool * Boosts :=
  match ValidateBatteryBoostLease l now with
  | Some _ => (false, recordRejectedBatteryBoostRestore id l BatteryBoostStoppedRestartInvalid now c)
  | None =>
      match batteryBoostLivePreflight live id l true with
      | Some reason => (false, recordRejectedBatteryBoostRestore id l reason now c)
      | None => (true, grant id l c)
      end
  end.

Definition stopBatteryBoost (id : string) (reason : BatteryBoostStopReason) (now : Time) (c : Boosts) : BatteryBoostStatus * Boosts :=
  let existed := match boLeases c !! id with Some _ => true | None => false end in
  let lease := default noLease (boLeases c !! id) in
  let status := default noStatus (boStatus c !! id) in
  let ends := existed || String.eqb (bsState status) "active" in
  let was := batteryBoostStatusFromLease lease in
  let status := if ends then stoppedStatus reason now (bsStartedAtMs was) (bsExpiresAtMs was) was else status in
  let c' := mkBoosts (delete id (boLeases c)) (if ends then <[id := status]> (boStatus c) else boStatus c)
              (if existed then delete id <$> boSaver c else boSaver c)
              (if existed then (id, reason) :: boStopped c else boStopped c) in
  (if negb existed && String.eqb (bsState status) "" then inactiveStatus else status, c').
Definition CancelBatteryBoost (id : string) (now : Time) (c : Boosts) : BatteryBoostStatus * Boosts :=
  stopBatteryBoost id BatteryBoostStoppedCancelled now c.

(** [BatteryBoost]: the lease and its status; one that is over ends here. *)
Definition BatteryBoost (id : string) (now : Time) (c : Boosts) : BatteryBoostLease * BatteryBoostStatus * Boosts :=
  match boLeases c !! id with
  | Some l =>
      if negb (Before now (blExpiresAt l)) then
        let '(status, c) := stopBatteryBoost id BatteryBoostStoppedExpired now c in (noLease, status, c)
      else (l, batteryBoostStatusFromLease l, c)
  | None =>
      let s := default noStatus (boStatus c !! id) in
      (noLease, if String.eqb (bsState s) "" then
                  mkStatus "inactive" (bsActive s) (bsStartedAtMs s) (bsExpiresAtMs s) (bsMinBatterySoC s) (bsEVTargetSoC s)
                    (bsDepartureAtMs s) (bsStopReason s) (bsStoppedAtMs s) else s, c)
  end.

(** The reason a tick ends an active lease with. *)
Definition tickReason (live : LiveSite) (id : string) (l : BatteryBoostLease) (now : Time) (connected dispatchAllowed : bool)
    : option BatteryBoostStopReason :=
  let owner :=
    match liState live with
    | Some st =>
        if lpSurplusOnly st then Some BatteryBoostStoppedSurplusOnly
        else if flt (of_Z 0) (blEVTargetSoC l) && fle (blEVTargetSoC l) (lpCurrentSoC st) then Some BatteryBoostStoppedEVTargetReached
        else None
    | None => None
    end in
  if negb connected then Some BatteryBoostStoppedVehicleUnplugged
  else if negb dispatchAllowed then Some BatteryBoostStoppedSiteSafety
  else
    match owner with
    | Some reason => Some reason
    | None =>
        if negb (IsZero (blDepartureAt l)) && negb (Before now (blDepartureAt l)) then Some BatteryBoostStoppedDepartureReached
        else
          match liSafety live with
          | Some safety => let reason := safety id l in if negb (String.eqb reason "") then Some reason else None
          | None => None
          end
    end.
Definition evaluateBatteryBoost (live : LiveSite) (id : string) (now : Time) (connected dispatchAllowed : bool) (c : Boosts) : Boosts :=
  let '(l, status, c) := BatteryBoost id now c in
  if negb (bsActive status) then c
  else
    match tickReason live id l now connected dispatchAllowed with
    | Some reason => snd (stopBatteryBoost id reason now c)
    | None => c
    end.

(** The watts the leases cover and the strictest reserve. *)
Definition totalStep (now : Time) (acc : f64 * f64 * Boosts) (st : LPState) : f64 * f64 * Boosts :=
  let '(powerW, reserve, c) := acc in
  let '(l, status, c) := BatteryBoost (lpID st) now c in
  if negb (bsActive status) || negb (lpPluggedIn st) || lpSurplusOnly st then (powerW, reserve, c)
  else (if flt (of_Z 0) (lpCurrentPowerW st) then fadd powerW (lpCurrentPowerW st) else powerW,
        if flt reserve (blMinBatterySoC l) then blMinBatterySoC l else reserve, c).
Definition ActiveBatteryBoostTotals (states : list LPState) (now : Time) (c : Boosts) : f64 * f64 * Boosts :=
  fold_left (totalStep now) states (of_Z 0, of_Z 0, c).

(** ** Histories *)
Inductive BoostOp : Type :=
| Enabled (live : LiveSite) (id : string) (l : BatteryBoostLease) (now : Time)
| Restored (live : LiveSite) (id : string) (l : BatteryBoostLease) (now : Time)
| Cancelled (id : string) (now : Time)
| Looked (id : string) (now : Time)
| Ticked (live : LiveSite) (id : string) (now : Time) (connected dispatchAllowed : bool)
| Summed (states : list LPState) (now : Time).
Definition boostStep (c : Boosts) (op : BoostOp) : Boosts :=
  match op with
  | Enabled live id l now => snd (EnableBatteryBoost live id l now c)
  | Restored live id l now => snd (RestoreBatteryBoost live id l now c)
  | Cancelled id now => snd (CancelBatteryBoost id now c)
  | Looked id now => snd (BatteryBoost id now c)
  | Ticked live id now connected allowed => evaluateBatteryBoost live id now connected allowed c
  | Summed states now => snd (ActiveBatteryBoostTotals states now c)
  end.
Definition boostRun (ops : list BoostOp) (c : Boosts) : Boosts := fold_left boostStep ops c.
(** The history grants this lease at [t], live on a plugged car. *)
Definition grantedAt (ops : list BoostOp) (id : string) (l : BatteryBoostLease) (t : Time) : Prop :=
  ValidateBatteryBoostLease l t = None /\
  exists live, (Enabled live id l t ∈ ops \/ Restored live id l t ∈ ops) /\
    exists st, liState live = Some st /\ lpPluggedIn st = true /\ lpSurplusOnly st = false.

(** ** Lemmas: where a lease comes from *)
Lemma lease_bounds l t : ValidateBatteryBoostLease l t = None ->
  blExpiresAt l <= t + MaxBatteryBoostDuration /\ blExpiresAt l <= blStartedAt l + MaxBatteryBoostDuration /\
  flt (blMinBatterySoC l) (lit 5 100) = false /\ (blDepartureAt l <> zeroTime -> blDepartureAt l <= blExpiresAt l).
Proof.
  unfold ValidateBatteryBoostLease. cbv zeta. destruct (IsZero (blStartedAt l) || _); [discriminate|].
  destruct (After (blStartedAt l) _); [discriminate|]. destruct (negb (After (blExpiresAt l) t)); [discriminate|].
  destruct (_ <? MinBatteryBoostDuration); [discriminate|].
  destruct (MaxBatteryBoostDuration <? Sub (blExpiresAt l) (blStartedAt l)) eqn:L; [discriminate|].
  destruct (MaxBatteryBoostDuration <? Sub (blExpiresAt l) t) eqn:R; [discriminate|].
  destruct (flt (blMinBatterySoC l) (lit 5 100)) eqn:M; [intros E; discriminate E|].
  rewrite Sub_gt in L, R by (unfold min_int64, max_int64, MaxBatteryBoostDuration, Hour, Minute, Second; lia).
  intros H. split; [lia|]. split; [lia|]. split; [reflexivity|]. intros D.
  destruct (flt (of_Z 1) _) in H; [discriminate|]. destruct (flt (blEVTargetSoC l) _ || _) in H; [discriminate|]. cbn [orb] in H.
  unfold IsZero in H. rewrite (proj2 (Z.eqb_neq (blDepartureAt l) 0) D) in H. cbn [negb] in H.
  destruct (negb (After (blDepartureAt l) t)); [discriminate|]. destruct (After (blDepartureAt l) _) eqn:A; [discriminate|].
  unfold After in A. lia.
Qed.

(** Every lease was granted, and only a lease is active. *)
Definition sound (ops : list BoostOp) (c : Boosts) : Prop :=
  (forall id l, boLeases c !! id = Some l -> exists t, grantedAt ops id l t) /\
  (forall id s, boStatus c !! id = Some s -> bsActive s = true -> is_Some (boLeases c !! id)).

Lemma granted_more ops ops' id l t : grantedAt ops id l t -> grantedAt (ops ++ ops') id l t.
Proof.
  intros [V (live & O & S)]. split; [exact V|]. exists live. split; [|exact S].
  destruct O as [O|O]; [left|right]; apply elem_of_app; now left.
Qed.
Lemma sound_more ops ops' c : sound ops c -> sound (ops ++ ops') c.
Proof. intros [A B]. split; [|exact B]. intros id l H. destruct (A id l H) as [t G]. exists t. now apply granted_more. Qed.

(** Leases only go, and with them what is active. *)
Definition fewer (c' c : Boosts) : Prop :=
  (forall id l, boLeases c' !! id = Some l -> boLeases c !! id = Some l) /\
  (forall id s, boStatus c' !! id = Some s -> bsActive s = true ->
     boStatus c !! id = Some s /\ boLeases c' !! id = boLeases c !! id).
Lemma fewer_sound ops c' c : fewer c' c -> sound ops c -> sound ops c'.
Proof.
  intros [F1 F2] [A B]. split; [intros id l H; exact (A id l (F1 id l H))|].
  intros id s H T. destruct (F2 id s H T) as [S ->]. exact (B id s S T).
Qed.
Lemma fewer_refl c : fewer c c. Proof. split; auto. Qed.
Lemma fewer_trans a b c : fewer a b -> fewer b c -> fewer a c.
Proof.
  intros [A1 A2] [B1 B2]. split; [auto|]. intros id s H T. destruct (A2 id s H T) as [S E]. destruct (B2 id s S T) as [R F].
  split; [exact R|congruence].
Qed.

Lemma ended_fewer c id s saver calls : bsActive s = false ->
  fewer (mkBoosts (delete id (boLeases c)) (<[id := s]> (boStatus c)) saver calls) c.
Proof.
  intros N. split; cbn [boLeases boStatus].
  - intros j l H. apply lookup_delete_Some in H as [_ H]. exact H.
  - intros j x H T. destruct (decide (j = id)) as [->|D]; [rewrite lookup_insert_eq in H; congruence|].
    rewrite lookup_insert_ne in H by auto. rewrite lookup_delete_ne by auto. auto.
Qed.

Lemma stop_fewer id reason now c : fewer (snd (stopBatteryBoost id reason now c)) c.
Proof.
  unfold stopBatteryBoost. cbv zeta. cbn [snd]. destruct (boLeases c !! id) as [l|] eqn:E; cbn [orb]; [now apply ended_fewer|].
  destruct (String.eqb _ "active"); [now apply ended_fewer|]. rewrite delete_id by exact E. split; auto.
Qed.
Lemma look_fewer id now c : fewer (snd (BatteryBoost id now c)) c.
Proof.
  unfold BatteryBoost. destruct (boLeases c !! id) as [l|]; [|apply fewer_refl]. destruct (negb _); [|apply fewer_refl].
  pose proof (stop_fewer id BatteryBoostStoppedExpired now c) as F. destruct (stopBatteryBoost _ _ _ _). exact F.
Qed.
Lemma tick_fewer live id now connected allowed c : fewer (evaluateBatteryBoost live id now connected allowed c) c.
Proof.
  unfold evaluateBatteryBoost. pose proof (look_fewer id now c) as F. destruct (BatteryBoost id now c) as [[l s] c1]. cbn [snd] in F.
  destruct (negb _); [exact F|]. destruct (tickReason _ _ _ _ _ _) as [reason|]; [|exact F].
  exact (fewer_trans _ _ _ (stop_fewer id reason now c1) F).
Qed.
Lemma totals_fewer states now acc : fewer (snd (fold_left (totalStep now) states acc)) (snd acc).
Proof.
  revert acc. induction states as [|st states IH]; intros acc; [apply fewer_refl|]. cbn [fold_left].
  apply (fewer_trans _ (snd (totalStep now acc st))); [apply IH|]. destruct acc as [[p r] c]. unfold totalStep.
  pose proof (look_fewer (lpID st) now c) as F. destruct (BatteryBoost _ _ _) as [[l s] c1]. cbn [snd] in *.
  destruct (_ || _ || _); exact F.
Qed.

Lemma preflight_live live id l b : batteryBoostLivePreflight live id l b = None ->
  exists st, liState live = Some st /\ lpPluggedIn st = true /\ lpSurplusOnly st = false.
Proof.
  unfold batteryBoostLivePreflight. destruct (liState live) as [st|]; [|discriminate]. exists st. split; [reflexivity|].
  destruct (lpPluggedIn st); [|discriminate]. destruct (lpSurplusOnly st); [discriminate|]. now split.
Qed.
Lemma grant_sound ops id l t c saver : grantedAt ops id l t -> sound ops c ->
  sound ops (mkBoosts (boLeases (grant id l c)) (boStatus (grant id l c)) saver (boStopped c)).
Proof.
  intros G [A B]. split; cbn [boLeases boStatus grant]; intros j x H.
  - destruct (decide (j = id)) as [->|D]; [rewrite lookup_insert_eq in H; inversion H; subst; now exists t|].
    rewrite lookup_insert_ne in H by auto. exact (A j x H).
  - destruct (decide (j = id)) as [->|D]; [rewrite lookup_insert_eq; intros _; eexists; reflexivity|].
    rewrite lookup_insert_ne in H by auto. rewrite lookup_insert_ne by auto. exact (B j x H).
Qed.

Lemma step_sound ops c op : sound ops c -> sound (ops ++ [op]) (boostStep c op).
Proof.
  intros S. pose proof (sound_more ops [op] c S) as M. assert (I : op ∈ ops ++ [op]) by (apply elem_of_app; right; now left).
  destruct op as [live id l now|live id l now|id now|id now|live id now connected allowed|states now]; cbn [boostStep].
  - unfold EnableBatteryBoost. destruct (ValidateBatteryBoostLease l now) eqn:V; [exact M|].
    destruct (batteryBoostLivePreflight live id l false) eqn:P; [exact M|].
    refine (grant_sound _ id l now c ((fun rows => <[id := l]> rows) <$> boSaver c) _ M).
    split; [exact V|]. exists live. split; [now left|]. exact (preflight_live _ _ _ _ P).
  - unfold RestoreBatteryBoost. assert (R : forall reason, fewer (recordRejectedBatteryBoostRestore id l reason now c) c)
      by (intros reason; now apply ended_fewer).
    destruct (ValidateBatteryBoostLease l now) eqn:V; [exact (fewer_sound _ _ _ (R _) M)|].
    destruct (batteryBoostLivePreflight live id l true) eqn:P; [exact (fewer_sound _ _ _ (R _) M)|].
    refine (grant_sound _ id l now c (boSaver c) _ M). split; [exact V|]. exists live. split; [now right|].
    exact (preflight_live _ _ _ _ P).
  - exact (fewer_sound _ _ _ (stop_fewer id BatteryBoostStoppedCancelled now c) M).
  - exact (fewer_sound _ _ _ (look_fewer id now c) M).
  - exact (fewer_sound _ _ _ (tick_fewer live id now connected allowed c) M).
  - exact (fewer_sound _ _ _ (totals_fewer states now (of_Z 0, of_Z 0, c)) M).
Qed.
Lemma run_sound ops saver : sound ops (boostRun ops (noBoosts saver)).
Proof.
  unfold boostRun. induction ops as [|op ops IH] using rev_ind.
  - split; intros id x H; cbn [fold_left noBoosts boLeases boStatus] in H; rewrite lookup_empty in H; discriminate H.
  - rewrite fold_left_app. now apply step_sound.
Qed.

(** An active answer is a live lease. *)
Lemma look_active id now c : (forall s, boStatus c !! id = Some s -> bsActive s = true -> is_Some (boLeases c !! id)) ->
  let '(l, status, c') := BatteryBoost id now c in
  bsActive status = true -> boLeases c !! id = Some l /\ now < blExpiresAt l /\ c' = c.
Proof.
  intros B. unfold BatteryBoost. destruct (boLeases c !! id) as [l|] eqn:E.
  - destruct (negb (Before now (blExpiresAt l))) eqn:X.
    + unfold stopBatteryBoost. cbv zeta. rewrite E. cbn [orb negb andb]. discriminate.
    + intros _. apply negb_false_iff in X. unfold Before in X. split; [reflexivity|]. split; [lia|reflexivity].
  - destruct (boStatus c !! id) as [s|] eqn:F; intros T; [change (default noStatus (Some s)) with s in T|discriminate T].
    destruct (B s eq_refl) as [x X]; [|discriminate X]. destruct (String.eqb (bsState s) ""); exact T.
Qed.

Lemma ended_silent id reason now c l : boLeases c !! id = Some l ->
  let '(l', status, _) := BatteryBoost id now (snd (stopBatteryBoost id reason now c)) in
  bsActive status = true -> False.
Proof.
  intros H. unfold stopBatteryBoost, BatteryBoost. cbv zeta. rewrite H. cbn [snd orb boLeases boStatus].
  rewrite lookup_delete_eq, lookup_insert_eq. intros T. discriminate T.
Qed.
Lemma tick_silent live id l now connected allowed : tickReason live id l now connected allowed = None ->
  connected = true /\ allowed = true /\ (blDepartureAt l <> zeroTime -> now < blDepartureAt l) /\
  (forall st, liState live = Some st -> lpSurplusOnly st = false /\
     (flt (of_Z 0) (blEVTargetSoC l) = true -> fle (blEVTargetSoC l) (lpCurrentSoC st) = false)) /\
  (forall safety, liSafety live = Some safety -> safety id l = ""%string).
Proof.
  unfold tickReason. cbv zeta. destruct connected; [|discriminate]. destruct allowed; [|discriminate]. cbn [negb].
  set (owner := match liState live with Some _ => _ | None => None end). destruct owner eqn:O; [discriminate|]. subst owner.
  destruct (negb (IsZero (blDepartureAt l)) && _) eqn:D; [discriminate|]. intros F.
  split; [reflexivity|]. split; [reflexivity|]. split; [|split].
  - intros N. unfold IsZero, Before in D. rewrite (proj2 (Z.eqb_neq (blDepartureAt l) 0) N) in D. cbn [negb andb] in D. lia.
  - intros st E. rewrite E in O. destruct (lpSurplusOnly st); [discriminate|]. split; [reflexivity|]. intros P. rewrite P in O. cbn [andb] in O.
    destruct (fle _ _); [discriminate O|reflexivity].
  - intros safety E. rewrite E in F. destruct (String.eqb_spec (safety id l) "") as [X|X]; [exact X|discriminate F].
Qed.

(** C25: A battery boost is a bounded permission. Over any history of grants,
    restores, cancels, looks and ticks, whatever clocks they were called with,
    an active answer is a lease that was granted at some moment on a plugged
    car that is not solar-only; it is not over yet, it ends within four hours of
    that moment and of its own start, it keeps at least five percent in the
    battery and any departure inside its time. After a tick it is still active
    only if the car is connected, dispatch is allowed, and neither the owner's
    solar-only choice, the car's target, the departure nor the safety check
    ends it. *)
Theorem boost_is_bounded saver ops id now l status c' :
  let c := boostRun ops (noBoosts saver) in
  BatteryBoost id now c = (l, status, c') -> bsActive status = true ->
  (exists t, grantedAt ops id l t /\ now < blExpiresAt l <= t + 4 * Hour /\ blExpiresAt l <= blStartedAt l + 4 * Hour /\
     flt (blMinBatterySoC l) (lit 5 100) = false /\ (blDepartureAt l <> zeroTime -> blDepartureAt l <= blExpiresAt l)) /\
  forall live connected allowed l2 status2 c2,
    BatteryBoost id now (evaluateBatteryBoost live id now connected allowed c) = (l2, status2, c2) -> bsActive status2 = true ->
    l2 = l /\ connected = true /\ allowed = true /\ (blDepartureAt l <> zeroTime -> now < blDepartureAt l) /\
    (forall st, liState live = Some st -> lpSurplusOnly st = false /\
       (flt (of_Z 0) (blEVTargetSoC l) = true -> fle (blEVTargetSoC l) (lpCurrentSoC st) = false)) /\
    (forall safety, liSafety live = Some safety -> safety id l = ""%string).
Proof.
  cbv zeta. pose proof (run_sound ops saver) as S. set (c := boostRun ops (noBoosts saver)) in *. clearbody c.
  intros E T. pose proof (look_active id now c (proj2 S id)) as L. rewrite E in L. destruct (L T) as (H & X & ->). split.
  - destruct (proj1 S id l H) as [t G]. exists t. split; [exact G|]. destruct (lease_bounds l t (proj1 G)) as (A & B & C & D).
    unfold MaxBatteryBoostDuration in *. auto.
  - intros live connected allowed l2 status2 c2. unfold evaluateBatteryBoost. rewrite E, T. cbn [negb].
    destruct (tickReason live id l now connected allowed) as [reason|] eqn:R.
    + pose proof (ended_silent id reason now c l H) as N. intros F A. rewrite F in N. destruct (N A).
    + rewrite E. intros F _. split; [congruence|]. exact (tick_silent live id l now connected allowed R).
Qed.

(** ** A boost of two hours *)
Definition demoLease : BatteryBoostLease := mkLease (100 * Hour) (102 * Hour) (of_Z 1) (of_Z 0) zeroTime.
Definition demoLive : LiveSite :=
  mkLive (Some (mkLPState "car" "" true noOrder (of_Z 0) (of_Z 0) [] 0 0 (of_Z 0) (of_Z 0) (of_Z 0) (of_Z 0) zeroTime
    (of_Z 0) (of_Z 0) false false false false false false (of_Z 0) (of_Z 0))) None.
Lemma boost_is_bounded_witness :
  let ops := [Enabled demoLive "car" demoLease (100 * Hour); Ticked demoLive "car" (101 * Hour) true true] in
  exists t, grantedAt ops "car" demoLease t /\ 101 * Hour < blExpiresAt demoLease <= t + 4 * Hour.
Proof.
  cbv zeta.
  edestruct (boost_is_bounded (Some ∅) [Enabled demoLive "car" demoLease (100 * Hour); Ticked demoLive "car" (101 * Hour) true true]
    "car" (101 * Hour)) as [(t & G & B & _) _].
  - vm_compute. reflexivity.
  - vm_compute. reflexivity.
  - exists t. split; [exact G|exact B].
Defined.
Example boost_runs_and_ends :
  let c := boostRun [Enabled demoLive "car" demoLease (100 * Hour)] (noBoosts (Some ∅)) in
  (bsActive (snd (fst (BatteryBoost "car" (101 * Hour) c))), bsStopReason (snd (fst (BatteryBoost "car" (102 * Hour) c)))) =
  (true, "expired"%string).
Proof. vm_compute. reflexivity. Qed.
(** An hour too long. *)
Example boost_too_long :
  ValidateBatteryBoostLease (mkLease (100 * Hour) (105 * Hour) (of_Z 1) (of_Z 0) zeroTime) (100 * Hour) = Some ErrTooLong.
Proof. vm_compute. reflexivity. Qed.
