(* ===== verification/ChargeSteps.v ===== *)
(** * The levels a charger may be ordered to
    (go/internal/loadpoint: snap.go, manual_limits.go, planning_steps.go,
    deadline_need.go, one_phase_car.go, controller.go)

    Snapping a wanted power to a legal step, the phases an order lands on, the
    limits of the installation, and the steps the planner gets. *)
From Stdlib Require Import ZArith Lia.
From S2P Require Import Prelude Float64 GoTime LoadpointData.
From stdpp Require Import base gmap strings list.
#[local] Open Scope Z_scope.

(** ** snap.go *)
Definition legalStep (mn mx step : f64) : bool :=
  finite step && negb (flt step mn) && negb (flt (of_Z 0) mx && flt mx step).

Definition nearest (want mn mx : f64) (acc : f64 * f64) (step : f64) : f64 * f64 :=
  if negb (legalStep mn mx step) then acc
  else let d := fabs (fsub want step) in if flt d (snd acc) then (step, d) else acc.

Definition SnapChargeW (want mn mx : f64) (steps : list f64) : f64 :=
  if negb (finite want) || fle want (of_Z 0) then of_Z 0
  else
    let want := if flt want mn then mn else want in
    let want := if flt (of_Z 0) mx && flt mx want then mx else want in
    if flt (of_Z 0) mx && flt mx mn then of_Z 0
    else
      match steps with
      | [] => want
      | _ => fst (fold_left (nearest want mn mx) steps (of_Z 0, Inf false))
      end.

Definition higher (want mn best step : f64) : f64 :=
  if fle mn step && fle step want && flt best step then step else best.

Definition floorChargeW (want mn mx : f64) (steps : list f64) : f64 :=
  if negb (finite want) || fle want (of_Z 0) then of_Z 0
  else
    let want := if flt (of_Z 0) mx && flt mx want then mx else want in
    if flt want mn then of_Z 0
    else
      match steps with
      | [] => want
      | _ => fold_left (higher want mn) steps (of_Z 0)
      end.

Definition PhaseFor (mode : string) (wantW splitW : f64) : Z :=
  if String.eqb mode "1p" then 1
  else if String.eqb mode "auto" then (if flt (of_Z 0) splitW && flt wantW splitW then 1 else 3)
  else 3.

Definition defaultPhaseSplitW : f64 := of_Z 3680.

Definition FilterStepsByPhase (steps : list f64) (phases : Z) (splitW : f64) : list f64 :=
  let splitW := if fle splitW (of_Z 0) then defaultPhaseSplitW else splitW in
  match steps with
  | [] => []
  | _ =>
      of_Z 0 ::
      List.filter (fun s => negb (fle s (of_Z 0)) &&
        (if phases =? 1 then fle s splitW else (phases =? 3) && flt splitW s)) steps
  end.

Definition EnergyBudgetToPowerW (remainingWh remainingS : f64) : f64 :=
  if fle remainingWh (of_Z 0) || fle remainingS (of_Z 0) then of_Z 0
  else fdiv (fmul remainingWh (of_Z 3600)) remainingS.

(** ** The site's voltage and the least order on the phases a command names *)
Definition siteVoltage (v : f64) : f64 := if negb (finite v) || fle v (of_Z 0) then of_Z 230 else v.

Definition phaseMinChargeW (cfg : LPConfig) (mode : string) (site : SiteFuse) : f64 :=
  if negb (Phases site =? 3) then cfMinChargeW cfg
  else
    let v := siteVoltage (fuseVoltage site) in
    if String.eqb mode "1p" || String.eqb mode "auto" then fmax (fdiv (cfMinChargeW cfg) (of_Z 3)) (fmul (of_Z 6) v)
    else if String.eqb mode "3p" then fmax (cfMinChargeW cfg) (fmul (of_Z 18) v)
    else cfMinChargeW cfg.

Definition manualMinChargeW (cfg : LPConfig) (hold : ManualHold) (site : SiteFuse) : f64 :=
  let mode := if String.eqb (mlPhaseMode hold) "" then cfPhaseMode cfg else mlPhaseMode hold in
  if String.eqb mode "1p" || String.eqb mode "auto" then phaseMinChargeW cfg mode site else cfMinChargeW cfg.

(** [fuseConfig]: the smallest legal step on the phases the command names. *)
Definition fuseConfig (site : SiteFuse) (cfg : LPConfig) (mode : string) : LPConfig :=
  withMinCharge (phaseMinChargeW cfg mode site) cfg.

Definition fusePhase (mode : string) : string := if String.eqb mode "" then "3p"%string else mode.

Definition commandPhases (site : SiteFuse) (mode : string) (w split : f64) : Z :=
  if Phases site =? 1 then 1
  else PhaseFor mode w (if fle split (of_Z 0) then defaultPhaseSplitW else split).

(** ** The installation's limits on a command *)
Definition applyInstallationLimits (site : SiteFuse) (cmd : Cmd) : Cmd :=
  let cmd := if flt (of_Z 0) (fuseVoltage site) then setVoltage (fuseVoltage site) cmd else cmd in
  let cmd := if 0 <? fusePhaseCnt site then setSitePhases (Phases site) cmd else cmd in
  let cmd := if Phases site =? 1 then setMode "1p" cmd else cmd in
  if flt (of_Z 0) (fuseMaxA site) then
    let limit := num (kMaxAmps cmd) in
    if fle limit (of_Z 0) || isNaN limit || isInf limit || flt (fuseMaxA site) limit
    then setMaxAmps (fuseMaxA site) cmd else cmd
  else cmd.

Definition chargerPhaseAmps (cfg : LPConfig) (voltage : f64) : f64 :=
  let v := siteVoltage voltage in
  let split := cfPhaseSplitW cfg in
  let split := if negb (finite split) || fle split (of_Z 0) then defaultPhaseSplitW else split in
  let maxW := cfMaxChargeW cfg in
  let maxW := if negb (finite maxW) || flt maxW (of_Z 0) then of_Z 0 else maxW in
  fmax (fdiv maxW (fmul (of_Z 3) v)) (fdiv split v).

Definition applyChargerPhaseLimit (cfg : LPConfig) (site : SiteFuse) (cmd : Cmd) : Cmd :=
  if negb (String.eqb (str (kPhaseMode cmd)) "1p") || String.eqb (cfPhaseMode cfg) "1p" || negb (Phases site =? 3)
  then cmd
  else
    let a := chargerPhaseAmps cfg (fuseVoltage site) in
    if flt a (of_Z 6) then cmd
    else
      let limit := num (kMaxAmps cmd) in
      if negb (finite limit) || fle limit (of_Z 0) || flt a limit then setMaxAmps a cmd else cmd.

(** The split below which an order lands on one phase, as the ceiling reads it. *)
Definition ceilingSplit (cmd : Cmd) (v a : f64) : f64 :=
  let split := num (kPhaseSplitW cmd) in
  let split := if fle split (of_Z 0) then fmul v a else split in
  if flt split (fmul (of_Z 18) v) then fmul (of_Z 18) v else split.
Definition ceilingAt (v a : f64) (phases : Z) : f64 := fmul (fmul v (of_Z phases)) (ffloor a).

(** Whether it lowered the order, and the command. *)
Definition applyCurrentCeiling (cmd : Cmd) : bool * Cmd :=
  let w := num (kPowerW cmd) in
  match kMaxAmps cmd with
  | None => (false, cmd)
  | Some a =>
      if fle w (of_Z 0) then (false, cmd)
      else if flt a (of_Z 6) then (true, setPower (of_Z 0) cmd)
      else
        let v := num (kVoltage cmd) in
        if fle v (of_Z 0) then (false, cmd)
        else
          let phases := PhaseFor (str (kPhaseMode cmd)) w (ceilingSplit cmd v a) in
          let ceiling := ceilingAt v a phases in
          if flt ceiling w then (true, setPower ceiling cmd) else (false, cmd)
  end.

(** [for applyCurrentCeiling(cmd) {}]; [ceiling_loop_ends] shows that three
    turns are enough. *)
Definition ceilingTurn (cmd : Cmd) : Cmd + Cmd :=
  let '(again, cmd') := applyCurrentCeiling cmd in if again then inl cmd' else inr cmd'.
Definition ceilingLoop (cmd : Cmd) : Cmd :=
  match run ceilingTurn 3 cmd with inl c => c | inr c => c end.

Definition manualAmps (hold : ManualHold) (site : SiteFuse) : f64 :=
  let amps := mlMaxAmps hold in
  if flt (of_Z 0) (fuseMaxA site) && (negb (finite amps) || fle amps (of_Z 0) || flt (fuseMaxA site) amps)
  then fuseMaxA site else amps.

Definition clampManualPower (cfg : LPConfig) (hold : ManualHold) (site : SiteFuse) : f64 :=
  let minimum := manualMinChargeW cfg hold site in
  let w := floorChargeW (mlPowerW hold) minimum (cfMaxChargeW cfg) (cfSteps cfg) in
  let amps := manualAmps hold site in
  if fle amps (of_Z 0) then w
  else
    let mode := if String.eqb (mlPhaseMode hold) "" then cfPhaseMode cfg else mlPhaseMode hold in
    let mode :=
      if Phases site =? 1 then "1p"%string
      else if String.eqb mode "" && cfSurplusOnly cfg then "auto"%string else mode in
    let voltage := if fle (fuseVoltage site) (of_Z 0) then mlVoltage hold else fuseVoltage site in
    let split := if fle (mlPhaseSplitW hold) (of_Z 0) then cfPhaseSplitW cfg else mlPhaseSplitW hold in
    let cmd := setMaxAmps amps (setSplit split (setVoltage voltage (setMode mode (setPower w noCmd)))) in
    floorChargeW (num (kPowerW (ceilingLoop cmd))) minimum (cfMaxChargeW cfg) (cfSteps cfg).

(** ** The levels of a scheduled charge *)
Definition threePhaseCapable (cfg : LPConfig) (site : SiteFuse) : bool :=
  if negb (Phases site =? 3) || String.eqb (cfPhaseMode cfg) "1p" then false
  else
    let minimum := fmul (of_Z 18) (siteVoltage (fuseVoltage site)) in
    if finite (cfMaxChargeW cfg) && flt (of_Z 0) (cfMaxChargeW cfg) && flt (cfMaxChargeW cfg) minimum then false
    else
      match cfSteps cfg with
      | [] => true
      | steps => existsb (fun w => fle minimum w) steps
      end.

(** [for a := from; a <= top; a++], at most [n] turns: the levels [a * step]. *)
Fixpoint ampLevels (n : nat) (a top step : f64) : list f64 :=
  match n with
  | O => []
  | S n => if fle a top then fmul a step :: ampLevels n (fadd a (of_Z 1)) top step else []
  end.

Definition fceil (x : f64) : f64 := fneg (ffloor (fneg x)).

Definition PlanningSteps (cfg : LPConfig) (site : SiteFuse) : list f64 :=
  let phases := if threePhaseCapable cfg site then Phases site else 1 in
  let voltage := if fle (fuseVoltage site) (of_Z 0) then of_Z 230 else fuseVoltage site in
  let step := fmul voltage (of_Z phases) in
  match cfSteps cfg with
  | _ :: _ =>
      if phases =? 1 then cfSteps cfg
      else
        of_Z 0 :: List.filter (fun w => fle (fmul (of_Z 6) step) w &&
                                 (fle (cfMaxChargeW cfg) (of_Z 0) || fle w (cfMaxChargeW cfg))) (cfSteps cfg)
  | [] =>
      let minimum := fmax (of_Z 6) (fceil (fdiv (cfMinChargeW cfg) step)) in
      let maximum := ffloor (fdiv (cfMaxChargeW cfg) step) in
      let maximum := if flt (of_Z 0) (fuseMaxA site) then fmin maximum (ffloor (fuseMaxA site)) else maximum in
      if negb (finite minimum) || negb (finite maximum) || flt (of_Z 1000) maximum then [of_Z 0]
      else of_Z 0 :: ampLevels 1000 minimum maximum step
  end.

Definition chargerPhaseMaxA (cfg : LPConfig) (site : SiteFuse) : f64 :=
  let v := siteVoltage (fuseVoltage site) in
  let maxA :=
    if finite (cfMaxChargeW cfg) && flt (of_Z 0) (cfMaxChargeW cfg)
    then ffloor (fadd (fdiv (cfMaxChargeW cfg) (fmul (of_Z 3) v)) (lit 1 1000000000)) else of_Z 32 in
  if finite (fuseMaxA site) && flt (of_Z 0) (fuseMaxA site) then fmin maxA (ffloor (fuseMaxA site)) else maxA.

(** As many turns as there are whole amps. A maximum that is not finite, or is
    above 2^53 amps, has no last level: the code does not return there. *)
Definition OnePhaseCarSteps (cfg : LPConfig) (site : SiteFuse) : list f64 :=
  let maxA := chargerPhaseMaxA cfg site in
  let turns := match maxA with Fin z => Z.to_nat (z / unit64) | _ => O end in
  of_Z 0 :: ampLevels turns (of_Z 6) maxA (siteVoltage (fuseVoltage site)).
Definition OnePhaseCarMaxW (cfg : LPConfig) (site : SiteFuse) : f64 :=
  default (of_Z 0) (last (OnePhaseCarSteps cfg site)).

(** ** The range and the steps of a session *)
Definition lowestPositive (steps : list f64) : f64 :=
  fold_left (fun lowest w => if flt (of_Z 0) w && (feq lowest (of_Z 0) || flt w lowest) then w else lowest)
    steps (of_Z 0).

Definition LimitPower (st : LPState) (steps : list f64) : f64 * f64 * list f64 :=
  let maxW := lpMaxChargeW st in
  let lowest := lowestPositive steps in
  let minW := fmax (lpMinChargeW st) lowest in
  if fle (lpCarMaxW st) (of_Z 0) || (flt (of_Z 0) maxW && fle maxW (lpCarMaxW st))
  then (if flt (of_Z 0) maxW && flt maxW minW then maxW else minW, maxW, steps)
  else
    let maxW := lpCarMaxW st in
    let out := List.filter (fun w => fle w maxW) steps in
    let kept := existsb (fun w => flt (of_Z 0) w) out in
    let alone := negb kept && flt (of_Z 0) lowest in
    let out := if alone then out ++ [lowest] else out in
    let maxW := if alone then lowest else maxW in
    let maxW := if feq lowest (of_Z 0) && flt maxW minW then minW else maxW in
    (if flt maxW minW then maxW else minW, maxW, out).

(** [slices.Min] and [slices.Max]: NaN wins. *)
Definition sliceMin (l : list f64) : f64 :=
  match l with [] => NaN | x :: l => fold_left (fun a b => if isNaN a || isNaN b then NaN else fmin a b) l x end.
Definition sliceMax (l : list f64) : f64 :=
  match l with [] => NaN | x :: l => fold_left (fun a b => if isNaN a || isNaN b then NaN else fmax a b) l x end.

Definition PlanningLimits (st : LPState) (cfg : LPConfig) (site : SiteFuse) : f64 * f64 * list f64 :=
  let planning := PlanningSteps cfg site in
  let levels :=
    (fun w => fdiv w (of_Z 3)) <$>
    List.filter (fun w => flt (of_Z 0) w &&
                   fle (fdiv w (of_Z 3)) (fadd (OnePhaseCarMaxW cfg site) (lit 1 1000000000))) planning in
  if (lpCarPhases st =? 1) && threePhaseCapable cfg site && (0 <? length levels)%nat
  then LimitPower (withLimits (sliceMin levels) (sliceMax (of_Z 0 :: levels)) st) (of_Z 0 :: levels)
  else LimitPower st planning.

Definition DefaultChargeEfficiency : f64 := lit 9 10.

Definition PlanningTarget (st : LPState) (vehicleLimit : f64) : f64 :=
  let target := if lpFinishAtVehicleLimit st then of_Z 1 else lpTargetSoC st in
  if flt (of_Z 0) vehicleLimit && fle vehicleLimit (of_Z 1) && flt vehicleLimit target then vehicleLimit else target.

(** [(energyWh, powerW, ok)]. *)
Definition DeadlineNeed (st : LPState) (minW maxW : f64) (steps : list f64) : f64 * f64 * bool :=
  let none := (of_Z 0, of_Z 0, false) in
  let share x := finite x && negb (flt x (of_Z 0)) && negb (flt (of_Z 1) x) in
  if negb (lpPluggedIn st) || lpChargingDeclined st || lpGoalComplete st || IsZero (lpTargetTime st) ||
     negb (share (lpCurrentSoC st)) || negb (share (lpTargetSoC st)) ||
     negb (finite (lpVehicleCapacityWh st)) || fle (lpVehicleCapacityWh st) (of_Z 0) ||
     negb (finite (lpMinChargeW st)) || negb (finite (lpMaxChargeW st)) || negb (flt (of_Z 0) minW) ||
     flt (lpMaxChargeW st) (lpMinChargeW st)
  then none
  else
    let target := PlanningTarget st (lpCarChargeLimit st) in
    let energyWh := fdiv (fmul (fsub target (lpCurrentSoC st)) (lpVehicleCapacityWh st)) DefaultChargeEfficiency in
    if fle energyWh (of_Z 0) || negb (finite energyWh) then none
    else if existsb (fun s => negb (finite s) || flt s (of_Z 0) || flt (lpMaxChargeW st) s) (lpSteps st) then none
    else
      let powerW := fold_left (fun p s => if fle minW s then fmax p s else p) steps (of_Z 0) in
      let powerW := if (length (lpSteps st) =? 0)%nat then maxW else powerW in
      (energyWh, powerW, fle minW powerW).

(** ** Phase decisions *)
Definition resolvePhaseMode (operatorMode : string) (threePhase scheduleActive surplusLocked1P surplusOn : bool)
    (dwell : string) : string :=
  if negb (String.eqb operatorMode "") && negb (String.eqb operatorMode "auto") then operatorMode
  else if negb threePhase then "1p"
  else if scheduleActive || negb surplusOn then "3p"
  else if surplusLocked1P then "1p"
  else if negb (String.eqb dwell "") then dwell
  else "auto".

Definition holdPhaseMode (hold : ManualHold) (cfg : LPConfig) (site : SiteFuse) : string :=
  let mode := mlPhaseMode hold in
  let mode :=
    if String.eqb mode "" || (String.eqb mode "3p" && negb (threePhaseCapable cfg site)) then cfPhaseMode cfg
    else mode in
  if negb (String.eqb mode "") && negb (String.eqb mode "auto") then mode
  else if negb (threePhaseCapable cfg site) then "1p"
  else if flt (mlPowerW hold) (phaseMinChargeW cfg "3p" site) then "auto"
  else "3p".

Definition surplus3PhaseSteps (cfg : LPConfig) (site : SiteFuse) : list f64 :=
  if String.eqb (cfPhaseMode cfg) "1p" || (length (cfSteps cfg) =? 0)%nat then cfSteps cfg
  else PlanningSteps cfg site.
Definition smallestNonZero (steps : list f64) : f64 :=
  fold_left (fun mn s => if fle s (of_Z 0) then mn else if feq mn (of_Z 0) || flt s mn then s else mn) steps (of_Z 0).
Definition surplusMinStepW (cfg : LPConfig) (steps : list f64) : f64 :=
  match steps with [] => cfMinChargeW cfg | _ => smallestNonZero steps end.

(** ** Lemmas: snapping *)
(** A step the fold may keep: at least the minimum, at most the wanted power. *)
Definition fits (want mn s : f64) : bool := fle mn s && fle s want.

Lemma higher_is want mn best s : higher want mn best s = if fits want mn s && flt best s then s else best.
Proof. reflexivity. Qed.

Lemma higher_fold want mn steps : forall best,
  rank best <> 2 -> let r := fold_left (higher want mn) steps best in
  rank r <> 2 /\ le_rel best r /\ (r = best \/ (r ∈ steps /\ fits want mn r = true /\ flt best r = true)) /\
  Forall (fun s => fits want mn s = true -> le_rel s r) steps.
Proof.
  induction steps as [|s steps IH]; intros best N; cbv zeta; cbn [fold_left].
  - split; [exact N|]. split; [now apply le_rel_refl|]. split; [now left|constructor].
  - rewrite (higher_is want mn best s). destruct (fits want mn s) eqn:F; cbn [andb].
    + assert (Ns : rank s <> 2).
      { unfold fits in F. apply andb_true_iff in F as [F _]. apply fle_iff in F. exact (le_rel_nn_r _ _ F). }
      destruct (flt best s) eqn:L.
      * destruct (IH s Ns) as (R & Ls & D & A). split; [exact R|].
        split; [exact (le_rel_trans _ _ _ (flt_le _ _ L) Ls)|]. split.
        -- right. destruct D as [->|(I & Fr & Lr)]; [split_and!; [left|exact F|exact L]|].
           split_and!; [now right|exact Fr|exact (flt_trans _ _ _ L Lr)].
        -- constructor; [intros _; exact Ls|exact A].
      * destruct (IH best N) as (R & Ls & D & A). split; [exact R|]. split; [exact Ls|]. split.
        -- destruct D as [D|(I & Fr & Lr)]; [now left|right; split_and!; [now right|exact Fr|exact Lr]].
        -- constructor; [|exact A]. intros _. apply (le_rel_trans _ best); [|exact Ls].
           now apply flt_false.
    + destruct (IH best N) as (R & Ls & D & A). split; [exact R|]. split; [exact Ls|]. split.
      * destruct D as [D|(I & Fr & Lr)]; [now left|right; split_and!; [now right|exact Fr|exact Lr]].
      * constructor; [rewrite F; intros E; discriminate E|exact A].
Qed.

Lemma floor_not_above want mn mx steps :
  flt want (floorChargeW want mn mx steps) && flt (of_Z 0) want = false /\
  (flt (of_Z 0) mx && flt mx (floorChargeW want mn mx steps)) = false.
Proof.
  unfold floorChargeW. destruct (negb (finite want) || fle want (of_Z 0)) eqn:G.
  { rewrite (andb_comm (flt want (of_Z 0))). destruct (flt (of_Z 0) want) eqn:E.
    - split; [|destruct (flt (of_Z 0) mx) eqn:M; [|reflexivity]; cbn [andb]; apply le_flt_false; now apply flt_le].
      cbn [andb]. apply le_flt_false. now apply flt_le.
    - split; [reflexivity|]. destruct (flt (of_Z 0) mx) eqn:M; [|reflexivity]. cbn [andb]. apply le_flt_false. now apply flt_le. }
  apply orb_false_iff in G as [Gf Gp]. apply negb_false_iff in Gf.
  assert (P : flt (of_Z 0) want = true).
  { apply fle_false_flt; [exact Gp| |apply of_Z_nn; lia]. apply finite_iff in Gf. now apply finite_nn. }
  cbv zeta. set (w := if flt (of_Z 0) mx && flt mx want then mx else want).
  assert (Wl : flt want w = false /\ (flt (of_Z 0) mx && flt mx w) = false /\ flt (of_Z 0) w = true).
  { unfold w. destruct (flt (of_Z 0) mx) eqn:M; cbn [andb]; [|auto using flt_irrefl].
    destruct (flt mx want) eqn:L; [|auto using flt_irrefl]. split_and!; [|apply flt_irrefl|exact M].
    apply le_flt_false. now apply flt_le. }
  destruct Wl as (W1 & W2 & W3). rewrite P, andb_true_r.
  assert (Z0 : flt want (of_Z 0) = false) by (apply le_flt_false; now apply flt_le).
  assert (Zm : (flt (of_Z 0) mx && flt mx (of_Z 0)) = false).
  { destruct (flt (of_Z 0) mx) eqn:M; [|reflexivity]. cbn [andb]. apply le_flt_false. now apply flt_le. }
  destruct (flt w mn); [split; assumption|]. destruct steps as [|s steps]; [split; assumption|].
  destruct (higher_fold w mn (s :: steps) (of_Z 0)) as (_ & _ & D & _); [apply of_Z_nn; lia|].
  set (r := fold_left _ _ _) in *. clearbody r. destruct D as [->|(_ & F & _)]; [split; assumption|].
  apply andb_true_iff in F as [_ F]. apply fle_iff in F. split.
  - destruct (flt want r) eqn:E; [|reflexivity]. rewrite (flt_le_trans _ _ _ E F) in W1. discriminate W1.
  - destruct (flt (of_Z 0) mx) eqn:M; [|reflexivity]. cbn [andb] in *. destruct (flt mx r) eqn:E; [|reflexivity].
    rewrite (flt_le_trans _ _ _ E F) in W2. discriminate W2.
Qed.

Lemma floor_nonneg want mn mx steps : le_rel (of_Z 0) (floorChargeW want mn mx steps).
Proof.
  assert (Z0 : le_rel (of_Z 0) (of_Z 0)) by (apply of_Z_mono; lia).
  unfold floorChargeW. destruct (negb (finite want) || fle want (of_Z 0)) eqn:G; [exact Z0|].
  apply orb_false_iff in G as [Gf Gp]. apply negb_false_iff in Gf. cbv zeta.
  assert (P : flt (of_Z 0) want = true).
  { apply fle_false_flt; [exact Gp| |apply of_Z_nn; lia]. apply finite_iff in Gf. now apply finite_nn. }
  set (w := if flt (of_Z 0) mx && flt mx want then mx else want).
  assert (W : le_rel (of_Z 0) w).
  { unfold w. destruct (flt (of_Z 0) mx) eqn:M; cbn [andb]; [|now apply flt_le].
    destruct (flt mx want); now apply flt_le. }
  destruct (flt w mn); [exact Z0|]. destruct steps as [|s steps]; [exact W|].
  destruct (higher_fold w mn (s :: steps) (of_Z 0)) as (_ & L & _); [apply of_Z_nn; lia|exact L].
Qed.

(** What is floored to a level fits whatever the wanted power fits. *)
Lemma floor_share R want mn mx steps : le_rel (of_Z 0) R -> flt R want = false ->
  le_rel (floorChargeW want mn mx steps) R.
Proof.
  intros N L. destruct (finite want && flt (of_Z 0) want) eqn:G.
  - apply andb_true_iff in G as [Gf P]. apply finite_iff in Gf.
    assert (WR : le_rel want R) by (apply flt_false; [exact L|exact (le_rel_nn_r _ _ N)|now apply finite_nn]).
    destruct (floor_not_above want mn mx steps) as [A _]. rewrite P, andb_true_r in A.
    apply (le_rel_trans _ want); [|exact WR].
    apply flt_false; [exact A|now apply finite_nn|exact (le_rel_nn_r _ _ (floor_nonneg want mn mx steps))].
  - unfold floorChargeW. replace (negb (finite want) || fle want (of_Z 0)) with true; [exact N|]. symmetry.
    destruct (finite want) eqn:F; [|reflexivity]. cbn [negb orb andb] in *. apply fle_iff, flt_false; [exact G|apply of_Z_nn; lia|].
    apply finite_iff in F. now apply finite_nn.
Qed.

(** ** Lemmas: the current ceiling *)
(** A command the ceiling leaves as it is. *)
Definition underCeiling (cmd : Cmd) : Prop := applyCurrentCeiling cmd = (false, cmd).

Lemma ceiling_false cmd cmd' : applyCurrentCeiling cmd = (false, cmd') -> cmd' = cmd.
Proof.
  unfold applyCurrentCeiling. destruct (kMaxAmps cmd) as [a|]; [|now intros [= <-]].
  destruct (fle _ (of_Z 0)); [now intros [= <-]|]. destruct (flt a (of_Z 6)); [intros E; discriminate E|].
  cbv zeta. destruct (fle (num (kVoltage cmd)) _); [now intros [= <-]|].
  destruct (flt _ _); [intros E; discriminate E|now intros [= <-]].
Qed.

Lemma ceiling_zero cmd : underCeiling (setPower (of_Z 0) cmd).
Proof.
  unfold underCeiling, applyCurrentCeiling. cbn [kMaxAmps setPower kPowerW]. cbn [num default].
  destruct (kMaxAmps cmd); [|reflexivity]. change (num (Some (of_Z 0))) with (of_Z 0).
  replace (fle (of_Z 0) (of_Z 0)) with true by (vm_compute; reflexivity). reflexivity.
Qed.

(** Lowered once more, an order stays on its phases or comes down to one. *)
Definition ceilW (cmd : Cmd) (a w : f64) : f64 :=
  let v := num (kVoltage cmd) in ceilingAt v a (PhaseFor (str (kPhaseMode cmd)) w (ceilingSplit cmd v a)).

Lemma ceiling_step cmd cmd' : applyCurrentCeiling cmd = (true, cmd') ->
  cmd' = setPower (of_Z 0) cmd \/
  exists a, kMaxAmps cmd = Some a /\ cmd' = setPower (ceilW cmd a (num (kPowerW cmd))) cmd /\
    flt (ceilW cmd a (num (kPowerW cmd))) (num (kPowerW cmd)) = true.
Proof.
  unfold applyCurrentCeiling. destruct (kMaxAmps cmd) as [a|]; [|intros E; discriminate E].
  destruct (fle _ (of_Z 0)); [intros E; discriminate E|]. destruct (flt a (of_Z 6)); [left; congruence|].
  cbv zeta. destruct (fle (num (kVoltage cmd)) _); [intros E; discriminate E|].
  fold (ceilW cmd a (num (kPowerW cmd))). destruct (flt _ _) eqn:L; [|intros E; discriminate E].
  intros E. right. exists a. split; [reflexivity|]. split; [congruence|exact L].
Qed.

Lemma PhaseFor_down mode w w' split : flt w' w = true ->
  PhaseFor mode w' split = PhaseFor mode w split \/ PhaseFor mode w' split = 1.
Proof.
  intros L. unfold PhaseFor. destruct (String.eqb mode "1p"); [now left|]. destruct (String.eqb mode "auto"); [|now left].
  destruct (flt (of_Z 0) split); cbn [andb]; [|now left]. destruct (flt w split) eqn:E.
  - rewrite (flt_trans _ _ _ L E). now left.
  - destruct (flt w' split); auto.
Qed.
Lemma PhaseFor_one_down mode w w' split : flt w' w = true -> PhaseFor mode w split = 1 -> PhaseFor mode w' split = 1.
Proof. intros L E. destruct (PhaseFor_down mode w w' split L); congruence. Qed.

(** On the phases it was measured for, the ceiling is applied once. *)
Lemma ceiling_same cmd a x :
  kMaxAmps cmd = Some a -> flt a (of_Z 6) = false -> ceilW cmd a x = x -> underCeiling (setPower x cmd).
Proof.
  intros Ea A6 E. unfold underCeiling, applyCurrentCeiling.
  cbn [kMaxAmps setPower kPowerW kVoltage kPhaseMode]. rewrite Ea, A6. change (num (Some x)) with x.
  destruct (fle x (of_Z 0)); [reflexivity|]. cbv zeta. destruct (fle (num (kVoltage cmd)) (of_Z 0)); [reflexivity|].
  match goal with |- context [flt ?c x] => change c with (ceilW cmd a x) end. rewrite E, flt_irrefl. reflexivity.
Qed.

(** The most further times the ceiling lowers an order: once on one phase,
    and twice on three, where lowering may bring it down to one. *)
Definition phasesNow (cmd : Cmd) (a : f64) : Z :=
  PhaseFor (str (kPhaseMode cmd)) (num (kPowerW cmd)) (ceilingSplit cmd (num (kVoltage cmd)) a).
Definition turnsLeft (cmd : Cmd) : Z :=
  if fst (applyCurrentCeiling cmd) then
    match kMaxAmps cmd with Some a => if phasesNow cmd a =? 1 then 1 else 2 | None => 0 end
  else 0.

Lemma turns_bounds cmd : 0 <= turnsLeft cmd <= 2.
Proof. unfold turnsLeft. destruct (fst _); [|lia]. destruct (kMaxAmps cmd); [destruct (_ =? 1)|]; lia. Qed.
Lemma turns_under cmd : underCeiling cmd -> turnsLeft cmd = 0.
Proof. unfold underCeiling, turnsLeft. intros ->. reflexivity. Qed.

Lemma turns_fall cmd cmd' : applyCurrentCeiling cmd = (true, cmd') -> 0 <= turnsLeft cmd' < turnsLeft cmd.
Proof.
  intros E. assert (T : turnsLeft cmd = match kMaxAmps cmd with Some a => if phasesNow cmd a =? 1 then 1 else 2 | None => 0 end).
  { unfold turnsLeft. rewrite E. reflexivity. }
  split; [apply turns_bounds|]. rewrite T. clear T. destruct (ceiling_step _ _ E) as [->|(a & Ea & -> & L)].
  - rewrite (turns_under _ (ceiling_zero cmd)). unfold applyCurrentCeiling in E.
    destruct (kMaxAmps cmd) as [a|]; [destruct (_ =? 1); lia|discriminate E].
  - rewrite Ea. assert (A6 : flt a (of_Z 6) = false \/ setPower (ceilW cmd a (num (kPowerW cmd))) cmd = setPower (of_Z 0) cmd).
    { unfold applyCurrentCeiling in E. rewrite Ea in E. destruct (fle _ (of_Z 0)); [discriminate E|].
      destruct (flt a (of_Z 6)); [right; congruence|now left]. }
    destruct A6 as [A6| ->]; [|rewrite (turns_under _ (ceiling_zero cmd)); destruct (_ =? 1); lia].
    set (w := num (kPowerW cmd)) in *. set (x := ceilW cmd a w) in *. set (v := num (kVoltage cmd)).
    assert (S : PhaseFor (str (kPhaseMode cmd)) x (ceilingSplit cmd v a) = phasesNow cmd a ->
                turnsLeft (setPower x cmd) = 0).
    { intros S. apply turns_under, (ceiling_same _ a); [exact Ea|exact A6|].
      unfold ceilW at 1. fold v. rewrite S. reflexivity. }
    destruct (PhaseFor_down (str (kPhaseMode cmd)) w x (ceilingSplit cmd v a) L) as [D|D].
    + rewrite (S D). destruct (_ =? 1); lia.
    + destruct (phasesNow cmd a =? 1) eqn:P; [apply Z.eqb_eq in P; rewrite S by congruence; lia|].
      unfold turnsLeft. cbn [kMaxAmps setPower]. rewrite Ea. destruct (fst _); [|lia].
      replace (phasesNow (setPower x cmd) a) with 1 by (symmetry; exact D). cbn. lia.
Qed.

(** The loop changes nothing but the power, and that to zero or to less. *)
Definition lowered (cmd out : Cmd) : Prop :=
  out = cmd \/ exists w, out = setPower w cmd /\ (w = of_Z 0 \/ flt w (num (kPowerW cmd)) = true).

Lemma lowered_step cmd c c' : lowered cmd c -> applyCurrentCeiling c = (true, c') -> lowered cmd c'.
Proof.
  intros L E. right. destruct L as [->|(w & -> & [->|W])].
  - destruct (ceiling_step _ _ E) as [->|(a & _ & -> & L)]; eauto.
  - rewrite (ceiling_zero cmd) in E. discriminate E.
  - destruct (ceiling_step _ _ E) as [->|(a & _ & -> & L)].
    + exists (of_Z 0). split; [reflexivity|now left].
    + eexists. split; [reflexivity|right]. exact (flt_trans _ _ _ L W).
Qed.

(** The ceiling that bounds a command: nothing without a limit or a voltage. *)
Definition withinCurrent (cmd : Cmd) : Prop :=
  match kMaxAmps cmd with
  | None => True
  | Some a =>
      let w := num (kPowerW cmd) in
      fle w (of_Z 0) = true \/
      flt a (of_Z 6) = false /\
      (fle (num (kVoltage cmd)) (of_Z 0) = true \/
       flt (ceilingAt (num (kVoltage cmd)) a (phasesNow cmd a)) w = false)
  end.
Lemma under_within cmd : underCeiling cmd -> withinCurrent cmd.
Proof.
  unfold underCeiling, applyCurrentCeiling, withinCurrent, phasesNow. destruct (kMaxAmps cmd) as [a|]; [|easy].
  destruct (fle _ (of_Z 0)) eqn:P; [now left|]. destruct (flt a (of_Z 6)) eqn:A; [intros E; discriminate E|].
  cbv zeta. destruct (fle (num (kVoltage cmd)) _) eqn:V; [right; auto|].
  destruct (flt (ceilingAt _ _ _) _) eqn:C; [intros E; discriminate E|]. right; auto.
Qed.

Lemma ceilingLoop_spec cmd :
  run ceilingTurn 3 cmd = inr (ceilingLoop cmd) /\ underCeiling (ceilingLoop cmd) /\ lowered cmd (ceilingLoop cmd).
Proof.
  destruct (run_stops (fun _ => True) turnsLeft ceilingTurn) with (p := 3%positive) (a := cmd) as [b Eb].
  - intros c c' _ E. split; [exact I|]. unfold ceilingTurn in E. destruct (applyCurrentCeiling c) as [[] d] eqn:F; [|discriminate E].
    apply turns_fall. congruence.
  - exact I.
  - pose proof (turns_bounds cmd). lia.
  - pose proof (run_invariant (lowered cmd) (fun b => underCeiling b /\ lowered cmd b) ceilingTurn) as R.
    lapply R; clear R.
    + intros R. specialize (R 3%positive cmd (or_introl eq_refl)). unfold ceilingLoop. rewrite Eb in *. easy.
    + intros c L. unfold ceilingTurn. destruct (applyCurrentCeiling c) as [[] d] eqn:F; [exact (lowered_step _ _ _ L F)|].
      pose proof (ceiling_false _ _ F) as ->. split; [exact F|exact L].
Qed.

(** C38: The loop that lowers a charger's order to the installation's current
    limit ends within three turns. It changes only the order's power, to zero
    or to less, and the order it leaves is zero or fits: at least six amps are
    allowed, and the power is at most voltage, phases and whole amps together,
    on the phases that very power lands on. *)
Theorem ceiling_loop_ends cmd :
  let out := ceilingLoop cmd in
  run ceilingTurn 3 cmd = inr out /\ lowered cmd out /\ withinCurrent out.
Proof. destruct (ceilingLoop_spec cmd) as (A & B & C). auto using under_within. Qed.
