(* ===== verification/SessionEnergy.v ===== *)
(** * The energy of a charging session
    (go/internal/loadpoint: session_energy.go, controller_energy.go)

    The time line of power readings with the energy they add up to, the
    charger's own counter that replaces it when it catches up, and what a slot
    of the plan has been delivered. *)
From Stdlib Require Import ZArith Lia.
From S2P Require Import Prelude Float64 GoTime LoadpointData.
From stdpp Require Import base gmap strings list.
#[local] Open Scope Z_scope.

Definition PowerWindow (s : EVSample) : Duration :=
  if saPowerMaxAge s <=? 0 then 30 * Second else Z.min (saPowerMaxAge s) (3 * Minute).

Record sessionPowerPoint : Type := mkPoint { pwAt : Time; pwW : f64; pwWh : f64 }.

Record sessionEnergy : Type := mkEnergy {
  seCounterWh : f64; seCounterAt : Time; seCounterKnown : bool;
  seCoverageAt : Time; sePoints : list sessionPowerPoint;
  seFloorWh : f64; seFloorAt : Time; seEstimatedWh : f64; seSource : string
}.
Definition noEnergy : sessionEnergy :=
  mkEnergy (of_Z 0) zeroTime false zeroTime [] (of_Z 0) zeroTime (of_Z 0) "".
Definition withTimeLine (cov : Time) (ps : list sessionPowerPoint) (e : sessionEnergy) : sessionEnergy :=
  mkEnergy (seCounterWh e) (seCounterAt e) (seCounterKnown e) cov ps (seFloorWh e) (seFloorAt e)
    (seEstimatedWh e) (seSource e).
Definition withCounter (wh : f64) (at' : Time) (e : sessionEnergy) : sessionEnergy :=
  mkEnergy wh at' true (seCoverageAt e) (sePoints e) (seFloorWh e) (seFloorAt e) (seEstimatedWh e) (seSource e).
Definition withFloor (wh : f64) (at' : Time) (e : sessionEnergy) : sessionEnergy :=
  mkEnergy (seCounterWh e) (seCounterAt e) (seCounterKnown e) (seCoverageAt e) (sePoints e) wh at'
    (seEstimatedWh e) (seSource e).
Definition withEstimate (wh : f64) (src : string) (e : sessionEnergy) : sessionEnergy :=
  mkEnergy (seCounterWh e) (seCounterAt e) (seCounterKnown e) (seCoverageAt e) (sePoints e) (seFloorWh e)
    (seFloorAt e) wh src.

Definition counterRegressed (e : sessionEnergy) (s : EVSample) : bool :=
  seCounterKnown e && negb (saSessionWhUnavailable s) && finite (saSessionWh s) && fle (of_Z 0) (saSessionWh s) &&
  (IsZero (saEnergyAt s) || After (saEnergyAt s) (seCounterAt e)) && flt (saSessionWh s) (seCounterWh e).

(** [integralAt]: from the newest point back to the first one not after
    [at']; [next] is the point after it. *)
Fixpoint integralFrom (cov at' : Time) (next : option sessionPowerPoint) (rev : list sessionPowerPoint) : option f64 :=
  match rev with
  | [] => None
  | p :: rest =>
      if Before at' (pwAt p) then integralFrom cov at' (Some p) rest
      else
        Some (match next with
              | Some n => fadd (pwWh p) (fdiv (fmul (fsub (pwWh n) (pwWh p)) (Seconds (Sub at' (pwAt p))))
                                           (Seconds (Sub (pwAt n) (pwAt p))))
              | None =>
                  if negb (IsZero cov) && After at' (pwAt p)
                  then fadd (pwWh p) (fdiv (fmul (pwW p) (of_Z (Z.max 0 (Z.min at' cov - pwAt p)))) (of_Z 3600000000000))
                  else pwWh p
              end)
  end.
Definition firstWh (ps : list sessionPowerPoint) : f64 := match ps with [] => of_Z 0 | p :: _ => pwWh p end.
Definition integralAt (e : sessionEnergy) (at' : Time) : f64 :=
  default (firstWh (sePoints e)) (integralFrom (seCoverageAt e) at' None (rev (sePoints e))).

(** A new reading extends the time line: its energy is the last one's power
    over the time between them, and nothing for a gap. *)
Definition nextPoint (s : EVSample) (cov powerAt : Time) (prev : sessionPowerPoint) : sessionPowerPoint :=
  let dt := Sub powerAt (pwAt prev) in
  let wh :=
    if dt <=? PowerWindow s then fadd (pwWh prev) (fmul (pwW prev) (Hours dt))
    else if After cov (pwAt prev) then fadd (pwWh prev) (fmul (pwW prev) (Hours (Sub cov (pwAt prev))))
    else pwWh prev in
  mkPoint powerAt (bmax (of_Z 0) (saPowerW s)) wh.

Definition takePower (s : EVSample) (now : Time) (e : sessionEnergy) : sessionEnergy :=
  let powerAt := if IsZero (saPowerAt s) then now else saPowerAt s in
  if negb (saPowerUnavailable s) && finite (saPowerW s) && negb (After powerAt (GoTime.Add now Second)) &&
     (Sub now powerAt <=? PowerWindow s)
  then
    let points :=
      match last (sePoints e) with
      | None => [mkPoint powerAt (bmax (of_Z 0) (saPowerW s)) (of_Z 0)]
      | Some prev =>
          if After powerAt (pwAt prev) then sePoints e ++ [nextPoint s (seCoverageAt e) powerAt prev] else sePoints e
      end in
    let cov :=
      match last points with
      | Some p =>
          if Before powerAt (pwAt p) then seCoverageAt e
          else if (0 <? saPowerMaxAge s) && Equal powerAt (pwAt p) && After now powerAt then now else pwAt p
      | None => seCoverageAt e
      end in
    withTimeLine cov points e
  else e.

Definition takeCounter (s : EVSample) (now : Time) (e : sessionEnergy) : sessionEnergy :=
  let counterAt := if IsZero (saEnergyAt s) then now else saEnergyAt s in
  if negb (saSessionWhUnavailable s) && finite (saSessionWh s) && fle (of_Z 0) (saSessionWh s) &&
     negb (After counterAt (GoTime.Add now Second)) &&
     (negb (seCounterKnown e) ||
      (After counterAt (seCounterAt e) && (negb (IsZero (saEnergyAt s)) || fne (saSessionWh s) (seCounterWh e))))
  then withCounter (saSessionWh s) counterAt e else e.

Definition estimateOf (e : sessionEnergy) : f64 * string :=
  let total := match sePoints e with [] => of_Z 0 | _ => integralAt e (seCoverageAt e) end in
  let '(estimate, source) := (total, if flt (of_Z 0) total then "power"%string else "unavailable"%string) in
  let '(estimate, source) :=
    if seCounterKnown e then
      let extra := bmax (of_Z 0) (fsub total (integralAt e (seCounterAt e))) in
      (fadd (seCounterWh e) extra, if flt (of_Z 0) extra then "power"%string else "meter"%string)
    else (estimate, source) in
  if negb (IsZero (seFloorAt e)) && (negb (seCounterKnown e) || Before (seCounterAt e) (seFloorAt e))
  then (bmax estimate (fadd (seFloorWh e) (bmax (of_Z 0) (fsub total (integralAt e (seFloorAt e))))), "power"%string)
  else (estimate, source).

(** [len(points) > limit || (len(points) > 2 && points[1].at is over two hours old)] *)
Definition overdue {A : Type} (at' : A -> Time) (now : Time) (ps : list A) : bool :=
  (2048 <? length ps)%nat ||
  match ps with
  | _ :: p1 :: _ :: _ => Before (at' p1) (GoTime.Add now (- (2 * Hour)))
  | _ => false
  end.
Fixpoint trim {A : Type} (at' : A -> Time) (now : Time) (ps : list A) : list A :=
  match ps with
  | [] => []
  | _ :: rest => if overdue at' now ps then trim at' now rest else ps
  end.

(** [sessionEnergy.observe] *)
Definition observeMeter (s : EVSample) (now : Time) (e : sessionEnergy) : sessionEnergy * f64 :=
  let e := takeCounter s now (takePower s now e) in
  let '(estimate, source) := estimateOf e in
  let e := withEstimate estimate source e in
  let e :=
    if overdue pwAt now (sePoints e) &&
       (negb (seCounterKnown e) || match sePoints e with _ :: p1 :: _ => Before (seCounterAt e) (pwAt p1) | _ => false end)
    then withFloor estimate (seCoverageAt e) e else e in
  (withTimeLine (seCoverageAt e) (trim pwAt now (sePoints e)) e, estimate).

(** ** What a loadpoint's session delivered (controller_energy.go) *)
Record energyPoint : Type := mkEPoint { epAt : Time; epWh : f64 }.
Record meteredEnergy : Type := mkMetered {
  meDriver : string; meDevice : string; meSession : string; meGeneration : Z;
  meMeter : sessionEnergy; mePoints : list energyPoint
}.

Definition sameSession (driver : string) (s : EVSample) (e : meteredEnergy) : bool :=
  String.eqb (meDriver e) driver && String.eqb (meDevice e) (saDeviceID s) &&
  String.eqb (meSession e) (saSessionID s) && (meGeneration e =? saGeneration s) &&
  negb (counterRegressed (meMeter e) s).

Definition measuredAt (s : EVSample) (now : Time) : Time :=
  let t :=
    if IsZero (saPowerAt s) then now
    else if negb (saSessionWhUnavailable s) && After (saEnergyAt s) (saPowerAt s) then saEnergyAt s
    else saPowerAt s in
  if (0 <? saPowerMaxAge s) && negb (saPowerUnavailable s) && (Sub now (saPowerAt s) <=? PowerWindow s) then now else t.

Definition shiftPoints (d : f64) (ps : list energyPoint) : list energyPoint :=
  (fun p => mkEPoint (epAt p) (fadd (epWh p) d)) <$> ps.

Definition observeEnergy (cfg : LPConfig) (s : EVSample) (now : Time) (es : gmap string meteredEnergy)
    : gmap string meteredEnergy :=
  if negb (saConnected s) || saConnectionUnknown s then delete (cfID cfg) es
  else if saPowerUnavailable s || isNaN (saPowerW s) || isInf (saPowerW s) then es
  else
    let fresh := mkMetered (cfDriver cfg) (saDeviceID s) (saSessionID s) (saGeneration s) noEnergy [] in
    let e :=
      match es !! cfID cfg with
      | Some e => if sameSession (cfDriver cfg) s e then e else fresh
      | None => fresh
      end in
    let es := <[cfID cfg := e]> es in
    let t := measuredAt s now in
    if After t now then es
    else if match last (mePoints e) with Some p => negb (After t (epAt p)) | None => false end then es
    else
      let known := seCounterKnown (meMeter e) in
      let '(meter, wh) := observeMeter s now (meMeter e) in
      let points :=
        if negb known && seCounterKnown meter
        then shiftPoints (fsub (seCounterWh meter) (integralAt meter (seCounterAt meter))) (mePoints e) else mePoints e in
      <[cfID cfg := mkMetered (meDriver e) (meDevice e) (meSession e) (meGeneration e) meter
                      (trim epAt now (points ++ [mkEPoint t wh]))]> es.

(** From the newest point back to the first one not after the start. *)
Fixpoint whAt (start : Time) (next : option energyPoint) (rev : list energyPoint) : option f64 :=
  match rev with
  | [] => None
  | p :: rest =>
      if After (epAt p) start then whAt start (Some p) rest
      else
        Some (match next with
              | Some n =>
                  if Equal (epAt p) start then epWh p
                  else fadd (epWh p) (fdiv (fmul (fsub (epWh n) (epWh p)) (Seconds (Sub start (epAt p))))
                                        (Seconds (Sub (epAt n) (epAt p))))
              | None => epWh p
              end)
  end.

(** The energy since [start], and the seconds before the first reading. *)
Definition energySince (es : gmap string meteredEnergy) (id : string) (start now : Time) : f64 * f64 :=
  let unmeasured := (of_Z 0, bmax (of_Z 0) (Seconds (Sub now start))) in
  match es !! id with
  | None => unmeasured
  | Some e =>
      match mePoints e, last (mePoints e) with
      | p0 :: _, Some final =>
          if Before now start then unmeasured
          else if Before start (epAt p0)
          then (bmax (of_Z 0) (fsub (epWh final) (epWh p0)), Seconds (Sub (epAt p0) start))
          else
            match whAt start None (rev (mePoints e)) with
            | Some initial => (bmax (of_Z 0) (fsub (epWh final) initial), of_Z 0)
            | None => unmeasured
            end
      | _, _ => unmeasured
      end
  end.

(** ** Lemmas: the time line *)
Definition pointOk (p : sessionPowerPoint) : Prop :=
  rank (pwW p) = 0 /\ le_rel (of_Z 0) (pwW p) /\ wf (pwWh p) /\ le_rel (of_Z 0) (pwWh p).
Definition laterPoint (p q : sessionPowerPoint) : Prop := pwAt p < pwAt q /\ le_rel (pwWh p) (pwWh q).
Fixpoint increasing (ps : list sessionPowerPoint) : Prop :=
  match ps with
  | p :: rest => match rest with q :: _ => laterPoint p q | [] => True end /\ increasing rest
  | [] => True
  end.
Definition timeLine (ps : list sessionPowerPoint) : Prop := increasing ps /\ Forall pointOk ps.

Lemma increasing_snoc ps q :
  increasing ps -> (forall p, last ps = Some p -> laterPoint p q) -> increasing (ps ++ [q]).
Proof.
  induction ps as [|p [|p' ps] IH]; intros I L; cbn [app increasing].
  - easy.
  - split; [|easy]. apply L. reflexivity.
  - destruct I as [I1 I2]. split; [exact I1|]. apply IH; [exact I2|]. intros x E. apply L. exact E.
Qed.

Lemma trim_suffix {A : Type} (at' : A -> Time) now ps : exists pre, ps = pre ++ trim at' now ps.
Proof.
  induction ps as [|p ps [pre E]]; [now exists []|]. cbn [trim]. destruct (overdue at' now (p :: ps)).
  - exists (p :: pre). cbn. congruence.
  - now exists [].
Qed.
Lemma trim_short {A : Type} (at' : A -> Time) now ps : (length (trim at' now ps) <= 2048)%nat.
Proof.
  induction ps as [|p ps IH]; [cbn; lia|]. cbn [trim]. destruct (overdue at' now (p :: ps)) eqn:O; [exact IH|].
  unfold overdue in O. apply orb_false_iff in O as [O _]. now apply Nat.ltb_ge in O.
Qed.
Lemma increasing_suffix pre ps : increasing (pre ++ ps) -> increasing ps.
Proof. induction pre as [|p pre IH]; [easy|]. cbn. intros [_ I]. auto. Qed.
Lemma timeLine_suffix pre ps : timeLine (pre ++ ps) -> timeLine ps.
Proof. intros [I F]. split; [exact (increasing_suffix _ _ I)|]. now apply Forall_app in F as [_ F]. Qed.
Lemma timeLine_trim now ps : timeLine ps -> timeLine (trim pwAt now ps).
Proof. destruct (trim_suffix pwAt now ps) as [pre E]. intros T. rewrite E in T. exact (timeLine_suffix _ _ T). Qed.

Lemma bmax_finite x y : rank x = 0 -> rank y = 0 -> bmax x y = fmax x y.
Proof.
  intros Rx Ry. unfold bmax. rewrite (proj2 (isNaN_false_iff x)), (proj2 (isNaN_false_iff y)) by now apply finite_nn.
  reflexivity.
Qed.
Lemma power_ok w : finite w = true -> rank (bmax (of_Z 0) w) = 0 /\ le_rel (of_Z 0) (bmax (of_Z 0) w).
Proof.
  intros F. apply finite_iff in F. rewrite bmax_finite by (apply of_Z_rank; lia) || exact F. split; [apply fmax_fin; [apply of_Z_rank; lia|exact F]|].
  apply fmax_0_nonneg. now apply finite_nn.
Qed.

(** The energy a duration at a power adds never takes any away. *)
Lemma energy_grows wh w d : wf wh -> le_rel (of_Z 0) wh -> rank w = 0 -> le_rel (of_Z 0) w -> 0 <= d <= max_int64 ->
  let x := fadd wh (fmul w (Hours d)) in wf x /\ le_rel wh x.
Proof.
  intros W N Rw Nw D. destruct (Hours_fact d D) as (Rh & Nh & _ & _). cbv zeta.
  assert (M : le_rel (of_Z 0) (fmul w (Hours d))) by (apply fmul_of_nonneg; [assumption..|now apply fmul_nn]).
  split; [apply fadd_wf|]. apply fadd_of_ge; [exact W|exact (le_rel_nn_r _ _ N)| |exact M].
  exact (le_rel_nn_r _ _ (fadd_of_nonneg _ _ N M)).
Qed.

Lemma next_point_ok s cov powerAt prev :
  finite (saPowerW s) = true -> pwAt prev < powerAt -> pointOk prev ->
  pointOk (nextPoint s cov powerAt prev) /\ laterPoint prev (nextPoint s cov powerAt prev).
Proof.
  intros F L (Rw & Nw & W & N). destruct (power_ok _ F) as [Rp Np].
  assert (G : wf (pwWh (nextPoint s cov powerAt prev)) /\ le_rel (pwWh prev) (pwWh (nextPoint s cov powerAt prev))).
  { unfold nextPoint. cbn [pwWh]. destruct (Z.leb_spec (Sub powerAt (pwAt prev)) (PowerWindow s)).
    - apply energy_grows; try assumption. unfold Sub, max_int64, min_int64 in *. lia.
    - destruct (After cov (pwAt prev)) eqn:A.
      + apply energy_grows; try assumption. unfold After, Sub, max_int64, min_int64 in *. lia.
      + split; [exact W|]. apply le_rel_refl. exact (le_rel_nn_r _ _ N). }
  destruct G as [Gw Gl]. split.
  - split_and!; [exact Rp|exact Np|exact Gw|exact (le_rel_trans _ _ _ N Gl)].
  - split; [exact L|exact Gl].
Qed.

(** ** Lemmas: the meter *)
Definition counterOk (e : sessionEnergy) : Prop :=
  seCounterKnown e = true -> rank (seCounterWh e) = 0 /\ le_rel (of_Z 0) (seCounterWh e) /\ wf (seCounterWh e).
Definition meterOk (e : sessionEnergy) : Prop :=
  timeLine (sePoints e) /\ (length (sePoints e) <= 2048)%nat /\ counterOk e /\ notNeg (seFloorWh e).

Lemma take_power_ok s now e : timeLine (sePoints e) ->
  timeLine (sePoints (takePower s now e)) /\
  (seCounterKnown (takePower s now e), seCounterWh (takePower s now e), seFloorWh (takePower s now e)) =
  (seCounterKnown e, seCounterWh e, seFloorWh e).
Proof.
  intros [I F]. unfold takePower. cbv zeta. set (t := if IsZero (saPowerAt s) then now else saPowerAt s). clearbody t.
  destruct (negb (saPowerUnavailable s) && finite (saPowerW s) && _ && _) eqn:G; [|easy].
  apply andb_true_iff in G as [G _]. apply andb_true_iff in G as [G _]. apply andb_true_iff in G as [_ Gf].
  destruct (power_ok _ Gf) as [Rp Np]. split; [|reflexivity]. cbn [withTimeLine sePoints].
  destruct (last (sePoints e)) as [prev|] eqn:L.
  - destruct (After t (pwAt prev)) eqn:A; [|easy]. unfold After in A. apply Z.ltb_lt in A.
    assert (P : pointOk prev). { rewrite Forall_forall in F. apply F. now apply last_Some_elem_of. }
    destruct (next_point_ok s (seCoverageAt e) t prev Gf A P) as [K O]. split.
    + apply increasing_snoc; [exact I|]. intros p E. rewrite L in E. injection E as <-. exact O.
    + apply Forall_app. split; [exact F|now constructor].
  - split; [easy|]. constructor; [|constructor]. split_and!; [exact Rp|exact Np|apply of_Z_wf|apply of_Z_mono; lia].
Qed.

Lemma take_counter_ok s now e : wf (saSessionWh s) -> counterOk e -> counterOk (takeCounter s now e).
Proof.
  intros W K. unfold takeCounter. cbv zeta. destruct (_ && _) eqn:G in |- *; [|exact K].
  repeat (apply andb_true_iff in G as [G ?]). intros _. cbn [withCounter seCounterWh].
  split_and!; [now apply finite_iff|now apply fle_iff|exact W].
Qed.
Lemma take_counter_same s now e :
  sePoints (takeCounter s now e) = sePoints e /\ seFloorWh (takeCounter s now e) = seFloorWh e.
Proof. unfold takeCounter. cbv zeta. destruct (_ && _) in |- *; easy. Qed.

Lemma notNeg_bmax0 x : notNeg (bmax (of_Z 0) x).
Proof. destruct (bmax_cases (of_Z 0) x) as [->| ->]; [reflexivity|apply notNeg_max0]. Qed.
Lemma notNeg_bmax x y : notNeg x -> notNeg (bmax x y).
Proof. intros N. destruct (bmax_cases x y) as [->| ->]; [reflexivity|now apply notNeg_max]. Qed.
Lemma bmax_not_below x y z : flt x z = false -> flt (bmax x y) z = false.
Proof. intros L. destruct (bmax_cases x y) as [->| ->]; [now destruct z as [|[]|]|now apply fmax_not_below]. Qed.

(** A counter with what the power adds on top of it is never below it. *)
Lemma add_not_below c x : wf c -> rank c = 0 -> notNeg x -> flt (fadd c x) c = false.
Proof.
  intros W R N. apply notNeg_cases in N as [->|[->|(z & -> & L)]].
  - destruct c as [|[]|]; reflexivity.
  - destruct c as [|[]|]; try discriminate R. reflexivity.
  - apply le_flt_false, fadd_of_ge; [exact W|now apply finite_nn|now apply fadd_nn|].
    rewrite of_Z_0. apply fle_iff. rewrite fle_fin by reflexivity. now apply Z.leb_le.
Qed.

Lemma notNeg_div_notNeg x y : notNeg x -> notNeg y -> notNeg (fdiv x y).
Proof.
  intros Nx Ny. apply notNeg_cases in Ny as [->|[->|(b & -> & Hb)]].
  - now destruct x as [|[]|].
  - now apply notNeg_div.
  - destruct (Z.eq_dec b 0) as [->|].
    + apply notNeg_cases in Nx as [->|[->|(a & -> & Ha)]]; try reflexivity. cbn. destruct (Z.eqb_spec a 0); [reflexivity|].
      rewrite (proj2 (Z.ltb_ge a 0)) by exact Ha. reflexivity.
    + apply notNeg_div; [exact Nx|]. rewrite of_Z_0, flt_fin by reflexivity. apply Z.ltb_lt. cbn. lia.
Qed.
Lemma notNeg_sub x y : le_rel y x -> notNeg (fsub x y).
Proof.
  intros L. destruct (isNaN (fsub x y)) eqn:N; [now destruct (fsub x y)|]. apply isNaN_false_iff in N.
  apply notNeg_of_le. rewrite of_Z_0. now apply fsub_nonneg.
Qed.
Lemma notNeg_Seconds d : 0 <= d <= max_int64 -> notNeg (Seconds d).
Proof. intros D. apply notNeg_of_le. now apply Seconds_fact. Qed.
Lemma notNeg_ns n : 0 <= n -> notNeg (of_Z n).
Proof. intros H. Transparent of_Z. unfold of_Z. Opaque of_Z. apply notNeg_rnd; [pose proof unit64_pos; lia|lia]. Qed.
Lemma Sub_pos t u : u <= t -> 0 <= Sub t u <= max_int64.
Proof. unfold Sub, max_int64, min_int64. lia. Qed.

Lemma increasing_prefix ps q : increasing (ps ++ [q]) -> increasing ps.
Proof.
  induction ps as [|p [|p' ps] IH]; [easy|easy|]. intros [I1 I2]. split; [exact I1|]. apply IH. exact I2.
Qed.

Lemma integral_from_notNeg cov at' rev0 : forall next x,
  increasing (rev rev0 ++ match next with Some n => [n] | None => [] end) -> Forall pointOk rev0 ->
  integralFrom cov at' next rev0 = Some x -> notNeg x.
Proof.
  induction rev0 as [|p rest IH]; intros next x I F E; [discriminate E|]. cbn [rev integralFrom] in *.
  inversion F as [|? ? (Rw & Nw & W & N) F']; subst. destruct (Before at' (pwAt p)) eqn:B.
  - apply (IH (Some p) x); [|exact F'|exact E]. destruct next as [n|]; [exact (increasing_prefix _ _ I)|].
    now rewrite app_nil_r in I.
  - unfold Before in B. apply Z.ltb_ge in B. injection E as <-. destruct next as [n|].
    + rewrite <- app_assoc in I. apply increasing_suffix in I. destruct I as [[L G] _].
      apply notNeg_add; [now apply notNeg_of_le|]. apply notNeg_div_notNeg; [apply notNeg_mul|].
      * now apply notNeg_sub.
      * apply notNeg_Seconds, Sub_pos. exact B.
      * apply notNeg_Seconds, Sub_pos. lia.
    + destruct (_ && _); [|now apply notNeg_of_le]. apply notNeg_add; [now apply notNeg_of_le|].
      apply notNeg_div_notNeg; [apply notNeg_mul; [now apply notNeg_of_le|apply notNeg_ns; lia]|apply notNeg_ns; lia].
Qed.

Lemma integral_notNeg e at' : timeLine (sePoints e) -> notNeg (integralAt e at').
Proof.
  intros [I F]. unfold integralAt. destruct (integralFrom _ _ _ _) as [x|] eqn:E; cbn [default].
  - refine (integral_from_notNeg _ _ _ None x _ (Forall_rev F) E). now rewrite rev_involutive, app_nil_r.
  - destruct (sePoints e) as [|p ps]; [exact notNeg_0|]. inversion F as [|? ? (_ & _ & _ & N) _]; subst. now apply notNeg_of_le.
Qed.

Lemma estimate_ok e : timeLine (sePoints e) -> counterOk e -> notNeg (seFloorWh e) ->
  notNeg (fst (estimateOf e)) /\ (seCounterKnown e = true -> flt (fst (estimateOf e)) (seCounterWh e) = false).
Proof.
  intros T C F. unfold estimateOf. cbv zeta.
  set (total := match sePoints e with [] => _ | _ => _ end).
  assert (Nt : notNeg total).
  { unfold total. pose proof (integral_notNeg e (seCoverageAt e) T). destruct (sePoints e); [exact notNeg_0|assumption]. }
  clearbody total. destruct (seCounterKnown e) eqn:K.
  - destruct (C K) as (R & N & W). set (x := bmax (of_Z 0) (fsub total _)).
    assert (Nx : notNeg x) by apply notNeg_bmax0. clearbody x.
    pose proof (add_not_below _ x W R Nx) as A.
    assert (Nb : notNeg (fadd (seCounterWh e) x)) by (apply notNeg_add; [now apply notNeg_of_le|exact Nx]).
    destruct (_ && _) in |- *; cbn [fst]; [|easy]. split; [now apply notNeg_bmax|]. intros _. now apply bmax_not_below.
  - destruct (_ && _) in |- *; cbn [fst]; [|easy]. split; [now apply notNeg_bmax|easy].
Qed.

Lemma meter_ok s now e : wf (saSessionWh s) -> meterOk e ->
  let '(e', wh) := observeMeter s now e in
  meterOk e' /\ notNeg wh /\ (seCounterKnown e' = true -> flt wh (seCounterWh e') = false).
Proof.
  intros W (T & _ & C & F). unfold observeMeter. set (e1 := takePower s now e). set (e2 := takeCounter s now e1).
  destruct (take_power_ok s now e T) as [T1 K1]. fold e1 in T1, K1. injection K1 as Ka Kb Kc.
  assert (C2 : counterOk e2).
  { apply take_counter_ok; [exact W|]. unfold counterOk. rewrite Ka, Kb. exact C. }
  destruct (take_counter_same s now e1) as [P2 F2]. fold e2 in P2, F2.
  assert (N2 : notNeg (seFloorWh e2)) by (rewrite F2, Kc; exact F).
  assert (T2 : timeLine (sePoints e2)) by (rewrite P2; exact T1).
  destruct (estimate_ok e2 T2 C2 N2) as [B A]. clearbody e2. clear T1 Ka Kb Kc P2 F2. clear e1.
  destruct (estimateOf e2) as [wh src]. cbn [fst] in A, B. destruct (_ && _) in |- *.
  all: cbn [withFloor withEstimate withTimeLine sePoints seCounterKnown seCounterWh].
  all: split_and!; [split_and!; [now apply timeLine_trim|apply trim_short|exact C2|assumption]|exact B|exact A].
Qed.

(** A session: the meter after each sample and the energy it reported. *)
Definition meterStep (r : sessionEnergy * list (sessionEnergy * f64)) (x : EVSample * Time)
    : sessionEnergy * list (sessionEnergy * f64) :=
  let out := observeMeter (fst x) (snd x) (fst r) in (fst out, snd r ++ [out]).
Definition meterRun (l : list (EVSample * Time)) : list (sessionEnergy * f64) :=
  snd (fold_left meterStep l (noEnergy, [])).
Definition reportOk (out : sessionEnergy * f64) : Prop :=
  let '(e, wh) := out in
  meterOk e /\ notNeg wh /\ (seCounterKnown e = true -> flt wh (seCounterWh e) = false).

(** C29: Whatever readings a charger gives, in any order and with any gaps,
    the meter of its session stays sound: the points' times increase strictly,
    their energy never falls, no power is negative, there are at most 2048 of
    them, the counter is a number that is not negative, and no energy the meter
    reports is negative or below the charger's own counter. *)
Theorem session_meter_sound l (Hreal : Forall (fun x => wf (saSessionWh (fst x))) l) : Forall reportOk (meterRun l).
Proof.
  assert (G : forall r, meterOk (fst r) -> Forall reportOk (snd r) -> Forall reportOk (snd (fold_left meterStep l r))).
  { induction l as [|x l IH]; [easy|]. inversion Hreal as [|? ? W R]; subst. intros r M N. cbn [fold_left].
    pose proof (meter_ok (fst x) (snd x) (fst r) W M) as O. apply IH; [exact R|..]; unfold meterStep.
    - destruct (observeMeter _ _ _) as [e wh]. exact (proj1 O).
    - apply Forall_app. split; [exact N|]. constructor; [|constructor]. unfold reportOk. destruct (observeMeter _ _ _). exact O. }
  apply G; [|constructor]. split_and!; [easy|cbn; lia|discriminate|exact notNeg_0].
Qed.

(** What a plan's slot was delivered is never negative, nor is the time
    without a measurement. *)
Lemma energy_since_notNeg es id start now :
  notNeg (fst (energySince es id start now)) /\ notNeg (snd (energySince es id start now)).
Proof.
  unfold energySince. cbv zeta. assert (U : notNeg (bmax (of_Z 0) (Seconds (Sub now start)))) by apply notNeg_bmax0.
  destruct (es !! id) as [e|]; [|split; [exact notNeg_0|exact U]].
  destruct (mePoints e) as [|p0 ps]; [split; [exact notNeg_0|exact U]|].
  destruct (last (p0 :: ps)) as [f|]; [|split; [exact notNeg_0|exact U]].
  destruct (Before now start); [split; [exact notNeg_0|exact U]|]. destruct (Before start (epAt p0)) eqn:B.
  - split; [apply notNeg_bmax0|]. cbn [snd]. apply notNeg_Seconds, Sub_pos. unfold Before in B. lia.
  - destruct (whAt _ _ _); split; first [apply notNeg_bmax0|exact notNeg_0|exact U].
Qed.

(** 6 kW for a minute, then a counter that has seen more. *)
Definition demoReading (t : Time) (w wh : Z) : EVSample * Time :=
  (mkSample false 1 (of_Z w) (of_Z wh) (wh =? 0) false t (2 * Minute) zeroTime true true "dev" "s1", t).
Lemma session_meter_sound_witness :
  Forall reportOk (meterRun [demoReading Hour 6000 0; demoReading (Hour + Minute) 6000 0;
                             demoReading (Hour + 2 * Minute) 6000 250]).
Proof.
  apply (session_meter_sound [demoReading Hour 6000 0; demoReading (Hour + Minute) 6000 0;
                              demoReading (Hour + 2 * Minute) 6000 250]).
  repeat (apply Forall_cons_2; [apply of_Z_wf|]). apply Forall_nil_2.
Defined.
