(* ===== verification/OnePhaseCar.v ===== *)
(** * Cars that draw on one phase (go/internal/loadpoint/one_phase_car.go)

    A rise of a three-phase order is a test: one phase of the site meter rising
    with it while the other two stay put is a one-phase car. *)
From Stdlib Require Import ZArith Lia.
From S2P Require Import Prelude Float64 GoTime LoadpointData SessionEnergy.
From stdpp Require Import base gmap strings list.
#[local] Open Scope Z_scope.

Definition onePhaseStepA : f64 := of_Z 2.
Definition onePhaseHold : Duration := 30 * Second.
Definition onePhaseSettle : Duration := Minute.
Definition onePhaseUnknownSettle : Duration := 3 * Minute.

Record SitePhases : Type := mkSitePhases { spA : list f64; spAt : Time }.

Record phaseTest : Type := mkTest {
  ptAt : Time; ptUntil : Time; ptBaseline : list f64; ptBaseDrawA : f64; ptFromA : f64;
  ptVerdict : Z; ptSince : Time
}.
Record carPhases : Type := mkCarPhases {
  cpOrderA : f64; cpRising : bool; cpBefore : list f64; cpBeforeDrawA : f64;
  cpLast : list f64; cpLastDrawA : f64; cpSeen : bool; cpTest : option phaseTest;
  cpPhase : Z; cpThree : bool
}.
Definition zero3 : list f64 := replicate 3 (of_Z 0).
Definition noCarPhases : carPhases :=
  mkCarPhases (of_Z 0) false zero3 (of_Z 0) zero3 (of_Z 0) false None 0 false.
Definition withLast (a : list f64) (draw : f64) (s : carPhases) : carPhases :=
  mkCarPhases (cpOrderA s) (cpRising s) (cpBefore s) (cpBeforeDrawA s) a draw true (cpTest s) (cpPhase s) (cpThree s).
Definition withRise (order : f64) (rising : bool) (s : carPhases) : carPhases :=
  mkCarPhases order rising (cpBefore s) (cpBeforeDrawA s) (cpLast s) (cpLastDrawA s) (cpSeen s) (cpTest s)
    (cpPhase s) (cpThree s).
Definition withBefore (a : list f64) (draw : f64) (s : carPhases) : carPhases :=
  mkCarPhases (cpOrderA s) true a draw (cpLast s) (cpLastDrawA s) (cpSeen s) (cpTest s) (cpPhase s) (cpThree s).
Definition withTest (t : option phaseTest) (s : carPhases) : carPhases :=
  mkCarPhases (cpOrderA s) (cpRising s) (cpBefore s) (cpBeforeDrawA s) (cpLast s) (cpLastDrawA s) (cpSeen s) t
    (cpPhase s) (cpThree s).
Definition withMark (phase : Z) (three : bool) (s : carPhases) : carPhases :=
  mkCarPhases (cpOrderA s) (cpRising s) (cpBefore s) (cpBeforeDrawA s) (cpLast s) (cpLastDrawA s) (cpSeen s) None
    phase three.

Definition phaseOf (l : list f64) (i : nat) : f64 := default (of_Z 0) (l !! i).
(** The phase that moved most, and by how much. *)
Definition biggest (moved : list f64) : nat * f64 :=
  fold_left (fun acc i => if flt (snd acc) (phaseOf moved i) then (i, phaseOf moved i) else acc)
    [0%nat; 1%nat; 2%nat] (0%nat, Inf true).
Definition others (k : nat) (p : f64 -> bool) (moved : list f64) : nat :=
  length (List.filter (fun i => negb (Nat.eqb i k) && p (phaseOf moved i)) [0%nat; 1%nat; 2%nat]).

Definition phaseVerdict (amps baseline : list f64) (riseA drawA : f64) : Z :=
  let moved := (fun i => fsub (phaseOf amps i) (phaseOf baseline i)) <$> [0%nat; 1%nat; 2%nat] in
  let '(k, big) := biggest moved in
  if negb (finite big) || flt big (fmax onePhaseStepA (fdiv riseA (of_Z 2))) || flt (fadd riseA onePhaseStepA) big then 0
  else
    let quiet := others k (fun m => fle (fabs m) (fmax (of_Z 1) (fdiv big (of_Z 4)))) moved in
    let rose := others k (fun m => fle (fdiv big (of_Z 2)) m) moved in
    let sum := fadd (fadd (phaseOf moved 0) (phaseOf moved 1)) (phaseOf moved 2) in
    let between x := fle (fmul (lit 6 10) x) drawA && fle drawA (fmul (lit 15 10) x) in
    if negb (finite drawA) then 0
    else if (rose =? 2)%nat && between sum then -1
    else if (quiet =? 2)%nat && between big then Z.of_nat k + 1
    else 0.

(** [Manager.observePhases] for a plugged-in loadpoint. *)
Definition dropTest (orderA : f64) (now : Time) (s : carPhases) : carPhases :=
  match cpTest s with
  | Some t => if flt (fsub orderA (ptFromA t)) onePhaseStepA || After now (ptUntil t) then withTest None s else s
  | None => s
  end.
Definition watchRise (orderA : f64) (seen : bool) (previous : list f64) (previousDrawA : f64) (s : carPhases) : carPhases :=
  if fle orderA (cpOrderA s) then withRise orderA false s
  else if negb seen then withRise orderA (cpRising s) s
  else if negb (cpRising s) then withBefore previous previousDrawA s
  else s.
Definition judge (meter : SitePhases) (orderA drawA : f64) (now : Time) (t : phaseTest) (s : carPhases) : carPhases :=
  let s := withRise (bmax (cpOrderA s) orderA) (cpRising s) s in
  if Before (spAt meter) (ptAt t) then s
  else
    let v := phaseVerdict (spA meter) (ptBaseline t) (fsub orderA (ptFromA t)) (fsub drawA (ptBaseDrawA t)) in
    let t := if v =? ptVerdict t then t
             else mkTest (ptAt t) (ptUntil t) (ptBaseline t) (ptBaseDrawA t) (ptFromA t) v now in
    let s := withTest (Some t) s in
    if (ptVerdict t =? 0) || (Sub now (ptSince t) <? onePhaseHold) then s
    else withMark (Z.max (ptVerdict t) 0) (ptVerdict t <? 0) s.

Definition observeCarPhases (lp : LPState) (meter : SitePhases) (drawA voltage : f64) (settle : Duration) (now : Time)
    (s : carPhases) : carPhases :=
  let '(previous, previousDrawA, seen) := (cpLast s, cpLastDrawA s, cpSeen s) in
  let s := withLast (spA meter) drawA s in
  if negb (lpCommandedKnown lp) || negb (lpCommandedPhases lp =? 3) || negb (finite (lpCommandedW lp))
  then withRise (cpOrderA s) false (withTest None s)
  else
    let orderA := fdiv (fmax (of_Z 0) (lpCommandedW lp)) (fmul (of_Z 3) voltage) in
    let s := dropTest orderA now s in
    match cpTest s with
    | Some t => judge meter orderA drawA now t s
    | None =>
        let s := watchRise orderA seen previous previousDrawA s in
        if negb (cpRising s) || flt (fsub orderA (cpOrderA s)) onePhaseStepA then s
        else
          let t := mkTest now (GoTime.Add now (settle + onePhaseHold)) (cpBefore s) (cpBeforeDrawA s) (cpOrderA s) 0 zeroTime in
          judge meter orderA drawA now t (withRise orderA false (withTest (Some t) s))
    end.

(** [Controller.observePhases]: only on a fresh reading of a three-phase site. *)
Definition observePhases (site : SiteFuse) (meter : option SitePhases) (sample : EVSample) (lp : LPState) (now : Time)
    (s : carPhases) : carPhases :=
  if negb (saConnected sample) || negb (Phases site =? 3) then s
  else
    match meter with
    | None => s
    | Some meter =>
        if After (spAt meter) (GoTime.Add now Second) || (10 * Second <? Sub now (spAt meter)) then s
        else
          let v := fuseVoltage site in
          let voltage := if negb (finite v) || fle v (of_Z 0) then of_Z 230 else v in
          let drawA :=
            if negb (saPowerUnavailable sample) && finite (saPowerW sample) then fdiv (saPowerW sample) voltage else NaN in
          let settle :=
            if 0 <? saPowerMaxAge sample then Z.max onePhaseSettle (PowerWindow sample) else onePhaseUnknownSettle in
          if negb (lpPluggedIn lp) then s else observeCarPhases lp meter drawA voltage settle now s
    end.

(** The snapshot's [CarPhases]. *)
Definition CarPhases (s : carPhases) : Z := if 0 <? cpPhase s then 1 else if cpThree s then 3 else 0.

(** ** Lemmas *)
(** A one-phase verdict: that phase rose by at least two amps and at least half
    the order's rise, no more than the rise and two amps, the charger drew as
    much, and each of the other two moved by at most a quarter of it or an amp. *)
Definition onePhaseSeen (amps baseline : list f64) (riseA drawA : f64) (k : nat) : Prop :=
  let moved i := fsub (phaseOf amps i) (phaseOf baseline i) in
  let big := moved k in
  (k < 3)%nat /\ flt big onePhaseStepA = false /\ flt big (fdiv riseA (of_Z 2)) = false /\
  flt (fadd riseA onePhaseStepA) big = false /\
  fle (fmul (lit 6 10) big) drawA = true /\ fle drawA (fmul (lit 15 10) big) = true /\
  forall i, (i < 3)%nat -> i <> k -> fle (fabs (moved i)) (fmax (of_Z 1) (fdiv big (of_Z 4))) = true.

Lemma others_two k (p : f64 -> bool) moved : (k < 3)%nat -> others k p moved = 2%nat ->
  forall i, (i < 3)%nat -> i <> k -> p (phaseOf moved i) = true.
Proof.
  unfold others. intros K E i I N.
  assert (A : forall l : list nat, length (List.filter (fun i => negb (Nat.eqb i k) && p (phaseOf moved i)) l) =
                 length (List.filter (fun i => negb (Nat.eqb i k)) l) ->
               In i l -> p (phaseOf moved i) = true).
  { clear E. induction l as [|x l IH]; [easy|]. cbn [List.filter In]. intros E D.
    assert (Le : (length (List.filter (fun i => negb (Nat.eqb i k) && p (phaseOf moved i)) l) <=
                  length (List.filter (fun i => negb (Nat.eqb i k)) l))%nat).
    { clear. induction l as [|x l IH]; [reflexivity|]. cbn [List.filter]. destruct (negb (x =? k)%nat); cbn [andb]; [|exact IH].
      destruct (p (phaseOf moved x)); cbn [length]; lia. }
    destruct (Nat.eqb_spec x k) as [->|X]; cbn [negb andb] in E.
    - destruct D as [->|D]; [now elim N|]. now apply IH.
    - destruct (p (phaseOf moved x)) eqn:P; cbn [length] in E; [|lia].
      destruct D as [->|D]; [exact P|]. apply IH; [lia|exact D]. }
  apply (A [0%nat; 1%nat; 2%nat]); [|cbn; lia]. rewrite E. destruct k as [|[|[|k]]]; cbn; try reflexivity.
  lia.
Qed.

Lemma biggest_spec moved : (fst (biggest moved) < 3)%nat /\
  (finite (snd (biggest moved)) = true -> snd (biggest moved) = phaseOf moved (fst (biggest moved))).
Proof.
  unfold biggest. cbn [fold_left]. set (a := phaseOf moved 0). set (b := phaseOf moved 1). set (c := phaseOf moved 2).
  destruct (flt (snd _) a); cbn [snd fst]; destruct (flt _ b); cbn [snd fst]; destruct (flt _ c); cbn [snd fst];
    (split; [lia|intros F; first [reflexivity|exfalso; vm_compute in F; discriminate F]]).
Qed.

Lemma phase_verdict_one amps baseline riseA drawA k : finite riseA = true ->
  phaseVerdict amps baseline riseA drawA = Z.of_nat k + 1 -> onePhaseSeen amps baseline riseA drawA k.
Proof.
  intros FR. unfold phaseVerdict. set (moved := _ <$> _). pose proof (biggest_spec moved) as [B1 B2].
  destruct (biggest moved) as [k' big]. cbn [fst snd] in B1, B2.
  destruct (negb (finite big) || _ || _) eqn:G; [lia|]. apply orb_false_iff in G as [G G3].
  apply orb_false_iff in G as [G1 G2]. apply negb_false_iff in G1. specialize (B2 G1). cbv zeta.
  destruct (negb (finite drawA)); [lia|]. destruct (_ && _) in |- *; [lia|].
  destruct (_ && _) eqn:Q in |- *; [|lia]. intros E. assert (k' = k) as -> by lia.
  apply andb_true_iff in Q as [Q D]. apply Nat.eqb_eq in Q. apply andb_true_iff in D as [D1 D2].
  assert (M : forall i, (i < 3)%nat -> phaseOf moved i = fsub (phaseOf amps i) (phaseOf baseline i)).
  { intros i I. destruct i as [|[|[|i]]]; [reflexivity..|lia]. }
  unfold onePhaseSeen. cbv zeta. rewrite <- (M k B1), <- B2.
  assert (H2 : rank (fdiv riseA (of_Z 2)) <> 2).
  { apply fdiv_nn; [now apply finite_iff|apply of_Z_rank; lia|vm_compute; discriminate]. }
  assert (F : forall x, le_rel x (fmax onePhaseStepA (fdiv riseA (of_Z 2))) -> flt big x = false).
  { intros x L. destruct (flt big x) eqn:T; [|reflexivity]. rewrite (flt_le_trans _ _ _ T L) in G2. discriminate G2. }
  assert (S2 : rank onePhaseStepA <> 2) by (apply of_Z_nn; lia).
  split_and!; [exact B1| | |exact G3|exact D1|exact D2|].
  - apply F. destruct (fmax_spec onePhaseStepA _ S2 H2) as [[-> _]|[-> ?]]; [now apply le_rel_refl|assumption].
  - apply F. destruct (fmax_spec onePhaseStepA _ S2 H2) as [[-> ?]|[-> _]]; [assumption|now apply le_rel_refl].
  - intros i I N. rewrite <- (M i I). exact (others_two k _ moved B1 Q i I N).
Qed.

(** A car is marked one-phase only when this reading shows it, against the
    meter before a rise of the order, and the verdict has held for 30 s. *)
Lemma one_phase_mark meter orderA drawA now t s :
  let s' := judge meter orderA drawA now t s in
  cpPhase s' = cpPhase s \/ cpPhase s' = 0 \/
  exists since, ptVerdict t = cpPhase s' /\ since = ptSince t /\ onePhaseHold <= Sub now since /\
    phaseVerdict (spA meter) (ptBaseline t) (fsub orderA (ptFromA t)) (fsub drawA (ptBaseDrawA t)) = cpPhase s'.
Proof.
  unfold judge. cbv zeta. destruct (Before _ _); [now left|].
  set (v := phaseVerdict _ _ _ _). destruct (v =? ptVerdict t) eqn:V; cbn [ptVerdict ptSince].
  - apply Z.eqb_eq in V. destruct (ptVerdict t =? 0) eqn:Z0; cbn [orb]; [now left|].
    destruct (Sub now (ptSince t) <? onePhaseHold) eqn:H; [now left|]. right. cbn [cpPhase withMark].
    destruct (Z.max_spec (ptVerdict t) 0) as [[? ->]|[? ->]]; [now left|]. right. exists (ptSince t).
    apply Z.ltb_ge in H. split_and!; [reflexivity..|exact H|exact V].
  - replace (Sub now now) with 0 by (unfold Sub, max_int64, min_int64; lia).
    change (0 <? onePhaseHold) with true. rewrite orb_true_r. now left.
Qed.
