(* ===== verification/SurplusReserve.v ===== *)
(** * Spare solar power between the cars and the battery
    (go/internal/loadpoint/surplus_reserve.go)

    What dispatch leaves to surplus-only cars, what they draw, what curtailment
    must leave, and what is left for them this tick. *)
From Stdlib Require Import ZArith Lia.
From S2P Require Import Prelude Float64 GoTime LoadpointData.
From stdpp Require Import base gmap strings list.
#[local] Open Scope Z_scope.

Definition EVRampHeadroomW : f64 := of_Z 2000.
Definition GridChargeImportW : f64 := of_Z 100.

Definition surplusOnlyProtected (st : LPState) : bool := lpSurplusOnly st && lpPluggedIn st && negb (lpManualActive st).
Definition knownFull (st : LPState) : bool :=
  flt (of_Z 0) (lpVehicleSoC st) && flt (of_Z 0) (lpVehicleChargeLimit st) &&
  fle (lpVehicleChargeLimit st) (lpVehicleSoC st).

(** One loadpoint's part of the reserve; [None] when it takes none. *)
Definition reserveOf (kicked : bool) (st : LPState) : option f64 :=
  if negb (surplusOnlyProtected st) then None
  else
    let floor := if fle (lpMinChargeW st) (of_Z 0) then EVRampHeadroomW else lpMinChargeW st in
    if kicked then
      let floor := if flt floor (lpCurrentPowerW st) then lpCurrentPowerW st else floor in
      let ceiling := fadd floor EVRampHeadroomW in
      Some (if flt (lpMaxChargeW st) ceiling then lpMaxChargeW st else ceiling)
    else if flt (lpCurrentPowerW st) (of_Z 50) then
      if knownFull st then None
      else Some (if flt (lpMaxChargeW st) floor && flt (of_Z 0) (lpMaxChargeW st) then lpMaxChargeW st else floor)
    else
      let ceiling := fadd (lpCurrentPowerW st) EVRampHeadroomW in
      let ceiling := if flt (lpMaxChargeW st) ceiling then lpMaxChargeW st else ceiling in
      Some (if flt ceiling (of_Z 0) then of_Z 0 else ceiling).

Definition sumOf (f : LPState -> option f64) (states : list LPState) : f64 :=
  fold_left (fun sum st => match f st with Some w => fadd sum w | None => sum end) states (of_Z 0).

Definition SurplusReserveW (states : list LPState) (wakeKickActiveIDs : gmap string bool) : f64 :=
  sumOf (fun st => reserveOf (default false (wakeKickActiveIDs !! lpID st)) st) states.

Definition SurplusChargingW (states : list LPState) : f64 :=
  sumOf (fun st => if negb (surplusOnlyProtected st) || fle (lpCurrentPowerW st) (of_Z 0) then None
                   else Some (lpCurrentPowerW st)) states.

Definition potentialOf (st : LPState) : option f64 :=
  if negb (lpSurplusOnly st) || negb (lpPluggedIn st) then None
  else if knownFull st then None
  else
    let head := lpMaxChargeW st in
    let head := if fle head (of_Z 0) then lpMinChargeW st else head in
    Some (if fle head (of_Z 0) then EVRampHeadroomW else head).
Definition SurplusPotentialW (states : list LPState) : f64 := sumOf potentialOf states.

Definition PlannedPVSoakW (batteryW gridW : f64) : f64 :=
  if fle batteryW (of_Z 0) || flt GridChargeImportW gridW then of_Z 0 else batteryW.

Definition SurplusAvailableForEVW (gridW batW evW : f64) (surplusOnlyActive : bool) : f64 :=
  let leftover := fadd (fadd (fneg gridW) batW) evW in
  let leftover := if surplusOnlyActive then fsub leftover (PlannedPVSoakW batW (fsub gridW evW)) else leftover in
  if flt leftover (of_Z 0) then of_Z 0 else leftover.

(** ** Lemmas *)
Lemma sum_notNeg (f : LPState -> option f64) states :
  (forall st w, f st = Some w -> notNeg w) -> notNeg (sumOf f states).
Proof.
  intros F. unfold sumOf. assert (G : forall acc, notNeg acc ->
    notNeg (fold_left (fun sum st => match f st with Some w => fadd sum w | None => sum end) states acc)).
  { induction states as [|st states IH]; [easy|]. intros acc N. cbn [fold_left]. apply IH.
    destruct (f st) as [w|] eqn:E; [|exact N]. apply notNeg_add; [exact N|exact (F _ _ E)]. }
  apply G. exact notNeg_0.
Qed.

Lemma surplus_charging_notNeg states : notNeg (SurplusChargingW states).
Proof.
  apply sum_notNeg. intros st w. destruct (negb _ || fle (lpCurrentPowerW st) (of_Z 0)) eqn:G; [intros E; discriminate E|].
  intros E. apply (inj Some) in E. subst w. apply orb_false_iff in G as [_ G].
  destruct (isNaN (lpCurrentPowerW st)) eqn:N; [now destruct (lpCurrentPowerW st)|].
  apply notNeg_pos, fle_false_flt; [exact G|now apply isNaN_false_iff|apply of_Z_nn; lia].
Qed.

Lemma surplus_available_notNeg gridW batW evW on : notNeg (SurplusAvailableForEVW gridW batW evW on).
Proof. unfold SurplusAvailableForEVW. cbv zeta. destruct (flt _ (of_Z 0)) eqn:E; [exact notNeg_0|exact E]. Qed.
