(* ===== verification/SurplusCharge.v ===== *)
(** * Charging from spare solar power (go/internal/loadpoint/controller.go)

    The surplus window with its pause and resume, the steps surplus may order,
    the one- or three-phase choice that holds for half an hour, the orders whose
    effect the meter has not shown yet, and the arm that unlocks surplus from
    the home battery's charge. *)
From Stdlib Require Import ZArith Lia.
From S2P Require Import Prelude Float64 GoTime LoadpointData ChargeSteps SurplusReserve.
From stdpp Require Import base gmap strings list.
#[local] Open Scope Z_scope.

Definition batSoCPVGoneTicks : Z := 6.
Definition surplusWindowSize : nat := 4.
Definition surplusResumeMarginW : f64 := of_Z 200.
Definition surplusMinPauseHold : Duration := 35 * Second.
Definition phaseSwitchMinHold : Duration := 30 * Minute.
Definition CommandSettle : Duration := 20 * Second.
Definition surplusRaiseSettle : Duration := 3 * Minute.
Definition BatSoCUnlockHyst : f64 := lit 5 100.

(** ** The window *)
Record surplusWindow : Type := mkWindow { swBuf : list f64; swN : nat; swHead : nat }.
Definition noWindow : surplusWindow := mkWindow (replicate surplusWindowSize (of_Z 0)) 0 0.
Definition mean (w : surplusWindow) : f64 :=
  fdiv (fold_left fadd (take (swN w) (swBuf w)) (of_Z 0)) (of_Z (Z.of_nat (swN w))).
Definition push (v : f64) (w : surplusWindow) : surplusWindow * f64 :=
  let w := mkWindow (<[swHead w := v]> (swBuf w))
             (if (swN w <? surplusWindowSize)%nat then S (swN w) else swN w) (S (swHead w) mod surplusWindowSize)%nat in
  (w, mean w).

Record surplusOrder : Type := mkSurplusOrder { soW : f64; soPrevW : f64; soAt : Time; soBelow : bool; soShown : bool }.
Definition noSurplusOrder : surplusOrder := mkSurplusOrder (of_Z 0) (of_Z 0) zeroTime false false.

(** ** The controller's surplus state, by loadpoint *)
Record phaseMemo : Type := mkMemo {
  phLocked1P : gmap string bool; phLockedAt : gmap string Time;
  phSelected3P : gmap string bool; phSelectedAt : gmap string Time
}.
Record Surplus : Type := mkSurplus {
  suWin : gmap string surplusWindow; suPaused : gmap string bool; suPausedAt : gmap string Time;
  suStepW : gmap string f64; suOrders : gmap string surplusOrder; suPhase : phaseMemo;
  suArmed : gmap string bool; suNoPV : gmap string Z
}.
Definition noMemo : phaseMemo := mkMemo ∅ ∅ ∅ ∅.
Definition noSurplus : Surplus := mkSurplus ∅ ∅ ∅ ∅ ∅ noMemo ∅ ∅.
Definition withWin (x : gmap string surplusWindow) (s : Surplus) : Surplus :=
  mkSurplus x (suPaused s) (suPausedAt s) (suStepW s) (suOrders s) (suPhase s) (suArmed s) (suNoPV s).
Definition withPause (p : gmap string bool) (a : gmap string Time) (s : Surplus) : Surplus :=
  mkSurplus (suWin s) p a (suStepW s) (suOrders s) (suPhase s) (suArmed s) (suNoPV s).
Definition withStepW (x : gmap string f64) (s : Surplus) : Surplus :=
  mkSurplus (suWin s) (suPaused s) (suPausedAt s) x (suOrders s) (suPhase s) (suArmed s) (suNoPV s).
Definition withOrders (x : gmap string surplusOrder) (s : Surplus) : Surplus :=
  mkSurplus (suWin s) (suPaused s) (suPausedAt s) (suStepW s) x (suPhase s) (suArmed s) (suNoPV s).
Definition withPhase (x : phaseMemo) (s : Surplus) : Surplus :=
  mkSurplus (suWin s) (suPaused s) (suPausedAt s) (suStepW s) (suOrders s) x (suArmed s) (suNoPV s).
Definition withArm (a : gmap string bool) (n : gmap string Z) (s : Surplus) : Surplus :=
  mkSurplus (suWin s) (suPaused s) (suPausedAt s) (suStepW s) (suOrders s) (suPhase s) a n.

Definition resetSurplusSession (id : string) (s : Surplus) : Surplus :=
  withPause (delete id (suPaused s)) (delete id (suPausedAt s)) (withWin (delete id (suWin s)) s).
Definition recordSurplus (id : string) (v : f64) (s : Surplus) : Surplus * f64 :=
  let '(w, avg) := push v (default noWindow (suWin s !! id)) in (withWin (<[id := w]> (suWin s)) s, avg).
Definition getSurplusPause (id : string) (s : Surplus) : bool * Time :=
  (default false (suPaused s !! id), default zeroTime (suPausedAt s !! id)).
Definition setSurplusPause (id : string) (paused : bool) (at' : Time) (s : Surplus) : Surplus :=
  withPause (<[id := paused]> (suPaused s))
    (if paused then <[id := at']> (suPausedAt s) else delete id (suPausedAt s)) s.
Definition getSurplusStepW (id : string) (s : Surplus) : f64 := default (of_Z 0) (suStepW s !! id).
Definition setSurplusStepW (id : string) (w : f64) (s : Surplus) : Surplus := withStepW (<[id := w]> (suStepW s)) s.

(** ** Orders on their way *)
Definition noteSurplusOrder (id : string) (now : Time) (w : f64) (s : Surplus) : Surplus :=
  let o := default noSurplusOrder (suOrders s !! id) in
  if match suOrders s !! id with None => true | Some o => fne (soW o) w end
  then withOrders (<[id := mkSurplusOrder w (soW o) now false false]> (suOrders s)) s else s.

Definition seeReading (st : LPState) (o : surplusOrder) : surplusOrder :=
  let reading := fmax (of_Z 0) (lpCurrentPowerW st) in
  let order := fmax (of_Z 0) (soW o) in
  if flt reading (fdiv (fadd (fmax (of_Z 0) (soPrevW o)) order) (of_Z 2))
  then mkSurplusOrder (soW o) (soPrevW o) (soAt o) true (soShown o)
  else if soBelow o then mkSurplusOrder (soW o) (soPrevW o) (soAt o) (soBelow o) true else o.

(** One charger: [(adjW, raisingW, state)]. *)
Definition adjustStep (now : Time) (id : string) (acc : f64 * f64 * Surplus) (st : LPState) : f64 * f64 * Surplus :=
  let '(adjW, raisingW, s) := acc in
  match suOrders s !! lpID st with
  | Some o =>
      if negb (lpPluggedIn st) || negb (finite (lpCurrentPowerW st)) then acc
      else
        let o := seeReading st o in
        let s := withOrders (<[lpID st := o]> (suOrders s)) s in
        let reading := fmax (of_Z 0) (lpCurrentPowerW st) in
        let order := fmax (of_Z 0) (soW o) in
        if flt (soPrevW o) order && negb (soShown o) && (Sub now (soAt o) <? surplusRaiseSettle)
        then (fadd adjW (fsub order reading), if String.eqb (lpID st) id then order else raisingW, s)
        else if feq order (of_Z 0) then (fsub adjW reading, raisingW, s)
        else (adjW, raisingW, s)
  | None => acc
  end.
Definition surplusOrderAdjustW (now : Time) (id : string) (states : list LPState) (s : Surplus) : f64 * f64 * Surplus :=
  fold_left (adjustStep now id) states (of_Z 0, of_Z 0, s).

(** ** What the controller is wired to
    A reader that is not wired is [None]; one that has no reading gives [None].
    The site's surplus reader calls back into [AnyLoadpointSurplusActive], so it
    reads the arms. [localDay] is the calendar day in the box's time zone. *)
Record SurplusEnv : Type := mkEnv {
  enSite : SiteFuse;
  enSurplus : option (gmap string bool -> option f64);
  enPeak : option (option f64);
  enNear : option (option f64);
  enBatSoC : option (option f64)
}.

Section Charge.
Variable localDay : Time -> Z.
Definition sameLocalDay (a b : Time) : bool :=
  if IsZero a || IsZero b then false else localDay a =? localDay b.

(** ** The arm *)
Definition evalBatSoCArm (env : SurplusEnv) (id : string) (threshold : f64) (s : Surplus) : bool * Surplus :=
  match enBatSoC env with
  | None => (false, s)
  | Some soc =>
      if fle threshold (of_Z 0) then (false, s)
      else
        let pvGone :=
          match enSurplus env with
          | Some rd => match rd (suArmed s) with Some w => negb (flt (of_Z 0) w) | None => true end
          | None => true
          end in
        let prev := default false (suArmed s !! id) in
        match soc with
        | None => (prev, s)
        | Some soc =>
            let n := if pvGone then default 0 (suNoPV s !! id) + 1 else 0 in
            let armed :=
              if flt soc (fsub threshold BatSoCUnlockHyst) then false
              else if fle threshold soc && negb pvGone then true
              else if batSoCPVGoneTicks <=? n then false
              else prev in
            (armed, withArm (<[id := armed]> (suArmed s)) (<[id := n]> (suNoPV s)) s)
        end
  end.

(** [fallback]: this tick's directive reserves a saved deadline. *)
Definition surplusActive (env : SurplusEnv) (cfg : LPConfig) (sched : Schedule) (fallback : bool) (s : Surplus)
    : bool * Surplus :=
  if cfSurplusOnly cfg then (true, s)
  else if HasTarget sched then (false, s)
  else if fallback then (false, s)
  else evalBatSoCArm env (cfID cfg) (scUnlock sched) s.
Definition surplusAddsToPlan (env : SurplusEnv) (cfg : LPConfig) (sched : Schedule) (s : Surplus) : bool * Surplus :=
  if cfSurplusOnly cfg || negb (HasTarget sched) then (false, s)
  else evalBatSoCArm env (cfID cfg) (scUnlock sched) s.
Definition AnyLoadpointSurplusActive (cfgs : list LPConfig) (scheds : gmap string Schedule) (s : Surplus) : bool :=
  existsb (fun cfg =>
    cfSurplusOnly cfg ||
    (flt (of_Z 0) (scUnlock (default noSchedule (scheds !! cfID cfg))) && default false (suArmed s !! cfID cfg))) cfgs.

(** ** The phase choice *)
Definition clearLock (id : string) (m : phaseMemo) : phaseMemo :=
  mkMemo (delete id (phLocked1P m)) (delete id (phLockedAt m)) (phSelected3P m) (phSelectedAt m).
Definition clearSelected (id : string) (m : phaseMemo) : phaseMemo :=
  mkMemo (phLocked1P m) (phLockedAt m) (delete id (phSelected3P m)) (delete id (phSelectedAt m)).
Definition selectPhaseLocked (id : string) (three : bool) (now : Time) (m : phaseMemo) : phaseMemo :=
  mkMemo (phLocked1P m) (phLockedAt m) (<[id := three]> (phSelected3P m)) (<[id := now]> (phSelectedAt m)).
Definition selectPhaseLocked3P (id : string) (now : Time) (m : phaseMemo) : phaseMemo :=
  if default false (phSelected3P m !! id) then m else selectPhaseLocked id true now m.
Definition lock1P (id : string) (now : Time) (m : phaseMemo) : phaseMemo :=
  mkMemo (<[id := true]> (phLocked1P m)) (<[id := now]> (phLockedAt m)) (phSelected3P m) (phSelectedAt m).
Definition surplusLockedTo1P (id : string) (m : phaseMemo) : bool := default false (phLocked1P m !! id).
Definition dwellSelectedPhaseMode (id : string) (m : phaseMemo) : string :=
  match phSelected3P m !! id with None => ""%string | Some true => "3p"%string | Some false => "1p"%string end.

Definition liveSurplusW (env : SurplusEnv) (id : string) (s : Surplus) : option f64 :=
  match enSurplus env with
  | None => None
  | Some rd =>
      match rd (suArmed s) with
      | None => None
      | Some w =>
          if negb (finite w) then None
          else
            Some (match suWin s !! id with
                  | Some win => if (0 <? swN win)%nat then fmin w (mean win) else w
                  | None => w
                  end)
      end
  end.
Definition covers (live : option f64) (minStep : f64) : bool :=
  match live with Some w => fle minStep w | None => false end.
Definition atLeastLive (live : option f64) (peak : f64) : f64 :=
  match live with Some w => if flt peak w then w else peak | None => peak end.

(** From [afterNearTerm]: the day's peak, and the lock for the rest of the day. *)
Definition dayChoice (env : SurplusEnv) (cfg : LPConfig) (live : option f64) (steps3 : list f64) (minStep : f64)
    (now : Time) (m : phaseMemo) : list f64 * phaseMemo :=
  let id := cfID cfg in
  match enPeak env with
  | None | Some None => (steps3, m)
  | Some (Some peak) =>
      if fle minStep (atLeastLive live peak) then (steps3, m)
      else if negb (cfSurplusOnly cfg) then (cfSteps cfg, m)
      else if default false (phSelected3P m !! id) && (Sub now (default zeroTime (phSelectedAt m !! id)) <? phaseSwitchMinHold)
      then (steps3, m)
      else (cfSteps cfg, clearSelected id (lock1P id now m))
  end.

(** The near-term gate: [None] falls through to the day's peak without a
    decision. *)
Definition nearChoice (peak : option f64) (id : string) (minStep : f64) (now : Time) (m : phaseMemo)
    : option bool * phaseMemo :=
  let m :=
    match phSelected3P m !! id with
    | Some _ => if sameLocalDay (default zeroTime (phSelectedAt m !! id)) now then m else clearSelected id m
    | None => m
    end in
  let record sel := (Some sel, selectPhaseLocked id sel now m) in
  match peak, phSelected3P m !! id with
  | None, None => (None, m)
  | None, Some prev => (Some prev, m)
  | Some peak, None => record (fle minStep peak)
  | Some peak, Some prev =>
      if Sub now (default zeroTime (phSelectedAt m !! id)) <? phaseSwitchMinHold then (Some prev, m)
      else
        let sel := fle minStep peak in
        if Bool.eqb sel prev then (Some sel, m) else record sel
  end.

Definition pickUnlocked (env : SurplusEnv) (cfg : LPConfig) (live : option f64) (steps3 : list f64) (minStep : f64)
    (now : Time) (m : phaseMemo) : list f64 * phaseMemo :=
  let id := cfID cfg in
  match covers live minStep, phSelected3P m !! id with
  | true, None => (steps3, selectPhaseLocked id true now m)
  | _, _ =>
      match enNear env with
      | None => dayChoice env cfg live steps3 minStep now m
      | Some near =>
          let '(choice, m) := nearChoice (atLeastLive live <$> near) id minStep now m in
          match choice with
          | Some false => (cfSteps cfg, m)
          | _ => dayChoice env cfg live steps3 minStep now m
          end
      end
  end.

(** An empty list is Go's nil: only a charger without a step table gets it. *)
Definition pickPhase (env : SurplusEnv) (cfg : LPConfig) (live : option f64) (now : Time) (m : phaseMemo)
    : list f64 * phaseMemo :=
  let id := cfID cfg in
  match cfSteps cfg with
  | [] => ([], selectPhaseLocked3P id now (clearLock id m))
  | _ =>
      let steps3 := surplus3PhaseSteps cfg (enSite env) in
      let minStep := surplusMinStepW cfg steps3 in
      if String.eqb (cfPhaseMode cfg) "3p" then (steps3, clearLock id m)
      else
        let locked := default false (phLocked1P m !! id) in
        let lockedAt := default zeroTime (phLockedAt m !! id) in
        if locked && flt (of_Z 0) minStep && negb (sameLocalDay lockedAt now) &&
           match enPeak env with Some (Some peak) => fle minStep peak | _ => false end
        then (steps3, clearSelected id (clearLock id m))
        else if locked && flt (of_Z 0) minStep && covers live minStep && (phaseSwitchMinHold <=? Sub now lockedAt)
        then (steps3, selectPhaseLocked id true now (clearLock id m))
        else if locked then (cfSteps cfg, m)
        else if fle minStep (of_Z 0) then (steps3, m)
        else pickUnlocked env cfg live steps3 minStep now m
  end.
Definition pickSurplusSteps (env : SurplusEnv) (now : Time) (cfg : LPConfig) (s : Surplus) : list f64 * Surplus :=
  let '(steps, m) := pickPhase env cfg (liveSurplusW env (cfID cfg) s) now (suPhase s) in (steps, withPhase m s).

(** ** The command *)
Definition surplusPauseStep (now : Time) (avg minStep : f64) (p : bool * Time) : bool * Time :=
  let '(paused, pausedAt) := p in
  if paused then
    if (surplusMinPauseHold <=? Sub now pausedAt) && fle (fadd minStep surplusResumeMarginW) avg
    then (false, pausedAt) else (true, pausedAt)
  else if flt (of_Z 0) minStep && flt avg minStep then (true, now) else (false, pausedAt).

Definition snapSurplus (cfg : LPConfig) (steps : list f64) (wantW instant avg prev raisingW : f64) : f64 :=
  let snap target := SnapChargeW target (cfMinChargeW cfg) (cfMaxChargeW cfg) steps in
  let snapped := snap (if flt instant wantW then instant else wantW) in
  let snapped :=
    if flt prev snapped then
      let avgSnapped := snap (if flt avg wantW then avg else wantW) in
      if flt avgSnapped snapped then (if flt avgSnapped prev then prev else avgSnapped) else snapped
    else snapped in
  if flt (of_Z 0) raisingW && flt raisingW snapped then fmax prev raisingW else snapped.

Definition computeSurplusCmd (env : SurplusEnv) (states : list LPState) (now : Time) (cfg : LPConfig) (wantW : f64)
    (steps : list f64) (s : Surplus) : f64 * Surplus :=
  let id := cfID cfg in
  match enSurplus env with
  | None => (wantW, s)
  | Some rd =>
      match rd (suArmed s) with
      | None => (of_Z 0, s)
      | Some surplusW =>
          if isNaN surplusW || isInf surplusW then (of_Z 0, s)
          else
            let '(adjW, raisingW, s) := surplusOrderAdjustW now id states s in
            let instant := fadd surplusW adjW in
            let instant := if flt instant (of_Z 0) then of_Z 0 else instant in
            let '(s, avg) := recordSurplus id instant s in
            let '(steps, s) := match steps with [] => pickSurplusSteps env now cfg s | _ => (steps, s) end in
            let minStep := surplusMinStepW cfg steps in
            let '(paused, pausedAt) := surplusPauseStep now avg minStep (getSurplusPause id s) in
            let s := setSurplusPause id paused pausedAt s in
            if paused then (of_Z 0, setSurplusStepW id (of_Z 0) s)
            else
              let w := snapSurplus cfg steps wantW instant avg (getSurplusStepW id s) raisingW in
              (w, setSurplusStepW id w s)
      end
  end.
End Charge.

(** ** Lemmas: what leaves the pause alone *)
Definition samePause (s s' : Surplus) : Prop := suPaused s' = suPaused s /\ suPausedAt s' = suPausedAt s.
Lemma adjust_same_pause now id states : forall acc,
  samePause (snd acc) (snd (fold_left (adjustStep now id) states acc)).
Proof.
  induction states as [|st states IH]; intros [[a r] s]; [split; reflexivity|]. cbn [fold_left].
  assert (S : samePause s (snd (adjustStep now id (a, r, s) st))).
  { unfold adjustStep. destruct (suOrders s !! lpID st); [|split; reflexivity]. destruct (_ || _); [split; reflexivity|].
    cbv zeta. destruct (_ && _); [split; reflexivity|]. destruct (feq _ _); split; reflexivity. }
  destruct (adjustStep now id (a, r, s) st) as [[a' r'] s']. specialize (IH (a', r', s')). cbn [snd] in *.
  unfold samePause in *. destruct S, IH. split; congruence.
Qed.
Lemma record_same_pause id v s : samePause s (fst (recordSurplus id v s)).
Proof. unfold recordSurplus. destruct (push _ _). split; reflexivity. Qed.
Lemma pick_same_pause localDay env now cfg s : samePause s (snd (pickSurplusSteps localDay env now cfg s)).
Proof. unfold pickSurplusSteps. destruct (pickPhase _ _ _ _ _ _). split; reflexivity. Qed.

Lemma set_pause_same id t s : getSurplusPause id (setSurplusPause id true t s) = (true, t).
Proof. unfold getSurplusPause, setSurplusPause. cbn. now rewrite !lookup_insert_eq. Qed.

Section PauseHolds.
Variable localDay : Time -> Z.
(** One call for a loadpoint: what it is wired to, the loadpoints, the time,
    the power wanted and the steps picked. *)
Record surplusCall : Type := mkCall {
  caEnv : SurplusEnv; caStates : list LPState; caNow : Time; caWantW : f64; caSteps : list f64
}.
Definition callSurplus (cfg : LPConfig) (c : surplusCall) (s : Surplus) : f64 * Surplus :=
  computeSurplusCmd localDay (caEnv c) (caStates c) (caNow c) cfg (caWantW c) (caSteps c) s.
Fixpoint surplusRun (cfg : LPConfig) (cs : list surplusCall) (s : Surplus) : list f64 * Surplus :=
  match cs with
  | [] => ([], s)
  | c :: cs =>
      let '(w, s) := callSurplus cfg c s in
      let '(ws, s) := surplusRun cfg cs s in (w :: ws, s)
  end.

Lemma pause_call cfg c s t :
  getSurplusPause (cfID cfg) s = (true, t) -> enSurplus (caEnv c) <> None -> Sub (caNow c) t < surplusMinPauseHold ->
  fst (callSurplus cfg c s) = of_Z 0 /\ getSurplusPause (cfID cfg) (snd (callSurplus cfg c s)) = (true, t).
Proof.
  intros P W L. unfold callSurplus, computeSurplusCmd. destruct (enSurplus (caEnv c)) as [rd|] eqn:E; [|easy].
  destruct (rd (suArmed s)) as [w|]; [|split; [reflexivity|exact P]].
  destruct (isNaN w || isInf w); [split; [reflexivity|exact P]|]. cbv zeta.
  pose proof (adjust_same_pause (caNow c) (cfID cfg) (caStates c) (of_Z 0, of_Z 0, s)) as A.
  unfold surplusOrderAdjustW. destruct (fold_left _ _ _) as [[adj raising] s1]. cbn [snd] in A.
  match goal with |- context [recordSurplus ?i ?v s1] => pose proof (record_same_pause i v s1) as R; destruct (recordSurplus i v s1) as [s2 avg] end.
  cbn [fst] in R.
  assert (K : exists steps s3, samePause s2 s3 /\
    match caSteps c with [] => pickSurplusSteps localDay (caEnv c) (caNow c) cfg s2 | _ => (caSteps c, s2) end = (steps, s3)).
  { destruct (caSteps c); [|eexists _, _; split; [|reflexivity]; split; reflexivity].
    pose proof (pick_same_pause localDay (caEnv c) (caNow c) cfg s2) as Q.
    destruct (pickSurplusSteps _ _ _ _ _) as [st s3]. exists st, s3. split; [exact Q|reflexivity]. }
  destruct K as (steps & s3 & Q & ->).
  assert (P3 : getSurplusPause (cfID cfg) s3 = (true, t)).
  { unfold getSurplusPause, samePause in *. destruct A as [A1 A2], R as [R1 R2], Q as [Q1 Q2].
    now rewrite Q1, Q2, R1, R2, A1, A2. }
  rewrite P3. unfold surplusPauseStep. rewrite (proj2 (Z.leb_gt _ _) L). cbn [andb]. split; [reflexivity|].
  cbn [snd]. exact (set_pause_same _ t s3).
Qed.

(** A paused charger stays paused: from the moment surplus pauses it, every
    order for it is zero for 35 seconds, whatever the surplus, its average, the
    readings and the orders on their way do meanwhile. *)
Theorem surplus_pause_holds cfg t cs s
    (Hpaused : getSurplusPause (cfID cfg) s = (true, t))
    (Hwired : Forall (fun c => enSurplus (caEnv c) <> None) cs)
    (Hsoon : Forall (fun c => Sub (caNow c) t < surplusMinPauseHold) cs) :
  let '(ws, s') := surplusRun cfg cs s in
  Forall (eq (of_Z 0)) ws /\ getSurplusPause (cfID cfg) s' = (true, t).
Proof.
  revert s Hpaused. induction cs as [|c cs IH]; intros s P; [easy|].
  inversion Hwired as [|? ? W Ws]; inversion Hsoon as [|? ? L Ls]; subst. cbn [surplusRun].
  destruct (pause_call cfg c s t P W L) as [E P']. destruct (callSurplus cfg c s) as [w s1]. cbn [fst snd] in *.
  specialize (IH Ws Ls s1 P'). destruct (surplusRun cfg cs s1) as [ws s2]. destruct IH as [F G].
  split; [constructor; [now symmetry|exact F]|exact G].
Qed.
End PauseHolds.

(** ** The phase choice holds *)
Section Dwell.
Variable localDay : Time -> Z.
(** The choice in force and since when: the day's lock to one phase, or the
    phases last selected. *)
Definition phaseHeld (id : string) (m : phaseMemo) : option (bool * Time) :=
  if default false (phLocked1P m !! id) then Some (false, default zeroTime (phLockedAt m !! id))
  else
    match phSelected3P m !! id with
    | Some three => Some (three, default zeroTime (phSelectedAt m !! id))
    | None => None
    end.

(** One pick: what the controller is wired to, the surplus it measures, the time. *)
Record pick : Type := mkPick { piEnv : SurplusEnv; piLive : option f64; piNow : Time }.
Definition pickSteps3 (cfg : LPConfig) (p : pick) : list f64 := surplus3PhaseSteps cfg (enSite (piEnv p)).
Fixpoint pickRun (cfg : LPConfig) (ps : list pick) (m : phaseMemo) : list (list f64) * phaseMemo :=
  match ps with
  | [] => ([], m)
  | p :: ps =>
      let '(steps, m) := pickPhase localDay (piEnv p) cfg (piLive p) (piNow p) m in
      let '(rest, m) := pickRun cfg ps m in (steps :: rest, m)
  end.
(** Within the half hour, on the same day, with a three-phase minimum and a
    forecast reader. *)
Definition soonPick (cfg : LPConfig) (t : Time) (p : pick) : Prop :=
  Sub (piNow p) t < phaseSwitchMinHold /\ sameLocalDay localDay t (piNow p) = true /\
  flt (of_Z 0) (surplusMinStepW cfg (pickSteps3 cfg p)) = true /\ enNear (piEnv p) <> None.
Definition heldSteps (cfg : LPConfig) (three : bool) (p : pick) : list f64 :=
  if three then pickSteps3 cfg p else cfSteps cfg.

Lemma day_choice_held env cfg live steps3 minStep now m t :
  cfSurplusOnly cfg = true -> phSelected3P m !! cfID cfg = Some true ->
  default zeroTime (phSelectedAt m !! cfID cfg) = t -> Sub now t < phaseSwitchMinHold ->
  dayChoice env cfg live steps3 minStep now m = (steps3, m).
Proof.
  intros S Sel At L. unfold dayChoice. destruct (enPeak env) as [[peak|]|]; try reflexivity.
  destruct (fle minStep _); [reflexivity|]. rewrite S. cbn [negb]. rewrite Sel, At. cbn [default].
  now rewrite (proj2 (Z.ltb_lt _ _) L).
Qed.

Lemma near_choice_held peak id minStep now m three t :
  phSelected3P m !! id = Some three -> default zeroTime (phSelectedAt m !! id) = t ->
  sameLocalDay localDay t now = true -> Sub now t < phaseSwitchMinHold ->
  nearChoice localDay peak id minStep now m = (Some three, m).
Proof.
  intros Sel At D L. unfold nearChoice. rewrite Sel, At, D. cbv zeta. rewrite Sel. destruct peak; [|reflexivity].
  now rewrite At, (proj2 (Z.ltb_lt _ _) L).
Qed.

Lemma pick_held cfg p m three t :
  cfSurplusOnly cfg = true -> cfSteps cfg <> [] -> String.eqb (cfPhaseMode cfg) "3p" = false ->
  phaseHeld (cfID cfg) m = Some (three, t) -> soonPick cfg t p ->
  pickPhase localDay (piEnv p) cfg (piLive p) (piNow p) m = (heldSteps cfg three p, m).
Proof.
  intros S T M H (L & D & P & N). unfold pickPhase. fold (pickSteps3 cfg p).
  destruct (cfSteps cfg) as [|w ws] eqn:Es; [easy|]. rewrite M. cbv zeta. unfold phaseHeld in H.
  set (minStep := surplusMinStepW cfg (pickSteps3 cfg p)) in *.
  destruct (default false (phLocked1P m !! cfID cfg)).
  - injection H as <- ->. rewrite D. cbn [negb andb]. rewrite andb_false_r. cbn [andb].
    rewrite (proj2 (Z.leb_gt _ _) L), andb_false_r. unfold heldSteps. now rewrite Es.
  - cbn [andb]. destruct (phSelected3P m !! cfID cfg) as [sel|] eqn:Sel; [|discriminate H].
    injection H as -> At. assert (F : fle minStep (of_Z 0) = false).
    { destruct (fle minStep (of_Z 0)) eqn:F; [|reflexivity]. apply fle_iff in F. now destruct (flt_le_contra _ _ P F). }
    rewrite F. unfold pickUnlocked. rewrite Sel. destruct (enNear (piEnv p)) as [near|]; [|easy].
    destruct three.
    + assert (K : dayChoice (piEnv p) cfg (piLive p) (pickSteps3 cfg p) minStep (piNow p) m = (pickSteps3 cfg p, m))
        by exact (day_choice_held _ _ _ _ _ _ _ _ S Sel At L).
      destruct (covers _ _); rewrite (near_choice_held _ _ _ _ _ _ _ Sel At D L); exact K.
    + destruct (covers _ _); rewrite (near_choice_held _ _ _ _ _ _ _ Sel At D L); unfold heldSteps; now rewrite Es.
Qed.

(** C23: A phase choice of a surplus-only charger holds for half an hour: in
    that time, on the same day, every pick of the surplus steps returns the
    steps of the phases chosen, whatever the surplus and the forecasts say, and
    neither the choice nor its time changes. *)
Theorem surplus_phase_dwell cfg three t ps m
    (Hsurplus : cfSurplusOnly cfg = true) (Htable : cfSteps cfg <> []) (Hmode : String.eqb (cfPhaseMode cfg) "3p" = false)
    (Hheld : phaseHeld (cfID cfg) m = Some (three, t)) (Hsoon : Forall (soonPick cfg t) ps) :
  pickRun cfg ps m = (heldSteps cfg three <$> ps, m).
Proof.
  induction ps as [|p ps IH]; [reflexivity|]. inversion Hsoon as [|? ? P Ps]; subst. cbn [pickRun].
  rewrite (pick_held cfg p m three t) by assumption. rewrite (IH Ps). reflexivity.
Qed.
End Dwell.

(** ** Examples *)
Definition demoTable : LPConfig :=
  mkConfig "car" "charger" (of_Z 1380) (of_Z 11040) [of_Z 0; of_Z 1380; of_Z 3680; of_Z 4140; of_Z 11040] "auto"
    (of_Z 0) 0 true.
Definition demoEnv (surplus peak near : Z) : SurplusEnv :=
  mkEnv (mkFuse (of_Z 16) (of_Z 230) 3) (Some (fun _ => Some (of_Z surplus))) (Some (Some (of_Z peak)))
    (Some (Some (of_Z near))) None.

(** Three phases chosen at noon; then a cloud. *)
Definition demoNoon : Time := 1000 * Hour.
Definition demoMemo : phaseMemo := selectPhaseLocked "car" true demoNoon noMemo.
Definition demoPicks : list pick :=
  [mkPick (demoEnv 6000 6000 6000) (Some (of_Z 6000)) (demoNoon + Minute);
   mkPick (demoEnv 500 800 600) (Some (of_Z 500)) (demoNoon + 20 * Minute)].
Lemma surplus_phase_dwell_witness :
  pickRun (fun t => t / (24 * Hour)) demoTable demoPicks demoMemo = (heldSteps demoTable true <$> demoPicks, demoMemo).
Proof.
  apply (surplus_phase_dwell (fun t => t / (24 * Hour)) demoTable true demoNoon demoPicks demoMemo).
  - reflexivity.
  - intros E. discriminate E.
  - reflexivity.
  - vm_compute. reflexivity.
  - apply Forall_cons_2; [|apply Forall_cons_2; [|apply Forall_nil_2]].
    all: split_and!; [vm_compute; reflexivity|vm_compute; reflexivity|vm_compute; reflexivity|intros E; discriminate E].
Defined.
(** Half an hour later, the same cloud lets one-phase steps in. *)
Example dwell_over :
  fst (pickRun (fun t => t / (24 * Hour)) demoTable [mkPick (demoEnv 500 800 600) (Some (of_Z 500)) (demoNoon + 30 * Minute)]
         demoMemo) = [cfSteps demoTable].
Proof. vm_compute. reflexivity. Qed.

Definition demoPaused : Surplus := setSurplusPause "car" true demoNoon noSurplus.
Definition demoCalls : list surplusCall :=
  [mkCall (demoEnv 8000 8000 8000) [] (demoNoon + 10 * Second) (of_Z 11040) [];
   mkCall (demoEnv 8000 8000 8000) [] (demoNoon + 34 * Second) (of_Z 11040) []].
Lemma surplus_pause_holds_witness :
  let '(ws, s') := surplusRun (fun t => t / (24 * Hour)) demoTable demoCalls demoPaused in
  Forall (eq (of_Z 0)) ws /\ getSurplusPause (cfID demoTable) s' = (true, demoNoon).
Proof.
  apply (surplus_pause_holds (fun t => t / (24 * Hour)) demoTable demoNoon demoCalls demoPaused).
  - vm_compute. reflexivity.
  - apply Forall_cons_2; [intros E; discriminate E|]. apply Forall_cons_2; [intros E; discriminate E|apply Forall_nil_2].
  - apply Forall_cons_2; [vm_compute; reflexivity|]. apply Forall_cons_2; [vm_compute; reflexivity|apply Forall_nil_2].
Defined.
(** At 35 seconds it charges again. *)
Example pause_over :
  fst (surplusRun (fun t => t / (24 * Hour)) demoTable
         [mkCall (demoEnv 4400 4400 4400) [] (demoNoon + 35 * Second) (of_Z 11040) []] demoPaused) = [of_Z 4140].
Proof. vm_compute. reflexivity. Qed.
(** The order is the nearest step, so it may be above the surplus: 11,040 W on
    a surplus of 8,000 W when the table has nothing between. *)
Example surplus_order_above_surplus :
  fst (surplusRun (fun t => t / (24 * Hour)) demoTable
         [mkCall (demoEnv 8000 8000 8000) [] (demoNoon + 35 * Second) (of_Z 11040) []] demoPaused) = [of_Z 11040].
Proof. vm_compute. reflexivity. Qed.

(** The unlock from the home battery's charge is not surplus-only: while three
    phases are still held, an evening forecast below their minimum gives it
    every step, and the phases it names stay three. *)
Definition demoUnlocked : LPConfig :=
  mkConfig "car" "charger" (of_Z 1380) (of_Z 11040) [of_Z 0; of_Z 1380; of_Z 3680; of_Z 4140; of_Z 11040] "auto"
    (of_Z 0) 0 false.
Example unlocked_steps_leave_the_phases :
  fst (pickPhase (fun t => t / (24 * Hour)) (demoEnv 1500 1500 1500) demoUnlocked (Some (of_Z 1500))
         (demoNoon + 20 * Minute) demoMemo) = cfSteps demoUnlocked /\
  resolvePhaseMode "auto" true false false true (dwellSelectedPhaseMode "car" demoMemo) = "3p"%string.
Proof. split; vm_compute; reflexivity. Qed.
