(* ===== verification/ChargeSchedule.v ===== *)
(** * The charge schedule (go/internal/loadpoint/schedule.go)

    A loadpoint's saved goal, the household clock it is read on, and the next
    deadline, across changes of the zone's offset. A location is what the
    standard library's [Location] answers for an instant: the offset in force
    and the bounds of its span. *)
From Stdlib Require Import ZArith Lia.
From S2P Require Import Prelude Float64 GoTime LoadpointData Units.
From stdpp Require Import base strings list.
#[local] Open Scope Z_scope.

(** ** Zones: [Location.lookup], [Time.ZoneBounds] and [time.Date]
    An unbounded side is [None]; [ZoneBounds] answers it with the zero time. *)
Record zoneSpan : Type := mkSpan { zOff : Duration; zStart : option Time; zEnd : option Time }.
Definition Location : Type := Time -> zoneSpan.
Definition inSpan (z : zoneSpan) (t : Time) : bool :=
  match zStart z with Some s => s <=? t | None => true end && match zEnd z with Some e => t <? e | None => true end.
Definition startOf (z : zoneSpan) : Time := default zeroTime (zStart z).
Definition endOf (z : zoneSpan) : Time := default zeroTime (zEnd z).

Definition Day : Duration := 24 * Hour.
(** The household clock at [t], counted from the same origin as [Time]. *)
Definition clockTime (loc : Location) (t : Time) : Time := t + zOff (loc t).
Definition dateOf (loc : Location) (t : Time) : Z := clockTime loc t / Day.
Definition minuteOfDay (t : Time) : Z := (t / Minute) mod 1440.

(** The instant [time.Date] gives for a wall time. *)
Definition DateIn (loc : Location) (wall : Time) : Time :=
  let z := loc wall in
  if zOff z =? 0 then wall
  else
    let utc := wall - zOff z in
    if negb (inSpan z utc) then wall - zOff (loc utc) else utc.

(** ** The schedule *)
(** [wallClock]: dates are days since the origin of [Time], a Monday. *)
Definition wallClock (loc : Location) (day clock : Z) : Time :=
  let t := DateIn loc ((day * 1440 + clock) * Minute) in
  let z := loc t in
  let got := minuteOfDay (clockTime loc t) in
  if negb (got =? clock) then (if clock <? got then startOf z else endOf z)
  else
    let before := zOff (loc (startOf z - Second)) in
    let earlier := t - (before - zOff z) in
    if (zOff z <? before) && Before earlier (startOf z) then earlier else t.

Definition utcMinuteToday (loc : Location) (now : Time) (clock : Z) : Z :=
  minuteOfDay (wallClock loc (dateOf loc now) clock).

Definition clockFromUTC (loc : Location) (now : Time) (minUTC : Z) : Z :=
  let minUTC := Z.rem (Z.rem minUTC 1440 + 1440) 1440 in
  let start := wallClock loc (dateOf loc now) 0 in
  let t := (start / Day * 1440 + minUTC) * Minute in
  let t := if Before t start then GoTime.Add t (24 * Hour) else t in
  minuteOfDay (clockTime loc t).

Definition readClock (loc : Location) (now : Time) (s : Schedule) : bool * Schedule :=
  match scClock s with
  | Some c => if (0 <=? c) && (c <? 1440) then (false, s)
              else (true, withClock (Some (clockFromUTC loc now (scMinUTC s))) s)
  | None => (true, withClock (Some (clockFromUTC loc now (scMinUTC s))) s)
  end.
Definition clockAt (loc : Location) (now : Time) (s : Schedule) : Z :=
  default 0 (scClock (snd (readClock loc now s))).

Definition allowed (days day : Z) : bool := (days =? 0) || Z.testbit days (day mod 7).
(** One turn of the search: the day, and the next one. *)
Definition deadlineTurn (loc : Location) (now : Time) (days clock : Z) (day : Z) : Z + Time :=
  if negb (allowed days day) then inl (day + 1)
  else let t := wallClock loc day clock in if After t now then inr t else inl (day + 1).
(** [next_deadline] shows that ten turns are enough. *)
Definition NextDeadlineUTC (loc : Location) (now : Time) (s : Schedule) : Time :=
  match run (deadlineTurn loc now (Z.land (scDays s) 127) (clockAt loc now s)) 10 (dateOf loc now) with
  | inr t => t
  | inl _ => zeroTime
  end.

Definition NewSchedule (soc : f64) (readyByMin : Z) (recurring : bool) (days : Z) (finishAtLimit : bool) : Schedule :=
  mkSchedule (ClampFraction soc) finishAtLimit recurring (of_Z 0) "" 0 0 (Z.land days 127) (Some readyByMin).
Definition Normalize (s : Schedule) : Schedule :=
  withFractions (ClampFraction (FractionFromLegacyPercent (scSoC s)))
    (ClampFraction (FractionFromLegacyPercent (scUnlock s))) s.
Definition withoutClock (s : Schedule) : Schedule := withClock None s.
Definition Empty (s : Schedule) : bool :=
  negb (scFinish s) && feq (scSoC s) (of_Z 0) && (scMinUTC s =? 0) && (default 0 (scClock s) =? 0) &&
  negb (scRecurring s) && feq (scUnlock s) (of_Z 0).

(** ** What the proofs need of a zone
    Spans are where their instants say, hold one offset of whole minutes within
    sixteen hours, and last two days or more. *)
Class Zones (loc : Location) : Prop := {
  zone_here t : inSpan (loc t) t = true;
  zone_same t u : inSpan (loc t) u = true -> loc u = loc t;
  zone_off t : - (16 * Hour) <= zOff (loc t) <= 16 * Hour;
  zone_minutes t : zOff (loc t) mod Minute = 0;
  zone_long t s e : zStart (loc t) = Some s -> zEnd (loc t) = Some e -> s + 48 * Hour <= e
}.

(** The first instant at which the clock shows [wall] or later. *)
Definition firstAt (loc : Location) (wall w : Time) : Prop :=
  wall <= clockTime loc w /\ forall u, wall <= clockTime loc u -> w <= u.

(** No change that skips an hour does so within its own length of midnight. *)
Definition daytimeSkips (loc : Location) : Prop :=
  forall t s, zStart (loc t) = Some s ->
    let before := zOff (loc (s - 1)) in
    let gap := zOff (loc t) - before in
    0 < gap -> (s + before - gap) / Day = (s + zOff (loc t) + gap - 1) / Day.

Ltac unfold_units := unfold Day, Hour, Minute, Second in *.

(** ** Lemmas: spans *)
Section Zone.
Context (loc : Location) `{!Zones loc}.

Lemma zoneSpan_bounds t u : inSpan (loc t) u = true <->
  (forall s, zStart (loc t) = Some s -> s <= u) /\ (forall e, zEnd (loc t) = Some e -> u < e).
Proof.
  unfold inSpan. destruct (zStart (loc t)) as [s|], (zEnd (loc t)) as [e|]; rewrite ?andb_true_iff, ?Z.leb_le, ?Z.ltb_lt.
  all: split; [intros H; split; intros x E; inversion E; subst; intuition lia|intros [A B]; split_and?; auto].
Qed.

Lemma prev_end t s : zStart (loc t) = Some s -> zEnd (loc (s - 1)) = Some s.
Proof.
  intros S. destruct (proj1 (zoneSpan_bounds (s - 1) (s - 1)) (zone_here _)) as [P0 P1].
  assert (St : loc s = loc t).
  { apply zone_same, zoneSpan_bounds. destruct (proj1 (zoneSpan_bounds t t) (zone_here _)) as [T0 T1].
    split; [intros x E; rewrite S in E; inversion E; lia|]. intros e E. specialize (T1 e E). specialize (T0 s S). lia. }
  assert (N : loc s <> loc (s - 1)).
  { intros X. rewrite <- X, St, S in P0. specialize (P0 s eq_refl). lia. }
  destruct (zEnd (loc (s - 1))) as [e|] eqn:E.
  - specialize (P1 e eq_refl). destruct (Z.eq_dec e s) as [->|D]; [reflexivity|exfalso]. apply N, zone_same, zoneSpan_bounds.
    split; [intros x Ex; specialize (P0 x Ex); lia|intros x Ex; rewrite E in Ex; inversion Ex; lia].
  - exfalso. apply N, zone_same, zoneSpan_bounds.
    split; [intros x Ex; specialize (P0 x Ex); lia|intros x Ex; rewrite E in Ex; discriminate Ex].
Qed.

Lemma prev_span t s u : zStart (loc t) = Some s -> s - 48 * Hour <= u < s -> loc u = loc (s - 1).
Proof.
  intros S U. pose proof (prev_end t s S) as E. apply zone_same, zoneSpan_bounds.
  split; [intros x Ex; pose proof (zone_long _ _ _ Ex E); lia|intros e Ee; rewrite E in Ee; inversion Ee; lia].
Qed.

Lemma next_span t e u : zEnd (loc t) = Some e -> e <= u < e + 48 * Hour ->
  loc u = loc e /\ zStart (loc e) = Some e /\ loc (e - 1) = loc t.
Proof.
  intros E U. destruct (proj1 (zoneSpan_bounds t t) (zone_here _)) as [T0 T1]. specialize (T1 e E).
  assert (B : loc (e - 1) = loc t).
  { apply zone_same, zoneSpan_bounds. split; [intros s S; specialize (T0 s S); lia|intros x X; rewrite E in X; inversion X; lia]. }
  destruct (proj1 (zoneSpan_bounds e e) (zone_here _)) as [N0 N1].
  assert (S : zStart (loc e) = Some e).
  { destruct (zStart (loc e)) as [s|] eqn:S; [|exfalso].
    - specialize (N0 s eq_refl). destruct (Z.eq_dec s e) as [->|N]; [reflexivity|exfalso].
      assert (X : loc (e - 1) = loc e).
      { apply zone_same, zoneSpan_bounds. split; [intros x Ex; rewrite S in Ex; inversion Ex; lia|intros x Ex; specialize (N1 x Ex); lia]. }
      destruct (proj1 (zoneSpan_bounds t e)) as [_ Q]; [rewrite <- B, X; apply zone_here|]. specialize (Q e E). lia.
    - assert (X : loc (e - 1) = loc e).
      { apply zone_same, zoneSpan_bounds. split; [intros x Ex; rewrite S in Ex; discriminate Ex|intros x Ex; specialize (N1 x Ex); lia]. }
      destruct (proj1 (zoneSpan_bounds t e)) as [_ Q]; [rewrite <- B, X; apply zone_here|]. specialize (Q e E). lia. }
  split_and!; [|exact S|exact B]. apply zone_same, zoneSpan_bounds.
  split; [intros x X; rewrite S in X; inversion X; lia|]. intros x X. pose proof (zone_long _ _ _ S X). lia.
Qed.

(** ** Lemmas: the first instant *)
Lemma far_past t s u wall : zStart (loc t) = Some s -> u < s - 48 * Hour -> s - 16 * Hour <= wall ->
  clockTime loc u < wall.
Proof. intros S U W. unfold clockTime. pose proof (zone_off u). unfold_units. lia. Qed.

Lemma start_here t s : zStart (loc t) = Some s -> s <= t.
Proof. intros S. exact (proj1 (proj1 (zoneSpan_bounds t t) (zone_here _)) s S). Qed.
Lemma same_below t u : u <= t -> (forall s, zStart (loc t) = Some s -> s <= u) -> loc u = loc t.
Proof.
  intros L S. apply zone_same, zoneSpan_bounds. split; [exact S|]. intros e E.
  pose proof (proj2 (proj1 (zoneSpan_bounds t t) (zone_here _)) e E). lia.
Qed.

(** Shown exactly, and not shown before a change that repeats it. *)
Lemma first_shown t : (forall s, zStart (loc t) = Some s ->
    zOff (loc (s - 1)) <= zOff (loc t) \/ s <= t - (zOff (loc (s - 1)) - zOff (loc t))) ->
  firstAt loc (clockTime loc t) t.
Proof.
  intros H. split; [lia|]. intros u U. destruct (Z.le_gt_cases t u) as [|L]; [assumption|exfalso].
  destruct (zStart (loc t)) as [s|] eqn:S.
  - pose proof (start_here t s S) as St. specialize (H s eq_refl). pose proof (zone_off t) as O.
    destruct (Z.lt_ge_cases u s) as [Lu|Gu].
    + destruct (Z.lt_ge_cases u (s - 48 * Hour)) as [F|N].
      * pose proof (far_past t s u (clockTime loc t) S F). unfold clockTime in *. unfold_units. lia.
      * pose proof (prev_span t s u S ltac:(lia)) as P. unfold clockTime in U. rewrite P in U. lia.
    + assert (E : loc u = loc t) by (apply same_below; [lia|intros x X; rewrite S in X; inversion X; lia]).
      unfold clockTime in U. rewrite E in U. lia.
  - assert (E : loc u = loc t) by (apply same_below; [lia|intros x X; rewrite S in X; discriminate X]).
    unfold clockTime in U. rewrite E in U. lia.
Qed.

(** Shown before the change that repeats it. *)
Lemma first_repeated t s : zStart (loc t) = Some s ->
  let earlier := t - (zOff (loc (s - 1)) - zOff (loc t)) in
  zOff (loc t) < zOff (loc (s - 1)) -> earlier < s -> firstAt loc (clockTime loc t) earlier.
Proof.
  cbv zeta. intros S R L. set (e := t - _) in *. pose proof (start_here t s S) as St.
  pose proof (zone_off t) as O. pose proof (zone_off (s - 1)) as O'.
  assert (P : loc e = loc (s - 1)) by (apply (prev_span t s); [exact S|unfold_units; lia]).
  assert (C : clockTime loc e = clockTime loc t) by (unfold clockTime; rewrite P; unfold e; lia).
  rewrite <- C. apply first_shown. intros s' S'. right.
  assert (D : s' + 48 * Hour <= s) by (rewrite P in S'; exact (zone_long _ _ _ S' (prev_end t s S))).
  pose proof (zone_off (s' - 1)). rewrite P. unfold_units. lia.
Qed.

(** Skipped by the change at [s]. *)
Lemma first_skipped t s wall : zStart (loc t) = Some s -> s = t ->
  s + zOff (loc (s - 1)) <= wall -> wall <= s + zOff (loc s) -> firstAt loc wall s.
Proof.
  intros S -> A B. split; [exact B|]. intros u U. destruct (Z.le_gt_cases t u) as [|L]; [assumption|exfalso].
  pose proof (zone_off (t - 1)). destruct (Z.lt_ge_cases u (t - 48 * Hour)) as [F|N].
  - pose proof (far_past t t u wall S F ltac:(unfold_units; lia)). lia.
  - pose proof (prev_span t t u S ltac:(lia)) as P. unfold clockTime in U. rewrite P in U. lia.
Qed.
End Zone.

(** ** Lemmas: [time.Date] *)
Section WallClock.
Context (loc : Location) `{!Zones loc}.

(** Skipped at [s]: between the clock before the change and the clock after it. *)
Definition skippedAt (s wall : Time) : Prop :=
  zStart (loc s) = Some s /\ s + zOff (loc (s - 1)) <= wall < s + zOff (loc s).

Lemma off_before t s : zStart (loc t) = Some s -> zOff (loc (s - Second)) = zOff (loc (s - 1)).
Proof. intros S. rewrite (prev_span loc t s (s - Second) S); [reflexivity|unfold_units; lia]. Qed.

Lemma date_in wall : let t := DateIn loc wall in
  clockTime loc t = wall \/
  exists s, skippedAt s wall /\
    (zStart (loc t) = Some s /\ clockTime loc t = wall + (zOff (loc s) - zOff (loc (s - 1))) \/
     zEnd (loc t) = Some s /\ clockTime loc t = wall - (zOff (loc s) - zOff (loc (s - 1)))).
Proof.
  cbv zeta. unfold DateIn. pose proof (zone_off wall) as O. destruct (Z.eqb_spec (zOff (loc wall)) 0) as [E|_].
  { left. unfold clockTime. lia. }
  destruct (inSpan (loc wall) (wall - zOff (loc wall))) eqn:I; cbn [negb].
  { left. unfold clockTime. rewrite (zone_same _ _ I). lia. }
  set (utc := wall - zOff (loc wall)) in *. pose proof (proj1 (zoneSpan_bounds loc wall wall) (zone_here _)) as [W0 W1].
  pose proof (zone_off utc) as Ou. set (t := wall - zOff (loc utc)) in *.
  unfold inSpan in I. apply andb_false_iff in I as [I|I].
  - destruct (zStart (loc wall)) as [s|] eqn:S; [|discriminate I]. apply Z.leb_gt in I. specialize (W0 s eq_refl).
    assert (P : loc utc = loc (s - 1)) by (apply (prev_span loc wall s); [exact S|unfold_units; lia]).
    assert (Ls : loc s = loc wall) by (apply (same_below loc); [lia|intros x X; rewrite S in X; inversion X; lia]).
    destruct (Z.lt_ge_cases t s) as [L|G].
    + left. unfold clockTime. rewrite (prev_span loc wall s t S) by (unfold_units; lia). unfold t. rewrite P. lia.
    + right. exists s. assert (Lt : loc t = loc wall).
      { apply zone_same, (zoneSpan_bounds loc). split; [intros x X; rewrite S in X; inversion X; lia|].
        intros e E. pose proof (zone_long _ _ _ S E). unfold t, utc in *. unfold_units. lia. }
      unfold skippedAt, clockTime. rewrite Lt, Ls. split; [split; [exact S|unfold t, utc in *; rewrite P in *; lia]|].
      left. split; [exact S|]. unfold t, utc in *. rewrite P in *. lia.
  - destruct (zEnd (loc wall)) as [e|] eqn:E; [|discriminate I]. apply Z.ltb_ge in I. specialize (W1 e eq_refl).
    destruct (next_span loc wall e utc E ltac:(unfold_units; lia)) as (N & S & B).
    destruct (Z.lt_ge_cases t e) as [L|G].
    + right. exists e. assert (Lt : loc t = loc wall).
      { apply zone_same, (zoneSpan_bounds loc). split; [|intros x X; rewrite E in X; inversion X; lia].
        intros s Es. pose proof (zone_long _ _ _ Es E). unfold t, utc in *. unfold_units. lia. }
      unfold skippedAt, clockTime. rewrite Lt, B. split; [split; [exact S|unfold t, utc in *; rewrite N in *; lia]|].
      right. split; [exact E|]. unfold t, utc in *. rewrite N in *. lia.
    + left. unfold clockTime. destruct (next_span loc wall e t E ltac:(unfold t, utc in *; unfold_units; lia)) as (-> & _ & _).
      unfold t. rewrite N. lia.
Qed.

(** ** Lemmas: the wall clock *)
Definition wallAt (day clock : Z) : Time := (day * 1440 + clock) * Minute.

Lemma minute_of_wall day clock : 0 <= clock < 1440 -> minuteOfDay (wallAt day clock) = clock.
Proof.
  intros C. unfold minuteOfDay, wallAt. rewrite Z.div_mul by discriminate.
  rewrite Z.add_comm, Z.mod_add by lia. now apply Z.mod_small.
Qed.

(** Whole minutes later or earlier on the same date show a later or earlier minute. *)
Lemma minute_shift a b : (b - a) mod Minute = 0 -> a / Day = b / Day -> a < b -> minuteOfDay a < minuteOfDay b.
Proof.
  intros M D L. unfold minuteOfDay. apply Z.mod_divide in M as [k K]; [|discriminate].
  assert (b / Minute = a / Minute + k) as -> by (replace b with (a + k * Minute) by lia; apply Z.div_add; discriminate).
  assert (Dd : forall x, x / Day = (x / Minute) / 1440).
  { intros x. rewrite Z.div_div by (discriminate || reflexivity). reflexivity. }
  rewrite !Dd in D. assert (b / Minute = a / Minute + k) as E by (replace b with (a + k * Minute) by lia; apply Z.div_add; discriminate).
  rewrite E in D. pose proof (Z.div_mod (a / Minute) 1440 ltac:(lia)). pose proof (Z.div_mod (a / Minute + k) 1440 ltac:(lia)).
  unfold_units. lia.
Qed.

Context (Skips : daytimeSkips loc).

Lemma skip_shift s day clock : 0 <= clock < 1440 -> skippedAt s (wallAt day clock) ->
  let gap := zOff (loc s) - zOff (loc (s - 1)) in
  minuteOfDay (wallAt day clock - gap) < clock < minuteOfDay (wallAt day clock + gap).
Proof.
  cbv zeta. intros C [S B]. pose proof (minute_of_wall day clock C) as Mw. set (w := wallAt day clock) in *. clearbody w. subst clock.
  set (a := zOff (loc (s - 1))) in *. set (o := zOff (loc s)) in *.
  pose proof (Skips s s S) as K. cbv zeta in K. fold a o in K. specialize (K ltac:(lia)).
  assert (M : (o - a) mod Minute = 0).
  { unfold o, a. rewrite Zminus_mod, !zone_minutes. reflexivity. }
  assert (Dm : forall x y, x <= y -> x / Day <= y / Day) by (intros; apply Z.div_le_mono; [reflexivity|assumption]).
  pose proof (Dm (s + a - (o - a)) (w - (o - a)) ltac:(lia)). pose proof (Dm (w - (o - a)) w ltac:(lia)).
  pose proof (Dm w (w + (o - a)) ltac:(lia)). pose proof (Dm (w + (o - a)) (s + o + (o - a) - 1) ltac:(lia)).
  split; apply minute_shift; try lia.
  - replace (w - (w - (o - a))) with (o - a) by lia. exact M.
  - replace (w + (o - a) - w) with (o - a) by lia. exact M.
Qed.

Lemma wall_clock day clock : 1 <= day -> 0 <= clock < 1440 ->
  firstAt loc (wallAt day clock) (wallClock loc day clock).
Proof.
  intros D C. unfold wallClock. fold (wallAt day clock). cbv zeta. set (t := DateIn loc (wallAt day clock)).
  pose proof (date_in (wallAt day clock)) as Dt. cbv zeta in Dt. fold t in Dt. clearbody t. destruct Dt as [E|(s & K & H)].
  - rewrite E, (minute_of_wall day clock C), Z.eqb_refl. cbn [negb]. rewrite <- E. unfold startOf, Before.
    destruct (zStart (loc t)) as [s|] eqn:S; cbn [from_option id].
    + rewrite (off_before t s S). destruct (_ && _) eqn:T.
      * apply andb_true_iff in T as [T1 T2]. apply Z.ltb_lt in T1, T2. now apply (first_repeated loc t s S).
      * apply (first_shown loc). intros s' S'. rewrite S in S'. inversion S'; subst s'.
        apply andb_false_iff in T as [T|T]; apply Z.ltb_ge in T; lia.
    + assert (loc (zeroTime - Second) = loc t) as ->.
      { apply (same_below loc); [ |intros x X; rewrite S in X; discriminate X].
        pose proof (zone_off t) as O. unfold clockTime, wallAt, zeroTime in *. unfold_units. lia. }
      rewrite Z.ltb_irrefl. cbn [andb]. apply (first_shown loc). intros x X. rewrite S in X. discriminate X.
  - pose proof (skip_shift s day clock C K) as [G1 G2]. destruct K as [S B].
    assert (F : firstAt loc (wallAt day clock) s) by (apply (first_skipped loc s s); [exact S|reflexivity|lia|lia]).
    destruct H as [[X E]|[X E]]; rewrite E.
    + destruct (Z.eqb_spec (minuteOfDay (wallAt day clock + (zOff (loc s) - zOff (loc (s - 1))))) clock); [lia|]. cbn [negb].
      rewrite (proj2 (Z.ltb_lt _ _) G2). unfold startOf. rewrite X. exact F.
    + destruct (Z.eqb_spec (minuteOfDay (wallAt day clock - (zOff (loc s) - zOff (loc (s - 1))))) clock); [lia|]. cbn [negb].
      rewrite (proj2 (Z.ltb_ge _ _)) by lia. unfold endOf. rewrite X. exact F.
Qed.
End WallClock.

(** ** Lemmas: the search *)
Section Deadline.
Context (loc : Location) `{!Zones loc} (Skips : daytimeSkips loc).

Lemma clockAt_range now s : 0 <= clockAt loc now s < 1440.
Proof.
  assert (M : 0 <= clockFromUTC loc now (scMinUTC s) < 1440) by (unfold clockFromUTC, minuteOfDay; apply Z.mod_pos_bound; lia).
  unfold clockAt, readClock. destruct (scClock s) as [c|] eqn:E; [|exact M].
  destruct (_ && _) eqn:B; cbn [snd]; [|exact M]. rewrite E. cbn [from_option id].
  apply andb_true_iff in B as [B1 B2]. apply Z.leb_le in B1. apply Z.ltb_lt in B2. lia.
Qed.

(** A day before [now]'s is over, and three days on its ready time has not come. *)
Lemma past_day now day clock : 1 <= day -> 0 <= clock < 1440 -> day < dateOf loc now -> wallClock loc day clock <= now.
Proof.
  intros D C L. apply (wall_clock loc Skips day clock D C). unfold dateOf in L. unfold wallAt.
  pose proof (Z.mul_div_le (clockTime loc now) Day ltac:(reflexivity)). unfold_units. lia.
Qed.
Lemma later_day now day clock : 1 <= day -> 0 <= clock < 1440 -> dateOf loc now + 3 <= day -> now < wallClock loc day clock.
Proof.
  intros D C L. destruct (wall_clock loc Skips day clock D C) as [W _]. set (t := wallClock loc day clock) in *. clearbody t.
  unfold dateOf in L. unfold wallAt, clockTime in *. pose proof (zone_off t). pose proof (zone_off now).
  pose proof (Z.mul_succ_div_gt (now + zOff (loc now)) Day ltac:(reflexivity)). unfold_units. lia.
Qed.

(** A week holds every weekday. *)
Lemma allowed_in_week days from : days = Z.land days 127 -> exists day, from <= day < from + 7 /\ allowed days day = true.
Proof.
  intros E. unfold allowed. destruct (Z.eqb_spec days 0) as [->|N]; [exists from; split; [lia|reflexivity]|].
  assert (exists b, 0 <= b < 7 /\ Z.testbit days b = true) as (b & B & T).
  { assert (0 <= days < 128) as R.
    { rewrite E. change 127 with (Z.ones 7). rewrite Z.land_ones by lia. apply Z.mod_pos_bound. reflexivity. }
    exists (Z.log2 days). split; [|now apply Z.bit_log2; lia]. pose proof (Z.log2_nonneg days).
    pose proof (proj1 (Z.log2_lt_pow2 days 7 ltac:(lia)) ltac:(lia)). lia. }
  exists (from + (b - from) mod 7). pose proof (Z.mod_pos_bound (b - from) 7 ltac:(lia)). split; [lia|].
  cbn [orb]. replace ((from + (b - from) mod 7) mod 7) with b; [exact T|].
  rewrite Zplus_mod_idemp_r. replace (from + (b - from)) with b by lia. symmetry. now apply Z.mod_small.
Qed.

Lemma deadline_found now days clock : days = Z.land days 127 -> 0 <= clock < 1440 -> 1 <= dateOf loc now ->
  exists day, dateOf loc now <= day /\ allowed days day = true /\
    run (deadlineTurn loc now days clock) 10 (dateOf loc now) = inr (wallClock loc day clock) /\
    now < wallClock loc day clock /\
    forall d, dateOf loc now <= d < day -> allowed days d = true -> wallClock loc d clock <= now.
Proof.
  intros E C D. set (d0 := dateOf loc now) in *.
  destruct (allowed_in_week days (d0 + 3) E) as (target & R & A). set (f := deadlineTurn loc now days clock).
  pose proof (run_invariant (fun day => d0 <= day /\ forall d, d0 <= d < day -> allowed days d = true -> wallClock loc d clock <= now)
    (fun t => exists day, d0 <= day /\ allowed days day = true /\ t = wallClock loc day clock /\ now < t /\
       forall d, d0 <= d < day -> allowed days d = true -> wallClock loc d clock <= now) f) as Inv.
  assert (Step : forall a a', f a = inl a' -> a' = a + 1 /\ (allowed days a = true -> wallClock loc a clock <= now)).
  { intros a a' F. unfold f, deadlineTurn in F. destruct (allowed days a); cbn [negb] in F; [|inversion F; easy].
    cbv zeta in F. destruct (After _ now) eqn:G; [discriminate F|]. inversion F. split; [reflexivity|]. intros _.
    now apply Z.ltb_ge in G. }
  specialize (Inv ltac:(intros a [Ha Hd]; destruct (f a) as [a'|t] eqn:F;
    [destruct (Step _ _ F) as [-> W]; split; [lia|]; intros d Hd' Ad; destruct (Z.eq_dec d a) as [->|N]; [now apply W|apply Hd; [lia|exact Ad]]
    |unfold f, deadlineTurn in F; destruct (allowed days a) eqn:Ad; cbn [negb] in F; [|discriminate F]; cbv zeta in F;
     destruct (After _ now) eqn:G; [|discriminate F]; inversion F; exists a; apply Z.ltb_lt in G; split_and!; auto])).
  specialize (Inv 10%positive d0 ltac:(split; [lia|intros; lia])).
  destruct (run_stops (fun day => d0 <= day <= target) (fun day => target - day) f) with (p := 10%positive) (a := d0) as [t T]; [|lia|lia|].
  - intros a a' Ha F. destruct (Step _ _ F) as [-> W]. destruct (Z.eq_dec a target) as [->|N]; [exfalso|lia].
    pose proof (later_day now target clock ltac:(lia) C ltac:(lia)). specialize (W A). lia.
  - rewrite T in Inv. destruct Inv as (day & D1 & D2 & -> & D3 & D4). exists day. split_and!; auto.
Qed.

End Deadline.

(** ** Two households in 2026
    The offset goes up at 01:00 UTC on 29 March and back on 25 October: Central
    Europe, where 02:00 becomes 03:00, and the Azores, where 00:00 becomes
    01:00. *)
Definition at2026 (s : Z) : Time := unix_epoch + s * Second.
Definition lastAutumn : Time := at2026 1761440400.
Definition spring : Time := at2026 1774746000.
Definition autumn : Time := at2026 1792890000.
Definition household (winter : Duration) : Location := fun t =>
  if t <? lastAutumn then mkSpan (winter + Hour) None (Some lastAutumn)
  else if t <? spring then mkSpan winter (Some lastAutumn) (Some spring)
  else if t <? autumn then mkSpan (winter + Hour) (Some spring) (Some autumn)
  else mkSpan winter (Some autumn) None.

#[export] Instance household_zones winter :
  TCAnd (TCEq (winter mod Minute) 0) (TCEq (Z.abs winter <=? 12 * Hour) true) -> Zones (household winter).
Proof.
  intros [M B]. apply TCEq_eq in M, B. apply Z.leb_le in B.
  assert (O : lastAutumn + 48 * Hour <= spring /\ spring + 48 * Hour <= autumn) by (split; vm_compute; discriminate).
  assert (Mh : (winter + Hour) mod Minute = 0).
  { rewrite <- Zplus_mod_idemp_l, M. reflexivity. }
  assert (G : forall t u, inSpan (household winter t) u = true -> household winter u = household winter t).
  { intros t u. unfold household, inSpan.
    destruct (Z.ltb_spec t lastAutumn), (Z.ltb_spec t spring), (Z.ltb_spec t autumn); try (exfalso; unfold_units; lia); cbn [zStart zEnd];
      rewrite ?andb_true_iff, ?Z.leb_le, ?Z.ltb_lt; intros U;
      destruct (Z.ltb_spec u lastAutumn), (Z.ltb_spec u spring), (Z.ltb_spec u autumn); try reflexivity; exfalso; unfold_units; lia. }
  split; [|exact G| | |]; intros t; try (intros s e); unfold household, inSpan;
    destruct (Z.ltb_spec t lastAutumn), (Z.ltb_spec t spring), (Z.ltb_spec t autumn); try (exfalso; unfold_units; lia);
    cbn [zStart zEnd zOff]; rewrite ?andb_true_iff, ?Z.leb_le, ?Z.ltb_lt; auto; try (unfold_units; lia).
  all: intros S E; inversion S; inversion E; unfold_units; lia.
Qed.
Definition stockholm : Location := household Hour.

Lemma household_skips winter : (spring + winter - Hour) / Day = (spring + winter + 2 * Hour - 1) / Day ->
  daytimeSkips (household winter).
Proof.
  intros D t s. unfold household at 1 3 4.
  assert (O : lastAutumn < spring /\ spring < autumn) by (split; vm_compute; reflexivity).
  assert (E1 : zOff (household winter (lastAutumn - 1)) = winter + Hour).
  { unfold household. rewrite (proj2 (Z.ltb_lt _ _)) by lia. reflexivity. }
  assert (E2 : zOff (household winter (spring - 1)) = winter).
  { unfold household. rewrite (proj2 (Z.ltb_ge (spring - 1) lastAutumn)), (proj2 (Z.ltb_lt _ spring)) by lia. reflexivity. }
  assert (E3 : zOff (household winter (autumn - 1)) = winter + Hour).
  { unfold household. rewrite (proj2 (Z.ltb_ge _ lastAutumn)), (proj2 (Z.ltb_ge _ spring)), (proj2 (Z.ltb_lt _ autumn)) by lia. reflexivity. }
  destruct (Z.ltb_spec t lastAutumn); [intros X; discriminate X|]. destruct (Z.ltb_spec t spring); [|destruct (Z.ltb_spec t autumn)];
    cbn [zStart zOff]; intros X; apply (inj Some) in X; subst s; cbv zeta; rewrite ?E1, ?E2, ?E3; intros P; try (unfold_units; lia).
  replace (spring + winter - (winter + Hour - winter)) with (spring + winter - Hour) by lia.
  replace (spring + (winter + Hour) + (winter + Hour - winter) - 1) with (spring + winter + 2 * Hour - 1) by lia. exact D.
Qed.

(** Every night at half past two. *)
Definition nightly (clock : Z) : Schedule := mkSchedule (of_Z 1) false true (of_Z 0) "" 0 0 0 (Some clock).
Example skipped_time : NextDeadlineUTC stockholm (at2026 1774728000) (nightly 150) = spring.
Proof. vm_compute. reflexivity. Qed.
Example repeated_time : NextDeadlineUTC stockholm (at2026 1792872000) (nightly 150) = autumn - 30 * Minute.
Proof. vm_compute. reflexivity. Qed.
(** In the Azores the skipped hour begins at midnight, and half past midnight
    on that night is found a day late. *)
Example azores_deadline_late :
  NextDeadlineUTC (household (- Hour)) (at2026 1774728000) (nightly 30) = spring + 23 * Hour + 30 * Minute.
Proof. vm_compute. reflexivity. Qed.
