(* ===== verification/V2x.v ===== *)
(** * The envelope of a bidirectional charger (go/internal/v2x/policy.go)

    What an owner's policy allows a car to give and take at this instant. The
    departure's text is kept as the instant it says; the time zone and the
    clock that stands in for a missing [Now] are arguments. *)
From Stdlib Require Import ZArith Lia Ascii String.
From S2P Require Import Prelude Float64 GoTime Rfc3339 LoadpointData ChargeSchedule.
From stdpp Require Import base strings list.
#[local] Open Scope Z_scope.

(** config.V2XPolicy, its percentages already read. *)
Record V2XPolicy : Type := mkPolicy {
  vpEnabled : bool; vpDriverName : string; vpVehicleCapacityWh : f64; vpMinReserveSoC : f64; vpDepartureTargetSoC : f64;
  vpDepartureTime : string; vpMaxChargeW : f64; vpMaxDischargeW : f64; vpExportAllowed : bool; vpGridChargingAllowed : bool;
  vpCycleCostOreKWh : f64
}.
Record Snapshot : Type := mkSnapshot {
  vsDriver : string; vsOnline : bool; vsConnected : option bool; vsSoC : option f64; vsCapacityWh : f64;
  vsChargePowerMaxW : f64; vsDischargePowerMaxW : f64; vsRatedPowerW : f64; vsGridW : option f64; vsNow : Time
}.
Record Envelope : Type := mkEnvelope {
  veDriver : string; veEnabled : bool; veMinPowerW : f64; veMaxPowerW : f64; veMaxChargeW : f64; veMaxDischargeW : f64;
  veExportAllowed : bool; veGridChargingAllowed : bool; veMinReserveSoC : f64; veVehicleSoC : option f64;
  veVehicleCapacityWh : f64; veDepartureTargetSoC : f64; veDepartureAt : option Time; veHoursToDeparture : f64;
  veCycleCostOreKWh : f64; veReasons : list string
}.

Definition addReason (reason : string) (rs : list string) : list string :=
  if existsb (String.eqb reason) rs then rs else rs ++ [reason].
Definition usable (v : f64) : bool := negb (fle v (of_Z 0)) && negb (isNaN v) && negb (isInf v).
Definition positiveMin (values : list f64) : f64 :=
  fold_left (fun out v => if usable v then (if feq out (of_Z 0) || flt v out then v else out) else out) values (of_Z 0).
Fixpoint firstPositive (values : list f64) : f64 :=
  match values with
  | v :: rest => if flt (of_Z 0) v && negb (isNaN v) && negb (isInf v) then v else firstPositive rest
  | [] => of_Z 0
  end.
Definition clamp01 (v : f64) : f64 := if flt v (of_Z 0) then of_Z 0 else if flt (of_Z 1) v then of_Z 1 else v.

(** [time.Parse("15:04", value)]: minutes of the day. *)
Definition parseClock (value : string) : option Z :=
  match pbind oneOrTwo (fun h => pbind (pchar ":") (fun _ => pbind two (fun m => pbind (pcheck ((h <? 24) && (m <? 60))) (fun _ => pret (60 * h + m)))))
          (list_ascii_of_string value) with
  | Some (c, []) => Some c
  | _ => None
  end.
Definition nextDeparture (loc : Location) (now : Time) (value : string) : option Time :=
  if String.eqb value "" then None
  else
    match ParseRFC3339Nano value with
    | Some t => Some t
    | None =>
        match parseClock value with
        | None => None
        | Some clock =>
            let departure := DateIn loc ((dateOf loc now * 1440 + clock) * Minute) in
            Some (if negb (After departure now) then GoTime.Add departure (24 * Hour) else departure)
        end
    end.

(** ** The steps of [Evaluate] on the discharge, the charge and the reasons *)
Definition reserveStep (p : V2XPolicy) (soc : f64) (x : f64 * list string) : f64 * list string :=
  if fle soc (vpMinReserveSoC p) then (of_Z 0, addReason "reserve_floor" (snd x)) else x.

(** The charge that is sure to come before the departure, as a level. *)
Definition recoverable (p : V2XPolicy) (grid : option f64) (chargeW hours capacityWh : f64) : f64 :=
  let w :=
    if vpGridChargingAllowed p then chargeW
    else
      match grid with
      | Some g => if flt g (of_Z 0) then (if flt (fneg g) chargeW then fneg g else chargeW) else of_Z 0
      | None => of_Z 0
      end in
  if flt (of_Z 0) hours && flt (of_Z 0) w then fdiv (fmul w hours) capacityWh else of_Z 0.
Definition requiredNow (p : V2XPolicy) (grid : option f64) (chargeW hours capacityWh : f64) : f64 :=
  let required := clamp01 (fsub (vpDepartureTargetSoC p) (recoverable p grid chargeW hours capacityWh)) in
  if flt required (vpMinReserveSoC p) then vpMinReserveSoC p else required.

(** The departure as it is read, and the hours to it. *)
Definition departureOf (loc : Location) (p : V2XPolicy) (now : Time) : option (Time * f64) :=
  if flt (of_Z 0) (vpDepartureTargetSoC p) then
    (fun at' => (at', fmax (of_Z 0) (Hours (Sub at' now)))) <$> nextDeparture loc now (vpDepartureTime p)
  else None.
Definition departureStep (loc : Location) (p : V2XPolicy) (now : Time) (soc : f64) (grid : option f64) (chargeW capacityWh : f64)
    (x : f64 * list string) : f64 * list string :=
  if negb (flt (of_Z 0) (vpDepartureTargetSoC p)) then x
  else
    match departureOf loc p now with
    | None => (of_Z 0, addReason "departure_time_invalid" (snd x))
    | Some (_, hours) =>
        if fle capacityWh (of_Z 0) then (of_Z 0, addReason "capacity_missing" (snd x))
        else
          let required := requiredNow p grid chargeW hours capacityWh in
          let x := if fle soc required then (of_Z 0, addReason "departure_target_floor" (snd x)) else x in
          if flt soc required then (fst x, addReason "departure_target_at_risk" (snd x)) else x
    end.
Definition exportStep (p : V2XPolicy) (grid : option f64) (x : f64 * list string) : f64 * list string :=
  if vpExportAllowed p then x
  else
    match grid with
    | None => (of_Z 0, addReason "export_limit_unknown" (snd x))
    | Some g =>
        if fle g (of_Z 0) then (of_Z 0, addReason "export_blocked" (snd x))
        else if flt g (fst x) then (g, addReason "export_limited_to_import" (snd x)) else x
    end.
Definition gridChargeStep (p : V2XPolicy) (grid : option f64) (x : f64 * list string) : f64 * list string :=
  if vpGridChargingAllowed p then x
  else
    match grid with
    | None => (of_Z 0, addReason "grid_charge_limit_unknown" (snd x))
    | Some g =>
        if fle (of_Z 0) g then (of_Z 0, addReason "grid_charging_blocked" (snd x))
        else if flt (fneg g) (fst x) then (fneg g, addReason "charge_limited_to_surplus" (snd x)) else x
    end.
Definition deadband (w : f64) : f64 := if flt (fabs w) (of_Z 1) then of_Z 0 else w.

(** The reason the power is zero whatever the limits say. *)
Definition unfit (p : V2XPolicy) (s : Snapshot) : option string :=
  if negb (String.eqb (vpDriverName p) "") && negb (String.eqb (vsDriver s) (vpDriverName p)) then Some "driver_not_selected"%string
  else if negb (vsOnline s) then Some "driver_offline"%string
  else
    match vsConnected s, vsSoC s with
    | None, _ => Some "connected_unknown"%string
    | Some false, _ => Some "vehicle_disconnected"%string
    | Some true, None => Some "soc_missing"%string
    | Some true, Some soc =>
        if isNaN soc || isInf soc || flt soc (of_Z 0) || flt (of_Z 1) soc then Some "soc_invalid"%string else None
    end.
Definition chargeLimit (p : V2XPolicy) (s : Snapshot) : f64 := positiveMin [vpMaxChargeW p; vsChargePowerMaxW s; vsRatedPowerW s].
Definition dischargeLimit (p : V2XPolicy) (s : Snapshot) : f64 := positiveMin [vpMaxDischargeW p; vsDischargePowerMaxW s; vsRatedPowerW s].
(** Discharge and charge before the dead band, and the reasons. *)
Definition allowedPower (loc : Location) (p : V2XPolicy) (s : Snapshot) (now : Time) (soc : f64) : f64 * f64 * list string :=
  let capacityWh := firstPositive [vpVehicleCapacityWh p; vsCapacityWh s] in
  let chargeW := chargeLimit p s in
  let dischargeW := dischargeLimit p s in
  let rs := if fle chargeW (of_Z 0) then addReason "charge_limit_missing" [] else [] in
  let rs := if fle dischargeW (of_Z 0) then addReason "discharge_limit_missing" rs else rs in
  let '(dischargeW, rs) :=
    exportStep p (vsGridW s) (departureStep loc p now soc (vsGridW s) chargeW capacityWh (reserveStep p soc (dischargeW, rs))) in
  let '(chargeW, rs) := gridChargeStep p (vsGridW s) (chargeW, rs) in
  (dischargeW, chargeW, rs).

Definition emptyEnvelope (driver reason : string) : Envelope :=
  mkEnvelope driver false (of_Z 0) (of_Z 0) (of_Z 0) (of_Z 0) false false (of_Z 0) None (of_Z 0) (of_Z 0) None (of_Z 0) (of_Z 0) [reason].
Definition envelopeOf (p : V2XPolicy) (s : Snapshot) (soc : option f64) (dischargeW chargeW : f64) (departure : option (Time * f64))
    (rs : list string) : Envelope :=
  mkEnvelope (vsDriver s) true (fneg dischargeW) chargeW chargeW dischargeW (vpExportAllowed p) (vpGridChargingAllowed p) (vpMinReserveSoC p)
    soc (firstPositive [vpVehicleCapacityWh p; vsCapacityWh s]) (vpDepartureTargetSoC p)
    (fst <$> departure) (match departure with Some d => snd d | None => of_Z 0 end) (vpCycleCostOreKWh p) rs.
Definition Evaluate (loc : Location) (wall : Time) (policy : option V2XPolicy) (s : Snapshot) : Envelope :=
  let now := if IsZero (vsNow s) then wall else vsNow s in
  match policy with
  | None => emptyEnvelope (vsDriver s) "policy_disabled"
  | Some p =>
      if negb (vpEnabled p) then emptyEnvelope (vsDriver s) "policy_disabled"
      else
        match unfit p s with
        | Some reason => envelopeOf p s None (of_Z 0) (of_Z 0) None [reason]
        | None =>
            let soc := default (of_Z 0) (vsSoC s) in
            let '(dischargeW, chargeW, rs) := allowedPower loc p s now soc in
            envelopeOf p s (vsSoC s) (deadband dischargeW) (deadband chargeW) (departureOf loc p now) rs
        end
  end.

(** ** Lemmas *)
Lemma usable_pos v : usable v = true -> flt (of_Z 0) v = true.
Proof.
  unfold usable. intros H. apply andb_true_iff in H as [H _]. apply andb_true_iff in H as [H N]. apply negb_true_iff in H, N.
  apply fle_false_flt; [exact H|now apply isNaN_false_iff|]. rewrite of_Z_rank by lia. lia.
Qed.
Lemma positive_min_snoc vs v : positiveMin (vs ++ [v]) =
  let out := positiveMin vs in if usable v then (if feq out (of_Z 0) || flt v out then v else out) else out.
Proof. unfold positiveMin. now rewrite fold_left_app. Qed.

Lemma feq_refl0 : feq (of_Z 0) (of_Z 0) = true.
Proof. apply feq_iff. rewrite of_Z_rank by lia. split_and!; [lia|reflexivity|reflexivity]. Qed.
(** The smallest usable value; zero when there is none. *)
Lemma positive_min_spec vs : let out := positiveMin vs in
  (forall v, v ∈ vs -> usable v = true -> flt v out = false /\ flt (of_Z 0) out = true) /\
  (out = of_Z 0 \/ out ∈ vs /\ usable out = true).
Proof.
  cbv zeta. induction vs as [|v vs IH] using rev_ind; [split; [intros v H; inversion H|now left]|].
  rewrite positive_min_snoc. cbv zeta. set (out := positiveMin vs) in *. clearbody out. destruct IH as [A B].
  assert (K : out = of_Z 0 \/ out ∈ vs ++ [v] /\ usable out = true).
  { destruct B as [B|[B1 B2]]; [now left|right; split; [apply elem_of_app; now left|exact B2]]. }
  destruct (usable v) eqn:U; [|split; [|exact K]; intros x X Ux].
  2: { apply elem_of_app in X as [X|X]; [now apply A|]. apply list_elem_of_singleton in X. subst. congruence. }
  pose proof (usable_pos v U) as P. destruct (feq out (of_Z 0) || flt v out) eqn:E.
  - split; [|right; split; [apply elem_of_app; right; now left|exact U]].
    intros x X Ux. apply elem_of_app in X as [X|X]; [|apply list_elem_of_singleton in X; subst; split; [apply flt_irrefl|exact P]].
    destruct (A x X Ux) as [A1 A2]. split; [|exact P]. apply orb_true_iff in E as [E|E].
    + apply feq_eq in E. rewrite E, flt_irrefl in A2. discriminate A2.
    + destruct (flt x v) eqn:L; [|reflexivity]. rewrite (flt_trans _ _ _ L E) in A1. discriminate A1.
  - apply orb_false_iff in E as [E1 E2]. split; [|exact K].
    intros x X Ux. apply elem_of_app in X as [X|X]; [now apply A|]. apply list_elem_of_singleton in X. subst. split; [exact E2|].
    destruct B as [->|[_ B]]; [|now apply usable_pos]. rewrite feq_refl0 in E1. discriminate E1.
Qed.

(** A step keeps the power, ends it, or lowers it to a bound. *)
Lemma deadband_pos w : flt (of_Z 0) (deadband w) = true -> deadband w = w.
Proof. unfold deadband. destruct (flt (fabs w) (of_Z 1)); [|reflexivity]. rewrite flt_irrefl. discriminate. Qed.
Lemma not_pos0 : flt (of_Z 0) (of_Z 0) = true -> False.
Proof. rewrite flt_irrefl. discriminate. Qed.

Lemma reserve_pos p soc x : flt (of_Z 0) (fst (reserveStep p soc x)) = true ->
  fst (reserveStep p soc x) = fst x /\ fle soc (vpMinReserveSoC p) = false.
Proof. unfold reserveStep. destruct (fle soc _); [intros H; destruct (not_pos0 H)|auto]. Qed.

(** The departure is read, and the level is above what it needs. *)
Definition departureMet (loc : Location) (p : V2XPolicy) (now : Time) (soc : f64) (grid : option f64) (chargeW capacityWh : f64) : Prop :=
  exists at' hours, departureOf loc p now = Some (at', hours) /\ fle capacityWh (of_Z 0) = false /\
    fle soc (requiredNow p grid chargeW hours capacityWh) = false.
Lemma departure_pos loc p now soc grid chargeW capacityWh x :
  flt (of_Z 0) (fst (departureStep loc p now soc grid chargeW capacityWh x)) = true ->
  fst (departureStep loc p now soc grid chargeW capacityWh x) = fst x /\
  (flt (of_Z 0) (vpDepartureTargetSoC p) = true -> departureMet loc p now soc grid chargeW capacityWh).
Proof.
  unfold departureStep. destruct (flt (of_Z 0) (vpDepartureTargetSoC p)) eqn:T; cbn [negb]; [|intros _; split; [reflexivity|discriminate]].
  destruct (departureOf loc p now) as [[at' hours]|] eqn:D; [|intros H; destruct (not_pos0 H)].
  destruct (fle capacityWh _) eqn:C; [intros H; destruct (not_pos0 H)|]. cbv zeta. set (req := requiredNow _ _ _ _ _).
  destruct (fle soc req) eqn:L; [destruct (flt soc req); intros H; destruct (not_pos0 H)|].
  intros _. split; [destruct (flt soc req); reflexivity|]. intros _. exists at', hours. auto.
Qed.
Lemma export_pos p grid x : (forall g, grid = Some g -> isNaN g = false) -> flt (of_Z 0) (fst (exportStep p grid x)) = true ->
  le_rel (fst (exportStep p grid x)) (fst x) /\ flt (of_Z 0) (fst x) = true /\
  (vpExportAllowed p = false -> exists g, grid = Some g /\ flt (of_Z 0) g = true /\ flt g (fst (exportStep p grid x)) = false).
Proof.
  intros N. unfold exportStep.
  assert (R : forall w, flt (of_Z 0) w = true -> le_rel w w) by (intros w H; apply flt_iff in H; unfold le_rel; lia).
  destruct (vpExportAllowed p); [intros H; split; [exact (R _ H)|split; [exact H|discriminate]]|].
  destruct grid as [g|]; [|intros H; destruct (not_pos0 H)]. specialize (N g eq_refl). apply isNaN_false_iff in N.
  destruct (fle g (of_Z 0)) eqn:G; [intros H; destruct (not_pos0 H)|].
  assert (P : flt (of_Z 0) g = true) by (apply fle_false_flt; [exact G|exact N|rewrite of_Z_rank by lia; lia]).
  destruct (flt g (fst x)) eqn:L; cbn [fst]; intros H.
  - split; [now apply flt_le|]. split; [exact (flt_trans _ _ _ P L)|]. intros _. exists g. split; [reflexivity|]. split; [exact P|apply flt_irrefl].
  - split; [exact (R _ H)|]. split; [exact H|]. intros _. exists g. auto.
Qed.
Lemma grid_charge_pos p grid x : (forall g, grid = Some g -> isNaN g = false) -> flt (of_Z 0) (fst (gridChargeStep p grid x)) = true ->
  le_rel (fst (gridChargeStep p grid x)) (fst x) /\ flt (of_Z 0) (fst x) = true /\
  (vpGridChargingAllowed p = false ->
     exists g, grid = Some g /\ flt g (of_Z 0) = true /\ flt (fneg g) (fst (gridChargeStep p grid x)) = false).
Proof.
  intros N. unfold gridChargeStep.
  assert (R : forall w, flt (of_Z 0) w = true -> le_rel w w) by (intros w H; apply flt_iff in H; unfold le_rel; lia).
  destruct (vpGridChargingAllowed p); [intros H; split; [exact (R _ H)|split; [exact H|discriminate]]|].
  destruct grid as [g|]; [|intros H; destruct (not_pos0 H)]. specialize (N g eq_refl). apply isNaN_false_iff in N.
  destruct (fle (of_Z 0) g) eqn:G; [intros H; destruct (not_pos0 H)|].
  assert (P : flt g (of_Z 0) = true) by (apply fle_false_flt; [exact G|rewrite of_Z_rank by lia; lia|exact N]).
  destruct (flt (fneg g) (fst x)) eqn:L; cbn [fst]; intros H.
  - split; [now apply flt_le|]. split; [exact (flt_trans _ _ _ H L)|]. intros _. exists g. split; [reflexivity|]. split; [exact P|apply flt_irrefl].
  - split; [exact (R _ H)|]. split; [exact H|]. intros _. exists g. auto.
Qed.

(** The car is the policy's, on line, plugged in and of a known level. *)
Lemma unfit_none p s : unfit p s = None ->
  (vpDriverName p = ""%string \/ vsDriver s = vpDriverName p) /\ vsOnline s = true /\ vsConnected s = Some true /\
  exists soc, vsSoC s = Some soc /\ isNaN soc = false /\ flt soc (of_Z 0) = false /\ flt (of_Z 1) soc = false.
Proof.
  unfold unfit. destruct (negb (String.eqb (vpDriverName p) "") && _) eqn:D; [discriminate|]. destruct (vsOnline s); [|discriminate]. cbn [negb].
  destruct (vsConnected s) as [[|]|]; [|discriminate..]. destruct (vsSoC s) as [soc|]; [|discriminate].
  destruct (isNaN soc) eqn:N; [discriminate|]. destruct (isInf soc); [discriminate|]. destruct (flt soc (of_Z 0)) eqn:L; [discriminate|].
  destruct (flt (of_Z 1) soc) eqn:G; [discriminate|]. intros _. split; [|split; [reflexivity|split; [reflexivity|exists soc; auto]]].
  apply andb_false_iff in D as [D|D]; apply negb_false_iff, String.eqb_eq in D; auto.
Qed.

(** A limit that binds the power, when it is a usable number. *)
Definition underLimits (limits : list f64) (w : f64) : Prop :=
  (exists v, v ∈ limits /\ usable v = true) /\ forall v, v ∈ limits -> usable v = true -> flt v w = false.
Lemma under_limits limits w : le_rel w (positiveMin limits) -> flt (of_Z 0) w = true -> underLimits limits w.
Proof.
  intros L P. destruct (positive_min_spec limits) as [A B]. split.
  - destruct B as [B|[B1 B2]]; [|eauto]. rewrite B in L. destruct (flt_le_contra _ _ P L).
  - intros v V U. destruct (A v V U) as [A1 _]. destruct (flt v w) eqn:X; [|reflexivity]. rewrite (flt_le_trans _ _ _ X L) in A1. discriminate A1.
Qed.

Section Envelope.
Context (loc : Location) (wall : Time) (policy : option V2XPolicy) (s : Snapshot).
Let e := Evaluate loc wall policy s.
Let now := if IsZero (vsNow s) then wall else vsNow s.

(** Some power is allowed: the policy and the powers before the dead band. *)
Lemma envelope_power w : w = veMaxDischargeW e \/ w = veMaxChargeW e -> flt (of_Z 0) w = true ->
  exists p soc d c rs, policy = Some p /\ vpEnabled p = true /\ unfit p s = None /\ vsSoC s = Some soc /\
    allowedPower loc p s now soc = (d, c, rs) /\ veMaxDischargeW e = deadband d /\ veMaxChargeW e = deadband c.
Proof.
  unfold e, Evaluate. fold now. destruct policy as [p|]; [|cbn; intros [->| ->] H; destruct (not_pos0 H)].
  destruct (vpEnabled p) eqn:E; cbn [negb]; [|cbn; intros [->| ->] H; destruct (not_pos0 H)].
  destruct (unfit p s) as [r|] eqn:U; [cbn; intros [->| ->] H; destruct (not_pos0 H)|].
  destruct (unfit_none p s U) as (_ & _ & _ & soc & S & _). rewrite S. change (default (of_Z 0) (Some soc)) with soc.
  destruct (allowedPower loc p s now soc) as [[d c] rs] eqn:A. intros _ _. exists p, soc, d, c, rs. split_and!; auto.
Qed.

Definition capacityOf (p : V2XPolicy) : f64 := firstPositive [vpVehicleCapacityWh p; vsCapacityWh s].
(** What has to hold before the car gives power. *)
Definition mayDischarge (p : V2XPolicy) (soc w : f64) : Prop :=
  underLimits [vpMaxDischargeW p; vsDischargePowerMaxW s; vsRatedPowerW s] w /\ fle soc (vpMinReserveSoC p) = false /\
  (flt (of_Z 0) (vpDepartureTargetSoC p) = true -> departureMet loc p now soc (vsGridW s) (chargeLimit p s) (capacityOf p)) /\
  (vpExportAllowed p = false -> exists g, vsGridW s = Some g /\ flt (of_Z 0) g = true /\ flt g w = false).
Definition mayCharge (p : V2XPolicy) (w : f64) : Prop :=
  underLimits [vpMaxChargeW p; vsChargePowerMaxW s; vsRatedPowerW s] w /\
  (vpGridChargingAllowed p = false -> exists g, vsGridW s = Some g /\ flt g (of_Z 0) = true /\ flt (fneg g) w = false).

Lemma allowed_discharge p soc d c rs : (forall g, vsGridW s = Some g -> isNaN g = false) ->
  allowedPower loc p s now soc = (d, c, rs) -> flt (of_Z 0) d = true -> mayDischarge p soc d.
Proof.
  intros N. unfold allowedPower. cbv zeta. set (rs1 := if fle (dischargeLimit p s) _ then _ else _).
  set (x1 := reserveStep p soc _). set (x2 := departureStep _ _ _ _ _ _ _ x1).
  pose proof (export_pos p (vsGridW s) x2 N) as X. destruct (exportStep p (vsGridW s) x2) as [d0 rs2]. cbn [fst] in X.
  destruct (gridChargeStep _ _ _) as [c0 rs3]. intros E P. inversion E; subst d0 c0 rs3. destruct (X P) as (X1 & X2 & X3).
  destruct (departure_pos _ _ _ _ _ _ _ _ X2) as [Y1 Y2]. fold x2 in Y1. rewrite Y1 in X1, X2.
  destruct (reserve_pos _ _ _ X2) as [Z1 Z2]. fold x1 in Z1. rewrite Z1 in X1. cbn [fst] in X1.
  split; [now apply under_limits|]. split; [exact Z2|]. split; [exact Y2|exact X3].
Qed.
Lemma allowed_charge p soc d c rs : (forall g, vsGridW s = Some g -> isNaN g = false) ->
  allowedPower loc p s now soc = (d, c, rs) -> flt (of_Z 0) c = true -> mayCharge p c.
Proof.
  intros N. unfold allowedPower. cbv zeta. destruct (exportStep _ _ _) as [d0 rs2].
  pose proof (grid_charge_pos p (vsGridW s) (chargeLimit p s, rs2) N) as X.
  destruct (gridChargeStep p (vsGridW s) (chargeLimit p s, rs2)) as [c0 rs3]. cbn [fst] in X. intros E P. inversion E; subst d0 c0 rs3.
  destruct (X P) as (X1 & X2 & X3). split; [now apply under_limits|exact X3].
Qed.

(** C24: The power range of a bidirectional charger is what its policy and its
    limits allow. The car gives power only under an enabled policy that names
    it, on line, plugged in, with a valid level above the reserve and above
    what the departure still needs, within every limit that is known, and,
    where export is not allowed, within what the house takes from the grid. It
    takes power under the same policy, within every known limit, and, where the
    grid may not charge it, within what the house gives. *)
Theorem v2x_power_allowed (Hgrid : forall g, vsGridW s = Some g -> isNaN g = false) :
  veMinPowerW e = fneg (veMaxDischargeW e) /\ veMaxPowerW e = veMaxChargeW e /\
  forall w, flt (of_Z 0) w = true ->
    (veMaxDischargeW e = w -> exists p soc, policy = Some p /\ vpEnabled p = true /\ unfit p s = None /\ vsSoC s = Some soc /\
       mayDischarge p soc w) /\
    (veMaxChargeW e = w -> exists p, policy = Some p /\ vpEnabled p = true /\ unfit p s = None /\ mayCharge p w).
Proof.
  assert (Z0 : of_Z 0 = fneg (of_Z 0)) by (rewrite of_Z_opp by lia; reflexivity).
  split; [|split].
  - unfold e, Evaluate. destruct policy as [p|]; [|exact Z0]. destruct (vpEnabled p); [|exact Z0]. cbn [negb].
    destruct (unfit p s); [reflexivity|]. cbv zeta. destruct (allowedPower _ _ _ _ _) as [[d c] rs]. reflexivity.
  - unfold e, Evaluate. destruct policy as [p|]; [|reflexivity]. destruct (vpEnabled p); [|reflexivity]. cbn [negb].
    destruct (unfit p s); [reflexivity|]. cbv zeta. destruct (allowedPower _ _ _ _ _) as [[d c] rs]. reflexivity.
  - intros w P. split; intros W.
    + destruct (envelope_power w (or_introl (eq_sym W)) P) as (p & soc & d & c & rs & A1 & A2 & A3 & A4 & A5 & A6 & _).
      exists p, soc. split_and!; try assumption. rewrite A6 in W. subst w. pose proof (deadband_pos d P) as D. rewrite D in P |- *.
      exact (allowed_discharge p soc d c rs Hgrid A5 P).
    + destruct (envelope_power w (or_intror (eq_sym W)) P) as (p & soc & d & c & rs & A1 & A2 & A3 & A4 & A5 & _ & A6).
      exists p. split_and!; try assumption. rewrite A6 in W. subst w. pose proof (deadband_pos c P) as D. rewrite D in P |- *.
      exact (allowed_charge p soc d c rs Hgrid A5 P).
Qed.
End Envelope.

(** A car at 80 percent, a house that takes 3 kW and may not export. *)
Definition demoPolicy : V2XPolicy := mkPolicy true "" (of_Z 60000) (lit 3 10) (of_Z 0) "" (of_Z 7000) (of_Z 5000) false true (of_Z 0).
Definition demoSnapshot : Snapshot :=
  mkSnapshot "v2x" true (Some true) (Some (lit 8 10)) (of_Z 0) (of_Z 11000) (of_Z 11000) (of_Z 11000) (Some (of_Z 3000)) (100 * Hour).
Lemma v2x_power_allowed_witness :
  let e := Evaluate (household Hour) 0 (Some demoPolicy) demoSnapshot in
  veMaxDischargeW e = of_Z 3000 /\
  exists p soc, Some demoPolicy = Some p /\ vpEnabled p = true /\ unfit p demoSnapshot = None /\ vsSoC demoSnapshot = Some soc /\
    mayDischarge (household Hour) 0 demoSnapshot p soc (of_Z 3000).
Proof.
  cbv zeta. assert (E : veMaxDischargeW (Evaluate (household Hour) 0 (Some demoPolicy) demoSnapshot) = of_Z 3000)
    by (vm_compute; reflexivity).
  split; [exact E|].
  refine (proj1 (proj2 (proj2 (v2x_power_allowed (household Hour) 0 (Some demoPolicy) demoSnapshot _)) (of_Z 3000) _) E).
  - intros g G. change (Some (of_Z 3000) = Some g) in G. apply (inj Some) in G. rewrite <- G. vm_compute. reflexivity.
  - vm_compute. reflexivity.
Defined.
(** Ready by half past seven: the clock of the text, tomorrow when it is past. *)
Example departure_clock :
  (nextDeparture (fun _ => mkSpan Hour None None) (10 * Hour) "07:30", nextDeparture (fun _ => mkSpan Hour None None) (5 * Hour) "7:30",
   nextDeparture (fun _ => mkSpan Hour None None) 0 "7:3") = (Some (30 * Hour + 30 * Minute), Some (6 * Hour + 30 * Minute), None).
Proof. vm_compute. reflexivity. Qed.
