(* ===== verification/ChargeTick.v ===== *)
(** * The loadpoint controller: its state and what a charger is wanted to do
    (go/internal/loadpoint: controller.go, vehicle_completion.go,
    planning_steps.go)

    What the controller is wired to, what it keeps, the choice of surplus and
    phases a tick makes once, the power the plan wants, and the offer that lets
    a car finish. *)
From Stdlib Require Import ZArith Lia.
From S2P Require Import Prelude Float64 GoTime LoadpointData ChargeSteps SessionEnergy SurplusCharge.
From stdpp Require Import base gmap strings list.
#[local] Open Scope Z_scope.

Definition DeliveringW : f64 := of_Z 100.

Definition UnplugGrace : Duration := 30 * Second.

(** [Complete], [Charging], [Starting]... and the car's own numbers. *)
Record VehicleChargeState : Type := mkCarState { vsSoC : f64; vsLimit : f64; vsState : string }.

(** An order kept across restarts, by the charger's device (controller_offer_restore.go). *)
Record savedOffer : Type := mkSaved {
  svVersion : Z; svDeviceID : string; svSessionID : string; svSessionWh : f64; svPowerW : f64;
  svPhaseMode : string; svReason : string; svAt : Time
}.

(** What the controller is wired to in one tick, and the wall clock. A callback
    that is not wired is [None]; one without an answer gives [None]. *)
Record World : Type := mkWorld {
  wdConfigs : list LPConfig; wdSchedules : gmap string Schedule; wdEnv : SurplusEnv;
  wdOnline : string -> bool; wdPlan : option (option Directive);
  wdFuseEVMax : option (option f64); wdPhaseRoomA : option (option f64); wdReason : option string;
  wdCar : option (string -> option VehicleChargeState); wdUnplugged : gmap string Time; wdWall : Time
}.
Definition site (w : World) : SiteFuse := enSite (wdEnv w).

Record tickChoice : Type := mkChoice { chOn : bool; chAdds : bool; chSteps : list f64; chMode : string }.
Definition noChoice : tickChoice := mkChoice false false [] "".
Record fuseRoom : Type := mkFuseRoom { frW : f64; frPhaseA : f64; frPhaseKnown : bool }.
Record FuseDemand : Type := mkDemand { fdDriver : string; fdPowerW : f64; fdMode : string }.

(** The fields a tick sets and clears. *)
Record tickState : Type := mkTick {
  tkActive : bool; tkDirective : option Directive; tkCaps : option (gmap string f64);
  tkRooms : gmap string fuseRoom; tkReason : string; tkChoices : gmap string tickChoice
}.
Definition noTick : tickState := mkTick false None None ∅ "" ∅.
(** [ctStore]: the saved orders of the store, by device; [None] is no store. *)
Record Ctl : Type := mkCtl {
  ctStates : gmap string LPState; ctSurplus : Surplus; ctHolds : gmap string ManualHold;
  ctEnergy : gmap string meteredEnergy; ctKick : gmap string Time; ctTick : tickState;
  ctDemands : list FuseDemand; ctSaved : gmap string savedOffer; ctStore : option (gmap string savedOffer)
}.
Definition withStates (x : gmap string LPState) (c : Ctl) : Ctl :=
  mkCtl x (ctSurplus c) (ctHolds c) (ctEnergy c) (ctKick c) (ctTick c) (ctDemands c) (ctSaved c) (ctStore c).
Definition withSurplus (x : Surplus) (c : Ctl) : Ctl :=
  mkCtl (ctStates c) x (ctHolds c) (ctEnergy c) (ctKick c) (ctTick c) (ctDemands c) (ctSaved c) (ctStore c).
Definition withHolds (x : gmap string ManualHold) (c : Ctl) : Ctl :=
  mkCtl (ctStates c) (ctSurplus c) x (ctEnergy c) (ctKick c) (ctTick c) (ctDemands c) (ctSaved c) (ctStore c).
Definition withTick (x : tickState) (c : Ctl) : Ctl :=
  mkCtl (ctStates c) (ctSurplus c) (ctHolds c) (ctEnergy c) (ctKick c) x (ctDemands c) (ctSaved c) (ctStore c).
Definition withDemands (x : list FuseDemand) (c : Ctl) : Ctl :=
  mkCtl (ctStates c) (ctSurplus c) (ctHolds c) (ctEnergy c) (ctKick c) (ctTick c) x (ctSaved c) (ctStore c).
Definition withSaved (x : gmap string savedOffer) (c : Ctl) : Ctl :=
  mkCtl (ctStates c) (ctSurplus c) (ctHolds c) (ctEnergy c) (ctKick c) (ctTick c) (ctDemands c) x (ctStore c).

Definition withStore (x : option (gmap string savedOffer)) (c : Ctl) : Ctl :=
  mkCtl (ctStates c) (ctSurplus c) (ctHolds c) (ctEnergy c) (ctKick c) (ctTick c) (ctDemands c) (ctSaved c) x.

(** [manager.States()]: in the configured order. *)
Definition States (w : World) (c : Ctl) : list LPState := omap (fun cfg => ctStates c !! cfID cfg) (wdConfigs w).

(** ** Holds *)
Definition expired (now : Time) (h : ManualHold) : bool := negb (mlPersistent h) && negb (Before now (mlExpiresAt h)).
Definition liveHold (holds : gmap string ManualHold) (id : string) (now : Time) : option ManualHold :=
  match holds !! id with Some h => if expired now h then None else Some h | None => None end.
Definition evict (now : Time) (id : string) (holds : gmap string ManualHold) : gmap string ManualHold :=
  match holds !! id with Some h => if expired now h then delete id holds else holds | None => holds end.
Definition GetManualHold (id : string) (now : Time) (c : Ctl) : option ManualHold * Ctl :=
  (liveHold (ctHolds c) id now, withHolds (evict now id (ctHolds c)) c).

Definition wakeKickActive (id : string) (now : Time) (c : Ctl) : bool :=
  match ctKick c !! id with Some t => Before now t | None => false end.

(** ** The tick's directive and the fuse cap *)
Definition currentDirective (w : World) (c : Ctl) : option Directive :=
  if tkActive (ctTick c) then tkDirective (ctTick c) else match wdPlan w with Some d => d | None => None end.
Definition reservedBy (d : option Directive) (id : string) : bool :=
  match d with Some d => default false (dFallback d !! id) | None => false end.
Definition choiceOf (c : Ctl) (id : string) : tickChoice := default noChoice (tkChoices (ctTick c) !! id).

Definition fuseCapFor (w : World) (c : Ctl) (id : string) : option f64 :=
  match tkCaps (ctTick c) with
  | Some caps => Some (default (of_Z 0) (caps !! id))
  | None => if tkActive (ctTick c) then None else match wdFuseEVMax w with Some r => r | None => None end
  end.
Definition capReason (w : World) (c : Ctl) : string :=
  if negb (String.eqb (tkReason (ctTick c)) "") then tkReason (ctTick c)
  else match wdReason w with Some r => if String.eqb r "" then "fuse_limit"%string else r | None => "fuse_limit"%string end.

(** ** The choice of a tick *)
Section Tick.
Variable localDay : Time -> Z.

Definition chooseTick (w : World) (now : Time) (cfg : LPConfig) (sample : EVSample) (dispatchAllowed : bool) (c : Ctl)
    : tickChoice * Ctl :=
  let id := cfID cfg in
  let sched := default noSchedule (wdSchedules w !! id) in
  let fallback := tkActive (ctTick c) && reservedBy (tkDirective (ctTick c)) id in
  let '(on, s) := surplusActive (wdEnv w) cfg sched fallback (ctSurplus c) in
  let '(adds, s) := surplusAddsToPlan (wdEnv w) cfg sched s in
  let c := withSurplus s c in
  let choice := mkChoice on adds [] "" in
  if negb (saConnected sample) || negb dispatchAllowed || negb (wdOnline w (cfDriver cfg)) then (choice, c)
  else
    let '(hold, c) := GetManualHold id now c in
    let '(choice, c) :=
      match hold with
      | Some h => (mkChoice on adds [] (holdPhaseMode h cfg (site w)), c)
      | None =>
          let '(steps, s) := if on || adds then pickSurplusSteps localDay (wdEnv w) now cfg (ctSurplus c) else ([], ctSurplus c) in
          let mode := resolvePhaseMode (cfPhaseMode cfg) (threePhaseCapable cfg (site w))
                        (HasTarget sched && negb (cfSurplusOnly cfg)) (surplusLockedTo1P id (suPhase s)) on
                        (dwellSelectedPhaseMode id (suPhase s)) in
          (mkChoice on adds steps mode, withSurplus s c)
      end in
    (if Phases (site w) =? 1 then mkChoice (chOn choice) (chAdds choice) (chSteps choice) "1p" else choice, c).

(** ** What the plan wants *)
(** [Controller.PlanningLimits] *)
Definition controllerLimits (w : World) (st : LPState) : f64 * f64 * list f64 :=
  let mode := fold_left (fun m lp => if String.eqb (cfID lp) (lpID st) then cfPhaseMode lp else m) (wdConfigs w) ""%string in
  PlanningLimits st
    (mkConfig "" "" (lpMinChargeW st) (lpMaxChargeW st) (lpSteps st) mode (of_Z 0) 0 false) (site w).

(** Whether a duty plan's on-time runs until [onUntil]. *)
Definition dutyUntil (d : Directive) (budgetWh ceiling : f64) (fallback : bool) (now : Time) : Time :=
  if flt (of_Z 0) ceiling && flt (of_Z 0) budgetWh && negb (Before now (dSlotStart d)) && negb fallback
  then
    let onUntil := GoTime.Add (dSlotStart d) (int_of (fmul (fdiv budgetWh ceiling) (of_Z Hour))) in
    if Sub (dSlotEnd d) onUntil <? CommandSettle then dSlotEnd d else onUntil
  else now.

(** The budget left in the slot, and the power that spends it. *)
Definition remainingBudget (d : Directive) (es : gmap string meteredEnergy) (id : string) (budgetWh : f64)
    (fallback : bool) (now : Time) : f64 :=
  let '(alreadyWh, unmeasuredS) :=
    if fallback then (of_Z 0, of_Z 0) else energySince es id (dSlotStart d) now in
  let durationS := Seconds (Sub (dSlotEnd d) (dSlotStart d)) in
  let alreadyWh :=
    if flt (of_Z 0) durationS then fadd alreadyWh (fdiv (fmul budgetWh unmeasuredS) durationS) else alreadyWh in
  fsub budgetWh alreadyWh.

(** [(setpoint, plan ready, fuse capped)] *)
Definition computeCommandForBudget (w : World) (now : Time) (cfg : LPConfig) (clampFuse : bool) (c : Ctl)
    : f64 * bool * bool :=
  let id := cfID cfg in
  match wdPlan w, currentDirective w c with
  | None, _ | _, None => (of_Z 0, false, false)
  | Some _, Some d =>
      match dEnergyWh d !! id with
      | None => (of_Z 0, false, false)
      | Some budgetWh =>
          let fallback := default false (dFallback d !! id) in
          let wired := match wdFuseEVMax w with Some _ => true | None => false end in
          let capKnown := match fuseCapFor w c id with Some cap => finite cap && negb (flt cap (of_Z 0)) | None => false end in
          let st := ctStates c !! id in
          let needed :=
            match st with
            | Some st =>
                let '(minW, maxW, steps) := controllerLimits w st in snd (DeadlineNeed st minW maxW steps)
            | None => false
            end in
          if fallback && negb wired then (of_Z 0, true, false)
          else if fallback && clampFuse && negb capKnown then (of_Z 0, true, false)
          else if fallback && negb needed then (of_Z 0, true, false)
          else
            let remainingS := Seconds (Sub (dSlotEnd d) now) in
            let remainingWh := remainingBudget d (ctEnergy c) id budgetWh fallback now in
            let wantW := EnergyBudgetToPowerW remainingWh remainingS in
            let onePhaseCar :=
              match st with
              | Some st => (lpCarPhases st =? 1) && (Phases (site w) =? 3) && String.eqb (fusePhase (chMode (choiceOf c id))) "3p"
              | None => false
              end in
            let wantW := if onePhaseCar then fmul wantW (of_Z 3) else wantW in
            let finish maxW wantW :=
              let capped :=
                match clampFuse && wired, fuseCapFor w c id with
                | true, Some cap => if fle (of_Z 0) cap && flt cap wantW then Some cap else None
                | _, _ => None
                end in
              match capped with
              | Some cap => (floorChargeW cap (cfMinChargeW cfg) maxW (cfSteps cfg), true, true)
              | None => (SnapChargeW wantW (cfMinChargeW cfg) maxW (cfSteps cfg), true, false)
              end in
            match dMaxPowerW d !! id with
            | None => finish (cfMaxChargeW cfg) wantW
            | Some ceiling =>
                let onUntil := dutyUntil d budgetWh ceiling fallback now in
                let running := match st with Some st => lpCommandedKnown st && flt (of_Z 0) (lpCommandedW st) | None => false end in
                let ceiling := if onePhaseCar then fmul ceiling (of_Z 3) else ceiling in
                let maxW := bmin (cfMaxChargeW cfg) ceiling in
                if fle maxW (of_Z 0) || fle remainingS (of_Z 0) ||
                   (fle remainingWh (lit 1 1000000) && (negb running || negb (Before now onUntil)))
                then (of_Z 0, true, false)
                else finish maxW maxW
            end
      end
  end.

(** ** The offer that lets a car finish (vehicle_completion.go)
    The goal's saved record is the store's; the manager's state is changed
    here. *)
Definition completeVehicleGoal (st : LPState) : LPState :=
  if lpFinishAtVehicleLimit st && lpPluggedIn st then withVerdict (lpChargingDeclined st) true (of_Z 0) st else st.
Definition RetryCharging (st : LPState) : LPState := withVerdict false (lpGoalComplete st) (lpTargetSoC st) st.
Definition resumeRecurringVehicleGoal (st : LPState) : LPState :=
  if lpFinishAtVehicleLimit st && lpRecurring st && lpPluggedIn st
  then withVerdict (lpChargingDeclined st) false (of_Z 1) st else st.

Definition charging (car : VehicleChargeState) : bool :=
  String.eqb (vsState car) "Charging" || String.eqb (vsState car) "Starting".

(** [Some offer] when the car is finishing; the loadpoint's state after it. *)
Definition completionOffer (cfg : LPConfig) (now : Time) (car : option VehicleChargeState) (st : LPState)
    : option f64 * LPState :=
  let judge soc target declined complete st' :=
    if complete || declined then (Some (of_Z 0), st')
    else if flt soc target && (IsZero (lpTargetTime st) || After (lpTargetTime st) now) then (None, st')
    else (Some (cfMaxChargeW cfg), st') in
  if negb (lpFinishAtVehicleLimit st) || negb (lpPluggedIn st) then (None, st)
  else if lpGoalComplete st && negb (lpRecurring st) then (Some (of_Z 0), st)
  else
    match car with
    | None => judge (lpCurrentSoC st) (PlanningTarget st (of_Z 0)) (lpChargingDeclined st) (lpGoalComplete st) st
    | Some car =>
        if String.eqb (vsState car) "Complete" then
          if flt (lpCurrentPowerW st) DeliveringW then (Some (of_Z 0), completeVehicleGoal st)
          else (Some (cfMaxChargeW cfg), st)
        else
          let retry := lpChargingDeclined st && charging car in
          let st' := if retry then RetryCharging st else st in
          let declined := lpChargingDeclined st && negb retry in
          let reopen := lpGoalComplete st &&
            (charging car || (flt (of_Z 0) (vsLimit car) && flt (vsSoC car) (vsLimit car))) in
          let st' := if reopen then RetryCharging (resumeRecurringVehicleGoal st') else st' in
          judge (vsSoC car) (PlanningTarget st (vsLimit car)) (declined && negb reopen) (lpGoalComplete st && negb reopen) st'
    end.

Definition vehicleCompletionOffer (w : World) (cfg : LPConfig) (now : Time) (c : Ctl) : option f64 * Ctl :=
  match ctStates c !! cfID cfg with
  | None => (None, c)
  | Some st =>
      let car := match wdCar w with Some rd => rd (cfID cfg) | None => None end in
      let '(offer, st) := completionOffer cfg now car st in
      (offer, withStates (<[cfID cfg := st]> (ctStates c)) c)
  end.
End Tick.
