(* ===== verification/ChargeResume.v ===== *)
(** * Resuming a car that draws nothing (go/internal/loadpoint/controller_resume.go)

    A charger whose last offer was zero, or whose car asks for power and takes
    none for two minutes, is sent a resume. One record per charger counts the
    acknowledged tries and the proof of delivery that ends it. What a sent
    command came back with is an argument. *)
From Stdlib Require Import ZArith Lia.
From S2P Require Import Prelude Float64 GoTime LoadpointData SessionEnergy ChargeTick.
From stdpp Require Import base gmap strings list.
#[local] Open Scope Z_scope.

Record resumeOffer : Type := mkResume {
  reDriver : string; reDevice : string; reSession : string; reGeneration : Z;
  reNextAttempt : Time; reRetryDelay : Duration; reAttempts : Z;
  reDeliverySince : Time; reDeliveryAt : Time; reZeroOffer : bool; reNoDrawSince : Time; reNoDrawAt : Time
}.
Definition resumeObservationGap : Duration := 15 * Second.

(** The sample after a command that may have taken its time, the moment to
    judge it at, and whether it is still the same charge. [tel] answers a
    driver's sample and whether it is live. *)
Definition currentChargeSample (hold : option ManualHold) (tel : option (string -> EVSample * bool)) (wall now : Time) (cfg : LPConfig)
    (previous : EVSample) : EVSample * Time * bool :=
  if match hold with Some h => feq (mlPowerW h) (of_Z 0) | None => false end then (noSample, now, false)
  else
    match tel with
    | None => (previous, now, true)
    | Some tel =>
        let '(sample, live) := tel (cfDriver cfg) in
        if negb live || negb (saConnected sample) || saConnectionUnknown sample || negb (String.eqb (saDeviceID sample) (saDeviceID previous)) ||
           negb (String.eqb (saSessionID sample) (saSessionID previous)) || negb (saGeneration sample =? saGeneration previous)
        then (sample, now, false)
        else (sample, if After (saPowerAt sample) now && negb (After (saPowerAt sample) wall) then wall else now, true)
    end.
Definition chargerIdleForWake (sample : EVSample) (now : Time) : bool :=
  negb (saPowerUnavailable sample) && finite (saPowerW sample) && flt (saPowerW sample) DeliveringW &&
  negb (After (saPowerAt sample) now) && (IsZero (saPowerAt sample) || (Sub now (saPowerAt sample) <=? PowerWindow sample)).

Definition newOffer (cfg : LPConfig) (sample : EVSample) (zero : bool) (noDrawSince : Time) : resumeOffer :=
  mkResume (cfDriver cfg) (saDeviceID sample) (saSessionID sample) (saGeneration sample) zeroTime 0 0 zeroTime zeroTime zero noDrawSince zeroTime.
Definition sameProof (cfg : LPConfig) (sample : EVSample) (o : resumeOffer) : bool :=
  String.eqb (reDriver o) (cfDriver cfg) && String.eqb (reDevice o) (saDeviceID sample) && String.eqb (reSession o) (saSessionID sample) &&
  (reGeneration o =? saGeneration sample).
Definition withDelivery (since at' : Time) (o : resumeOffer) : resumeOffer :=
  mkResume (reDriver o) (reDevice o) (reSession o) (reGeneration o) (reNextAttempt o) (reRetryDelay o) (reAttempts o) since at'
    (reZeroOffer o) (reNoDrawSince o) (reNoDrawAt o).
Definition withNoDraw (since at' : Time) (o : resumeOffer) : resumeOffer :=
  mkResume (reDriver o) (reDevice o) (reSession o) (reGeneration o) (reNextAttempt o) (reRetryDelay o) (reAttempts o)
    (reDeliverySince o) (reDeliveryAt o) (reZeroOffer o) since at'.
Definition withAttempt (next : Time) (delay : Duration) (attempts : Z) (o : resumeOffer) : resumeOffer :=
  mkResume (reDriver o) (reDevice o) (reSession o) (reGeneration o) next delay attempts
    (reDeliverySince o) (reDeliveryAt o) (reZeroOffer o) (reNoDrawSince o) (reNoDrawAt o).

(** A car that draws this much is charging. *)
Definition resumeFloor (cfg : LPConfig) (offerW : f64) : f64 :=
  let minimum := if fle (cfMinChargeW cfg) (of_Z 0) then offerW else cfMinChargeW cfg in
  fmax DeliveringW (fmul (lit 9 10) (fmin minimum offerW)).
Definition observedAt (sample : EVSample) (now : Time) : Time := if IsZero (saPowerAt sample) then now else saPowerAt sample.
Definition freshPower (sample : EVSample) (now : Time) : bool :=
  negb (saPowerUnavailable sample) && negb (After (observedAt sample now) now) &&
  (Sub now (observedAt sample now) <=? Z.min (PowerWindow sample) resumeObservationGap).

(** The car draws its offer: ten seconds of it end the recovery. *)
Definition delivering (at' : Time) (o : resumeOffer) : option resumeOffer :=
  let since := if IsZero (reDeliverySince o) || Before at' (reDeliveryAt o) || (resumeObservationGap <? Sub at' (reDeliveryAt o))
               then at' else reDeliverySince o in
  if 10 * Second <=? Sub at' since then None else Some (withDelivery since at' o).
(** No draw, and whether it has lasted. *)
Definition notDrawing (at' now : Time) (o : resumeOffer) : bool * resumeOffer :=
  if reZeroOffer o then (true, o)
  else
    let since := if IsZero (reNoDrawSince o) || Before at' (reNoDrawAt o) ||
                    (negb (IsZero (reNoDrawAt o)) && (resumeObservationGap <? Sub at' (reNoDrawAt o)))
                 then now else reNoDrawSince o in
    (2 * Minute <=? Sub at' since, withNoDraw since at' o).
(** The record after a try, and what was sent and came of it. *)
Definition tryResume (now : Time) (ok : bool) (o : resumeOffer) : resumeOffer * option bool :=
  if Before now (reNextAttempt o) then (o, None)
  else if 3 <=? reAttempts o then
    (if reAttempts o =? 3 then withAttempt (reNextAttempt o) (reRetryDelay o) (reAttempts o + 1) o else o, None)
  else if negb ok then
    let delay := Z.min Minute (Z.max (5 * Second) (2 * reRetryDelay o)) in
    (withAttempt (GoTime.Add now delay) delay (reAttempts o) o, Some false)
  else (withAttempt (GoTime.Add now (30 * Second)) 0 (reAttempts o + 1) o, Some true).

(** [recoverOfferedCharge] on the charger's record; [ok] is what a command sent
    now comes back with. *)
Definition recoverOfferedCharge (cfg : LPConfig) (sample : EVSample) (offerW : f64) (now : Time) (ok : bool) (entry : option resumeOffer)
    : option resumeOffer * option bool :=
  let entry := match entry with Some o => if sameProof cfg sample o then Some o else None | None => None end in
  if fle offerW (of_Z 0) then (Some (newOffer cfg sample true zeroTime), None)
  else
    let floor := resumeFloor cfg offerW in
    let entry :=
      match entry with
      | Some o => Some o
      | None =>
          if String.eqb (saDeviceID sample) "" || String.eqb (saSessionID sample) "" || negb (saRequestActive sample) ||
             fle floor (saPowerW sample) then None
          else Some (newOffer cfg sample false now)
      end in
    match entry with
    | None => (None, None)
    | Some o =>
        let at' := observedAt sample now in
        if negb (reZeroOffer o) && negb (saRequestActive sample) then (None, None)
        else if negb (freshPower sample now) || negb (finite (saPowerW sample)) then
          (Some (withNoDraw zeroTime zeroTime (withDelivery zeroTime zeroTime o)), None)
        else if fle floor (saPowerW sample) then (delivering at' o, None)
        else
          let '(lasts, o) := notDrawing at' now (withDelivery zeroTime zeroTime o) in
          if negb lasts then (Some o, None)
          else let '(o, sent) := tryResume now ok o in (Some o, sent)
    end.

(** ** A run of dispatches to one charger *)
Record ResumeCall : Type := mkCall { rcCfg : LPConfig; rcSample : EVSample; rcOfferW : f64; rcNow : Time; rcOk : bool }.
Definition resumeCall (k : ResumeCall) (m : option resumeOffer) : option resumeOffer * option bool :=
  recoverOfferedCharge (rcCfg k) (rcSample k) (rcOfferW k) (rcNow k) (rcOk k) m.
(** The record after the calls, and the commands that were sent. *)
Fixpoint resumeRun (ks : list ResumeCall) (m : option resumeOffer) : option resumeOffer * list (ResumeCall * bool) :=
  match ks with
  | [] => (m, [])
  | k :: ks =>
      let '(m, sent) := resumeCall k m in
      let '(m, sends) := resumeRun ks m in
      (m, match sent with Some ok => (k, ok) :: sends | None => sends end)
  end.
(** Every call offers power to the session the record is of, and the recovery
    goes on after each of them. *)
Fixpoint recovering (ks : list ResumeCall) (m : option resumeOffer) : bool :=
  match ks with
  | [] => true
  | k :: ks =>
      let m' := fst (resumeCall k m) in
      negb (fle (rcOfferW k) (of_Z 0)) && match m with Some o => sameProof (rcCfg k) (rcSample k) o | None => false end &&
      match m' with Some _ => true | None => false end && recovering ks m'
  end.

(** A fresh reading says the car draws less than it would when charging. *)
Definition idleCall (k : ResumeCall) : Prop :=
  freshPower (rcSample k) (rcNow k) = true /\ finite (saPowerW (rcSample k)) = true /\
  fle (resumeFloor (rcCfg k) (rcOfferW k)) (saPowerW (rcSample k)) = false.
Fixpoint spaced (l : list (ResumeCall * bool)) : Prop :=
  match l with
  | a :: (b :: _) as rest =>
      rcNow (fst a) + 5 * Second <= rcNow (fst b) /\ (snd a = true -> rcNow (fst a) + 30 * Second <= rcNow (fst b)) /\ spaced rest
  | _ => True
  end.

(** What one call does to the counts of a record that goes on. *)
Definition counted (k : ResumeCall) (o o' : resumeOffer) (sent : option bool) : Prop :=
  match sent with
  | None => reNextAttempt o' = reNextAttempt o /\ reAttempts o <= reAttempts o'
  | Some ok =>
      idleCall k /\ reNextAttempt o <= rcNow k /\ reAttempts o < 3 /\ rcNow k + 5 * Second <= reNextAttempt o' /\
      (ok = true -> rcNow k + 30 * Second <= reNextAttempt o') /\ reAttempts o' = reAttempts o + (if ok then 1 else 0)
  end.

Lemma try_counted k now ok o : rcNow k = now -> idleCall k ->
  let '(o', sent) := tryResume now ok o in counted k o o' sent.
Proof.
  intros <- I. unfold tryResume, GoTime.Add, Before, Minute, Second. destruct (rcNow k <? reNextAttempt o) eqn:B; [split; [reflexivity|lia]|].
  destruct (3 <=? reAttempts o) eqn:T.
  - destruct (reAttempts o =? 3); split; cbn [reNextAttempt reAttempts withAttempt]; lia.
  - destruct ok; cbn [negb counted reNextAttempt reAttempts withAttempt]; unfold Minute, Second; (split; [exact I|]); split_and!; lia.
Qed.

Lemma call_counted k o o' sent : fle (rcOfferW k) (of_Z 0) = false -> sameProof (rcCfg k) (rcSample k) o = true ->
  resumeCall k (Some o) = (Some o', sent) -> counted k o o' sent.
Proof.
  unfold resumeCall, recoverOfferedCharge. intros W P. rewrite P, W. cbv zeta.
  set (at' := observedAt (rcSample k) (rcNow k)). destruct (negb (reZeroOffer o) && _); [intros E; discriminate E|].
  destruct (freshPower (rcSample k) (rcNow k)) eqn:F; [|intros E; inversion E; subst; split; [reflexivity|apply Z.le_refl]].
  destruct (finite (saPowerW (rcSample k))) eqn:G; [|intros E; inversion E; subst; split; [reflexivity|apply Z.le_refl]]. cbn [negb orb].
  destruct (fle (resumeFloor _ _) _) eqn:L.
  - unfold delivering. cbv zeta. destruct (10 * Second <=? _); intros E; inversion E; subst. split; [reflexivity|apply Z.le_refl].
  - assert (I : idleCall k) by (split_and!; assumption). set (o1 := withDelivery zeroTime zeroTime o).
    assert (N : let '(lasts, o2) := notDrawing at' (rcNow k) o1 in reNextAttempt o2 = reNextAttempt o /\ reAttempts o2 = reAttempts o)
      by (unfold notDrawing; destruct (reZeroOffer o1); split; reflexivity).
    destruct (notDrawing at' (rcNow k) o1) as [lasts o2]. destruct N as [N1 N2].
    destruct lasts; cbn [negb]; [|intros E; inversion E; subst; split; [exact N1|lia]].
    pose proof (try_counted k (rcNow k) (rcOk k) o2 eq_refl I) as T. destruct (tryResume _ _ o2) as [o3 s]. intros E. inversion E; subst.
    unfold counted in *. rewrite N1, N2 in T. exact T.
Qed.

(** C26: A car that draws nothing is not sent resumes for ever. While a recovery
    goes on, with power offered to the same session, at most three resumes are
    acknowledged, counting those before; each is sent on a fresh reading of a
    car that draws less than its charging floor, at least five seconds after
    the last one and thirty after an acknowledged one. *)
Theorem resume_is_bounded ks o (Hrecovers : recovering ks (Some o) = true) (Hcount : reAttempts o <= 3) :
  let sends := snd (resumeRun ks (Some o)) in
  countZ snd sends + reAttempts o <= 3 /\ Forall (fun s => idleCall (fst s)) sends /\ spaced sends /\
  Forall (fun s => reNextAttempt o <= rcNow (fst s)) (take 1 sends).
Proof.
  cbv zeta. assert (G : countZ snd (snd (resumeRun ks (Some o))) <= Z.max 0 (3 - reAttempts o) /\
    Forall (fun s => idleCall (fst s)) (snd (resumeRun ks (Some o))) /\ spaced (snd (resumeRun ks (Some o))) /\
    Forall (fun s => reNextAttempt o <= rcNow (fst s)) (take 1 (snd (resumeRun ks (Some o))))).
  { clear Hcount. revert o Hrecovers. induction ks as [|k ks IH]; intros o R; [cbn; split_and!; auto; lia|].
    cbn [recovering resumeRun] in *. cbv zeta in R. apply andb_true_iff in R as [R1 R]. apply andb_true_iff in R1 as [R1 E].
    apply andb_true_iff in R1 as [W P]. apply negb_true_iff in W.
    pose proof (call_counted k o) as C. destruct (resumeCall k (Some o)) as [[o'|] sent]; cbn [fst] in *; [|discriminate E].
    specialize (C o' sent W P eq_refl). specialize (IH o' R). destruct (resumeRun ks (Some o')) as [m sends]. cbn [snd] in *.
    destruct IH as (A & B & S & H). destruct sent as [ok|].
    - destruct C as (I & C1 & C2 & C3 & C4 & C5). rewrite countZ_cons. cbn [snd fst]. split_and!.
      + destruct ok; lia.
      + now constructor.
      + cbn [spaced]. destruct sends as [|b rest]; [exact Logic.I|]. cbn [take] in H. inversion H; subst. cbn [fst snd].
        split; [lia|]. split; [intros O; specialize (C4 O); lia|exact S].
      + cbn [take]. constructor; [exact C1|constructor].
    - destruct C as [C1 C2]. rewrite C1 in H. split_and!; auto. lia. }
  destruct G as (A & B & S & H). split; [lia|]. auto.
Qed.

(** Six kilowatts offered, a car that stays at zero: a resume after ten seconds
    and one half a minute later. *)
Definition stuckSample (t : Time) : EVSample :=
  mkSample false 1 (of_Z 0) (of_Z 0) false false t (2 * Minute) zeroTime true true "dev" "s1".
Definition stuckCall (s : Z) : ResumeCall := mkCall (withMinCharge (of_Z 1380) noConfig) (stuckSample (s * Second)) (of_Z 6000) (s * Second) true.
Definition stuckOffer : resumeOffer := newOffer noConfig (stuckSample Second) true zeroTime.
Lemma resume_is_bounded_witness :
  let ks := map stuckCall [10; 20; 40]%Z in
  length (snd (resumeRun ks (Some stuckOffer))) = 2%nat /\ spaced (snd (resumeRun ks (Some stuckOffer))).
Proof.
  cbv zeta. split; [vm_compute; reflexivity|].
  refine (proj1 (proj2 (proj2 (resume_is_bounded (map stuckCall [10; 20; 40]) stuckOffer _ _)))).
  - vm_compute. reflexivity.
  - vm_compute. discriminate.
Defined.
