(* ===== verification/ChargeSession.v ===== *)
(** * A charging session (go/internal/loadpoint: loadpoint.go, car.go,
    connection_events.go, charging_period.go)

    What a loadpoint keeps of the session on it, how each reading moves it, the
    latch of a car that refuses energy, the one of a charge that broke off, and
    the estimate of the car's level between what anyone confirms. *)
From Stdlib Require Import ZArith Lia.
From S2P Require Import Prelude Float64 GoTime Units LoadpointData ChargeSteps SessionEnergy OnePhaseCar ChargeSchedule ChargeTick.
From stdpp Require Import base gmap strings list.
#[local] Open Scope Z_scope.

Definition SessionCompletionTimeout : Duration := 90 * Second.
Definition steadyChargeFloorW : f64 := of_Z 500.
Definition InterruptSteadyRun : Duration := 10 * Minute.
Definition interruptConfirm : Duration := SessionCompletionTimeout.
Definition DefaultPluginSoC : f64 := lit 20 100.
Definition minCompletionWh : f64 := of_Z 100.
Definition deliveredHistoryKeep : Duration := 2 * Hour.
Definition deliveredHistoryStep : Duration := 30 * Second.
Definition anchorBeforePlugSlack : Duration := 5 * Minute.

(** ** The runtime record, by concern *)
Record deliveredSample : Type := mkDelivered { dvAt : Time; dvWh : f64 }.
Record Reading : Type := mkReading {
  rdPlugged : bool; rdPluggedAt : Time; rdPowerW : f64; rdDeliveredWh : f64; rdHistory : list deliveredSample; rdObserved : bool
}.
Record Level : Type := mkLevel {
  lvAnchor : f64; lvSoC : f64; lvConfirmed : bool; lvConfirmedAt : Time; lvUnknown : bool; lvFromCar : bool;
  lvNotified : bool; lvRiskNotified : bool; lvCharged : bool;
  lvCapacityWh : f64; lvBaseWh : f64; lvMeasured : bool; lvConfigWh : f64; lvPluginSoC : f64
}.
Record Latches : Type := mkLatches {
  ltNotRequesting : Time; ltDeclined : bool; ltSteady : Time; ltStopped : Time; ltArmed : bool
}.
Record Goal : Type := mkGoal {
  glFinish : bool; glCompleted : bool; glTargetSoC : f64; glTargetTime : Time; glRolledFor : Time; glSchedule : Schedule;
  glChecked : bool; glExplicit : bool; glSaved : Time; glSavedCompleted : bool; glRetention : string
}.
Record Identity : Type := mkIdentity { iyDevice : string; iySession : string; iyGeneration : Z; iyConnection : Z }.
Record Meter : Type := mkMeter {
  mtEnergy : option sessionEnergy; mtPowerAt : Time; mtWindow : Duration; mtPowerUnavailable : bool; mtChargingSince : Time;
  mtSavedWh : f64; mtSavedAt : Time; mtCommitSeq : Z; mtRetention : string
}.
Record Runtime : Type := mkRuntime {
  rtDriver : string; rtReading : Reading; rtLevel : Level; rtLatches : Latches; rtGoal : Goal; rtIdentity : Identity;
  rtMeter : Meter; rtCar : carPhases; rtWithheld : bool; rtOrder : lpOrder
}.
Definition withReading (x : Reading) (r : Runtime) : Runtime :=
  mkRuntime (rtDriver r) x (rtLevel r) (rtLatches r) (rtGoal r) (rtIdentity r) (rtMeter r) (rtCar r) (rtWithheld r) (rtOrder r).
Definition withLevel (x : Level) (r : Runtime) : Runtime :=
  mkRuntime (rtDriver r) (rtReading r) x (rtLatches r) (rtGoal r) (rtIdentity r) (rtMeter r) (rtCar r) (rtWithheld r) (rtOrder r).
Definition withLatches (x : Latches) (r : Runtime) : Runtime :=
  mkRuntime (rtDriver r) (rtReading r) (rtLevel r) x (rtGoal r) (rtIdentity r) (rtMeter r) (rtCar r) (rtWithheld r) (rtOrder r).
Definition withGoal (x : Goal) (r : Runtime) : Runtime :=
  mkRuntime (rtDriver r) (rtReading r) (rtLevel r) (rtLatches r) x (rtIdentity r) (rtMeter r) (rtCar r) (rtWithheld r) (rtOrder r).
Definition withIdentity (x : Identity) (r : Runtime) : Runtime :=
  mkRuntime (rtDriver r) (rtReading r) (rtLevel r) (rtLatches r) (rtGoal r) x (rtMeter r) (rtCar r) (rtWithheld r) (rtOrder r).
Definition withMeter (x : Meter) (r : Runtime) : Runtime :=
  mkRuntime (rtDriver r) (rtReading r) (rtLevel r) (rtLatches r) (rtGoal r) (rtIdentity r) x (rtCar r) (rtWithheld r) (rtOrder r).
Definition withCar (x : carPhases) (r : Runtime) : Runtime :=
  mkRuntime (rtDriver r) (rtReading r) (rtLevel r) (rtLatches r) (rtGoal r) (rtIdentity r) (rtMeter r) x (rtWithheld r) (rtOrder r).
Definition withSettings (withheld : bool) (o : lpOrder) (r : Runtime) : Runtime :=
  mkRuntime (rtDriver r) (rtReading r) (rtLevel r) (rtLatches r) (rtGoal r) (rtIdentity r) (rtMeter r) (rtCar r) withheld o.

Definition withSoC (anchor soc : f64) (l : Level) : Level :=
  mkLevel anchor soc (lvConfirmed l) (lvConfirmedAt l) (lvUnknown l) (lvFromCar l) (lvNotified l) (lvRiskNotified l) (lvCharged l)
    (lvCapacityWh l) (lvBaseWh l) (lvMeasured l) (lvConfigWh l) (lvPluginSoC l).
Definition withConfirmed (confirmed : bool) (at' : Time) (unknown fromCar : bool) (l : Level) : Level :=
  mkLevel (lvAnchor l) (lvSoC l) confirmed at' unknown fromCar (lvNotified l) (lvRiskNotified l) (lvCharged l)
    (lvCapacityWh l) (lvBaseWh l) (lvMeasured l) (lvConfigWh l) (lvPluginSoC l).
Definition withNotified (notified charged : bool) (l : Level) : Level :=
  mkLevel (lvAnchor l) (lvSoC l) (lvConfirmed l) (lvConfirmedAt l) (lvUnknown l) (lvFromCar l) notified (lvRiskNotified l) charged
    (lvCapacityWh l) (lvBaseWh l) (lvMeasured l) (lvConfigWh l) (lvPluginSoC l).
Definition withRisk (b : bool) (l : Level) : Level :=
  mkLevel (lvAnchor l) (lvSoC l) (lvConfirmed l) (lvConfirmedAt l) (lvUnknown l) (lvFromCar l) (lvNotified l) b (lvCharged l)
    (lvCapacityWh l) (lvBaseWh l) (lvMeasured l) (lvConfigWh l) (lvPluginSoC l).
Definition withCapacity (cap base : f64) (measured : bool) (l : Level) : Level :=
  mkLevel (lvAnchor l) (lvSoC l) (lvConfirmed l) (lvConfirmedAt l) (lvUnknown l) (lvFromCar l) (lvNotified l) (lvRiskNotified l)
    (lvCharged l) cap base measured (lvConfigWh l) (lvPluginSoC l).
Definition withRefusal (since : Time) (declined : bool) (t : Latches) : Latches :=
  mkLatches since declined (ltSteady t) (ltStopped t) (ltArmed t).
Definition withSteady (steady stopped : Time) (armed : bool) (t : Latches) : Latches :=
  mkLatches (ltNotRequesting t) (ltDeclined t) steady stopped armed.
Definition withTarget (finish completed : bool) (soc : f64) (time rolled : Time) (g : Goal) : Goal :=
  mkGoal finish completed soc time rolled (glSchedule g) (glChecked g) (glExplicit g) (glSaved g) (glSavedCompleted g) (glRetention g).

(** ** The level *)
Definition deliveredSoC (wh capacityWh : f64) : f64 := fdiv (fmul wh DefaultChargeEfficiency) capacityWh.
Definition estimateSoC (pluginSoC deliveredWh capacityWh : f64) : f64 :=
  if fle capacityWh (of_Z 0) then ClampFraction pluginSoC
  else ClampFraction (fadd pluginSoC (deliveredSoC deliveredWh capacityWh)).
Definition sinceAnchor (wh capacityWh : f64) : f64 :=
  if flt (of_Z 0) capacityWh then deliveredSoC wh capacityWh else of_Z 0.

Definition reanchorSoCAt (soc deliveredWh : f64) (at' : Time) (sessionWh : f64) (l : Level) : Level :=
  let anchor := fsub (ClampFraction soc) (sinceAnchor deliveredWh (lvCapacityWh l)) in
  withSoC anchor (estimateSoC anchor sessionWh (lvCapacityWh l)) (withConfirmed true at' false (lvFromCar l) l).

(** What a car that measured its own capacity leaves behind. *)
Definition releaseCapacity (l : Level) : Level :=
  if lvMeasured l then withCapacity (lvBaseWh l) (of_Z 0) false l else l.

Fixpoint keepRecent (now : Time) (h : list deliveredSample) : list deliveredSample :=
  match h with
  | _ :: (b :: _) as rest => if deliveredHistoryKeep <=? Sub now (dvAt b) then keepRecent now rest else h
  | _ => h
  end.
Definition recordDelivered (now : Time) (wh : f64) (h : list deliveredSample) : list deliveredSample :=
  let grown h := keepRecent now (h ++ [mkDelivered now wh]) in
  match last h with
  | None => grown []
  | Some l =>
      if flt wh (dvWh l) || Before now (dvAt l) then grown []
      else if Sub now (dvAt l) <? deliveredHistoryStep then h else grown h
  end.

Fixpoint deliveredFrom (t : Time) (a : deliveredSample) (h : list deliveredSample) : option f64 :=
  match h with
  | [] => None
  | b :: rest =>
      if After t (dvAt b) then deliveredFrom t b rest
      else Some (fadd (dvWh a) (fmul (fdiv (of_Z (Sub t (dvAt a))) (of_Z (Sub (dvAt b) (dvAt a)))) (fsub (dvWh b) (dvWh a))))
  end.
(** [deliveredAt]: the energy, and whether it is known. *)
Definition deliveredAt (t : Time) (r : Reading) : f64 * bool :=
  match rdHistory r, last (rdHistory r) with
  | h0 :: rest, Some l =>
      if Before t (dvAt h0) then (dvWh h0, feq (dvWh h0) (of_Z 0))
      else if negb (Before t (dvAt l)) then (rdDeliveredWh r, true)
      else (default (rdDeliveredWh r) (deliveredFrom t h0 rest), true)
  | _, _ => (of_Z 0, false)
  end.

(** ** Events and the cable *)
Inductive Event : Type :=
| ChargingConnected
| ChargingInterrupted
| ChargingSessionComplete (kWh : f64).

Record connectionEdge : Type := mkEdge { cnKnown : bool; cnPlugged : bool; cnUnpluggedAt : Time }.
Definition noEdge : connectionEdge := mkEdge false false zeroTime.
(** [observeConnectionLocked]: the edge kept, and whether a car was connected. *)
Definition observeConnection (healthy plugged : bool) (now : Time) (edge : option connectionEdge) : option connectionEdge * bool :=
  let e := default noEdge edge in
  if negb healthy then (None, false)
  else
    let fire := cnKnown e && negb (cnPlugged e) && plugged && (2 * Second <=? Sub now (cnUnpluggedAt e)) in
    let unplugged := if negb plugged && (negb (cnKnown e) || cnPlugged e) then now else cnUnpluggedAt e in
    (Some (mkEdge true plugged unplugged), fire).

(** ** [Manager.observe] *)
(** The car reports through the charger: is the order of the box what stopped it? *)
Definition ordersNothing (floor : f64) (withheld : bool) (o : lpOrder) : bool := withheld || (coKnown o && flt (coW o) floor).

Definition observeRefusal (now : Time) (plugged : bool) (powerW : f64) (requestActive withheld : bool) (o : lpOrder) (targetSoC : f64)
    (t : Latches) : Latches :=
  if plugged && fle DeliveringW powerW then withRefusal zeroTime false t
  else if plugged && negb requestActive && ordersNothing DeliveringW withheld o then withRefusal zeroTime (ltDeclined t) t
  else if plugged && negb requestActive && (negb (coKnown o) || fle DeliveringW (coW o)) then
    let since := if IsZero (ltNotRequesting t) then now else ltNotRequesting t in
    let latch := negb (ltDeclined t) && flt (of_Z 0) targetSoC && negb (IsZero since) && (SessionCompletionTimeout <=? Sub now since) in
    withRefusal since (ltDeclined t || latch) t
  else if plugged && requestActive then withRefusal zeroTime (ltDeclined t) t
  else t.

(** The latches after a reading, and whether a charge broke off. *)
Definition observeSteady (now : Time) (plugged : bool) (powerW : f64) (requestActive withheld : bool) (o : lpOrder)
    (t : Latches) : Latches * bool :=
  if plugged && fle steadyChargeFloorW powerW then
    let since := if IsZero (ltSteady t) then now else ltSteady t in
    (withSteady since zeroTime (ltArmed t || (InterruptSteadyRun <=? Sub now since)) t, false)
  else if plugged then
    let stops := negb (IsZero (ltSteady t)) in
    let armed := ltArmed t || (stops && (InterruptSteadyRun <=? Sub now (ltSteady t))) in
    let stopped := if stops then now else ltStopped t in
    let fires := armed && negb (ltDeclined t) && requestActive && negb (ordersNothing steadyChargeFloorW withheld o) &&
                 negb (IsZero stopped) && (interruptConfirm <=? Sub now stopped) in
    (withSteady zeroTime stopped (armed && negb fires) t, fires)
  else (withSteady zeroTime zeroTime false t, false).

Definition pluginAnchor (l : Level) : f64 := if fle (lvPluginSoC l) (of_Z 0) then DefaultPluginSoC else lvPluginSoC l.

(** The transition to plugged in. *)
Definition plugIn (loc : Location) (now : Time) (r : Runtime) : Runtime :=
  let g := rtGoal r in
  let next := NextDeadlineUTC loc now (glSchedule g) in
  let g := if glFinish g && scRecurring (glSchedule g) && glCompleted g
           then withTarget (glFinish g) false (of_Z 1) next next g else g in
  let l := rtLevel r in
  let l := withRisk false (withNotified false false (withConfirmed false (lvConfirmedAt l) false false (withSoC (pluginAnchor l) (lvSoC l) l))) in
  let d := rtReading r in
  withCar noCarPhases (withLatches (withRefusal zeroTime false (rtLatches r))
    (withLevel l (withGoal g (withReading (mkReading (rdPlugged d) now (rdPowerW d) (rdDeliveredWh d) [] (rdObserved d)) r)))).
Definition plugOut (r : Runtime) : Runtime :=
  withCar noCarPhases (withLatches (withRefusal zeroTime false (rtLatches r)) (withLevel (releaseCapacity (rtLevel r)) r)).

Definition observeLevel (plugged : bool) (powerW deliveredWh targetSoC : f64) (l : Level) : Level * list Event :=
  if plugged then
    let l := withSoC (lvAnchor l) (estimateSoC (lvAnchor l) deliveredWh (lvCapacityWh l)) l in
    let l := withNotified (lvNotified l) (lvCharged l || fle DeliveringW powerW) l in
    if negb (lvNotified l) && negb (lvFromCar l) && lvConfirmed l && lvCharged l && flt (of_Z 0) targetSoC &&
       fle targetSoC (lvSoC l) && fle minCompletionWh deliveredWh
    then (withNotified true (lvCharged l) l, [ChargingSessionComplete (fdiv deliveredWh (of_Z 1000))])
    else (l, [])
  else (withSoC (lvAnchor l) (of_Z 0) l, []).

(** One reading of the charger. The connection edge is the manager's. *)
Definition observe (loc : Location) (now : Time) (plugged : bool) (powerW deliveredWh : f64) (requestActive : bool) (r : Runtime)
    : Runtime * list Event :=
  let r := if plugged && negb (rdPlugged (rtReading r)) then plugIn loc now r else r in
  let r := if plugged then r else plugOut r in
  let d := rtReading r in
  let history := if plugged then recordDelivered now deliveredWh (rdHistory d) else [] in
  let r := withReading (mkReading plugged (rdPluggedAt d) powerW deliveredWh history true) r in
  let target := glTargetSoC (rtGoal r) in
  let t := observeRefusal now plugged powerW requestActive (rtWithheld r) (rtOrder r) target (rtLatches r) in
  let '(t, broke) := observeSteady now plugged powerW requestActive (rtWithheld r) (rtOrder r) t in
  let '(l, done) := observeLevel plugged powerW deliveredWh target (rtLevel r) in
  (withLevel l (withLatches t r), (if broke then [ChargingInterrupted] else []) ++ done).

(** ** The other operations on a session *)
Definition SetSurplusWithheld (withheld : bool) (r : Runtime) : Runtime := withSettings withheld (rtOrder r) r.
Definition orderGiven (wall : Time) (w : f64) (reason : string) (updatedAt : Time) (phases : Z) (r : Runtime) : Runtime :=
  withSettings (rtWithheld r) (orderPhases phases (commandOrder wall w reason updatedAt (rtOrder r))) r.
Definition retryCharging (r : Runtime) : Runtime := withLatches (withRefusal zeroTime false (rtLatches r)) r.
Definition SetTarget (soc : f64) (targetTime : Time) (r : Runtime) : Runtime :=
  let r := if flt (glTargetSoC (rtGoal r)) (ClampFraction soc) then retryCharging r else r in
  withGoal (withTarget false false (ClampFraction soc) targetTime (glRolledFor (rtGoal r)) (rtGoal r)) r.
Definition SetSessionCapacityWh (capacityWh : f64) (r : Runtime) : Runtime :=
  if fle capacityWh (of_Z 0) then r
  else
    let l := rtLevel r in
    withLevel (withCapacity capacityWh (if lvMeasured l then lvBaseWh l else lvCapacityWh l) true l) r.
Definition SetCurrentSoC (now : Time) (soc : f64) (r : Runtime) : Runtime * bool :=
  let d := rtReading r in
  if negb (rdPlugged d) || negb (finite soc) then (r, false)
  else (withLevel (reanchorSoCAt soc (rdDeliveredWh d) now (rdDeliveredWh d) (rtLevel r)) (retryCharging r), true).

Definition AnchorVehicleSoCAt (now : Time) (soc : f64) (observedAt : Time) (r : Runtime) : Runtime * list Event * bool :=
  let d := rtReading r in
  if negb (rdPlugged d) || negb (finite soc) || flt soc (of_Z 0) || flt (of_Z 1) soc then (r, [], false)
  else
    let deliveredWh :=
      if negb (IsZero observedAt) && negb (Before observedAt (GoTime.Add (rdPluggedAt d) (- anchorBeforePlugSlack))) then
        let '(known, ok) := deliveredAt observedAt d in if ok then known else rdDeliveredWh d
      else rdDeliveredWh d in
    let l := reanchorSoCAt soc deliveredWh now (rdDeliveredWh d) (rtLevel r) in
    let l := withConfirmed (lvConfirmed l) (if IsZero observedAt then lvConfirmedAt l else observedAt) (lvUnknown l) true l in
    let target := glTargetSoC (rtGoal r) in
    if flt (of_Z 0) target && fle target (lvSoC l) && negb (lvNotified l)
    then (withLevel (withNotified true (lvCharged l) l) r, [ChargingSessionComplete (fdiv (rdDeliveredWh d) (of_Z 1000))], true)
    else (withLevel l r, [], true).

Definition vehicleSupersedes (observedAt : Time) (l : Level) : bool :=
  negb (IsZero observedAt) && (negb (lvConfirmed l) || IsZero (lvConfirmedAt l) || After observedAt (lvConfirmedAt l)).
Definition VehicleSoCSupersedes (observedAt : Time) (r : Runtime) : bool :=
  rdPlugged (rtReading r) && vehicleSupersedes observedAt (rtLevel r).

(** [setCapacityLocked]: the level shown stays. *)
Definition setCapacity (capacityWh : f64) (r : Runtime) : Runtime :=
  let l := withCapacity capacityWh (lvBaseWh (rtLevel r)) (lvMeasured (rtLevel r)) (rtLevel r) in
  let d := rtReading r in
  if negb (rdPlugged d) then withLevel l r
  else
    let anchor := fsub (lvSoC l) (sinceAnchor (rdDeliveredWh d) capacityWh) in
    withLevel (withSoC anchor (estimateSoC anchor (rdDeliveredWh d) capacityWh) l) r.
(** [SetCarBinding], of the capacity the car brings. *)
Definition SetCarBinding (carWh : f64) (r : Runtime) : Runtime :=
  let l := rtLevel r in
  let capacity := if fle carWh (of_Z 0) then lvConfigWh l else carWh in
  if lvMeasured l then withLevel (withCapacity (lvCapacityWh l) capacity true l) r
  else if fne (lvCapacityWh l) capacity then setCapacity capacity r else r.

Record LevelSeed : Type := mkSeed {
  sdKnown : bool; sdSoC : f64; sdSessionWh : f64; sdConfirmed : bool; sdConfirmedAt : Time; sdFromCar : bool
}.
Definition SeedSessionLevel (seed : LevelSeed) (r : Runtime) : Runtime * bool :=
  let d := rtReading r in
  let l := rtLevel r in
  if negb (rdPlugged d) || negb (finite (sdSoC seed)) || negb (finite (sdSessionWh seed)) then (r, false)
  else
    let '(anchor, l) :=
      if negb (sdKnown seed) then (of_Z 0, withConfirmed false zeroTime true false l)
      else (fsub (ClampFraction (sdSoC seed)) (sinceAnchor (sdSessionWh seed) (lvCapacityWh l)),
            withConfirmed (sdConfirmed seed) (if sdConfirmed seed then sdConfirmedAt seed else zeroTime) false (sdFromCar seed) l) in
    (withLevel (withSoC anchor (estimateSoC anchor (rdDeliveredWh d) (lvCapacityWh l)) l) r, true).

(** ** The charging period (charging_period.go) *)
Definition usedWindow (w : Duration) : Duration := if w <=? 0 then PowerWindow noSample else w.
Definition observeChargingPeriod (sample : EVSample) (now : Time) (plugged : bool) (m : Meter) : Time :=
  let at' := if IsZero (saPowerAt sample) then now else saPowerAt sample in
  if negb (saConnected sample) || saConnectionUnknown sample || saPowerUnavailable sample || negb (finite (saPowerW sample)) ||
     flt (saPowerW sample) steadyChargeFloorW || After at' (GoTime.Add now Second) || (PowerWindow sample <? Sub now at')
  then zeroTime
  else if IsZero (mtChargingSince m) || negb plugged || Before at' (mtPowerAt m) || (usedWindow (mtWindow m) <? Sub at' (mtPowerAt m))
  then now else mtChargingSince m.
Definition ChargingPeriod (now : Time) (r : Runtime) : option Duration :=
  let m := rtMeter r in
  if negb (rdPlugged (rtReading r)) || mtPowerUnavailable m || flt (rdPowerW (rtReading r)) steadyChargeFloorW ||
     IsZero (mtPowerAt m) || After (mtPowerAt m) (GoTime.Add now Second) || (usedWindow (mtWindow m) <? Sub now (mtPowerAt m)) ||
     IsZero (mtChargingSince m) || After (mtChargingSince m) now
  then None else Some (Sub now (mtChargingSince m)).

(** ** Saving a goal ([setScheduleAs]) *)
Definition withIntent (intent : string) (firstMS : Z) (s : Schedule) : Schedule :=
  mkSchedule (scSoC s) (scFinish s) (scRecurring s) (scUnlock s) intent firstMS (scMinUTC s) (scDays s) (scClock s).
Definition withReadyUTC (minUTC days : Z) (s : Schedule) : Schedule :=
  mkSchedule (scSoC s) (scFinish s) (scRecurring s) (scUnlock s) (scIntent s) (scFirstMS s) minUTC days (scClock s).
(** The schedule as it is kept; [intent] is the random text a goal gets. *)
Definition preparedSchedule (loc : Location) (now : Time) (intent : string) (s : Schedule) : Schedule :=
  let s := Normalize s in
  let s := if ChargeSchedule.Empty s then withoutClock s
           else let s := snd (readClock loc now s) in withReadyUTC (utcMinuteToday loc now (default 0 (scClock s))) (scDays s) s in
  let s := if scFinish s
           then withIntent intent (if negb (scRecurring s) then UnixMilli (NextDeadlineUTC loc now s) else 0) s
           else withIntent "" 0 s in
  withReadyUTC (scMinUTC s) (Z.land (scDays s) 127) s.
(** [next] answers the current schedule; [saver], whether the store took it.
    The answer says whether the goal is the new one. *)
Definition setScheduleAs (loc : Location) (now : Time) (intent : string) (next : Schedule -> option Schedule)
    (saver : option (Schedule -> bool)) (r : Runtime) : Runtime * bool :=
  let g := rtGoal r in
  match next (glSchedule g) with
  | None => (r, true)
  | Some s =>
      let s := preparedSchedule loc now intent s in
      if match saver with Some save => negb (save s) | None => false end then (r, false)
      else
        let r := if flt (scSoC (glSchedule g)) (scSoC s) then retryCharging r else r in
        (withGoal (mkGoal false false (of_Z 0) zeroTime zeroTime s (glChecked g) true zeroTime false (glRetention g)) r, true)
  end.

(** ** Deadlines (RollSchedules) *)
Definition rollSchedule (loc : Location) (now : Time) (r : Runtime) : Runtime :=
  let g := rtGoal r in
  let s := glSchedule g in
  if ChargeSchedule.Empty s then r
  else if glCompleted g && (negb (scRecurring s) || After (glTargetTime g) now) then r
  else
    let g := if glCompleted g then withTarget (glFinish g) false (glTargetSoC g) zeroTime (glRolledFor g) g else g in
    if glFinish g && rdPlugged (rtReading r) && negb (ltDeclined (rtLatches r)) && negb (IsZero (glTargetTime g)) then withGoal g r
    else
      let next := NextDeadlineUTC loc now s in
      let next := if scFinish s && negb (scRecurring s) && (0 <? scFirstMS s) then of_UnixMilli (scFirstMS s) else next in
      let seeded := withTarget (scFinish s) (glCompleted g) (if scFinish s then of_Z 1 else scSoC s) next next g in
      if scRecurring s
      then (if negb (IsZero (glTargetTime g)) && After (glTargetTime g) now then withGoal g r else withGoal seeded r)
      else if IsZero (glRolledFor g) then withGoal seeded r else withGoal g r.

(** ** Runs of readings
    Between two readings the orders, the pause and the goal may change, and a
    Start or a corrected level may let the car try again ([skRetry]). *)
Record Step : Type := mkStep {
  skRetry : bool; skWithheld : bool; skOrder : lpOrder; skGoal : Goal;
  skNow : Time; skPlugged : bool; skPowerW : f64; skDeliveredWh : f64; skRequest : bool
}.
Definition sessionStep (loc : Location) (r : Runtime) (k : Step) : Runtime * list Event :=
  let r := withGoal (skGoal k) (withSettings (skWithheld k) (skOrder k) r) in
  let r := if skRetry k then retryCharging r else r in
  observe loc (skNow k) (skPlugged k) (skPowerW k) (skDeliveredWh k) (skRequest k) r.
Definition sessionRun (loc : Location) (ks : list Step) (r : Runtime) : Runtime :=
  fold_left (fun r k => fst (sessionStep loc r k)) ks r.

(** The car refuses what it is offered. *)
Definition refuses (k : Step) : bool :=
  skPlugged k && negb (fle DeliveringW (skPowerW k)) && negb (skRequest k) &&
  negb (ordersNothing DeliveringW (skWithheld k) (skOrder k)).
(** The car takes less than it would charge with, and nobody asks it to try again. *)
Definition idles (k : Step) : bool := skPlugged k && negb (fle DeliveringW (skPowerW k)) && negb (skRetry k).
Definition charges (k : Step) : bool := skPlugged k && fle steadyChargeFloorW (skPowerW k).
Definition span (ks : list Step) : Duration :=
  match ks, last ks with k :: _, Some l => Sub (skNow l) (skNow k) | _, _ => 0 end.

(** ** Lemmas: the latches of one step *)
Definition latchStep (was : bool) (target : f64) (k : Step) (t : Latches) : Latches * bool :=
  let t := if skRetry k || negb (skPlugged k && was) then withRefusal zeroTime false t else t in
  observeSteady (skNow k) (skPlugged k) (skPowerW k) (skRequest k) (skWithheld k) (skOrder k)
    (observeRefusal (skNow k) (skPlugged k) (skPowerW k) (skRequest k) (skWithheld k) (skOrder k) target t).

Lemma refusal_reset t : withRefusal zeroTime false (withRefusal zeroTime false t) = withRefusal zeroTime false t.
Proof. reflexivity. Qed.

Lemma step_latches loc r k : exists target, let '(t, broke) := latchStep (rdPlugged (rtReading r)) target k (rtLatches r) in
  rtLatches (fst (sessionStep loc r k)) = t /\ rdPlugged (rtReading (fst (sessionStep loc r k))) = skPlugged k /\
  (ChargingInterrupted ∈ snd (sessionStep loc r k) <-> broke = true).
Proof.
  unfold sessionStep. cbv zeta. set (r0 := if skRetry k then _ else _).
  assert (R : rdPlugged (rtReading r0) = rdPlugged (rtReading r) /\ rtWithheld r0 = skWithheld k /\ rtOrder r0 = skOrder k /\
              rtLatches r0 = if skRetry k then withRefusal zeroTime false (rtLatches r) else rtLatches r).
  { unfold r0. destruct (skRetry k); split_and!; reflexivity. }
  destruct R as (R1 & R2 & R3 & R4). clearbody r0. unfold observe. cbv zeta. rewrite R1.
  set (r1 := if skPlugged k && _ then _ else _). set (r2 := if skPlugged k then r1 else plugOut r1).
  assert (Q : rtWithheld r2 = skWithheld k /\ rtOrder r2 = skOrder k /\
    rtLatches r2 = if skRetry k || negb (skPlugged k && rdPlugged (rtReading r)) then withRefusal zeroTime false (rtLatches r) else rtLatches r).
  { unfold r2, r1. destruct (skPlugged k), (rdPlugged (rtReading r)); cbn [andb negb]; rewrite <- R2, <- R3;
      unfold plugIn, plugOut; cbn [rtWithheld rtOrder rtLatches withCar withLatches withLevel withGoal withReading]; rewrite R4;
      destruct (skRetry k); split_and!; reflexivity. }
  destruct Q as (Q2 & Q3 & Q4). clearbody r2. set (r3 := withReading _ r2).
  exists (glTargetSoC (rtGoal r3)). unfold latchStep.
  change (rtLatches r3) with (rtLatches r2). change (rtWithheld r3) with (rtWithheld r2). change (rtOrder r3) with (rtOrder r2).
  rewrite Q2, Q3, Q4. destruct (observeSteady _ _ _ _ _ _ _) as [t broke]. destruct (observeLevel _ _ _ _ _) as [l done] eqn:L.
  cbn [fst snd]. split; [reflexivity|]. split; [reflexivity|].
  assert (D : ChargingInterrupted ∉ done).
  { unfold observeLevel in L. destruct (skPlugged k); [|injection L as _ <-; apply not_elem_of_nil]. cbv zeta in L.
    destruct (_ && _) in L; injection L as _ <-; [|apply not_elem_of_nil]. intros X. apply list_elem_of_singleton in X. discriminate X. }
  destruct broke; cbn [app].
  - split; [reflexivity|]. intros _. apply list_elem_of_here.
  - split; [intros X; contradiction|intros X; discriminate X].
Qed.

(** The refusal's clock and latch after a step. *)
Lemma refusal_step was target k t : let t' := fst (latchStep was target k t) in
  let t0 := if skRetry k || negb (skPlugged k && was) then withRefusal zeroTime false t else t in
  (ltNotRequesting t' = zeroTime \/ refuses k = true /\
     ltNotRequesting t' = if IsZero (ltNotRequesting t0) then skNow k else ltNotRequesting t0) /\
  (ltDeclined t' = true -> ltDeclined t0 = true /\ skPlugged k = true /\ fle DeliveringW (skPowerW k) = false \/
     refuses k = true /\ negb (IsZero (ltNotRequesting t')) = true /\ SessionCompletionTimeout <= Sub (skNow k) (ltNotRequesting t')).
Proof.
  cbv zeta. unfold latchStep. set (t0 := if skRetry k || _ then _ else t).
  assert (Out : skPlugged k = false -> ltNotRequesting t0 = zeroTime /\ ltDeclined t0 = false).
  { intros E. unfold t0. rewrite E. cbn [andb negb]. rewrite orb_true_r. split; reflexivity. }
  clearbody t0. set (t1 := observeRefusal _ _ _ _ _ _ _ t0).
  assert (K : ltNotRequesting (fst (observeSteady (skNow k) (skPlugged k) (skPowerW k) (skRequest k) (skWithheld k) (skOrder k) t1)) =
              ltNotRequesting t1 /\
              ltDeclined (fst (observeSteady (skNow k) (skPlugged k) (skPowerW k) (skRequest k) (skWithheld k) (skOrder k) t1)) =
              ltDeclined t1).
  { unfold observeSteady. destruct (skPlugged k && _); [split; reflexivity|]. destruct (skPlugged k); split; reflexivity. }
  destruct K as [-> ->]. unfold t1, observeRefusal, refuses.
  destruct (skPlugged k) eqn:P; cbn [andb]; [|destruct (Out eq_refl) as [-> ->]; split; [now left|intros X; discriminate X]].
  destruct (fle DeliveringW (skPowerW k)) eqn:F; cbn [negb andb]; [split; [now left|intros X; discriminate X]|].
  destruct (skRequest k); cbn [negb andb]; [split; [now left|]; cbn [ltDeclined withRefusal]; auto|].
  destruct (ordersNothing _ _ _) eqn:N; cbn [negb andb]; [split; [now left|]; cbn [ltDeclined withRefusal]; auto|].
  destruct (negb (coKnown (skOrder k)) || _) eqn:G.
  - cbv zeta. cbn [ltNotRequesting ltDeclined withRefusal]. split; [right; split; reflexivity|]. intros X.
    apply orb_true_iff in X as [X|X]; [left; auto|right]. split; [reflexivity|].
    apply andb_true_iff in X as [X1 X2]. apply andb_true_iff in X1 as [_ X1]. apply Z.leb_le in X2. now split.
  - split; [|auto]. destruct (IsZero (ltNotRequesting t0)) eqn:Z0; [left; now apply Z.eqb_eq in Z0|right; split; reflexivity].
Qed.

(** ** Lemmas: a refusal is seen for ninety seconds *)
Lemma app_eq_app_snoc {A} (l : list A) x a b : l ++ [x] = a ++ b -> (exists b', b = b' ++ [x]) \/ b = [].
Proof.
  intros E. destruct b as [|y b _] using rev_ind; [now right|left]. rewrite app_assoc in E.
  apply app_inj_tail in E as [_ ->]. eauto.
Qed.
Lemma run_snoc loc ks k r : sessionRun loc (ks ++ [k]) r = fst (sessionStep loc (sessionRun loc ks r) k).
Proof. unfold sessionRun. now rewrite fold_left_app. Qed.

(** The last steps of a run: refusing since [since]. *)
Definition refusingSince (since : Time) (ks : list Step) : Prop :=
  exists (a : list Step) (f : Step) (b : list Step), ks = a ++ f :: b /\ skNow f = since /\ Forall (fun k => refuses k = true) (f :: b) /\
    Forall (fun k => skRetry k = false) b.
Definition refusalSeen (ks : list Step) : Prop :=
  exists (a : list Step) (f : Step) (b c : list Step), ks = a ++ (f :: b) ++ c /\ Forall (fun k => refuses k = true) (f :: b) /\ Forall (fun k => skRetry k = false) b /\
    SessionCompletionTimeout <= span (f :: b) /\ Forall (fun k => idles k = true) c.

Lemma span_snoc f b k : span (f :: b ++ [k]) = Sub (skNow k) (skNow f).
Proof. unfold span. change (f :: b ++ [k]) with ((f :: b) ++ [k]). now rewrite last_snoc. Qed.

Lemma refusal_kept loc ks r :
  ltDeclined (rtLatches r) = false -> ltNotRequesting (rtLatches r) = zeroTime ->
  let t := rtLatches (sessionRun loc ks r) in
  (ltNotRequesting t = zeroTime \/ refusingSince (ltNotRequesting t) ks) /\ (ltDeclined t = true -> refusalSeen ks).
Proof.
  intros D N. cbv zeta. induction ks as [|k ks IH] using rev_ind.
  { cbn [sessionRun fold_left]. rewrite N, D. split; [now left|intros X; discriminate X]. }
  rewrite run_snoc. set (r1 := sessionRun loc ks r) in *. destruct (step_latches loc r1 k) as [target S].
  pose proof (refusal_step (rdPlugged (rtReading r1)) target k (rtLatches r1)) as [A B]. cbv zeta in A, B.
  destruct (latchStep _ target k _) as [t broke]. destruct S as (-> & _ & _). cbn [fst] in A, B. clearbody r1. destruct IH as [I1 I2].
  set (t0 := if skRetry k || _ then _ else rtLatches r1) in *.
  assert (T0 : ltNotRequesting t0 = zeroTime /\ ltDeclined t0 = false \/ t0 = rtLatches r1 /\ skRetry k = false).
  { unfold t0. destruct (skRetry k); cbn [orb]; [now left|]. destruct (negb _); [now left|now right]. }
  assert (Now : ltNotRequesting t <> zeroTime -> refusingSince (ltNotRequesting t) (ks ++ [k])).
  { intros Nz. destruct A as [A|[Rk A]]; [contradiction|]. destruct (IsZero (ltNotRequesting t0)) eqn:Z0; rewrite ?Z0 in A.
    - exists ks, k, []. split_and!; [reflexivity|symmetry; exact A|constructor; [exact Rk|constructor]|constructor].
    - destruct T0 as [[X _]|[-> Rt]]; [rewrite X in Z0; discriminate Z0|].
      destruct I1 as [I1|(a & f & b & -> & F & G & H)]; [rewrite I1 in Z0; discriminate Z0|].
      exists a, f, (b ++ [k]). split_and!; [now rewrite <- app_assoc|congruence|change (f :: b ++ [k]) with ((f :: b) ++ [k])|].
      + apply Forall_app_2; [exact G|constructor; [exact Rk|constructor]].
      + apply Forall_app_2; [exact H|constructor; [exact Rt|constructor]]. }
  split; [destruct (Z.eq_dec (ltNotRequesting t) zeroTime); auto|]. intros X. destruct (B X) as [(B1 & B2 & B3)|(B1 & B2 & B3)].
  - destruct T0 as [[_ Y]|[E Rt]]; [congruence|]. rewrite E in B1. destruct (I2 B1) as (a & f & b & c & -> & F & G & H & J).
    exists a, f, b, (c ++ [k]). split_and!; [now rewrite <- !app_assoc|exact F|exact G|exact H|].
    apply Forall_app_2; [exact J|]. constructor; [|constructor]. unfold idles. now rewrite B2, B3, Rt.
  - apply negb_true_iff, Z.eqb_neq in B2. destruct (Now B2) as (a & f & b & E & F & G & H). exists a, f, b, [].
    split_and!; [now rewrite app_nil_r|exact G|exact H| |constructor].
    assert (L : exists b', f :: b = b' ++ [k]).
    { destruct (app_eq_app_snoc ks k a (f :: b)) as [(b' & Eb)|Nil]; [now rewrite E|eauto|discriminate Nil]. }
    destruct L as [[|x b'] Eb]; [injection Eb as -> ->|injection Eb as -> ->].
    + rewrite <- F in B3. exact B3.
    + rewrite span_snoc, F. exact B3.
Qed.

(** ** Lemmas: a charge that broke off had run for ten minutes *)
Definition stays (k : Step) : bool := skPlugged k && negb (charges k).
(** The last steps of a run all [p], since [since]. *)
Definition sinceAll (p : Step -> bool) (since : Time) (ks : list Step) : Prop :=
  exists (a : list Step) (f : Step) (b : list Step),
    ks = a ++ f :: b /\ skNow f = since /\ Forall (fun k => p k = true) (f :: b).
(** A steady charge of ten minutes, with the cable in ever since ([c]). *)
Definition ranSteadily (ks a : list Step) (f : Step) (s c : list Step) : Prop :=
  ks = a ++ (f :: s) ++ c /\ Forall (fun k => charges k = true) (f :: s) /\ Forall (fun k => skPlugged k = true) c /\
  (InterruptSteadyRun <= span (f :: s) \/ InterruptSteadyRun <= span (f :: s ++ take 1 c)).

Lemma since_snoc p since ks k : sinceAll p since ks -> p k = true -> sinceAll p since (ks ++ [k]).
Proof.
  intros (a & f & b & -> & F & G) K. exists a, f, (b ++ [k]). split_and!; [now rewrite <- app_assoc|exact F|].
  change (f :: b ++ [k]) with ((f :: b) ++ [k]). apply Forall_app_2; [exact G|constructor; [exact K|constructor]].
Qed.
Lemma since_here (p : Step -> bool) ks k : p k = true -> sinceAll p (skNow k) (ks ++ [k]).
Proof. intros K. exists ks, k, []. split_and!; [reflexivity|reflexivity|constructor; [exact K|constructor]]. Qed.

Lemma steady_snoc ks a f s c k : ranSteadily ks a f s c -> skPlugged k = true -> ranSteadily (ks ++ [k]) a f s (c ++ [k]).
Proof.
  intros (-> & F & G & H) K. split_and!; [now rewrite <- !app_assoc|exact F|apply Forall_app_2; [exact G|constructor; [exact K|constructor]]|].
  destruct H as [H|H]; [now left|]. destruct c as [|x c]; [left; now rewrite app_nil_r in H|right; exact H].
Qed.

(** The steady run's clock is the first of the readings it has charged through. *)
Definition steadyOk (ks : list Step) (t : Latches) : Prop := ltSteady t = zeroTime \/ sinceAll charges (ltSteady t) ks.
Definition armedOk (ks : list Step) (t : Latches) : Prop :=
  ltArmed t = true -> exists a f s c, ranSteadily ks a f s c /\
    (ltStopped t = zeroTime \/ ltSteady t = zeroTime /\ exists m, c = m.1 ++ m.2 /\ sinceAll stays (ltStopped t) m.2).

Lemma since_span p since ks k : sinceAll p since (ks ++ [k]) -> exists a f b, ks ++ [k] = a ++ f :: b /\
  Forall (fun k => p k = true) (f :: b) /\ span (f :: b) = Sub (skNow k) since.
Proof.
  intros (a & f & b & E & <- & F). exists a, f, b. split_and!; [exact E|exact F|].
  destruct (app_eq_app_snoc _ _ _ _ E) as [(b' & Eb)|Nil]; [|discriminate Nil].
  unfold span. rewrite Eb, last_snoc. reflexivity.
Qed.

Lemma refusal_keeps_steady now plugged p q w o target t : let t' := observeRefusal now plugged p q w o target t in
  ltSteady t' = ltSteady t /\ ltStopped t' = ltStopped t /\ ltArmed t' = ltArmed t.
Proof. unfold observeRefusal. cbv zeta. repeat (case_scrut; [split_and!; reflexivity|]). split_and!; reflexivity. Qed.

(** A stop, timed when it begins, after a run credited on its way down. *)
Lemma stop_step ks k t : steadyOk ks t -> armedOk ks t -> stays k = true ->
  let stops := negb (IsZero (ltSteady t)) in
  let stopped := if stops then skNow k else ltStopped t in
  ltArmed t || (stops && (InterruptSteadyRun <=? Sub (skNow k) (ltSteady t))) = true ->
  exists a f s m b, ranSteadily (ks ++ [k]) a f s (m ++ b) /\ (stopped = zeroTime \/ sinceAll stays stopped b).
Proof.
  intros S A K. cbv zeta. assert (Pl : skPlugged k = true) by exact (proj1 (andb_prop _ _ K)).
  destruct (IsZero (ltSteady t)) eqn:Z0; cbn [negb andb].
  - rewrite orb_false_r. intros Ar. destruct (A Ar) as (a & f & s & c & R & [St|(_ & m & -> & St)]); apply (steady_snoc _ _ _ _ _ k) in R; auto.
    + exists a, f, s, (c ++ [k]), []. rewrite app_nil_r. split; [exact R|now left].
    + exists a, f, s, m.1, (m.2 ++ [k]). rewrite app_assoc. split; [exact R|right; now apply since_snoc].
  - intros Ar. destruct (ltArmed t) eqn:Ea; cbn [orb] in Ar.
    + destruct (A Ea) as (a & f & s & c & R & _). apply (steady_snoc _ _ _ _ _ k) in R; auto.
      exists a, f, s, c, [k]. split; [exact R|right; exact (since_here stays [] k K)].
    + apply Z.leb_le in Ar. destruct S as [S|(a & f & b & -> & F & G)]; [rewrite S in Z0; discriminate Z0|].
      exists a, f, b, [], [k]. split; [|right; exact (since_here stays [] k K)].
      split_and!; [now rewrite <- app_assoc|exact G|constructor; [exact Pl|constructor]|right].
      cbn [app take]. now rewrite span_snoc, F.
Qed.

Lemma steady_step ks was target k t : steadyOk ks t -> armedOk ks t ->
  let '(t', broke) := latchStep was target k t in
  steadyOk (ks ++ [k]) t' /\ armedOk (ks ++ [k]) t' /\
  (broke = true -> ltArmed t' = false /\ ltSteady t' = zeroTime /\ ltDeclined t' = false /\ skRequest k = true /\
     ordersNothing steadyChargeFloorW (skWithheld k) (skOrder k) = false /\
     exists a f s m b, ranSteadily (ks ++ [k]) a f s (m ++ b) /\ sinceAll stays (ltStopped t') b /\
       interruptConfirm <= Sub (skNow k) (ltStopped t')).
Proof.
  intros S A. unfold latchStep. set (t0 := if skRetry k || _ then _ else t).
  assert (T0 : ltSteady t0 = ltSteady t /\ ltStopped t0 = ltStopped t /\ ltArmed t0 = ltArmed t)
    by (unfold t0; destruct (_ || _); split_and!; reflexivity).
  pose proof (refusal_keeps_steady (skNow k) (skPlugged k) (skPowerW k) (skRequest k) (skWithheld k) (skOrder k) target t0) as R.
  cbv zeta in R. set (t1 := observeRefusal _ _ _ _ _ _ _ t0) in *.
  assert (S1 : steadyOk ks t1) by (unfold steadyOk; destruct R as (-> & _), T0 as (-> & _); exact S).
  assert (A1 : armedOk ks t1) by (unfold armedOk; destruct R as (-> & -> & ->), T0 as (-> & -> & ->); exact A).
  clearbody t1. clear S A R T0 t0 t. rename t1 into t. unfold observeSteady. cbv zeta.
  destruct (skPlugged k && fle steadyChargeFloorW (skPowerW k)) eqn:C; [|destruct (skPlugged k) eqn:P].
  - fold (charges k) in C. set (since := if IsZero (ltSteady t) then _ else _).
    assert (Sx : sinceAll charges since (ks ++ [k])).
    { unfold since. destruct (IsZero (ltSteady t)) eqn:Z0; [now apply since_here|].
      destruct S1 as [S1|S1]; [rewrite S1 in Z0; discriminate Z0|now apply since_snoc]. }
    split; [now right|]. split; [|intros X; discriminate X]. intros Ar. cbn [ltArmed withSteady] in Ar.
    apply orb_true_iff in Ar as [Ar|Ar].
    + destruct (A1 Ar) as (a & f & s & c & R & _). exists a, f, s, (c ++ [k]). split; [|now left]. apply steady_snoc; [exact R|].
      exact (proj1 (andb_prop _ _ C)).
    + apply Z.leb_le in Ar. destruct (since_span _ _ _ _ Sx) as (a & f & b & E & F & G). exists a, f, b, []. split; [|now left].
      split_and!; [now rewrite app_nil_r|exact F|constructor|left; now rewrite G].
  - assert (K : stays k = true) by (unfold stays, charges; rewrite P; exact (f_equal negb C)).
    pose proof (stop_step ks k t S1 A1 K) as D. cbv zeta in D. set (armed := ltArmed t || _) in *.
    set (stopped := if negb _ then _ else _) in *. split; [now left|]. split.
    + intros Ar. cbn [ltArmed withSteady] in Ar. apply andb_true_iff in Ar as [Ar _].
      destruct (D Ar) as (a & f & s & m & b & R & [St|St]); exists a, f, s, (m ++ b); (split; [exact R|]); [now left|right].
      split; [reflexivity|]. exists (m, b). split; [reflexivity|exact St].
    + intros Br. rewrite Br. repeat (apply andb_true_iff in Br as [Br ?]). cbn [ltArmed ltSteady ltDeclined ltStopped withSteady].
      rewrite andb_false_r. bool_hyps. split_and!; try reflexivity; try assumption.
      destruct (D Br) as (a & f & s & m & b & R & [St|St]); [rewrite St in *; discriminate|].
      exists a, f, s, m, b. split_and!; [exact R|exact St|now apply Z.leb_le].
  - split; [now left|]. split; [intros X; discriminate X|intros X; discriminate X].
Qed.

Lemma steady_run loc ks r : ltArmed (rtLatches r) = false -> ltSteady (rtLatches r) = zeroTime ->
  steadyOk ks (rtLatches (sessionRun loc ks r)) /\ armedOk ks (rtLatches (sessionRun loc ks r)).
Proof.
  intros A S. induction ks as [|k ks [I1 I2]] using rev_ind.
  { split; [now left|]. intros X. cbn [sessionRun fold_left] in X. congruence. }
  rewrite run_snoc. destruct (step_latches loc (sessionRun loc ks r) k) as [target E].
  pose proof (steady_step ks (rdPlugged (rtReading (sessionRun loc ks r))) target k _ I1 I2) as N.
  destruct (latchStep _ target k _) as [t broke]. destruct E as (-> & _). destruct N as (N1 & N2 & _). now split.
Qed.

(** ** A refusal *)
(** C22: A car is taken to decline charging only after readings in a row, ninety
    seconds apart, in which it stood plugged in below 100 W, asked for nothing
    and was offered 100 W or more by an order the box neither withheld nor set
    to nothing, with no Start or corrected level in between; and the verdict
    lasts only while the car stays in, takes less than 100 W and nobody asks it
    to try again. *)
Theorem refusal_is_sustained loc ks r
    (Hfresh : ltDeclined (rtLatches r) = false) (Hclock : ltNotRequesting (rtLatches r) = zeroTime)
    (Hdeclined : ltDeclined (rtLatches (sessionRun loc ks r)) = true) :
  exists (a : list Step) (f : Step) (b c : list Step), ks = a ++ (f :: b) ++ c /\
    Forall (fun k => refuses k = true) (f :: b) /\ Forall (fun k => skRetry k = false) b /\
    SessionCompletionTimeout <= span (f :: b) /\ Forall (fun k => idles k = true) c.
Proof. exact (proj2 (refusal_kept loc ks r Hfresh Hclock) Hdeclined). Qed.

(** ** A broken charge *)
(** C21: A charge is reported as broken off only when it had run above 500 W for
    ten minutes, the cable stayed in ever since, and then ninety seconds of
    readings below 500 W followed, the last of them of a car that still asks for
    current and is offered it; and the report disarms itself, so the next one
    needs ten minutes of its own. *)
Theorem interruption_is_earned loc ks k r
    (Harmed : ltArmed (rtLatches r) = false) (Hsteady : ltSteady (rtLatches r) = zeroTime)
    (Hfire : ChargingInterrupted ∈ snd (sessionStep loc (sessionRun loc ks r) k)) :
  let t := rtLatches (fst (sessionStep loc (sessionRun loc ks r) k)) in
  (exists a f s m g b, ks ++ [k] = a ++ (f :: s) ++ m ++ g :: b /\
     Forall (fun k => charges k = true) (f :: s) /\
     (InterruptSteadyRun <= span (f :: s) \/ InterruptSteadyRun <= span (f :: s ++ take 1 (m ++ g :: b))) /\
     Forall (fun k => skPlugged k = true) m /\ Forall (fun k => stays k = true) (g :: b) /\
     interruptConfirm <= Sub (skNow k) (skNow g)) /\
  skRequest k = true /\ ordersNothing steadyChargeFloorW (skWithheld k) (skOrder k) = false /\
  ltDeclined t = false /\ ltArmed t = false /\ ltSteady t = zeroTime.
Proof.
  destruct (steady_run loc ks r Harmed Hsteady) as [S A]. cbv zeta.
  destruct (step_latches loc (sessionRun loc ks r) k) as [target E].
  pose proof (steady_step ks (rdPlugged (rtReading (sessionRun loc ks r))) target k _ S A) as N.
  destruct (latchStep _ target k _) as [t broke]. destruct E as (-> & _ & E). destruct N as (_ & _ & N).
  destruct (N (proj1 E Hfire)) as (N1 & N2 & N3 & N4 & N5 & a & f & s & m & b & R & St & C). split; [|split_and!; assumption].
  destruct St as (b1 & g & b2 & -> & G & F). destruct R as (R1 & R2 & R3 & R4). exists a, f, s, (m ++ b1), g, b2.
  rewrite <- !app_assoc in *. split_and!; [exact R1|exact R2|exact R4| |exact F|now rewrite G].
  rewrite app_assoc in R3. now apply Forall_app in R3.
Qed.

(** ** Two sessions *)
Definition demoLevel : Level :=
  mkLevel (of_Z 0) (of_Z 0) false zeroTime false false false false false (of_Z 0) (of_Z 0) false (of_Z 0) (of_Z 0).
Definition demoGoal : Goal := mkGoal false false (of_Z 1) zeroTime zeroTime noSchedule false false zeroTime false "".
Definition demoSession : Runtime :=
  mkRuntime "charger" (mkReading true zeroTime (of_Z 0) (of_Z 0) [] true) demoLevel (mkLatches zeroTime false zeroTime zeroTime false)
    demoGoal (mkIdentity "dev" "s1" 1 0) (mkMeter None zeroTime 0 false zeroTime (of_Z 0) zeroTime 0 "") noCarPhases false noOrder.
Definition demoOffer : lpOrder := mkOrder true (of_Z 1380) 1 "plan" zeroTime zeroTime.
Definition demoReading (after : Duration) (powerW : Z) (request : bool) : Step :=
  mkStep false false demoOffer demoGoal (1000 * Hour + after) true (of_Z powerW) (of_Z 0) request.

Lemma refusal_is_sustained_witness :
  exists (a : list Step) (f : Step) (b c : list Step),
    [demoReading 0 0 false; demoReading (90 * Second) 0 false] = a ++ (f :: b) ++ c /\
    Forall (fun k => refuses k = true) (f :: b) /\ Forall (fun k => skRetry k = false) b /\
    SessionCompletionTimeout <= span (f :: b) /\ Forall (fun k => idles k = true) c.
Proof.
  apply (refusal_is_sustained (household Hour) [demoReading 0 0 false; demoReading (90 * Second) 0 false] demoSession).
  - reflexivity.
  - reflexivity.
  - vm_compute. reflexivity.
Defined.
(** At 89 seconds it is not yet taken to decline. *)
Example refusal_not_yet :
  ltDeclined (rtLatches (sessionRun (household Hour) [demoReading 0 0 false; demoReading (89 * Second) 0 false] demoSession)) = false.
Proof. vm_compute. reflexivity. Qed.

Definition demoRun : list Step := [demoReading 0 1380 true; demoReading (10 * Minute) 1380 true; demoReading (11 * Minute) 0 true].
Lemma interruption_is_earned_witness :
  let k := demoReading (13 * Minute) 0 true in
  let t := rtLatches (fst (sessionStep (household Hour) (sessionRun (household Hour) demoRun demoSession) k)) in
  (exists a f s m g b, demoRun ++ [k] = a ++ (f :: s) ++ m ++ g :: b /\
     Forall (fun k => charges k = true) (f :: s) /\
     (InterruptSteadyRun <= span (f :: s) \/ InterruptSteadyRun <= span (f :: s ++ take 1 (m ++ g :: b))) /\
     Forall (fun k => skPlugged k = true) m /\ Forall (fun k => stays k = true) (g :: b) /\
     interruptConfirm <= Sub (skNow k) (skNow g)) /\
  skRequest k = true /\ ordersNothing steadyChargeFloorW (skWithheld k) (skOrder k) = false /\
  ltDeclined t = false /\ ltArmed t = false /\ ltSteady t = zeroTime.
Proof.
  apply (interruption_is_earned (household Hour) demoRun (demoReading (13 * Minute) 0 true) demoSession).
  - reflexivity.
  - reflexivity.
  - assert (E : snd (sessionStep (household Hour) (sessionRun (household Hour) demoRun demoSession) (demoReading (13 * Minute) 0 true)) =
      [ChargingInterrupted]) by (vm_compute; reflexivity).
    rewrite E. apply list_elem_of_here.
Defined.
