(* ===== verification/SessionStore.v ===== *)
(** * Sessions across readings, restarts and cars (go/internal/loadpoint:
    session_state.go, vehicle_goal_state.go)

    A reading with the charger's own identity: when it is another session, what
    of the last one is dropped, what the store brings back, and what is saved.
    The store holds the records it was given, by device; the empty record a
    tombstone writes is one that is gone. Every write succeeds. *)
From Stdlib Require Import ZArith Lia Ascii.
From S2P Require Import Prelude Float64 GoTime Units LoadpointData ChargeSteps SessionEnergy OnePhaseCar ChargeSchedule ChargeTick ChargeSession.
From stdpp Require Import base gmap strings list.
#[local] Open Scope Z_scope.

Record savedSession : Type := mkSavedSession {
  snVersion : Z; snDevice : string; snSession : string; snAnchor : f64; snConfirmedAtWh : f64; snCapacityWh : f64;
  snEstimatedWh : option f64; snEstimatedAt : Time; snNotified : bool
}.
Record savedFinishGoal : Type := mkSavedGoal {
  sgDevice : string; sgSession : string; sgDeadline : Time; sgSchedule : Schedule; sgCompleted : bool
}.
Record SessionStore : Type := mkStore { ssSessions : gmap string savedSession; ssGoals : gmap string savedFinishGoal }.
Record Manager : Type := mkManager {
  mgNext : Z; mgStore : option SessionStore; mgPoints : gmap string Runtime;
  mgEdges : gmap string connectionEdge; mgHealth : gmap string bool
}.
Definition withPoints (p : gmap string Runtime) (m : Manager) : Manager :=
  mkManager (mgNext m) (mgStore m) p (mgEdges m) (mgHealth m).
Definition withStoreOf (s : option SessionStore) (m : Manager) : Manager :=
  mkManager (mgNext m) s (mgPoints m) (mgEdges m) (mgHealth m).
Definition withNext (n : Z) (m : Manager) : Manager := mkManager n (mgStore m) (mgPoints m) (mgEdges m) (mgHealth m).
Definition withEdges (e : gmap string connectionEdge) (m : Manager) : Manager :=
  mkManager (mgNext m) (mgStore m) (mgPoints m) e (mgHealth m).
Definition SetSessionStore (s : option SessionStore) (m : Manager) : Manager := withStoreOf s m.

Definition withSavedMark (wh : f64) (at' : Time) (seq : Z) (retention : string) (m : Meter) : Meter :=
  mkMeter (mtEnergy m) (mtPowerAt m) (mtWindow m) (mtPowerUnavailable m) (mtChargingSince m) wh at' seq retention.
Definition withEnergy (e : option sessionEnergy) (m : Meter) : Meter :=
  mkMeter e (mtPowerAt m) (mtWindow m) (mtPowerUnavailable m) (mtChargingSince m) (mtSavedWh m) (mtSavedAt m) (mtCommitSeq m) (mtRetention m).
Definition withPowerSeen (at' : Time) (w : Duration) (unavailable : bool) (since : Time) (m : Meter) : Meter :=
  mkMeter (mtEnergy m) at' w unavailable since (mtSavedWh m) (mtSavedAt m) (mtCommitSeq m) (mtRetention m).
Definition withRetention (retention : string) (m : Meter) : Meter :=
  withSavedMark (mtSavedWh m) (mtSavedAt m) (mtCommitSeq m) retention m.
Definition withGoalSaved (checked explicit : bool) (saved : Time) (completed : bool) (retention : string) (g : Goal) : Goal :=
  mkGoal (glFinish g) (glCompleted g) (glTargetSoC g) (glTargetTime g) (glRolledFor g) (glSchedule g) checked explicit saved completed retention.
Definition withPlugged (b : bool) (d : Reading) : Reading :=
  mkReading b (rdPluggedAt d) (rdPowerW d) (rdDeliveredWh d) (rdHistory d) (rdObserved d).
Definition withDelivered (wh : f64) (d : Reading) : Reading :=
  mkReading (rdPlugged d) (rdPluggedAt d) (rdPowerW d) wh (rdHistory d) (rdObserved d).

(** ** Identity *)
Definition isSpace (c : ascii) : bool := let n := N_of_ascii c in ((9 <=? n) && (n <=? 13) || (n =? 32))%N.
Fixpoint dropSpace (l : list ascii) : list ascii :=
  match l with c :: rest => if isSpace c then dropSpace rest else l | [] => [] end.
(** [strings.TrimSpace], of ASCII spaces. *)
Definition TrimSpace (s : string) : string :=
  String.string_of_list_ascii (rev (dropSpace (rev (dropSpace (String.list_ascii_of_string s))))).
Definition deviceOf (sample : EVSample) : string :=
  let d := TrimSpace (saDeviceID sample) in if String.prefix "ep:" d then ""%string else d.
Definition sessionOf (sample : EVSample) : string := TrimSpace (saSessionID sample).

Definition regressed (sample : EVSample) (r : Runtime) : bool :=
  saConnected sample && rdPlugged (rtReading r) &&
  match mtEnergy (rtMeter r) with Some e => counterRegressed e sample | None => false end.
(** The charger names its session for the first time. *)
Definition firstSessionProof (sample : EVSample) (r : Runtime) : bool :=
  negb (String.eqb (deviceOf sample) "") && String.eqb (iyDevice (rtIdentity r)) (deviceOf sample) &&
  String.eqb (iySession (rtIdentity r)) "" && negb (String.eqb (sessionOf sample) "") &&
  rdPlugged (rtReading r) && saConnected sample && negb (regressed sample r).
Definition changedSession (sample : EVSample) (r : Runtime) : bool :=
  negb (String.eqb (iyDevice (rtIdentity r)) (deviceOf sample)) ||
  (negb (String.eqb (iySession (rtIdentity r)) (sessionOf sample)) && negb (firstSessionProof sample r)).

(** ** The parts of one sample *)
Definition newSession (generation : Z) (r : Runtime) : Runtime :=
  let g := rtGoal r in
  let i := rtIdentity r in
  let t := rtLatches r in
  withGoal (withGoalSaved false (glExplicit g) zeroTime (glSavedCompleted g) "unavailable" g)
    (withIdentity (mkIdentity (iyDevice i) (iySession i) generation (iyConnection i))
      (withReading (withPlugged false (rtReading r)) (withMeter (withEnergy None (rtMeter r))
        (withLatches (withSteady zeroTime zeroTime false t) (withLevel (releaseCapacity (rtLevel r)) r))))).

(** The meter's reading; the level joins the counter's time line. *)
Definition takeSample (now : Time) (sample : EVSample) (changed : bool) (r : Runtime) : Runtime * f64 :=
  let m := rtMeter r in
  let e := if saConnected sample then default noEnergy (mtEnergy m) else noEnergy in
  let known := seCounterKnown e in
  let '(e, deliveredWh) := observeMeter sample now e in
  let l := rtLevel r in
  let l :=
    if negb known && seCounterKnown e && lvConfirmed l && rdPlugged (rtReading r) && flt (of_Z 0) (lvCapacityWh l)
    then withSoC (fsub (lvAnchor l) (deliveredSoC (fsub (seCounterWh e) (integralAt e (seCounterAt e))) (lvCapacityWh l))) (lvSoC l) l
    else l in
  let m := withPowerSeen (mtPowerAt m) (mtWindow m) (mtPowerUnavailable m) (if changed then zeroTime else mtChargingSince m) m in
  let since := observeChargingPeriod sample now (rdPlugged (rtReading r)) m in
  let m := withPowerSeen (if IsZero (saPowerAt sample) then now else saPowerAt sample) (PowerWindow sample)
             (saPowerUnavailable sample) since m in
  (withMeter (withEnergy (Some e) m) (withLevel l r), deliveredWh).

Definition tombstone (devices : list string) (s : option SessionStore) : option SessionStore :=
  (fun s => mkStore (fold_left (fun acc d => if String.eqb d "" then acc else delete d acc) devices (ssSessions s)) (ssGoals s)) <$> s.

(** The estimate a record carries, when it is a later one than the counter's. *)
Definition estimateIn (saved : savedSession) : option f64 :=
  match snEstimatedWh saved with
  | Some e => if negb (IsZero (snEstimatedAt saved)) && finite e && fle (snConfirmedAtWh saved) e then Some e else None
  | None => None
  end.
(** The record as it applies to this sample, its anchor in today's efficiency. *)
Definition applicable (sample : EVSample) (saved : savedSession) : option savedSession :=
  if ((snVersion saved =? 1) || (snVersion saved =? 2)) && String.eqb (snDevice saved) (deviceOf sample) &&
     String.eqb (snSession saved) (sessionOf sample) && finite (snAnchor saved) && finite (snConfirmedAtWh saved) &&
     fle (of_Z 0) (snConfirmedAtWh saved) && fle (snConfirmedAtWh saved) (saSessionWh sample) &&
     finite (snCapacityWh saved) && flt (of_Z 0) (snCapacityWh saved)
  then
    let efficiency := if snVersion saved =? 1 then of_Z 1 else DefaultChargeEfficiency in
    let wh := default (snConfirmedAtWh saved) (estimateIn saved) in
    let atConfirmation := fadd (snAnchor saved) (fdiv (fmul wh efficiency) (snCapacityWh saved)) in
    let anchor := fsub atConfirmation (deliveredSoC wh (snCapacityWh saved)) in
    if fle (of_Z 0) atConfirmation && fle atConfirmation (of_Z 1)
    then Some (mkSavedSession (snVersion saved) (snDevice saved) (snSession saved) anchor (snConfirmedAtWh saved) (snCapacityWh saved)
                 (snEstimatedWh saved) (snEstimatedAt saved) (snNotified saved))
    else None
  else None.
Definition restoreFor (sample : EVSample) (confirmed regress : bool) (s : option SessionStore) : option savedSession :=
  match s with
  | Some st =>
      if saConnected sample && negb confirmed && negb regress && negb (saSessionWhUnavailable sample) &&
         negb (String.eqb (deviceOf sample) "") && negb (String.eqb (sessionOf sample) "")
      then match ssSessions st !! deviceOf sample with Some saved => applicable sample saved | None => None end
      else None
  | None => None
  end.

(** After the reading: the restored level, or none kept. *)
Definition applyRestore (now : Time) (sample : EVSample) (deliveredWh : f64) (restore : option savedSession) (stored : bool) (r : Runtime)
    : Runtime :=
  let l := rtLevel r in
  let unkept := withMeter (withRetention "unavailable" (rtMeter r)) r in
  match restore with
  | Some saved =>
      if rdPlugged (rtReading r) && feq (lvCapacityWh l) (snCapacityWh saved) then
        let e := default noEnergy (mtEnergy (rtMeter r)) in
        let '(r, deliveredWh) :=
          match estimateIn saved with
          | Some wh =>
              let '(e, delivered) := observeMeter sample now (withFloor wh (snEstimatedAt saved) e) in
              (withMeter (withEnergy (Some e) (rtMeter r)) (withReading (withDelivered delivered (rtReading r)) r), delivered)
          | None => (r, deliveredWh)
          end in
        let l := withSoC (snAnchor saved) (estimateSoC (snAnchor saved) deliveredWh (snCapacityWh saved)) l in
        let l := withConfirmed true (lvConfirmedAt l) (lvUnknown l) (lvFromCar l) l in
        withMeter (withRetention "session" (rtMeter r)) (withLevel (withNotified (snNotified saved) (lvCharged l) l) r)
      else if negb (lvConfirmed l) || String.eqb (deviceOf sample) "" || String.eqb (sessionOf sample) "" || negb stored then unkept else r
  | None =>
      if negb (lvConfirmed l) || String.eqb (deviceOf sample) "" || String.eqb (sessionOf sample) "" || negb stored then unkept else r
  end.

(** ** Saving *)
Definition sessionRecord (r : Runtime) : savedSession :=
  let d := rdDeliveredWh (rtReading r) in
  let i := rtIdentity r in
  let l := rtLevel r in
  match mtEnergy (rtMeter r) with
  | Some e =>
      if seCounterKnown e then
        let later := flt (seCounterWh e) d in
        mkSavedSession 2 (iyDevice i) (iySession i) (lvAnchor l) (seCounterWh e) (lvCapacityWh l) (if later then Some d else None)
          (if later then (if After (seCoverageAt e) (seFloorAt e) then seCoverageAt e else seFloorAt e) else zeroTime) (lvNotified l)
      else mkSavedSession 2 (iyDevice i) (iySession i) (lvAnchor l) d (lvCapacityWh l) None zeroTime (lvNotified l)
  | None => mkSavedSession 2 (iyDevice i) (iySession i) (lvAnchor l) d (lvCapacityWh l) None zeroTime (lvNotified l)
  end.
Definition eligible (r : Runtime) : bool :=
  let s := sessionRecord r in
  rdPlugged (rtReading r) && lvConfirmed (rtLevel r) && match mtEnergy (rtMeter r) with Some e => seCounterKnown e | None => false end &&
  negb (String.eqb (snDevice s) "") && negb (String.eqb (snSession s) "") && finite (snAnchor s) && finite (snConfirmedAtWh s) &&
  fle (of_Z 0) (snConfirmedAtWh s) && finite (snCapacityWh s) && flt (of_Z 0) (snCapacityWh s).
(** [persistSession]: the store, and the loadpoint with what it says of it. *)
Definition persistSession (now : Time) (s : option SessionStore) (r : Runtime) : option SessionStore * Runtime :=
  match s with
  | Some st =>
      if eligible r then
        let saved := sessionRecord r in
        (Some (mkStore (<[snDevice saved := saved]> (ssSessions st)) (ssGoals st)),
         withMeter (withSavedMark (rdDeliveredWh (rtReading r)) now (mtCommitSeq (rtMeter r)) "session" (rtMeter r)) r)
      else (s, withMeter (withRetention "unavailable" (rtMeter r)) r)
  | None => (s, withMeter (withRetention "unavailable" (rtMeter r)) r)
  end.

(** Unsaved progress: a change of 30 Wh, half a minute, or a stop. *)
Definition saveDue (now : Time) (r : Runtime) : bool :=
  let m := rtMeter r in
  let d := rdDeliveredWh (rtReading r) in
  let progress := fne d (mtSavedWh m) in
  let due := fle (of_Z 30) (fabs (fsub d (mtSavedWh m))) || (30 * Second <=? Sub now (mtSavedAt m)) || feq (rdPowerW (rtReading r)) (of_Z 0) in
  match mtEnergy m with
  | Some e => lvConfirmed (rtLevel r) && negb (String.eqb (iySession (rtIdentity r)) "") && seCounterKnown e &&
              (negb (String.eqb (mtRetention m) "session") || (String.eqb (seSource e) "power" && progress && due))
  | None => false
  end.

(** [refreshSessionCommitLocked]: what a store that writes later has committed,
    with its sequence number; [committed] is the store's answer by device. *)
Definition refreshSessionCommit (committed : option (string -> option (savedSession * Z))) (now : Time) (r : Runtime) : Runtime :=
  let i := rtIdentity r in
  let m := rtMeter r in
  match committed with
  | None => r
  | Some read =>
      if negb (lvConfirmed (rtLevel r)) || String.eqb (iyDevice i) "" || String.eqb (iySession i) "" then r
      else
        match read (iyDevice i) with
        | Some (saved, seq) =>
            if (seq =? 0) || (seq <=? mtCommitSeq m) || negb (snVersion saved =? 2) || negb (String.eqb (snDevice saved) (iyDevice i)) ||
               negb (String.eqb (snSession saved) (iySession i)) || fne (snAnchor saved) (lvAnchor (rtLevel r)) ||
               fne (snCapacityWh saved) (lvCapacityWh (rtLevel r)) then r
            else
              let wh := match snEstimatedWh saved with
                        | Some e => if flt (snConfirmedAtWh saved) e then e else snConfirmedAtWh saved
                        | None => snConfirmedAtWh saved end in
              withMeter (withSavedMark wh now seq "session" m) r
        | None => r
        end
  end.

(** ** The goal of the session (vehicle_goal_state.go) *)
Definition clockEq (a b : option Z) : bool :=
  match a, b with Some x, Some y => x =? y | None, None => true | _, _ => false end.
Definition scheduleEq (a b : Schedule) : bool :=
  feq (scSoC a) (scSoC b) && Bool.eqb (scFinish a) (scFinish b) && Bool.eqb (scRecurring a) (scRecurring b) && feq (scUnlock a) (scUnlock b) &&
  String.eqb (scIntent a) (scIntent b) && (scFirstMS a =? scFirstMS b) && (scMinUTC a =? scMinUTC b) && (scDays a =? scDays b) &&
  clockEq (scClock a) (scClock b).

Definition restorableGoal (saved record : savedFinishGoal) : bool :=
  String.eqb (sgDevice saved) (sgDevice record) &&
  (String.eqb (sgSession saved) (sgSession record) || (sgCompleted saved && negb (scRecurring (sgSchedule record)))) &&
  scheduleEq (withoutClock (sgSchedule saved)) (withoutClock (sgSchedule record)) && negb (IsZero (sgDeadline saved)).

Definition retainFinishGoal (s : option SessionStore) (r : Runtime) : option SessionStore * Runtime :=
  let i := rtIdentity r in
  let g := rtGoal r in
  if negb (rdPlugged (rtReading r)) || negb (glFinish g) then (s, r)
  else
    match s with
    | Some st =>
        if String.eqb (iyDevice i) "" || String.eqb (iySession i) ""
        then (s, withGoal (withGoalSaved (glChecked g) (glExplicit g) (glSaved g) (glSavedCompleted g) "unavailable" g) r)
        else
          let record := mkSavedGoal (iyDevice i) (iySession i) (glTargetTime g) (glSchedule g) (glCompleted g) in
          let check := negb (glChecked g) && negb (glExplicit g) in
          let g := withGoalSaved true (glExplicit g) (glSaved g) (glSavedCompleted g) (glRetention g) g in
          let '(record, g) :=
            match (if check then ssGoals st !! sgDevice record else None) with
            | Some saved =>
                if restorableGoal saved record then
                  let soc := if sgCompleted saved then of_Z 0 else glTargetSoC g in
                  (mkSavedGoal (sgDevice record) (sgSession record) (sgDeadline saved) (sgSchedule record) (sgCompleted saved),
                   withGoalSaved true (glExplicit g) (sgDeadline saved) (sgCompleted saved) "session"
                     (withTarget (glFinish g) (sgCompleted saved) soc (sgDeadline saved) (sgDeadline saved) g))
                else (record, g)
            | None => (record, g)
            end in
          let due := negb (IsZero (sgDeadline record)) &&
                     (negb (Equal (glSaved g) (sgDeadline record)) || negb (Bool.eqb (glSavedCompleted g) (sgCompleted record))) in
          if due
          then (Some (mkStore (ssSessions st) (<[sgDevice record := record]> (ssGoals st))),
                withGoal (withGoalSaved (glChecked g) (glExplicit g) (sgDeadline record) (sgCompleted record) "session" g) r)
          else (s, withGoal g r)
    | None => (s, withGoal (withGoalSaved (glChecked g) (glExplicit g) (glSaved g) (glSavedCompleted g) "unavailable" g) r)
    end.

(** [completeVehicleGoal] and [resumeRecurringVehicleGoal] of the manager. *)
Definition completeGoal (s : option SessionStore) (r : Runtime) : option SessionStore * Runtime :=
  let g := rtGoal r in
  if negb (glFinish g) || negb (rdPlugged (rtReading r)) then (s, r)
  else retainFinishGoal s (withGoal (withTarget (glFinish g) true (of_Z 0) (glTargetTime g) (glRolledFor g) g) r).
Definition resumeRecurringGoal (s : option SessionStore) (r : Runtime) : option SessionStore * Runtime :=
  let g := rtGoal r in
  if negb (glFinish g) || negb (scRecurring (glSchedule g)) || negb (rdPlugged (rtReading r)) then (s, r)
  else retainFinishGoal s (withGoal (withTarget (glFinish g) false (of_Z 1) (glTargetTime g) (glRolledFor g) g) r).

(** ** [ObserveSample] *)
Definition readable (sample : EVSample) : bool :=
  saSessionWhUnavailable sample || (finite (saSessionWh sample) && negb (flt (saSessionWh sample) (of_Z 0))).

(** A sample on the loadpoint's record and the store; [generation] is the next
    session's. *)
Definition sampleOn (committed : option (string -> option (savedSession * Z))) (loc : Location) (now : Time) (sample : EVSample)
    (generation : Z) (s : option SessionStore) (r : Runtime) : option SessionStore * Runtime * list Event :=
  let r := refreshSessionCommit committed now r in
  let was := rdPlugged (rtReading r) in
  let previous := iyDevice (rtIdentity r) in
  let regress := regressed sample r in
  let proof := firstSessionProof sample r in
  let changed := changedSession sample r in
  let r := if changed || regress then newSession generation r else r in
  let r := withIdentity (mkIdentity (deviceOf sample) (sessionOf sample) (iyGeneration (rtIdentity r)) (iyConnection (rtIdentity r))) r in
  let '(r, deliveredWh) := takeSample now sample changed r in
  let confirmed := lvConfirmed (rtLevel r) && rdPlugged (rtReading r) in
  let s := if negb (saConnected sample) && (was || changed) || regress then tombstone [previous; deviceOf sample] s else s in
  let restore := restoreFor sample confirmed regress s in
  let powerW := if saPowerUnavailable sample then of_Z 0 else saPowerW sample in
  let '(r, events) := observe loc now (saConnected sample) powerW deliveredWh (saPowerUnavailable sample || saRequestActive sample) r in
  let r := applyRestore now sample deliveredWh restore (match s with Some _ => true | None => false end) r in
  let '(s, r) := if saveDue now r then persistSession now s r else (s, r) in
  let '(s, r) := if proof && confirmed then persistSession now s r else (s, r) in
  let '(s, r) := retainFinishGoal s r in
  (s, r, events).

Definition ObserveSample (committed : option (string -> option (savedSession * Z))) (loc : Location) (now : Time) (id : string)
    (sample : EVSample) (m : Manager) : Manager * list Event :=
  match mgPoints m !! id with
  | Some r =>
      if negb (readable sample) then (m, [])
      else
        let fresh := changedSession sample r || regressed sample r in
        let next := if fresh then mgNext m + 1 else mgNext m in
        let healthy := default false (mgHealth m !! rtDriver r) in
        let '(edge, connected) := observeConnection healthy (saConnected sample) now (mgEdges m !! id) in
        let '(s, r, events) := sampleOn committed loc now sample next (mgStore m) r in
        (withEdges (match edge with Some e => <[id := e]> (mgEdges m) | None => delete id (mgEdges m) end)
           (withNext next (withStoreOf s (withPoints (<[id := r]> (mgPoints m)) m))),
         (if connected then [ChargingConnected] else []) ++ events)
  | None => (m, [])
  end.

(** ** [observeConnectionProof]: the charger's socket was lost *)
Definition connectionProof (generation : Z) (unknown : bool) (next : Z) (s : option SessionStore) (r : Runtime)
    : option SessionStore * Runtime * bool :=
  let i := rtIdentity r in
  let changed := negb (generation =? 0) && negb (iyConnection i =? 0) && negb (generation =? iyConnection i) in
  let i := mkIdentity (iyDevice i) (iySession i) (iyGeneration i) (if negb (generation =? 0) then generation else iyConnection i) in
  let m := rtMeter r in
  let m := if unknown || changed
           then withPowerSeen (mtPowerAt m) (mtWindow m) (mtPowerUnavailable m) zeroTime m else m in
  let r := withMeter m (withIdentity i r) in
  if (negb unknown && negb changed) || (negb changed && String.eqb (iyDevice i) "" && String.eqb (iySession i) "") then (s, r, false)
  else
    let l := releaseCapacity (rtLevel r) in
    let anchor := pluginAnchor l in
    let l := withSoC anchor (estimateSoC anchor (rdDeliveredWh (rtReading r)) (lvCapacityWh l))
               (withConfirmed false (lvConfirmedAt l) (lvUnknown l) (lvFromCar l) (withNotified false (lvCharged l) l)) in
    let t := withRefusal zeroTime false (withSteady zeroTime zeroTime false (rtLatches r)) in
    let r := withLevel l (withLatches t (withIdentity (mkIdentity "" "" next (iyConnection i)) (withMeter (withRetention "unavailable" m) r))) in
    (tombstone [iyDevice i] s, r, true).
Definition observeConnectionProof (id : string) (generation : Z) (unknown : bool) (m : Manager) : Manager :=
  match mgPoints m !! id with
  | Some r =>
      let '(s, r, fresh) := connectionProof generation unknown (mgNext m + 1) (mgStore m) r in
      withNext (if fresh then mgNext m + 1 else mgNext m) (withStoreOf s (withPoints (<[id := r]> (mgPoints m)) m))
  | None => m
  end.

(** ** Edits of the level, saved with the session *)
Definition correctLevel (now : Time) (soc : f64) (s : option SessionStore) (r : Runtime) : option SessionStore * Runtime :=
  persistSession now s (fst (SetCurrentSoC now soc r)).
Definition anchorLevel (now : Time) (soc : f64) (observedAt : Time) (s : option SessionStore) (r : Runtime) : option SessionStore * Runtime :=
  persistSession now s (fst (fst (AnchorVehicleSoCAt now soc observedAt r))).
Definition seedLevel (now : Time) (seed : LevelSeed) (s : option SessionStore) (r : Runtime) : option SessionStore * Runtime :=
  let '(r, seeded) := SeedSessionLevel seed r in
  if seeded && lvConfirmed (rtLevel r) then persistSession now s r else (s, r).
Definition bindCar (now : Time) (carWh : f64) (s : option SessionStore) (r : Runtime) : option SessionStore * Runtime :=
  let l := rtLevel r in
  let resized := negb (lvMeasured l) && fne (lvCapacityWh l) (if fle carWh (of_Z 0) then lvConfigWh l else carWh) in
  let r := SetCarBinding carWh r in
  if resized && rdPlugged (rtReading r) && lvConfirmed (rtLevel r) then persistSession now s r else (s, r).

(** ** Lemmas: where a confirmed level comes from *)
(** A level someone confirmed, of the car on the cable. *)
Definition hasLevel (r : Runtime) : bool := rdPlugged (rtReading r) && lvConfirmed (rtLevel r).

Lemma release_confirmed l : lvConfirmed (releaseCapacity l) = lvConfirmed l.
Proof. unfold releaseCapacity. destruct (lvMeasured l); reflexivity. Qed.

Lemma refresh_same committed now r : let r' := refreshSessionCommit committed now r in
  rtReading r' = rtReading r /\ rtLevel r' = rtLevel r /\ rtIdentity r' = rtIdentity r /\
  mtEnergy (rtMeter r') = mtEnergy (rtMeter r).
Proof. unfold refreshSessionCommit. cbv zeta. repeat case_scrut; split_and!; reflexivity. Qed.

Lemma take_sample now sample changed r : let r' := fst (takeSample now sample changed r) in
  rtReading r' = rtReading r /\ lvConfirmed (rtLevel r') = lvConfirmed (rtLevel r) /\ rtIdentity r' = rtIdentity r.
Proof.
  unfold takeSample. cbv zeta. destruct (observeMeter _ _ _) as [e wh]. cbn [fst]. split_and!; [reflexivity| |reflexivity].
  cbn [rtLevel withMeter withLevel]. destruct (_ && _) in |- *; reflexivity.
Qed.

Lemma observe_level_kept plugged p wh target l : lvConfirmed (fst (observeLevel plugged p wh target l)) = lvConfirmed l.
Proof. unfold observeLevel. destruct plugged; [|reflexivity]. cbv zeta. destruct (_ && _) in |- *; reflexivity. Qed.

Lemma observe_level loc now plugged p wh q r : let r' := fst (observe loc now plugged p wh q r) in
  rdPlugged (rtReading r') = plugged /\ rtIdentity r' = rtIdentity r /\
  (plugged && lvConfirmed (rtLevel r') = true -> rdPlugged (rtReading r) && lvConfirmed (rtLevel r) = true).
Proof.
  unfold observe. cbv zeta. set (r1 := if plugged && _ then _ else _). set (r2 := if plugged then r1 else plugOut r1).
  assert (Q : rtIdentity r2 = rtIdentity r /\
    (plugged && lvConfirmed (rtLevel r2) = true -> rdPlugged (rtReading r) && lvConfirmed (rtLevel r) = true)).
  { unfold r2, r1. destruct plugged, (rdPlugged (rtReading r)); cbn [andb negb]; (split; [reflexivity|]).
    - exact (fun x => x).
    - intros X. discriminate X.
    - intros X. discriminate X.
    - intros X. discriminate X. }
  destruct Q as [Q1 Q2]. clearbody r2. set (r3 := withReading _ r2). destruct (observeSteady _ _ _ _ _ _ _) as [t broke].
  pose proof (observe_level_kept plugged p wh (glTargetSoC (rtGoal r3)) (rtLevel r3)) as L.
  destruct (observeLevel _ _ _ _ _) as [l done]. cbn [fst] in *. split; [reflexivity|]. split; [exact Q1|].
  intros X. apply Q2. cbn [rtLevel withLevel] in X. rewrite L in X. exact X.
Qed.

(** The store holds the record of this device and this session. *)
Definition recorded (sample : EVSample) (s : option SessionStore) : Prop :=
  exists st saved, s = Some st /\ ssSessions st !! deviceOf sample = Some saved /\ snDevice saved = deviceOf sample /\
    snSession saved = sessionOf sample /\ deviceOf sample <> ""%string /\ sessionOf sample <> ""%string.

Lemma restore_for sample confirmed regress s saved : restoreFor sample confirmed regress s = Some saved ->
  regress = false /\ recorded sample s.
Proof.
  unfold restoreFor. destruct s as [st|]; [|discriminate]. destruct (_ && _) eqn:G; [|discriminate].
  apply andb_true_iff in G as [G G6]. apply andb_true_iff in G as [G G5]. apply andb_true_iff in G as [G _].
  apply andb_true_iff in G as [_ G3]. apply negb_true_iff in G3, G5, G6. apply String.eqb_neq in G5, G6.
  destruct (ssSessions st !! deviceOf sample) as [rec|] eqn:E; [|discriminate]. unfold applicable.
  destruct (_ && _) eqn:A; [|discriminate]. intros _. split; [exact G3|]. exists st, rec. do 5 apply andb_true_iff in A as [A _].
  apply andb_true_iff in A as [A _]. apply andb_true_iff in A as [A A2]. apply andb_true_iff in A as [_ A1].
  apply String.eqb_eq in A1, A2. split_and!; auto.
Qed.

Lemma apply_restore now sample wh restore stored r : let r' := applyRestore now sample wh restore stored r in
  rdPlugged (rtReading r') = rdPlugged (rtReading r) /\ rtIdentity r' = rtIdentity r /\
  (hasLevel r' = true -> hasLevel r = true \/ exists saved, restore = Some saved).
Proof.
  unfold applyRestore. cbv zeta. destruct restore as [saved|].
  - destruct (rdPlugged _ && feq _ _); [|destruct (_ || _ || _ || _); split_and!; auto].
    destruct (estimateIn saved) as [x|]; [destruct (observeMeter _ _ _) as [e d]|]; split_and!; eauto.
  - destruct (_ || _ || _ || _); split_and!; auto.
Qed.

Definition sessionsOf (s : option SessionStore) : gmap string savedSession :=
  match s with Some st => ssSessions st | None => ∅ end.

Lemma persist_session now s r : let '(s', r') := persistSession now s r in
  rtReading r' = rtReading r /\ rtLevel r' = rtLevel r /\ (hasLevel r = false -> s' = s).
Proof.
  unfold persistSession. destruct s as [st|]; [|split_and!; reflexivity]. destruct (eligible r) eqn:E; split_and!; try reflexivity.
  intros H. unfold eligible in E. cbv zeta in E. do 8 apply andb_true_iff in E as [E _]. unfold hasLevel in H. rewrite E in H. discriminate H.
Qed.
Lemma persist_if (b : bool) now s r : let '(s', r') := if b then persistSession now s r else (s, r) in
  rtReading r' = rtReading r /\ rtLevel r' = rtLevel r /\ (hasLevel r = false -> s' = s).
Proof. destruct b; [apply persist_session|split_and!; reflexivity]. Qed.
Lemma retain_goal s r : let '(s', r') := retainFinishGoal s r in
  rtReading r' = rtReading r /\ rtLevel r' = rtLevel r /\ sessionsOf s' = sessionsOf s.
Proof. unfold retainFinishGoal. cbv zeta. repeat case_scrut; split_and!; reflexivity. Qed.

Lemma hasLevel_of r r' : rtReading r' = rtReading r -> rtLevel r' = rtLevel r -> hasLevel r' = hasLevel r.
Proof. unfold hasLevel. now intros -> ->. Qed.

Lemma tombstone_deletes d ds s : d <> ""%string -> d ∈ ds -> sessionsOf (tombstone ds s) !! d = None.
Proof.
  intros N I. destruct s as [st|]; [|apply lookup_empty]. cbn [tombstone fmap option_fmap option_map sessionsOf ssSessions].
  assert (G : forall acc : gmap string savedSession, acc !! d = None \/ d ∈ ds ->
    fold_left (fun acc x => if String.eqb x "" then acc else delete x acc) ds acc !! d = None).
  { clear I. induction ds as [|x ds IH]; intros acc [H|H]; cbn [fold_left]; [exact H|inversion H|apply IH; left|].
    - destruct (String.eqb x ""); [exact H|]. destruct (decide (x = d)) as [->|D]; [apply lookup_delete_eq|now rewrite lookup_delete_ne].
    - apply IH. apply elem_of_cons in H as [<-|H]; [left|now right]. rewrite (proj2 (String.eqb_neq d "") N). apply lookup_delete_eq. }
  apply G. now right.
Qed.
Lemma tombstone_keeps d ds s saved : sessionsOf (tombstone ds s) !! d = Some saved -> sessionsOf s !! d = Some saved.
Proof.
  destruct s as [st|]; [|easy]. cbn [tombstone fmap option_fmap option_map sessionsOf ssSessions].
  assert (G : forall (acc : gmap string savedSession),
    fold_left (fun acc x => if String.eqb x "" then acc else delete x acc) ds acc !! d = Some saved -> acc !! d = Some saved).
  { induction ds as [|x ds IH]; intros acc H; cbn [fold_left] in H; [exact H|]. apply IH in H. destruct (String.eqb x ""); [exact H|].
    destruct (decide (x = d)) as [->|D]; [rewrite lookup_delete_eq in H; discriminate H|now rewrite lookup_delete_ne in H]. }
  exact (G _).
Qed.

(** The store as a sample leaves it before anything is saved. *)
Definition storeSeen (sample : EVSample) (s : option SessionStore) (r : Runtime) : option SessionStore :=
  if negb (saConnected sample) && (rdPlugged (rtReading r) || changedSession sample r) || regressed sample r
  then tombstone [iyDevice (rtIdentity r); deviceOf sample] s else s.

Lemma sample_level committed loc now sample generation s r :
  let '(s', r', _) := sampleOn committed loc now sample generation s r in
  rdPlugged (rtReading r') = saConnected sample /\
  (hasLevel r' = true -> (hasLevel r = true /\ changedSession sample r = false \/ recorded sample (storeSeen sample s r)) /\
     regressed sample r = false) /\
  (hasLevel r' = false -> sessionsOf s' = sessionsOf (storeSeen sample s r)).
Proof.
  unfold sampleOn. cbv zeta. destruct (refresh_same committed now r) as (F1 & F2 & F3 & F4).
  set (r0 := refreshSessionCommit committed now r) in *.
  assert (Rg : regressed sample r0 = regressed sample r) by (unfold regressed; now rewrite F1, F4).
  assert (Pf : firstSessionProof sample r0 = firstSessionProof sample r) by (unfold firstSessionProof; now rewrite Rg, F1, F3).
  assert (Ch : changedSession sample r0 = changedSession sample r) by (unfold changedSession; now rewrite Pf, F3).
  rewrite Rg, Ch, Pf, F1, F3. fold (storeSeen sample s r). set (s1 := storeSeen sample s r).
  assert (L0 : hasLevel r0 = hasLevel r) by (now apply hasLevel_of). clearbody r0.
  set (r1 := if changedSession sample r || _ then _ else r0).
  assert (L1 : hasLevel r1 = true -> hasLevel r = true /\ changedSession sample r = false /\ regressed sample r = false).
  { unfold r1. destruct (changedSession sample r || regressed sample r) eqn:G; [intros X; discriminate X|].
    apply orb_false_iff in G as [-> ->]. rewrite L0. auto. }
  clearbody r1. set (r2 := withIdentity _ r1). pose proof (take_sample now sample (changedSession sample r) r2) as (T1 & T2 & _).
  destruct (takeSample _ _ _ r2) as [r3 wh]. cbn [fst] in T1, T2.
  assert (L3 : rdPlugged (rtReading r3) && lvConfirmed (rtLevel r3) = hasLevel r1) by (unfold hasLevel; now rewrite T1, T2).
  set (conf := lvConfirmed (rtLevel r3) && _). set (restore := restoreFor _ _ _ s1).
  pose proof (observe_level loc now (saConnected sample) (if saPowerUnavailable sample then of_Z 0 else saPowerW sample) wh
    (saPowerUnavailable sample || saRequestActive sample) r3) as (O1 & _ & O3).
  destruct (observe _ _ _ _ _ _ r3) as [r4 events]. cbn [fst] in O1, O3.
  pose proof (apply_restore now sample wh restore (match s1 with Some _ => true | None => false end) r4) as (A1 & _ & A3).
  set (r5 := applyRestore _ _ _ _ _ r4) in *.
  assert (L5 : hasLevel r5 = true -> (hasLevel r = true /\ changedSession sample r = false \/ recorded sample s1) /\ regressed sample r = false).
  { intros H. destruct (A3 H) as [H4|[saved E]].
    - unfold hasLevel in H4. rewrite O1 in H4. apply O3 in H4. rewrite L3 in H4. destruct (L1 H4) as (X & Y & W). split; [left; now split|exact W].
    - unfold restore in E. destruct (restore_for _ _ _ _ _ E) as [W R]. split; [now right|exact W]. }
  rewrite O1 in A1. clearbody r5. clear - A1 L5. pose proof (persist_if (saveDue now r5) now s1 r5) as P.
  destruct (if saveDue now r5 then _ else _) as [s2 r6]. destruct P as (P1 & P2 & P3).
  pose proof (persist_if (firstSessionProof sample r && conf) now s2 r6) as Q. destruct (if _ && conf then _ else _) as [s3 r7].
  destruct Q as (Q1 & Q2 & Q3). pose proof (retain_goal s3 r7) as R. destruct (retainFinishGoal s3 r7) as [s4 r8].
  destruct R as (R1 & R2 & R3). rewrite (hasLevel_of r5 r8) by congruence. split; [now rewrite R1, Q1, P1|]. split; [exact L5|].
  intros H. rewrite R3, Q3 by (rewrite (hasLevel_of r5 r6); [exact H|exact P1|exact P2]). now rewrite P3.
Qed.

(** ** What happens to a session between two confirmed levels *)
Inductive SessionOp : Type :=
| Sampled (now : Time) (sample : EVSample)
| ProofChecked (generation : Z) (unknown : bool)
| Ordered (withheld : bool) (order : lpOrder)
| Aimed (soc : f64) (targetTime : Time)
| Rolled (now : Time)
| Retried
| Planned (now : Time) (intent : string) (next : Schedule -> option Schedule) (saver : option (Schedule -> bool))
| Measured (capacityWh : f64)
| Bound (now : Time) (carWh : f64).
Definition onPoint (f : Runtime -> Runtime) (id : string) (m : Manager) : Manager := withPoints (alter f id (mgPoints m)) m.
(** The same, with the store. *)
Definition onSession (f : option SessionStore -> Runtime -> option SessionStore * Runtime) (id : string) (m : Manager) : Manager :=
  match mgPoints m !! id with
  | Some r => let '(s, r) := f (mgStore m) r in withStoreOf s (withPoints (<[id := r]> (mgPoints m)) m)
  | None => m
  end.

Section Sessions.
Context (committed : option (string -> option (savedSession * Z))) (loc : Location) (id : string).
Definition sessionOp (m : Manager) (o : SessionOp) : Manager :=
  match o with
  | Sampled now sample => fst (ObserveSample committed loc now id sample m)
  | ProofChecked generation unknown => observeConnectionProof id generation unknown m
  | Ordered withheld order => onPoint (withSettings withheld order) id m
  | Aimed soc targetTime => onPoint (SetTarget soc targetTime) id m
  | Rolled now => onPoint (rollSchedule loc now) id m
  | Retried => onPoint retryCharging id m
  | Planned now intent next saver => onPoint (fun r => fst (setScheduleAs loc now intent next saver r)) id m
  | Measured capacityWh => onPoint (SetSessionCapacityWh capacityWh) id m
  | Bound now carWh => onSession (bindCar now carWh) id m
  end.
Definition ofDevice (d : string) (o : SessionOp) : Prop :=
  match o with Sampled _ sample => deviceOf sample = d | _ => True end.

(** No level, and no record to bring one back. *)
Definition levelless (d : string) (m : Manager) : Prop :=
  (forall r, mgPoints m !! id = Some r -> hasLevel r = false) /\ sessionsOf (mgStore m) !! d = None.

Lemma tombstone_none d ds s : sessionsOf s !! d = None -> sessionsOf (tombstone ds s) !! d = None.
Proof.
  intros N. destruct (sessionsOf (tombstone ds s) !! d) as [x|] eqn:E; [|reflexivity]. apply tombstone_keeps in E. congruence.
Qed.
Lemma seen_none d sample s r : sessionsOf s !! d = None -> sessionsOf (storeSeen sample s r) !! d = None.
Proof. unfold storeSeen. destruct (_ || _); [apply tombstone_none|easy]. Qed.
Lemma recorded_some sample s : recorded sample s -> sessionsOf s !! deviceOf sample <> None.
Proof. intros (st & saved & -> & E & _). cbn [sessionsOf]. rewrite E. discriminate. Qed.

Lemma sample_levelless d now sample m : deviceOf sample = d ->
  (forall r, mgPoints m !! id = Some r -> readable sample = true -> hasLevel r = false \/ saConnected sample = false) ->
  (forall r, mgPoints m !! id = Some r -> readable sample = true -> sessionsOf (storeSeen sample (mgStore m) r) !! d = None) ->
  (readable sample = false -> levelless d m) -> (mgPoints m !! id = None -> levelless d m) ->
  levelless d (fst (ObserveSample committed loc now id sample m)).
Proof.
  intros D H S U P. unfold ObserveSample. destruct (mgPoints m !! id) as [r|] eqn:E; [|exact (P eq_refl)].
  destruct (readable sample); cbn [negb]; [|exact (U eq_refl)]. cbv zeta.
  destruct (observeConnection _ _ _ _) as [edge connected]. set (next := if _ || _ then _ else _).
  pose proof (sample_level committed loc now sample next (mgStore m) r) as L.
  destruct (sampleOn _ _ _ _ _ _ _) as [[s' r'] events]. cbn [fst]. destruct L as (L1 & L2 & L3).
  assert (N : hasLevel r' = false).
  { destruct (hasLevel r') eqn:X; [exfalso|reflexivity]. destruct (L2 eq_refl) as [[[Y _]|Y] _].
    - destruct (H r eq_refl eq_refl) as [W|W]; [congruence|]. unfold hasLevel in X. rewrite L1, W in X. discriminate X.
    - apply recorded_some in Y. rewrite D in Y. exact (Y (S r eq_refl eq_refl)). }
  split.
  - intros x Hx. cbn [mgPoints withEdges withNext withStoreOf withPoints] in Hx. rewrite lookup_insert_eq in Hx. now inversion Hx; subst.
  - cbn [mgStore withEdges withNext withStoreOf withPoints]. rewrite (L3 N). exact (S r eq_refl eq_refl).
Qed.

Lemma on_point f d m : (forall r, hasLevel (f r) = hasLevel r) -> levelless d m -> levelless d (onPoint f id m).
Proof.
  intros F [A B]. split; [|exact B]. intros r H. cbn [mgPoints onPoint withPoints] in H. rewrite lookup_alter_eq in H.
  destruct (mgPoints m !! id) as [x|] eqn:E; [|discriminate H]. cbn [fmap option_fmap option_map] in H. inversion H; subst. rewrite F. now apply A.
Qed.

Lemma on_session f d m : (forall s r, let '(s', r') := f s r in hasLevel r' = hasLevel r /\ (hasLevel r = false -> s' = s)) ->
  levelless d m -> levelless d (onSession f id m).
Proof.
  intros F [A B]. unfold onSession. destruct (mgPoints m !! id) as [r|] eqn:E; [|split; [rewrite E; discriminate|exact B]].
  pose proof (F (mgStore m) r) as G. destruct (f (mgStore m) r) as [s' r']. destruct G as [G1 G2]. pose proof (A r eq_refl) as N.
  split; [|cbn [mgStore withStoreOf]; now rewrite (G2 N)].
  intros x Hx. cbn [mgPoints withStoreOf withPoints] in Hx. rewrite lookup_insert_eq in Hx. inversion Hx; subst. now rewrite G1.
Qed.
Lemma bind_car now wh s r : let '(s', r') := bindCar now wh s r in hasLevel r' = hasLevel r /\ (hasLevel r = false -> s' = s).
Proof.
  unfold bindCar. cbv zeta. assert (H : hasLevel (SetCarBinding wh r) = hasLevel r).
  { unfold SetCarBinding, setCapacity. cbv zeta. repeat case_scrut; reflexivity. }
  set (b := _ && lvConfirmed _). pose proof (persist_if b now s (SetCarBinding wh r)) as P.
  destruct (if b then persistSession _ _ _ else _) as [s' r']. destruct P as (P1 & P2 & P3).
  split; [rewrite <- H; now apply hasLevel_of|]. intros X. apply P3. now rewrite H.
Qed.

Lemma op_levelless d m o : ofDevice d o -> levelless d m -> levelless d (sessionOp m o).
Proof.
  intros D [A B]. destruct o as [now sample|generation unknown|withheld order|soc time|now| |now intent next saver|wh|now wh]; cbn [sessionOp ofDevice] in *.
  - apply sample_levelless; auto; [|now split|now split]. intros r H _. now apply seen_none.
  - unfold observeConnectionProof. destruct (mgPoints m !! id) as [r|] eqn:E; [|split; [rewrite E; discriminate|exact B]].
    unfold connectionProof. cbv zeta. destruct (_ || _) in |- *.
    + split; [|exact B]. intros x Hx. cbn [mgPoints withNext withStoreOf withPoints] in Hx. rewrite lookup_insert_eq in Hx.
      inversion Hx; subst. exact (A r eq_refl).
    + split; [|cbn [mgStore withNext withStoreOf withPoints]; now apply tombstone_none].
      intros x Hx. cbn [mgPoints withNext withStoreOf withPoints] in Hx. rewrite lookup_insert_eq in Hx. inversion Hx; subst.
      unfold hasLevel. apply andb_false_r.
  - now apply on_point.
  - apply on_point; [|now split]. intros r. unfold SetTarget. destruct (flt _ _); reflexivity.
  - apply on_point; [|now split]. intros r. unfold rollSchedule. cbv zeta. repeat case_scrut; reflexivity.
  - now apply on_point.
  - apply on_point; [|now split]. intros r. unfold setScheduleAs. cbv zeta. repeat case_scrut; reflexivity.
  - apply on_point; [|now split]. intros r. unfold SetSessionCapacityWh. repeat case_scrut; reflexivity.
  - apply on_session; [|now split]. intros s r. apply bind_car.
Qed.

End Sessions.

(** ** A charger with a confirmed level *)
Definition demoConfirmed : Runtime :=
  withLevel (withConfirmed true (1000 * Hour) false false demoLevel)
    (withMeter (mkMeter (Some noEnergy) zeroTime 0 false zeroTime (of_Z 0) zeroTime 0 "session") demoSession).
Definition demoRecord : savedSession := mkSavedSession 2 "dev" "s1" (of_Z 0) (of_Z 0) (of_Z 1000) None zeroTime false.
Definition demoManager : Manager :=
  mkManager 1 (Some (mkStore (<["dev"%string := demoRecord]> ∅) ∅)) (<["car"%string := demoConfirmed]> ∅) ∅ ∅.
Definition demoCable (connected : bool) : EVSample :=
  mkSample false 0 (of_Z 0) (of_Z 0) false false zeroTime 0 zeroTime connected true "dev" "s1".


(** The same car after a restart of the box: the record brings its level back. *)
Example restart_keeps_level :
  let r := withLevel (withCapacity (of_Z 1000) (of_Z 0) false demoLevel) (withReading (mkReading false zeroTime (of_Z 0) (of_Z 0) [] false) demoSession) in
  let m := mkManager 1 (mgStore demoManager) (<["car"%string := r]> ∅) ∅ ∅ in
  hasLevel <$> mgPoints (fst (ObserveSample None (household Hour) (1000 * Hour) "car" (demoCable true) m)) !! "car"%string = Some true.
Proof. vm_compute. reflexivity. Qed.
