(* ===== verification/ManualHolds.v ===== *)
(** * Manual holds and the car they were given to (go/internal/loadpoint:
    controller.go, controller_hold_restore.go, manual_hold_state.go)

    One loadpoint's hold: setting and clearing it, the hardware and session it
    is bound to, the check of each reading against that binding, the grace of a
    short unplug, the release at the target, and the record that brings a hold
    back after a restart. The store writes a group at once and every write
    succeeds; a stored text that does not decode is [Broken]. A tick's sample is
    one the session can read; the retry a Start gives the car is the session's
    ([ChargeSession.retryCharging]). *)
From Stdlib Require Import ZArith Lia.
From S2P Require Import Prelude Float64 GoTime LoadpointData ChargeSession ChargeTick.
From stdpp Require Import base gmap strings list.
#[local] Open Scope Z_scope.

Record manualSessionBinding : Type := mkBinding {
  mbDevice : string; mbSession : string; mbGeneration : Z; mbConfiguration : Z; mbConnection : Z; mbProofLost : bool
}.
Definition noBinding : manualSessionBinding := mkBinding "" "" 0 0 0 false.
Definition otherSession (previous current : manualSessionBinding) : bool :=
  negb (String.eqb (mbSession previous) "") && negb (String.eqb (mbSession current) "") &&
  negb (String.eqb (mbSession previous) (mbSession current)).

(** [ManualHold{}] and the pause [ManualHold{Persistent: true}]. *)
Definition noHold : ManualHold := mkManual (of_Z 0) "" (of_Z 0) 0 (of_Z 0) (of_Z 0) 0 zeroTime false (of_Z 0) zeroTime zeroTime "".
Definition pauseHold : ManualHold := mkManual (of_Z 0) "" (of_Z 0) 0 (of_Z 0) (of_Z 0) 0 zeroTime true (of_Z 0) zeroTime zeroTime "".
Definition stampHold (now : Time) (h : ManualHold) : ManualHold :=
  mkManual (mlPowerW h) (mlPhaseMode h) (mlPhaseSplitW h) (mlMinPhaseHoldS h) (mlVoltage h) (mlMaxAmps h) (mlSitePhases h)
    (mlExpiresAt h) (mlPersistent h) (mlReleaseAtSoC h) (if IsZero (mlStartedAt h) then now else mlStartedAt h) now (mlSetBy h).
(** Go's [==] on holds. *)
Definition holdEq (a b : ManualHold) : bool :=
  feq (mlPowerW a) (mlPowerW b) && String.eqb (mlPhaseMode a) (mlPhaseMode b) && feq (mlPhaseSplitW a) (mlPhaseSplitW b) &&
  (mlMinPhaseHoldS a =? mlMinPhaseHoldS b) && feq (mlVoltage a) (mlVoltage b) && feq (mlMaxAmps a) (mlMaxAmps b) &&
  (mlSitePhases a =? mlSitePhases b) && Equal (mlExpiresAt a) (mlExpiresAt b) && Bool.eqb (mlPersistent a) (mlPersistent b) &&
  feq (mlReleaseAtSoC a) (mlReleaseAtSoC b) && Equal (mlStartedAt a) (mlStartedAt b) && Equal (mlUpdatedAt a) (mlUpdatedAt b) &&
  String.eqb (mlSetBy a) (mlSetBy b).

(** ** The store *)
Record storedManualHold : Type := mkStoredHold { thVersion : Z; thDevice : string; thSession : string; thHold : ManualHold }.
(** The text under a device's key: none, the cleared mark, one that does not decode, or a hold. *)
Inductive holdText : Type := Cleared | Broken | Stored (r : storedManualHold).
(** The loadpoint's own marks and the holds by device. [hkLegacy]: a hold under
    the loadpoint's name, of an earlier release. *)
Record HoldStore : Type := mkHoldStore {
  hkUnbound : string; hkClear : string; hkBinding : string; hkLegacy : bool; hkHolds : gmap string holdText
}.
Record pendingManualHold : Type := mkPendingHold { pmHold : ManualHold; pmCleared : bool }.

(** One loadpoint's holds: the controller's and the manager's part. *)
Record HoldState : Type := mkHolds {
  hsHold : option ManualHold; hsRestored : option bool; hsBinding : option manualSessionBinding;
  hsIdleSince : option Time; hsUnplugged : option Time; hsUnconfirmed : bool; hsSaveError : bool;
  hsPending : option pendingManualHold; hsStore : option HoldStore
}.
Definition withHold (h : option ManualHold) (s : HoldState) : HoldState :=
  mkHolds h (hsRestored s) (hsBinding s) (hsIdleSince s) (hsUnplugged s) (hsUnconfirmed s) (hsSaveError s) (hsPending s) (hsStore s).
Definition withProof (restored : option bool) (binding : option manualSessionBinding) (s : HoldState) : HoldState :=
  mkHolds (hsHold s) restored binding (hsIdleSince s) (hsUnplugged s) (hsUnconfirmed s) (hsSaveError s) (hsPending s) (hsStore s).
Definition withTimers (idle unplugged : option Time) (s : HoldState) : HoldState :=
  mkHolds (hsHold s) (hsRestored s) (hsBinding s) idle unplugged (hsUnconfirmed s) (hsSaveError s) (hsPending s) (hsStore s).
Definition withUnconfirmed (b : bool) (s : HoldState) : HoldState :=
  mkHolds (hsHold s) (hsRestored s) (hsBinding s) (hsIdleSince s) (hsUnplugged s) b (hsSaveError s) (hsPending s) (hsStore s).
Definition withSaved (err : bool) (pending : option pendingManualHold) (st : option HoldStore) (s : HoldState) : HoldState :=
  mkHolds (hsHold s) (hsRestored s) (hsBinding s) (hsIdleSince s) (hsUnplugged s) (hsUnconfirmed s) err pending st.
Definition resetManualIdle (s : HoldState) : HoldState := withTimers None (hsUnplugged s) s.

(** [flushManualHold], with the hardware the charger proves now. *)
Definition flushManualHold (current : manualSessionBinding) (s : HoldState) : HoldState :=
  match hsPending s, hsStore s with
  | Some p, Some st =>
      let keeps := negb (pmCleared p) && mlPersistent (pmHold p) in
      let restriction := if keeps then (if feq (mlPowerW (pmHold p)) (of_Z 0) then "pause"%string else "unconfirmed"%string) else "clear"%string in
      if String.eqb (mbDevice current) "" then
        withSaved false (hsPending s) (Some (mkHoldStore restriction (hkClear st) (hkBinding st) (hkLegacy st) (hkHolds st))) s
      else if keeps && (negb (finite (mlPowerW (pmHold p))) || flt (mlPowerW (pmHold p)) (of_Z 0)) then withSaved true (hsPending s) (hsStore s) s
      else
        let text := if keeps then Stored (mkStoredHold 1 (mbDevice current) (mbSession current) (pmHold p)) else Cleared in
        withSaved false None (Some (mkHoldStore "" "" (mbDevice current) false (<[mbDevice current := text]> (hkHolds st)))) s
  | _, _ => s
  end.
Definition PersistManualHold (current : manualSessionBinding) (h : ManualHold) (cleared : bool) (s : HoldState) : HoldState :=
  flushManualHold current (withSaved (hsSaveError s) (Some (mkPendingHold h cleared)) (hsStore s) s).

(** A text under [device]'s key that may still hold something. *)
Definition mayHold (st : HoldStore) (device : string) : bool :=
  match hkHolds st !! device with Some Cleared => false | _ => true end.
Inductive restoreStatus : Type := RNone | RPending | RRestored | RUnconfirmed.

Definition validRecord (device : string) (r : storedManualHold) : bool :=
  (thVersion r =? 1) && String.eqb (thDevice r) device && mlPersistent (thHold r) && IsZero (mlExpiresAt (thHold r)) &&
  finite (mlPowerW (thHold r)) && negb (flt (mlPowerW (thHold r)) (of_Z 0)).

Definition RestoreManualHold (current : manualSessionBinding) (s : HoldState) : ManualHold * restoreStatus * HoldState :=
  let device := mbDevice current in
  let clearNow := flushManualHold current (withSaved (hsSaveError s) (Some (mkPendingHold noHold true)) (hsStore s) s) in
  match hsStore s with
  | None => (noHold, RNone, s)
  | Some st =>
      if negb (String.eqb (hkUnbound st) "") then
        if String.eqb (hkUnbound st) "clear" then (noHold, RNone, clearNow)
        else if String.eqb (hkUnbound st) "pause" then (pauseHold, RRestored, s)
        else (pauseHold, RUnconfirmed, s)
      else if String.eqb (hkClear st) "pending" then (noHold, RNone, clearNow)
      else if String.eqb device "" then
        if (negb (String.eqb (hkBinding st) "") && mayHold st (hkBinding st)) || hkLegacy st then (pauseHold, RPending, s) else (noHold, RPending, s)
      else
        match hkHolds st !! device with
        | None => if (negb (String.eqb (hkBinding st) "") && mayHold st (hkBinding st)) || hkLegacy st
                  then (pauseHold, RUnconfirmed, s) else (noHold, RNone, s)
        | Some Cleared => (noHold, RNone, s)
        | Some Broken => (pauseHold, RUnconfirmed, s)
        | Some (Stored r) =>
            if negb (validRecord device r) then (pauseHold, RUnconfirmed, s)
            else if feq (mlPowerW (thHold r)) (of_Z 0) || String.eqb (thSession r) "" || String.eqb (mbSession current) (thSession r)
            then (thHold r, RRestored, s)
            else if String.eqb (mbSession current) "" then (pauseHold, RPending, s)
            else (pauseHold, RUnconfirmed, s)
        end
  end.

(** ** Explicit actions *)
(** [markManualExplicit]: whether it is the first decision since the start. *)
Definition markManualExplicit (current : manualSessionBinding) (s : HoldState) : bool * HoldState :=
  (negb (default false (hsRestored s)), withUnconfirmed false (withProof (Some true) (Some current) s)).
Definition setManualHold (now : Time) (current : manualSessionBinding) (h : ManualHold) (s : HoldState) : HoldState :=
  let s := snd (markManualExplicit current s) in
  if IsZero (mlExpiresAt h) && negb (mlPersistent h)
  then PersistManualHold current noHold true (resetManualIdle (withHold None s))
  else
    let h := stampHold now h in
    let s := resetManualIdle (withHold (Some h) s) in
    if negb (mlPersistent h) then PersistManualHold current noHold true s else PersistManualHold current h false s.
Definition clearManualHold (current : manualSessionBinding) (s : HoldState) : HoldState :=
  let '(first, s) := markManualExplicit current s in
  let existed := match hsHold s with Some _ => true | None => false end in
  let s := withHold None s in
  resetManualIdle (if existed || first then PersistManualHold current noHold true s else s).

(** [GetManualHold]: a hold whose time is over is dropped. *)
Definition getHold (now : Time) (s : HoldState) : option ManualHold * HoldState :=
  match hsHold s with
  | Some h => if expired now h then (None, withHold None s) else (Some h, s)
  | None => (None, s)
  end.
Definition SetManualHoldIfOwn (now : Time) (current : manualSessionBinding) (h : ManualHold) (s : HoldState) : bool * HoldState :=
  let '(cur, s) := getHold now s in
  match cur with
  | Some c => if negb (String.eqb (mlSetBy c) (mlSetBy h)) then (false, s) else (true, setManualHold now current h s)
  | None => (true, setManualHold now current h s)
  end.
Definition ClearManualHoldIfOwn (now : Time) (current : manualSessionBinding) (setBy : string) (s : HoldState) : bool * HoldState :=
  let '(cur, s) := getHold now s in
  match cur with
  | Some c => if negb (String.eqb (mlSetBy c) setBy) then (false, s) else (true, clearManualHold current s)
  | None => (false, s)
  end.
Definition releaseManualHoldIfCurrent (current : manualSessionBinding) (expected : ManualHold) (s : HoldState) : bool * HoldState :=
  match hsHold s with
  | Some h => if negb (holdEq h expected) then (false, s) else (true, clearManualHold current s)
  | None => (false, s)
  end.

(** ** Each reading against the binding *)
(** The binding a reading leaves, and whether it is another car's. *)
Definition compareBinding (previous : option manualSessionBinding) (current : manualSessionBinding) : bool * manualSessionBinding :=
  match previous with
  | None => (false, current)
  | Some p =>
      let changed := negb (mbConfiguration p =? mbConfiguration current) in
      let reconnected := mbProofLost p ||
        (negb (mbConnection p =? 0) && negb (mbConnection current =? 0) && negb (mbConnection p =? mbConnection current)) in
      let carry c := if String.eqb (mbSession current) "" && negb c
                     then mkBinding (mbDevice current) (mbSession p) (mbGeneration current) (mbConfiguration current) (mbConnection current) (mbProofLost current)
                     else current in
      if String.eqb (mbDevice p) "" then (changed, current)
      else if String.eqb (mbDevice current) "" then
        (changed, if changed then current
                  else mkBinding (mbDevice p) (mbSession p) (mbGeneration p) (mbConfiguration p) (mbConnection p) true)
      else
        let changed := changed || negb (String.eqb (mbDevice p) (mbDevice current)) || otherSession p current in
        let changed := if reconnected then changed else changed || negb (mbGeneration p =? mbGeneration current) in
        (changed, carry changed)
  end.

(** The record of an earlier run, once per start. *)
Definition restoreOnce (current : manualSessionBinding) (s : HoldState) : HoldState :=
  if default false (hsRestored s) then s
  else
    let '(h, status, s) := RestoreManualHold current s in
    let hadPending := match hsRestored s with Some _ => true | None => false end in
    match status with
    | RPending => if mlPersistent h then withUnconfirmed true (withHold (Some h) (withProof (Some false) (hsBinding s) s)) else s
    | RRestored => withUnconfirmed false (withHold (Some h) (withProof (Some true) (hsBinding s) s))
    | RUnconfirmed => withUnconfirmed true (withHold (Some h) (withProof (Some true) (hsBinding s) s))
    | RNone =>
        let s := withProof (Some true) (hsBinding s) s in
        if hadPending then withUnconfirmed false (withHold None s) else s
    end.
Definition restoreManualHoldForSession (current : manualSessionBinding) (s : HoldState) : HoldState :=
  let '(changed, bound) := compareBinding (hsBinding s) current in
  let s := withProof (hsRestored s) (Some bound) s in
  let pending := match hsRestored s with Some done => negb done | None => false end in
  match hsHold s with
  | Some h =>
      if changed && negb pending then
        let s := if flt (of_Z 0) (mlPowerW h) then withUnconfirmed true (withHold (Some pauseHold) s) else s in
        resetManualIdle (PersistManualHold current pauseHold false (withProof (Some true) (Some bound) s))
      else restoreOnce current s
  | None => restoreOnce current s
  end.

(** The first reading after a short unplug. *)
Definition rebindAfterUnplug (current : manualSessionBinding) (s : HoldState) : HoldState :=
  match hsHold s, hsBinding s with
  | Some _, Some p =>
      let other := (negb (String.eqb (mbDevice p) "") && negb (String.eqb (mbDevice current) "") &&
                    negb (String.eqb (mbDevice p) (mbDevice current))) || otherSession p current in
      if other then clearManualHold current s
      else if String.eqb (mbDevice current) "" then s
      else
        withProof (hsRestored s)
          (Some (if String.eqb (mbSession current) ""
                 then mkBinding (mbDevice current) (mbSession p) (mbGeneration current) (mbConfiguration current) (mbConnection current) (mbProofLost current)
                 else current)) s
  | _, _ => s
  end.
(** [holdInUnplugGrace]: whether a hold waits out the grace. *)
Definition holdInUnplugGrace (now : Time) (connected : bool) (current : manualSessionBinding) (s : HoldState) : bool * HoldState :=
  if connected then
    (false, match hsUnplugged s with
            | Some _ => rebindAfterUnplug current (withTimers (hsIdleSince s) None s)
            | None => s
            end)
  else
    let since := default now (hsUnplugged s) in
    let s := withTimers (hsIdleSince s) (Some since) s in
    (match hsHold s with Some _ => Sub now since <? UnplugGrace | None => false end, s).

(** ** The release *)
Definition manualHoldIdleFor (now : Time) (s : HoldState) : Duration * HoldState :=
  match hsIdleSince s with
  | Some since => (Sub now since, s)
  | None => (0, withTimers (Some now) (hsUnplugged s) s)
  end.
Definition releaseCompletedManualHold (now : Time) (requestActive : bool) (currentSoC : option f64) (current : manualSessionBinding)
    (s : HoldState) : HoldState :=
  let '(hold, s) := getHold now s in
  let s :=
    match hold with
    | Some h =>
        if flt (of_Z 0) (mlPowerW h) then
          if negb requestActive then
            let '(idle, s) := manualHoldIdleFor now s in
            if SessionCompletionTimeout <=? idle then snd (releaseManualHoldIfCurrent current h s) else s
          else resetManualIdle s
        else s
    | None => s
    end in
  let '(hold, s) := getHold now s in
  match hold, currentSoC with
  | Some h, Some soc =>
      if flt (of_Z 0) (mlReleaseAtSoC h) && fle (mlReleaseAtSoC h) soc then snd (releaseManualHoldIfCurrent current h s) else s
  | _, _ => s
  end.

(** ** A tick, as far as the hold goes *)
Record HoldTick : Type := mkHoldTick {
  htNow : Time; htUnknown : bool; htConnected : bool; htCurrent : manualSessionBinding;
  htRequest : bool; htSoC : option f64; htOnline : bool; htAllowed : bool
}.
(** [observeTick], the release, and [tickOne]'s end of an unplugged hold. *)
Definition holdTick (k : HoldTick) (s : HoldState) : HoldState :=
  let now := htNow k in
  let current := htCurrent k in
  let s :=
    if htUnknown k then restoreManualHoldForSession current s
    else
      let '(grace, s) := holdInUnplugGrace now (htConnected k) current (flushManualHold current s) in
      if grace then s else restoreManualHoldForSession current s in
  let s := if htAllowed k && htConnected k && negb (htUnknown k) && htOnline k
           then releaseCompletedManualHold now (htRequest k) (htSoC k) current s else s in
  if htUnknown k || htConnected k then s
  else if match hsUnplugged s with Some since => UnplugGrace <=? Sub now since | None => true end then clearManualHold current s else s.

(** What reaches a loadpoint's hold: the owner's calls, an agent's, a read, a tick. *)
Inductive holdOp : Type :=
| OpSet (now : Time) (current : manualSessionBinding) (h : ManualHold)
| OpClear (current : manualSessionBinding)
| OpSetOwn (now : Time) (current : manualSessionBinding) (h : ManualHold)
| OpClearOwn (now : Time) (current : manualSessionBinding) (setBy : string)
| OpGet (now : Time)
| OpTick (k : HoldTick).
Definition holdStep (s : HoldState) (op : holdOp) : HoldState :=
  match op with
  | OpSet now current h => setManualHold now current h s
  | OpClear current => clearManualHold current s
  | OpSetOwn now current h => snd (SetManualHoldIfOwn now current h s)
  | OpClearOwn now current setBy => snd (ClearManualHoldIfOwn now current setBy s)
  | OpGet now => snd (getHold now s)
  | OpTick k => holdTick k s
  end.
(** A process that starts over what an earlier one stored. *)
Definition booted (st : option HoldStore) : HoldState := mkHolds None None None None None false false None st.
Definition ticks (l : list HoldTick) (s : HoldState) : HoldState := fold_left (fun s k => holdTick k s) l s.

(** ** Lemmas: what the proofs read of the state *)
Definition positive (s : HoldState) : bool := match hsHold s with Some h => flt (of_Z 0) (mlPowerW h) | None => false end.
Definition sameView (a b : HoldState) : Prop :=
  hsHold a = hsHold b /\ hsRestored a = hsRestored b /\ hsBinding a = hsBinding b.
(** The hold was dropped by someone, or nothing changed. *)
Definition dropped (s : HoldState) : Prop := hsHold s = None /\ hsRestored s = Some true.

Lemma pause_not_positive s : positive (withHold (Some pauseHold) s) = false.
Proof. exact (flt_irrefl (of_Z 0)). Qed.

Lemma flush_view current s : sameView (flushManualHold current s) s.
Proof. unfold flushManualHold. cbv zeta. repeat case_scrut; split_and!; reflexivity. Qed.
Lemma persist_view current h c s : sameView (PersistManualHold current h c s) s.
Proof. destruct (flush_view current (withSaved (hsSaveError s) (Some (mkPendingHold h c)) (hsStore s) s)) as (A & B & C). split_and!; assumption. Qed.

Lemma clear_dropped current s : dropped (clearManualHold current s).
Proof.
  unfold clearManualHold, markManualExplicit. cbv zeta. destruct (_ || _); [|split; reflexivity].
  set (s1 := withHold None _). destruct (persist_view current noHold true s1) as (A & B & _).
  split; cbn [hsHold hsRestored resetManualIdle withTimers]; [now rewrite A|now rewrite B].
Qed.

Lemma release_view current h s : sameView (snd (releaseManualHoldIfCurrent current h s)) s \/ dropped (snd (releaseManualHoldIfCurrent current h s)).
Proof.
  unfold releaseManualHoldIfCurrent. destruct (hsHold s) as [x|]; [|left; split_and!; reflexivity].
  destruct (negb _); [left; split_and!; reflexivity|right; apply clear_dropped].
Qed.

(** The same hold and binding, or no hold and the decision as before. *)
Definition kept (s' s : HoldState) : Prop :=
  sameView s' s \/ hsHold s' = None /\ (hsRestored s' = Some true \/ hsRestored s' = hsRestored s).
Lemma kept_trans a b c : kept a b -> kept b c -> kept a c.
Proof.
  intros [(A1 & A2 & A3)|[A1 A2]] [(B1 & B2 & B3)|[B1 B2]]; unfold kept, sameView.
  - left. split_and!; congruence.
  - right. rewrite A1, A2. now split.
  - right. rewrite <- B2. now split.
  - right. split; [exact A1|]. destruct A2 as [A2|A2], B2 as [B2|B2]; rewrite A2; auto.
Qed.
Lemma kept_refl s : kept s s. Proof. left. split_and!; reflexivity. Qed.
Lemma get_kept now s : kept (snd (getHold now s)) s.
Proof. unfold getHold. destruct (hsHold s) as [h|] eqn:E; [|apply kept_refl]. destruct (expired now h); [right; auto|apply kept_refl]. Qed.
Lemma released_kept current h s : kept (snd (releaseManualHoldIfCurrent current h s)) s.
Proof. destruct (release_view current h s) as [V|[A B]]; [now left|right; auto]. Qed.

Lemma completed_kept now q soc current s : kept (releaseCompletedManualHold now q soc current s) s.
Proof.
  unfold releaseCompletedManualHold. pose proof (get_kept now s) as G. destruct (getHold now s) as [hold s1]. cbn [snd] in G.
  set (s2 := match hold with Some h => _ | None => s1 end).
  assert (K : kept s2 s).
  { apply (kept_trans _ s1); [|exact G]. unfold s2. destruct hold as [h|]; [|apply kept_refl].
    destruct (flt (of_Z 0) (mlPowerW h)); [|apply kept_refl]. destruct (negb q); [|left; split_and!; reflexivity].
    unfold manualHoldIdleFor. destruct (hsIdleSince s1); (destruct (SessionCompletionTimeout <=? _); [|left; split_and!; reflexivity]).
    - apply released_kept.
    - apply (kept_trans _ (withTimers (Some now) (hsUnplugged s1) s1)); [apply released_kept|left; split_and!; reflexivity]. }
  clearbody s2. pose proof (get_kept now s2) as H. destruct (getHold now s2) as [hold2 s3]. cbn [snd] in H.
  pose proof (kept_trans _ _ _ H K) as L. destruct hold2 as [h|]; [|exact L]. destruct soc as [x|]; [|exact L].
  destruct (_ && _); [|exact L]. exact (kept_trans _ _ _ (released_kept current h s3) L).
Qed.

(** ** Lemmas: the binding *)
Lemma bound_names prev cur : mbDevice cur <> ""%string -> let b := snd (compareBinding prev cur) in
  mbDevice b = mbDevice cur /\ (mbSession cur <> ""%string -> mbSession b = mbSession cur).
Proof.
  intros N. cbv zeta. unfold compareBinding. destruct prev as [p|]; [|split; reflexivity]. cbv zeta.
  destruct (String.eqb (mbDevice p) ""); [split; reflexivity|]. rewrite (proj2 (String.eqb_neq _ _) N). cbn [snd].
  destruct (String.eqb (mbSession cur) "" && _) eqn:E; [|split; reflexivity]. cbn [mbDevice mbSession]. split; [reflexivity|].
  intros S. apply andb_true_iff in E as [E _]. apply String.eqb_eq in E. contradiction.
Qed.

(** Bound to this device, and to this session once it is named. *)
Definition boundTo (d se : string) (s : HoldState) : Prop :=
  exists b, hsBinding s = Some b /\ mbDevice b = d /\ (se <> ""%string -> mbSession b = se).

Lemma same_session p cur se : otherSession p cur = false -> mbSession p = se -> se <> ""%string -> mbSession cur <> ""%string -> mbSession cur = se.
Proof.
  unfold otherSession. intros O <- A B. rewrite (proj2 (String.eqb_neq _ _) A), (proj2 (String.eqb_neq _ _) B) in O. cbn [negb andb] in O.
  apply negb_false_iff, String.eqb_eq in O. now symmetry.
Qed.

Lemma compare_kept p cur d se b : compareBinding (Some p) cur = (false, b) -> mbDevice p = d -> d <> ""%string ->
  (se <> ""%string -> mbSession p = se) ->
  mbDevice b = d /\ (se <> ""%string -> mbSession b = se) /\
  (mbDevice cur <> ""%string -> mbDevice cur = d /\ (se <> ""%string -> mbSession cur <> ""%string -> mbSession cur = se)).
Proof.
  intros C <- N S. unfold compareBinding in C. cbv zeta in C. rewrite (proj2 (String.eqb_neq _ _) N) in C.
  destruct (String.eqb_spec (mbDevice cur) "") as [E|E].
  { injection C as Ch <-. rewrite Ch. cbn [mbDevice mbSession]. split_and!; [reflexivity|exact S|contradiction]. }
  injection C as Ch <-. rewrite Ch. cbn [negb]. rewrite andb_true_r.
  assert (O : String.eqb (mbDevice p) (mbDevice cur) = true /\ otherSession p cur = false).
  { destruct (mbProofLost p || _); [|apply orb_false_iff in Ch as [Ch _]]; apply orb_false_iff in Ch as [Ch O];
      apply orb_false_iff in Ch as [_ Ch]; apply negb_false_iff in Ch; now split. }
  destruct O as [D O]. apply String.eqb_eq in D. split_and!.
  - destruct (String.eqb (mbSession cur) ""); cbn [mbDevice]; now symmetry.
  - intros H. destruct (String.eqb_spec (mbSession cur) "") as [X|X]; cbn [mbSession]; [now apply S|]. exact (same_session p cur se O (S H) H X).
  - intros _. split; [now symmetry|]. intros H X. exact (same_session p cur se O (S H) H X).
Qed.

(** ** Lemmas: a tick *)
(** Decided, and no power that another car could inherit. *)
Definition powerless (s : HoldState) : Prop := positive s = false /\ hsRestored s = Some true.
Definition tied (d se : string) (s : HoldState) : Prop := powerless s \/ hsRestored s = Some true /\ boundTo d se s.

Lemma kept_tied d se s' s : kept s' s -> tied d se s -> tied d se s'.
Proof.
  intros [(A & B & C)|[A B]] T.
  - destruct T as [[P R]|[R (b & E & F)]]; [left; unfold powerless, positive; rewrite A, B; now split|].
    right. split; [now rewrite B|]. exists b. rewrite C. now split.
  - left. split; [unfold positive; now rewrite A|]. destruct B as [B|B]; [exact B|]. rewrite B. destruct T as [[_ R]|[R _]]; exact R.
Qed.
Lemma dropped_tied d se s : dropped s -> tied d se s.
Proof. intros [A B]. left. split; [unfold positive; now rewrite A|exact B]. Qed.

Lemma restore_decided current s : hsRestored s = Some true -> restoreOnce current s = s.
Proof. unfold restoreOnce. intros ->. reflexivity. Qed.

Lemma restore_session_tied d se current s : d <> ""%string -> tied d se s ->
  let s' := restoreManualHoldForSession current s in
  tied d se s' /\ (positive s' = true -> mbDevice current <> ""%string ->
    mbDevice current = d /\ (se <> ""%string -> mbSession current <> ""%string -> mbSession current = se)).
Proof.
  intros N T. cbv zeta. unfold restoreManualHoldForSession.
  assert (R : hsRestored s = Some true) by (destruct T as [[_ R]|[R _]]; exact R).
  destruct (compareBinding (hsBinding s) current) as [ch b] eqn:C. rewrite R. cbv zeta. cbn [negb].
  set (s1 := withProof (Some true) (Some b) s). rewrite andb_true_r.
  assert (Once : restoreOnce current s1 = s1) by now apply restore_decided.
  change (hsHold s1) with (hsHold s). destruct (hsHold s) as [h|] eqn:H.
  - destruct ch.
    + assert (L : powerless (resetManualIdle (PersistManualHold current pauseHold false
        (withProof (Some true) (Some b) (if flt (of_Z 0) (mlPowerW h) then withUnconfirmed true (withHold (Some pauseHold) s1) else s1))))).
      { set (x := withProof _ _ _). destruct (persist_view current pauseHold false x) as (A & B & _). unfold powerless, positive.
        cbn [hsHold hsRestored resetManualIdle withTimers]. rewrite A, B. split; [|reflexivity]. unfold x.
        destruct (flt (of_Z 0) (mlPowerW h)) eqn:P; cbn [hsHold withProof withUnconfirmed withHold];
          [exact (flt_irrefl (of_Z 0))|unfold s1; cbn [hsHold withProof]; now rewrite H]. }
      split; [left; exact L|]. destruct L as [L _]. intros X. congruence.
    + rewrite Once. destruct T as [[P _]|[_ (p & E & D & S)]].
      { assert (L : positive s1 = false) by exact P. split; [left; now split|intros X; congruence]. }
      rewrite E in C. destruct (compare_kept p current d se b C D N S) as (K1 & K2 & K3).
      split; [|intros _; exact K3]. right. split; [reflexivity|]. exists b. now split.
  - rewrite Once. assert (L : positive s1 = false) by (unfold positive, s1; cbn [hsHold withProof]; now rewrite H).
    split; [left; now split|intros X; congruence].
Qed.

Lemma rebind_tied d se current s : d <> ""%string -> tied d se s -> tied d se (rebindAfterUnplug current s).
Proof.
  intros N T. unfold rebindAfterUnplug. destruct (hsHold s) as [h|] eqn:H; [|exact T]. destruct (hsBinding s) as [p|] eqn:B; [|exact T].
  cbv zeta. destruct (_ || otherSession p current) eqn:O; [apply dropped_tied, clear_dropped|].
  destruct (String.eqb_spec (mbDevice current) "") as [E|E]; [exact T|]. apply orb_false_iff in O as [O1 O2].
  destruct T as [[P R]|[R (b & Eb & D & S)]]; [left; split; [exact P|exact R]|]. rewrite B in Eb. inversion Eb; subst b. right.
  split; [exact R|]. rewrite (proj2 (String.eqb_neq (mbDevice p) "")) in O1 by congruence.
  cbn [negb andb] in O1. apply negb_false_iff, String.eqb_eq in O1.
  destruct (String.eqb_spec (mbSession current) "") as [X|X]; eexists; split; [reflexivity| |reflexivity|]; cbn [mbDevice mbSession].
  - split; [congruence|exact S].
  - split; [congruence|]. intros W. exact (same_session p current se O2 (S W) W X).
Qed.

Lemma view_tied d se s' s : sameView s' s -> tied d se s -> tied d se s'.
Proof. intros V. apply kept_tied. now left. Qed.

Lemma grace_tied d se now connected current s : d <> ""%string -> tied d se s ->
  tied d se (snd (holdInUnplugGrace now connected current s)).
Proof.
  intros N T. unfold holdInUnplugGrace. destruct connected; cbn [snd]; [|apply (view_tied d se _ s); [split_and!; reflexivity|exact T]].
  destruct (hsUnplugged s); [|exact T]. apply rebind_tied; [exact N|]. apply (view_tied d se _ s); [split_and!; reflexivity|exact T].
Qed.

(** The state a tick's reading leaves, before the release and the end of an unplugged hold. *)
Definition observed (k : HoldTick) (s : HoldState) : HoldState :=
  if htUnknown k then restoreManualHoldForSession (htCurrent k) s
  else
    let '(grace, s) := holdInUnplugGrace (htNow k) (htConnected k) (htCurrent k) (flushManualHold (htCurrent k) s) in
    if grace then s else restoreManualHoldForSession (htCurrent k) s.

Lemma tick_kept k s : kept (holdTick k s) (observed k s).
Proof.
  unfold holdTick. fold (observed k s). cbv zeta. set (s1 := observed k s). set (s2 := if _ && htOnline k then _ else s1).
  assert (K : kept s2 s1) by (unfold s2; destruct (_ && htOnline k); [apply completed_kept|apply kept_refl]). clearbody s2.
  destruct (htUnknown k || htConnected k); [exact K|]. destruct (match hsUnplugged s2 with Some _ => _ | None => _ end); [|exact K].
  destruct (clear_dropped (htCurrent k) s2) as [A B]. right. auto.
Qed.

Lemma kept_positive s' s : kept s' s -> positive s' = true -> sameView s' s.
Proof. intros [V|[A _]]; [auto|]. unfold positive. rewrite A. discriminate. Qed.

Lemma tick_tied d se k s : d <> ""%string -> tied d se s ->
  tied d se (holdTick k s) /\
  (positive (holdTick k s) = true -> htConnected k = true -> mbDevice (htCurrent k) <> ""%string ->
     mbDevice (htCurrent k) = d /\ (se <> ""%string -> mbSession (htCurrent k) <> ""%string -> mbSession (htCurrent k) = se)).
Proof.
  intros N T. assert (O : tied d se (observed k s) /\ (positive (observed k s) = true -> htConnected k = true ->
    mbDevice (htCurrent k) <> ""%string ->
    mbDevice (htCurrent k) = d /\ (se <> ""%string -> mbSession (htCurrent k) <> ""%string -> mbSession (htCurrent k) = se))).
  { unfold observed. destruct (htUnknown k).
    - destruct (restore_session_tied d se (htCurrent k) s N T) as [A B]. auto.
    - pose proof (view_tied d se _ _ (flush_view (htCurrent k) s) T) as F.
      pose proof (grace_tied d se (htNow k) (htConnected k) (htCurrent k) _ N F) as G.
      destruct (holdInUnplugGrace _ _ _ _) as [grace s1] eqn:E. cbn [snd] in G. destruct grace.
      + split; [exact G|]. intros _ C. rewrite C in E. discriminate E.
      + destruct (restore_session_tied d se (htCurrent k) s1 N G) as [A B]. auto. }
  destruct O as [O1 O2]. pose proof (tick_kept k s) as K. split; [exact (kept_tied _ _ _ _ K O1)|].
  intros P. apply O2. destruct (kept_positive _ _ K P) as (A & _). unfold positive in *. now rewrite <- A.
Qed.

(** ** Lemmas: from the start of the process *)
(** Power waits for a decision: an undecided hold is a pause. *)
Definition decided (s : HoldState) : Prop := positive s = true -> hsRestored s = Some true.

Lemma restore_pending current s : let '(h, status, s') := RestoreManualHold current s in
  sameView s' s /\ (status = RPending -> flt (of_Z 0) (mlPowerW h) = false).
Proof.
  assert (V : forall p, sameView (flushManualHold current (withSaved (hsSaveError s) p (hsStore s) s)) s).
  { intros p. destruct (flush_view current (withSaved (hsSaveError s) p (hsStore s) s)) as (A & B & C). split_and!; assumption. }
  assert (Z0 : flt (of_Z 0) (of_Z 0) = false) by apply flt_irrefl.
  unfold RestoreManualHold. cbv zeta. repeat case_scrut; (split; [first [apply V|split_and!; reflexivity]|]);
    intros X; first [discriminate X|exact Z0].
Qed.

Lemma once_decided current s : decided s -> let s' := restoreOnce current s in
  decided s' /\ hsBinding s' = hsBinding s.
Proof.
  intros D. cbv zeta. unfold restoreOnce. destruct (default false (hsRestored s)); [now split|].
  pose proof (restore_pending current s) as R. destruct (RestoreManualHold current s) as [[h status] s1]. destruct R as ((A & B & C) & P).
  destruct status.
  - destruct (match hsRestored s1 with Some _ => true | None => false end); (split; [|exact C]); intros _; reflexivity.
  - destruct (mlPersistent h); [|split; [|exact C]].
    + split; [|exact C]. intros X. unfold positive in X. cbn [hsHold withUnconfirmed withHold withProof] in X. rewrite (P eq_refl) in X. discriminate X.
    + unfold decided, positive. rewrite A, B. exact D.
  - split; [|exact C]. intros _; reflexivity.
  - split; [|exact C]. intros _; reflexivity.
Qed.

Lemma session_decided current s : decided s -> decided (restoreManualHoldForSession current s).
Proof.
  intros D. unfold restoreManualHoldForSession. destruct (compareBinding (hsBinding s) current) as [ch b]. cbv zeta.
  set (s1 := withProof (hsRestored s) (Some b) s). assert (D1 : decided s1) by exact D.
  destruct (once_decided current s1 D1) as [O _]. destruct (hsHold s1) as [h|]; [|exact O].
  destruct (ch && _); [|exact O]. set (x := withProof (Some true) _ _). destruct (persist_view current pauseHold false x) as (_ & R & _).
  intros _. cbn [hsRestored resetManualIdle withTimers]. now rewrite R.
Qed.
Lemma session_bound current s : mbDevice current <> ""%string ->
  boundTo (mbDevice current) (mbSession current) (restoreManualHoldForSession current s).
Proof.
  intros N. unfold restoreManualHoldForSession. pose proof (bound_names (hsBinding s) current N) as K.
  destruct (compareBinding (hsBinding s) current) as [ch b]. cbv zeta in *. cbn [snd] in K.
  set (s1 := withProof (hsRestored s) (Some b) s).
  assert (O : hsBinding (restoreOnce current s1) = Some b).
  { unfold restoreOnce. destruct (default false (hsRestored s1)); [reflexivity|]. pose proof (restore_pending current s1) as R.
    destruct (RestoreManualHold current s1) as [[h status] s2]. destruct R as ((_ & _ & B) & _).
    destruct status; repeat case_scrut; exact B. }
  assert (P : boundTo (mbDevice current) (mbSession current) (restoreOnce current s1)) by (exists b; split; [exact O|exact K]).
  destruct (hsHold s1) as [h|]; [|exact P]. destruct (ch && _); [|exact P].
  set (x := withProof (Some true) _ _). destruct (persist_view current pauseHold false x) as (_ & _ & B).
  exists b. split; [exact B|exact K].
Qed.

Lemma kept_decided s' s : kept s' s -> decided s -> decided s'.
Proof. intros K D P. destruct (kept_positive _ _ K P) as (A & B & _). rewrite B. apply D. unfold positive in *. now rewrite <- A. Qed.
Lemma dropped_decided s : dropped s -> decided s.
Proof. intros [_ R] _. exact R. Qed.
Lemma grace_decided now connected current s : decided s -> decided (snd (holdInUnplugGrace now connected current s)).
Proof.
  intros D. unfold holdInUnplugGrace. destruct connected; [|exact D]. cbn [snd]. destruct (hsUnplugged s); [|exact D].
  unfold rebindAfterUnplug. cbn [hsHold hsBinding withTimers]. destruct (hsHold s); [|exact D]. destruct (hsBinding s); [|exact D].
  cbv zeta. destruct (_ || otherSession _ current); [apply dropped_decided, clear_dropped|]. destruct (String.eqb _ ""); exact D.
Qed.
Lemma tick_decided k s : decided s -> decided (holdTick k s).
Proof.
  intros D. apply (kept_decided _ (observed k s)); [apply tick_kept|]. unfold observed.
  destruct (htUnknown k); [now apply session_decided|].
  assert (F : decided (flushManualHold (htCurrent k) s)) by (apply (kept_decided _ s); [left; apply flush_view|exact D]).
  pose proof (grace_decided (htNow k) (htConnected k) (htCurrent k) _ F) as G.
  destruct (holdInUnplugGrace _ _ _ _) as [grace s1]. cbn [snd] in G. destruct grace; [exact G|now apply session_decided].
Qed.

Lemma tick_binds k s : decided s -> htConnected k = true -> mbDevice (htCurrent k) <> ""%string -> positive (holdTick k s) = true ->
  tied (mbDevice (htCurrent k)) (mbSession (htCurrent k)) (holdTick k s).
Proof.
  intros D C N P. right. split; [exact (tick_decided k s D P)|]. destruct (kept_positive _ _ (tick_kept k s) P) as (_ & _ & B).
  assert (O : boundTo (mbDevice (htCurrent k)) (mbSession (htCurrent k)) (observed k s)).
  { unfold observed. destruct (htUnknown k); [now apply session_bound|]. unfold holdInUnplugGrace. rewrite C. now apply session_bound. }
  destruct O as (b & E & K). exists b. split; [now rewrite B|exact K].
Qed.

Lemma explicit_decided current s : decided (snd (markManualExplicit current s)).
Proof. intros _. reflexivity. Qed.
Lemma persist_decided current h c s : decided s -> decided (PersistManualHold current h c s).
Proof. apply kept_decided. left. apply persist_view. Qed.
Lemma set_decided now current h s : decided (setManualHold now current h s).
Proof.
  unfold setManualHold. cbv zeta. destruct (_ && _); [apply persist_decided; intros _; reflexivity|].
  destruct (negb _); apply persist_decided; intros _; reflexivity.
Qed.
Lemma get_decided now s : decided s -> decided (snd (getHold now s)).
Proof. apply kept_decided, get_kept. Qed.

Lemma step_decided op s : decided s -> decided (holdStep s op).
Proof.
  intros D. destruct op as [now cu h|cu|now cu h|now cu by'|now|k]; cbn [holdStep].
  - apply set_decided.
  - apply dropped_decided, clear_dropped.
  - unfold SetManualHoldIfOwn. pose proof (get_decided now s D) as G. destruct (getHold now s) as [[c|] s1]; [|apply set_decided].
    destruct (negb _); [exact G|apply set_decided].
  - unfold ClearManualHoldIfOwn. pose proof (get_decided now s D) as G. destruct (getHold now s) as [[c|] s1]; [|exact G].
    destruct (negb _); [exact G|apply dropped_decided, clear_dropped].
  - now apply get_decided.
  - now apply tick_decided.
Qed.
Lemma steps_decided ops s : decided s -> decided (fold_left holdStep ops s).
Proof. revert s. induction ops as [|op ops IH]; intros s D; [exact D|]. apply IH, step_decided, D. Qed.

Lemma ticks_tied d se l s : d <> ""%string -> tied d se s -> tied d se (ticks l s).
Proof. intros N. revert s. induction l as [|k l IH]; intros s T; [exact T|]. apply IH, (tick_tied d se k s N T). Qed.


(** A hold of 7 kW, a tick with the car, a drop of the cable of twenty seconds
    without a session name, and the same car again: the hold is still there. *)
Definition sampleHold : ManualHold := mkManual (of_Z 7000) "" (of_Z 0) 0 (of_Z 0) (of_Z 0) 0 zeroTime true (of_Z 0) zeroTime zeroTime "".
Definition sampleBinding (se : string) (generation : Z) : manualSessionBinding := mkBinding "mac:1" se generation 1 1 false.
Definition sampleTick (t : Z) (connected : bool) (b : manualSessionBinding) : HoldTick :=
  mkHoldTick (t * 10 ^ 9) false connected b true None true true.
Definition sampleStore : HoldStore := mkHoldStore "" "" "" false ∅.

(** Another car's session ends it in a pause. *)
Example other_car_pauses :
  let s := holdTick (sampleTick 3 true (sampleBinding "s2" 1)) (holdTick (sampleTick 2 true (sampleBinding "s1" 1))
    (holdStep (booted (Some sampleStore)) (OpSet (10 ^ 9) (sampleBinding "s1" 1) sampleHold))) in
  (positive s, hsUnconfirmed s, match hsHold s with Some h => mlPersistent h | None => false end) = (false, true, true).
Proof. vm_compute. reflexivity. Qed.
