(* ===== verification/FuseShares.v ===== *)
(** * The fuse budget shared between chargers
    (go/internal/loadpoint: controller_fuse_budget.go, controller_fuse_demand.go)

    The cap the site leaves the cars is split once a tick, before any command,
    in priority order; what no charger took goes to the first charger with a
    share. *)
From Stdlib Require Import ZArith Lia.
From S2P Require Import Prelude Float64 GoTime LoadpointData ChargeSteps SurplusCharge ChargeTick.
From stdpp Require Import base gmap strings list.
#[local] Open Scope Z_scope.

(** ** Demands (controller_fuse_demand.go) *)
Definition recordFuseDemand (driver : string) (powerW : f64) (phaseMode : string) (ds : list FuseDemand) : list FuseDemand :=
  if String.eqb driver "" || negb (finite powerW) || fle powerW (of_Z 0) then ds
  else
    let mode :=
      if String.eqb phaseMode "" then "3p"%string
      else if negb (String.eqb phaseMode "1p") && negb (String.eqb phaseMode "3p") then "auto"%string else phaseMode in
    let fix go ds :=
      match ds with
      | [] => [mkDemand driver powerW mode]
      | d :: ds =>
          if String.eqb (fdDriver d) driver
          then mkDemand driver (bmax (fdPowerW d) powerW) (if String.eqb (fdMode d) mode then mode else "auto"%string) :: ds
          else d :: go ds
      end in
    go ds.

(** ** Phases *)
Definition creditA (w : World) (c : Ctl) (id : string) (phases : Z) : f64 :=
  let st := default noLPState (ctStates c !! id) in
  let v := fuseVoltage (site w) in
  if negb (lpCommandedKnown st) || fle (lpCommandedW st) (of_Z 0) || fle v (of_Z 0) ||
     (negb (lpCommandedPhases st =? 3) && negb (lpCommandedPhases st =? phases))
  then of_Z 0
  else fdiv (lpCommandedW st) (fmul v (of_Z (Z.min (lpCommandedPhases st) (Phases (site w))))).

Definition phaseRiseA (w : World) (c : Ctl) (id mode : string) (p split : f64) : f64 :=
  let v := fuseVoltage (site w) in
  if fle p (of_Z 0) || fle v (of_Z 0) then of_Z 0
  else
    let phases := commandPhases (site w) mode p split in
    fsub (fdiv p (fmul v (of_Z phases))) (creditA w c id phases).

Definition phaseRoomCapW (w : World) (c : Ctl) (id mode : string) (wantW split roomA : f64) : f64 :=
  let v := fuseVoltage (site w) in
  if fle v (of_Z 0) then wantW
  else
    let roomA := fmax (of_Z 0) roomA in
    let phases := commandPhases (site w) mode wantW split in
    let capW := fmul (fmul (fadd (creditA w c id phases) roomA) v) (of_Z phases) in
    let capW :=
      if (phases =? 3) && (commandPhases (site w) mode capW split =? 1)
      then fmin capW (fmul (fadd (creditA w c id 1) roomA) v) else capW in
    match ctStates c !! id with
    | Some st =>
        if lpCommandedKnown st && (0 <? lpCommandedPhases st) && flt capW (lpCommandedW st) &&
           (commandPhases (site w) mode (fmin wantW (lpCommandedW st)) split =? lpCommandedPhases st)
        then lpCommandedW st else capW
    | None => capW
    end.

Definition commandSplitW (now : Time) (cfg : LPConfig) (c : Ctl) : f64 :=
  match liveHold (ctHolds c) (cfID cfg) now with
  | Some h => if flt (of_Z 0) (mlPhaseSplitW h) then mlPhaseSplitW h else cfPhaseSplitW cfg
  | None => cfPhaseSplitW cfg
  end.

(** [FuseConfigs]: the chargers with the phases each names this tick. *)
Definition FuseConfigs (w : World) (c : Ctl) : list LPConfig :=
  (fun cfg =>
     let mode := chMode (choiceOf c (cfID cfg)) in
     if String.eqb mode "" then cfg else withPhaseMode mode (fuseConfig (site w) cfg mode)) <$> wdConfigs w.

(** ** Requests *)
Record fuseRequest : Type := mkRequest { rqCfg : LPConfig; rqDeadline : Time; rqWantW : f64; rqGoal : bool }.

Definition requestOf (w : World) (now : Time) (samples : gmap string EVSample) (c : Ctl) (cfg : LPConfig) : fuseRequest :=
  let id := cfID cfg in
  let sample := default noSample (samples !! cfDriver cfg) in
  let st := default noLPState (ctStates c !! id) in
  let rcfg := fuseConfig (site w) cfg (chMode (choiceOf c id)) in
  if negb (saConnected sample) || saConnectionUnknown sample || negb (wdOnline w (cfDriver cfg))
  then mkRequest rcfg (lpTargetTime st) (of_Z 0) false
  else
    match liveHold (ctHolds c) id now with
    | Some h =>
        let want := clampManualPower cfg h (site w) in
        mkRequest rcfg (lpTargetTime st) want (flt (of_Z 0) want)
    | None =>
        let want := fst (fst (computeCommandForBudget w now rcfg false c)) in
        let goal := flt (of_Z 0) want && negb (cfSurplusOnly cfg) in
        let want :=
          if cfSurplusOnly cfg || default false (suArmed (ctSurplus c) !! id) || wakeKickActive id now c ||
             (lpFinishAtVehicleLimit st && negb (lpGoalComplete st))
          then cfMaxChargeW cfg else want in
        let want := if reservedBy (currentDirective w c) id && saPowerUnavailable sample then of_Z 0 else want in
        mkRequest rcfg (lpTargetTime st) want goal
    end.

(** Required charging first, then the earlier deadline, then the ID. *)
Definition requestBefore (a b : fuseRequest) : bool :=
  if negb (Bool.eqb (rqGoal a) (rqGoal b)) then rqGoal a
  else if negb (Bool.eqb (IsZero (rqDeadline a)) (IsZero (rqDeadline b))) then negb (IsZero (rqDeadline a))
  else if negb (Equal (rqDeadline a) (rqDeadline b)) then Before (rqDeadline a) (rqDeadline b)
  else String.ltb (cfID (rqCfg a)) (cfID (rqCfg b)).
Fixpoint insertRequest (r : fuseRequest) (l : list fuseRequest) : list fuseRequest :=
  match l with [] => [r] | x :: l => if requestBefore x r then x :: insertRequest r l else r :: x :: l end.
(** [sort.SliceStable] *)
Definition sortRequests (l : list fuseRequest) : list fuseRequest := foldr insertRequest [] l.

(** ** The split *)
Record shares : Type := mkShares {
  shLeft : f64; shRoomA : f64; shCaps : gmap string f64; shRooms : gmap string fuseRoom
}.
Definition shareW (w : World) (now : Time) (c : Ctl) (perPhase : bool) (left roomA : f64) (r : fuseRequest) : f64 :=
  let cfg := rqCfg r in
  let mode := chMode (choiceOf c (cfID cfg)) in
  let split := commandSplitW now cfg c in
  let want := fmin (rqWantW r) left in
  let want := if perPhase then fmin want (phaseRoomCapW w c (cfID cfg) mode want split roomA) else want in
  floorChargeW want (cfMinChargeW cfg) (cfMaxChargeW cfg) (cfSteps cfg).
Definition shareStep (w : World) (now : Time) (c : Ctl) (perPhase : bool) (s : shares) (r : fuseRequest) : shares :=
  let cfg := rqCfg r in
  let id := cfID cfg in
  let cap := shareW w now c perPhase (shLeft s) (shRoomA s) r in
  let phaseA :=
    if perPhase then fmax (of_Z 0) (phaseRiseA w c id (chMode (choiceOf c id)) cap (commandSplitW now cfg c)) else of_Z 0 in
  mkShares (fsub (shLeft s) cap) (if perPhase then fsub (shRoomA s) phaseA else shRoomA s)
    (<[id := cap]> (shCaps s)) (<[id := mkFuseRoom cap phaseA perPhase]> (shRooms s)).

(** What no charger took goes to the first charger with a share. *)
Fixpoint giveRest (restW restA : f64) (rs : list fuseRequest) (rooms : gmap string fuseRoom) : gmap string fuseRoom :=
  match rs with
  | [] => rooms
  | r :: rs =>
      let id := cfID (rqCfg r) in
      let room := default (mkFuseRoom (of_Z 0) (of_Z 0) false) (rooms !! id) in
      if fle (frW room) (of_Z 0) then giveRest restW restA rs rooms
      else <[id := mkFuseRoom (fadd (frW room) (fmax (of_Z 0) restW)) (fadd (frPhaseA room) (fmax (of_Z 0) restA))
                     (frPhaseKnown room)]> rooms
  end.

Definition splitBudget (w : World) (now : Time) (c : Ctl) (total : f64) (rs : list fuseRequest) : shares :=
  let '(roomA, perPhase) :=
    match wdPhaseRoomA w with
    | Some (Some a) => (a, finite a)
    | _ => (of_Z 0, false)
    end in
  let s := fold_left (shareStep w now c perPhase) rs (mkShares total roomA ∅ ∅) in
  mkShares (shLeft s) (shRoomA s) (shCaps s) (giveRest (shLeft s) (shRoomA s) rs (shRooms s)).

Definition setBudget (caps : option (gmap string f64)) (rooms : gmap string fuseRoom) (reason : string) (c : Ctl) : Ctl :=
  let t := ctTick c in
  withTick (mkTick (tkActive t) (tkDirective t) caps rooms reason (tkChoices t)) c.

(** The budget the site leaves the cars; [None]: none is known. *)
Definition fuseTotal (w : World) : option f64 :=
  match wdFuseEVMax w with
  | Some (Some total) => if flt total (of_Z 0) then None else Some (if finite total then total else of_Z 0)
  | _ => None
  end.

Definition freezeFuseBudget (w : World) (now : Time) (samples : gmap string EVSample) (c : Ctl) : Ctl :=
  let c := setBudget None ∅ "" c in
  match fuseTotal w with
  | None => c
  | Some total =>
      let reason := capReason w c in
      let rs := sortRequests (requestOf w now samples c <$> wdConfigs w) in
      let s := splitBudget w now c total rs in
      let c := withHolds (fold_left (fun h cfg => evict now (cfID cfg) h) (wdConfigs w) (ctHolds c)) c in
      setBudget (Some (shCaps s)) (shRooms s) reason c
  end.

(** ** The current an order may rise to *)
Definition capAmpsPerPhase (w : World) (cfg : LPConfig) (cmd : Cmd) (c : Ctl) : option f64 :=
  let p := num (kPowerW cmd) in
  let v := num (kVoltage cmd) in
  match tkRooms (ctTick c) !! cfID cfg with
  | None => None
  | Some room =>
      if negb (finite (frW room)) || negb (finite p) || fle p (of_Z 0) || negb (finite v) || fle v (of_Z 0) then None
      else
        let phases := commandPhases (site w) (str (kPhaseMode cmd)) p (num (kPhaseSplitW cmd)) in
        let capA := fdiv (frW room) (fmul v (of_Z phases)) in
        let capA := if frPhaseKnown room then fmin capA (fadd (creditA w c (cfID cfg) phases) (frPhaseA room)) else capA in
        let capA :=
          if flt (of_Z 0) (cfMaxChargeW cfg) then fmin capA (fdiv (cfMaxChargeW cfg) (fmul v (of_Z phases))) else capA in
        if negb (finite capA) then None
        else
          let capA := fdiv (ffloor (fadd (fmul (fmax (of_Z 0) capA) (of_Z 100)) (lit 1 1000000))) (of_Z 100) in
          Some (match kMaxAmps cmd with
                | Some limit => if finite limit && flt (of_Z 0) limit then fmin capA limit else capA
                | None => capA
                end)
  end.

(** ** Lemmas: the split *)
Lemma sort_permutation rs : Permutation (sortRequests rs) rs.
Proof.
  induction rs as [|r rs IH]; [reflexivity|]. cbn [sortRequests foldr]. fold (sortRequests rs).
  transitivity (r :: sortRequests rs); [|now constructor]. generalize (sortRequests rs). clear.
  induction l as [|x l IH]; [reflexivity|]. cbn [insertRequest]. destruct (requestBefore x r); [|reflexivity].
  rewrite IH. constructor.
Qed.

Section Split.
Variables (w : World) (now : Time) (c : Ctl) (perPhase : bool).
Definition idOf (r : fuseRequest) : string := cfID (rqCfg r).

(** The shares the split gives, in its order. *)
Fixpoint sharesOf (s : shares) (rs : list fuseRequest) : list f64 :=
  match rs with
  | [] => []
  | r :: rs => shareW w now c perPhase (shLeft s) (shRoomA s) r :: sharesOf (shareStep w now c perPhase s r) rs
  end.

Lemma share_fits left roomA r : le_rel (of_Z 0) left ->
  let cap := shareW w now c perPhase left roomA r in le_rel (of_Z 0) cap /\ le_rel cap left.
Proof.
  intros N. cbv zeta. split; [apply floor_nonneg|]. unfold shareW. apply floor_share; [exact N|].
  destruct (flt left _) eqn:E in |- *; [|reflexivity]. exfalso.
  assert (M : flt left (fmin (rqWantW r) left) = true).
  { destruct perPhase; [now apply fmin_above in E as [E _]|exact E]. }
  apply fmin_above in M as [_ M]. rewrite flt_irrefl in M. discriminate M.
Qed.

Definition okLeft (x : f64) : Prop := wf x /\ rank x = 0 /\ le_rel (of_Z 0) x.
Lemma left_after left cap : okLeft left -> le_rel (of_Z 0) cap -> le_rel cap left -> okLeft (fsub left cap).
Proof.
  intros (W & R & N) N0 L. pose proof (rank_between _ _ N0 L R) as Rc.
  assert (Nn : rank (fsub left cap) <> 2) by now apply fsub_nn.
  assert (G : le_rel (of_Z 0) (fsub left cap)) by (rewrite of_Z_0; now apply fsub_nonneg).
  split; [apply fsub_wf|]. split; [|exact G]. refine (rank_between _ _ G _ R).
  apply fsub_le; [exact W|rewrite <- of_Z_0; exact N0|now apply finite_nn|exact Nn].
Qed.

Lemma split_fold rs : forall s, NoDup (idOf <$> rs) -> okLeft (shLeft s) ->
  let s' := fold_left (shareStep w now c perPhase) rs s in
  okLeft (shLeft s') /\ shLeft s' = fold_left fsub (sharesOf s rs) (shLeft s) /\
  Forall (le_rel (of_Z 0)) (sharesOf s rs) /\
  (forall id, id ∉ (idOf <$> rs) -> shCaps s' !! id = shCaps s !! id /\ shRooms s' !! id = shRooms s !! id) /\
  Forall2 (fun r cap => shCaps s' !! idOf r = Some cap /\ exists a, shRooms s' !! idOf r = Some (mkFuseRoom cap a perPhase))
    rs (sharesOf s rs).
Proof.
  induction rs as [|r rs IH]; intros s D K; cbv zeta; cbn [fold_left sharesOf].
  - split_and!; [exact K|reflexivity|constructor|easy|constructor].
  - rewrite fmap_cons in D. apply NoDup_cons in D as [Nr D].
    destruct (share_fits (shLeft s) (shRoomA s) r (proj2 (proj2 K))) as [C0 C1].
    pose proof (left_after _ _ K C0 C1) as K1. set (cap := shareW w now c perPhase (shLeft s) (shRoomA s) r) in *.
    destruct (IH (shareStep w now c perPhase s r) D K1) as (A & B & E & F & G).
    set (s' := fold_left _ rs _) in *.
    split; [exact A|]. split; [exact B|]. split; [now constructor|]. split.
    + intros id Hid. rewrite fmap_cons, not_elem_of_cons in Hid. destruct Hid as [Hne Hid]. destruct (F id Hid) as [-> ->].
      unfold shareStep. cbn [shCaps shRooms]. now rewrite !lookup_insert_ne by (intros X; apply Hne; symmetry; exact X).
    + constructor; [|exact G]. destruct (F (idOf r) Nr) as [-> ->]. unfold shareStep, idOf. cbn [shCaps shRooms].
      rewrite !lookup_insert_eq. split; [reflexivity|eauto].
Qed.
End Split.

Lemma give_rest restW restA rs : forall rooms, exists lucky, forall id room, rooms !! id = Some room ->
  giveRest restW restA rs rooms !! id = Some room \/
  id = lucky /\ exists room', giveRest restW restA rs rooms !! id = Some room' /\
    frW room' = fadd (frW room) (fmax (of_Z 0) restW).
Proof.
  induction rs as [|r rs IH]; intros rooms; [exists ""%string; auto|]. cbn [giveRest]. cbv zeta.
  destruct (fle (frW _) (of_Z 0)); [apply IH|]. exists (cfID (rqCfg r)). intros id room E.
  destruct (decide (id = cfID (rqCfg r))) as [->|N].
  - right. split; [reflexivity|]. rewrite lookup_insert_eq, E. eauto.
  - left. now rewrite lookup_insert_ne by (intros X; apply N; symmetry; exact X).
Qed.

Lemma request_ids w now samples c :
  Permutation (idOf <$> sortRequests (requestOf w now samples c <$> wdConfigs w)) (cfID <$> wdConfigs w).
Proof.
  rewrite (fmap_Permutation idOf _ _ (sort_permutation _)). rewrite <- list_fmap_compose.
  replace (idOf ∘ requestOf w now samples c <$> wdConfigs w) with (cfID <$> wdConfigs w); [reflexivity|].
  apply list_fmap_ext. intros _ cfg _. unfold compose, idOf, requestOf. cbv zeta. destruct (_ || _); [reflexivity|].
  destruct (liveHold _ _ _); reflexivity.
Qed.

(** A charger's share of the frozen budget. *)
Definition capOf (c : Ctl) (id : string) : f64 :=
  match tkCaps (ctTick c) with Some caps => default (of_Z 0) (caps !! id) | None => of_Z 0 end.

(** The budget a tick splits: what a budget that is not a number leaves is zero. *)
Definition sharesFit (w : World) (total : f64) (c' : Ctl) : Prop :=
  exists order lucky, Permutation order (cfID <$> wdConfigs w) /\
    let rest := fold_left fsub (capOf c' <$> order) total in
    le_rel (of_Z 0) rest /\
    Forall (fun id => le_rel (of_Z 0) (capOf c' id) /\
      exists room, tkRooms (ctTick c') !! id = Some room /\
        (frW room = capOf c' id \/ id = lucky /\ frW room = fadd (capOf c' id) rest)) order.

Lemma fuse_total_ok w total : fuseTotal w = Some total ->
  match wdFuseEVMax w with Some (Some b) => wf b | _ => True end -> okLeft total.
Proof.
  unfold fuseTotal. destruct (wdFuseEVMax w) as [[b|]|]; try (intros E; discriminate E).
  destruct (flt b (of_Z 0)) eqn:P; [intros E; discriminate E|]. intros E W. apply (inj Some) in E. subst total.
  destruct (finite b) eqn:F.
  - apply finite_iff in F. split_and!; [exact W|exact F|]. apply flt_false; [exact P|now apply finite_nn|apply of_Z_nn; lia].
  - split_and!; [apply of_Z_wf|apply of_Z_rank; lia|apply of_Z_mono; lia].
Qed.

Lemma shares_fit w now samples c total :
  NoDup (cfID <$> wdConfigs w) -> fuseTotal w = Some total -> okLeft total ->
  sharesFit w total (freezeFuseBudget w now samples c).
Proof.
  intros Hids T K.
  unfold freezeFuseBudget. rewrite T. cbv zeta. set (c0 := setBudget None ∅ "" c). clearbody c0.
  pose proof (request_ids w now samples c0) as P. set (rs := sortRequests _) in *. clearbody rs.
  unfold splitBudget. destruct (match wdPhaseRoomA w with Some (Some a) => _ | _ => _ end) as [roomA perPhase].
  cbv zeta. cbn [shCaps shRooms]. set (s0 := mkShares total roomA ∅ ∅).
  assert (D : NoDup (idOf <$> rs)) by (rewrite P; exact Hids).
  destruct (split_fold w now c0 perPhase rs s0 D K) as (A & B & C & _ & G).
  set (s := fold_left _ rs s0) in *. clearbody s. destruct (give_rest (shLeft s) (shRoomA s) rs (shRooms s)) as [lucky L].
  set (c' := setBudget _ _ _ _). unfold sharesFit. exists (idOf <$> rs), lucky.
  assert (Caps : forall id, capOf c' id = default (of_Z 0) (shCaps s !! id)) by reflexivity.
  assert (E : capOf c' <$> (idOf <$> rs) = sharesOf w now c0 perPhase s0 rs).
  { clearbody c'. clear - G Caps. induction G as [|r cap rs1 caps [H _] _ IH]; [reflexivity|]. rewrite !fmap_cons, IH, Caps, H. reflexivity. }
  split; [exact P|]. cbv zeta. rewrite E. change total with (shLeft s0). rewrite <- B. split; [exact (proj2 (proj2 A))|]. rewrite Forall_fmap.
  assert (Rest : fmax (of_Z 0) (shLeft s) = shLeft s) by (apply fmax_r; exact (proj2 (proj2 A))).
  assert (Rooms : forall id, tkRooms (ctTick c') !! id = giveRest (shLeft s) (shRoomA s) rs (shRooms s) !! id) by reflexivity.
  clearbody c'. revert C. generalize dependent (giveRest (shLeft s) (shRoomA s) rs (shRooms s)). intros rooms L Rooms. clear - G L Caps Rest Rooms. induction G as [|r cap rs1 caps [H (a & R)] _ IH]; intros F; [constructor|].
  inversion F as [|? ? N F']; subst. constructor; [|now apply IH]. unfold compose. rewrite Caps, H. split; [exact N|].
  destruct (L _ _ R) as [R'|(-> & room' & R' & W)]; [exists (mkFuseRoom cap a perPhase); split; [rewrite Rooms; exact R'|now left]|].
  exists room'. split; [rewrite Rooms; exact R'|]. right. split; [reflexivity|]. rewrite W, Rest. reflexivity.
Qed.

(** The frozen budget is known to every charger; the choices are the tick's. *)
Lemma frozen_budget w now samples c total : fuseTotal w = Some total ->
  exists caps, tkCaps (ctTick (freezeFuseBudget w now samples c)) = Some caps /\
    tkChoices (ctTick (freezeFuseBudget w now samples c)) = tkChoices (ctTick c).
Proof. intros T. unfold freezeFuseBudget. rewrite T. cbv zeta. eexists. split; reflexivity. Qed.

(** The chargers never get more than the budget the site leaves them: every
    charger gets a share that is not negative, in the order of their priority,
    each out of what the ones before it left; all of them taken from the budget
    leave a rest that is not negative, and at most one charger's room is its
    share and that rest, the others' is their share. *)
Theorem fuse_shares_fit w now samples c budget
    (Hids : NoDup (cfID <$> wdConfigs w)) (Hmax : wdFuseEVMax w = Some (Some budget))
    (Hreal : wf budget) (Hpos : flt budget (of_Z 0) = false) :
  sharesFit w (if finite budget then budget else of_Z 0) (freezeFuseBudget w now samples c).
Proof.
  assert (T : fuseTotal w = Some (if finite budget then budget else of_Z 0)) by (unfold fuseTotal; now rewrite Hmax, Hpos).
  apply shares_fit; [exact Hids|exact T|]. apply (fuse_total_ok w); [exact T|]. rewrite Hmax. exact Hreal.
Qed.

(** Two chargers without orders on a budget of 5 kW. *)
Definition demoPair : World :=
  mkWorld [mkConfig "a" "d-a" (of_Z 1380) (of_Z 11040) [] "3p" (of_Z 0) 0 false;
           mkConfig "b" "d-b" (of_Z 1380) (of_Z 11040) [] "3p" (of_Z 0) 0 false]
    ∅ (mkEnv (mkFuse (of_Z 0) (of_Z 0) 3) None None None None)
    (fun _ => true) (Some None) (Some (Some (of_Z 5000))) None None None ∅ (1000 * Hour).
Lemma fuse_shares_fit_witness :
  sharesFit demoPair (of_Z 5000) (freezeFuseBudget demoPair (1000 * Hour) ∅ (mkCtl ∅ noSurplus ∅ ∅ ∅ noTick [] ∅ None)).
Proof.
  assert (F : finite (of_Z 5000) = true) by (vm_compute; reflexivity).
  pose proof (fuse_shares_fit demoPair (1000 * Hour) ∅ (mkCtl ∅ noSurplus ∅ ∅ ∅ noTick [] ∅ None) (of_Z 5000)) as T.
  rewrite F in T. apply T.
  - apply NoDup_cons_2; [|apply NoDup_singleton]. intros E. apply list_elem_of_singleton in E. discriminate E.
  - reflexivity.
  - apply of_Z_wf.
  - vm_compute. reflexivity.
Defined.
