(* ===== verification/ChargeCommand.v ===== *)
(** * One charger's order in a tick
    (go/internal/loadpoint: controller.go, controller_offer_restore.go)

    The order a hold, the plan, surplus, a wake or a finishing car asks for, the
    limits of the installation, the charger and the shared fuse budget on it, the
    record of what was ordered, and the tick over all chargers. *)
From Stdlib Require Import ZArith Lia.
From S2P Require Import Prelude Float64 GoTime LoadpointData ChargeSteps SessionEnergy SurplusCharge ChargeTick FuseShares.
From stdpp Require Import base gmap strings list.
#[local] Open Scope Z_scope.

(** ** Orders kept across a restart (controller_offer_restore.go) *)
Definition offerRestoreMaxAge : Duration := 10 * Minute.

Definition saveOffer (now : Time) (cfg : LPConfig) (sample : EVSample) (powerW : f64) (phase reason : string) (c : Ctl) : Ctl :=
  match ctStore c with
  | None => c
  | Some store =>
      if String.eqb (saDeviceID sample) "" || negb (finite powerW) || negb (saConnected sample) then c
      else
        let same :=
          match ctSaved c !! cfID cfg with
          | Some last =>
              String.eqb (svDeviceID last) (saDeviceID sample) && String.eqb (svSessionID last) (saSessionID sample) &&
              feq (svPowerW last) powerW && String.eqb (svPhaseMode last) phase && String.eqb (svReason last) reason &&
              (Sub now (svAt last) <? Minute)
          | None => false
          end in
        if same || negb (finite (saSessionWh sample)) then c
        else
          let record := mkSaved 1 (saDeviceID sample) (saSessionID sample) (saSessionWh sample) powerW phase reason now in
          withStore (Some (<[saDeviceID sample := record]> store)) (withSaved (<[cfID cfg := record]> (ctSaved c)) c)
  end.

(** Whether a saved order is this session's, and recent. *)
Definition restorable (now : Time) (sample : EVSample) (saved : savedOffer) : bool :=
  (svVersion saved =? 1) && String.eqb (svDeviceID saved) (saDeviceID sample) && finite (svPowerW saved) &&
  negb (flt (svPowerW saved) (of_Z 0)) && negb (After (svAt saved) now) && (Sub now (svAt saved) <=? offerRestoreMaxAge) &&
  (if String.eqb (svSessionID saved) "" && String.eqb (saSessionID sample) ""
   then negb (saSessionWhUnavailable sample) && flt (of_Z 0) (svSessionWh saved) && fle (svSessionWh saved) (saSessionWh sample)
   else negb (String.eqb (svSessionID saved) "") && String.eqb (svSessionID saved) (saSessionID sample)).

Definition restoreOne (w : World) (now : Time) (samples : gmap string EVSample) (c : Ctl) (cfg : LPConfig) : Ctl :=
  match ctStore c with
  | None => c
  | Some store =>
      let id := cfID cfg in
      let sample := default noSample (samples !! cfDriver cfg) in
      let gone := match samples !! cfDriver cfg with Some s => negb (saConnected s) && negb (saConnectionUnknown s) | None => false end in
      match gone, ctSaved c !! id with
      | true, Some last => withStore (Some (delete (svDeviceID last) store)) (withSaved (delete id (ctSaved c)) c)
      | _, _ =>
          let st := default noLPState (ctStates c !! id) in
          if lpCommandedKnown st || negb (saConnected sample) || saConnectionUnknown sample || String.eqb (saDeviceID sample) ""
          then c
          else
            match store !! saDeviceID sample with
            | Some saved =>
                if restorable now sample saved then
                  let states := setCommandedForManual (wdWall w) id (svPowerW saved) (svReason saved) zeroTime (ctStates c) in
                  let states := setCommandedPhases id (commandPhases (site w) (svPhaseMode saved) (svPowerW saved) (cfPhaseSplitW cfg)) states in
                  withSaved (<[id := saved]> (ctSaved c)) (withStates states c)
                else c
            | None => c
            end
      end
  end.
Definition restoreOffers (w : World) (now : Time) (samples : gmap string EVSample) (c : Ctl) : Ctl :=
  fold_left (restoreOne w now samples) (wdConfigs w) c.

(** ** The order before its limits *)
Definition setIf (b : bool) (f : Cmd -> Cmd) (c : Cmd) : Cmd := if b then f c else c.

Definition holdOrder (w : World) (cfg : LPConfig) (hold : ManualHold) : Cmd * string :=
  let holdW := clampManualPower cfg hold (site w) in
  let reason := if fne holdW (mlPowerW hold) then "charger_limit"%string else "manual_hold"%string in
  let pos := flt (of_Z 0) in
  let mode := holdPhaseMode hold cfg (site w) in
  let s := site w in
  let cmd := setPower holdW noCmd in
  let cmd := setIf (negb (String.eqb mode "")) (setMode mode) cmd in
  let cmd := if pos (mlPhaseSplitW hold) then setSplit (mlPhaseSplitW hold) cmd
             else setIf (pos (cfPhaseSplitW cfg)) (setSplit (cfPhaseSplitW cfg)) cmd in
  let cmd := if 0 <? mlMinPhaseHoldS hold then setHoldS (mlMinPhaseHoldS hold) cmd
             else setIf (0 <? cfMinPhaseHoldS cfg) (setHoldS (cfMinPhaseHoldS cfg)) cmd in
  let cmd := if pos (mlVoltage hold) then setVoltage (mlVoltage hold) cmd
             else setIf (pos (fuseVoltage s)) (setVoltage (fuseVoltage s)) cmd in
  let cmd := if pos (mlMaxAmps hold) then setMaxAmps (mlMaxAmps hold) cmd
             else setIf (pos (fuseMaxA s)) (setMaxAmps (fuseMaxA s)) cmd in
  let cmd := if 0 <? mlSitePhases hold then setSitePhases (mlSitePhases hold) cmd
             else setIf (pos (fuseMaxA s)) (setSitePhases (Phases s)) cmd in
  (cmd, reason).

Section Order.
Variable localDay : Time -> Z.

(** The power automatic dispatch wants, and why. *)
Definition autoPower (w : World) (now : Time) (cfg : LPConfig) (sample : EVSample) (choice : tickChoice) (c : Ctl)
    : f64 * string * Ctl :=
  let id := cfID cfg in
  let fallback := reservedBy (currentDirective w c) id in
  let '(cmdW, planReady, _) := computeCommandForBudget w now (fuseConfig (site w) cfg (chMode choice)) false c in
  let reserved := match wdPlan w with Some _ => fallback | None => false end in
  let '(cmdW, reason) :=
    if reserved then (if saPowerUnavailable sample then of_Z 0 else cmdW, "EV deadline reserve"%string) else (cmdW, "plan"%string) in
  let '(cmdW, reason) := if planReady then (cmdW, reason) else (of_Z 0, "no_plan_budget"%string) in
  let '(finish, c) := vehicleCompletionOffer w cfg now c in
  let '(cmdW, reason) := match finish with Some f => (f, "vehicle_limit_completion"%string) | None => (cmdW, reason) end in
  let '(cmdW, reason, c) :=
    if chOn choice then
      let wantW := if fle cmdW (of_Z 0) then cfMaxChargeW cfg else cmdW in
      let '(x, s) := computeSurplusCmd localDay (wdEnv w) (States w c) now cfg wantW (chSteps choice) (ctSurplus c) in
      (x, if flt (of_Z 0) x then "pv_surplus"%string else "pv_surplus_pause"%string, withSurplus s c)
    else (cmdW, reason, c) in
  let '(cmdW, reason, c) :=
    if chAdds choice then
      let '(x, s) := computeSurplusCmd localDay (wdEnv w) (States w c) now cfg (cfMaxChargeW cfg) (chSteps choice) (ctSurplus c) in
      if flt cmdW x then (x, "pv_surplus"%string, withSurplus s c) else (cmdW, reason, withSurplus s c)
    else (cmdW, reason, c) in
  let '(cmdW, reason, c) :=
    if wakeKickActive id now c then
      let '(steps, s) := pickSurplusSteps localDay (wdEnv w) now cfg (ctSurplus c) in
      let minKick := surplusMinStepW cfg steps in
      if flt (of_Z 0) minKick && flt cmdW minKick then (minKick, "wake_kick"%string, withSurplus s c)
      else (cmdW, reason, withSurplus s c)
    else (cmdW, reason, c) in
  let '(cmdW, reason) :=
    match finish with
    | Some f =>
        if feq f (of_Z 0) then
          (of_Z 0, if match ctStates c !! id with Some st => lpGoalComplete st | None => false end
                   then "vehicle_complete"%string else "vehicle_not_requesting"%string)
        else (cmdW, reason)
    | None => (cmdW, reason)
    end in
  (if fallback && saPowerUnavailable sample then of_Z 0 else cmdW, reason, c).

Definition autoOrder (w : World) (cfg : LPConfig) (mode : string) (cmdW : f64) : Cmd :=
  let s := site w in
  let pos := flt (of_Z 0) in
  let cmd := setPower cmdW noCmd in
  let cmd := setIf (negb (String.eqb mode "")) (setMode mode) cmd in
  let cmd := setIf (pos (cfPhaseSplitW cfg)) (setSplit (cfPhaseSplitW cfg)) cmd in
  let cmd := setIf (0 <? cfMinPhaseHoldS cfg) (setHoldS (cfMinPhaseHoldS cfg)) cmd in
  let cmd := setIf (pos (fuseMaxA s)) (fun c => setSitePhases (Phases s) (setMaxAmps (fuseMaxA s) c)) cmd in
  setIf (pos (fuseVoltage s)) (setVoltage (fuseVoltage s)) cmd.

(** [(order, reason, when the hold was chosen)] *)
Definition draftOrder (w : World) (now : Time) (cfg : LPConfig) (sample : EVSample) (choice : tickChoice) (c : Ctl)
    : Cmd * string * Time * Ctl :=
  let '(hold, c) := GetManualHold (cfID cfg) now c in
  match hold with
  | Some h => let '(cmd, reason) := holdOrder w cfg h in (cmd, reason, mlUpdatedAt h, c)
  | None =>
      let '(cmdW, reason, c) := autoPower w now cfg sample choice c in
      (autoOrder w cfg (chMode choice) cmdW, reason, zeroTime, c)
  end.

(** ** The limits *)
Definition applyFuseClamp (w : World) (c : Ctl) (cfg : LPConfig) (wantW : f64) (phaseMode : string) : f64 * string :=
  let cfg := fuseConfig (site w) cfg phaseMode in
  match wdFuseEVMax w, fuseCapFor w c (cfID cfg) with
  | Some _, Some cap =>
      if flt cap (of_Z 0) then (wantW, ""%string)
      else
        let cap := if finite cap then cap else of_Z 0 in
        if fle wantW cap then (wantW, ""%string)
        else
          let snapped := floorChargeW cap (cfMinChargeW cfg) (cfMaxChargeW cfg) (cfSteps cfg) in
          if flt (of_Z 0) snapped && fle (cfMinChargeW cfg) snapped then (snapped, capReason w c) else (of_Z 0, capReason w c)
  | _, _ => (wantW, ""%string)
  end.

Definition passCeiling (why : string) (x : Cmd * string) : Cmd * string :=
  let '(lowered, cmd) := applyCurrentCeiling (fst x) in (cmd, if lowered then why else snd x).

(** The shared budget on an order: its clamp, and nothing on other phases. *)
Definition budgetOrder (w : World) (c : Ctl) (cfg : LPConfig) (choice : tickChoice) (x : Cmd * string) : Cmd * string :=
  let '(cmd, reason) := x in
  let wantW := num (kPowerW cmd) in
  let mode := str (kPhaseMode cmd) in
  let unknown :=
    reservedBy (currentDirective w c) (cfID cfg) &&
    match fuseCapFor w c (cfID cfg) with Some cap => negb (finite cap) || flt cap (of_Z 0) | None => true end in
  let '(wantW, reason) := if unknown then (of_Z 0, "fuse_limit"%string) else (wantW, reason) in
  let '(limitedW, why) := applyFuseClamp w c cfg wantW mode in
  let cmd := setPower limitedW cmd in
  let reason := if String.eqb why "" then reason else why in
  let otherPhases :=
    flt (of_Z 0) limitedW && match tkCaps (ctTick c) with Some _ => true | None => false end &&
    negb (String.eqb (fusePhase mode) (fusePhase (chMode choice))) in
  if otherPhases then (setPower (of_Z 0) cmd, "fuse_limit"%string) else (cmd, reason).

Definition limitOrder (w : World) (c : Ctl) (cfg : LPConfig) (choice : tickChoice) (cmd : Cmd) (reason : string)
    : Cmd * string * Ctl :=
  let cmd := applyChargerPhaseLimit cfg (site w) (applyInstallationLimits (site w) cmd) in
  let '(cmd, reason) := passCeiling "charger_limit" (cmd, reason) in
  let c := withDemands (recordFuseDemand (cfDriver cfg) (num (kPowerW cmd)) (str (kPhaseMode cmd)) (ctDemands c)) c in
  let '(cmd, reason) := passCeiling "fuse_limit" (budgetOrder w c cfg choice (cmd, reason)) in
  let cmd := match capAmpsPerPhase w cfg cmd c with Some a => setCapAmps a cmd | None => cmd end in
  (cmd, reason, c).

(** ** The record of the order *)
Definition recordOrder (w : World) (now : Time) (cfg : LPConfig) (sample : EVSample) (cmd : Cmd) (reason : string)
    (manualAt : Time) (c : Ctl) : Cmd * Ctl :=
  let id := cfID cfg in
  let offerW := num (kPowerW cmd) in
  let mode := str (kPhaseMode cmd) in
  let c := withStates (setCommandedForManual (wdWall w) id offerW reason manualAt (ctStates c)) c in
  let c := withSurplus (noteSurplusOrder id now offerW (ctSurplus c)) c in
  let c := withStates (setCommandedPhases id (commandPhases (site w) mode offerW (num (kPhaseSplitW cmd))) (ctStates c)) c in
  let c := saveOffer now cfg sample offerW (fusePhase mode) reason c in
  let expected :=
    match ctStates c !! id with
    | Some st => (lpCarPhases st =? 1) && (Phases (site w) =? 3) && String.eqb (fusePhase mode) "3p"
    | None => false
    end in
  (setIf expected (setExpected (fdiv offerW (of_Z 3))) cmd, c).

(** ** [tickOne] up to the send: the order, or none *)
Record observation : Type := mkObs { obCfg : LPConfig; obSample : EVSample; obWasPlugged : bool }.

Definition chargeOrder (w : World) (now : Time) (cfg : LPConfig) (sample : EVSample) (choice : tickChoice) (c : Ctl)
    : Cmd * string * Ctl :=
  let '(cmd, reason, manualAt, c) := draftOrder w now cfg sample choice c in
  let '(cmd, reason, c) := limitOrder w c cfg choice cmd reason in
  let '(cmd, c) := recordOrder w now cfg sample cmd reason manualAt c in
  (cmd, reason, c).

Definition tickOne (w : World) (now : Time) (o : observation) (choice : tickChoice) (dispatchAllowed : bool) (c : Ctl)
    : option (Cmd * string) * Ctl :=
  let '(cfg, sample, id) := (obCfg o, obSample o, cfID (obCfg o)) in
  if saConnectionUnknown sample then (None, c)
  else if negb (saConnected sample) then
    let c := withSurplus (resetSurplusSession id (ctSurplus c)) c in
    (None, if match wdUnplugged w !! id with Some since => UnplugGrace <=? Sub now since | None => true end
           then withHolds (delete id (ctHolds c)) c else c)
  else
    let c := if obWasPlugged o then c else withSurplus (resetSurplusSession id (ctSurplus c)) c in
    if negb (wdOnline w (cfDriver cfg)) || negb dispatchAllowed then (None, c)
    else let '(cmd, reason, c) := chargeOrder w now cfg sample choice c in (Some (cmd, reason), c).

(** ** The tick, from the samples taken and observed to the orders *)
Definition standDown (w : World) (now : Time) (acc : list (string * Cmd * string) * Ctl) (o : observation)
    : list (string * Cmd * string) * Ctl :=
  let '(outs, c) := acc in
  let '(cfg, sample) := (obCfg o, obSample o) in
  if saConnected sample && negb (saConnectionUnknown sample) && wdOnline w (cfDriver cfg) then
    let '(hold, c) := GetManualHold (cfID cfg) now c in
    let at' := match hold with Some h => mlUpdatedAt h | None => zeroTime end in
    (outs ++ [(cfID cfg, setPower (of_Z 0) noCmd, "site_meter_stale"%string)],
     withStates (setCommandedForManual (wdWall w) (cfID cfg) (of_Z 0) "site_meter_stale" at' (ctStates c)) c)
  else acc.

Definition chooseAll (w : World) (now : Time) (dispatchAllowed : bool) (acc : gmap string tickChoice * Ctl) (o : observation)
    : gmap string tickChoice * Ctl :=
  if saConnectionUnknown (obSample o) then acc
  else
    let '(choice, c) := chooseTick localDay w now (obCfg o) (obSample o) dispatchAllowed (snd acc) in
    (<[cfID (obCfg o) := choice]> (fst acc), c).

Definition samplesOf (os : list observation) : gmap string EVSample :=
  fold_left (fun m o => <[cfDriver (obCfg o) := obSample o]> m) os ∅.

Fixpoint tickAll (w : World) (now : Time) (dispatchAllowed : bool) (choices : gmap string tickChoice)
    (os : list observation) (c : Ctl) : list (string * Cmd * string) * Ctl :=
  match os with
  | [] => ([], c)
  | o :: os =>
      let '(out, c) := tickOne w now o (default noChoice (choices !! cfID (obCfg o))) dispatchAllowed c in
      let '(outs, c) := tickAll w now dispatchAllowed choices os c in
      (match out with Some (cmd, reason) => (cfID (obCfg o), cmd, reason) :: outs | None => outs end, c)
  end.

(** [TickWithDispatch]: the orders go out with the loadpoint they are for.
    [observe] is what observing the samples does to the state: each charger's
    [observeTick] and [releaseCompletedManualHold]. *)
Definition TickWithDispatch (observe : Ctl -> Ctl) (w : World) (now : Time) (os : list observation) (dispatchAllowed : bool) (c : Ctl)
    : list (string * Cmd * string) * Ctl :=
  let c := withDemands [] c in
  let '(downs, c) := if dispatchAllowed then ([], c) else fold_left (standDown w now) os ([], c) in
  match wdPlan w, dispatchAllowed with
  | None, true => ([], c)
  | _, _ =>
      let c := observe c in
      let c := if dispatchAllowed then withTick (mkTick true (currentDirective w c) None ∅ "" ∅) c else c in
      let '(choices, c) := fold_left (chooseAll w now dispatchAllowed) os (∅, c) in
      let t := ctTick c in
      let c :=
        if dispatchAllowed then
          let c := withTick (mkTick (tkActive t) (tkDirective t) (tkCaps t) (tkRooms t) (tkReason t) choices) c in
          freezeFuseBudget w now (samplesOf os) (restoreOffers w now (samplesOf os) c)
        else c in
      let '(outs, c) := tickAll w now dispatchAllowed choices os c in
      (downs ++ outs, if dispatchAllowed then withTick noTick c else c)
  end.
End Order.

(** ** Lemmas: the two passes of the current ceiling *)
Lemma under_of_turns cmd : turnsLeft cmd = 0 -> underCeiling cmd.
Proof.
  unfold turnsLeft, underCeiling. destruct (applyCurrentCeiling cmd) as [[] cmd'] eqn:E; cbn [fst].
  - unfold applyCurrentCeiling in E. destruct (kMaxAmps cmd) as [a|]; [destruct (_ =? 1); lia|discriminate E].
  - intros _. pose proof (ceiling_false _ _ E) as ->. reflexivity.
Qed.

(** A pass leaves at most one more turn. *)
Lemma turns_after_pass cmd why r : turnsLeft (fst (passCeiling why (cmd, r))) <= 1.
Proof.
  unfold passCeiling. cbn [fst]. destruct (applyCurrentCeiling cmd) as [[] cmd'] eqn:E; cbn [fst].
  - pose proof (turns_fall _ _ E). pose proof (turns_bounds cmd). lia.
  - pose proof (ceiling_false _ _ E) as ->. rewrite turns_under; [lia|exact E].
Qed.

Lemma one_turn_ends cmd why r : turnsLeft cmd <= 1 -> underCeiling (fst (passCeiling why (cmd, r))).
Proof.
  intros T. unfold passCeiling. cbn [fst]. destruct (applyCurrentCeiling cmd) as [[] cmd'] eqn:E; cbn [fst].
  - apply under_of_turns. pose proof (turns_fall _ _ E). lia.
  - pose proof (ceiling_false _ _ E) as ->. exact E.
Qed.

(** Lowering an order by anything else leaves it as few turns. *)
Lemma turns_lower cmd w : turnsLeft cmd <= 1 -> flt w (num (kPowerW cmd)) = true -> turnsLeft (setPower w cmd) <= 1.
Proof.
  intros T L. unfold turnsLeft at 1. cbn [kMaxAmps setPower].
  destruct (fst (applyCurrentCeiling (setPower w cmd))) eqn:F; [|lia]. destruct (kMaxAmps cmd) as [a|] eqn:Ea; [|lia].
  destruct (phasesNow (setPower w cmd) a =? 1) eqn:P; [lia|]. exfalso. apply Z.eqb_neq in P.
  destruct (PhaseFor_down (str (kPhaseMode cmd)) _ _ (ceilingSplit cmd (num (kVoltage cmd)) a) L) as [D|D]; [|now apply P].
  assert (P1 : (phasesNow cmd a =? 1) = false) by (apply Z.eqb_neq; intros X; apply P; etransitivity; [exact D|exact X]).
  unfold turnsLeft in T. rewrite Ea, P1 in T. destruct (fst (applyCurrentCeiling cmd)) eqn:F1; [lia|].
  unfold applyCurrentCeiling in F, F1. cbn [kMaxAmps setPower kPowerW kVoltage kPhaseMode] in F. rewrite Ea in F, F1.
  change (num (Some w)) with w in F. set (p := num (kPowerW cmd)) in *.
  destruct (fle p (of_Z 0)) eqn:Z1.
  { rewrite (proj2 (fle_iff w (of_Z 0))) in F by (apply (le_rel_trans _ p); [now apply flt_le|now apply fle_iff]). discriminate F. }
  destruct (fle w (of_Z 0)); [discriminate F|]. destruct (flt a (of_Z 6)); [discriminate F1|]. cbv zeta in F, F1.
  destruct (fle (num (kVoltage cmd)) (of_Z 0)); [discriminate F|].
  change (ceilingSplit (setPower w cmd) (num (kVoltage cmd)) a) with (ceilingSplit cmd (num (kVoltage cmd)) a) in F.
  rewrite D in F. destruct (flt (ceilingAt _ _ _) w) eqn:C; [|discriminate F].
  rewrite (flt_trans _ _ _ C L) in F1. discriminate F1.
Qed.

(** ** Lemmas: what a pass and the budget do to the power *)
Lemma pass_power why x : let c := fst (passCeiling why x) in
  c = fst x \/ exists w, c = setPower w (fst x) /\ (w = of_Z 0 \/ flt w (num (kPowerW (fst x))) = true).
Proof.
  unfold passCeiling. destruct (applyCurrentCeiling (fst x)) as [[] c] eqn:E; cbn [fst].
  - right. destruct (ceiling_step _ _ E) as [->|(a & _ & -> & L)]; eauto.
  - left. exact (ceiling_false _ _ E).
Qed.

Lemma clamp_power w c cfg p mode :
  fst (applyFuseClamp w c cfg p mode) = p \/ fst (applyFuseClamp w c cfg p mode) = of_Z 0 \/
  (isNaN p = false -> flt (fst (applyFuseClamp w c cfg p mode)) p = true).
Proof.
  unfold applyFuseClamp. destruct (wdFuseEVMax w); [|now left]. destruct (fuseCapFor _ _ _) as [cap|]; [|now left].
  destruct (flt cap (of_Z 0)) eqn:N; [now left|]. cbv zeta. set (cap' := if finite cap then cap else of_Z 0).
  assert (Nn : le_rel (of_Z 0) cap').
  { unfold cap'. destruct (finite cap) eqn:F; [|apply of_Z_mono; lia]. apply flt_false; [exact N|apply finite_iff in F; now apply finite_nn|apply of_Z_nn; lia]. }
  clearbody cap'. destruct (fle p cap') eqn:L; [now left|]. right. destruct (_ && _) in |- *; [|now left]. right. cbn [fst].
  intros Np. apply isNaN_false_iff in Np. apply (le_flt_trans _ cap').
  - apply floor_share; [exact Nn|apply flt_irrefl].
  - apply fle_false_flt; [exact L|exact Np|exact (le_rel_nn_r _ _ Nn)].
Qed.

Lemma order_within_cap w c cfg p mode cap : wdFuseEVMax w <> None -> fuseCapFor w c (cfID cfg) = Some cap ->
  le_rel (of_Z 0) cap -> flt cap (fst (applyFuseClamp w c cfg p mode)) = false.
Proof.
  intros W C N. unfold applyFuseClamp. destruct (wdFuseEVMax w); [|easy]. change (cfID (fuseConfig _ cfg mode)) with (cfID cfg).
  rewrite C, (le_flt_false _ _ N). cbv zeta. set (cap' := if finite cap then cap else of_Z 0).
  assert (Nn : le_rel (of_Z 0) cap' /\ le_rel cap' cap).
  { unfold cap'. destruct (finite cap); [split; [exact N|apply le_rel_refl; exact (le_rel_nn_r _ _ N)]|]. split; [apply of_Z_mono; lia|exact N]. }
  clearbody cap'. destruct Nn as [N0 N1]. destruct (fle p cap') eqn:L.
  - cbn [fst]. apply le_flt_false. apply (le_rel_trans _ cap'); [now apply fle_iff|exact N1].
  - destruct (_ && _) in |- *; cbn [fst]; apply le_flt_false; [|exact N].
    apply (le_rel_trans _ cap'); [apply floor_share; [exact N0|apply flt_irrefl]|exact N1].
Qed.

Lemma order_clamp_zero w c cfg mode : fst (applyFuseClamp w c cfg (of_Z 0) mode) = of_Z 0.
Proof.
  unfold applyFuseClamp. destruct (wdFuseEVMax w); [|reflexivity]. destruct (fuseCapFor _ _ _) as [cap|]; [|reflexivity].
  destruct (flt cap (of_Z 0)) eqn:N; [reflexivity|]. cbv zeta.
  replace (fle (of_Z 0) (if finite cap then cap else of_Z 0)) with true; [reflexivity|]. symmetry. apply fle_iff.
  destruct (finite cap) eqn:F; [|apply of_Z_mono; lia].
  apply flt_false; [exact N|apply finite_iff in F; now apply finite_nn|apply of_Z_nn; lia].
Qed.

Definition wantedOrder (w : World) (c : Ctl) (cfg : LPConfig) (cmd : Cmd) : f64 :=
  if reservedBy (currentDirective w c) (cfID cfg) &&
     match fuseCapFor w c (cfID cfg) with Some cap => negb (finite cap) || flt cap (of_Z 0) | None => true end
  then of_Z 0 else num (kPowerW cmd).
Lemma budget_order_is w c cfg choice cmd r :
  let p := fst (applyFuseClamp w c cfg (wantedOrder w c cfg cmd) (str (kPhaseMode cmd))) in
  fst (budgetOrder w c cfg choice (cmd, r)) =
  if flt (of_Z 0) p && match tkCaps (ctTick c) with Some _ => true | None => false end &&
     negb (String.eqb (fusePhase (str (kPhaseMode cmd))) (fusePhase (chMode choice)))
  then setPower (of_Z 0) cmd else setPower p cmd.
Proof.
  unfold budgetOrder, wantedOrder. destruct (reservedBy _ _ && _); destruct (applyFuseClamp _ _ _ _ _) as [p why];
    cbn [fst]; destruct (_ && _ && _); reflexivity.
Qed.

(** The power the budget leaves, of an order of power [q]. *)
Definition lessOr (q p : f64) : Prop := p = q \/ p = of_Z 0 \/ (isNaN q = false -> flt p q = true).
Lemma budget_order w c cfg choice cmd r :
  let out := fst (budgetOrder w c cfg choice (cmd, r)) in
  exists p, out = setPower p cmd /\ lessOr (num (kPowerW cmd)) p /\
    (wdFuseEVMax w <> None -> forall cap, fuseCapFor w c (cfID cfg) = Some cap -> le_rel (of_Z 0) cap -> flt cap p = false) /\
    (flt (of_Z 0) p = true -> tkCaps (ctTick c) <> None -> fusePhase (str (kPhaseMode cmd)) = fusePhase (chMode choice)).
Proof.
  cbv zeta. rewrite budget_order_is. set (mode := str (kPhaseMode cmd)). set (q := num (kPowerW cmd)).
  assert (P : lessOr q (fst (applyFuseClamp w c cfg (wantedOrder w c cfg cmd) mode))).
  { unfold wantedOrder. fold q. destruct (reservedBy _ _ && _); [right; left; apply order_clamp_zero|apply clamp_power]. }
  pose proof (order_within_cap w c cfg (wantedOrder w c cfg cmd) mode) as C. set (p := fst _) in *. clearbody p.
  destruct (flt (of_Z 0) p && _ && _) eqn:G.
  - exists (of_Z 0). split; [reflexivity|]. split; [right; now left|]. split; [intros _ cap _ N; exact (le_flt_false _ _ N)|].
    intros X. rewrite flt_irrefl in X. discriminate X.
  - exists p. split; [reflexivity|]. split; [exact P|]. split; [intros W cap E N; exact (C cap W E N)|].
    intros X K. rewrite X in G. cbn [andb] in G. destruct (tkCaps (ctTick c)); [|easy]. cbn [andb] in G.
    apply negb_false_iff in G. now apply String.eqb_eq in G.
Qed.

(** ** Lemmas: the installation *)
Definition underFuse (s : SiteFuse) (cmd : Cmd) : Prop :=
  flt (of_Z 0) (fuseMaxA s) = true -> exists a, kMaxAmps cmd = Some a /\ flt (fuseMaxA s) a = false.

Definition installed (s : SiteFuse) (cmd : Cmd) : Prop :=
  flt (of_Z 0) (fuseMaxA s) = true -> exists a, kMaxAmps cmd = Some a /\ flt (fuseMaxA s) a = false /\
    (a = fuseMaxA s \/ finite a = true /\ fle a (of_Z 0) = false).

Lemma installation_fuse s cmd : installed s (applyInstallationLimits s cmd).
Proof.
  intros P. unfold applyInstallationLimits. cbv zeta.
  match goal with |- context [num (kMaxAmps ?x)] => set (cmd' := x) end. clearbody cmd'. rewrite P.
  destruct (_ || flt (fuseMaxA s) (num (kMaxAmps cmd'))) eqn:G in |- *.
  - exists (fuseMaxA s). split; [reflexivity|]. split; [apply flt_irrefl|now left].
  - apply orb_false_iff in G as [G L]. apply orb_false_iff in G as [G Gi]. apply orb_false_iff in G as [G Gn].
    destruct (kMaxAmps cmd') as [a|].
    + change (num (Some a)) with a in *. exists a. split; [reflexivity|]. split; [exact L|]. right. split; [|exact G].
      destruct a as [|[]|]; try discriminate Gn; try discriminate Gi. reflexivity.
    + change (num None) with (of_Z 0) in G. assert (X : fle (of_Z 0) (of_Z 0) = true) by (vm_compute; reflexivity).
      rewrite X in G. discriminate G.
Qed.

Lemma charger_fuse cfg s cmd : installed s cmd -> underFuse s (applyChargerPhaseLimit cfg s cmd).
Proof.
  intros H P. destruct (H P) as (a & E & L & D). unfold applyChargerPhaseLimit.
  destruct (_ || _ || _) in |- *; [eauto|]. cbv zeta. destruct (flt (chargerPhaseAmps _ _) (of_Z 6)); [eauto|].
  destruct (_ || _ || _) eqn:G in |- *; [|eauto]. eexists. split; [reflexivity|]. rewrite E in G. change (num (Some a)) with a in G.
  set (x := chargerPhaseAmps cfg (fuseVoltage s)) in *. clearbody x. destruct (flt (fuseMaxA s) x) eqn:X; [|reflexivity]. exfalso.
  apply orb_true_iff in G as [G|G]; [|rewrite (flt_trans _ _ _ X G) in L; discriminate L].
  apply orb_true_iff in G as [G|G].
  - destruct D as [->|[F _]]; [|rewrite F in G; discriminate G]. destruct (pos_cases _ P) as [I|(z & I & _)]; rewrite I in *.
    + destruct x as [|[]|]; discriminate X.
    + discriminate G.
  - destruct D as [->|[_ F]]; [|rewrite F in G; discriminate G]. apply fle_iff in G. exact (flt_le_contra _ _ P G).
Qed.

(** ** Lemmas: the limited order *)
Definition orderOf (x : Cmd * string * Ctl) : Cmd := fst (fst x).
Definition offer (cmd : Cmd) : f64 := num (kPowerW cmd).

Lemma limits_keep_power cfg s cmd :
  kPowerW (applyChargerPhaseLimit cfg s (applyInstallationLimits s cmd)) = kPowerW cmd.
Proof.
  assert (I : kPowerW (applyInstallationLimits s cmd) = kPowerW cmd).
  { unfold applyInstallationLimits. cbv zeta.
    repeat match goal with |- context [if ?b then _ else _] => destruct b end; reflexivity. }
  rewrite <- I. generalize (applyInstallationLimits s cmd). clear. intros c. unfold applyChargerPhaseLimit. cbv zeta.
  repeat match goal with |- context [if ?b then _ else _] => destruct b end; reflexivity.
Qed.

Lemma turns_same_power cmd : turnsLeft (setPower (offer cmd) cmd) = turnsLeft cmd.
Proof.
  unfold turnsLeft, applyCurrentCeiling, phasesNow, offer. cbn [kMaxAmps setPower kPowerW kVoltage kPhaseMode].
  change (num (Some (num (kPowerW cmd)))) with (num (kPowerW cmd)). destruct (kMaxAmps cmd) as [a|]; [|reflexivity].
  change (ceilingSplit (setPower (num (kPowerW cmd)) cmd) (num (kVoltage cmd)) a) with (ceilingSplit cmd (num (kVoltage cmd)) a).
  destruct (fle _ (of_Z 0)); [reflexivity|]. destruct (flt a (of_Z 6)); [reflexivity|].
  destruct (fle (num (kVoltage cmd)) (of_Z 0)); [reflexivity|]. destruct (flt _ _); reflexivity.
Qed.

Lemma lower_number w q : isNaN q = false -> w = of_Z 0 \/ flt w q = true -> isNaN w = false.
Proof.
  intros N [->|L]; [apply isNaN_false_iff, of_Z_nn; lia|]. destruct w; [discriminate L|reflexivity|reflexivity].
Qed.

(** Two passes with the budget between them leave nothing to lower. *)
Lemma two_passes c1 p why r : isNaN (offer c1) = false -> turnsLeft c1 <= 1 -> lessOr (offer c1) p ->
  withinCurrent (fst (passCeiling why (setPower p c1, r))).
Proof.
  intros N T P. apply under_within, one_turn_ends. destruct P as [->|[->|P]].
  - now rewrite turns_same_power.
  - rewrite (turns_under _ (ceiling_zero c1)). lia.
  - apply turns_lower; [exact T|exact (P N)].
Qed.

Lemma pass_fields why x :
  kMaxAmps (fst (passCeiling why x)) = kMaxAmps (fst x) /\ kPhaseMode (fst (passCeiling why x)) = kPhaseMode (fst x).
Proof. destruct (pass_power why x) as [->|(w & -> & _)]; split; reflexivity. Qed.
Lemma pass_lower why x : offer (fst (passCeiling why x)) = offer (fst x) \/
  offer (fst (passCeiling why x)) = of_Z 0 \/ flt (offer (fst (passCeiling why x))) (offer (fst x)) = true.
Proof. destruct (pass_power why x) as [->|(w & -> & [->|L])]; auto. Qed.

Lemma limit_order w c cfg choice cmd r :
  let c' := snd (limitOrder w c cfg choice cmd r) in
  let out := orderOf (limitOrder w c cfg choice cmd r) in
  ctTick c' = ctTick c /\ underFuse (site w) out /\ (isNaN (offer cmd) = false -> withinCurrent out) /\
  (wdFuseEVMax w <> None -> forall cap, fuseCapFor w c (cfID cfg) = Some cap -> le_rel (of_Z 0) cap ->
     flt cap (offer out) = false) /\
  (flt (of_Z 0) (offer out) = true -> tkCaps (ctTick c) <> None -> fusePhase (str (kPhaseMode out)) = fusePhase (chMode choice)).
Proof.
  cbv zeta. unfold limitOrder.
  pose proof (charger_fuse cfg _ _ (installation_fuse (site w) cmd)) as U. pose proof (limits_keep_power cfg (site w) cmd) as K.
  set (cmd0 := applyChargerPhaseLimit _ _ _) in *. clearbody cmd0.
  pose proof (turns_after_pass cmd0 "charger_limit" r) as T. pose proof (pass_fields "charger_limit" (cmd0, r)) as [A1 M1].
  pose proof (pass_lower "charger_limit" (cmd0, r)) as L1. destruct (passCeiling "charger_limit" (cmd0, r)) as [c1 r1].
  cbn [fst] in *. set (cc := withDemands _ c). change (ctTick c) with (ctTick cc).
  assert (F : fuseCapFor w c (cfID cfg) = fuseCapFor w cc (cfID cfg)) by reflexivity. rewrite F. clearbody cc. clear F.
  destruct (budget_order w cc cfg choice c1 r1) as (p & B & P & C & M). destruct (budgetOrder w cc cfg choice (c1, r1)) as [b rb].
  cbn [fst] in B. subst b. pose proof (two_passes c1 p "fuse_limit" rb) as W.
  pose proof (pass_fields "fuse_limit" (setPower p c1, rb)) as [A2 M2]. pose proof (pass_lower "fuse_limit" (setPower p c1, rb)) as L2.
  destruct (passCeiling "fuse_limit" (setPower p c1, rb)) as [out ro]. cbn [fst snd] in *.
  change (offer (setPower p c1)) with p in L2. change (kMaxAmps (setPower p c1)) with (kMaxAmps c1) in A2.
  change (kPhaseMode (setPower p c1)) with (kPhaseMode c1) in M2. set (out' := match capAmpsPerPhase w cfg out cc with Some a => _ | None => _ end).
  assert (O : offer out' = offer out /\ kMaxAmps out' = kMaxAmps out /\ kPhaseMode out' = kPhaseMode out /\
              (withinCurrent out -> withinCurrent out')) by (unfold out'; destruct (capAmpsPerPhase w cfg out cc); split_and!; easy).
  destruct O as (O1 & O2 & O3 & O4). change (orderOf (out', ro, cc)) with out'. clearbody out'. rewrite O1, O3.
  split; [reflexivity|]. split; [intros H; rewrite O2, A2, A1; exact (U H)|]. split; [|split].
  - intros N. apply O4, W; [|exact T|exact P]. unfold offer in *; rewrite <- K in N.
    destruct L1 as [L|L]; [now rewrite L|exact (lower_number _ _ N L)].
  - intros H cap E N. specialize (C H cap E N). destruct L2 as [->|[->|L]]; [exact C|now apply le_flt_false|].
    destruct (flt cap (offer out)) eqn:X; [|reflexivity]. rewrite (flt_trans _ _ _ X L) in C. discriminate C.
  - intros H. rewrite M2. apply M. destruct L2 as [<-|[L|L]]; [exact H| |exact (flt_trans _ _ _ H L)].
    rewrite L, flt_irrefl in H. discriminate H.
Qed.

(** ** Lemmas: the tick's budget is the same for every charger *)
Lemma completion_tick w cfg now c : ctTick (snd (vehicleCompletionOffer w cfg now c)) = ctTick c.
Proof.
  unfold vehicleCompletionOffer. destruct (ctStates c !! cfID cfg) as [st|]; [|reflexivity]. cbv zeta.
  destruct (completionOffer _ _ _ _) as [o st']. reflexivity.
Qed.

Lemma autoPower_tick localDay w now cfg sample choice c :
  ctTick (snd (autoPower localDay w now cfg sample choice c)) = ctTick c.
Proof.
  unfold autoPower. cbv zeta. pose proof (completion_tick w cfg now c) as V. set (d := currentDirective w c). clearbody d.
  destruct (computeCommandForBudget _ _ _ _ _) as [[p ready] capped].
  destruct (vehicleCompletionOffer w cfg now c) as [finish c1]. cbn [snd] in V. rewrite <- V. clear V.
  repeat (case_scrut; cbn [snd]); reflexivity.
Qed.

Lemma draft_tick localDay w now cfg sample choice c :
  ctTick (snd (draftOrder localDay w now cfg sample choice c)) = ctTick c.
Proof.
  unfold draftOrder, GetManualHold. set (c0 := withHolds _ c). change (ctTick c) with (ctTick c0). clearbody c0.
  destruct (liveHold _ _ _) as [h|]; [destruct (holdOrder w cfg h); reflexivity|].
  pose proof (autoPower_tick localDay w now cfg sample choice c0) as A.
  destruct (autoPower _ _ _ _ _ _ _) as [[p r] c1]. exact A.
Qed.

Lemma saveOffer_tick now cfg sample p mode r c : ctTick (saveOffer now cfg sample p mode r c) = ctTick c.
Proof.
  unfold saveOffer. destruct (ctStore c) as [store|]; [|reflexivity]. destruct (_ || _ || _); [reflexivity|].
  cbv zeta. destruct (_ || _); reflexivity.
Qed.

(** The record changes nothing of the order but the power expected of it. *)
Lemma record_order w now cfg sample cmd r at' c :
  let '(cmd', c') := recordOrder w now cfg sample cmd r at' c in
  ctTick c' = ctTick c /\ (cmd' = cmd \/ exists x, cmd' = setExpected x cmd).
Proof.
  unfold recordOrder. cbv zeta.
  match goal with |- context [saveOffer ?n ?f ?s ?p ?m ?r ?c1] =>
    pose proof (saveOffer_tick n f s p m r c1) as S; generalize dependent (saveOffer n f s p m r c1) end.
  intros c' S. split; [rewrite S; reflexivity|]. unfold setIf. destruct (match ctStates c' !! _ with Some _ => _ | None => _ end); eauto.
Qed.

(** What an order may not exceed: the charger's share of the budget [total], the
    site fuse, and the phases the tick chose. *)
Definition orderSafe (w : World) (cap : f64) (mode : string) (cmd : Cmd) : Prop :=
  flt cap (offer cmd) = false /\ underFuse (site w) cmd /\
  (flt (of_Z 0) (offer cmd) = true -> fusePhase (str (kPhaseMode cmd)) = fusePhase mode).

Lemma cap_of w c caps id : tkCaps (ctTick c) = Some caps -> fuseCapFor w c id = Some (capOf c id).
Proof. unfold fuseCapFor, capOf. intros ->. reflexivity. Qed.

Lemma charge_order localDay w now cfg sample choice c caps :
  tkCaps (ctTick c) = Some caps -> wdFuseEVMax w <> None -> le_rel (of_Z 0) (capOf c (cfID cfg)) ->
  let '(cmd, _, c') := chargeOrder localDay w now cfg sample choice c in
  ctTick c' = ctTick c /\ orderSafe w (capOf c (cfID cfg)) (chMode choice) cmd /\
  (isNaN (offer (fst (fst (fst (draftOrder localDay w now cfg sample choice c))))) = false -> withinCurrent cmd).
Proof.
  intros T W N. unfold chargeOrder. pose proof (draft_tick localDay w now cfg sample choice c) as D.
  destruct (draftOrder _ _ _ _ _ _ _) as [[[cmd r] at'] c1]. cbn [fst snd] in *.
  pose proof (limit_order w c1 cfg choice cmd r) as L. cbv zeta in L. unfold orderOf in L.
  destruct (limitOrder _ _ _ _ _ _) as [[cmd2 r2] c2]. cbn [fst snd] in L. destruct L as (L0 & L1 & L2 & L3 & L4).
  pose proof (record_order w now cfg sample cmd2 r2 at' c2) as R. destruct (recordOrder _ _ _ _ _ _ _ _) as [cmd3 c3].
  destruct R as [R0 R1]. split; [congruence|].
  assert (C : capOf c1 (cfID cfg) = capOf c (cfID cfg)) by (unfold capOf; now rewrite D).
  rewrite <- D in T. rewrite <- C in *. specialize (L3 W _ (cap_of w c1 caps (cfID cfg) T) N).
  assert (K : tkCaps (ctTick c1) <> None) by (rewrite T; discriminate). unfold orderSafe.
  destruct R1 as [->|[x ->]]; [now split_and!; auto|]. split_and!; [exact L3|exact L1|intros P; exact (L4 P K)|exact L2].
Qed.

(** C12: Whatever a hold, the plan, surplus, a wake or a finishing car asks for,
    the order that goes to the charger's driver is at most the charger's share
    of the frozen fuse budget, names a current limit no higher than the site
    fuse, runs on the phases the budget was split for, and, when the power asked
    for is a number, needs no more current than its limit on the phases it
    will use; neither pass of the current ceiling undoes another limit. *)
Theorem charger_order_safe localDay w now cfg sample choice c caps
    (Hcaps : tkCaps (ctTick c) = Some caps) (Hwired : wdFuseEVMax w <> None)
    (Hshare : flt (capOf c (cfID cfg)) (of_Z 0) = false) (Hnum : isNaN (capOf c (cfID cfg)) = false)
    (Hdraft : isNaN (offer (fst (fst (fst (draftOrder localDay w now cfg sample choice c))))) = false) :
  let cmd := orderOf (chargeOrder localDay w now cfg sample choice c) in
  orderSafe w (capOf c (cfID cfg)) (chMode choice) cmd /\ withinCurrent cmd.
Proof.
  assert (N : le_rel (of_Z 0) (capOf c (cfID cfg))).
  { apply flt_false; [exact Hshare|now apply isNaN_false_iff|apply of_Z_nn; lia]. }
  pose proof (charge_order localDay w now cfg sample choice c caps Hcaps Hwired N) as O. cbv zeta. unfold orderOf.
  destruct (chargeOrder _ _ _ _ _ _ _) as [[cmd r] c']. cbn [fst]. destruct O as (_ & O1 & O2). exact (conj O1 (O2 Hdraft)).
Qed.

(** ** Lemmas: the tick *)
Lemma restore_tick w now samples c : ctTick (restoreOffers w now samples c) = ctTick c.
Proof.
  unfold restoreOffers. generalize (wdConfigs w). intros l. revert c. induction l as [|cfg l IH]; intros c; [reflexivity|].
  cbn [fold_left]. rewrite IH. unfold restoreOne. cbv zeta. repeat case_scrut; reflexivity.
Qed.

Definition outSafe (w : World) (c : Ctl) (out : string * Cmd * string) : Prop :=
  let '(id, cmd, _) := out in orderSafe w (capOf c id) (chMode (choiceOf c id)) cmd.

Lemma tick_one localDay w now ob choice allowed c caps :
  tkCaps (ctTick c) = Some caps -> wdFuseEVMax w <> None -> le_rel (of_Z 0) (capOf c (cfID (obCfg ob))) ->
  ctTick (snd (tickOne localDay w now ob choice allowed c)) = ctTick c /\
  match fst (tickOne localDay w now ob choice allowed c) with
  | Some (cmd, _) => orderSafe w (capOf c (cfID (obCfg ob))) (chMode choice) cmd
  | None => True
  end.
Proof.
  intros T W N. unfold tickOne. destruct (saConnectionUnknown _); [easy|]. destruct (negb (saConnected _)).
  - cbv zeta. destruct (match wdUnplugged w !! _ with Some _ => _ | None => _ end); split; easy.
  - cbv zeta. set (c0 := if obWasPlugged ob then c else _).
    assert (E : ctTick c0 = ctTick c) by (unfold c0; destruct (obWasPlugged ob); reflexivity).
    assert (C : capOf c (cfID (obCfg ob)) = capOf c0 (cfID (obCfg ob))) by (unfold capOf; now rewrite E).
    rewrite <- E in T |- *. rewrite C in *. clearbody c0. destruct (_ || _); [easy|].
    pose proof (charge_order localDay w now (obCfg ob) (obSample ob) choice c0 caps T W N) as O.
    destruct (chargeOrder _ _ _ _ _ _ _) as [[cmd r] c']. cbn [fst snd]. destruct O as (O0 & O1 & _). now split.
Qed.

Lemma tick_all localDay w now allowed caps choices os : forall c,
  tkCaps (ctTick c) = Some caps -> tkChoices (ctTick c) = choices -> wdFuseEVMax w <> None ->
  Forall (fun o => le_rel (of_Z 0) (capOf c (cfID (obCfg o)))) os ->
  Forall (outSafe w c) (fst (tickAll localDay w now allowed choices os c)).
Proof.
  induction os as [|o os IH]; intros c T H W F; [constructor|]. apply Forall_cons in F as [N F']. cbn [tickAll].
  destruct (tick_one localDay w now o (default noChoice (choices !! cfID (obCfg o))) allowed c caps T W N) as [E O].
  destruct (tickOne _ _ _ _ _ _ _) as [out c1]. cbn [fst snd] in *.
  assert (C : forall id, capOf c1 id = capOf c id) by (intros id; unfold capOf; now rewrite E).
  specialize (IH c1). rewrite E in IH. specialize (IH T H W).
  assert (F1 : Forall (fun o => le_rel (of_Z 0) (capOf c1 (cfID (obCfg o)))) os).
  { eapply Forall_impl; [exact F'|]. intros x Hx. cbn beta in Hx |- *. now rewrite C. }
  specialize (IH F1). destruct (tickAll _ _ _ _ _ _ _) as [outs c2]. cbn [fst] in *.
  assert (G : Forall (outSafe w c) outs).
  { eapply Forall_impl; [exact IH|]. intros [[id cmd] r]. unfold outSafe, choiceOf. now rewrite C, E. }
  destruct out as [[cmd r]|]; [constructor; [|exact G]|exact G].
  unfold outSafe, choiceOf. now rewrite H.
Qed.

Lemma shares_not_negative w total c id : sharesFit w total c -> id ∈ (cfID <$> wdConfigs w) -> le_rel (of_Z 0) (capOf c id).
Proof.
  intros (order & lucky & P & _ & F) I. rewrite <- P in I. rewrite Forall_forall in F. exact (proj1 (F id I)).
Qed.


(** ** A tick
    A charger held at 11,040 W on a budget of 5 kW is ordered the highest step
    the budget carries. *)
Definition demoCharger : LPConfig :=
  mkConfig "a" "driver" (of_Z 1380) (of_Z 11040) [of_Z 1380; of_Z 4140; of_Z 11040] "3p" (of_Z 0) 0 false.
Definition demoHour : Time := 1000 * Hour.
Definition demoWorld : World :=
  mkWorld [demoCharger] ∅ (mkEnv (mkFuse (of_Z 0) (of_Z 0) 3) None None None None)
    (fun _ => true) (Some None) (Some (Some (of_Z 5000))) None None None ∅ demoHour.
Definition demoSample : EVSample :=
  mkSample false 0 (of_Z 0) (of_Z 0) false false demoHour 0 demoHour true true "dev" "s1".
Definition demoHold : ManualHold :=
  mkManual (of_Z 11040) "3p" (of_Z 0) 0 (of_Z 0) (of_Z 0) 0 zeroTime true (of_Z 0) demoHour demoHour "owner".
Definition demoCtl : Ctl := mkCtl ∅ noSurplus (<["a"%string := demoHold]> ∅) ∅ ∅ noTick [] ∅ None.
Definition demoSeen : list observation := [mkObs demoCharger demoSample true].
Definition demoDay (t : Time) : Z := t / (24 * Hour).
Example held_charger :
  (fun '(id, cmd, r) => (id, kPowerW cmd, kPhaseMode cmd, r)) <$>
    fst (TickWithDispatch demoDay (fun c => c) demoWorld demoHour demoSeen true demoCtl) =
  [("a"%string, Some (of_Z 4140), Some "3p"%string, "fuse_limit"%string)].
Proof. vm_compute. reflexivity. Qed.


(** The same hold on a share of 5 kW frozen earlier in the tick. *)
Definition demoShared : Ctl :=
  withTick (mkTick true None (Some (<["a"%string := of_Z 5000]> ∅)) ∅ "" (<["a"%string := mkChoice false false [] "3p"]> ∅)) demoCtl.
Lemma charger_order_safe_witness :
  let cmd := orderOf (chargeOrder demoDay demoWorld demoHour demoCharger demoSample (mkChoice false false [] "3p") demoShared) in
  orderSafe demoWorld (capOf demoShared "a") "3p" cmd /\ withinCurrent cmd.
Proof.
  apply (charger_order_safe demoDay demoWorld demoHour demoCharger demoSample (mkChoice false false [] "3p") demoShared
           (<["a"%string := of_Z 5000]> ∅)).
  - reflexivity.
  - discriminate.
  - vm_compute. reflexivity.
  - vm_compute. reflexivity.
  - vm_compute. reflexivity.
Defined.
