(* ===== verification/EvOffers.v ===== *)
(** * What the site meter shows of the cars' offers
    (go/internal/control/ev_fuse_budget.go, go/internal/loadpoint/deadline_need.go)

    The managed chargers' offers as the EV meter limit keeps them: recording
    each tick's offers, reading each new site reading against the last one,
    and counting the load our orders still add or take off. *)
From Stdlib Require Import ZArith Lia.
From S2P Require Import Prelude Float64 GoTime Json Kalman Health Telemetry Observations Limits CommandLog Site.
From S2P Require Import ImportHour PhaseFuse FuseHeat ControlState FuseRelief FuseGuard EvHeadroom LoadpointData.
From stdpp Require Import base gmap strings list.
#[local] Open Scope Z_scope.

(** ** What was commanded *)
Definition commandedStep (m : gmap string f64) (p : LPState) : gmap string f64 :=
  if negb (lpPluggedIn p) || negb (lpCommandedKnown p) || negb (finite (lpCommandedW p)) then m
  else
    match m !! lpDriver p with
    | Some w => if flt w (lpCommandedW p) then <[lpDriver p := lpCommandedW p]> m else m
    | None => <[lpDriver p := lpCommandedW p]> m
    end.
Definition CommandedEVPowerByDriver (states : list LPState) : gmap string f64 :=
  fold_left commandedStep states ∅.

(** The builtin [min]: NaN wins. *)
Definition minNaN (x y : f64) : f64 := if isNaN x || isNaN y then NaN else fmin x y.
(** [slices.Min] and [slices.Max] of a slice that is not empty. *)
Definition slicesMin (l : list f64) : f64 := match l with [] => NaN | x :: l => fold_left minNaN l x end.
Definition slicesMax (l : list f64) : f64 := match l with [] => NaN | x :: l => fold_left maxNaN l x end.

(** A charger the limit has not seen. *)
Definition noOffers : chargerOffers :=
  mkOffers [] 0 false noCommand "" (of_Z 0) [] zeroTime 0 0 no3 false no3 (of_Z 0) false.

Definition latestOffer (c : chargerOffers) : sentCommand := default noCommand (last (oLog c)).

Definition withShown (shown : list f64) (uns : bool) (c : chargerOffers) : chargerOffers :=
  mkOffers (oLog c) (settle c) (declared c) (found c) (oDriver c) (CommandLog.maxW c) (draws c) (watchFrom c)
    (carPhases c) (carPhase c) shown uns (riseBaseA c) (riseFromA c) (riseSet c).
Definition withRise (base : list f64) (from : f64) (set : bool) (c : chargerOffers) : chargerOffers :=
  mkOffers (oLog c) (settle c) (declared c) (found c) (oDriver c) (CommandLog.maxW c) (draws c) (watchFrom c)
    (carPhases c) (carPhase c) (shownA c) (unsure c) base from set.
Definition withLog (l : CommandLog.commandLog) (c : chargerOffers) : chargerOffers :=
  mkOffers l (settle c) (declared c) (found c) (oDriver c) (CommandLog.maxW c) (draws c) (watchFrom c)
    (carPhases c) (carPhase c) (shownA c) (unsure c) (riseBaseA c) (riseFromA c) (riseSet c).
Definition withFound (f : sentCommand) (shown : list f64) (c : chargerOffers) : chargerOffers :=
  mkOffers (oLog c) (settle c) (declared c) f (oDriver c) (CommandLog.maxW c) (draws c) (watchFrom c)
    (carPhases c) (carPhase c) shown (unsure c) (riseBaseA c) (riseFromA c) (riseSet c).
Definition withPoint (settle_ : Duration) (declared_ : bool) (p : LPState) (c : chargerOffers) : chargerOffers :=
  mkOffers (oLog c) settle_ declared_ (found c) (lpDriver p) (lpMaxChargeW p) (draws c) (watchFrom c)
    (lpCarPhases p) (lpCarPhase p) (shownA c) (unsure c) (riseBaseA c) (riseFromA c) (riseSet c).

(** [math.Min(high, math.Max(low, x))]. *)
Definition within_ (range : f64 * f64) (x : f64) : f64 := fmin (snd range) (fmax (fst range) x).

(** ** A raise the meter has still to show *)
Definition repeat3 (x : f64) : list f64 := replicate 3 x.

Definition riseAheadA (s : Site) (lim : evMeterLimit) (c : chargerOffers) : list f64 :=
  let n := Z.min (SiteFusePhases s) 3 in
  if negb (riseSet c) || negb (phasesSeen (phases lim)) || (n <? 2) || (length (oLog c) =? 0)%nat then no3
  else
    let latest := latestOffer c in
    let rises := take (Z.to_nat n) (zip_with fsub (phasesA (phases lim)) (riseBaseA c)) in
    let one := (0 <? carPhase c) && (carPhase c <=? n) in
    let riseA :=
      if one then nth (Z.to_nat (carPhase c - 1)) rises NaN
      else if negb (carPhases c =? 3) || (cn latest =? 1) then slicesMax rises
      else slicesMin rises in
    let range := offerRangeA c (lReadingAt (cap lim)) in
    let toComeA := fmax (of_Z 0) (fsub (ca latest) (within_ range (fadd (riseFromA c) riseA))) in
    (fun i => let i := Z.of_nat i in
              if (if one then i =? carPhase c - 1 else i <? n) then toComeA else of_Z 0) <$> seq 0 3.

(** ** Reading a new site reading against the last one *)
(** The most one of our battery orders of the last [evSettle] moves the site. *)
Definition orderMoves (s : Site) (now : Time) (log : CommandLog.commandLog) : bool :=
  match span log now with
  | Some x =>
      fle (fmul (fmul evMoveA (SiteFuseVoltage s)) (of_Z (SiteFusePhases s))) (fsub (spHigh x) (spLow x))
  | None => false
  end.
Definition batteryOrderMoves `{MapIter} (st : State) (now : Time) : bool :=
  existsb (fun x => orderMoves (site st) now (snd x)) (map_iter (batteryCommands (sentTo st))).

(** The move per phase a charger's orders can take from a meter's move. *)
Definition offerMoveA (c : chargerOffers) (alikeA oneA : f64) (phase : Z) : f64 :=
  if (0 <? carPhase c) || (match oLog c with o :: _ => cn o =? 1 | [] => false end) then
    let m := fmin (of_Z 0) alikeA in if carPhase c =? phase then fadd m oneA else m
  else alikeA.

(** Toward the latest offer, never past it. *)
Definition moveShownA (latestA m shown : f64) : f64 :=
  if flt m (of_Z 0) && flt latestA shown then fmax latestA (fadd shown m)
  else if flt (of_Z 0) m && flt shown latestA then fmin latestA (fadd shown m)
  else shown.

Definition seeOne (s : Site) (lim : evMeterLimit) (move : option (f64 * f64 * Z)) (c : chargerOffers)
  : chargerOffers :=
  let c :=
    match move with
    | Some (alikeA, oneA, phase) =>
        if readable c then
          withShown (moveShownA (ca (latestOffer c)) (offerMoveA c alikeA oneA phase) <$> shownA c) (unsure c) c
        else withShown (shownA c) true c
    | None => withShown (shownA c) true c
    end in
  let range := offerRangeA c (lReadingAt (cap lim)) in
  let c := withShown (within_ range <$> shownA c) (unsure c && flt (fst range) (snd range)) c in
  if fle (snd range) (fst range) || forallb (fun a => feq a (of_Z 0)) (riseAheadA s lim c)
  then withRise (riseBaseA c) (riseFromA c) false c else c.

Definition seeOffers `{MapIter} (meter : DerReading) (gridW : f64) (now : Time) (st : State)
    (lim : evMeterLimit) : evMeterLimit :=
  let r := phaseCurrentsA meter (site st) gridW in
  let now3 := copyInto (amps r) no3 in
  let ph := phases lim in
  let prev := phasesA ph in
  let n := length (amps r) in
  let read := valid r && phasesSeen ph && (size (offers lim) =? 1)%nat && (2 <=? n)%nat &&
              negb (batteryOrderMoves st now) in
  let lim := withPhases (mkEVPhases (phaseRoomA ph) (phaseRoomKnown ph) now3 (valid r)) lim in
  let move := if read then Some (chargerMoveA (take n prev) (take n now3)) else None in
  withOffers (seeOne (site st) lim move <$> offers lim) lim.

(** ** Load our orders still add or take off *)
Record pending : Type := mkPending { pendW : f64; pendA : list f64 }.
Definition noPending : pending := mkPending (of_Z 0) no3.
Definition addPending (w : f64) (as_ : list f64) (p : pending) : pending :=
  mkPending (fadd (pendW p) w) (zip_with fadd (pendA p) as_).

Definition pendingLoad `{MapIter} (lim : evMeterLimit) (at' : Time) : pending :=
  fold_left (fun p x =>
      let '(w, a) := unshown (oLog (snd x)) at' (settle (snd x)) in addPending w (repeat3 a) p)
    (map_iter (offers lim)) noPending.

Definition withBatteryOrders (s : Site) (p : pending) (w : f64) : pending :=
  mkPending (fadd (pendW p) w)
    (if flt (of_Z 0) (SiteFuseVoltage s) && (0 <? SiteFusePhases s)
     then (fun a => fadd a (fdiv w (fmul (SiteFuseVoltage s) (of_Z (SiteFusePhases s))))) <$> pendA p
     else pendA p).

(** What one charger's latest offer still changes beside a reading. *)
Record orderAcc : Type := mkOrders { oRise : pending; oCover : pending; oAheadA : list f64; oLatestW : f64 }.

Definition runCover (perPhase : bool) (lim : evMeterLimit) (at' : Time) (c : chargerOffers) : f64 * f64 :=
  let run := fuseRun lim in
  let coverFor :=
    if negb perPhase || (negb (IsZero (fuseCutAt run)) && (settle c <? Sub at' (fuseCutAt run)))
    then evSettle else settle c in
  let from := GoTime.Add at' (- coverFor) in
  let from := if After (fuseOverAt run) from then fuseOverAt run else from in
  toCome (oLog c) from at' (found c).

(** [(phaseCoverA, phaseRiseA, ahead)]. *)
Definition phaseOrders (s : Site) (perPhase : bool) (lim : evMeterLimit) (at' : Time) (c : chargerOffers)
    (coverA riseA : f64) : list f64 * list f64 * list f64 :=
  if perPhase && phasesSeen (phases lim) && (size (offers lim) =? 1)%nat && (2 <=? SiteFusePhases s) &&
     readable c && negb (unsure c)
  then
    let range := offerRangeA c at' in
    let ahead := riseAheadA s lim c in
    let inSite (i : nat) := Z.of_nat i <? Z.min (SiteFusePhases s) 3 in
    let toComeA i := fsub (ca (latestOffer c)) (within_ range (nth i (shownA c) NaN)) in
    ((fun i => if inSite i then fmin coverA (fmax (of_Z 0) (fneg (toComeA i))) else coverA) <$> seq 0 3,
     (fun i => if inSite i then fmax riseA (nth i ahead NaN) else riseA) <$> seq 0 3, ahead)
  else (repeat3 coverA, repeat3 riseA, no3).

Definition orderStep (s : Site) (perPhase : bool) (lim : evMeterLimit) (at' : Time) (o : orderAcc)
    (x : string * chargerOffers) : orderAcc :=
  let c := snd x in
  let '(w, a) := toCome (oLog c) (GoTime.Add at' (- settle c)) at' (found c) in
  let '(runW, runA) := runCover perPhase lim at' c in
  let latest := latestOffer c in
  let coverA := fmax (of_Z 0) (fmin (fneg a) (fneg runA)) in
  let coverA := if (cn latest =? 1) && (1 <? size (offers lim))%nat then of_Z 0 else coverA in
  let riseA := fmax (of_Z 0) a in
  let '(phaseCoverA, phaseRiseA, ahead) := phaseOrders s perPhase lim at' c coverA riseA in
  mkOrders (addPending (fmax (of_Z 0) w) phaseRiseA (oRise o))
    (addPending (fmax (of_Z 0) (fmin (fneg w) (fneg runW))) phaseCoverA (oCover o))
    (zip_with fadd (oAheadA o) ahead) (fadd (oLatestW o) (cw latest)).

Definition unshownOrders `{MapIter} (s : Site) (lim : evMeterLimit) (at' : Time) (perPhase : bool) : orderAcc :=
  fold_left (orderStep s perPhase lim at') (map_iter (offers lim)) (mkOrders noPending noPending no3 (of_Z 0)).

(** ** Recording this tick's offers *)
(** [(a, n)]: the current on each phase it lands on, and how many. *)
Definition offerPhaseA (s : Site) (w : f64) (ph : Z) : f64 * Z :=
  let n := if (ph =? 3) && (1 <? SiteFusePhases s) then SiteFusePhases s else 1 in
  (if fle (SiteFuseVoltage s) (of_Z 0) then of_Z 0 else fdiv w (fmul (SiteFuseVoltage s) (of_Z n)), n).

(** [(settle, declared)] of a driver. *)
Definition settleOf (store : Store) (driver : string) : Duration * bool :=
  match Get driver DerEV store with
  | Some r =>
      let d := DeclaredPowerMaxAge (Data r) in
      if 0 <? d then (Z.max evSettle d, true) else (evUnknownSettle, false)
  | None => (evUnknownSettle, false)
  end.

Definition sameOffer (c d : sentCommand) : bool := feq (cw c) (cw d) && feq (ca c) (ca d) && (cn c =? cn d).

(** A new offer of one charger. *)
Definition noteOffer (lim : evMeterLimit) (now read : Time) (o : sentCommand) (c : chargerOffers) : chargerOffers :=
  let changed := match last (oLog c) with None => true | Some l => negb (sameOffer l o) end in
  if negb changed then c
  else
    let high := snd (offerRangeA c now) in
    let c :=
      if (length (oLog c) =? 0)%nat && negb (lSet (cap lim)) then withFound o (repeat3 (ca o)) c
      else if flt high (ca o) && negb (riseSet c) && phasesSeen (phases lim)
      then withRise (phasesA (phases lim)) high true c else c in
    withLog (CommandLog.keep (oLog c) o (GoTime.Add read (- settle c))) c.

Definition recordOne (store : Store) (s : Site) (lim : evMeterLimit) (now read : Time) (p : LPState) : chargerOffers :=
  let c := default noOffers (offers lim !! lpID p) in
  let '(settle_, declared_) := settleOf store (lpDriver p) in
  let c := withPoint settle_ declared_ p c in
  let w := fmax (of_Z 0) (lpCommandedW p) in
  let '(a, n) := offerPhaseA s w (lpCommandedPhases p) in
  noteDraw store now (noteOffer lim now read (mkSent now w a n) c).

Definition counts (p : LPState) : bool := lpPluggedIn p && lpCommandedKnown p && finite (lpCommandedW p).

Definition recordEVOffers (store : Store) (s : Site) (now : Time) (points : list LPState) (lim : evMeterLimit)
  : evMeterLimit :=
  let readingAt := lReadingAt (cap lim) in
  let read := if negb (IsZero readingAt) && Before readingAt now then readingAt else now in
  withOffers (fold_left (fun m p => if counts p then <[lpID p := recordOne store s lim now read p]> m else m)
                points ∅) lim.

Definition setCommanded (w : f64) (m : gmap string f64) (s : Site) : Site :=
  mkSite (sMode s) (SiteMeterDriver s) (SiteFuseAmps s) (SiteFuseVoltage s) (SiteFusePhases s) (SiteFuseSafetyA s)
    (PeakImportCeilingW s) (MaxExportW s) (EVChargingW s) (ManualEVChargingW s) (EVSurplusOnlyReserveW s)
    (EVSurplusOnlyChargingW s) (BatteryCoversEV s) (BatteryBoostEVChargingW s) (BatteryBoostReserveSoC s) w m
    (evFuseDemands s) (evFuseDemandsSet s) (MinDispatchIntervalS s) (ControlIntervalS s) (SlotDirectiveFn s)
    (PlanTargetFn s) (planSnapshot s) (PVSurplusAbsorbSoCCap s) (PVSurplusAbsorbThresholdW s) (DriverLimits s).

Section Commanded.
Context `{MapIter}.
Definition CommandedEVPowerW (states : list LPState) : f64 :=
  sumF ((fun x => fmax (of_Z 0) (snd x)) <$> map_iter (CommandedEVPowerByDriver states)).

Definition SetEVCommanded (points : list LPState) (st : State) : State :=
  withSite (setCommanded (CommandedEVPowerW points) (CommandedEVPowerByDriver points) (site st)) st.
End Commanded.
