(* ===== verification/EvMeterLimit.v ===== *)
(** * The managed cars' hard limit at the site meter
    (go/internal/control/ev_fuse_budget.go, ev_battery_priority.go)

    [EVFuseBudget] is the common cap the loadpoint controller divides between
    the cars. It reads the site meter and our own commands. Each site reading
    acts once: [stepEVMeterLimit] cuts, holds, raises or starts. Logging is
    left out. *)
From Stdlib Require Import ZArith Lia.
From S2P Require Import Prelude Float64 GoTime Json Kalman Health Telemetry Observations Limits CommandLog Site.
From S2P Require Import ImportHour PhaseFuse FuseHeat ControlState FuseRelief FuseGuard EvHeadroom LoadpointData EvOffers.
From stdpp Require Import base gmap strings list.
#[local] Open Scope Z_scope.

Definition evRestartDwell : Duration := 35 * Second.
Definition fuseHourFactor : f64 := lit 125 100.
(** The constant 1e-6. *)
Definition roundingW : f64 := lit 1 1000000.

(** ** The pool of plugged managed chargers *)
Record evPool : Type := mkPool {
  offerW : f64; wantW : f64; minW : f64; poolPhases : f64; offerKnown : bool; poolOffers : gmap string f64
}.

Definition configByID (configs : list LPConfig) : gmap string LPConfig :=
  fold_left (fun m c => <[cfID c := c]> m) configs ∅.

Definition poolStep (byID : gmap string LPConfig) (acc : f64 * f64 * bool * bool) (p : LPState)
  : f64 * f64 * bool * bool :=
  let '(phases_, min_, known, plugged) := acc in
  if negb (lpPluggedIn p) then acc
  else
    let cfg := default noConfig (byID !! lpID p) in
    (if negb (String.eqb (cfPhaseMode cfg) "") && negb (String.eqb (cfPhaseMode cfg) "3p") then of_Z 1 else phases_,
     if flt (of_Z 0) (cfMinChargeW cfg) && (feq min_ (of_Z 0) || flt (cfMinChargeW cfg) min_)
     then cfMinChargeW cfg else min_,
     known && lpCommandedKnown p, true).

(** ** Room in EV watts
    The two fields that are only logged are left out. *)
Record evMeterRoom : Type := mkRoom {
  rFuseW : f64; rFuseOverW : f64; rPerPhase : bool; rOverLimit : bool;
  rLimitW : f64; rRiseW : f64; rStartLevelW : f64; rHourly : bool; rMeasured : bool;
  rPhaseRoomA : f64; rPhaseRoomKnown : bool; rStartW : f64; rStartRoomA : f64
}.

Definition wholeStepsW (w step : f64) : f64 :=
  if negb (flt (of_Z 0) step) || isInf w then w
  else fmul (ffloor (fadd (fdiv w step) (lit 1 1000000000))) step.

Section Limit.
Context `{MapIter}.
Variable zone : Time -> Duration.
Variable Expm1 : f64 -> f64.

(** [None] when nothing is plugged in. *)
Definition evPoolFor (s : Site) (points : list LPState) (configs : list LPConfig) : option evPool :=
  let '(ph, min_, known, plugged) :=
    fold_left (poolStep (configByID configs)) points (of_Z 3, of_Z 0, true, false) in
  if negb plugged then None
  else
    Some (mkPool (if known then CommandedEVPowerW points else of_Z 0)
            (if evFuseDemandsSet s then sumF (powerW <$> evFuseDemands s) else Inf false)
            min_
            (if (1 <=? SiteFusePhases s) && flt (of_Z (SiteFusePhases s)) ph then of_Z (SiteFusePhases s) else ph)
            known (CommandedEVPowerByDriver points)).

(** The hour's part: [(limitW, riseW, startLevelW, hourly)]. *)
Definition hourRoom (st : State) (now : Time) (gridW sentW : f64) : f64 * f64 * f64 * bool :=
  let s := site st in
  match importHourLimitsW zone s now (importHour st) with
  | None => (Inf false, Inf false, Inf false, false)
  | Some (limit, rise) =>
      let start :=
        if Sub (GoTime.Add (importHourStart zone now) Hour) now <? importHourRiseMinLeft
        then fmin rise (PeakImportCeilingW s) else rise in
      (fsub limit gridW, fsub (fsub rise gridW) sentW, start, importHourMeasured zone s now (importHour st))
  end.

Definition evMeterRoomOf (st : State) (now : Time) (meter : DerReading) (gridW phases_ fuseMaxW : f64)
    (sent : pending) : evMeterRoom :=
  let s := site st in
  let h := heat st in
  let totalW := fsub (fmax (of_Z 0) (fsub fuseMaxW (fuseSafetyMarginW s))) gridW in
  let fuseW := fsub totalW (pendW sent) in
  let overW := fmax (of_Z 0) (fneg totalW) in
  let overLimit := flt totalW (of_Z 0) in
  let '(limit, rise, start, hourly) := hourRoom st now gridW (pendW sent) in
  let r := phaseCurrentsA meter s gridW in
  if present r && negb (valid r) then
    mkRoom fuseW overW false overLimit limit rise start hourly false (of_Z 0) true fuseW (of_Z 0)
  else if negb (present r) then
    mkRoom fuseW overW false overLimit limit rise start hourly true (of_Z 0) false fuseW (of_Z 0)
  else
    let limitA := fuseLineA s in
    let worst := fold_left fmax (amps r) (of_Z 0) in
    let watts a := fmul (fmul a (SiteFuseVoltage s)) phases_ in
    let overA := overA (amps r) limitA (fmul fuseInstantFactor (SiteFuseAmps s)) h in
    mkRoom (fmin fuseW (watts (fsub limitA (levelA (amps r) (pendA sent) h)))) (watts overA) true (flt limitA worst)
      limit rise start hourly true
      (fsub limitA (levelA (amps r) no3 h)) true
      (fmin fuseW (watts (fsub limitA (startLevelA (amps r) (pendA sent) limitA h))))
      (fsub limitA (startLevelA (amps r) no3 limitA h)).

(** ** A battery charge yields before the car *)
Definition hasBatteryCharge (st : State) (now : Time) : bool :=
  existsb (fun x => match span (snd x) now with Some p => flt (of_Z 0) (spLatest p) | None => false end)
    (map_iter (batteryCommands (sentTo st))).

(** Charge the meter may show, and charge commanded now. *)
Definition yieldable (store : Store) (st : State) (now : Time) : f64 * f64 :=
  fold_left (fun '(available, commanded) '(driver, log) =>
      match GetHealth driver store, span log now with
      | Some h, Some p =>
          if IsOnline h && finite (spHigh p) && finite (spLatest p)
          then (fadd available (fmax (of_Z 0) (spHigh p)), fadd commanded (fmax (of_Z 0) (spLatest p)))
          else (available, commanded)
      | _, _ => (available, commanded)
      end) (map_iter (batteryCommands (sentTo st))) (of_Z 0, of_Z 0).

(** No phase, read or heated, comes over the line with what is on its way. *)
Definition phasesHold (s : Site) (h : fuseHeat) (as_ : list f64) (rise : pending) (pendingA : f64) : bool :=
  forallb (fun '(a, sq, riseA) => negb (flt (fuseLineA s) (fadd (fadd (fmax a (fsqrt sq)) riseA) pendingA)))
    (zip (zip as_ (hSq h)) (pendA rise)).

Definition yieldBatteryBeforeEVCut (store : Store) (st : State) (now : Time) (meter : DerReading)
    (r : evMeterRoom) (pool : evPool) (requiredW gridW pendingBatteryW : f64) (rise : pending) (fresh : bool)
    (y : evBatteryYield) : bool * evBatteryYield :=
  let s := site st in
  let perA := fmul (SiteFuseVoltage s) (of_Z (SiteFusePhases s)) in
  if negb fresh || negb (rPerPhase r) || fle (offerW pool) (of_Z 0) || fle requiredW (of_Z 0) ||
     fle (SiteFuseVoltage s) (of_Z 0) || (SiteFusePhases s <=? 0)
  then (false, y)
  else
    let p := phaseCurrentsA meter s gridW in
    if negb (present p) || negb (valid p) ||
       flt (fmul (fmul (fuseLineA s) (SiteFuseVoltage s)) (of_Z (SiteFusePhases s)))
         (fadd (fadd gridW (pendW rise)) pendingBatteryW)
    then (false, y)
    else if negb (phasesHold s (heat st) (amps p) rise (fdiv pendingBatteryW perA)) then (false, y)
    else
      let '(available, commanded) := yieldable store st now in
      if flt (fadd available roundingW) requiredW then (false, y)
      else if existsb (fun a => flt (fsub a (fdiv requiredW perA)) (fneg (SiteFuseAmps s))) (amps p) then (false, y)
      else
        let y := if yTried y then y else mkYield true (GoTime.Add now evSettle) (yActive y) (yMaxChargeW y) in
        if negb (Before now (yUntil y)) then (false, y)
        else (true, mkYield (yTried y) (yUntil y) true (fmax (of_Z 0) (fsub commanded requiredW))).

(** ** The cut on the fuse *)
(** A run over the working limit, at one reading. *)
Definition stepFuseRun (at' : Time) (overLimit gap : bool) (run : evFuseRun) : evFuseRun :=
  if overLimit then
    if IsZero (fuseOverAt run) || gap then mkEVRun at' zeroTime zeroTime
    else mkEVRun (fuseOverAt run) (fuseCutAt run) zeroTime
  else if IsZero (fuseUnderAt run) then mkEVRun (fuseOverAt run) (fuseCutAt run) at'
  else if evSettle <=? Sub at' (fuseUnderAt run) then mkEVRun zeroTime zeroTime (fuseUnderAt run)
  else run.

(** What one phase needs cut. *)
Definition phaseNeedA (lineA instantA riseA : f64) (sq a aheadA coverA : f64) (cutFor_ : option f64) : f64 :=
  let coverA :=
    match cutFor_ with
    | Some c => if flt (fadd c evMoveA) a then fmin coverA (fmax (of_Z 0) (fsub c lineA)) else coverA
    | None => coverA
    end in
  let hot := flt (fmul lineA lineA) sq in
  let landA := fsub (fadd a aheadA) coverA in
  let needA :=
    if flt instantA landA || (hot && flt lineA landA)
    then fmin (fsub aheadA coverA) (fsub landA lineA) else of_Z 0 in
  if flt lineA a && (hot || flt instantA a)
  then fmax needA (fsub (fsub (fadd a riseA) coverA) lineA) else needA.

Definition cutPhasesA (s : Site) (h : fuseHeat) (lim : evMeterLimit) (o : orderAcc) (coverA : list f64) : f64 :=
  let riseA := fold_left maxNaN (tail (pendA (oRise o))) (nth 0 (pendA (oRise o)) NaN) in
  let c := cutFor lim in
  let need i :=
    phaseNeedA (fuseLineA s) (fmul fuseInstantFactor (SiteFuseAmps s)) riseA (nth i (hSq h) NaN)
      (nth i (phasesA (phases lim)) NaN) (nth i (oAheadA o) NaN) (nth i coverA NaN)
      (if cutForSet c then Some (nth i (cutForA c) NaN) else None) in
  fold_left (fun cut i => fmax cut (need i)) (seq 0 (Z.to_nat (SiteFusePhases s))) (of_Z 0).

(** [(fuseCutW, over)], with the cover's bookkeeping. *)
Definition fuseCut (s : Site) (h : fuseHeat) (lim : evMeterLimit) (r : evMeterRoom) (o : orderAcc) (phases_ : f64)
  : f64 * bool * evMeterLimit :=
  if rPerPhase r && phasesSeen (phases lim) then
    let coverA := if flt (fmul fuseHourFactor (SiteFuseAmps s)) (worstA h) then no3 else pendA (oCover o) in
    let lim :=
      if fle (slicesMax (take (Z.to_nat (SiteFusePhases s)) coverA)) (of_Z 0)
      then withCutFor (mkEVCutFor (cutForA (cutFor lim)) false) lim else lim in
    let cutA := cutPhasesA s h lim o coverA in
    (fmul (fmul cutA (SiteFuseVoltage s)) phases_, flt (of_Z 0) (rFuseOverW r) || flt (of_Z 0) cutA, lim)
  else
    (fsub (fadd (rFuseOverW r) (pendW (oRise o))) (pendW (oCover o)), flt (of_Z 0) (rFuseOverW r), lim).

(** The latest offers less the cut, in whole charger amps per phase. *)
Definition fuseCapW (perPhase : bool) (latestW cutW step : f64) : f64 :=
  if flt (of_Z 0) cutW
  then (if perPhase then wholeStepsW (fsub latestW cutW) step else fsub latestW cutW) else latestW.

(** ** The cut on the hour's import limit: [(capW, byImport, over)] *)
Definition hourCut (r : evMeterRoom) (pool : evPool) (at' : Time) (gap over : bool) (peakW step capW : f64)
    (lim : evMeterLimit) : f64 * bool * bool * evMeterLimit :=
  if fle (of_Z 0) (rLimitW r) then (capW, false, over, withHourRun zeroTime (overOffers lim) lim)
  else
    let lim := if IsZero (overSince lim) || gap then withHourRun at' (poolOffers pool) lim else lim in
    if negb (rHourly r) || gap || fle step (fneg (rLimitW r)) || (evSettle <=? Sub at' (overSince lim))
    then
      let hourW := fadd peakW (rLimitW r) in
      (fmin capW hourW, negb over || flt hourW capW, true, lim)
    else (capW, false, over, lim).

(** The highest reading each phase's cuts on their way were sent on. *)
Definition noteCutFor (lim : evMeterLimit) : evMeterLimit :=
  let c := cutFor lim in
  if phasesSeen (phases lim)
  then withCutFor (mkEVCutFor (zip_with (fun a f => if negb (cutForSet c) || flt f a then a else f)
                                 (phasesA (phases lim)) (cutForA c)) true) lim
  else lim.

Definition setCap (c : evCap) (w : f64) (cut room : Time) (byImport_ : bool) : evCap :=
  mkEVCap (lSet c) w cut (lReadingAt c) room (lIdleWh c) byImport_.

(** Over a limit: the battery yields, or the cap comes down. *)
Definition applyCut (store : Store) (st : State) (now : Time) (meter : DerReading) (r : evMeterRoom)
    (pool : evPool) (gridW pendingW prev capW latestW : f64) (byImport_ : bool) (rise : pending) (fresh : bool)
    (lim : evMeterLimit) : evMeterLimit :=
  let requiredW := fmax (of_Z 0) (fsub latestW capW) in
  let requiredW :=
    if negb byImport_ && flt (of_Z 0) (poolPhases pool)
    then fmul requiredW (fdiv (of_Z (SiteFusePhases (site st))) (poolPhases pool)) else requiredW in
  let '(yields, y) := yieldBatteryBeforeEVCut store st now meter r pool requiredW gridW pendingW rise fresh
                        (batteryYield lim) in
  let lim := withYield y lim in
  let capW := fmin prev (fmax (of_Z 0) (if yields then latestW else capW)) in
  let cuts := flt capW prev in
  let c := cap lim in
  let lim := withCap (setCap c capW (if cuts then now else lCutAt c) zeroTime byImport_) lim in
  if negb cuts then lim
  else
    let lim := noteCutFor lim in
    let run := fuseRun lim in
    if flt (of_Z 0) (rFuseOverW r) && IsZero (fuseCutAt run)
    then withFuseRun (mkEVRun (fuseOverAt run) now (fuseUnderAt run)) lim else lim.

(** ** Starting an idle pool *)
Definition idleCap (c : evCap) (w : f64) (since : Time) (wh : f64) (byImport_ : bool) : evCap :=
  mkEVCap (lSet c) w (lCutAt c) (lReadingAt c) since wh byImport_.

Definition stepEVIdleStart (r : evMeterRoom) (gridW : f64) (pool : evPool) (first gap fresh : bool)
    (at' prevAt : Time) (pendingW step : f64) (c : evCap) : evCap :=
  let perReadingW := if rHourly r then rStartW r else fmin (rStartW r) (rRiseW r) in
  let byI := if rHourly r then flt (fsub (fsub (rStartLevelW r) gridW) pendingW) (rStartW r)
             else flt (rRiseW r) (rStartW r) in
  let room := if fresh then fmax (of_Z 0) perReadingW else of_Z 0 in
  let keepW := if negb (rHourly r) && flt (rRiseW r) (rStartW r) then step else of_Z 0 in
  if flt (fadd room roundingW) (fadd (minW pool) keepW) then idleCap c (of_Z 0) zeroTime (lIdleWh c) byI
  else
    let importW := fmax (of_Z 0) gridW in
    let '(since, wh) :=
      if first then (GoTime.Add at' (- evRestartDwell), fmul importW (Hours evRestartDwell))
      else if IsZero (lRoomSince c) || gap then (at', of_Z 0)
      else (lRoomSince c, fadd (lIdleWh c) (fmul importW (Hours (Sub at' prevAt)))) in
    let dwell := Sub at' since in
    if dwell <? evRestartDwell then idleCap c (of_Z 0) since wh byI
    else
      let capW := fmax (minW pool) (wholeStepsW (fsub room keepW) step) in
      if negb (rHourly r) then idleCap c capW since wh byI
      else
        let ceilingRoomW := fsub (fsub (rStartLevelW r) (fdiv wh (Hours dwell))) pendingW in
        if flt ceilingRoomW (minW pool) then idleCap c (of_Z 0) at' (of_Z 0) true
        else idleCap c (fmin capW ceilingRoomW) since wh byI.

(** ** Holding and raising *)
(** [c] already holds the reading's label; the cap that results. *)
Definition raiseCap (pool : evPool) (now : Time) (charging : bool) (prev peakW fuseRoom importRoom step : f64)
    (cutAt_ : Time) : f64 :=
  let room := fmin fuseRoom importRoom in
  let capW := fmin prev (fadd peakW room) in
  let remaining := fsub (wantW pool) peakW in
  let settled := evSettle <=? Sub now cutAt_ in
  let capW :=
    if flt capW (wantW pool) && flt (of_Z 0) remaining && settled then
      let fits := fle (fmin step remaining) (fadd fuseRoom roundingW) in
      let riseW := fmin (fadd capW step) (fadd peakW fuseRoom) in
      let capped := negb (feq importRoom (Inf false)) in
      let fits := if capped then fits && fle (fmul (of_Z 2) step) importRoom else fits in
      let riseW := if capped then fmin riseW (fsub (fadd peakW importRoom) step) else riseW in
      if fits then fmax capW riseW else capW
    else capW in
  if charging && flt (of_Z 0) remaining && fle remaining step && fle remaining (fadd room roundingW) && settled
  then fmax capW (wantW pool) else capW.

(** ** One site reading *)
Definition logPeakW (lim : evMeterLimit) (now : Time) : f64 :=
  fold_left (fun w x => match span (oLog (snd x)) now with Some p => fadd w (spHigh p) | None => w end)
    (map_iter (offers lim)) (of_Z 0).

(** The bookkeeping every reading makes before a verdict. *)
Definition noteReading (r : evMeterRoom) (pool : evPool) (at' : Time) (gap fresh : bool) (lim : evMeterLimit)
  : evMeterLimit :=
  let y := batteryYield lim in
  let y := mkYield (yTried y) (yUntil y) false (yMaxChargeW y) in
  let y := if fresh && negb (rOverLimit r) && fle (of_Z 0) (rLimitW r) then noYield else y in
  let ph := phases lim in
  let roomA := if fresh then (if fle (offerW pool) (of_Z 0) then rStartRoomA r else rPhaseRoomA r) else of_Z 0 in
  let c := cap lim in
  let lim := withCap (mkEVCap true (lCapW c) (lCutAt c) (lReadingAt c) (lRoomSince c) (lIdleWh c)
                        (flt (fmin (rLimitW r) (rRiseW r)) (rFuseW r))) lim in
  let lim := withYield y lim in
  let lim := withPhases (mkEVPhases roomA (rPhaseRoomKnown r) (phasesA ph) (phasesSeen ph)) lim in
  withFuseRun (stepFuseRun at' (rOverLimit r) gap (fuseRun lim)) lim.

Definition startReading (at' : Time) (lim : evMeterLimit) : evMeterLimit :=
  let c := cap lim in
  withCap (mkEVCap (lSet c) (lCapW c) (lCutAt c) at' (lRoomSince c) (lIdleWh c) (lByImport c)) lim.

(** The room without the discharge the fuse guard added. *)
Definition reliefRoom (store : Store) (st : State) (now : Time) (meter : DerReading) (gridW : f64) (pool : evPool)
    (fuseMaxW pendingW : f64) (r : evMeterRoom) (lim : evMeterLimit) : evMeterRoom :=
  let reliefW := evFuseReliefW store st in
  if flt (of_Z 0) reliefW
  then evMeterRoomOf st now meter gridW (poolPhases pool) fuseMaxW
         (withBatteryOrders (site st) (pendingLoad lim (UpdatedAt meter)) (fadd pendingW reliefW))
  else r.

(** Under both limits: a start, a hold or a rise. *)
Definition applyRoom (st : State) (now : Time) (meter : DerReading) (gridW : f64) (pool : evPool)
    (first gap fresh : bool) (prevAt : Time) (prev peakW pendingW step : f64) (r : evMeterRoom)
    (lim : evMeterLimit) : evMeterLimit :=
  let c := cap lim in
  if fle (offerW pool) (of_Z 0)
  then withCap (stepEVIdleStart r gridW pool first gap fresh (UpdatedAt meter) prevAt pendingW step c) lim
  else
    let fuseRoom := if fresh then fmax (of_Z 0) (rFuseW r) else of_Z 0 in
    let importRoom := if fresh then fmax (of_Z 0) (rRiseW r) else of_Z 0 in
    withCap (setCap c (raiseCap pool now (hasBatteryCharge st now) prev peakW fuseRoom importRoom step (lCutAt c))
               (lCutAt c) zeroTime (lByImport c)) lim.

(** The limit once it has seen the reading's phases, and what the reading
    leaves: the room, whether it is current, and the highest offer it may
    show. *)
Definition seenLimit (st : State) (now : Time) (meter : DerReading) (gridW : f64) : evMeterLimit :=
  seeOffers meter gridW now st (startReading (UpdatedAt meter) (evLimit st)).
Definition readingRoom (st : State) (now : Time) (meter : DerReading) (gridW : f64) (pool : evPool)
    (fuseMaxW : f64) : evMeterRoom :=
  evMeterRoomOf st now meter gridW (poolPhases pool) fuseMaxW
    (withBatteryOrders (site st) (pendingLoad (seenLimit st now meter gridW) (UpdatedAt meter))
       (pendingBatteryCommandsW now st)).
Definition readingFresh (now : Time) (meter : DerReading) (r : evMeterRoom) : bool :=
  match qualifiedFuseObservation (Some meter) now with Some _ => rMeasured r | None => false end.
Definition readingPeakW (st : State) (now : Time) (meter : DerReading) (gridW : f64) (pool : evPool) : f64 :=
  fmax (offerW pool) (logPeakW (seenLimit st now meter gridW) now).
Definition stepW (s : Site) (pool : evPool) : f64 :=
  fmul (fmul evStepA (SiteFuseVoltage s)) (poolPhases pool).

Definition stepEVMeterLimit (store : Store) (st : State) (now : Time) (meter : DerReading) (gridW : f64)
    (pool : evPool) (fuseMaxW : f64) : evMeterLimit :=
  let s := site st in
  let at' := UpdatedAt meter in
  let first := negb (lSet (cap (evLimit st))) in
  let prevAt := lReadingAt (cap (evLimit st)) in
  let gap := first || (evSettle <? Sub at' prevAt) in
  let prev := if first then Inf false else lCapW (cap (evLimit st)) in
  let lim := seenLimit st now meter gridW in
  let peakW := readingPeakW st now meter gridW pool in
  let pendingW := pendingBatteryCommandsW now st in
  let r := readingRoom st now meter gridW pool fuseMaxW in
  let fresh := readingFresh now meter r in
  let step := stepW s pool in
  let lim := noteReading r pool at' gap fresh lim in
  let o := unshownOrders s lim at' (rPerPhase r) in
  let '(fuseCutW, over, lim) := fuseCut s (heat st) lim r o (poolPhases pool) in
  let capW := if over then fuseCapW (rPerPhase r) (oLatestW o) fuseCutW step else Inf false in
  let '(capW, byI, over, lim) := hourCut r pool at' gap over peakW step capW lim in
  if over
  then applyCut store st now meter r pool gridW pendingW prev capW (oLatestW o) byI (oRise o) fresh lim
  else
    applyRoom st now meter gridW pool first gap fresh prevAt prev peakW pendingW step
      (reliefRoom store st now meter gridW pool fuseMaxW pendingW r lim) lim.

(** ** The budget *)
Definition EVFuseBudget (store : Store) (st : State) (now : Time) (points : list LPState)
    (configs : list LPConfig) (fuseMaxW : f64) : f64 * State :=
  if negb (finite fuseMaxW) || fle fuseMaxW (of_Z 0) then (of_Z 0, st)
  else
    match Get (SiteMeterDriver (site st)) DerMeter store with
    | None => (of_Z 0, st)
    | Some meter =>
        let gridW := RawW meter in
        if negb (finite gridW) then (of_Z 0, st)
        else
          let st := withHeat (stepFuseHeat Expm1 (site st) meter gridW (heat st)) st in
          match evPoolFor (site st) points configs with
          | None => (of_Z 0, withEVLimit noEVLimit st)
          | Some pool =>
              let st := withEVLimit (recordEVOffers store (site st) now points (evLimit st)) st in
              let c := cap (evLimit st) in
              let st :=
                if negb (lSet c) || After (UpdatedAt meter) (lReadingAt c)
                then withEVLimit (stepEVMeterLimit store st now meter gridW pool fuseMaxW) st else st in
              (lCapW (cap (evLimit st)), st)
          end
    end.

Definition EVFusePhaseRoomA (st : State) : option f64 :=
  let lim := evLimit st in
  if negb (lSet (cap lim)) || negb (phaseRoomKnown (phases lim)) then None
  else
    let p := pendingLoad lim (lReadingAt (cap lim)) in
    Some (fsub (phaseRoomA (phases lim)) (slicesMax (pendA p))).

Definition EVLimitReason (st : State) : string :=
  let c := cap (evLimit st) in
  if lSet c && lByImport c then "import_limit" else "fuse_limit".
End Limit.

(** ** Lemmas: what each stage leaves of the cap *)
Section CapLemmas.
Context `{MapIter}.
Variable zone : Time -> Duration.

Lemma seenLimit_cap st now meter gridW :
  let c := cap (evLimit st) in
  cap (seenLimit st now meter gridW) =
    mkEVCap (lSet c) (lCapW c) (lCutAt c) (UpdatedAt meter) (lRoomSince c) (lIdleWh c) (lByImport c).
Proof. reflexivity. Qed.
Lemma fuseCut_cap s h lim r o ph : cap (snd (fuseCut s h lim r o ph)) = cap lim.
Proof. unfold fuseCut. repeat case_match; reflexivity. Qed.
Lemma hourCut_cap r pool at' gap over peakW step w lim : cap (snd (hourCut r pool at' gap over peakW step w lim)) = cap lim.
Proof. unfold hourCut. cbv zeta. repeat case_match; reflexivity. Qed.
Lemma hourCut_over r pool at' gap peakW step w lim :
  snd (fst (hourCut r pool at' gap true peakW step w lim)) = true.
Proof. unfold hourCut. cbv zeta. repeat case_match; reflexivity. Qed.

Lemma applyCut_cap store st now meter r pool gridW pendingW prev w latestW byI rise fresh lim :
  let c := cap (applyCut store st now meter r pool gridW pendingW prev w latestW byI rise fresh lim) in
  exists y, lCapW c = fmin prev (fmax (of_Z 0) y) /\ lRoomSince c = zeroTime /\
    (lCutAt c = if flt (lCapW c) prev then now else lCutAt (cap lim)).
Proof.
  cbv zeta. unfold applyCut. cbv zeta. destruct (yieldBatteryBeforeEVCut _ _ _ _ _ _ _ _ _ _ _ _) as [yields y].
  exists (if yields then latestW else w). set (x := fmin prev _). clearbody x.
  destruct (flt x prev) eqn:E; cbn [negb].
  - match goal with |- context [noteCutFor ?l] => assert (N : cap (noteCutFor l) = cap l)
      by (unfold noteCutFor; now destruct (phasesSeen (phases l))) end.
    destruct (flt (of_Z 0) (rFuseOverW r) && _); cbn [cap withFuseRun]; rewrite N; cbn [cap withCap setCap lCapW lRoomSince lCutAt];
      rewrite E; auto.
  - cbn [cap withCap setCap lCapW lRoomSince lCutAt]. rewrite E. auto.
Qed.

(** *** Rises *)
Lemma above_notNeg prev w : notNeg prev -> flt prev w = true -> flt (of_Z 0) w = true.
Proof.
  intros N L. apply (le_flt_trans _ prev); [|exact L]. apply flt_false; [exact N| |apply of_Z_nn; lia].
  intros E. apply isNaN_iff in E. destruct prev; discriminate.
Qed.
Lemma roundingW_pos : rank roundingW = 0 /\ wf roundingW /\ flt (of_Z 0) roundingW = true.
Proof. split_and!; vm_compute; reflexivity. Qed.
Lemma fmul_2_pos step : flt (of_Z 0) step = true -> fle (fmul (of_Z 2) step) (of_Z 0) = false.
Proof.
  intros P. apply pos_cases in P as [->|(z & -> & Hz)]; [vm_compute; reflexivity|].
  apply fle_false_iff. intros L.
  assert (G : flt (of_Z 0) (fmul (of_Z 2) (Fin z)) = true).
  { rewrite (of_Z_fin 2) by lia. cbn [fmul]. pose proof unit64_pos.
    refine (flt_le_trans _ _ _ _ (rnd_mono 1 1 (2 * unit64 * z) unit64 ltac:(lia) ltac:(lia) ltac:(nia))).
    vm_compute. reflexivity. }
  exact (flt_le_contra _ _ G L).
Qed.

Lemma raiseCap_bound pool now charging prev peakW fuseRoom importRoom step cutAt_ :
  let w := raiseCap pool now charging prev peakW fuseRoom importRoom step cutAt_ in
  flt prev w = true ->
  evSettle <= Sub now cutAt_ /\
  (flt (fadd peakW fuseRoom) w = false \/
   (w = wantW pool /\ fle (fsub (wantW pool) peakW) (fadd (fmin fuseRoom importRoom) roundingW) = true)).
Proof.
  cbv zeta. unfold raiseCap. cbv zeta. set (w0 := fmin prev _).
  assert (N0 : flt prev w0 = false) by apply fmin_not_above. clearbody w0.
  destruct (Z.leb_spec evSettle (Sub now cutAt_)) as [S|S].
  2: { rewrite !andb_false_r. intros L. congruence. }
  set (settled := true). set (w1 := if (_ && settled)%bool then _ else w0).
  assert (B1 : flt prev w1 = true -> flt (fadd peakW fuseRoom) w1 = false).
  { unfold w1. destruct (_ && _); [|congruence]. destruct (if negb _ then _ else _); [|congruence].
    intros L. destruct (fmax_above _ _ _ L N0) as [-> _].
    destruct (negb _); [|apply fmin_not_above]. destruct (flt (fadd peakW fuseRoom) _) eqn:E; [|reflexivity].
    apply fmin_above in E as [E _]. now rewrite (proj2 (fmin_not_above _ _)) in E. }
  clearbody w1. destruct (charging && _ && _ && _) eqn:E.
  - intros L. split; [exact S|]. destruct (flt prev w1) eqn:L1.
    + destruct (fmax_cases w1 (wantW pool)) as [->|Em]; [left; auto|right]. rewrite Em. split; [reflexivity|].
      now apply andb_true_iff in E as [_ E].
    + destruct (fmax_above _ _ _ L L1) as [-> _]. right. split; [reflexivity|]. now apply andb_true_iff in E as [_ E].
  - intros L. split; [exact S|]. left. auto.
Qed.

(** What is left of the demand: none, or more than a rounding error. *)
Definition realRemainder (pool : evPool) (peakW : f64) : Prop :=
  (flt (of_Z 0) (fsub (wantW pool) peakW) && fle (fsub (wantW pool) peakW) roundingW) = false.

Lemma raiseCap_no_room pool now charging prev peakW step cutAt_ :
  flt (of_Z 0) step = true -> realRemainder pool peakW ->
  flt prev (raiseCap pool now charging prev peakW (of_Z 0) (of_Z 0) step cutAt_) = false.
Proof.
  intros P R. unfold raiseCap. cbv zeta. set (w0 := fmin prev _).
  assert (N0 : flt prev w0 = false) by apply fmin_not_above. clearbody w0.
  replace (feq (of_Z 0) (Inf false)) with false by (vm_compute; reflexivity). cbn [negb].
  rewrite (fmul_2_pos _ P), andb_false_r.
  replace (fadd (fmin (of_Z 0) (of_Z 0)) roundingW) with roundingW by (vm_compute; reflexivity).
  unfold realRemainder in R. set (x := fsub (wantW pool) peakW) in *. clearbody x.
  replace (if flt w0 (wantW pool) && flt (of_Z 0) x && (evSettle <=? Sub now cutAt_) then w0 else w0) with w0
    by (match goal with |- _ = (if ?b then _ else _) => destruct b end; reflexivity).
  destruct charging, (flt (of_Z 0) x), (fle x step), (fle x roundingW); try discriminate R; exact N0.
Qed.

(** *** Starts *)
Lemma idle_start_dwell r gridW pool first gap fresh at' prevAt pendingW step c :
  let c' := stepEVIdleStart r gridW pool first gap fresh at' prevAt pendingW step c in
  flt (of_Z 0) (lCapW c') = true -> evRestartDwell <= Sub at' (lRoomSince c').
Proof.
  cbv zeta. unfold stepEVIdleStart. cbv zeta. set (byI := if rHourly r then flt _ _ else _). clearbody byI.
  destruct (flt (fadd _ roundingW) _); [intros E; now rewrite flt_irrefl in E|].
  destruct (if first then _ else _) as [since wh]. destruct (Z.ltb_spec (Sub at' since) evRestartDwell);
    [intros E; now rewrite flt_irrefl in E|].
  destruct (negb _); [auto|]. destruct (flt _ (minW pool)); [intros E; now rewrite flt_irrefl in E|auto].
Qed.

Lemma idle_start_silent r gridW pool first gap at' prevAt pendingW step c :
  flt (of_Z 0) step = true -> wf (minW pool) -> flt roundingW (minW pool) = true ->
  lCapW (stepEVIdleStart r gridW pool first gap false at' prevAt pendingW step c) = of_Z 0.
Proof.
  intros P W M. unfold stepEVIdleStart. cbv zeta.
  replace (fadd (of_Z 0) roundingW) with roundingW by (vm_compute; reflexivity).
  set (keepW := if negb (rHourly r) && _ then step else of_Z 0).
  assert (E : flt roundingW (fadd (minW pool) keepW) = true); [|rewrite E; reflexivity].
  unfold keepW. destruct (negb (rHourly r) && _).
  - apply (flt_le_trans _ (minW pool)); [exact M|].
    assert (Nm : rank (minW pool) <> 2) by exact (le_rel_nn_r _ _ (flt_le _ _ M)).
    apply fadd_of_ge; [exact W|exact Nm| |exact (flt_le _ _ P)].
    apply fadd_nn_nonneg; [|exact (flt_le _ _ P)].
    apply (le_rel_trans _ roundingW); [|exact (flt_le _ _ M)]. apply flt_le. vm_compute. reflexivity.
  - rewrite of_Z_0, fadd_0_r by exact W. exact M.
Qed.

(** *** One reading, by its verdict *)
Lemma fuseCut_offers s h lim r o ph : offers (snd (fuseCut s h lim r o ph)) = offers lim.
Proof. unfold fuseCut. repeat case_match; reflexivity. Qed.
Lemma fuseCut_over s h lim r o ph : flt (of_Z 0) (rFuseOverW r) = true -> snd (fst (fuseCut s h lim r o ph)) = true.
Proof. intros E. unfold fuseCut. destruct (_ && _); cbn [snd fst]; now rewrite E. Qed.
Lemma hourCut_offers r pool at' gap over peakW step w lim :
  offers (snd (hourCut r pool at' gap over peakW step w lim)) = offers lim.
Proof. unfold hourCut. cbv zeta. repeat case_match; reflexivity. Qed.

(** An import over the hour's limit that may not wait. *)
Definition hourOver (r : evMeterRoom) (step : f64) : bool :=
  flt (rLimitW r) (of_Z 0) && (negb (rHourly r) || fle step (fneg (rLimitW r))).
Lemma hourCut_hourOver r pool at' gap over peakW step w lim :
  hourOver r step = true -> snd (fst (hourCut r pool at' gap over peakW step w lim)) = true.
Proof.
  unfold hourOver, hourCut. cbv zeta. intros E. apply andb_true_iff in E as [L E].
  destruct (fle (of_Z 0) (rLimitW r)) eqn:F; [apply fle_iff in F; destruct (flt_le_contra _ _ L F)|].
  destruct (rHourly r), (fle step _); try discriminate E; cbn [negb orb]; rewrite ?orb_true_r; reflexivity.
Qed.

Definition stepPrev (st : State) : f64 := if negb (lSet (cap (evLimit st))) then Inf false else lCapW (cap (evLimit st)).
Definition readCap (st : State) (at' : Time) (byI : bool) : evCap :=
  let c := cap (evLimit st) in mkEVCap true (lCapW c) (lCutAt c) at' (lRoomSince c) (lIdleWh c) byI.

Lemma step_cases store st now meter gridW pool fuseMaxW :
  let lim' := stepEVMeterLimit zone store st now meter gridW pool fuseMaxW in
  let r := readingRoom zone st now meter gridW pool fuseMaxW in
  let step := stepW (site st) pool in
  let pendingW := pendingBatteryCommandsW now st in
  let first := negb (lSet (cap (evLimit st))) in
  let prevAt := lReadingAt (cap (evLimit st)) in
  exists lim1 byI, cap lim1 = readCap st (UpdatedAt meter) byI /\
    offers lim1 = offers (seenLimit st now meter gridW) /\
  ((exists w latestW b rise, lim' = applyCut store st now meter r pool gridW pendingW (stepPrev st) w latestW b rise
      (readingFresh now meter r) lim1) \/
   (flt (of_Z 0) (rFuseOverW r) = false /\ hourOver r step = false /\
    lim' = applyRoom st now meter gridW pool first (first || (evSettle <? Sub (UpdatedAt meter) prevAt))
      (readingFresh now meter r) prevAt (stepPrev st) (readingPeakW st now meter gridW pool) pendingW step
      (reliefRoom zone store st now meter gridW pool fuseMaxW pendingW r lim1) lim1)).
Proof.
  cbv zeta. unfold stepEVMeterLimit. cbv zeta. fold (stepPrev st).
  set (r := readingRoom _ _ _ _ _ _ _). set (step := stepW _ _). set (fresh := readingFresh _ _ _).
  set (gap := _ || _). set (seen := seenLimit _ _ _ _).
  set (lim0 := noteReading r pool _ gap fresh seen). set (o := unshownOrders _ _ _ _).
  assert (E0 : cap lim0 = readCap st (UpdatedAt meter) (flt (fmin (rLimitW r) (rRiseW r)) (rFuseW r)))
    by reflexivity.
  assert (O0 : offers lim0 = offers seen) by reflexivity. clearbody lim0 o.
  pose proof (fuseCut_cap (site st) (heat st) lim0 r o (poolPhases pool)) as C1.
  pose proof (fuseCut_offers (site st) (heat st) lim0 r o (poolPhases pool)) as O1.
  pose proof (fuseCut_over (site st) (heat st) lim0 r o (poolPhases pool)) as V1.
  destruct (fuseCut _ _ _ _ _ _) as [[cutW over] lim1]. cbn [fst snd] in *.
  set (w := if over then _ else _). set (peakW := readingPeakW _ _ _ _ _).
  pose proof (hourCut_cap r pool (UpdatedAt meter) gap over peakW step w lim1) as C2.
  pose proof (hourCut_offers r pool (UpdatedAt meter) gap over peakW step w lim1) as O2.
  pose proof (hourCut_hourOver r pool (UpdatedAt meter) gap over peakW step w lim1) as V2.
  assert (V3 : over = true -> snd (fst (hourCut r pool (UpdatedAt meter) gap over peakW step w lim1)) = true)
    by (intros ->; apply hourCut_over).
  destruct (hourCut _ _ _ _ _ _ _ _ _) as [[[w' byI] over'] lim2]. cbn [fst snd] in *.
  exists lim2. eexists. rewrite C2, C1. split; [exact E0|]. split; [congruence|]. destruct over'.
  - left. eauto.
  - right. split; [|split; [|reflexivity]].
    + destruct (flt _ (rFuseOverW r)); [|reflexivity]. discriminate (V3 (V1 eq_refl)).
    + destruct (hourOver r step); [|reflexivity]. discriminate (V2 eq_refl).
Qed.

(** The room without relief reads the offers only. *)
Lemma reliefRoom_offers store st now meter gridW pool fuseMaxW pendingW r lim1 lim2 :
  offers lim1 = offers lim2 ->
  reliefRoom zone store st now meter gridW pool fuseMaxW pendingW r lim1 =
  reliefRoom zone store st now meter gridW pool fuseMaxW pendingW r lim2.
Proof. intros E. unfold reliefRoom, pendingLoad. now rewrite E. Qed.

(** ** Properties *)


End CapLemmas.

(** ** Calls between two readings *)
Record budgetCall : Type := mkCall { bNow : Time; bPoints : list LPState; bConfigs : list LPConfig; bFuseMaxW : f64 }.
Definition call_ok (c : budgetCall) : Prop :=
  finite (bFuseMaxW c) = true /\ flt (of_Z 0) (bFuseMaxW c) = true /\ existsb lpPluggedIn (bPoints c) = true.

Section Calls.
Context `{MapIter}.
Variable zone : Time -> Duration.
Variable Expm1 : f64 -> f64.

Definition budgetOf (store : Store) (st : State) (c : budgetCall) : f64 * State :=
  EVFuseBudget zone Expm1 store st (bNow c) (bPoints c) (bConfigs c) (bFuseMaxW c).
Fixpoint budgets (store : Store) (st : State) (calls : list budgetCall) : list f64 * State :=
  match calls with
  | [] => ([], st)
  | c :: calls =>
      let '(w, st) := budgetOf store st c in
      let '(ws, st) := budgets store st calls in (w :: ws, st)
  end.

(** The limit but for the recorded offers. *)
Definition sameButOffers (l l' : evMeterLimit) : Prop := l' = withOffers (offers l') l.
Lemma sameButOffers_refl l : sameButOffers l l.
Proof. destruct l; reflexivity. Qed.
Lemma sameButOffers_trans a b c : sameButOffers a b -> sameButOffers b c -> sameButOffers a c.
Proof. unfold sameButOffers. intros E ->. rewrite E. reflexivity. Qed.

Lemma poolStep_plugged byID points acc :
  snd (fold_left (poolStep byID) points acc) = snd acc || existsb lpPluggedIn points.
Proof.
  revert acc. induction points as [|p points IH]; intros [[[a b] c] d]; cbn [fold_left existsb snd];
    [now rewrite orb_false_r|]. rewrite IH. unfold poolStep. destruct (lpPluggedIn p); cbn [negb snd orb];
    [now rewrite orb_true_r|reflexivity].
Qed.
Lemma evPoolFor_plugged s points configs : existsb lpPluggedIn points = true ->
  exists pool, evPoolFor s points configs = Some pool.
Proof.
  intros E. unfold evPoolFor. set (acc := (of_Z 3, of_Z 0, true, false)).
  pose proof (poolStep_plugged (configByID configs) points acc) as P. rewrite E in P.
  destruct (fold_left _ _ acc) as [[[a b] c] d]. cbn in P. subst d. cbn. eauto.
Qed.

Lemma budget_held store st c meter :
  Get (SiteMeterDriver (site st)) DerMeter store = Some meter -> finite (RawW meter) = true ->
  lSet (cap (evLimit st)) = true -> After (UpdatedAt meter) (lReadingAt (cap (evLimit st))) = false -> call_ok c ->
  let '(w, st') := budgetOf store st c in
  w = lCapW (cap (evLimit st)) /\ site st' = site st /\ sameButOffers (evLimit st) (evLimit st').
Proof.
  intros Em Hg Hs Ha (F1 & F2 & Hp). unfold budgetOf, EVFuseBudget.
  replace (fle (bFuseMaxW c) (of_Z 0)) with false
    by (symmetry; apply fle_false_iff; intros L; exact (flt_le_contra _ _ F2 L)).
  rewrite F1. cbn [negb orb]. rewrite Em, Hg. cbn [negb]. cbv zeta. cbn [site withHeat evLimit].
  destruct (evPoolFor_plugged (site st) (bPoints c) (bConfigs c) Hp) as [pool ->].
  unfold recordEVOffers. cbv zeta. cbn [cap withOffers evLimit withEVLimit withHeat]. rewrite Hs, Ha. cbn [negb orb].
  split; [reflexivity|]. split; reflexivity.
Qed.

(** Each site reading acts once. However often the budget is asked for before
    the next reading, by whatever cars at whatever time, it answers the same
    cap, and nothing of the limit but the recorded offers changes: a meter
    that has gone silent can never raise or restart a charge. *)
Theorem ev_reading_acts_once (store : Store) (st : State) (meter : DerReading) (calls : list budgetCall)
    (Hm : Get (SiteMeterDriver (site st)) DerMeter store = Some meter) (Hg : finite (RawW meter) = true)
    (Hs : lSet (cap (evLimit st)) = true)
    (Ha : After (UpdatedAt meter) (lReadingAt (cap (evLimit st))) = false) (Hc : Forall call_ok calls) :
  let '(ws, st') := budgets store st calls in
  Forall (eq (lCapW (cap (evLimit st)))) ws /\ sameButOffers (evLimit st) (evLimit st').
Proof.
  revert st Hm Hs Ha. induction Hc as [|c calls Hc _ IH]; intros st Hm Hs Ha; cbn [budgets].
  { split; [constructor|apply sameButOffers_refl]. }
  pose proof (budget_held store st c meter Hm Hg Hs Ha Hc) as B.
  destruct (budgetOf store st c) as [w st1]. destruct B as (Ew & Es & El).
  assert (Ec : cap (evLimit st1) = cap (evLimit st)) by (rewrite El; reflexivity).
  specialize (IH st1). rewrite Es, Ec in IH. specialize (IH Hm Hs Ha).
  destruct (budgets store st1 calls) as [ws st2]. destruct IH as [F S]. split.
  - constructor; [auto|exact F].
  - exact (sameButOffers_trans _ _ _ El S).
Qed.
End Calls.

(** ** An idle pool's wait *)
Record idleReading : Type := mkIdle {
  iRoom : evMeterRoom; iGridW : f64; iPool : evPool; iFresh : bool; iAt : Time; iPendingW : f64; iStep : f64
}.
(** Room on a reading: for the smallest charge, and the step an import limit
    that rises keeps free. *)
Definition idleHasRoom (x : idleReading) : bool :=
  let r := iRoom x in
  let perReadingW := if rHourly r then rStartW r else fmin (rStartW r) (rRiseW r) in
  let keepW := if negb (rHourly r) && flt (rRiseW r) (rStartW r) then iStep x else of_Z 0 in
  negb (flt (fadd (if iFresh x then fmax (of_Z 0) perReadingW else of_Z 0) roundingW) (fadd (minW (iPool x)) keepW)).
Definition idleGap (prevAt : Time) (x : idleReading) : bool := evSettle <? Sub (iAt x) prevAt.
Definition idleStep (st : Time * evCap) (x : idleReading) : Time * evCap :=
  let '(prevAt, c) := st in
  (iAt x, stepEVIdleStart (iRoom x) (iGridW x) (iPool x) false (idleGap prevAt x) (iFresh x) (iAt x) prevAt
            (iPendingW x) (iStep x) c).

(** Readings with room and no gap between them, from [prevAt] on. *)
Fixpoint steadyRoom (prevAt : Time) (l : list idleReading) : Prop :=
  match l with
  | [] => True
  | x :: l => idleHasRoom x = true /\ idleGap prevAt x = false /\ steadyRoom (iAt x) l
  end.
(** The wait that began at [since]: it ends the list of readings [l]. *)
Definition waitedFrom (since : Time) (l : list idleReading) : Prop :=
  exists l0 x l1, l = l0 ++ x :: l1 /\ iAt x = since /\ idleHasRoom x = true /\ steadyRoom since l1.

Definition lastAt (prevAt : Time) (l : list idleReading) : Time := default prevAt (iAt <$> last l).
Lemma lastAt_cons p x l : lastAt p (x :: l) = lastAt (iAt x) l.
Proof. unfold lastAt. destruct l as [|y l]; [reflexivity|]. rewrite last_cons_cons. destruct (last (y :: l)) eqn:E; [reflexivity|].
  apply last_None in E. discriminate E. Qed.
Lemma steadyRoom_snoc p l x :
  steadyRoom p l -> idleHasRoom x = true -> idleGap (lastAt p l) x = false -> steadyRoom p (l ++ [x]).
Proof.
  revert p. induction l as [|y l IH]; intros p S R G; cbn [app steadyRoom] in *.
  - split; [exact R|]. split; [exact G|exact I].
  - destruct S as (A & B & S). split; [exact A|]. split; [exact B|]. rewrite lastAt_cons in G. now apply IH.
Qed.
Lemma waited_snoc p since l x :
  waitedFrom since l -> idleHasRoom x = true -> idleGap (lastAt p l) x = false -> waitedFrom since (l ++ [x]).
Proof.
  intros (l0 & y & l1 & -> & E & R & S) Rx G. exists l0, y, (l1 ++ [x]). rewrite <- app_assoc. split; [reflexivity|].
  split; [exact E|]. split; [exact R|]. apply steadyRoom_snoc; [exact S|exact Rx|].
  replace (lastAt since l1) with (lastAt p (l0 ++ y :: l1)); [exact G|]. unfold lastAt.
  rewrite last_app_cons, last_cons. destruct (last l1); cbn; congruence.
Qed.
Lemma waited_now l x : idleHasRoom x = true -> waitedFrom (iAt x) (l ++ [x]).
Proof. intros R. exists l, x, []. split; [reflexivity|]. split; [reflexivity|]. split; [exact R|exact I]. Qed.

(** What one reading does to the wait. *)
Lemma idleStep_wait prevAt c x :
  let c' := snd (idleStep (prevAt, c) x) in
  (lRoomSince c' = zeroTime /\ flt (of_Z 0) (lCapW c') = false) \/
  (idleHasRoom x = true /\
   (lRoomSince c' = iAt x \/
    (lRoomSince c' = lRoomSince c /\ IsZero (lRoomSince c) = false /\ idleGap prevAt x = false))).
Proof.
  cbv zeta. unfold idleStep. cbn [snd]. unfold stepEVIdleStart, idleHasRoom. cbv zeta.
  set (short := flt (fadd _ roundingW) _). set (byI := if rHourly (iRoom x) then flt _ _ else _).
  clearbody short byI. destruct short; cbn [negb].
  { left. split; [reflexivity|apply flt_irrefl]. }
  right. split; [reflexivity|]. destruct (IsZero (lRoomSince c)) eqn:Z0; cbn [orb].
  - destruct (_ <? evRestartDwell); [left; reflexivity|]. destruct (negb _); [left; reflexivity|].
    destruct (flt _ (minW _)); left; reflexivity.
  - destruct (idleGap prevAt x); cbn [orb].
    + destruct (_ <? evRestartDwell); [left; reflexivity|]. destruct (negb _); [left; reflexivity|].
      destruct (flt _ (minW _)); left; reflexivity.
    + destruct (_ <? evRestartDwell); [right; split_and!; reflexivity|].
      destruct (negb _); [right; split_and!; reflexivity|].
      destruct (flt _ (minW _)); [left; reflexivity|right; split_and!; reflexivity].
Qed.

Lemma idle_wait prevAt c l : lRoomSince c = zeroTime -> flt (of_Z 0) (lCapW c) = false ->
  let '(at', c') := fold_left idleStep l (prevAt, c) in
  at' = lastAt prevAt l /\
  (IsZero (lRoomSince c') = false \/ flt (of_Z 0) (lCapW c') = true -> waitedFrom (lRoomSince c') l) /\
  (flt (of_Z 0) (lCapW c') = true -> evRestartDwell <= Sub at' (lRoomSince c')).
Proof.
  intros Z0 C0. induction l as [|x l IH] using rev_ind.
  - cbn. split; [reflexivity|]. rewrite Z0, C0. split; [intros [E|E]; discriminate E|discriminate].
  - rewrite fold_left_app. destruct (fold_left idleStep l (prevAt, c)) as [at0 c1]. destruct IH as (-> & W & _).
    cbn [fold_left]. pose proof (idleStep_wait (lastAt prevAt l) c1 x) as S.
    pose proof (idle_start_dwell (iRoom x) (iGridW x) (iPool x) false (idleGap (lastAt prevAt l) x) (iFresh x) (iAt x)
      (lastAt prevAt l) (iPendingW x) (iStep x) c1) as D. cbv zeta in S, D.
    unfold idleStep in *. cbn [snd] in *. set (c' := stepEVIdleStart _ _ _ _ _ _ _ _ _ _ _) in *. clearbody c'.
    split; [unfold lastAt; now rewrite last_snoc|]. split; [|exact D].
    destruct S as [[-> ->]|[R [->|(-> & Nz & G)]]].
    + intros [E|E]; discriminate E.
    + intros _. now apply waited_now.
    + intros _. apply (waited_snoc prevAt); [|exact R|exact G]. apply W. now left.
Qed.

(** An idle pool starts only after the restart dwell. From a stop on, over
    any readings, the cap is above zero only when the latest readings, with no
    gap of more than the settling time between them and spanning at least the
    dwell, each showed room for the smallest charge. *)
Theorem ev_restart_waits (prevAt : Time) (c : evCap) (l : list idleReading)
    (Hr : lRoomSince c = zeroTime) (Hc : lCapW c = of_Z 0) :
  let '(at', c') := fold_left idleStep l (prevAt, c) in
  flt (of_Z 0) (lCapW c') = true ->
  waitedFrom (lRoomSince c') l /\ evRestartDwell <= Sub at' (lRoomSince c').
Proof.
  pose proof (idle_wait prevAt c l Hr) as W. rewrite Hc, flt_irrefl in W. specialize (W eq_refl).
  destruct (fold_left idleStep l (prevAt, c)) as [at' c']. destruct W as (_ & W & D). intros P. auto.
Qed.

(** ** Witnesses *)
Definition demoPool : evPool := mkPool (of_Z 6900) (of_Z 11040) (of_Z 4140) (of_Z 3) true ∅.
(** The limit at 6900 W since the reading of the tenth second. *)
Definition demoLimit : evMeterLimit :=
  withCap (mkEVCap true (of_Z 6900) zeroTime (10 * Second) zeroTime (of_Z 0) false) noEVLimit.
Definition demoEVState : State := withEVLimit demoLimit demoState.
Definition demoMeter (w : Z) : DerReading := mkReading "meter" DerMeter (of_Z w) (of_Z w) None 0 RawEmpty (75 * Second).
Definition demoStep (w : Z) : evMeterLimit :=
  @stepEVMeterLimit canonical_iter (fun _ => 0) (fleetStore w 0 0) demoEVState (76 * Second) (demoMeter w) (of_Z w)
    demoPool (of_Z 11040).

Lemma demo_cap_notNeg : notNeg (lCapW (cap (evLimit demoEVState))).
Proof. unfold notNeg. vm_compute. reflexivity. Defined.



Definition demoCar : LPState :=
  mkLPState "car" "charger" true (mkOrder true (of_Z 6900) 3 "plan" zeroTime zeroTime) (of_Z 4140) (of_Z 11040) []
    0 0 (of_Z 0) (of_Z 0) (of_Z 0) (of_Z 0) zeroTime (of_Z 6900) (of_Z 60000) false false false false false false
    (of_Z 0) (of_Z 0).
Definition demoCall (t : Time) : budgetCall :=
  mkCall t [demoCar] [] (of_Z 11040).
Lemma demo_call_ok t : call_ok (demoCall t).
Proof. split_and!; vm_compute; reflexivity. Defined.

Lemma ev_reading_acts_once_witness :
  let '(ws, st') := @budgets canonical_iter (fun _ => 0) (fun x => x) (fleetStore 500 0 0) demoEVState
                      [demoCall (12 * Second); demoCall Minute] in
  Forall (eq (of_Z 6900)) ws /\ sameButOffers demoLimit (evLimit st').
Proof.
  refine (@ev_reading_acts_once canonical_iter (fun _ => 0) (fun x => x) (fleetStore 500 0 0) demoEVState
    (gridReading 500) [demoCall (12 * Second); demoCall Minute] _ _ _ _ _).
  - vm_compute. reflexivity.
  - vm_compute. reflexivity.
  - reflexivity.
  - vm_compute. reflexivity.
  - apply Forall_cons_2; [apply demo_call_ok|]. apply Forall_cons_2; [apply demo_call_ok|apply Forall_nil_2].
Defined.

(** Readings 20 s apart with 5 kW free: the third one starts the car. *)
Definition demoIdle (t : Time) : idleReading :=
  mkIdle (mkRoom (of_Z 5000) (of_Z 0) false false (Inf false) (Inf false) (Inf false) false true (of_Z 0) false
            (of_Z 5000) (of_Z 0)) (of_Z 6040) demoPool true t (of_Z 0) (of_Z 690).
Definition demoWait : list idleReading := [demoIdle Minute; demoIdle (80 * Second); demoIdle (100 * Second)].
Definition demoStopped : evCap := mkEVCap true (of_Z 0) (50 * Second) (50 * Second) zeroTime (of_Z 0) false.

Lemma ev_restart_waits_witness :
  flt (of_Z 0) (lCapW (snd (fold_left idleStep demoWait (50 * Second, demoStopped)))) = true /\
  (let '(at', c') := fold_left idleStep demoWait (50 * Second, demoStopped) in
   flt (of_Z 0) (lCapW c') = true ->
   waitedFrom (lRoomSince c') demoWait /\ evRestartDwell <= Sub at' (lRoomSince c')).
Proof.
  split; [vm_compute; reflexivity|]. exact (ev_restart_waits (50 * Second) demoStopped demoWait eq_refl eq_refl).
Defined.
