(* ===== verification/SafetyPipeline.v ===== *)
(** * The safety pipeline every command passes (applyDispatchSafetyPipeline
    of go/internal/control/dispatch.go)

    The stages in the code's order, each on the targets the one before left,
    and the state they change. *)
From Stdlib Require Import ZArith Lia.
From S2P Require Import Prelude Float64 GoTime Json Kalman Health Telemetry Observations Limits CommandLog Site PlanIntent.
From S2P Require Import ImportHour PhaseFuse FuseHeat ControlState FuseRelief FuseGuard EvHeadroom.
From stdpp Require Import base gmap strings list sorting.
#[local] Open Scope Z_scope.

Record dispatchSafetyOptions : Type := mkOptions {
  manualHoldActive : bool;
  noSelfDischarge : bool;
  noSelfCharge : bool;
  optChargeBlocked : gset string;
  floorBlocked : gset string;
  updatePrevTargets : bool;
  recordDispatch : bool
}.

(** ** Stages of their own *)
Definition reserveFloor (store : Store) (st : State) (capacities : gmap string f64) (t : DispatchTarget)
  : DispatchTarget :=
  if fle (of_Z 0) (TargetW t) then t
  else
    let lower := boostReserveLowerW (Get (tDriver t) DerBattery store) (atZero capacities (tDriver t)) (site st) in
    if flt (TargetW t) lower then setW lower t else t.
Definition applyBatteryBoostReserve (targets : list DispatchTarget) (store : Store) (st : State)
    (capacities : gmap string f64) : list DispatchTarget :=
  if fle (BatteryBoostReserveSoC (site st)) (of_Z 0) then targets
  else reserveFloor store st capacities <$> targets.

Definition missingFloor (store : Store) (t : DispatchTarget) : DispatchTarget :=
  if fle (of_Z 0) (TargetW t) then t else if hasSoC store (tDriver t) then t else setW (of_Z 0) t.
Definition floorMissingSoCDischarge (targets : list DispatchTarget) (store : Store) : list DispatchTarget :=
  missingFloor store <$> targets.

Definition yieldScale (scale : f64) (t : DispatchTarget) : DispatchTarget :=
  if flt (of_Z 0) (TargetW t) then setW (fmul (TargetW t) scale) t else t.
Definition applyEVBatteryYield (targets : list DispatchTarget) (st : State) (now : Time) : list DispatchTarget :=
  let y := batteryYield (evLimit st) in
  if negb (yActive y) || negb (Before now (yUntil y)) then targets
  else
    let chargeW := positiveSum targets in
    if fle chargeW (yMaxChargeW y) || fle chargeW (of_Z 0) then targets
    else yieldScale (fdiv (yMaxChargeW y) chargeW) <$> targets.

Section Pipeline.
Context `{MapIter}.
Variable zone : Time -> Duration.

(** [(currentBat, postBat)] over the first target of each battery. *)
Definition batterySums (store : Store) (targets : list DispatchTarget) : f64 * f64 :=
  fst (fold_left (fun '(currentBat, postBat, seen) t =>
      if bool_decide (tDriver t ∈ (seen : gset string)) then (currentBat, postBat, seen)
      else
        (match Get (tDriver t) DerBattery store with
         | Some r => fadd currentBat (SmoothedW r) | None => currentBat end,
         fadd postBat (TargetW t), {[tDriver t]} ∪ seen))
    targets (of_Z 0, of_Z 0, ∅)).

Definition republishFuseEVCapAfterFuseDischarge (targets : list DispatchTarget) (store : Store) (st : State)
    (now : Time) (fuseMaxW : f64) : State :=
  let s := site st in
  if negb (FuseSaturated (share st)) || fle (EVChargingW s) (of_Z 0) || fle fuseMaxW (of_Z 0) then st
  else if flt (effImportW zone st now fuseMaxW) (fsub fuseMaxW (fuseSafetyMarginW s)) then st
  else
    let '(currentBat, postBat) := batterySums store targets in
    let meter := Get (SiteMeterDriver s) DerMeter store in
    let ceilingW := phaseImportCeilingW zone s now (importHour st) fuseMaxW meter in
    let rawGridW := match meter with Some m => SmoothedW m | None => of_Z 0 end in
    let h := fsub (fsub rawGridW currentBat) (EVChargingW s) in
    let headroom := fsub (fsub ceilingW h) postBat in
    let headroom := if flt headroom (of_Z 0) then of_Z 0 else headroom in
    let demand := fmax (EVChargingW s) (scheduledEVPowerW s now) in
    let newCap := if flt demand headroom then demand else headroom in
    withShare (mkShare newCap (FuseSaturated (share st)) (FuseSaturatedByImport (share st))) st.

(** *** The guard, the policy floors and the reserve *)
Definition policyStages (targets : list DispatchTarget) (store : Store) (st : State) (now : Time)
    (capacities : gmap string f64) (fuseMaxW : f64) (opts : dispatchSafetyOptions) : list DispatchTarget * State :=
  let '(targets, st) := applyFuseGuard zone targets store st now fuseMaxW in
  let targets := fitBatteryRisesToFuse targets store st now in
  let targets := if negb (manualHoldActive opts) then applyPlanSignFloor targets (site st) now else targets in
  let targets := if noSelfDischarge opts then floorNegativeTargets targets else targets in
  let targets := floorBlockedCharge targets (noSelfCharge opts) (optChargeBlocked opts) in
  let targets := floorBelowOwnerFloorDischarge targets (floorBlocked opts) in
  let '(targets, st) := floorBlockedDischarge zone targets store st now capacities fuseMaxW in
  (applyBatteryBoostReserve targets store st capacities, st).

(** *** The hardware limits and the car, after the relief *)
Definition finalStages (order : list string) (targets : list DispatchTarget) (store : Store) (st : State)
    (now : Time) (fuseMaxW : f64) : list DispatchTarget :=
  let targets := clampTargetsToPowerLimits targets (DriverLimits (site st)) in
  let targets := floorMissingSoCDischarge targets store in
  let targets := clampEVBatteryHeadroom zone order targets store st now fuseMaxW in
  let targets := applyEVBatteryYield targets st now in
  floorFullBatteryCharge st targets.

Definition applyDispatchSafetyPipeline (order : list string) (targets : list DispatchTarget) (store : Store)
    (st : State) (now : Time) (capacities : gmap string f64) (fuseMaxW : f64) (opts : dispatchSafetyOptions)
  : list DispatchTarget * State :=
  let st := updateBatteryChargeFull store now capacities st in
  let '(beforeRelief, st) := policyStages targets store st now capacities fuseMaxW opts in
  let '(targets, st) := forceFuseDischarge zone beforeRelief store st now capacities fuseMaxW in
  let targets := finalStages order targets store st now fuseMaxW in
  let st := republishFuseEVCapAfterFuseDischarge targets store st now fuseMaxW in
  let st := recordDispatchTargets now targets (updatePrevTargets opts) (recordDispatch opts) st in
  let st := if recordDispatch opts
            then recordBatteryReadings now store targets (recordFuseRelief beforeRelief targets st) else st in
  (targets, st).

(** ** Callers of the pipeline that ask for fixed commands *)
Definition policyFree (manual : bool) : dispatchSafetyOptions := mkOptions manual false false ∅ ∅ true true.

Definition stepTarget (store : Store) (st : State) (commandW : f64) (t : DispatchTarget) : DispatchTarget :=
  match Get (tDriver t) DerBattery store with
  | None => t
  | Some r =>
      let '(lower, upper) := fuseTargetBounds r (limitsOf (DriverLimits (site st)) (tDriver t)) in
      let w := fmax lower (fmin upper commandW) in
      mkTarget (tDriver t) w (fne w commandW)
  end.
(** Only the first target of the tuned battery. *)
Fixpoint stepFirst (f : DispatchTarget -> DispatchTarget) (driver : string) (ts : list DispatchTarget)
  : list DispatchTarget :=
  match ts with
  | [] => []
  | t :: rest => if String.eqb (tDriver t) driver then f t :: rest else t :: stepFirst f driver rest
  end.
Definition SelfTuneDispatch (order : list string) (store : Store) (st : State) (now : Time)
    (capacities : gmap string f64) (fuseMaxW : f64) (driver : string) (commandW : f64) : list DispatchTarget * State :=
  let targets := stepFirst (stepTarget store st commandW) driver (holdFleetAtZero store capacities) in
  applyDispatchSafetyPipeline order targets store st now capacities fuseMaxW (policyFree true).
End Pipeline.

(** ** Lemmas: every stage keeps the batteries and their order *)
Definition drivers (ts : list DispatchTarget) : list string := tDriver <$> ts.

Lemma drivers_map f ts : (forall t, tDriver (f t) = tDriver t) -> drivers (f <$> ts) = drivers ts.
Proof. intros Hf. unfold drivers. rewrite <- list_fmap_compose. apply list_fmap_ext. intros _ t _. apply Hf. Qed.
Lemma drivers_zip {B} (f : DispatchTarget -> B -> DispatchTarget) ts (l : list B) :
  (forall t b, tDriver (f t b) = tDriver t) -> length l = length ts -> drivers (zip_with f ts l) = drivers ts.
Proof.
  intros Hf. revert l. induction ts as [|t ts IH]; intros [|b l] E; try discriminate; [reflexivity|].
  cbn. rewrite Hf. f_equal. apply IH. now injection E.
Qed.
Lemma drivers_Forall2 R ts out : Forall2 R ts out -> (forall t o, R t o -> tDriver o = tDriver t) -> drivers out = drivers ts.
Proof. intros F D. unfold drivers. induction F as [|t o ts out r F IH]; [reflexivity|]. cbn. now rewrite (D _ _ r), IH. Qed.
Lemma drivers_length ts out : drivers out = drivers ts -> length out = length ts.
Proof. intros E. apply (f_equal length) in E. unfold drivers in E. now rewrite !length_fmap in E. Qed.

(** A map whose function only changes the power. *)
Ltac keeps_drivers :=
  apply drivers_map; intros ?; unfold scaleDischarge, scaleCharge, scaleRise, reserveFloor, missingFloor, yieldScale, floorFull;
  cbv zeta; repeat case_match; reflexivity.

Lemma applyHold_drivers h now ts : drivers (fst (applyHold h now ts)) = drivers ts.
Proof.
  unfold applyHold. destruct (After _ _); [|reflexivity]. cbn [fst].
  set (out := if _ && _ then scaleDischarge _ <$> ts else ts).
  assert (E : drivers out = drivers ts) by (unfold out; destruct (_ && _); [keeps_drivers|reflexivity]).
  rewrite <- E. clearbody out. destruct (_ && _); [keeps_drivers|reflexivity].
Qed.
Lemma cutOverage_drivers h now i e ts : drivers (fst (cutOverage h now i e ts)) = drivers ts.
Proof.
  unfold cutOverage, cutCharge, cutDischarge. repeat case_match; try reflexivity; cbn [fst]; keeps_drivers.
Qed.
Lemma takeShare_driver a b t l : tDriver (takeShare a b t l) = tDriver t.
Proof. unfold takeShare. cbv zeta. now destruct (fle _ _). Qed.
Lemma allocate_drivers ts w lowers : length lowers = length ts -> drivers (allocateFuseRelief ts w lowers) = drivers ts.
Proof.
  intros E. unfold allocateFuseRelief. cbv zeta. repeat case_match; try reflexivity.
  apply drivers_zip; [|exact E]. apply takeShare_driver.
Qed.

Section Lemmas.
Context `{MapIter}.
Variable zone : Time -> Duration.

Lemma guard_drivers ts store st now f : drivers (fst (applyFuseGuard zone ts store st now f)) = drivers ts.
Proof.
  unfold applyFuseGuard. destruct (fle f _); [reflexivity|]. cbv zeta. pose proof (applyHold_drivers (hold st) now ts) as E.
  destruct (applyHold _ _ _) as [out h]. destruct (phaseRelief _ _ _ _) as [[pi pe] st1].
  set (i := fmax _ pi). set (e := fmax _ pe). clearbody i e. pose proof (cutOverage_drivers h now i e out) as E2.
  destruct (cutOverage _ _ _ _ _) as [out' h']. cbn [fst] in *. congruence.
Qed.
Lemma fit_drivers ts store st now : drivers (fitBatteryRisesToFuse ts store st now) = drivers ts.
Proof.
  unfold fitBatteryRisesToFuse. destruct (_ || _); [reflexivity|]. destruct (Get _ _ _); [|reflexivity].
  destruct (signedPhasesA _ _); [|reflexivity]. destruct (fold_left _ ts _). destruct (_ || _); [reflexivity|]. keeps_drivers.
Qed.
Lemma planSign_drivers ts s now : drivers (applyPlanSignFloor ts s now) = drivers ts.
Proof. unfold applyPlanSignFloor. cbv zeta. repeat case_match; try reflexivity; keeps_drivers. Qed.
Lemma blockedCharge_drivers ts b g : drivers (floorBlockedCharge ts b g) = drivers ts.
Proof. unfold floorBlockedCharge. destruct (_ && _); [reflexivity|keeps_drivers]. Qed.
Lemma ownerFloor_drivers ts g : drivers (floorBelowOwnerFloorDischarge ts g) = drivers ts.
Proof. unfold floorBelowOwnerFloorDischarge. destruct (bool_decide _); [reflexivity|keeps_drivers]. Qed.
Lemma negative_drivers ts : drivers (floorNegativeTargets ts) = drivers ts.
Proof. unfold floorNegativeTargets. keeps_drivers. Qed.

Lemma blocked_drivers ts store st now caps f : drivers (fst (floorBlockedDischarge zone ts store st now caps f)) = drivers ts.
Proof.
  unfold floorBlockedDischarge. cbv zeta. set (flags := parked store st <$> ts).
  assert (L : length flags = length ts) by (unfold flags; now rewrite length_fmap). clearbody flags.
  assert (E : drivers (fst <$> zip_with (fun t (b : bool) => (if b then setW (of_Z 0) t else t, b)) ts flags) = drivers ts).
  { revert flags L. induction ts as [|t ts IH]; intros [|b flags] L; try discriminate; [reflexivity|].
    injection L as L. cbn. destruct b; cbn; f_equal; exact (IH flags L). }
  destruct (negb _); [reflexivity|]. destruct (fle f _); [exact E|].
  destruct (blockedDischargeKeepW _ _ _ _ _ _ _ _ _) as [k st1]. destruct (fle k _); [exact E|].
  destruct (fle _ k); [reflexivity|]. cbn [fst]. apply drivers_zip; [|exact L]. now intros t [].
Qed.
Lemma reserve_drivers ts store st caps : drivers (applyBatteryBoostReserve ts store st caps) = drivers ts.
Proof. unfold applyBatteryBoostReserve. destruct (fle _ _); [reflexivity|keeps_drivers]. Qed.

Lemma policy_drivers ts store st now caps f opts : drivers (fst (policyStages zone ts store st now caps f opts)) = drivers ts.
Proof.
  unfold policyStages. pose proof (guard_drivers ts store st now f) as E1.
  destruct (applyFuseGuard _ _ _ _ _ _) as [t1 st1]. cbv zeta. cbn [fst] in E1.
  set (t2 := if negb (manualHoldActive opts) then _ else _). set (t3 := if noSelfDischarge opts then _ else _).
  assert (E2 : drivers t2 = drivers ts).
  { unfold t2. destruct (negb _); [rewrite planSign_drivers|]; rewrite fit_drivers; exact E1. }
  assert (E3 : drivers t3 = drivers ts) by (unfold t3; destruct (noSelfDischarge opts); [rewrite negative_drivers|]; exact E2).
  set (t4 := floorBelowOwnerFloorDischarge _ _).
  assert (E4 : drivers t4 = drivers ts) by (unfold t4; now rewrite ownerFloor_drivers, blockedCharge_drivers).
  clearbody t4. pose proof (blocked_drivers t4 store st1 now caps f) as E5.
  destruct (floorBlockedDischarge _ _ _ _ _ _ _) as [t5 st5]. cbn [fst] in *. rewrite reserve_drivers. congruence.
Qed.

Lemma force_drivers ts store st now caps f : drivers (fst (forceFuseDischarge zone ts store st now caps f)) = drivers ts.
Proof.
  unfold forceFuseDischarge, forceFuseDischargeWithSnapshot. cbv zeta. destruct (_ || _); [reflexivity|].
  destruct (fuseReliefPartsFromSnapshot _ _ _ _ _ _ _ _) as [[o l] st1].
  destruct (fle o _); [reflexivity|]. destruct (fle _ (of_Z 0)); [reflexivity|]. cbn [fst].
  assert (E : forall w, drivers (allocateFuseRelief ts w (snd ∘ reliefLowers st1 (captureReadings store ts) caps <$> ts)) = drivers ts)
    by (intros w; apply allocate_drivers; now rewrite length_fmap).
  rewrite allocate_drivers; [apply E|]. rewrite length_fmap. symmetry. exact (drivers_length _ _ (E _)).
Qed.

(** *** Stages that leave the rules alone *)
Definition sameRules (st st' : State) : Prop :=
  site st' = site st /\ batteryChargeFull st' = batteryChargeFull st /\ evLimit st' = evLimit st.
Lemma sameRules_refl st : sameRules st st.
Proof. repeat split. Qed.
Lemma sameRules_trans a b c : sameRules a b -> sameRules b c -> sameRules a c.
Proof. unfold sameRules. intuition congruence. Qed.

Lemma phaseRelief_rules st p ts rs : sameRules st (snd (phaseRelief st p ts rs)).
Proof. unfold phaseRelief. destruct (phaseReliefForTargets _ _ _ _ _ _ _) as [[i e] r]. repeat split. Qed.
Lemma parts_rules ts rs m p st now f : sameRules st (snd (fuseReliefPartsFromSnapshot zone ts rs m p st now f)).
Proof.
  unfold fuseReliefPartsFromSnapshot. destruct (_ || _); [apply sameRules_refl|]. cbv zeta.
  pose proof (phaseRelief_rules st p ts rs) as R. destruct (phaseRelief st p ts rs) as [[i e] st1]. destruct (flt _ _); exact R.
Qed.
Lemma force_rules ts store st now caps f : sameRules st (snd (forceFuseDischarge zone ts store st now caps f)).
Proof.
  unfold forceFuseDischarge, forceFuseDischargeWithSnapshot. cbv zeta. destruct (_ || _); [apply sameRules_refl|].
  pose proof (parts_rules ts (captureReadings store ts) (Get (SiteMeterDriver (site st)) DerMeter store)
    (livePhaseSample store (SiteMeterDriver (site st)) (Get (SiteMeterDriver (site st)) DerMeter store)) st now f) as R.
  destruct (fuseReliefPartsFromSnapshot _ _ _ _ _ _ _ _) as [[o l] st1]. repeat case_match; exact R.
Qed.
Lemma guard_rules ts store st now f : sameRules st (snd (applyFuseGuard zone ts store st now f)).
Proof.
  unfold applyFuseGuard. destruct (fle f _); [apply sameRules_refl|]. cbv zeta. destruct (applyHold _ _ _) as [out h].
  match goal with |- context [phaseRelief ?s ?p ?t ?r] =>
    pose proof (phaseRelief_rules s p t r) as R; destruct (phaseRelief s p t r) as [[pi pe] st1] end. destruct (cutOverage _ _ _ _ _) as [out' h']. exact R.
Qed.
Lemma blocked_rules ts store st now caps f : sameRules st (snd (floorBlockedDischarge zone ts store st now caps f)).
Proof.
  unfold floorBlockedDischarge. cbv zeta. set (flags := parked store st <$> ts). clearbody flags.
  destruct (negb _); [apply sameRules_refl|]. destruct (fle f _); [apply sameRules_refl|].
  unfold blockedDischargeKeepW, fuseReliefFromSnapshot. cbv zeta.
  match goal with |- context [fuseReliefPartsFromSnapshot _ ?t ?r ?m ?p ?s ?n ?w] =>
    pose proof (parts_rules t r m p s n w) as R;
    destruct (fuseReliefPartsFromSnapshot zone t r m p s n w) as [[o l] st1] end. repeat case_match; exact R.
Qed.
Lemma policy_rules ts store st now caps f opts : sameRules st (snd (policyStages zone ts store st now caps f opts)).
Proof.
  unfold policyStages. pose proof (guard_rules ts store st now f) as R1. destruct (applyFuseGuard _ _ _ _ _ _) as [t1 st1].
  cbv zeta. set (t4 := floorBelowOwnerFloorDischarge _ _). clearbody t4. pose proof (blocked_rules t4 store st1 now caps f) as R2.
  destruct (floorBlockedDischarge _ _ _ _ _ _ _) as [t5 st5]. exact (sameRules_trans _ _ _ R1 R2).
Qed.
End Lemmas.

(** ** Lemmas: what the last stages guarantee *)
Definition inLimits (st : State) (t : DispatchTarget) : Prop :=
  let lim := limitsOf (DriverLimits (site st)) (tDriver t) in
  flt (chargeCap lim) (TargetW t) = false /\ flt (TargetW t) (fneg (dischargeCap lim)) = false.

Lemma inLimits_zero st d c : inLimits st (mkTarget d (of_Z 0) c).
Proof.
  unfold inLimits. cbn [tDriver TargetW]. split; apply le_flt_false; [apply chargeCap_nn|].
  apply neg_cap_nonpos, dischargeCap_nn.
Qed.
Lemma clampTarget_inLimits st t : inLimits st (clampTarget (DriverLimits (site st)) t).
Proof.
  unfold inLimits. rewrite clampTarget_driver, clampTarget_W.
  set (lim := limitsOf _ _). pose proof (chargeCap_nn lim) as C. pose proof (dischargeCap_nn lim) as D.
  pose proof (cap_order _ _ C D) as O. unfold clampBetween.
  destruct (flt (chargeCap lim) (TargetW t)) eqn:E1.
  - split; apply le_flt_false; [exact (le_rel_refl _ (le_rel_nn_r _ _ C))|exact O].
  - destruct (flt (TargetW t) (fneg (dischargeCap lim))) eqn:E2; [|now split].
    split; apply le_flt_false; [exact O|exact (le_rel_refl _ (le_rel_nn_l _ _ O))].
Qed.

Definition unknownEnergySafe (store : Store) (t : DispatchTarget) : Prop :=
  hasSoC store (tDriver t) = false -> notNeg (TargetW t).

Lemma missingFloor_safe store t : unknownEnergySafe store (missingFloor store t).
Proof.
  unfold unknownEnergySafe, missingFloor. destruct (fle (of_Z 0) (TargetW t)) eqn:E.
  - intros _. apply notNeg_of_le. now apply fle_iff.
  - destruct (hasSoC store (tDriver t)) eqn:S; [now rewrite S|]. intros _. exact notNeg_0.
Qed.
Lemma safe_step store ts out : Forall2 (noNewDischarge store) ts out -> Forall (unknownEnergySafe store) ts ->
  Forall (unknownEnergySafe store) out.
Proof.
  intros F S. induction F as [|t o ts out [D N] F IH]; [constructor|]. apply Forall_cons in S as [St S].
  constructor; [|now apply IH]. intros K. rewrite D in K. auto.
Qed.
Lemma yield_noNew store st now ts : notNeg (yMaxChargeW (batteryYield (evLimit st))) ->
  Forall2 (noNewDischarge store) ts (applyEVBatteryYield ts st now).
Proof.
  intros Hy. unfold applyEVBatteryYield. cbv zeta. destruct (_ || _); [apply noNewDischarge_refl|].
  set (charge := positiveSum ts). clearbody charge. destruct (fle charge (yMaxChargeW _)); [apply noNewDischarge_refl|].
  destruct (fle charge (of_Z 0)) eqn:E; [apply noNewDischarge_refl|]. cbn [orb].
  pose proof (fdiv_notNeg _ charge Hy E) as Hs. apply noNewDischarge_map. intros t.
  split; [unfold yieldScale; now destruct (flt _ _)|]. intros _ N. unfold yieldScale.
  destruct (flt (of_Z 0) (TargetW t)); [now apply notNeg_mul|exact N].
Qed.
Lemma floorFull_noNew store st ts : Forall2 (noNewDischarge store) ts (floorFullBatteryCharge st ts).
Proof.
  apply noNewDischarge_map. intros t. split; unfold floorFull; [now destruct (_ && _)|].
  intros _ N. destruct (_ && _); [exact notNeg_0|exact N].
Qed.

Section Final.
Context `{MapIter}.
Variable zone : Time -> Duration.

Lemma final_drivers order ts store st now f : drivers (finalStages zone order ts store st now f) = drivers ts.
Proof.
  unfold finalStages. cbv zeta. unfold floorFullBatteryCharge. rewrite drivers_map.
  2:{ intros t. unfold floorFull. now destruct (_ && _). }
  set (t1 := clampTargetsToPowerLimits ts _). set (t2 := floorMissingSoCDischarge t1 store).
  assert (E2 : drivers t2 = drivers ts).
  { unfold t2, floorMissingSoCDischarge. rewrite drivers_map.
    - unfold t1, clampTargetsToPowerLimits. apply drivers_map, clampTarget_driver.
    - intros t. unfold missingFloor. now repeat case_match. }
  rewrite <- E2. transitivity (drivers (clampEVBatteryHeadroom zone order t2 store st now f)).
  - unfold applyEVBatteryYield. cbv zeta. destruct (_ || _); [reflexivity|]. destruct (_ || _); [reflexivity|keeps_drivers].
  - apply (drivers_Forall2 _ _ _ (clampEV_noNew zone order store st now f t2)). now intros t o [D _].
Qed.

Lemma final_safe order ts store st now f : notNeg (yMaxChargeW (batteryYield (evLimit st))) ->
  Forall (unknownEnergySafe store) (finalStages zone order ts store st now f).
Proof.
  intros Hy. unfold finalStages. cbv zeta. eapply safe_step; [apply floorFull_noNew|].
  eapply safe_step; [now apply yield_noNew|]. eapply safe_step; [apply clampEV_noNew|].
  apply Forall_fmap, Forall_true. intros t. apply missingFloor_safe.
Qed.

Lemma final_full order ts store st now f :
  Forall (fun t => BatteryChargePaused st (tDriver t) = true -> flt (of_Z 0) (TargetW t) = false)
    (finalStages zone order ts store st now f).
Proof.
  unfold finalStages. cbv zeta. apply Forall_fmap, Forall_true. intros t. unfold compose, floorFull.
  destruct (flt (of_Z 0) (TargetW t)) eqn:P; cbn [andb]; [|now intros _].
  destruct (BatteryChargePaused st (tDriver t)) eqn:B; cbn [setW tDriver TargetW]; [intros _; vm_compute; reflexivity|congruence].
Qed.

Lemma final_limits order ts store st now f :
  evFuseDemands (site st) = [] -> yActive (batteryYield (evLimit st)) = false ->
  Forall (inLimits st) (finalStages zone order ts store st now f).
Proof.
  intros Ed Ey. unfold finalStages. cbv zeta.
  assert (Eev : forall l, clampEVBatteryHeadroom zone order l store st now f = l).
  { intros l. unfold clampEVBatteryHeadroom. rewrite Ed. destruct (_ || _); reflexivity. }
  assert (Eyl : forall l, applyEVBatteryYield l st now = l) by (intros l; unfold applyEVBatteryYield; now rewrite Ey).
  rewrite Eev, Eyl. apply Forall_fmap, Forall_fmap, Forall_fmap, Forall_true. intros t. unfold compose.
  pose proof (clampTarget_inLimits st t) as C. set (c := clampTarget _ t) in *. clearbody c.
  assert (M : inLimits st (missingFloor store c)) by (unfold missingFloor; repeat case_match; try exact C; apply inLimits_zero).
  unfold floorFull. destruct (_ && _); [apply inLimits_zero|exact M].
Qed.

(** What holds for every command the pipeline returns. *)
Record command_safe (store : Store) (st : State) (t : DispatchTarget) : Prop := {
  cs_unknown : unknownEnergySafe store t;
  cs_full : BatteryChargePaused st (tDriver t) = true -> flt (of_Z 0) (TargetW t) = false;
  cs_limits : evFuseDemands (site st) = [] -> yActive (batteryYield (evLimit st)) = false -> inLimits st t
}.

Lemma republish_rules ts store st now f : sameRules st (republishFuseEVCapAfterFuseDischarge zone ts store st now f).
Proof.
  unfold republishFuseEVCapAfterFuseDischarge. cbv zeta. destruct (_ || _); [apply sameRules_refl|].
  destruct (flt _ _); [apply sameRules_refl|]. destruct (batterySums _ _). repeat split.
Qed.
Lemma record_rules now ts before st (r : bool) store : sameRules st
  (if r then recordBatteryReadings now store ts (recordFuseRelief before ts st) else st).
Proof. destruct r; repeat split. Qed.

Lemma command_safe_rules store st st' t : sameRules st st' -> command_safe store st t -> command_safe store st' t.
Proof.
  intros (Es & Ef & El) [U F L]. constructor; [exact U| |].
  - unfold BatteryChargePaused in *. now rewrite Ef.
  - rewrite Es, El. unfold inLimits. rewrite Es. exact L.
Qed.

Lemma final_safe_all order ts store st now f : notNeg (yMaxChargeW (batteryYield (evLimit st))) ->
  Forall (command_safe store st) (finalStages zone order ts store st now f).
Proof.
  intros Hy. pose proof (final_safe order ts store st now f Hy) as A. pose proof (final_full order ts store st now f) as B.
  rewrite Forall_forall in A, B. apply Forall_forall. intros t I. constructor; [exact (A t I)|exact (B t I)|].
  intros Ed Ey. pose proof (final_limits order ts store st now f Ed Ey) as C. rewrite Forall_forall in C. exact (C t I).
Qed.

Lemma pipeline_facts (order : list string) (targets : list DispatchTarget) (store : Store)
    (st : State) (now : Time) (capacities : gmap string f64) (fuseMaxW : f64) (opts : dispatchSafetyOptions) :
  let r := applyDispatchSafetyPipeline zone order targets store st now capacities fuseMaxW opts in
  drivers (fst r) = drivers targets /\ sameRules (updateBatteryChargeFull store now capacities st) (snd r) /\
  (notNeg (yMaxChargeW (batteryYield (evLimit st))) -> Forall (command_safe store (snd r)) (fst r)).
Proof.
  cbv zeta. unfold applyDispatchSafetyPipeline. set (st0 := updateBatteryChargeFull store now capacities st).
  assert (El0 : evLimit st0 = evLimit st) by reflexivity. clearbody st0.
  pose proof (policy_drivers zone targets store st0 now capacities fuseMaxW opts) as D1.
  pose proof (policy_rules zone targets store st0 now capacities fuseMaxW opts) as R1.
  destruct (policyStages _ _ _ _ _ _ _ _) as [before st1]. cbn [fst snd] in *.
  pose proof (force_drivers zone before store st1 now capacities fuseMaxW) as D2.
  pose proof (force_rules zone before store st1 now capacities fuseMaxW) as R2.
  destruct (forceFuseDischarge _ _ _ _ _ _ _) as [ts st2]. cbn [fst snd] in *.
  pose proof (sameRules_trans _ _ _ R1 R2) as R. set (out := finalStages zone order ts store st2 now fuseMaxW).
  set (st3 := republishFuseEVCapAfterFuseDischarge zone out store st2 now fuseMaxW).
  assert (R3 : sameRules st2 st3) by apply republish_rules. clearbody st3.
  set (st4 := recordDispatchTargets now out _ _ st3). assert (R4 : sameRules st3 st4) by (repeat split). clearbody st4.
  pose proof (record_rules now out before st4 (recordDispatch opts) store) as R5.
  set (st5 := if recordDispatch opts then _ else _) in *. clearbody st5.
  pose proof (sameRules_trans _ _ _ R3 (sameRules_trans _ _ _ R4 R5)) as R6. split_and!.
  - unfold out. rewrite final_drivers. congruence.
  - exact (sameRules_trans _ _ _ R R6).
  - intros Hy. assert (A : Forall (command_safe store st2) out).
    { apply final_safe_all. destruct R as (_ & _ & E). now rewrite E, El0. }
    apply (Forall_impl _ _ _ A). intros t. now apply command_safe_rules.
Qed.

(** ** Properties *)

End Final.

(** ** Witnesses *)
Definition noOptions : dispatchSafetyOptions := mkOptions false false false ∅ ∅ true true.
