(* ===== verification/MeterFreeze.v ===== *)
(** * A site meter that repeats itself (go/internal/control/meter_freeze.go)

    The comparison of the newest meter sample with the one before it, and of
    FTW's own devices with where they stood when the meter last changed. *)
From Stdlib Require Import ZArith Lia.
From S2P Require Import Prelude Float64 GoTime Json Kalman Health Telemetry Limits CommandLog Site.
From stdpp Require Import base gmap strings list.
#[local] Open Scope Z_scope.

Definition meterFreezeMoveW : f64 := of_Z 500.
Definition meterFreezeAfter : Duration := 30 * Second.
Definition meterFreezeSamples : Z := 3.

(** [vals[i]] where [has[i]]; an absent field compares as absent. *)
Definition meterSample : Type := list (option f64).

Definition fieldEq (a b : option f64) : bool :=
  match a, b with Some x, Some y => feq x y | None, None => true | _, _ => false end.
Fixpoint sampleEq (a b : meterSample) : bool :=
  match a, b with
  | [], [] => true
  | x :: a', y :: b' => fieldEq x y && sampleEq a' b'
  | _, _ => false
  end.

(** One battery or charger: our last order and its own reading. The key of
    the code, a type and a name, is written as the store's key of the two. *)
Record ownDevice : Type := mkOwn { orderW : f64; readW : f64 }.
Definition ownDeviceKey (t : DerType) (name : string) : string := key name t.

Record meterFreeze : Type := mkFreeze {
  fDriver : string;
  fAt : Time;
  fSample : meterSample;
  devices : gmap string ownDevice;
  movedAt : Time;
  repeats : Z;
  repeatAfterMove : bool;
  frozen : bool
}.
(** [meterFreeze{driver: d}]. *)
Definition noSample : meterSample := replicate 10 None.
Definition newFreeze (d : string) : meterFreeze := mkFreeze d zeroTime noSample ∅ zeroTime 0 false false.

(** A value of the wrong type leaves the pointer at a new zero and the other
    fields are still decoded; the code drops the error. *)
Definition pointerField (fs : list (string * json)) (k : string) : option f64 :=
  match num_field k fs with FVal a => Some a | FAbsent => None | FErr => Some (of_Z 0) end.
Definition sampleNames : list string :=
  ["l1_a"; "l2_a"; "l3_a"; "l1_w"; "l2_w"; "l3_w"; "l1_v"; "l2_v"; "l3_v"]%string.
Definition readMeterSample (w : f64) (data : RawMessage) : meterSample :=
  Some w :: match obj_fields data with
            | Some fs => pointerField fs <$> sampleNames
            | None => replicate 9 None
            end.

(** A missing order is an order to 0 W. *)
Definition ownOf (t : DerType) (orders : gmap string f64) (store : Store) : gmap string ownDevice :=
  list_to_map ((fun '(driver, w) => (ownDeviceKey t driver, mkOwn (atZero orders driver) w)) <$>
    map_to_list (OnlineRawWByType t store)).
Definition ownDevices (s : Site) (prev : gmap string f64) (store : Store) : gmap string ownDevice :=
  ownOf DerEV (evCommanded s) store ∪ ownOf DerBattery prev store.

Section Freeze.
Context `{MapIter}.

(** One device's share of the move, when it followed its order. *)
Definition deviceMove (a : gmap string ownDevice) (k : string) (now : ownDevice) : option f64 :=
  match a !! k with
  | None => None
  | Some was =>
      let order := fsub (orderW now) (orderW was) in
      let read := fsub (readW now) (readW was) in
      if fle (fmul order read) (of_Z 0) then None
      else Some (copysign (fmin (fabs order) (fabs read)) read)
  end.
Definition devicesMovedW (a b : gmap string ownDevice) : f64 :=
  fold_left (fun moved '(k, now) =>
      match deviceMove a k now with Some w => fadd moved w | None => moved end)
    (map_iter b) (of_Z 0).

(** A new sample of the right meter, and our devices beside it. *)
Definition stepSample (now at' : Time) (sample : meterSample) (devs : gmap string ownDevice) (f : meterFreeze)
  : meterFreeze :=
  if IsZero (fAt f) || negb (sampleEq sample (fSample f))
  then mkFreeze (fDriver f) at' sample devs zeroTime 0 false false
  else if frozen f
  then mkFreeze (fDriver f) at' (fSample f) (devices f) (movedAt f) (repeats f) (repeatAfterMove f) true
  else
    let moved := devicesMovedW (devices f) devs in
    if fle (fabs moved) meterFreezeMoveW
    then mkFreeze (fDriver f) at' (fSample f) (devices f) zeroTime 0 false false
    else if IsZero (movedAt f)
    then mkFreeze (fDriver f) at' (fSample f) (devices f) now (repeats f) true false
    else
      let n := repeats f + 1 in
      mkFreeze (fDriver f) at' (fSample f) (devices f) (movedAt f) n true
        ((meterFreezeSamples <=? n) && (meterFreezeAfter <=? Sub now (movedAt f))).

Definition ObserveSiteMeterFreeze (s : Site) (prev : gmap string f64) (store : Store) (now : Time)
    (f : meterFreeze) : meterFreeze :=
  match OnlineMeterSample (SiteMeterDriver s) store with
  | None => newFreeze (SiteMeterDriver s)
  | Some (w, data, at') =>
      let f := if bool_decide (fDriver f = SiteMeterDriver s) then f else newFreeze (SiteMeterDriver s) in
      if negb (After at' (fAt f)) then f
      else stepSample now at' (readMeterSample w data) (ownDevices s prev store) f
  end.
End Freeze.

Definition SiteMeterFrozen (f : meterFreeze) : bool := frozen f.

Definition siteMeterRepeatsAfterMove (s : Site) (f : meterFreeze) (meter : option DerReading) : bool :=
  match meter with
  | None => false
  | Some m => bool_decide (fDriver f = SiteMeterDriver s) && repeatAfterMove f && Equal (UpdatedAt m) (fAt f)
  end.

(** ** Reference: the repeats since the values last changed

    Every accepted sample that repeats the values, newest first, with the
    clock then and whether our devices had moved since the change. *)
Record history : Type := mkHistory {
  hMeter : string; hNewest : Time; hValues : meterSample; hDevices : gmap string ownDevice;
  hRepeats : list (Time * bool)
}.

(** The clocks of the newest repeats that all came after the move. *)
Fixpoint movedRun (l : list (Time * bool)) : list Time :=
  match l with (t, true) :: rest => t :: movedRun rest | _ => [] end.

(** Four such repeats over at least 30 s: the one that found the move and
    [meterFreezeSamples] more. *)
Definition longRun (ts : list Time) : bool :=
  match ts with
  | [] => false
  | t :: _ => (meterFreezeSamples + 1 <=? Z.of_nat (length ts)) && (meterFreezeAfter <=? Sub t (List.last ts t))
  end.

Fixpoint everLong (l : list (Time * bool)) : bool :=
  match l with [] => false | _ :: rest => longRun (movedRun l) || everLong rest end.

Record tick : Type := mkTick { tkSite : Site; tkOrders : gmap string f64; tkStore : Store; tkNow : Time }.

Section Reference.
Context `{MapIter}.

Definition historyStep (h : option history) (k : tick) : option history :=
  let d := SiteMeterDriver (tkSite k) in
  match OnlineMeterSample d (tkStore k) with
  | None => None
  | Some (w, data, at') =>
      let values := readMeterSample w data in
      let devs := ownDevices (tkSite k) (tkOrders k) (tkStore k) in
      let first := if zeroTime <? at' then Some (mkHistory d at' values devs []) else None in
      match h with
      | None => first
      | Some h =>
          if negb (bool_decide (hMeter h = d)) then first
          else if at' <=? hNewest h then Some h
          else if negb (sampleEq values (hValues h)) then Some (mkHistory d at' values devs [])
          else
            let moved := negb (fle (fabs (devicesMovedW (hDevices h) devs)) meterFreezeMoveW) in
            Some (mkHistory d at' (hValues h) (hDevices h) ((tkNow k, moved) :: hRepeats h))
      end
  end.

Definition freezeStep (f : meterFreeze) (k : tick) : meterFreeze :=
  ObserveSiteMeterFreeze (tkSite k) (tkOrders k) (tkStore k) (tkNow k) f.

(** The counters stand for the history. *)
Definition counts (f : meterFreeze) (l : list (Time * bool)) : Prop :=
  frozen f = everLong l /\
  (frozen f = false ->
   match movedRun l with
   | [] => movedAt f = 0 /\ repeats f = 0 /\ repeatAfterMove f = false
   | t :: ts => movedAt f = List.last (t :: ts) t /\ 0 < movedAt f /\ repeats f = Z.of_nat (length ts) /\
                repeatAfterMove f = true
   end).

Definition stands (f : meterFreeze) (h : option history) : Prop :=
  match h with
  | None => fAt f = 0 /\ counts f []
  | Some h =>
      fDriver f = hMeter h /\ fAt f = hNewest h /\ 0 < fAt f /\ fSample f = hValues h /\
      devices f = hDevices h /\ counts f (hRepeats h)
  end.

Lemma fresh_counts d at' s devs : counts (mkFreeze d at' s devs zeroTime 0 false false) [].
Proof. split; [reflexivity|]. intros _. cbn. auto. Qed.

Lemma last_cons (t : Time) ts d d' : List.last (t :: ts) d = List.last (t :: ts) d'.
Proof. revert t. induction ts as [|u ts IH]; intros t; [reflexivity|]. exact (IH u). Qed.

(** One repeat of the values: the code's counters against the longer log. *)
Lemma repeat_counts f l now at' (moved : bool) :
  0 < now -> frozen f = false -> counts f l ->
  counts (if negb moved then mkFreeze (fDriver f) at' (fSample f) (devices f) zeroTime 0 false false
          else if IsZero (movedAt f) then mkFreeze (fDriver f) at' (fSample f) (devices f) now (repeats f) true false
          else mkFreeze (fDriver f) at' (fSample f) (devices f) (movedAt f) (repeats f + 1) true
                 ((meterFreezeSamples <=? repeats f + 1) && (meterFreezeAfter <=? Sub now (movedAt f))))
         ((now, moved) :: l).
Proof.
  intros Hn Hf [E R]. rewrite Hf in E. specialize (R Hf). destruct moved; cbn [negb].
  - destruct (movedRun l) as [|t ts] eqn:M.
    + destruct R as (-> & -> & _). cbn [IsZero Z.eqb]. split.
      * cbn [everLong movedRun frozen]. rewrite M, <- E. reflexivity.
      * intros _. cbn [movedRun]. rewrite M. cbn. auto.
    + destruct R as (Em & Hm & -> & _). unfold IsZero. replace (movedAt f =? 0) with false by lia. split.
      * cbn [everLong movedRun frozen]. rewrite M, <- E, orb_false_r. unfold longRun.
        rewrite Em, (last_cons t ts t now). unfold meterFreezeSamples.
        change (List.last (now :: t :: ts) now) with (List.last (t :: ts) now). f_equal.
        change (length (now :: t :: ts)) with (S (S (length ts))).
        destruct (Z.leb_spec 3 (Z.of_nat (length ts) + 1)), (Z.leb_spec (3 + 1) (Z.of_nat (S (S (length ts))))); lia.
      * intros _. cbn [movedRun]. rewrite M. cbn [movedAt repeats repeatAfterMove length].
        change (List.last (now :: t :: ts) now) with (List.last (t :: ts) now).
        rewrite (last_cons t ts now t), <- Em. repeat split; [exact Hm|lia].
  - split; [cbn; exact E|]. intros _. cbn. auto.
Qed.

Lemma stepSample_stands f h k at' :
  0 < tkNow k -> stands f (Some h) -> hNewest h < at' ->
  forall values devs, stands (stepSample (tkNow k) at' values devs f)
    (Some (if negb (sampleEq values (hValues h)) then mkHistory (hMeter h) at' values devs []
           else mkHistory (hMeter h) at' (hValues h) (hDevices h)
                  ((tkNow k, negb (fle (fabs (devicesMovedW (hDevices h) devs)) meterFreezeMoveW)) :: hRepeats h))).
Proof.
  intros Hn (Ed & Ea & Hp & Es & Ev & C) Ha values devs. unfold stepSample.
  unfold IsZero at 1. replace (fAt f =? 0) with false by lia. cbn [orb]. rewrite Es.
  destruct (sampleEq values (hValues h)); cbn [negb].
  2:{ unfold stands. cbn [fDriver fAt fSample devices hMeter hNewest hValues hDevices hRepeats].
      do 5 (split; [assumption || reflexivity || lia|]). apply fresh_counts. }
  rewrite <- Es. destruct (frozen f) eqn:F.
  - unfold stands. cbn [fDriver fAt fSample devices hMeter hNewest hValues hDevices hRepeats].
    do 5 (split; [assumption || reflexivity || lia|]). destruct C as [E _]. split; [|discriminate].
    cbn [frozen everLong]. rewrite <- E, F. now destruct (longRun _).
  - rewrite Ev. set (moved := fle _ meterFreezeMoveW).
    pose proof (repeat_counts f (hRepeats h) (tkNow k) at' (negb moved) Hn F C) as R. rewrite negb_involutive in R.
    unfold stands. cbn [hMeter hNewest hValues hDevices hRepeats]. rewrite <- Ev.
    destruct moved; [|destruct (IsZero _)]; cbn [fDriver fAt fSample devices];
      do 5 (split; [assumption || reflexivity || lia|]); exact R.
Qed.

Lemma freezeStep_stands f h k : 0 < tkNow k -> stands f h -> stands (freezeStep f k) (historyStep h k).
Proof.
  intros Hn St. unfold freezeStep, ObserveSiteMeterFreeze, historyStep.
  destruct (OnlineMeterSample _ _) as [[[w data] at']|]; [|split; [reflexivity|apply fresh_counts]].
  set (values := readMeterSample w data). set (devs := ownDevices _ _ _). clearbody values devs.
  set (d := SiteMeterDriver (tkSite k)).
  assert (First : forall g, fDriver g = d -> fAt g = 0 -> counts g [] ->
    stands (if negb (After at' (fAt g)) then g else stepSample (tkNow k) at' values devs g)
           (if zeroTime <? at' then Some (mkHistory d at' values devs []) else None)).
  { intros g Dg Ag Cg. unfold After. rewrite Ag. change zeroTime with 0. destruct (Z.ltb_spec 0 at'); cbn [negb].
    - unfold stepSample. rewrite Ag. cbn [IsZero Z.eqb orb]. unfold stands.
      cbn [fDriver fAt fSample devices hMeter hNewest hValues hDevices hRepeats].
      do 5 (split; [assumption || reflexivity|]). apply fresh_counts.
    - split; assumption. }
  destruct h as [h|].
  - pose proof St as (Ed & Ea & Hp & _). rewrite Ed. destruct (bool_decide (hMeter h = d)) eqn:D; cbn [negb].
    2:{ apply First; [reflexivity..|apply fresh_counts]. }
    apply bool_decide_eq_true in D. unfold After. rewrite Ea, Z.leb_antisym. destruct (Z.ltb_spec (hNewest h) at'); cbn [negb].
    + pose proof (stepSample_stands f h k at' Hn St H0) as P. specialize (P values devs).
      rewrite D in P. destruct (negb (sampleEq _ _)); exact P.
    + exact St.
  - destruct St as [Ea C]. destruct (bool_decide (fDriver f = d)) eqn:D.
    + apply bool_decide_eq_true in D. now apply First.
    + apply First; [reflexivity..|apply fresh_counts].
Qed.

Lemma run_stands ticks : Forall (fun k => 0 < tkNow k) ticks -> forall f h, stands f h ->
  stands (fold_left freezeStep ticks f) (fold_left historyStep ticks h).
Proof.
  induction 1 as [|k ticks Hk _ IH]; intros f h St; [exact St|]. cbn. apply IH. now apply freezeStep_stands.
Qed.

(** ** Properties *)

(** C37: the frozen verdict is exactly what the whole history says. Over any
    sequence of control ticks, the meter counts as frozen if and only if,
    since its values last changed, there was a run of at least four new
    samples over at least 30 s that all repeated the old values although our
    own devices had moved more than 500 W. So any changed value, another site
    meter or an offline one clears the verdict, and a site whose devices do
    not move is never frozen. *)
Theorem meter_freeze_verdict (d : string) (ticks : list tick) (Hclock : Forall (fun k => 0 < tkNow k) ticks) :
  SiteMeterFrozen (fold_left freezeStep ticks (newFreeze d)) =
  match fold_left historyStep ticks None with Some h => everLong (hRepeats h) | None => false end.
Proof.
  assert (S0 : stands (newFreeze d) None) by (split; [reflexivity|apply fresh_counts]).
  pose proof (run_stands ticks Hclock _ _ S0) as St. unfold SiteMeterFrozen.
  destruct (fold_left historyStep ticks None) as [h|].
  - destruct St as (_ & _ & _ & _ & _ & E & _). exact E.
  - destruct St as (_ & E & _). exact E.
Qed.
End Reference.

(** ** Witness: a meter stays at 1 kW while a battery follows an order to 2 kW *)
Definition freezeSite : Site :=
  mkSite ModeSelfConsumption "meter" (of_Z 16) (of_Z 230) 3 (of_Z 0) (of_Z 0) (of_Z 0)
    (of_Z 0) (of_Z 0) (of_Z 0) (of_Z 0) false (of_Z 0) (of_Z 0) (of_Z 0) ∅ [] false 5 2
    None None noSnapshot (of_Z 0) (of_Z 0) ∅.
Definition freezeReading (name : string) (t : DerType) (w : Z) (at' : Time) : DerReading :=
  mkReading name t (of_Z w) (of_Z w) None 0 RawEmpty at'.
Definition freezeTick (sec batteryW : Z) : tick :=
  let at' := sec * Second in
  mkTick freezeSite {["b"%string := of_Z batteryW]}
    (mkStore {[key "meter" DerMeter := freezeReading "meter" DerMeter 1000 at';
               key "b" DerBattery := freezeReading "b" DerBattery batteryW at']} ∅
       {["meter"%string := NewHealth "meter" at'; "b"%string := NewHealth "b" at']}
       (of_Z 100) (of_Z 50) [] ∅ [] 0) at'.
Definition freezeTicks : list tick :=
  [freezeTick 1 0; freezeTick 2 2000; freezeTick 12 2000; freezeTick 22 2000; freezeTick 32 2000].

Lemma meter_freeze_verdict_witness :
  SiteMeterFrozen (fold_left (@freezeStep canonical_iter) freezeTicks (newFreeze "meter")) = true.
Proof.
  assert (C : Forall (fun k => 0 < tkNow k) freezeTicks).
  { repeat (apply Forall_cons_2; [reflexivity|]). apply Forall_nil_2. }
  rewrite (@meter_freeze_verdict canonical_iter "meter" freezeTicks C). vm_compute. reflexivity.
Defined.
