(* ===== verification/TickPlan.v ===== *)
(** * One tick's state and plan (go/internal/control/dispatch.go)

    The state of the control loop above the safety pipeline, and the first
    third of ComputeDispatch: what the tick was asked to do. A manual hold
    comes first; planner_self only gates the reactive controller; the other
    planner modes follow the slot's energy, or a grid target. *)
From Stdlib Require Import ZArith Lia.
From S2P Require Import Prelude Float64 GoTime Json Kalman Health Telemetry Limits Units.
From S2P Require Import CommandLog PIController Site PlanIntent StoragePlan SlotDelivery MeterFreeze.
From S2P Require Import ImportHour PhaseFuse FuseHeat ControlState.
From stdpp Require Import base gmap strings list.
#[local] Open Scope Z_scope.

(** The settings of [State] that only the control law reads. The check of a
    scoped hold is a callback, [None] when not wired. *)
Record loopConfig : Type := mkConfig {
  GridToleranceW : f64;
  PeakLimitW : f64;
  SlewRateW : f64;
  SlewEnabled : bool;
  UseEnergyDispatch : bool;
  InverterGroups : gmap string string;
  BatteryHoldTargetValid : option (string -> string -> bool)
}.

(** [currentDirective], [slotDelivered], [lastTickTs]. *)
Record energyPath : Type := mkEnergyPath { currentDirective : SlotDirective; slotDelivered : f64; lastTickTs : Time }.
(** [resetEnergyDispatchBookkeeping]. *)
Definition noEnergyPath : energyPath := mkEnergyPath noSlot (of_Z 0) zeroTime.

(** [State]: [ctl] is what the pipeline changes. *)
Record Loop : Type := mkLoop {
  ctl : State;
  GridTargetW : f64;
  PI : PIController;
  ManualHold : BatteryManualHold;
  PlanStale : bool;
  controlSlotDecisionID : string;
  liveEVChargingW : f64;
  energy : energyPath;
  slotStats : slotActual;
  storageDelivery : storageSlotDelivery;
  dispatchMeterAt : Time;
  freeze : meterFreeze
}.

(** ** One field at a time *)
Definition withCtl (st : State) (l : Loop) : Loop :=
  mkLoop st (GridTargetW l) (PI l) (ManualHold l) (PlanStale l) (controlSlotDecisionID l) (liveEVChargingW l) (energy l)
    (slotStats l) (storageDelivery l) (dispatchMeterAt l) (freeze l).
Definition withPI (p : PIController) (l : Loop) : Loop :=
  mkLoop (ctl l) (GridTargetW l) p (ManualHold l) (PlanStale l) (controlSlotDecisionID l) (liveEVChargingW l) (energy l)
    (slotStats l) (storageDelivery l) (dispatchMeterAt l) (freeze l).
Definition withManualHold (h : BatteryManualHold) (l : Loop) : Loop :=
  mkLoop (ctl l) (GridTargetW l) (PI l) h (PlanStale l) (controlSlotDecisionID l) (liveEVChargingW l) (energy l)
    (slotStats l) (storageDelivery l) (dispatchMeterAt l) (freeze l).
Definition withStale (b : bool) (l : Loop) : Loop :=
  mkLoop (ctl l) (GridTargetW l) (PI l) (ManualHold l) b (controlSlotDecisionID l) (liveEVChargingW l) (energy l)
    (slotStats l) (storageDelivery l) (dispatchMeterAt l) (freeze l).
Definition withDecision (d : string) (l : Loop) : Loop :=
  mkLoop (ctl l) (GridTargetW l) (PI l) (ManualHold l) (PlanStale l) d (liveEVChargingW l) (energy l)
    (slotStats l) (storageDelivery l) (dispatchMeterAt l) (freeze l).
Definition withLiveEV (w : f64) (l : Loop) : Loop :=
  mkLoop (ctl l) (GridTargetW l) (PI l) (ManualHold l) (PlanStale l) (controlSlotDecisionID l) w (energy l)
    (slotStats l) (storageDelivery l) (dispatchMeterAt l) (freeze l).
Definition withEnergy (e : energyPath) (l : Loop) : Loop :=
  mkLoop (ctl l) (GridTargetW l) (PI l) (ManualHold l) (PlanStale l) (controlSlotDecisionID l) (liveEVChargingW l) e
    (slotStats l) (storageDelivery l) (dispatchMeterAt l) (freeze l).
Definition withStats (x : slotActual) (l : Loop) : Loop :=
  mkLoop (ctl l) (GridTargetW l) (PI l) (ManualHold l) (PlanStale l) (controlSlotDecisionID l) (liveEVChargingW l) (energy l)
    x (storageDelivery l) (dispatchMeterAt l) (freeze l).
Definition withStorage (d : storageSlotDelivery) (l : Loop) : Loop :=
  mkLoop (ctl l) (GridTargetW l) (PI l) (ManualHold l) (PlanStale l) (controlSlotDecisionID l) (liveEVChargingW l) (energy l)
    (slotStats l) d (dispatchMeterAt l) (freeze l).
Definition withMeterAt (t : Time) (l : Loop) : Loop :=
  mkLoop (ctl l) (GridTargetW l) (PI l) (ManualHold l) (PlanStale l) (controlSlotDecisionID l) (liveEVChargingW l) (energy l)
    (slotStats l) (storageDelivery l) t (freeze l).

Definition withSetpoint (w : f64) (p : PIController) : PIController :=
  mkPI w (Kp p) (Ki p) (IntegralLimit p) (OutputLimit p) (integral p).
Definition SetGridTarget (w : f64) (l : Loop) : Loop :=
  mkLoop (ctl l) w (withSetpoint w (PI l)) (ManualHold l) (PlanStale l) (controlSlotDecisionID l) (liveEVChargingW l) (energy l)
    (slotStats l) (storageDelivery l) (dispatchMeterAt l) (freeze l).

(** The settings that change within a tick: the plan and the cars. *)
Definition siteWith (snap : controlPlanSnapshot) (manualW evW : f64) (s : Site) : Site :=
  mkSite (sMode s) (SiteMeterDriver s) (SiteFuseAmps s) (SiteFuseVoltage s) (SiteFusePhases s) (SiteFuseSafetyA s)
    (PeakImportCeilingW s) (MaxExportW s) evW manualW (EVSurplusOnlyReserveW s) (EVSurplusOnlyChargingW s)
    (BatteryCoversEV s) (BatteryBoostEVChargingW s) (BatteryBoostReserveSoC s) (EVCommandedW s) (evCommanded s)
    (evFuseDemands s) (evFuseDemandsSet s) (MinDispatchIntervalS s) (ControlIntervalS s) (SlotDirectiveFn s)
    (PlanTargetFn s) snap (PVSurplusAbsorbSoCCap s) (PVSurplusAbsorbThresholdW s) (DriverLimits s).
Definition lSite (l : Loop) : Site := site (ctl l).
Definition withSnapshot (snap : controlPlanSnapshot) (l : Loop) : Loop :=
  withCtl (withSite (siteWith snap (ManualEVChargingW (lSite l)) (EVChargingW (lSite l)) (lSite l)) (ctl l)) l.
Definition withCars (manualW evW : f64) (l : Loop) : Loop :=
  withCtl (withSite (siteWith (planSnapshot (lSite l)) manualW evW (lSite l)) (ctl l)) l.

Definition fromSource (src : controlPlanSource) (snap : controlPlanSnapshot) : controlPlanSnapshot :=
  mkSnapshot (active snap) src (tickAt snap) (directiveCaptured snap) (directiveOK snap) (directive snap)
    (legacyCaptured snap) (legacyOK snap) (legacyMode snap) (legacyGridW snap) (legacyID snap).

(** ** The start of the tick *)
Section Start.
Context `{MapIter}.

(** The live power of the online batteries. *)
Definition liveBatTotal (store : Store) (capacities : gmap string f64) : f64 :=
  sumSome (fun name =>
      match Get name DerBattery store with
      | Some r => if usable store name then Some (SmoothedW r) else None
      | None => None
      end) (keys capacities).

Definition tickStart (store : Store) (capacities : gmap string f64) (now : Time) (l : Loop) : Loop :=
  let l := withDecision "" l in
  let l := withCtl (updateBatteryChargeFull store now capacities (ctl l)) l in
  let l := withSnapshot (mkSnapshot true controlPlanNone now false false noSlot false false "" (of_Z 0) "") l in
  let '(x, snap) := updateSlotDeliveryMetrics (lSite l) (liveBatTotal store capacities) now (slotStats l) in
  withStats x (withSnapshot snap l).
End Start.

(** ** The manual hold *)
Definition holdIsValid (cfg : loopConfig) (h : BatteryManualHold) : bool :=
  if bool_decide (mhDriver h = ""%string) then true
  else negb (bool_decide (mhDeviceID h = ""%string)) &&
       match BatteryHoldTargetValid cfg with Some f => f (mhDriver h) (mhDeviceID h) | None => false end.

Definition takeHold (cfg : loopConfig) (now : Time) (l : Loop) : option BatteryManualHold * Loop :=
  let '(h, kept) := GetBatteryManualHold now (ManualHold l) in
  let l := withManualHold kept l in
  match h with
  | None => (None, l)
  | Some h =>
      if holdIsValid cfg h
      then (Some h, SetGridTarget (of_Z 0) (withStale false (withEnergy noEnergyPath (withPI (Reset (PI l)) l))))
      else (None, withManualHold ClearBatteryManualHold l)
  end.

(** ** What the mode and its plan ask for *)
Record tickPlan : Type := mkPlan {
  effectiveMode : Mode;
  useEnergyPath : bool;
  plannerSelfIdleGate : bool;
  plannerSelfExportSurplusGate : bool;
  plannerSelfNoChargeStalePlan : bool;
  arbitrageFamilyIdleSlot : bool;
  coverLoadDischargeSlot : bool;
  slotOf : SlotDirective
}.
Definition plainPlan (m : Mode) : tickPlan := mkPlan m false false false false false false noSlot.

Definition preparePlannerSelf (now : Time) (l : Loop) : tickPlan * Loop :=
  let l := withEnergy noEnergyPath (SetGridTarget (of_Z 0) l) in
  let '(dir, ok, snap) := plannerSelfDirectiveAt (lSite l) now in
  if negb (ok && negb (EVOnly dir))
  then (mkPlan ModeSelfConsumption false false false true false false noSlot, withStale true (withSnapshot snap l))
  else
    (mkPlan ModeSelfConsumption false (plannerSelfDirectiveIsIdle dir) (plannerSelfDirectiveExportsSurplus dir) false
       false false noSlot,
     withStale false (withSnapshot (fromSource controlPlanDirective snap) (withDecision (DecisionID dir) l))).

Definition idleWhGate : f64 := of_Z 50.
Definition coverLoadExportToleranceW : f64 := of_Z 100.
Definition arbitrageFamily (m : Mode) : bool := isMode m ModePlannerPassiveArbitrage || isMode m ModePlannerArbitrage.

(** The slot's energy, when the plan has one for now: [None] falls through to
    the grid target. *)
Definition slotPlan (cfg : loopConfig) (now : Time) (l : Loop) : option tickPlan * Loop :=
  match SlotDirectiveFn (lSite l) with
  | None => (None, l)
  | Some _ =>
      if negb (UseEnergyDispatch cfg) then (None, l)
      else
        let '(dir, ok, snap) := plannerSelfDirectiveAt (lSite l) now in
        if negb (ok && negb (EVOnly dir)) then (None, withSnapshot snap l)
        else
          let l := withSnapshot (fromSource controlPlanDirective snap) (withDecision (DecisionID dir) l) in
          let family := arbitrageFamily (sMode (lSite l)) in
          let idle := family && fle (fabs (intentEnergyWh dir)) idleWhGate in
          let cover := family && HasPlannedGridW dir && flt (intentEnergyWh dir) (fneg idleWhGate) &&
                       flt (fneg coverLoadExportToleranceW) (PlannedGridW dir) in
          let plan := mkPlan ModeSelfConsumption (negb idle && negb cover) false false false idle cover dir in
          let l := withStale false l in
          (Some plan, if idle || cover then withEnergy noEnergyPath (SetGridTarget (of_Z 0) l) else l)
  end.

Definition targetPlan (now : Time) (l : Loop) : tickPlan * Loop :=
  let '(m, w, id, ok, snap) :=
    match PlanTargetFn (lSite l) with
    | Some _ => planTargetAt (lSite l) now
    | None => (""%string, of_Z 0, ""%string, false, planSnapshot (lSite l))
    end in
  if ok
  then (plainPlan m, withStale false (SetGridTarget w (withSnapshot (fromSource controlPlanLegacyTarget snap) (withDecision id l))))
  else (plainPlan ModeSelfConsumption, withStale true (SetGridTarget (of_Z 0) (withSnapshot snap l))).

Definition choosePlan (cfg : loopConfig) (now : Time) (held : bool) (l : Loop) : tickPlan * Loop :=
  let m := sMode (lSite l) in
  if held then (plainPlan ModeSelfConsumption, l)
  else if isMode m ModePlannerSelf then preparePlannerSelf now l
  else if IsPlannerMode m then
    match slotPlan cfg now l with
    | (Some plan, l) => (plan, l)
    | (None, l) => targetPlan now l
    end
  else (plainPlan m, l).
