(* ===== verification/PowerTarget.v ===== *)
(** * How much the fleet should do (go/internal/control/dispatch.go)

    The middle of ComputeDispatch: the site's signals, the batteries of the
    tick, and the total correction by one of three paths, the manual hold, the
    slot's energy budget and the PI controller on the meter. *)
From Stdlib Require Import ZArith Lia.
From S2P Require Import Prelude Float64 GoTime Json Kalman Health Telemetry Observations Limits Units.
From S2P Require Import CommandLog PIController Site PlanIntent StoragePlan SlotDelivery MeterFreeze.
From S2P Require Import ImportHour PhaseFuse FuseHeat ControlState EvHeadroom TickPlan.
From stdpp Require Import base gmap strings list.
#[local] Open Scope Z_scope.

(** ** The meter and the cars *)
Record vehiclePowerFlow : Type := mkFlow {
  Live : bool; EVChargeW : f64; V2XSignedW : f64; V2XChargeW : f64; V2XDischargeW : f64
}.

Definition liveOf (t : DerType) (store : Store) (pick : f64 -> bool) (r : DerReading) : option f64 :=
  match smoothedOf t store r with
  | Some w => if pick w then Some w else None
  | None => None
  end.
Definition positiveW (w : f64) : bool := flt (of_Z 0) w.
Definition negativeW (w : f64) : bool := flt w (of_Z 0).

Definition onlineVehiclePowerFlow (order : list string) (store : Store) : vehiclePowerFlow :=
  let some t := existsb (fun k => match readings store !! k with
      | Some r => match smoothedOf t store r with Some _ => true | None => false end | None => false end) order in
  let sum t pick := subWattFloor (sumReadings order (liveOf t store pick) store) in
  mkFlow (some DerEV || some DerV2X) (sum DerEV positiveW) (sum DerV2X (fun _ => true)) (sum DerV2X positiveW)
    (sum DerV2X (fun w => negb (positiveW w) && negativeW w)).

Definition siteMeterHeld (meter : option DerReading) (l : Loop) : bool * Loop :=
  match meter with
  | None => (false, l)
  | Some m => if negb (After (UpdatedAt m) (dispatchMeterAt l)) then (true, l) else (false, withMeterAt (UpdatedAt m) l)
  end.

(** The cars' load as this tick sees it. *)
Definition takeCars (flow : vehiclePowerFlow) (l : Loop) : Loop :=
  let s := lSite l in
  let manual :=
    if feq (ManualEVChargingW s) (of_Z 0) && feq (liveEVChargingW l) (of_Z 0) && flt (of_Z 0) (EVChargingW s)
    then EVChargingW s else ManualEVChargingW s in
  let liveW := if Live flow then fadd (EVChargeW flow) (V2XChargeW flow) else of_Z 0 in
  withCars manual (fadd manual liveW) (withLiveEV liveW l).

(** What the main decision reads of the site. *)
Record signals : Type := mkSignals {
  rawGridW : f64;
  gridW : f64;
  chargeGridW : f64;
  noCarGridW : f64;
  currentTotal : f64;
  meterHeld : bool;
  carFlow : vehiclePowerFlow
}.

Definition signalsOf (s : Site) (rawGridW currentTotal : f64) (held : bool) (flow : vehiclePowerFlow) : signals :=
  let gridW := if negb (BatteryCoversEV s) then fsub rawGridW (V2XDischargeW flow) else rawGridW in
  let chargeGridW := gridW in
  let gridW :=
    if negb (isMode (sMode s) ModeSelfConsumption) && negb (BatteryCoversEV s)
    then fsub gridW (uncoveredEVChargingW s) else gridW in
  let noCarGridW := gridW in
  let gridW := if flt gridW chargeGridW then fmax gridW (fmin chargeGridW currentTotal) else gridW in
  mkSignals rawGridW gridW chargeGridW noCarGridW currentTotal held flow.

(** ** The batteries *)
Definition batteryOf (store : Store) (st : State) (cfg : loopConfig) (ownerFloor : bool) (x : string * f64) : option batteryInfo :=
  let '(name, cap) := x in
  match Get name DerBattery store, GetHealth name store with
  | Some r, Some h =>
      let lim := limitsOf (DriverLimits (site st)) name in
      let '(discharge, charge) := batteryDirectionBlocks (Data r) in
      let missing := match SoC r with Some _ => false | None => true end in
      let soc := default (of_Z 0) (SoC r) in
      let belowOwner := ownerFloor && fle soc (socFloor lim) in
      Some (mkBattery name cap (SmoothedW r) soc (IsOnline h) (default ""%string (InverterGroups cfg !! name))
              (MaxChargeW lim) (MaxDischargeW lim) (MaxChargeWSet lim) (MaxDischargeWSet lim)
              ((missing || discharge) || feq (dischargeCap lim) (of_Z 0) || belowOwner)
              (charge || feq (chargeCap lim) (of_Z 0) || BatteryChargePaused st name)
              missing belowOwner)
  | _, _ => None
  end.

Definition onlineBatteries `{MapIter} (store : Store) (st : State) (cfg : loopConfig) (ownerFloor : bool)
    (capacities : gmap string f64) : list batteryInfo :=
  List.filter online (omap (batteryOf store st cfg ownerFloor) (map_iter capacities)).

Definition fleetW (bats : list batteryInfo) : f64 := sumF (currentW <$> bats).

(** ** The slot's energy budget *)
Definition withBudget (dir : SlotDirective) (d : SlotDirective) : SlotDirective :=
  mkSlot (PriceSlotStart d) (DecisionID d) (SlotStart d) (SlotEnd dir) (BatteryEnergyWh dir) (StorageEnergyWh d) (SoCTarget d)
    (Strategy d) (PVLimitW d) (PVCurtailActive d) (PlanCurtailment d) (PlannedGridW d) (HasPlannedGridW d) (LivePVSurplusSoCCap d)
    (LoadpointEnergyWh d) (LoadpointMaxPowerW d) (EVOnly d).

(** A shrunk budget: what was delivered is no more than it. *)
Definition capDelivered (wh delivered : f64) : f64 :=
  let d := if flt wh (of_Z 0) && flt delivered wh then wh else delivered in
  if flt (of_Z 0) wh && flt wh d then wh else d.

(** A grown budget: no catching up beyond the slot's own pace. *)
Definition rebaseDelivered (dir : SlotDirective) (now : Time) (delivered : f64) : f64 :=
  let slotH := fdiv (Seconds (Sub (SlotEnd dir) (SlotStart dir))) (of_Z 3600) in
  if flt (of_Z 0) slotH then
    let elapsedH := fdiv (Seconds (Sub now (SlotStart dir))) (of_Z 3600) in
    if flt (of_Z 0) elapsedH && flt elapsedH slotH then
      let wh := BatteryEnergyWh dir in
      let expected := fmul (fdiv elapsedH slotH) wh in
      let d := if flt wh (of_Z 0) && flt expected delivered then expected else delivered in
      if flt (of_Z 0) wh && flt d expected then expected else d
    else delivered
  else delivered.

Definition accrueEnergy (dir : SlotDirective) (totalW : f64) (now : Time) (e : energyPath) : energyPath :=
  if negb (Equal (SlotStart dir) (SlotStart (currentDirective e)))
  then mkEnergyPath dir (elapsedDirectiveEnergy dir now) now
  else
    let dt := Seconds (Sub now (lastTickTs e)) in
    let d := if flt (of_Z 0) dt && flt dt (of_Z 300)
             then fadd (slotDelivered e) (fdiv (fmul totalW dt) (of_Z 3600)) else slotDelivered e in
    mkEnergyPath (withBudget dir (currentDirective e)) (rebaseDelivered dir now (capDelivered (BatteryEnergyWh dir) d)) now.

Definition budgetW (dir : SlotDirective) (delivered : f64) (now : Time) : f64 :=
  let remainingWh := fsub (BatteryEnergyWh dir) delivered in
  let remainingS := Seconds (Sub (SlotEnd dir) now) in
  if flt (lit 5 10) remainingS then fdiv (fmul remainingWh (of_Z 3600)) remainingS else of_Z 0.

Section Targets.
Context `{MapIter}.

Definition plannedLoadpointEnergyWh (dir : SlotDirective) : f64 :=
  sumSome (fun x => if flt (of_Z 0) (snd x) then Some (snd x) else None) (map_iter (LoadpointEnergyWh dir)).

(** Discharge stops at the house when the battery may not feed the car. *)
Definition stopAtHouse (s : Site) (g : signals) (dir : SlotDirective) (w : f64) : f64 :=
  let surplusOnly := flt (of_Z 0) (EVSurplusOnlyReserveW s) && flt (of_Z 0) (plannedLoadpointEnergyWh dir) in
  let uncovered := uncoveredEVChargingW s in
  if ((negb (BatteryCoversEV s) && flt evActiveThresholdW uncovered) || surplusOnly) && flt w (of_Z 0) then
    let protectedGridW := fsub (fsub (rawGridW g) uncovered) (V2XDischargeW (carFlow g)) in
    let reactive := fsub (currentTotal g) protectedGridW in
    if flt w reactive then reactive else w
  else w.

Definition absorbThreshold (s : Site) : f64 :=
  if fle (PVSurplusAbsorbThresholdW s) (of_Z 0) then of_Z 100 else PVSurplusAbsorbThresholdW s.

(** Surprise export may charge the battery. *)
Definition absorbSurprise (s : Site) (g : signals) (dir : SlotDirective) (bats : list batteryInfo) (now : Time) (w : f64) : f64 :=
  let cap := pvSurplusAbsorbCap s dir in
  if flt (of_Z 0) cap && fle (of_Z 0) w then
    let headroomW := pvSurplusAbsorbHeadroomW bats cap (Seconds (Sub (SlotEnd dir) now)) in
    if flt (of_Z 0) headroomW then
      let projected := fadd (gridW g) (fsub w (currentTotal g)) in
      let extra := unexpectedExportBeyondPlanW projected dir in
      if flt (absorbThreshold s) extra then fadd w (if flt headroomW extra then headroomW else extra) else w
    else w
  else w.

Definition deliberateGridCharge (dir : SlotDirective) : bool := HasPlannedGridW dir && fle (of_Z 100) (PlannedGridW dir).

(** The car first: solar held for it, and a charge the plan makes from PV. *)
Definition leaveForCar (s : Site) (g : signals) (a : surplusAccounting) (dir : SlotDirective) (w : f64) : f64 :=
  let w :=
    if flt (of_Z 0) (EVSurplusOnlyReserveW s) && flt (of_Z 0) w && negb (deliberateGridCharge dir)
    then let ceiling := chargeCeilingAfterEVReserveW a in if flt ceiling w then ceiling else w
    else w in
  if flt (of_Z 0) w && (HasPlannedGridW dir && negb (deliberateGridCharge dir)) && flt (noCarGridW g) (gridW g)
  then fmin w (fsub (currentTotal g) (gridW g)) else w.

Definition planGridDeadband : f64 := of_Z 100.

(** A charge slot backs off from import the plan did not have. *)
Definition backOff (s : Site) (g : signals) (dir : SlotDirective) (w : f64) : f64 :=
  if HasPlannedGridW dir && flt (of_Z 0) w then
    let projected := fadd (noCarGridW g) (fsub w (currentTotal g)) in
    let gridErr := fsub projected (PlannedGridW dir) in
    if flt planGridDeadband gridErr then
      let adjusted := fsub w gridErr in
      if flt adjusted (of_Z 0) && negb (coverLoadChargeSlot s dir) then of_Z 0 else adjusted
    else w
  else w.

Definition energyTargetW (s : Site) (g : signals) (a : surplusAccounting) (dir : SlotDirective) (delivered : f64)
    (bats : list batteryInfo) (now : Time) : f64 :=
  let w := budgetW dir delivered now in
  let w := stopAtHouse s g dir w in
  let w := absorbSurprise s g dir bats now w in
  let w := leaveForCar s g a dir w in
  backOff s g dir w.

Definition energyCorrection (g : signals) (a : surplusAccounting) (dir : SlotDirective) (bats : list batteryInfo)
    (now : Time) (l : Loop) : f64 * Loop :=
  let e := accrueEnergy dir (currentTotal g) now (energy l) in
  let l := SetGridTarget (of_Z 0) (withEnergy e l) in
  let l := withPI (Reset (PI l)) l in
  (fsub (energyTargetW (lSite l) g a dir (slotDelivered e) bats now) (currentTotal g), l).

(** ** The PI controller on the meter *)

(** A battery doing what a limit forbids. *)
Definition batteryBreaksLimit (bats : list batteryInfo) (prev : gmap string f64) (noSelfDischarge noSelfCharge : bool) : bool :=
  (noSelfDischarge && anyBatteryDischarging bats) || anyExplicitZeroDischargeViolation bats ||
  anyBelowOwnerFloorDischarging bats prev || anyAtHardFloorDischarging bats prev ||
  anyBlockedBatteryCharging bats noSelfCharge.

(** Export held back for the car. *)
Definition biasedGrid (s : Site) (m : Mode) (g : signals) (a : surplusAccounting) : f64 :=
  if flt (of_Z 0) (EVSurplusOnlyReserveW s) && isMode m ModeSelfConsumption && evCanUseReserve a then
    let reserve := evReserveRemaining a in
    if flt (gridW g) (fneg reserve) then fadd (gridW g) reserve
    else if flt (gridW g) (of_Z 0) then of_Z 0
    else gridW g
  else gridW g.

(** A battery that may not export aims at the edge of the dead band. *)
Definition activeTarget (cfg : loopConfig) (s : Site) (g : signals) (biased target : f64) : f64 :=
  if batteryMayNotExport (sMode s) &&
     flt (fsub (currentTotal g) (fsub biased target)) (fneg (GridToleranceW cfg))
  then fmax target (GridToleranceW cfg) else target.

Definition meterError (cfg : loopConfig) (s : Site) (m : Mode) (g : signals) (biased target : f64) : f64 :=
  if isMode m ModePeakShaving then
    if flt (PeakLimitW cfg) (gridW g) then fsub (gridW g) (PeakLimitW cfg)
    else if flt (gridW g) (of_Z 0) then gridW g
    else if flt (of_Z 0) (chargeGridW g) && flt (of_Z 0) (currentTotal g) && flt evActiveThresholdW (EVChargingW s)
    then fmin (chargeGridW g) (currentTotal g)
    else of_Z 0
  else fsub biased target.

Definition wrongDirEpsW : f64 := of_Z 1.

(** The live meter bounds the PI's answer: the total allowed, and whether the
    integral decays because it pulls the wrong way. *)
Definition meterClamp (currentTotal errW targetTotal : f64) : f64 * bool :=
  let ideal := fsub currentTotal errW in
  let dir := fsub targetTotal currentTotal in
  if flt (of_Z 0) errW && flt wrongDirEpsW dir then (currentTotal, true)
  else if flt errW (of_Z 0) && flt dir (fneg wrongDirEpsW) then (currentTotal, true)
  else if flt (of_Z 0) errW && flt targetTotal ideal then (ideal, false)
  else if flt errW (of_Z 0) && flt ideal targetTotal then (ideal, false)
  else (targetTotal, false).

(** One PI step toward [target] or, when shaving a peak, on the error. *)
Definition stepPI (m : Mode) (gridTargetW errW biased target : f64) (p : PIController) : PIController * f64 :=
  let measurement := if isMode m ModePeakShaving then fadd gridTargetW errW else biased in
  let '(p', out) := Update (if isMode m ModePeakShaving then p else withSetpoint target p) measurement in
  (withSetpoint (Setpoint p) p', Output out).

(** The surplus-only car's limits on the total. *)
Definition surplusOnlyCap (s : Site) (g : signals) (a : surplusAccounting) (total : f64) : f64 -> f64 := fun corr =>
  if flt (of_Z 0) total then
    let ceiling := chargeCeilingAfterEVReserveW a in
    if flt ceiling total then fsub ceiling (currentTotal g) else corr
  else if flt total (of_Z 0) && isMode (sMode s) ModeSelfConsumption then
    let coverable := fsub (gridW g) (EVSurplusOnlyChargingW s) in
    let lowest := fsub (currentTotal g) coverable in
    let lowest := if flt (of_Z 0) lowest then of_Z 0 else lowest in
    if flt total lowest then fsub lowest (currentTotal g) else corr
  else if flt total (of_Z 0) && fle (gridW g) (of_Z 0) then fneg (currentTotal g)
  else corr.

(** Corrections after the clamp, each on the total so far. *)
Definition totalOf (g : signals) (corr : f64) : f64 := fadd (currentTotal g) corr.
Definition neverFeedsCar (g : signals) (corr : f64) : f64 :=
  if flt (noCarGridW g) (gridW g) && flt (totalOf g corr) (of_Z 0) then fneg (currentTotal g) else corr.
Definition blockDischarge (b : bool) (g : signals) (corr : f64) : f64 :=
  if b && flt (totalOf g corr) (of_Z 0) then fneg (currentTotal g) else corr.
Definition blockCharge (b : bool) (g : signals) (corr : f64) : f64 :=
  if b && flt (of_Z 0) (totalOf g corr) then fneg (currentTotal g) else corr.
Definition capCharge (ceiling : f64) (g : signals) (corr : f64) : f64 :=
  if flt ceiling (totalOf g corr) then fsub ceiling (currentTotal g) else corr.

Definition idleSlotCeiling (s : Site) (a : surplusAccounting) (dir : SlotDirective) (bats : list batteryInfo)
    (capPct : f64) (now : Time) : f64 :=
  let ceiling := unexpectedIdleExportBeyondPlanW a dir (absorbThreshold s) in
  let headroomW := pvSurplusAbsorbHeadroomW bats capPct (Seconds (Sub (SlotEnd dir) now)) in
  if flt headroomW ceiling then headroomW else ceiling.

(** Every limit after the clamp, in the code's order. *)
Definition limitCorrection (s : Site) (g : signals) (a : surplusAccounting) (plan : tickPlan) (bats : list batteryInfo)
    (surplusActive noSelfDischarge noSelfCharge : bool) (absorbCap : f64) (now : Time) (corr : f64) : f64 :=
  let corr := neverFeedsCar g corr in
  let corr := if surplusActive then surplusOnlyCap s g a (totalOf g corr) corr else corr in
  let corr := blockDischarge noSelfDischarge g corr in
  let corr := blockCharge noSelfCharge g corr in
  let corr := if plannerSelfIdleGate plan then capCharge (plannerSelfIdleDesiredTotal a s) g corr else corr in
  if arbitrageFamilyIdleSlot plan && flt (of_Z 0) absorbCap
  then capCharge (idleSlotCeiling s a (slotOf plan) bats absorbCap now) g corr else corr.

(** [None] leaves the last commands to the fuse-saver. Otherwise the
    correction and, when the meter clamp moved it, the move it allowed. *)
Record correction : Type := mkCorrection { corrW : f64; clampMoveW : option f64 }.

Definition reactiveCorrection (cfg : loopConfig) (g : signals) (a : surplusAccounting) (plan : tickPlan) (bats : list batteryInfo)
    (noSelfDischarge noSelfCharge : bool) (absorbCap : f64) (now : Time) (l : Loop) : option correction * Loop :=
  let s := lSite l in
  let breaks := batteryBreaksLimit bats (PrevTargets (sentTo (ctl l))) noSelfDischarge noSelfCharge in
  if meterHeld g then (if negb breaks then None else Some (mkCorrection (of_Z 0) None), l)
  else
    let m := effectiveMode plan in
    let biased := biasedGrid s m g a in
    let target := activeTarget cfg s g biased (GridTargetW l) in
    let errW := meterError cfg s m g biased target in
    let surplusActive := flt (of_Z 0) (EVSurplusOnlyReserveW s) && isMode m ModeSelfConsumption in
    if negb surplusActive && flt (fabs errW) (GridToleranceW cfg) && negb breaks then (None, l)
    else
      let '(p, out) := stepPI m (GridTargetW l) errW biased target (PI l) in
      let targetTotal := fadd (currentTotal g) out in
      let '(allowed, decays) := meterClamp (currentTotal g) errW targetTotal in
      let l := withPI (if decays then DecayIntegral p (lit 5 10) else p) l in
      let corr := fsub allowed (currentTotal g) in
      (Some (mkCorrection (limitCorrection s g a plan bats surplusActive noSelfDischarge noSelfCharge absorbCap now corr)
               (if fne allowed targetTotal then Some corr else None)), l).

(** ** The car and the battery share the site ceiling *)
Definition evInMeterW (st : State) (now : Time) : f64 := fadd (ManualEVChargingW (site st)) (evShownW st now).

Variable zone : Time -> Duration.

Definition shareCeiling (st : State) (now : Time) (fuseMaxW : f64) (meter : option DerReading) (g : signals) (corr : f64)
  : f64 * State :=
  let plannedEVW := scheduledEVPowerW (site st) now in
  let inMeter := evInMeterW st now in
  let none := (corr, withShare (mkShare (of_Z 0) false false) st) in
  if flt (of_Z 0) fuseMaxW && flt (of_Z 0) (fmax inMeter plannedEVW) then
    let ceilingW := phaseImportCeilingW zone (site st) now (importHour st) fuseMaxW meter in
    let targetTotal := totalOf g corr in
    let B := fmax (of_Z 0) targetTotal in
    let Bn := fmin (of_Z 0) targetTotal in
    let E := fmax inMeter plannedEVW in
    let H := fsub (fsub (rawGridW g) (currentTotal g)) inMeter in
    let projectedGrid := fadd (fadd H targetTotal) E in
    if flt ceilingW projectedGrid && flt (of_Z 0) (fadd B E) then
      let byImport := importLimitSets zone (site st) now (importHour st) ceilingW in
      if flt (of_Z 0) plannedEVW then
        let available := evHeadroomW ceilingW (fadd (fsub (rawGridW g) (currentTotal g)) Bn) inMeter in
        let ev := fmin E available in
        let newBattery := fadd Bn (fmin B (fmax (of_Z 0) (fsub available ev))) in
        (fsub newBattery (currentTotal g), withShare (mkShare ev true byImport) st)
      else
        let scale := fmax (of_Z 0) (fmin (of_Z 1) (fdiv (fsub (fsub ceilingW H) Bn) (fadd B E))) in
        (fsub (fadd Bn (fmul B scale)) (currentTotal g), withShare (mkShare (fmul E scale) true byImport) st)
    else none
  else none.

(** With no battery online, the car alone. *)
Definition publishBatterylessEVFuseBudget (store : Store) (st : State) (now : Time) (fuseMaxW : f64) : State :=
  let meter := Get (SiteMeterDriver (site st)) DerMeter store in
  let inMeter := evInMeterW st now in
  let demand := fmax inMeter (scheduledEVPowerW (site st) now) in
  match meter with
  | None => withShare (mkShare (of_Z 0) false false) st
  | Some m =>
      if fle demand (of_Z 0) then withShare (mkShare (of_Z 0) false false) st
      else
        let ceilingW := phaseImportCeilingW zone (site st) now (importHour st) fuseMaxW meter in
        let cap := evHeadroomW ceilingW (fmax (RawW m) (SmoothedW m)) inMeter in
        let over := flt cap demand in
        withShare (mkShare (fmin demand cap) over (over && importLimitSets zone (site st) now (importHour st) ceilingW)) st
  end.
End Targets.
