(* ===== verification/ControlLaw.v ===== *)
(** * One cycle of the control loop (ComputeDispatch of
    go/internal/control/dispatch.go)

    The tick's plan, the total correction, its split over the batteries, the
    ramp limit and the safety pipeline, composed as the code composes them,
    with the early exits that leave the last commands standing. *)
From Stdlib Require Import ZArith Lia.
From S2P Require Import Prelude Float64 GoTime Json Kalman Health Telemetry Observations Limits Distribution Units.
From S2P Require Import CommandLog PIController Site PlanIntent StoragePlan SlotDelivery MeterFreeze.
From S2P Require Import ImportHour PhaseFuse FuseHeat ControlState FuseRelief FuseGuard EvHeadroom SafetyPipeline.
From S2P Require Import TickPlan PowerTarget.
From stdpp Require Import base gmap strings list.
#[local] Open Scope Z_scope.

Definition holdoffToleranceS : f64 := lit 25 100.

(** ** The ramp *)
Record slewRules : Type := mkSlew {
  slHold : option BatteryManualHold;
  slExportGate : bool;
  slRate : option f64;
  slClampMoveW : f64
}.

(** The battery's own power, or else our last command to it. *)
Definition anchorOf (store : Store) (prev : gmap string f64) (driver : string) : option f64 :=
  match Get driver DerBattery store with Some r => Some (SmoothedW r) | None => prev !! driver end.

(** Commands to 0 W that may skip the ramp. *)
Definition stopsAtOnce (r : slewRules) (t : DispatchTarget) : bool :=
  let sibling := match slHold r with
                 | Some h => negb (bool_decide (mhDriver h = ""%string)) && negb (bool_decide (tDriver t = mhDriver h))
                 | None => false end in
  let idleHold := match slHold r with Some h => flt (fabs (mhPowerW h)) (of_Z 1) | None => false end in
  (slExportGate r || sibling || idleHold) && flt (fabs (TargetW t)) (of_Z 1).

(** No further back than the meter clamp allows. *)
Definition snapToClamp (moveW pre w : f64) : f64 :=
  if flt moveW (of_Z 0) && flt pre w then pre
  else if flt (of_Z 0) moveW && flt w pre then pre
  else w.

Definition slewOne (r : slewRules) (store : Store) (prev : gmap string f64) (i : nat) (t : DispatchTarget)
  : DispatchTarget * slewFleetPoint :=
  let pre := TargetW t in
  match anchorOf store prev (tDriver t) with
  | None => (t, mkPoint i pre pre pre)
  | Some anchor =>
      if stopsAtOnce r t then (mkTarget (tDriver t) (of_Z 0) (Clamped t), mkPoint i anchor pre (of_Z 0))
      else
        match slRate r with
        | None => (t, mkPoint i anchor pre pre)
        | Some rate =>
            let delta := fsub pre anchor in
            if flt rate (fabs delta) then
              let sign := if flt delta (of_Z 0) then of_Z (-1) else of_Z 1 in
              let w := fadd anchor (fmul sign rate) in
              (mkTarget (tDriver t) (snapToClamp (slClampMoveW r) pre w) true, mkPoint i anchor pre w)
            else (t, mkPoint i anchor pre pre)
        end
  end.

Definition slewFleet (r : slewRules) (clamped : bool) (store : Store) (prev : gmap string f64) (raw : list DispatchTarget)
  : list DispatchTarget :=
  let slewed := imap (slewOne r store prev) raw in
  if clamped then projectSlewToFleetClamp (fst <$> slewed) (snd <$> slewed) else fst <$> slewed.

Section ControlLaw.
Context `{MapIter}.
Variable zone : Time -> Duration.

(** Solar of each inverter group, from its online drivers. *)
Definition groupPVOf (order : list string) (cfg : loopConfig) (store : Store) : gmap string f64 :=
  if (size (InverterGroups cfg) =? 0)%nat then ∅
  else
    fold_left (fun m k =>
        match readings store !! k with
        | Some r =>
            let g := default ""%string (InverterGroups cfg !! Driver r) in
            if bool_decide (RType r = DerPV) && usable store (Driver r) && negb (bool_decide (g = ""%string)) &&
               flt (SmoothedW r) (of_Z 0)
            then <[g := fadd (atZero m g) (fneg (SmoothedW r))]> m else m
        | None => m
        end) order ∅.

(** The holdoff since the last dispatch. *)
Definition holdsOff (held : bool) (now : Time) (st : State) : bool :=
  match LastDispatch (sentTo st) with
  | None => false
  | Some last =>
      negb held && (ControlIntervalS (site st) <? MinDispatchIntervalS (site st)) &&
      flt (Seconds (Sub now last)) (fsub (of_Z (MinDispatchIntervalS (site st))) holdoffToleranceS)
  end.

(** The total over the batteries. *)
Definition distributeTotal (order : list string) (cfg : loopConfig) (store : Store) (h : option BatteryManualHold)
    (plan : tickPlan) (bats : list batteryInfo) (total corr : f64) (now : Time) (l : Loop) : list DispatchTarget * Loop :=
  match h with
  | Some hd =>
      if negb (bool_decide (mhDriver hd = ""%string))
      then (distributeScopedManualHold bats (mhDriver hd) (fadd total corr), l)
      else
        let '(_, d, snap) := distributePlannedStorages (lSite l) (PlanStale l) now bats (fadd total corr) true (storageDelivery l) in
        (distributeProportional bats corr (groupPVOf order cfg store), withSnapshot snap (withStorage d l))
  | None =>
      let '(out, d, snap) := distributePlannedStorages (lSite l) (PlanStale l) now bats (fadd total corr) false (storageDelivery l) in
      let l := withSnapshot snap (withStorage d l) in
      match out with
      | Some ts => (ts, l)
      | None =>
          if isMode (effectiveMode plan) ModeSelfConsumption || isMode (effectiveMode plan) ModePeakShaving
          then (distributeProportional bats corr (groupPVOf order cfg store), l) else ([], l)
      end
  end.

(** From the correction to the commands. *)
Definition issue (order : list string) (cfg : loopConfig) (store : Store) (h : option BatteryManualHold) (plan : tickPlan)
    (g : signals) (bats : list batteryInfo) (noSelfDischarge noSelfCharge : bool) (c : correction) (now : Time)
    (capacities : gmap string f64) (fuseMaxW : f64) (l : Loop) : list DispatchTarget * Loop :=
  let meter := Get (SiteMeterDriver (lSite l)) DerMeter store in
  let '(corr, st) := shareCeiling zone (ctl l) now fuseMaxW meter g (corrW c) in
  let l := withCtl st l in
  let '(raw, l) := distributeTotal order cfg store h plan bats (currentTotal g) corr now l in
  let held := match h with Some _ => true | None => false end in
  let rate := if negb (SlewEnabled cfg) || fle (SlewRateW cfg) (of_Z 0) then None else Some (SlewRateW cfg) in
  let rules := mkSlew h (plannerSelfExportSurplusGate plan) rate (default (of_Z 0) (clampMoveW c)) in
  let prev := PrevTargets (sentTo (ctl l)) in
  let clamped := match clampMoveW c with Some _ => true | None => false end in
  let raw := slewFleet rules clamped store prev raw in
  let raw := clampTargetsToPowerLimits raw (DriverLimits (lSite l)) in
  let raw := if meterHeld g then holdTowardZero raw prev else raw in
  let opts := mkOptions held noSelfDischarge noSelfCharge (chargeBlockedDrivers bats) (belowOwnerFloorDrivers bats) true true in
  let '(out, st) := applyDispatchSafetyPipeline zone order raw store (ctl l) now capacities fuseMaxW opts in
  (out, withCtl st l).

(** The paths that send what they are told, or nothing new. *)
Definition sendFixed (order : list string) (targets : list DispatchTarget) (store : Store) (now : Time) (capacities : gmap string f64)
    (fuseMaxW : f64) (l : Loop) : list DispatchTarget * Loop :=
  let '(out, st) := applyDispatchSafetyPipeline zone order targets store (ctl l) now capacities fuseMaxW (policyFree false) in
  (out, withCtl st l).
Definition keepLast (store : Store) (now : Time) (capacities : gmap string f64) (fuseMaxW : f64) (l : Loop)
  : list DispatchTarget * Loop :=
  let '(out, st) := fuseSaverEarlyExit zone store (ctl l) now capacities fuseMaxW in (out, withCtl st l).

Definition sendNothing (st : State) : State :=
  let s := sentTo st in
  withSent (mkSentLog (batteryCommands s) (batteryReadings s) (LastDispatch s) (PrevTargets s) []) st.

(** A slot the plan meant to idle does not take surprise solar. *)
Definition idleExportGate (s : Site) (plan : tickPlan) (g : signals) (absorbCap : f64) : bool :=
  (arbitrageFamilyIdleSlot plan || coverLoadDischargeSlot plan) &&
  flt (fsub (gridW g) (currentTotal g)) (fneg IdleGateThresholdW) && fle absorbCap (of_Z 0).

(** The tick past its early exits, with batteries online. *)
Definition decideCommands (order : list string) (cfg : loopConfig) (store : Store) (h : option BatteryManualHold) (plan : tickPlan)
    (g : signals) (bats : list batteryInfo) (now : Time) (capacities : gmap string f64) (fuseMaxW : f64) (l : Loop)
  : list DispatchTarget * Loop :=
  let s := lSite l in
  let held := match h with Some _ => true | None => false end in
  let noSelfDischarge := negb held && planHasNonDischargeIntent s now in
  let a := newSurplusAccounting (rawGridW g) (gridW g) (currentTotal g) s in
  let absorbCap := if arbitrageFamilyIdleSlot plan then pvSurplusAbsorbCap s (slotOf plan) else of_Z 0 in
  let noSelfCharge := negb held && (plannerSelfExportSurplusGate plan || plannerSelfNoChargeStalePlan plan ||
                                    idleExportGate s plan g absorbCap) in
  let '(c, l) :=
    match h with
    | Some hd => (Some (mkCorrection (fsub (mhPowerW hd) (currentTotal g)) None), l)
    | None =>
        if useEnergyPath plan
        then let '(w, l) := energyCorrection g a (slotOf plan) bats now l in (Some (mkCorrection w None), l)
        else reactiveCorrection cfg g a plan bats noSelfDischarge noSelfCharge absorbCap now l
    end in
  match c with
  | None => keepLast store now capacities fuseMaxW l
  | Some c => issue order cfg store h plan g bats noSelfDischarge noSelfCharge c now capacities fuseMaxW l
  end.

(** Reading the site and its batteries. *)
Definition readSite (order : list string) (cfg : loopConfig) (store : Store) (held : bool) (now : Time)
    (capacities : gmap string f64) (l : Loop) : signals * list batteryInfo * Loop :=
  let meter := Get (SiteMeterDriver (lSite l)) DerMeter store in
  let rawGridW := match meter with Some m => SmoothedW m | None => of_Z 0 end in
  let '(repeated, l) := siteMeterHeld meter l in
  let repeated := repeated || siteMeterRepeatsAfterMove (lSite l) (freeze l) meter in
  let flow := onlineVehiclePowerFlow order store in
  let l := takeCars flow l in
  let ownerFloor := negb held && IsPlannerMode (sMode (lSite l)) in
  let bats := onlineBatteries store (ctl l) cfg ownerFloor capacities in
  (signalsOf (lSite l) rawGridW (fleetW bats) repeated flow, bats, withCtl (expireOfflineFuseRelief now bats (ctl l)) l).

Definition tickBody (order : list string) (cfg : loopConfig) (store : Store) (h : option BatteryManualHold) (plan : tickPlan)
    (now : Time) (capacities : gmap string f64) (fuseMaxW : f64) (l : Loop) : list DispatchTarget * Loop :=
  let held := match h with Some _ => true | None => false end in
  if isMode (effectiveMode plan) ModeIdle
  then sendFixed order (holdFleetAtZero store capacities) store now capacities fuseMaxW l
  else if isMode (effectiveMode plan) ModeCharge
  then sendFixed order (chargeAll store capacities (DriverLimits (lSite l))) store now capacities fuseMaxW l
  else if holdsOff held now (ctl l) then keepLast store now capacities fuseMaxW l
  else
    let '(g, bats, l) := readSite order cfg store held now capacities l in
    if (length bats =? 0)%nat
    then ([], withCtl (sendNothing (publishBatterylessEVFuseBudget zone store (ctl l) now fuseMaxW)) l)
    else decideCommands order cfg store h plan g bats now capacities fuseMaxW l.

Definition ComputeDispatch (order : list string) (cfg : loopConfig) (store : Store) (now : Time) (capacities : gmap string f64)
    (fuseMaxW : f64) (l : Loop) : list DispatchTarget * Loop :=
  let l := tickStart store capacities now l in
  let '(h, l) := takeHold cfg now l in
  let '(plan, l) := choosePlan cfg now (match h with Some _ => true | None => false end) l in
  let '(out, l) := tickBody order cfg store h plan now capacities fuseMaxW l in
  (out, withSnapshot noSnapshot l).
End ControlLaw.

(** ** Lemmas: whose commands they are *)

(** A battery this dispatcher may command: configured and online. *)
Definition commandable (store : Store) (capacities : gmap string f64) (d : string) : Prop :=
  is_Some (capacities !! d) /\ usable store d = true.

Lemma slew_driver r store prev i t : tDriver (fst (slewOne r store prev i t)) = tDriver t.
Proof.
  unfold slewOne. cbv zeta. destruct (anchorOf _ _ _); [|reflexivity]. destruct (stopsAtOnce r t); [reflexivity|].
  destruct (slRate r); [|reflexivity]. now destruct (flt _ _).
Qed.
Lemma alter_driver f i ts : (forall t, tDriver (f t) = tDriver t) -> drivers (alter f i ts) = drivers ts.
Proof.
  intros Hf. unfold drivers. rewrite (list_fmap_alter _ f id); [now apply list_alter_id|]. apply Forall_true. exact Hf.
Qed.
Lemma fold_drivers {A} (f : list DispatchTarget -> A -> list DispatchTarget) ps ts :
  (forall ts p, drivers (f ts p) = drivers ts) -> drivers (fold_left f ps ts) = drivers ts.
Proof. intros Hf. revert ts. induction ps as [|p ps IH]; intros ts; [reflexivity|]. cbn [fold_left]. now rewrite IH. Qed.

Lemma project_drivers ts ps : drivers (projectSlewToFleetClamp ts ps) = drivers ts.
Proof.
  unfold projectSlewToFleetClamp. cbv zeta. destruct (_ || _); [reflexivity|]. destruct (_ && _); [reflexivity|].
  apply fold_drivers. intros ts' p. now apply alter_driver.
Qed.
Lemma slew_drivers r clamped store prev raw : drivers (slewFleet r clamped store prev raw) = drivers raw.
Proof.
  unfold slewFleet. cbv zeta. assert (E : drivers (fst <$> imap (slewOne r store prev) raw) = drivers raw).
  { unfold drivers. rewrite <- list_fmap_compose, fmap_imap. generalize 0%nat. intros n. clear n.
    apply list_eq. intros i. rewrite list_lookup_imap, list_lookup_fmap. destruct (raw !! i) as [t|]; [|reflexivity].
    cbn. f_equal. apply slew_driver. }
  destruct clamped; [rewrite project_drivers|]; exact E.
Qed.

Definition names (bats : list batteryInfo) : list string := bDriver <$> bats.

Lemma clamped_driver b w : tDriver (clampedTarget b w) = bDriver b.
Proof. unfold clampedTarget. now destruct (clampWithSoC w b). Qed.
Lemma clamped_drivers bats f : drivers ((fun b => clampedTarget b (f b)) <$> bats) = names bats.
Proof. unfold drivers. rewrite <- list_fmap_compose. apply list_fmap_ext. intros i b _. apply clamped_driver. Qed.

Section Names.
Context `{MapIter}.

Lemma split_drivers bats desired pv :
  splitByCapacityAndPV bats desired pv = [] \/ drivers (splitByCapacityAndPV bats desired pv) = names bats.
Proof.
  unfold splitByCapacityAndPV. cbv zeta. destruct (fle _ _); [now left|right].
  destruct (_ || _); [unfold distributeByCapacity|]; apply clamped_drivers.
Qed.
Lemma split_subset bats desired pv : drivers (splitByCapacityAndPV bats desired pv) ⊆ names bats.
Proof. destruct (split_drivers bats desired pv) as [-> | ->]; [intros d I; inversion I|reflexivity]. Qed.
Lemma filter_names (P : batteryInfo -> Prop) `{forall b, Decision (P b)} bats : names (filter P bats) ⊆ names bats.
Proof.
  intros d I. apply list_elem_of_fmap in I as (b & -> & I). apply list_elem_of_filter in I as [_ I].
  apply list_elem_of_fmap. eauto.
Qed.
Lemma proportional_subset bats corr pv : drivers (distributeProportional bats corr pv) ⊆ names bats.
Proof.
  rewrite distribute_shape. destruct (decide _); [apply split_subset|]. unfold drivers. rewrite fmap_app.
  intros d I. apply elem_of_app in I as [I|I].
  - apply (filter_names (fun b => blockedFor (fadd (sumF (currentW <$> bats)) corr) b = false)).
    now apply (split_subset _ (fadd (sumF (currentW <$> bats)) corr) pv).
  - rewrite <- list_fmap_compose in I. exact (filter_names (fun b => blockedFor _ b = true) bats d I).
Qed.

Lemma distribute_subset order cfg store h plan bats total corr now l :
  drivers (fst (distributeTotal order cfg store h plan bats total corr now l)) ⊆ names bats.
Proof.
  unfold distributeTotal. destruct h as [hd|].
  - destruct (negb _).
    + cbn [fst]. unfold distributeScopedManualHold. now rewrite clamped_drivers.
    + destruct (distributePlannedStorages _ _ _ _ _ _ _) as [[o d] snap]. apply proportional_subset.
  - pose proof (planned_drivers (lSite l) (PlanStale l) now bats (fadd total corr) false (storageDelivery l)) as D.
    destruct (distributePlannedStorages _ _ _ _ _ _ _) as [[o d] snap]. cbn [fst] in D.
    destruct o as [ts|]; [cbn [fst]; unfold drivers; now rewrite D|].
    destruct (_ || _); [apply proportional_subset|intros x I; inversion I].
Qed.

Lemma keys_of {A} (m : gmap string A) d : d ∈ keys m -> is_Some (m !! d).
Proof.
  unfold keys. intros I. apply list_elem_of_fmap in I as ([k w] & -> & I). rewrite (map_iter_perm _ m) in I.
  apply elem_of_map_to_list in I. now exists w.
Qed.

Lemma battery_commandable store st cfg floor capacities b :
  b ∈ onlineBatteries store st cfg floor capacities -> commandable store capacities (bDriver b).
Proof.
  unfold onlineBatteries. intros I. apply list_elem_of_In, filter_In in I as [I O]. apply list_elem_of_In in I.
  apply list_elem_of_omap in I as ([name cap] & I & E). rewrite (map_iter_perm _ capacities) in I.
  apply elem_of_map_to_list in I. unfold batteryOf in E. destruct (Get name DerBattery store) as [r|] eqn:G; [|discriminate].
  destruct (GetHealth name store) as [h|] eqn:Eh; [|discriminate]. destruct (batteryDirectionBlocks (Data r)) as [dis cha].
  injection E as <-. cbn [bDriver online] in *. split; [eauto|unfold usable; now rewrite Eh].
Qed.
Lemma names_commandable store st cfg floor capacities :
  Forall (commandable store capacities) (names (onlineBatteries store st cfg floor capacities)).
Proof. apply Forall_fmap, Forall_forall. intros b. apply battery_commandable. Qed.
End Names.

(** ** Lemmas: the paths that keep the last commands *)
Section Keep.
Context `{MapIter}.
Variable zone : Time -> Duration.

Lemma relief_rules ts rs m p st now f : sameRules st (snd (fuseReliefFromSnapshot zone ts rs m p st now f)).
Proof.
  unfold fuseReliefFromSnapshot. pose proof (parts_rules zone ts rs m p st now f) as R.
  destruct (fuseReliefPartsFromSnapshot _ _ _ _ _ _ _ _) as [[a b] st1]. exact R.
Qed.
Lemma force_snapshot_rules ts rs m p st now caps f :
  sameRules st (snd (forceFuseDischargeWithSnapshot zone ts rs m p st now caps f)).
Proof.
  unfold forceFuseDischargeWithSnapshot. cbv zeta. pose proof (parts_rules zone ts rs m p st now f) as R.
  repeat case_match; try exact R; try apply sameRules_refl; cbn [snd] in *;
    match goal with E : fuseReliefPartsFromSnapshot _ _ _ _ _ _ _ _ = _ |- _ => rewrite E in R end; exact R.
Qed.
Lemma saver_rules store st now caps f : sameRules st (snd (fuseSaverAtLivePower zone store st now caps f)).
Proof.
  unfold fuseSaverAtLivePower. destruct (_ || _); [apply sameRules_refl|].
  destruct (Get _ DerMeter store) as [m|]; [|apply sameRules_refl]. cbv zeta.
  set (fl := fleetAtLivePower _ _ _). destruct (length (fRaw fl) =? 0)%nat; [apply sameRules_refl|].
  match goal with |- context [fuseReliefFromSnapshot _ ?t ?r ?mm ?p ?s ?n ?w] =>
    pose proof (relief_rules t r mm p s n w) as R; destruct (fuseReliefFromSnapshot zone t r mm p s n w) as [req st1] end.
  cbn [snd] in R. destruct (fle req _); [exact R|]. set (safe := fuseSafeBaselineForRelief _ _ _ _ _ _ _). clearbody safe.
  destruct (length safe =? 0)%nat; [exact R|].
  match goal with |- context [forceFuseDischargeWithSnapshot _ ?t ?r ?mm ?p ?s ?n ?c ?w] =>
    pose proof (force_snapshot_rules t r mm p s n c w) as R2; destruct (forceFuseDischargeWithSnapshot zone t r mm p s n c w) as [o st2] end.
  cbn [snd] in R2. pose proof (sameRules_trans _ _ _ R R2) as R3. destruct (_ && _); exact R3.
Qed.

(** The full batteries appended are online and told to stop. *)
Definition stopped (store : Store) (caps : gmap string f64) (t : DispatchTarget) : Prop :=
  commandable store caps (tDriver t) /\ TargetW t = of_Z 0.

Lemma stop_adds store st seen caps ns : (forall n, n ∈ ns -> is_Some (caps !! n)) -> forall acc,
  exists extra, fst (fold_left (stopFullStep store st seen) ns acc) = fst acc ++ extra /\ Forall (stopped store caps) extra.
Proof.
  induction ns as [|n ns IH]; intros Hn [ts prev]; [exists []; now rewrite app_nil_r|]. cbn [fold_left].
  assert (Hs : exists extra, fst (stopFullStep store st seen (ts, prev) n) = ts ++ extra /\ Forall (stopped store caps) extra).
  { unfold stopFullStep. destruct (_ || _); [exists []; now rewrite app_nil_r|].
    destruct (Get n DerBattery store) as [r|]; [|exists []; now rewrite app_nil_r].
    destruct (GetHealth n store) as [h|] eqn:Eh; [|exists []; now rewrite app_nil_r].
    destruct (IsOnline h) eqn:Eo; cbn [negb orb]; [|exists []; now rewrite app_nil_r].
    destruct (_ && _); [exists []; now rewrite app_nil_r|]. eexists; split; [reflexivity|].
    apply Forall_singleton. split; [split|]; cbn [tDriver TargetW]; [apply Hn; now left|unfold usable; now rewrite Eh|reflexivity]. }
  destruct Hs as (e1 & E1 & F1). destruct (IH ltac:(intros k K; apply Hn; now right) (stopFullStep store st seen (ts, prev) n)) as (e2 & E2 & F2).
  exists (e1 ++ e2). rewrite E2, E1, app_assoc. split; [reflexivity|]. apply Forall_app. now split.
Qed.

Lemma stopFull_facts ts store caps st :
  let r := stopFullBatteries ts store caps st in
  sameRules st (snd r) /\ exists extra, fst r = floorFullBatteryCharge st (ts ++ extra) /\ Forall (stopped store caps) extra.
Proof.
  unfold stopFullBatteries. cbv zeta.
  destruct (stop_adds store st (list_to_set (tDriver <$> ts)) caps (keys caps) (keys_of caps) (ts, PrevTargets (sentTo st)))
    as (extra & E & F).
  destruct (fold_left _ (keys caps) _) as [all prev]. cbn [fst snd] in *. rewrite E. split; [repeat split|]. now exists extra.
Qed.

(** *** A checked command is safe *)
Definition command_ready (store : Store) (caps : gmap string f64) (st : State) (t : DispatchTarget) : Prop :=
  commandable store caps (tDriver t) /\ unknownEnergySafe store t /\ inLimits st t.

Lemma checked_ready store caps st t : saver_checked store caps (site st) t -> command_ready store caps st t.
Proof.
  intros (r & h & Er & Eh & Ho & Hc & Bl & Bu). unfold command_ready. split; [split; [exact Hc|unfold usable; now rewrite Eh]|].
  set (lim := limitsOf (DriverLimits (site st)) (tDriver t)) in *. split.
  - unfold unknownEnergySafe, hasSoC. rewrite Er. destruct (SoC r) eqn:S; [discriminate|]. intros _.
    now rewrite (bounds_no_soc _ _ S) in Bl.
  - unfold inLimits. fold lim. cbv zeta. unfold fuseTargetBounds in *. destruct (batteryDirectionBlocks (Data r)) as [dis cha].
    cbn [fst snd] in *. split.
    + destruct (flt (chargeCap lim) (TargetW t)) eqn:F; [|reflexivity]. exfalso. clear Bl.
      pose proof (le_flt_trans _ _ _ (chargeCap_nn lim) F) as G. destruct (cha || _); congruence.
    + destruct (flt (TargetW t) (fneg (dischargeCap lim))) eqn:F; [|reflexivity]. exfalso.
      pose proof (flt_le_trans _ _ _ F (neg_cap_nonpos _ (dischargeCap_nn lim))) as G.
      clear Bu. destruct (SoC r) as [soc|]; [destruct (fle soc _ || _)|]; congruence.
Qed.
Lemma stopped_ready store caps st t : stopped store caps t -> command_ready store caps st t.
Proof.
  destruct t as [d w c]. intros [C E]. cbn [TargetW] in E. subst w. split; [exact C|]. split; [intros _; exact notNeg_0|apply inLimits_zero].
Qed.
Lemma floor_safe store caps st t : command_ready store caps st t ->
  commandable store caps (tDriver (floorFull st t)) /\ command_safe store st (floorFull st t).
Proof.
  intros (C & U & L). unfold floorFull. destruct (flt (of_Z 0) (TargetW t)) eqn:P; cbn [andb].
  - destruct (BatteryChargePaused st (tDriver t)) eqn:B; cbn [setW tDriver].
    + split; [exact C|]. constructor; [intros _; exact notNeg_0|intros _; vm_compute; reflexivity|intros _ _; apply inLimits_zero].
    + split; [exact C|]. constructor; [exact U|congruence|intros _ _; exact L].
  - split; [exact C|]. constructor; [exact U|intros _; exact P|intros _ _; exact L].
Qed.

Lemma early_exit_facts store st now caps f :
  let r := fuseSaverEarlyExit zone store st now caps f in
  sameRules st (snd r) /\ Forall (fun t => commandable store caps (tDriver t) /\ command_safe store (snd r) t) (fst r).
Proof.
  cbv zeta. unfold fuseSaverEarlyExit. pose proof (saver_rules store st now caps f) as R.
  pose proof (saver_sends zone store st now caps f) as S. destruct (fuseSaverAtLivePower _ _ _ _ _ _) as [o st1]. cbn [fst snd] in *.
  set (sent := match o with Some x => x | None => ([], []) end).
  assert (F : Forall (command_ready store caps st1) (fst sent)).
  { destruct o as [[out raw]|]; [|constructor]. destruct (S out raw eq_refl) as [F _]. apply (Forall_impl _ _ _ F).
    intros t C. apply checked_ready. destruct R as (-> & _). exact C. }
  destruct sent as [out raw]. cbn [fst] in F. destruct (stopFull_facts out store caps st1) as (R2 & extra & E & Fe).
  destruct (stopFullBatteries out store caps st1) as [out' st2]. cbn [fst snd] in *.
  pose proof (sameRules_trans _ _ _ R R2) as R3. destruct (length out' =? 0)%nat; [split; [exact R3|constructor]|].
  set (st4 := withSent _ _). assert (R4 : sameRules st1 st4) by (destruct R2 as (A & B & C); now split_and!).
  cbn [fst snd]. split; [exact (sameRules_trans _ _ _ R R4)|]. rewrite E. apply Forall_fmap.
  assert (G : Forall (command_ready store caps st1) (out ++ extra)).
  { apply Forall_app. split; [exact F|]. apply (Forall_impl _ _ _ Fe). intros t. apply stopped_ready. }
  apply (Forall_impl _ _ _ G). intros t C. destruct (floor_safe store caps st1 t C) as [A B]. split; [exact A|].
  exact (command_safe_rules _ _ _ _ R4 B).
Qed.
End Keep.

(** ** Lemmas: what a tick never changes *)

(** The configured limits, the waiting cars and the car's own limits. *)
Definition keepsRules (l l' : Loop) : Prop :=
  DriverLimits (lSite l') = DriverLimits (lSite l) /\ evFuseDemands (lSite l') = evFuseDemands (lSite l) /\
  evLimit (ctl l') = evLimit (ctl l).
#[export] Instance keepsRules_preorder : PreOrder keepsRules.
Proof. split; [now intros l|]. intros a b c (A1 & A2 & A3) (B1 & B2 & B3). unfold keepsRules. split_and!; congruence. Qed.
Lemma keepsRules_ctl l st : sameRules (ctl l) st -> keepsRules l (withCtl st l).
Proof. intros (Es & Ef & El). unfold keepsRules, lSite. cbn [ctl withCtl]. now rewrite Es, El. Qed.

Section Tick.
Context `{MapIter}.
Variable zone : Time -> Duration.

Lemma start_keeps store caps now l : keepsRules l (tickStart store caps now l).
Proof. unfold tickStart. cbv zeta. destruct (updateSlotDeliveryMetrics _ _ _ _) as [x snap]. now split_and!. Qed.
Lemma hold_keeps cfg now l : keepsRules l (snd (takeHold cfg now l)).
Proof.
  unfold takeHold. destruct (GetBatteryManualHold now (ManualHold l)) as [[h|] kept]; [|now split_and!].
  cbv zeta. destruct (holdIsValid cfg h); now split_and!.
Qed.
Lemma plan_keeps cfg now held l : keepsRules l (snd (choosePlan cfg now held l)).
Proof.
  assert (T : forall l, keepsRules l (snd (targetPlan now l))).
  { intros k. unfold targetPlan. set (q := match PlanTargetFn _ with Some _ => _ | None => _ end). clearbody q.
    destruct q as [[[[m w] id] ok] snap]. destruct ok; now split_and!. }
  unfold choosePlan. cbv zeta. destruct held; [reflexivity|]. destruct (isMode _ ModePlannerSelf).
  - unfold preparePlannerSelf. cbv zeta. destruct (plannerSelfDirectiveAt _ _) as [[dir ok] snap].
    destruct (negb _); now split_and!.
  - destruct (IsPlannerMode _); [|reflexivity].
    assert (K : keepsRules l (snd (slotPlan cfg now l))).
    { unfold slotPlan. destruct (SlotDirectiveFn _); [|reflexivity]. destruct (negb (UseEnergyDispatch cfg)); [reflexivity|].
      destruct (plannerSelfDirectiveAt _ _) as [[dir ok] snap]. destruct (negb _); [now split_and!|]. cbv zeta.
      cbn [snd]. destruct (_ || _); now split_and!. }
    destruct (slotPlan cfg now l) as [[p|] l1]; [exact K|]. cbn [snd] in K. now rewrite K.
Qed.
Lemma read_keeps order cfg store held now caps l : keepsRules l (snd (readSite order cfg store held now caps l)).
Proof.
  unfold readSite. cbv zeta. assert (K : keepsRules l (snd (siteMeterHeld (Get (SiteMeterDriver (lSite l)) DerMeter store) l))).
  { unfold siteMeterHeld. destruct (Get _ _ _) as [m|]; [destruct (negb _)|]; now split_and!. }
  destruct (siteMeterHeld _ l) as [r l1]. cbn [snd] in *. rewrite K. now split_and!.
Qed.
Lemma energy_keeps g a dir bats now l : keepsRules l (snd (energyCorrection g a dir bats now l)).
Proof. now split_and!. Qed.
Lemma reactive_keeps cfg g a plan bats nd nc cap now l : keepsRules l (snd (reactiveCorrection cfg g a plan bats nd nc cap now l)).
Proof.
  unfold reactiveCorrection. cbv zeta. destruct (meterHeld g); [reflexivity|].
  destruct (_ && negb (batteryBreaksLimit _ _ _ _)); [reflexivity|]. destruct (stepPI _ _ _ _ _ _) as [p out].
  destruct (meterClamp _ _ _) as [allowed decays]. now split_and!.
Qed.
Lemma share_rules st now f meter g corr : sameRules st (snd (shareCeiling zone st now f meter g corr)).
Proof. unfold shareCeiling. cbv zeta. repeat case_match; repeat split. Qed.
Lemma distribute_keeps order cfg store h plan bats total corr now l :
  keepsRules l (snd (distributeTotal order cfg store h plan bats total corr now l)).
Proof.
  unfold distributeTotal. destruct h as [hd|].
  - destruct (negb _); [reflexivity|]. destruct (distributePlannedStorages _ _ _ _ _ _ _) as [[o d] snap]. now split_and!.
  - destruct (distributePlannedStorages _ _ _ _ _ _ _) as [[o d] snap]. cbv zeta. destruct o; [now split_and!|].
    destruct (_ || _); now split_and!.
Qed.

(** *** What every way out of the tick promises *)
Definition tick_safe (store : Store) (caps : gmap string f64) (l : Loop) (r : list DispatchTarget * Loop) : Prop :=
  keepsRules l (snd r) /\
  Forall (fun t => commandable store caps (tDriver t) /\ command_safe store (ctl (snd r)) t) (fst r).
Definition calm (l : Loop) : Prop := notNeg (yMaxChargeW (batteryYield (evLimit (ctl l)))).
Lemma calm_keeps l l' : keepsRules l l' -> calm l -> calm l'.
Proof. unfold calm. now intros (_ & _ & ->). Qed.
Lemma tick_safe_after store caps l l' r : keepsRules l l' -> tick_safe store caps l' r -> tick_safe store caps l r.
Proof. intros K [K' F]. split; [now rewrite K|exact F]. Qed.

Lemma pipeline_tick order targets store l now caps f opts : calm l ->
  Forall (commandable store caps) (drivers targets) ->
  tick_safe store caps l
    (let '(out, st) := applyDispatchSafetyPipeline zone order targets store (ctl l) now caps f opts in (out, withCtl st l)).
Proof.
  intros Y C. destruct (pipeline_facts zone order targets store (ctl l) now caps f opts) as (D & R & S). specialize (S Y).
  destruct (applyDispatchSafetyPipeline _ _ _ _ _ _ _ _ _) as [out st]. cbn [fst snd] in *. split.
  - destruct R as (Es & _ & El). unfold keepsRules, lSite. cbn [snd ctl withCtl]. rewrite Es, El. now split_and!.
  - cbn [fst snd]. rewrite <- D in C. unfold drivers in C. rewrite Forall_fmap in C. apply Forall_and. now split.
Qed.
Lemma keepLast_safe store now caps f l : tick_safe store caps l (keepLast zone store now caps f l).
Proof.
  unfold keepLast. destruct (early_exit_facts zone store (ctl l) now caps f) as [R F].
  destruct (fuseSaverEarlyExit _ _ _ _ _ _) as [out st]. split; [now apply keepsRules_ctl|exact F].
Qed.

Lemma held_commandable store caps : Forall (commandable store caps) (drivers (holdFleetAtZero store caps)).
Proof.
  apply Forall_fmap, Forall_forall. intros t I. apply list_elem_of_omap in I as (n & I & E).
  destruct (usable store n) eqn:U; [|discriminate]. destruct (Get n DerBattery store); [|discriminate]. injection E as <-.
  split; [now apply keys_of|exact U].
Qed.
Lemma charged_commandable store caps lim : Forall (commandable store caps) (drivers (chargeAll store caps lim)).
Proof.
  apply Forall_fmap, Forall_forall. intros t I. apply list_elem_of_omap in I as (n & I & E).
  destruct (usable store n) eqn:U; [|discriminate]. injection E as <-. split; [now apply keys_of|exact U].
Qed.

(** Charge mode also commands a battery that has shown no reading, which idle
    mode and every other path leave out. *)
Lemma charge_reaches_silent_battery store caps lim d :
  usable store d = true -> is_Some (caps !! d) -> Get d DerBattery store = None ->
  d ∈ drivers (chargeAll store caps lim) /\ d ∉ drivers (holdFleetAtZero store caps).
Proof.
  intros U [w C] G. split.
  - unfold drivers. apply list_elem_of_fmap. exists (mkTarget d (chargeCap (limitsOf lim d)) false). split; [reflexivity|].
    unfold chargeAll. apply list_elem_of_omap. exists d. rewrite U. split; [|reflexivity].
    unfold keys. apply list_elem_of_fmap. exists (d, w). split; [reflexivity|]. rewrite (map_iter_perm _ caps).
    now apply elem_of_map_to_list.
  - unfold drivers. rewrite list_elem_of_fmap. intros (t & -> & I). unfold holdFleetAtZero in I.
    apply list_elem_of_omap in I as (n & _ & E). destruct (usable store n); [|discriminate].
    destruct (Get n DerBattery store) eqn:Gn; [|discriminate]. injection E as <-. cbn [tDriver] in G. congruence.
Qed.

Lemma issue_safe order cfg store h plan g bats nd nc c now caps f l : calm l ->
  Forall (commandable store caps) (names bats) ->
  tick_safe store caps l (issue zone order cfg store h plan g bats nd nc c now caps f l).
Proof.
  intros Y C. unfold issue. cbv zeta.
  pose proof (share_rules (ctl l) now f (Get (SiteMeterDriver (lSite l)) DerMeter store) g (corrW c)) as R.
  destruct (shareCeiling _ _ _ _ _ _ _) as [corr st]. cbn [snd] in R. apply keepsRules_ctl in R.
  apply (tick_safe_after _ _ _ _ _ R). apply (calm_keeps _ _ R) in Y. clear R. set (l1 := withCtl st l) in *. clearbody l1.
  pose proof (distribute_keeps order cfg store h plan bats (currentTotal g) corr now l1) as K.
  pose proof (distribute_subset order cfg store h plan bats (currentTotal g) corr now l1) as S.
  destruct (distributeTotal _ _ _ _ _ _ _ _ _ _) as [raw l2]. cbn [fst snd] in *.
  apply (tick_safe_after _ _ _ _ _ K). apply (calm_keeps _ _ K) in Y. apply pipeline_tick; [exact Y|].
  set (held := meterHeld g). clearbody held.
  match goal with |- Forall _ (drivers (if held then holdTowardZero ?ts _ else _)) => set (x := ts) end.
  assert (E : drivers x = drivers raw).
  { unfold x, clampTargetsToPowerLimits. rewrite (drivers_map _ _ (clampTarget_driver _)). apply slew_drivers. }
  clearbody x. assert (F : Forall (commandable store caps) (drivers x)).
  { rewrite E. apply Forall_forall. intros d I. rewrite Forall_forall in C. apply C, S, I. }
  destruct held; [|exact F]. unfold holdTowardZero. rewrite drivers_map; [exact F|]. intros t. unfold holdTarget.
  cbv zeta. now repeat case_match.
Qed.

Lemma decide_safe order cfg store h plan g bats now caps f l : calm l ->
  Forall (commandable store caps) (names bats) ->
  tick_safe store caps l (decideCommands zone order cfg store h plan g bats now caps f l).
Proof.
  intros Y C. unfold decideCommands. cbv zeta.
  match goal with |- context [energyCorrection g ?a ?d ?b ?n ?k] => pose proof (energy_keeps g a d b n k) as K1 end.
  match goal with |- context [reactiveCorrection cfg g ?a plan bats ?nd ?nc ?cap now l] =>
    pose proof (reactive_keeps cfg g a plan bats nd nc cap now l) as K2; set (nD := nd) in *; set (nC := nc) in * end.
  match goal with |- tick_safe _ _ _ (let '(c, l0) := ?q in _) => set (p := q) end.
  assert (K : keepsRules l (snd p)).
  { unfold p. destruct h; [reflexivity|]. destruct (useEnergyPath plan); [destruct (energyCorrection _ _ _ _ _ _); exact K1|exact K2]. }
  destruct p as [[c|] l1]; cbn [snd] in K; apply (tick_safe_after _ _ _ _ _ K); apply (calm_keeps _ _ K) in Y;
    [now apply issue_safe|apply keepLast_safe].
Qed.

Lemma body_safe order cfg store h plan now caps f l : calm l ->
  tick_safe store caps l (tickBody zone order cfg store h plan now caps f l).
Proof.
  intros Y. unfold tickBody. cbv zeta. destruct (isMode _ ModeIdle); [apply pipeline_tick, held_commandable; exact Y|].
  destruct (isMode _ ModeCharge); [apply pipeline_tick, charged_commandable; exact Y|].
  destruct (holdsOff _ _ _); [apply keepLast_safe|].
  set (hb := match h with Some _ => true | None => false end). clearbody hb.
  pose proof (read_keeps order cfg store hb now caps l) as K.
  assert (N : Forall (commandable store caps) (names (snd (fst (readSite order cfg store hb now caps l))))).
  { unfold readSite. cbv zeta. destruct (siteMeterHeld _ l) as [r l1]. apply names_commandable. }
  destruct (readSite _ _ _ _ _ _ _) as [[g bats] l1]. cbn [fst snd] in *.
  apply (tick_safe_after _ _ _ _ _ K). apply (calm_keeps _ _ K) in Y.
  destruct (length bats =? 0)%nat; [|now apply decide_safe]. split; [|constructor]. apply keepsRules_ctl.
  unfold publishBatterylessEVFuseBudget. cbv zeta. repeat case_match; repeat split.
Qed.
End Tick.

(** ** Properties *)


(** ** Witness *)
Definition demoConfig : loopConfig := mkConfig (of_Z 42) (of_Z 5000) (of_Z 500) true true ∅ None.
Definition demoLoop : Loop :=
  mkLoop demoState (of_Z 0) (mkPI (of_Z 0) (lit 5 10) (lit 1 10) (of_Z 3000) (of_Z 10000) (of_Z 0)) noHold false "" (of_Z 0)
    noEnergyPath noActual noDelivery zeroTime (newFreeze "meter").
Definition demoTick : list DispatchTarget * Loop :=
  @ComputeDispatch canonical_iter (fun _ => 0) ["meter:meter"; "battery:b1"; "battery:b2"]%string demoConfig
    (fleetStore 25000 1921 392) (10 * Second) fleetCapacities (of_Z 11040) demoLoop.

