(* ===== verification/PVCurtail.v ===== *)
(** * Curtailing the solar inverters (go/internal/control/dispatch.go,
    pv_export_guard.go, pv_plan.go, solar_feed.go; mpc/pv_curtailment.go)

    Each tick the planner, an operator's hold, the DC-link protection and the
    live export guard may cap inverters; a driver that was capped and no longer
    is must be released once. *)
From Stdlib Require Import ZArith Lia.
From S2P Require Import Prelude Float64 GoTime Json Kalman Health Telemetry Limits.
From S2P Require Import CommandLog Site PlanIntent.
From stdpp Require Import base gmap strings list sorting.
#[local] Open Scope Z_scope.

Record CurtailTarget : Type := mkCurtail { cDriver : string; LimitW : f64 }.

(** The settings of [State] the curtailment reads. *)
Record curtailConfig : Type := mkCurtailConfig {
  SupportsPVCurtail : gmap string bool;
  PVGenerationLimit : option (string -> PVCurtailment);
  DCLinkProtectionEnabled : bool;
  DCLinkProtectionSoCThreshold : f64;
  DCLinkProtectionMarginW : f64;
  EVCurtailHeadroomW : f64;
  SolarFeedDrivers : gmap string bool
}.
(** What a tick changes of [State]. *)
Record curtailState : Type := mkCurtailState {
  ManualPVHold : PVManualHold;
  LastCurtailedDrivers : gset string;
  PVExportGuardActive : bool;
  PVExportResidualW : f64
}.
Definition supports (cfg : curtailConfig) (driver : string) : bool := default false (SupportsPVCurtail cfg !! driver).

Definition curtailMinPerDriverW : f64 := of_Z 1.
Definition reactivePVCurtailFloorW : f64 := of_Z 2.
Definition pvCurtailBatterySoCMax : f64 := lit 99 100.
Definition liveMeterMaxAge : Duration := 90 * Second.

(** ** The planner's licence *)
Definition curtailmentValid (p : PVCurtailment) : bool :=
  negb (bool_decide (proofDriver p = ""%string)) && negb (bool_decide (Proof p = ""%string)) &&
  finite (proofMinW p) && finite (proofMaxW p) && fle (of_Z 2) (proofMinW p) &&
  feq (proofMinW p) (fneg (ffloor (fneg (proofMinW p)))) && fle (proofMinW p) (proofMaxW p).
Definition sameCurtailment (p q : PVCurtailment) : bool :=
  bool_decide (proofDriver p = proofDriver q) && bool_decide (Proof p = Proof q) &&
  feq (proofMinW p) (proofMinW q) && feq (proofMaxW p) (proofMaxW q).

Section Curtail.
Context `{MapIter}.

(** The readings of a kind, in the order the code visits the map. *)
Definition readingsOf (t : DerType) (store : Store) : list DerReading :=
  List.filter (fun r => bool_decide (RType r = t)) (snd <$> map_iter (readings store)).

Definition PVGenerationProofValid (store : Store) (now : Time) (proof : PVCurtailment)
    (lookup : option (string -> PVCurtailment)) : bool :=
  match lookup, readingsOf DerPV store with
  | Some f, [r] =>
      curtailmentValid proof && sameCurtailment (f (proofDriver proof)) proof &&
      bool_decide (Driver r = proofDriver proof) && usable store (proofDriver proof) &&
      negb (After (UpdatedAt r) now) && (Sub now (UpdatedAt r) <=? 90 * Second) &&
      negb (isNaN (RawW r)) && negb (isInf (RawW r))
  | _, _ => false
  end.
Definition planningPVProofValid (cfg : curtailConfig) (store : Store) (now : Time) (proof : PVCurtailment) : bool :=
  match PVGenerationLimit cfg with
  | None => false
  | Some _ => curtailmentValid proof && supports cfg (proofDriver proof) &&
              PVGenerationProofValid store now proof (PVGenerationLimit cfg)
  end.
Definition PlanningPVDirectiveValid (cfg : curtailConfig) (store : Store) (now : Time) (dir : SlotDirective) : bool :=
  if bool_decide (Proof (PlanCurtailment dir) = ""%string) then negb (PVCurtailActive dir)
  else planningPVProofValid cfg store now (PlanCurtailment dir).
Definition plannedPVCaps (cfg : curtailConfig) (store : Store) (now : Time) (dir : SlotDirective) (limit : f64)
  : option (gmap string f64) :=
  let p := PlanCurtailment dir in
  if negb (PVCurtailActive dir) || negb (planningPVProofValid cfg store now p) || isNaN limit || isInf limit ||
     flt limit (proofMinW p) || flt (proofMaxW p) limit
  then None
  else
    let limit := ffloor (fadd limit (lit 1 10000000)) in
    if flt limit (proofMinW p) then None else Some {[proofDriver p := limit]}.

(** ** Power at the site's edge *)
Definition sourcedW (pick : DerReading -> f64) (store : Store) (sum : f64) (r : DerReading) : f64 :=
  if usable store (Driver r) && flt (pick r) (of_Z 0) then fadd sum (fneg (pick r)) else sum.
Definition sumOnlineSourcedW (store : Store) (t : DerType) : f64 :=
  fold_left (sourcedW SmoothedW store) (readingsOf t store) (of_Z 0).
Definition sumOnlineSignedW (store : Store) (t : DerType) : f64 :=
  fold_left (fun sum r => if live (Driver r) store then fadd sum (SmoothedW r) else sum) (readingsOf t store) (of_Z 0).

Definition solarSurplusW (s : Site) (store : Store) : f64 :=
  if bool_decide (SiteMeterDriver s = ""%string) then of_Z 0
  else
    match Get (SiteMeterDriver s) DerMeter store with
    | None => of_Z 0
    | Some meter =>
        let exportW := fneg (SmoothedW meter) in
        let pvGenW := sumOnlineSourcedW store DerPV in
        if fle exportW (of_Z 0) || fle pvGenW (of_Z 0) then of_Z 0
        else
          let exportW := fsub (fsub exportW (sumOnlineSourcedW store DerBattery)) (sumOnlineSourcedW store DerV2X) in
          if fle exportW (of_Z 0) then of_Z 0 else if flt pvGenW exportW then pvGenW else exportW
    end.

(** The hint for heat pumps that take solar power, in name order. *)
Definition ComputeSolarFeed (s : Site) (cfg : curtailConfig) (store : Store) : list (string * f64) :=
  let names := merge_sort String.le
                 (omap (fun '(name, on) => if (on : bool) then Some name else None) (map_iter (SolarFeedDrivers cfg))) in
  (fun name => (name, fneg (solarSurplusW s store))) <$> names.

Definition siteLoadW (s : Site) (store : Store) : f64 :=
  if bool_decide (SiteMeterDriver s = ""%string) then of_Z 0
  else
    match Get (SiteMeterDriver s) DerMeter store with
    | None => of_Z 0
    | Some mtr =>
        let order := keys (readings store) in
        let load := fsub (fsub (fsub (fsub (SmoothedW mtr) (sumOnlineSignedW store DerBattery)) (sumOnlineSignedW store DerPV))
                       (SumOnlineEVW order store)) (SumOnlineV2XW order store) in
        if flt load (of_Z 0) then of_Z 0 else load
    end.

(** ** Protecting the DC link *)
Definition protectiveCurtailLimitW (s : Site) (cfg : curtailConfig) (store : Store) : option f64 :=
  if negb (DCLinkProtectionEnabled cfg) then None
  else
    let socThresh := if fle (DCLinkProtectionSoCThreshold cfg) (of_Z 0) then lit 80 100 else DCLinkProtectionSoCThreshold cfg in
    let margin := if fle (DCLinkProtectionMarginW cfg) (of_Z 0) then of_Z 1000 else DCLinkProtectionMarginW cfg in
    let '(sumSoC, total) :=
      fold_left (fun acc r =>
          match SoC r with
          | Some soc => if usable store (Driver r) then (fadd (fst acc) soc, fadd (snd acc) (of_Z 1)) else acc
          | None => acc
          end) (readingsOf DerBattery store) (of_Z 0, of_Z 0) in
    if feq total (of_Z 0) then None
    else if flt (fdiv sumSoC total) socThresh then None
    else
      let pvAbs := sumOnlineSourcedW store DerPV in
      let loadW := siteLoadW s store in
      if flt pvAbs (fadd loadW (fmul (of_Z 2) margin)) then None else Some (fadd loadW margin).

(** ** The live limit of a slot that caps solar *)
Definition liveSiteMeter (s : Site) (store : Store) (now : Time) : option DerReading :=
  if bool_decide (SiteMeterDriver s = ""%string) then None
  else
    let m := match Get (SiteMeterDriver s) DerMeter store with
             | Some m => Some m
             | None => Get (SiteMeterDriver s) DerBattery store
             end in
    match m with
    | None => None
    | Some r =>
        if negb (live (SiteMeterDriver s) store) then None
        else
          let age := Sub now (UpdatedAt r) in
          if IsZero (UpdatedAt r) || (age <? 0) || (liveMeterMaxAge <? age) then None else Some r
    end.

Definition batteryHeadroomW (s : Site) (store : Store) (sum : f64) (r : DerReading) : f64 :=
  match SoC r with
  | Some soc =>
      if usable store (Driver r) && negb (fle pvCurtailBatterySoCMax soc)
      then fadd sum (chargeCap (limitsOf (DriverLimits s) (Driver r))) else sum
  | None => sum
  end.

Definition liveCurtailLimitW (s : Site) (cfg : curtailConfig) (store : Store) (now : Time) : option f64 :=
  match liveSiteMeter s store now with
  | None => None
  | Some m =>
      let pvW := fold_left (sourcedW RawW store) (readingsOf DerPV store) (of_Z 0) in
      let batW := fold_left (fun sum r => if usable store (Driver r) then fadd sum (RawW r) else sum)
                    (readingsOf DerBattery store) (of_Z 0) in
      let liveLoadW := fsub (fsub (RawW m) (fneg pvW)) batW in
      let liveLoadW := if flt liveLoadW (of_Z 0) then of_Z 0 else liveLoadW in
      let batHeadroomW := fold_left (batteryHeadroomW s store) (readingsOf DerBattery store) (of_Z 0) in
      let evReserveW := if fle (EVCurtailHeadroomW cfg) (of_Z 0) then EVSurplusOnlyReserveW s else EVCurtailHeadroomW cfg in
      let evReserveW := if flt evReserveW (of_Z 0) then of_Z 0 else evReserveW in
      Some (fadd (fadd liveLoadW batHeadroomW) evReserveW)
  end.

(** ** The export guard *)
Record pvExportGuardDecision : Type := mkGuard {
  gActive : bool; gCaps : gmap string f64; exportW : f64; gCeilingW : f64; overageW : f64
}.
Definition curtailable (cfg : curtailConfig) (store : Store) (r : DerReading) : bool :=
  usable store (Driver r) && supports cfg (Driver r).
Definition generationW (r : DerReading) : f64 := fneg (SmoothedW r).
Definition reducibleW (r : DerReading) : f64 := fsub (generationW r) reactivePVCurtailFloorW.
Definition guardCandidates (cfg : curtailConfig) (store : Store) : list DerReading :=
  List.filter (fun r => curtailable cfg store r && negb (fle (reducibleW r) (of_Z 0))) (readingsOf DerPV store).

Definition guardLimitW (reductionW total : f64) (r : DerReading) : f64 :=
  let limitW := fsub (generationW r) (fmul reductionW (fdiv (reducibleW r) total)) in
  if flt limitW reactivePVCurtailFloorW then reactivePVCurtailFloorW else limitW.

Definition computePVExportGuard (s : Site) (cfg : curtailConfig) (store : Store) : pvExportGuardDecision :=
  let fuseMaxW := siteFuseMaxW s in
  if fle fuseMaxW (of_Z 0) then mkGuard false ∅ (of_Z 0) (of_Z 0) (of_Z 0)
  else
    let ceilingW := effectiveExportCeilingW s fuseMaxW in
    let exportW := solarSurplusW s store in
    if fle exportW ceilingW then mkGuard false ∅ exportW ceilingW (of_Z 0)
    else
      let overageW := fsub exportW ceilingW in
      let candidates := guardCandidates cfg store in
      let total := fold_left (fun sum r => fadd sum (reducibleW r)) candidates (of_Z 0) in
      let reductionW := fmin overageW total in
      if fle reductionW (of_Z 0) || fle total (of_Z 0) then mkGuard true ∅ exportW ceilingW overageW
      else
        mkGuard true (fold_left (fun m r => <[Driver r := guardLimitW reductionW total r]> m) candidates ∅)
          exportW ceilingW overageW.

Definition pvExportResidualAfterCaps (overageW : f64) (cfg : curtailConfig) (store : Store) (caps : gmap string f64) : f64 :=
  if fle overageW (of_Z 0) then of_Z 0
  else
    let reductionW :=
      fold_left (fun sum r =>
          match caps !! Driver r with
          | Some limitW =>
              if curtailable cfg store r && negb (fle limitW curtailMinPerDriverW) && flt limitW (generationW r)
              then fadd sum (fsub (generationW r) limitW) else sum
          | None => sum
          end) (readingsOf DerPV store) (of_Z 0) in
    let residualW := fsub overageW reductionW in
    if flt residualW (of_Z 0) then of_Z 0 else residualW.

(** ** The tick *)

(** The site-wide limit before protection, and a plan that caps one inverter. *)
Definition wantedLimit (s : Site) (cfg : curtailConfig) (store : Store) (now : Time) (hold : option PVManualHold)
  : f64 * option SlotDirective :=
  match hold with
  | Some h => (pvLimitW h, None)
  | None =>
      match SlotDirectiveFn s with
      | None => (of_Z 0, None)
      | Some f =>
          let '(dir, ok) := f now in
          if ok && PlanningPVDirectiveValid cfg store now dir && flt (of_Z 0) (PVLimitW dir)
          then
            if PVCurtailActive dir then (PVLimitW dir, Some dir)
            else (default (PVLimitW dir) (liveCurtailLimitW s cfg store now), None)
          else (of_Z 0, None)
      end
  end.

Definition holdDriver (hold : option PVManualHold) : string := match hold with Some h => pvDriver h | None => ""%string end.
Definition heldBy (hold : option PVManualHold) : bool := match hold with Some _ => true | None => false end.

Definition protectLimit (s : Site) (cfg : curtailConfig) (store : Store) (hold : option PVManualHold) (limit : f64) : f64 :=
  if bool_decide (holdDriver hold = ""%string) then
    match protectiveCurtailLimitW s cfg store with
    | None => limit
    | Some prot => if negb (heldBy hold) && feq limit (of_Z 0) then prot else if flt prot limit then prot else limit
    end
  else limit.

(** The limit over the inverters by their live output. *)
Definition generating (cfg : curtailConfig) (store : Store) : list DerReading :=
  List.filter (fun r => curtailable cfg store r && negb (fle (of_Z 0) (RawW r))) (readingsOf DerPV store).
Definition allocateLimit (cfg : curtailConfig) (store : Store) (hold : option PVManualHold) (limit : f64) : gmap string f64 :=
  if negb (heldBy hold || flt (of_Z 0) limit) || (size (SupportsPVCurtail cfg) =? 0)%nat then ∅
  else if negb (bool_decide (holdDriver hold = ""%string)) then
    if supports cfg (holdDriver hold) then {[holdDriver hold := limit]} else ∅
  else
    let ds := generating cfg store in
    let total := fold_left (fun sum r => fadd sum (fneg (RawW r))) ds (of_Z 0) in
    if negb (heldBy hold) && flt (of_Z 0) total && fle total limit then ∅
    else if flt (of_Z 0) total
    then fold_left (fun m r => <[Driver r := fmul limit (fdiv (fneg (RawW r)) total)]> m) ds ∅
    else ∅.

(** The guard's caps over it: the tighter positive cap wins. *)
Definition mergeCap (m : gmap string f64) (x : string * f64) : gmap string f64 :=
  let '(driver, limitW) := x in
  match m !! driver with
  | Some current => if fle current (of_Z 0) || flt limitW current then <[driver := limitW]> m else m
  | None => <[driver := limitW]> m
  end.

(** Caps chosen this tick; a cap of a watt or less is not sent. *)
Definition chosenCaps (s : Site) (cfg : curtailConfig) (store : Store) (now : Time) (hold : option PVManualHold)
    (guard : pvExportGuardDecision) : gmap string f64 * bool :=
  let '(limit, plannedCap) := wantedLimit s cfg store now hold in
  let limit := protectLimit s cfg store hold limit in
  let next := allocateLimit cfg store hold limit in
  let next :=
    match plannedCap with
    | Some dir => if negb (heldBy hold) then default next (plannedPVCaps cfg store now dir limit) else next
    | None => next
    end in
  (fold_left mergeCap (map_iter (gCaps guard)) next, (heldBy hold || flt (of_Z 0) limit) || gActive guard).

(** A driver capped last tick: gone from the caps, it is released, or kept
    when its output only fell to nothing. *)
Definition leavesCap (cfg : curtailConfig) (store : Store) (wantCurtail : bool) (d : string) : bool :=
  negb wantCurtail || negb (supports cfg d) || negb (usable store d).

Definition ComputePVCurtail (s : Site) (cfg : curtailConfig) (store : Store) (now : Time) (st : curtailState)
  : list CurtailTarget * curtailState :=
  let '(hold, kept) := GetPVManualHold now (ManualPVHold st) in
  let guard := computePVExportGuard s cfg store in
  let '(next, wantCurtail) := chosenCaps s cfg store now hold guard in
  let residualW := pvExportResidualAfterCaps (overageW guard) cfg store next in
  let dropped := List.filter (fun d => match next !! d with Some _ => false | None => true end)
                   (keys (gset_to_gmap tt (LastCurtailedDrivers st))) in
  let released := List.filter (leavesCap cfg store wantCurtail) dropped in
  let suppressed := List.filter (fun d => negb (leavesCap cfg store wantCurtail d)) dropped in
  let capped := List.filter (fun x => negb (fle (snd x) curtailMinPerDriverW)) (map_iter next) in
  let out := ((fun d => mkCurtail d (of_Z 0)) <$> released) ++ ((fun x => mkCurtail (fst x) (snd x)) <$> capped) in
  let updated := list_to_set (cDriver <$> List.filter (fun t => flt (of_Z 0) (LimitW t)) out) ∪ list_to_set suppressed in
  (out, mkCurtailState kept updated (gActive guard) residualW).
End Curtail.

(** ** Lemmas: which drivers are capped *)
Lemma fold_insert_inv {A} (key : A -> string) (f : A -> f64) (l : list A) : forall (m : gmap string f64) d w,
  fold_left (fun m x => <[key x := f x]> m) l m !! d = Some w ->
  m !! d = Some w \/ exists x, x ∈ l /\ key x = d /\ f x = w.
Proof.
  induction l as [|x l IH]; intros m d w L; [now left|]. cbn [fold_left] in L.
  destruct (IH _ _ _ L) as [E|(y & I & K & F)]; [|right; exists y; split; [now right|now split]].
  destruct (decide (key x = d)) as [<-|N].
  - rewrite lookup_insert_eq in E. injection E as <-. right. exists x. split; [now left|now split].
  - rewrite lookup_insert_ne in E by exact N. now left.
Qed.
Lemma filter_In_iff {A} (p : A -> bool) l x : x ∈ List.filter p l <-> x ∈ l /\ p x = true.
Proof. rewrite !list_elem_of_In. apply filter_In. Qed.
Lemma filter_sublist {A} (p : A -> bool) (l : list A) : List.filter p l `sublist_of` l.
Proof. induction l as [|x l IH]; [constructor|]. cbn. destruct (p x); now constructor. Qed.

Lemma merge_inv l : forall m d w, fold_left mergeCap l m !! d = Some w -> m !! d = Some w \/ (d, w) ∈ l.
Proof.
  induction l as [|[k g] l IH]; intros m d w L; [now left|]. cbn [fold_left] in L.
  destruct (IH _ _ _ L) as [E|I]; [|right; now right]. unfold mergeCap in E.
  assert (S : <[k := g]> m !! d = Some w -> m !! d = Some w \/ (d, w) ∈ (k, g) :: l).
  { intros Q. destruct (decide (k = d)) as [<-|N]; [rewrite lookup_insert_eq in Q; injection Q as <-; right; now left|].
    rewrite lookup_insert_ne in Q by exact N. now left. }
  repeat case_match; auto.
Qed.
Lemma merge_keeps l : forall m d, d ∉ l.*1 -> fold_left mergeCap l m !! d = m !! d.
Proof.
  induction l as [|[k g] l IH]; intros m d N; [reflexivity|]. cbn in N. apply not_elem_of_cons in N as [N1 N2].
  cbn [fold_left]. rewrite IH by exact N2. unfold mergeCap. repeat case_match; try reflexivity; now apply lookup_insert_ne.
Qed.
Lemma flt_refl x : flt x x = false.
Proof. destruct (flt x x) eqn:E; [|reflexivity]. exfalso. apply flt_iff in E. lia. Qed.
(** The guard's cap stands, or a positive one that is no looser. *)
Lemma merge_binds l d g : NoDup l.*1 -> (d, g) ∈ l ->
  forall m, exists w, fold_left mergeCap l m !! d = Some w /\ flt g w = false.
Proof.
  induction l as [|[k v] l IH]; intros N I m; [inversion I|]. cbn in N. apply NoDup_cons in N as [N1 N2].
  cbn [fold_left]. apply elem_of_cons in I as [E|I].
  - injection E as -> ->. rewrite merge_keeps by exact N1. unfold mergeCap.
    destruct (m !! k) as [c|] eqn:M; [|exists v; split; [apply lookup_insert_eq|apply flt_refl]].
    destruct (fle c (of_Z 0) || flt v c) eqn:C; [exists v; split; [apply lookup_insert_eq|apply flt_refl]|].
    exists c. split; [exact M|]. now apply orb_false_iff in C as [_ C].
  - exact (IH N2 I _).
Qed.

Section Drivers.
Context `{MapIter}.

Lemma curtailable_supports cfg store r : curtailable cfg store r = true -> supports cfg (Driver r) = true.
Proof. unfold curtailable. intros C. now apply andb_true_iff in C as [_ C]. Qed.

Lemma guard_caps_inv s cfg store d w : gCaps (computePVExportGuard s cfg store) !! d = Some w ->
  exists r reduction total, r ∈ guardCandidates cfg store /\ Driver r = d /\ w = guardLimitW reduction total r /\
    fle reduction (of_Z 0) = false /\ fle total (of_Z 0) = false.
Proof.
  unfold computePVExportGuard. cbv zeta. destruct (fle (siteFuseMaxW s) _); [cbn; intros E; now rewrite lookup_empty in E|].
  destruct (fle (solarSurplusW s store) _); [cbn; intros E; now rewrite lookup_empty in E|].
  set (total := fold_left _ _ _). set (red := fmin _ total). destruct (fle red (of_Z 0)) eqn:Er; cbn [orb];
    [cbn; intros E; now rewrite lookup_empty in E|]. destruct (fle total (of_Z 0)) eqn:Et; [cbn; intros E; now rewrite lookup_empty in E|].
  cbn [gCaps]. intros L. apply fold_insert_inv in L as [L|(r & I & K & F)]; [now rewrite lookup_empty in L|].
  exists r, red, total. now split_and!.
Qed.
Lemma guard_caps_supported s cfg store d w : gCaps (computePVExportGuard s cfg store) !! d = Some w -> supports cfg d = true.
Proof.
  intros L. apply guard_caps_inv in L as (r & _ & _ & I & <- & _). unfold guardCandidates in I.
  apply filter_In_iff in I as [_ I]. apply andb_true_iff in I as [I _]. now apply curtailable_supports in I.
Qed.
Lemma allocate_supported cfg store hold limit d w : allocateLimit cfg store hold limit !! d = Some w -> supports cfg d = true.
Proof.
  unfold allocateLimit. cbv zeta. destruct (_ || _); [now rewrite lookup_empty|]. destruct (negb (bool_decide _)).
  - destruct (supports cfg (holdDriver hold)) eqn:S; [|now rewrite lookup_empty]. intros L.
    apply lookup_singleton_Some in L as [<- _]. exact S.
  - destruct (_ && fle _ limit); [now rewrite lookup_empty|]. destruct (flt _ _); [|now rewrite lookup_empty]. intros L.
    apply fold_insert_inv in L as [L|(r & I & <- & _)]; [now rewrite lookup_empty in L|]. unfold generating in I.
    apply filter_In_iff in I as [_ I]. apply andb_true_iff in I as [I _]. now apply curtailable_supports in I.
Qed.
Lemma planned_supported cfg store now dir limit m d w : plannedPVCaps cfg store now dir limit = Some m -> m !! d = Some w ->
  supports cfg d = true.
Proof.
  unfold plannedPVCaps. cbv zeta. destruct (planningPVProofValid cfg store now (PlanCurtailment dir)) eqn:V;
    [|rewrite orb_true_r; discriminate]. destruct (_ || _); [discriminate|]. destruct (flt _ _); [discriminate|].
  intros E L. injection E as <-. apply lookup_singleton_Some in L as [<- _]. unfold planningPVProofValid in V.
  destruct (PVGenerationLimit cfg); [|discriminate]. apply andb_true_iff in V as [V _]. now apply andb_true_iff in V as [_ V].
Qed.
Lemma chosen_supported s cfg store now hold d w :
  fst (chosenCaps s cfg store now hold (computePVExportGuard s cfg store)) !! d = Some w -> supports cfg d = true.
Proof.
  unfold chosenCaps. destruct (wantedLimit _ _ _ _ _) as [limit planned]. cbv zeta. cbn [fst]. intros L.
  apply merge_inv in L as [L|I].
  - destruct planned as [dir|]; [|exact (allocate_supported _ _ _ _ _ _ L)].
    destruct (negb (heldBy hold)); [|exact (allocate_supported _ _ _ _ _ _ L)].
    destruct (plannedPVCaps _ _ _ _ _) as [m|] eqn:P; cbn [default] in L;
      [exact (planned_supported _ _ _ _ _ _ _ _ P L)|exact (allocate_supported _ _ _ _ _ _ L)].
  - rewrite (map_iter_perm _ _) in I. apply elem_of_map_to_list in I. exact (guard_caps_supported _ _ _ _ _ I).
Qed.
End Drivers.

(** ** Specification: the inverters whose last command is a cap *)
Definition applyCurtail (capped : gset string) (t : CurtailTarget) : gset string :=
  if flt (of_Z 0) (LimitW t) then {[cDriver t]} ∪ capped else capped ∖ {[cDriver t]}.

Lemma apply_other out : forall capped d, d ∉ cDriver <$> out -> d ∈ fold_left applyCurtail out capped <-> d ∈ capped.
Proof.
  induction out as [|t out IH]; intros capped d N; [reflexivity|]. cbn in N. apply not_elem_of_cons in N as [N1 N2].
  cbn [fold_left]. rewrite IH by exact N2. unfold applyCurtail.
  destruct (flt _ _); clear IH N2; set_solver.
Qed.
Lemma apply_capped out t : NoDup (cDriver <$> out) -> t ∈ out -> flt (of_Z 0) (LimitW t) = true ->
  forall capped, cDriver t ∈ fold_left applyCurtail out capped.
Proof.
  induction out as [|u out IH]; intros N I P capped; [inversion I|]. cbn in N. apply NoDup_cons in N as [N1 N2].
  cbn [fold_left]. apply elem_of_cons in I as [->|I]; [|now apply IH].
  rewrite apply_other by exact N1. unfold applyCurtail. rewrite P. set_solver.
Qed.

Section Tick.
Context `{MapIter}.
Variables (cfg : curtailConfig) (store : Store) (want : bool) (next : gmap string f64) (last : gset string).

Definition droppedOf : list string :=
  List.filter (fun d => match next !! d with Some _ => false | None => true end) (keys (gset_to_gmap tt last)).
Definition releasedOf : list string := List.filter (leavesCap cfg store want) droppedOf.
Definition cappedOf : list (string * f64) := List.filter (fun x => negb (fle (snd x) curtailMinPerDriverW)) (map_iter next).
Definition targetsOf : list CurtailTarget :=
  ((fun d => mkCurtail d (of_Z 0)) <$> releasedOf) ++ ((fun x => mkCurtail (fst x) (snd x)) <$> cappedOf).

Lemma keys_gset d : d ∈ keys (gset_to_gmap tt last) <-> d ∈ last.
Proof.
  unfold keys. rewrite list_elem_of_fmap. split.
  - intros ([k u] & -> & I). rewrite (map_iter_perm _ _) in I. apply elem_of_map_to_list in I.
    now apply lookup_gset_to_gmap_Some in I as [I _].
  - intros I. exists (d, tt). split; [reflexivity|]. rewrite (map_iter_perm _ _). apply elem_of_map_to_list.
    now apply lookup_gset_to_gmap_Some.
Qed.
Lemma NoDup_iter {A} (m : gmap string A) : NoDup (map_iter m).*1.
Proof. rewrite (map_iter_perm _ m). apply NoDup_fst_map_to_list. Qed.
Lemma dropped_iff d : d ∈ droppedOf <-> d ∈ last /\ next !! d = None.
Proof.
  unfold droppedOf. rewrite filter_In_iff, keys_gset. destruct (next !! d); split; intros [A B]; try discriminate; now split.
Qed.
Lemma capped_iff d w : (d, w) ∈ cappedOf <-> next !! d = Some w /\ fle w curtailMinPerDriverW = false.
Proof.
  unfold cappedOf. rewrite filter_In_iff, (map_iter_perm _ next), elem_of_map_to_list. cbn [snd].
  now rewrite negb_true_iff.
Qed.
Lemma target_cases t : t ∈ targetsOf <->
  (LimitW t = of_Z 0 /\ cDriver t ∈ last /\ next !! cDriver t = None /\ leavesCap cfg store want (cDriver t) = true) \/
  (next !! cDriver t = Some (LimitW t) /\ fle (LimitW t) curtailMinPerDriverW = false).
Proof.
  unfold targetsOf, releasedOf. rewrite elem_of_app, !list_elem_of_fmap. destruct t as [d w]. cbn [cDriver LimitW]. split.
  - intros [(k & E & I)|([k v] & E & I)]; injection E as -> ->; [left|right].
    + apply filter_In_iff in I as [I L]. apply dropped_iff in I as [I N]. now split_and!.
    + now apply capped_iff in I.
  - intros [(-> & I & N & L)|C]; [left; exists d; split; [reflexivity|]|right; exists (d, w); split; [reflexivity|now apply capped_iff]].
    apply filter_In_iff. split; [now apply dropped_iff|exact L].
Qed.
Lemma targets_NoDup : NoDup (cDriver <$> targetsOf).
Proof.
  unfold targetsOf. rewrite fmap_app, <- !list_fmap_compose. apply NoDup_app. split_and!.
  - unfold releasedOf, droppedOf, keys. change (NoDup ((fun d : string => d) <$> List.filter (leavesCap cfg store want)
      (List.filter (fun d => match next !! d with Some _ => false | None => true end) (fst <$> map_iter (gset_to_gmap tt last))))).
    rewrite list_fmap_id. do 2 (eapply sublist_NoDup; [|apply filter_sublist]). apply NoDup_iter.
  - intros d I J. apply list_elem_of_fmap in I as (k & -> & I). apply list_elem_of_fmap in J as ([k' w] & E & J).
    cbn in E. subst k'. apply filter_In_iff in I as [I _]. apply dropped_iff in I as [_ N].
    apply capped_iff in J as [J _]. congruence.
  - change (NoDup (fst <$> cappedOf)). eapply sublist_NoDup; [apply (NoDup_iter next)|].
    unfold cappedOf. induction (map_iter next) as [|x l IH]; [constructor|]. cbn. destruct (negb _); now constructor.
Qed.
End Tick.

(** ** Lemmas: the guard's caps *)
Lemma notNeg_of_fle x : fle x (of_Z 0) = false -> notNeg x.
Proof.
  intros F. unfold notNeg. destruct (flt x (of_Z 0)) eqn:E; [|reflexivity]. exfalso.
  assert (L : fle x (of_Z 0) = true) by (apply fle_iff; apply flt_iff in E; unfold le_rel; lia). congruence.
Qed.
Lemma fsub_notNeg_le x y : wf x -> notNeg y -> flt x (fsub x y) = false.
Proof.
  intros W N. destruct (flt x (fsub x y)) eqn:E; [|reflexivity]. exfalso. pose proof (proj1 (flt_iff _ _) E) as (Rx & Rs & _).
  apply (flt_le_contra _ _ E). apply fsub_le; [exact W| |exact Rx|exact Rs].
  apply notNeg_cases in N as [->|[->|(z & -> & Hz)]]; [|cbn; unfold le_rel; cbn; lia|unfold le_rel; cbn; lia].
  exfalso. apply Rs. destruct x as [|[]|]; reflexivity.
Qed.
Lemma two_le_max : rank reactivePVCurtailFloorW = 0.
Proof. apply of_Z_rank; lia. Qed.
Lemma guardLimit_bounds reduction total r : wf (generationW r) ->
  fle (reducibleW r) (of_Z 0) = false -> fle reduction (of_Z 0) = false -> fle total (of_Z 0) = false ->
  flt (guardLimitW reduction total r) reactivePVCurtailFloorW = false /\
  flt (generationW r) (guardLimitW reduction total r) = false.
Proof.
  intros W R D T. unfold guardLimitW. cbv zeta. set (p := fmul _ _).
  assert (Np : notNeg p) by (apply notNeg_mul; [now apply notNeg_of_fle|apply fdiv_notNeg; [now apply notNeg_of_fle|exact T]]).
  clearbody p. pose proof two_le_max as R2. unfold reducibleW in R. set (two := reactivePVCurtailFloorW) in *. clearbody two.
  destruct (flt (fsub (generationW r) p) two) eqn:E; [|split; [exact E|now apply fsub_notNeg_le]].
  split; [apply flt_refl|]. destruct (flt (generationW r) two) eqn:F; [|reflexivity]. exfalso.
  assert (L : le_rel (fsub (generationW r) two) (Fin 0)).
  { apply fsub_nonpos; [apply flt_iff in F; unfold le_rel; lia|].
    apply flt_iff in F as (F & _). destruct (generationW r) as [|[]|], two as [|[]|]; cbn in *; try lia; try discriminate.
    unfold fadd. cbn. now apply rnd_not_nan. }
  rewrite <- of_Z_0 in L. apply fle_iff in L. congruence.
Qed.

(** ** Properties *)
Section Properties.
Context `{MapIter}.

Definition nextOf (s : Site) (cfg : curtailConfig) (store : Store) (now : Time) (st : curtailState) : gmap string f64 :=
  fst (chosenCaps s cfg store now (fst (GetPVManualHold now (ManualPVHold st))) (computePVExportGuard s cfg store)).
Definition wantOf (s : Site) (cfg : curtailConfig) (store : Store) (now : Time) (st : curtailState) : bool :=
  snd (chosenCaps s cfg store now (fst (GetPVManualHold now (ManualPVHold st))) (computePVExportGuard s cfg store)).

(** The tick in the terms of the lemmas above. *)
Lemma tick_shape s cfg store now st (r := ComputePVCurtail s cfg store now st) (next := nextOf s cfg store now st) :
  let ts := targetsOf cfg store (wantOf s cfg store now st) next (LastCurtailedDrivers st) in
  fst r = ts /\
  (forall d, d ∈ LastCurtailedDrivers (snd r) <->
     (exists t, t ∈ ts /\ cDriver t = d /\ flt (of_Z 0) (LimitW t) = true) \/
     (d ∈ LastCurtailedDrivers st /\ next !! d = None /\ leavesCap cfg store (wantOf s cfg store now st) d = false)).
Proof.
  subst r next. unfold ComputePVCurtail, nextOf, wantOf. destruct (GetPVManualHold now (ManualPVHold st)) as [hold kept].
  cbv zeta. cbn [fst]. destruct (chosenCaps _ _ _ _ _ _) as [next want]. cbn [fst snd LastCurtailedDrivers]. split; [reflexivity|].
  intros d. fold (targetsOf cfg store want next (LastCurtailedDrivers st)).
  rewrite elem_of_union, !elem_of_list_to_set, list_elem_of_fmap, filter_In_iff.
  fold (droppedOf next (LastCurtailedDrivers st)). rewrite dropped_iff, negb_true_iff. split.
  - intros [(t & -> & I)|[[A B] L]]; [left; exists t; now apply filter_In_iff in I as [I P]|right; now split_and!].
  - intros [(t & I & <- & P)|(A & B & L)]; [left; exists t; split; [reflexivity|now apply filter_In_iff]|now right].
Qed.

End Properties.

(** ** Properties of the export guard and of a hold at 0 W *)
Section Guard.
Context `{MapIter}.

(** The live export guard binds whatever the plan or a hold allows. Each
    inverter it caps keeps a cap no looser than the guard's, and the guard's
    cap is at least the floor of two watts and never above what the inverter
    makes now; an overage left over is never reported as negative. *)
Theorem export_guard_binds (s : Site) (cfg : curtailConfig) (store : Store) (now : Time) (st : curtailState)
    (Hw : Forall (fun r => wf (SmoothedW r)) (readingsOf DerPV store)) :
  let guard := computePVExportGuard s cfg store in
  (forall d g, gCaps guard !! d = Some g ->
     (exists w, nextOf s cfg store now st !! d = Some w /\ flt g w = false) /\
     flt g reactivePVCurtailFloorW = false /\
     exists r, r ∈ readingsOf DerPV store /\ Driver r = d /\ usable store d = true /\ flt (generationW r) g = false) /\
  flt (PVExportResidualW (snd (ComputePVCurtail s cfg store now st))) (of_Z 0) = false.
Proof.
  cbv zeta. split.
  - intros d g L. split.
    + unfold nextOf, chosenCaps. destruct (wantedLimit _ _ _ _ _) as [limit planned]. cbv zeta. cbn [fst].
      apply merge_binds; [apply NoDup_iter|]. rewrite (map_iter_perm _ _). now apply elem_of_map_to_list.
    + apply guard_caps_inv in L as (r & red & total & I & <- & -> & Hr & Ht). unfold guardCandidates in I.
      apply filter_In_iff in I as [I C]. apply andb_true_iff in C as [C R]. apply negb_true_iff in R.
      rewrite Forall_forall in Hw. destruct (guardLimit_bounds red total r) as [A B]; [now apply fneg_wf, Hw|exact R|exact Hr|exact Ht|].
      split; [exact A|]. exists r. split_and!; [exact I|reflexivity| |exact B].
      unfold curtailable in C. now apply andb_true_iff in C as [C _].
  - unfold ComputePVCurtail. destruct (GetPVManualHold _ _) as [hold kept]. destruct (chosenCaps _ _ _ _ _ _) as [next want].
    cbv zeta. cbn [snd PVExportResidualW]. unfold pvExportResidualAfterCaps. cbv zeta.
    destruct (fle (overageW _) _); [apply flt_refl|].
    match goal with |- flt (if flt ?x ?z then _ else _) _ = false => destruct (flt x z) eqn:E; [apply flt_refl|exact E] end.
Qed.

(** A manual hold of 0 W loses the cap it replaces. While it holds a
    capped inverter at 0 W and the guard leaves that inverter alone, the tick
    sends the inverter nothing and stops counting it as capped, so no tick
    after it, whatever it reads, releases the cap the inverter still has. *)
Theorem zero_hold_strands_cap (s : Site) (cfg : curtailConfig) (store : Store) (now : Time) (st : curtailState)
    (h : PVManualHold) (Hh : fst (GetPVManualHold now (ManualPVHold st)) = Some h) (Hd : pvDriver h <> ""%string)
    (H0 : pvLimitW h = of_Z 0) (Hs : supports cfg (pvDriver h) = true)
    (Hg : gCaps (computePVExportGuard s cfg store) !! pvDriver h = None) :
  let r := ComputePVCurtail s cfg store now st in
  (pvDriver h ∉ cDriver <$> fst r) /\ (pvDriver h ∉ LastCurtailedDrivers (snd r)) /\
  forall s' cfg' store' now' t, t ∈ fst (ComputePVCurtail s' cfg' store' now' (snd r)) ->
    cDriver t = pvDriver h -> fle (LimitW t) curtailMinPerDriverW = false.
Proof.
  cbv zeta. destruct (tick_shape s cfg store now st) as [E L].
  assert (N : nextOf s cfg store now st !! pvDriver h = Some (of_Z 0)).
  { unfold nextOf. rewrite Hh. unfold chosenCaps, wantedLimit. cbv zeta. cbn [fst]. rewrite merge_keeps.
    - unfold protectLimit, allocateLimit. cbn [holdDriver heldBy orb negb].
      destruct (decide (pvDriver h = ""%string)) as [X|X]; [easy|]. rewrite bool_decide_eq_false_2 by exact X. cbn [negb].
      unfold supports in *. destruct (size (SupportsPVCurtail cfg) =? 0)%nat eqn:Z.
      + apply Nat.eqb_eq, map_size_empty_iff in Z. rewrite Z, lookup_empty in Hs. discriminate.
      + rewrite Hs. rewrite lookup_singleton_eq. now rewrite H0.
    - intros I. apply list_elem_of_fmap in I as ([k w] & K & I). cbn in K. subst k. rewrite (map_iter_perm _ _) in I.
      apply elem_of_map_to_list in I. congruence. }
  assert (One : fle (of_Z 0) curtailMinPerDriverW = true) by (vm_compute; reflexivity).
  assert (Out : forall t, t ∈ fst (ComputePVCurtail s cfg store now st) -> cDriver t <> pvDriver h).
  { rewrite E. intros t I K. apply target_cases in I as [(_ & _ & I & _)|[I F]]; rewrite K in I; [congruence|].
    rewrite N in I. injection I as I. rewrite <- I in F. congruence. }
  assert (Gone : pvDriver h ∉ LastCurtailedDrivers (snd (ComputePVCurtail s cfg store now st))).
  { intros I. apply L in I as [(t & I & K & _)|(_ & I & _)]; [|congruence]. rewrite <- E in I. exact (Out t I K). }
  split_and!; [|exact Gone|].
  - intros I. apply list_elem_of_fmap in I as (t & K & I). exact (Out t I (eq_sym K)).
  - intros s' cfg' store' now' t I K. destruct (tick_shape s' cfg' store' now' (snd (ComputePVCurtail s cfg store now st))) as [E' _].
    rewrite E' in I. apply target_cases in I as [(_ & I & _)|[_ F]]; [rewrite K in I; easy|exact F].
Qed.
End Guard.

(** ** Witnesses: one inverter makes 8 kW, all exported *)
Definition pvStore : Store :=
  mkStore {[key "meter" DerMeter := mkReading "meter" DerMeter (of_Z (-8000)) (of_Z (-8000)) None 0 RawEmpty (10 * Second);
            key "pv1" DerPV := mkReading "pv1" DerPV (of_Z (-8000)) (of_Z (-8000)) None 0 RawEmpty (10 * Second)]} ∅
    {["meter"%string := NewHealth "meter" (10 * Second); "pv1"%string := NewHealth "pv1" (10 * Second)]}
    (of_Z 100) (of_Z 50) [] ∅ [] 0.
Definition pvSite (amps exportW : Z) : Site :=
  mkSite ModeSelfConsumption "meter" (of_Z amps) (of_Z 230) 3 (of_Z 0) (of_Z 0) (of_Z exportW)
    (of_Z 0) (of_Z 0) (of_Z 0) (of_Z 0) false (of_Z 0) (of_Z 0) (of_Z 0) ∅ [] false 5 2
    None None noSnapshot (of_Z 0) (of_Z 0) ∅.
Definition pvConfig : curtailConfig := mkCurtailConfig {["pv1"%string := true]} None false (of_Z 0) (of_Z 0) (of_Z 0) ∅.
(** Capped last tick; the operator now holds the inverter at 0 W. *)
Definition pvHeld : curtailState :=
  mkCurtailState (mkPVHold "pv1" (of_Z 0) (60 * Second)) {["pv1"%string]} false (of_Z 0).
Definition pvFree : curtailState := mkCurtailState noPVHold ∅ false (of_Z 0).

Lemma pv_readings_wf : Forall (fun r => wf (SmoothedW r)) (@readingsOf canonical_iter DerPV pvStore).
Proof.
  apply Forall_forall. intros r I. unfold readingsOf in I. apply filter_In_iff in I as [I _].
  apply list_elem_of_fmap in I as ([k v] & -> & I). rewrite (map_iter_perm _ _) in I. apply elem_of_map_to_list in I.
  unfold pvStore in I. cbn [readings] in I. cbn [snd].
  apply lookup_insert_Some in I as [[_ <-]|[_ I]]; [apply of_Z_wf|]. apply lookup_singleton_Some in I as [_ <-]. apply of_Z_wf.
Qed.
Lemma export_guard_binds_witness :
  flt (PVExportResidualW (snd (@ComputePVCurtail canonical_iter (pvSite 16 5000) pvConfig pvStore (10 * Second) pvFree))) (of_Z 0) = false.
Proof. exact (proj2 (@export_guard_binds canonical_iter (pvSite 16 5000) pvConfig pvStore (10 * Second) pvFree pv_readings_wf)). Defined.

Lemma zero_hold_strands_cap_witness :
  "pv1"%string ∈ LastCurtailedDrivers pvHeld /\
  ("pv1"%string ∉ LastCurtailedDrivers (snd (@ComputePVCurtail canonical_iter (pvSite 0 0) pvConfig pvStore (10 * Second) pvHeld))).
Proof.
  split; [unfold pvHeld; cbn [LastCurtailedDrivers]; now apply elem_of_singleton|].
  refine (proj1 (proj2 (@zero_hold_strands_cap canonical_iter (pvSite 0 0) pvConfig pvStore (10 * Second) pvHeld
    (mkPVHold "pv1" (of_Z 0) (60 * Second)) _ _ _ _ _))).
  - reflexivity.
  - discriminate.
  - reflexivity.
  - reflexivity.
  - vm_compute. reflexivity.
Defined.
