(* ===== verification/PlanSlots.v ===== *)
(** * The planner's input (go/internal/mpc: mpc.go, slot_timeline.go,
    execution_time.go, power_limits.go, import_hours.go, load_bounds.go;
    gridcost/gridcost.go; loadpoint/site_power.go)

    Price slots with their forecasts and limits, their time arithmetic on
    64-bit milliseconds, the price of energy across the meter, and the shares
    of an hourly import budget. *)
From Stdlib Require Import ZArith Lia Sorted.
From S2P Require Import Prelude Float64 GoTime.
From stdpp Require Import base gmap strings list.
#[local] Open Scope Z_scope.

(** Signed 64-bit wrap-around. *)
Definition i64 (z : Z) : Z := (z + 2 ^ 63) mod 2 ^ 64 - 2 ^ 63.

(** Go's [min] and [max] on float64: NaN wins over everything. *)
Definition bmin (x y : f64) : f64 := if isNaN x || isNaN y then NaN else if flt x y then x else y.
Definition bmax (x y : f64) : f64 := if isNaN x || isNaN y then NaN else if flt y x then x else y.

(** ** Slots. The provenance fields are diagnostics and left out. *)
Record PlanLimits : Type := mkLimits { MaxImportW : f64; lMaxExportW : f64 }.
Record Slot : Type := mkPlanSlot {
  ExecutionStartMs : Z; StartMs : Z; LenMin : Z;
  PriceOre : f64; SpotOre : f64; PVW : f64; LoadW : f64; Limits : PlanLimits
}.

Definition allowsImport (l : PlanLimits) (gridW : f64) : bool :=
  if fle gridW (of_Z 0) || fle (MaxImportW l) (of_Z 0) then true else fle gridW (MaxImportW l).
Definition allowsExport (l : PlanLimits) (gridW : f64) : bool :=
  if fle (of_Z 0) gridW || fle (lMaxExportW l) (of_Z 0) then true else fle (fneg gridW) (lMaxExportW l).

Definition withLimits (l : PlanLimits) (s : Slot) : Slot :=
  mkPlanSlot (ExecutionStartMs s) (StartMs s) (LenMin s) (PriceOre s) (SpotOre s) (PVW s) (LoadW s) l.

(** The site's own limits on every slot; a tighter one stays. *)
Definition tighten (cap limit : f64) : f64 := if fle limit (of_Z 0) || flt cap limit then cap else limit.
Definition clampSlotGridLimits (slots : list Slot) (fuseMaxW maxExportW : f64) : list Slot :=
  if fle fuseMaxW (of_Z 0) then slots
  else
    let exportCap := if flt (of_Z 0) maxExportW && flt maxExportW fuseMaxW then maxExportW else fuseMaxW in
    (fun s => withLimits (mkLimits (tighten fuseMaxW (MaxImportW (Limits s))) (tighten exportCap (lMaxExportW (Limits s)))) s) <$> slots.

Definition phaseImbalanceWindowMs : Z := 3600000.
(** [untilMs] is the clock plus the window, in milliseconds. *)
Definition limitNear (untilMs : Z) (fuseMaxW imbalanceW : f64) (s : Slot) : Slot :=
  if untilMs <=? StartMs s then s
  else
    let limit := bmax (fsub fuseMaxW imbalanceW) (fadd (LoadW s) (PVW s)) in
    if fle limit (of_Z 0) then s
    else if fle (MaxImportW (Limits s)) (of_Z 0) || flt limit (MaxImportW (Limits s))
    then withLimits (mkLimits limit (lMaxExportW (Limits s))) s else s.
Definition limitNearImportForPhases (slots : list Slot) (untilMs : Z) (fuseMaxW imbalanceW : f64) : list Slot :=
  if fle fuseMaxW (of_Z 0) || fle imbalanceW (of_Z 0) then slots
  else limitNear untilMs fuseMaxW imbalanceW <$> slots.

Definition sanitizeLoadW (w : f64) : f64 := if isNaN w || isInf w || flt w (of_Z 0) then of_Z 0 else w.
Definition orZero (x : f64) : f64 := if finite x then x else of_Z 0.
Definition sanitizeSlot (s : Slot) : option Slot :=
  if negb (finite (PriceOre s)) || negb (finite (SpotOre s)) then None
  else Some (mkPlanSlot (ExecutionStartMs s) (StartMs s) (if LenMin s <=? 0 then 60 else LenMin s) (PriceOre s) (SpotOre s)
               (orZero (PVW s)) (if negb (finite (LoadW s)) || flt (LoadW s) (of_Z 0) then of_Z 0 else LoadW s)
               (mkLimits (orZero (MaxImportW (Limits s))) (orZero (lMaxExportW (Limits s))))).
Definition sanitizeOptimizeSlots (slots : list Slot) : list Slot := omap sanitizeSlot slots.

(** ** Time *)
Definition checkedSlotEndMs (startMs lenMin : Z) : option Z :=
  if (startMs <=? 0) || (lenMin <=? 0) then None
  else
    let slotLenMs := i64 (lenMin * 60000) in
    if (slotLenMs <=? 0) || negb (Z.quot slotLenMs 60000 =? lenMin) then None
    else
      let endMs := i64 (startMs + slotLenMs) in
      if endMs <=? startMs then None else Some endMs.
Definition slotEndMs (s : Slot) : option Z := checkedSlotEndMs (StartMs s) (LenMin s).

Definition ExecutionStart (s : Slot) : Z := if ExecutionStartMs s =? 0 then StartMs s else ExecutionStartMs s.
Definition DurationHours (s : Slot) : f64 :=
  fdiv (of_Z (i64 (i64 (StartMs s + i64 (LenMin s * 60000)) - ExecutionStart s))) (of_Z 3600000).

Definition validateExecutionStart (index : nat) (start stop execution : Z) : bool :=
  (execution =? 0) || ((index =? 0)%nat && (start <=? execution) && (execution <? stop)).

(** [validateSlotChronology] from slot [i] on, after a slot that ended at
    [prev]; zero before the first. *)
Fixpoint chronology (i : nat) (prev : Z) (slots : list Slot) : bool :=
  match slots with
  | [] => true
  | s :: rest =>
      match slotEndMs s with
      | None => false
      | Some stop =>
          validateExecutionStart i (StartMs s) stop (ExecutionStartMs s) &&
          negb ((0 <? prev) && (StartMs s <? prev)) && chronology (S i) stop rest
      end
  end.
Definition validateSlotChronology (slots : list Slot) : bool :=
  match slots with [] => false | _ => chronology 0 0 slots end.

Fixpoint partialSlots (i : nat) (slots : list Slot) : bool :=
  match slots with
  | [] => true
  | s :: rest =>
      (if ExecutionStartMs s =? 0 then true
       else match slotEndMs s with
            | None => false
            | Some stop => validateExecutionStart i (StartMs s) stop (ExecutionStartMs s)
            end) && partialSlots (S i) rest
  end.
Definition validatePartialSlots (slots : list Slot) : bool := partialSlots 0 slots.

Definition horizonMeanPrice (slots : list Slot) : f64 :=
  match slots with
  | [] => of_Z 0
  | _ =>
      let w s := fmul (DurationHours s) (of_Z 60) in
      let sumPrice := fold_left (fun a s => fadd a (fmul (PriceOre s) (w s))) slots (of_Z 0) in
      let sumLen := fold_left (fun a s => fadd a (w s)) slots (of_Z 0) in
      if fle sumLen (of_Z 0)
      then fdiv (fold_left (fun a s => fadd a (PriceOre s)) slots (of_Z 0)) (of_Z (Z.of_nat (length slots)))
      else fdiv sumPrice sumLen
  end.

(** ** The meter's price *)
Record ExportPricing : Type := mkPricing { BonusOreKwh : f64; FeeOreKwh : f64; FlatOreKwh : f64; FloorOreKwh : option f64 }.
Definition ExportPriceOre (spotOreKwh : f64) (ep : ExportPricing) : f64 :=
  if flt (of_Z 0) (FlatOreKwh ep) then FlatOreKwh ep
  else
    let v := fsub (fadd spotOreKwh (BonusOreKwh ep)) (FeeOreKwh ep) in
    match FloorOreKwh ep with Some f => if flt v f then f else v | None => v end.
Definition GridCostOre (importOreKwh spotOreKwh gridKWh : f64) (ep : ExportPricing) : f64 :=
  if flt (of_Z 0) gridKWh then fmul importOreKwh gridKWh
  else fmul (fneg (ExportPriceOre spotOreKwh ep)) (fneg gridKWh).

(** ** The site's power identity *)
Definition SitePowerEpsW : f64 := of_Z 50.
Definition GridW (loadW pvW batteryW evW : f64) : f64 := fadd (fadd (fadd loadW pvW) batteryW) evW.
Definition PVLeftoverAfterHouseW (loadW pvW : f64) : f64 :=
  let leftover := fneg (fadd loadW pvW) in if flt leftover (of_Z 0) then of_Z 0 else leftover.
Definition HouseResidualW (loadW pvW : f64) : f64 :=
  let residual := fadd loadW pvW in if flt residual (of_Z 0) then of_Z 0 else residual.
Definition SurplusOnlyExceedsHousePV (evW loadW pvW : f64) : bool :=
  flt (fadd (PVLeftoverAfterHouseW loadW pvW) SitePowerEpsW) evW.
Definition BatteryDischargeFeedsEV (batteryW evW loadW pvW : f64) : bool :=
  if fle evW (of_Z 0) || fle (of_Z 0) batteryW then false
  else flt (fadd (HouseResidualW loadW pvW) SitePowerEpsW) (fneg batteryW).
Definition BatteryEnergyDeltaWh (powerW dtH chargeEff dischargeEff : f64) : f64 :=
  if fle (of_Z 0) powerW then fmul (fmul powerW dtH) chargeEff else fdiv (fmul powerW dtH) dischargeEff.

(** ** The hourly import budget *)
Record ImportHour : Type := mkImportHour { hStartMs : Z; hEndMs : Z; ElapsedImportWh : f64 }.
Definition hourMs : Z := 3600000.

Definition importLeftWh (h : ImportHour) (meanW : f64) : f64 :=
  fsub (fdiv (fmul meanW (of_Z (i64 (hEndMs h - hStartMs h)))) (of_Z hourMs)) (ElapsedImportWh h).
Definition importHourOverlapH (s : Slot) (h : ImportHour) : f64 :=
  match slotEndMs s with
  | None => of_Z 0
  | Some stop =>
      fdiv (of_Z (Z.max 0 (i64 (Z.min stop (hEndMs h) - Z.max (ExecutionStart s) (hStartMs h))))) (of_Z hourMs)
  end.
Definition importHourPlannedH (slots : list Slot) (h : ImportHour) : f64 :=
  fold_left (fun span s => fadd span (importHourOverlapH s h)) slots (of_Z 0).

Definition houseImportW (s : Slot) : f64 := bmax (of_Z 0) (fadd (LoadW s) (PVW s)).
(** One slot's caps without and with a car, under one more hour. *)
Definition capUnder (h : ImportHour) (meanW roomW : f64) (s : Slot) (c : f64 * f64) : f64 * f64 :=
  if flt (of_Z 0) (importHourOverlapH s h) then
    let house := houseImportW s in
    (bmin (fst c) (bmax house (bmin (fadd house (bmax (of_Z 0) roomW)) meanW)),
     if flt roomW (of_Z 0) then Inf true else bmin (snd c) (bmin (fadd house roomW) meanW))
  else c.
Definition hourCaps (slots : list Slot) (importMeanW : f64) (caps : list (f64 * f64)) (h : ImportHour) : list (f64 * f64) :=
  let '(spanH, houseWh) :=
    fold_left (fun acc s =>
        let ov := importHourOverlapH s h in
        if flt (of_Z 0) ov then (fadd (fst acc) ov, fadd (snd acc) (fmul (houseImportW s) ov)) else acc)
      slots (of_Z 0, of_Z 0) in
  if fle spanH (of_Z 0) then caps
  else
    let leftWh := bmax (of_Z 0) (importLeftWh h importMeanW) in
    zip_with (capUnder h (fdiv leftWh spanH) (fdiv (fsub leftWh houseWh) spanH)) slots caps.
Definition importHourCapsW (slots : list Slot) (importMeanW : f64) (hours : list ImportHour) : option (list (f64 * f64)) :=
  match hours with
  | [] => None
  | _ => Some (fold_left (hourCaps slots importMeanW) hours (replicate (length slots) (Inf false, Inf false)))
  end.

Definition evAverageRoomW (capW baseW peakW : f64) : f64 :=
  if flt capW (of_Z 0) then of_Z 0
  else
    let off := bmax (of_Z 0) baseW in
    let on := bmax (of_Z 0) (fadd baseW peakW) in
    if fle on off then peakW else bmax (of_Z 0) (bmin peakW (fdiv (fmul (fsub capW off) peakW) (fsub on off))).

(** ** Lemmas: milliseconds do not wrap *)
Definition int64 (z : Z) : Prop := - 2 ^ 63 <= z < 2 ^ 63.
Lemma i64_id z : int64 z -> i64 z = z.
Proof. unfold int64, i64. intros H. rewrite Z.mod_small; lia. Qed.
Lemma i64_range z : int64 (i64 z).
Proof. unfold int64, i64. pose proof (Z.mod_pos_bound (z + 2 ^ 63) (2 ^ 64)). lia. Qed.
Lemma i64_mod z : exists k, i64 z = z - k * 2 ^ 64.
Proof.
  exists ((z + 2 ^ 63) / 2 ^ 64). unfold i64. pose proof (Z.div_mod (z + 2 ^ 63) (2 ^ 64)). lia.
Qed.

Lemma checked_end_iff start len stop : int64 start -> int64 len ->
  checkedSlotEndMs start len = Some stop <->
  0 < start /\ 0 < len /\ start + len * 60000 < 2 ^ 63 /\ stop = start + len * 60000.
Proof.
  intros Hs Hl. unfold checkedSlotEndMs. cbv zeta.
  destruct (Z.leb_spec start 0) as [|S]; cbn [orb]; [split; [discriminate|lia]|].
  destruct (Z.leb_spec len 0) as [|L]; [split; [discriminate|lia]|].
  destruct (i64_mod (len * 60000)) as [k Hk]. pose proof (i64_range (len * 60000)) as R. unfold int64 in *.
  set (w := i64 (len * 60000)) in *. clearbody w. destruct (Z.leb_spec w 0) as [|W]; cbn [orb].
  - split; [discriminate|]. intros (_ & _ & B & _). exfalso. assert (k = 0) by nia. lia.
  - destruct (Z.eqb_spec (Z.quot w 60000) len) as [Q|Q]; cbn [negb].
    + rewrite Z.quot_div_nonneg in Q by lia. assert (E : w = len * 60000).
      { pose proof (Z.div_mod w 60000 ltac:(lia)) as D. pose proof (Z.mod_pos_bound w 60000 ltac:(lia)) as M. rewrite Q in D. nia. }
      destruct (i64_mod (start + w)) as [j Hj]. pose proof (i64_range (start + w)) as R2. unfold int64 in R2.
      set (e := i64 (start + w)) in *. clearbody e. destruct (Z.leb_spec e start) as [C|C].
      * split; [discriminate|]. intros (_ & _ & B & _). exfalso. assert (j = 0) by nia. lia.
      * assert (j = 0) by nia. split; [intros X; injection X as <-; lia|intros (_ & _ & _ & ->); f_equal; lia].
    + split; [discriminate|]. intros (_ & _ & B & _). exfalso. apply Q. assert (k = 0) by nia. subst k.
      replace w with (len * 60000) by lia. now rewrite Z.quot_mul.
Qed.

(** ** Specification: a timeline *)
Definition slotStop (s : Slot) : Z := StartMs s + LenMin s * 60000.
Record slot_ok (s : Slot) : Prop := {
  so_start : 0 < StartMs s;
  so_begin : StartMs s <= ExecutionStart s;
  so_end : ExecutionStart s < slotStop s;
  so_range : slotStop s < 2 ^ 63
}.
Definition before (s s' : Slot) : Prop := slotStop s <= StartMs s'.
Definition machine (s : Slot) : Prop := int64 (StartMs s) /\ int64 (LenMin s) /\ int64 (ExecutionStartMs s).

Lemma slot_end_ok s stop : machine s -> slotEndMs s = Some stop ->
  0 < StartMs s /\ StartMs s < stop /\ stop = slotStop s /\ stop < 2 ^ 63.
Proof. intros (A & B & _) E. apply checked_end_iff in E as (? & ? & ? & ->); [|exact A|exact B]. unfold slotStop. lia. Qed.

Lemma chronology_ok slots : forall i prev, Forall machine slots -> chronology i prev slots = true ->
  Forall slot_ok slots /\ Sorted before slots /\ (forall s, head slots = Some s -> 0 < prev -> prev <= StartMs s) /\
  (forall k s, slots !! k = Some s -> (0 < i + k)%nat -> ExecutionStartMs s = 0).
Proof.
  induction slots as [|s slots IH]; intros i prev M C; [split_and!; [constructor|constructor|discriminate|intros ? ? L; now rewrite lookup_nil in L]|].
  apply Forall_cons in M as [Ms M]. cbn [chronology] in C. destruct (slotEndMs s) as [stop|] eqn:E; [|discriminate].
  apply andb_true_iff in C as [C C3]. apply andb_true_iff in C as [C1 C2].
  destruct (slot_end_ok s stop Ms E) as (P1 & P2 & P3 & P4). destruct (IH (S i) stop M C3) as (F & So & Hd & Ex).
  assert (X : ExecutionStartMs s = 0 \/ i = 0%nat /\ StartMs s <= ExecutionStartMs s < stop).
  { unfold validateExecutionStart in C1. destruct (Z.eqb_spec (ExecutionStartMs s) 0) as [|]; [now left|right]. cbn [orb] in C1.
    apply andb_true_iff in C1 as [C1 B]. apply andb_true_iff in C1 as [A A2]. apply Nat.eqb_eq in A. lia. }
  split_and!.
  - constructor; [|exact F]. unfold ExecutionStart. constructor; try lia; unfold ExecutionStart; destruct (Z.eqb_spec (ExecutionStartMs s) 0); lia.
  - constructor; [exact So|]. destruct slots as [|s' slots]; [constructor|]. constructor. unfold before. specialize (Hd s' eq_refl). lia.
  - intros s' Q Hp. injection Q as <-. apply negb_true_iff, andb_false_iff in C2 as [C2|C2]; lia.
  - intros [|k] s' L Hk.
    + injection L as <-. destruct X as [X|[X _]]; [exact X|lia].
    + apply (Ex k); [exact L|lia].
Qed.

(** ** Properties *)

(** A timeline the planner accepts is well formed. On 64-bit numbers,
    [validateSlotChronology] accepts only slots whose ends are exact, with no
    wrap-around anywhere in the millisecond arithmetic; each slot executes for
    a positive time inside its own price interval, each ends before the next
    starts, and only the first may start late. *)
Theorem accepted_timeline_well_formed (slots : list Slot) (Hm : Forall machine slots)
    (Hv : validateSlotChronology slots = true) :
  Forall slot_ok slots /\ StronglySorted before slots /\
  (forall s, s ∈ tail slots -> ExecutionStartMs s = 0) /\
  Forall (fun s => DurationHours s = fdiv (of_Z (slotStop s - ExecutionStart s)) (of_Z 3600000)) slots.
Proof.
  destruct slots as [|s0 slots]; [discriminate|]. destruct (chronology_ok _ 0 0 Hm Hv) as (F & So & _ & Ex). split_and!; [exact F| | |].
  - assert (T : forall l, Forall slot_ok l -> Sorted before l -> StronglySorted before l).
    { clear. intros l F S. induction S as [|a l S IH H]; [constructor|]. apply Forall_cons in F as [Fa F]. specialize (IH F).
      constructor; [exact IH|]. destruct H as [|b l H]; [constructor|]. constructor; [exact H|].
      inversion IH as [|? ? _ Hb]; subst. apply Forall_cons in F as [Fb _]. apply (Forall_impl _ _ _ Hb). intros x. unfold before in *.
      destruct Fb. unfold slotStop in *. lia. }
    now apply T.
  - intros s I. apply list_elem_of_lookup in I as [k I]. apply (Ex (S k) s); [exact I|lia].
  - rewrite Forall_forall in Hm, F. apply Forall_forall. intros s I. destruct (Hm s I) as (A & B & C). destruct (F s I) as [P1 P2 P3 P4].
    unfold DurationHours. do 2 f_equal. unfold slotStop, int64 in *.
    rewrite (i64_id (LenMin s * 60000)) by (unfold int64; lia). rewrite (i64_id (StartMs s + _)) by (unfold int64; lia).
    apply i64_id. unfold int64. lia.
Qed.

Definition hourSlot (k : Z) : Slot :=
  mkPlanSlot (if k =? 0 then 1700000900000 else 0) (1700000000000 + k * 3600000) 60 (of_Z 100) (of_Z 50) (of_Z 0) (of_Z 500)
    (mkLimits (of_Z 0) (of_Z 0)).
Lemma accepted_timeline_well_formed_witness : StronglySorted before (hourSlot <$> [0; 1; 2]).
Proof.
  refine (proj1 (proj2 (accepted_timeline_well_formed (hourSlot <$> [0; 1; 2]) _ _))); [|reflexivity].
  repeat (apply Forall_cons_2; [unfold machine, int64; cbn; lia|]). apply Forall_nil_2.
Defined.

(** ** Lemmas: limits *)
Lemma flt_self x : flt x x = false.
Proof. destruct (flt x x) eqn:E; [|reflexivity]. apply flt_iff in E. lia. Qed.
(** The smaller of two numbers is above no bound that one of them keeps. *)
Lemma bmin_r_bound x y b : flt b y = false -> flt b (bmin x y) = false.
Proof.
  unfold bmin. destruct (isNaN x || isNaN y) eqn:N; [intros _; now destruct b as [|[]|]|]. intros H. apply orb_false_iff in N as [Nx Ny].
  destruct (flt x y) eqn:E; [|exact H]. destruct (flt b x) eqn:F; [|reflexivity]. exfalso.
  assert (flt b y = true); [|congruence]. apply flt_iff in E, F. apply flt_iff. lia.
Qed.

Lemma bmin_l_bound x y b : flt b x = false -> flt b (bmin x y) = false.
Proof.
  unfold bmin. destruct (isNaN x || isNaN y) eqn:N; [intros _; now destruct b as [|[]|]|]. intros H.
  destruct (flt x y) eqn:E; [exact H|]. apply orb_false_iff in N as [Nx Ny]. apply isNaN_false_iff in Nx, Ny.
  destruct (flt b y) eqn:F; [|reflexivity]. exfalso. assert (flt b x = true); [|congruence].
  apply flt_iff in F. apply flt_iff. assert (L : ~ (rank x <> 2 /\ rank y <> 2 /\ (rank x < rank y \/ rank x = rank y /\ val x < val y)))
    by (intros Q; apply flt_iff in Q; congruence). pose proof (rank_ok_all x). pose proof (rank_ok_all y). pose proof (rank_ok_all b).
  unfold rank_ok in *. lia.
Qed.
(** The smaller of two is not below a floor that both keep. *)
Lemma bmin_floor x y a : flt x a = false -> flt y a = false -> flt (bmin x y) a = false.
Proof. intros Hx Hy. unfold bmin. destruct (isNaN x || isNaN y); [now destruct a|]. now destruct (flt x y). Qed.
Lemma bmax_floor x y : flt (bmax x y) x = false.
Proof.
  unfold bmax. destruct (isNaN x || isNaN y); [reflexivity|]. destruct (flt y x) eqn:E; [apply flt_self|exact E].
Qed.

Definition houseFloor (s : Slot) (c : f64 * f64) : Prop := flt (fst c) (houseImportW s) = false.
Lemma capUnder_house h m r s c : houseFloor s c -> houseFloor s (capUnder h m r s c).
Proof.
  unfold houseFloor, capUnder. intros H. destruct (flt _ (importHourOverlapH s h)); [|exact H]. cbn [fst].
  apply bmin_floor; [exact H|apply bmax_floor].
Qed.
Lemma hourCaps_house slots m caps h : Forall2 houseFloor slots caps -> Forall2 houseFloor slots (hourCaps slots m caps h).
Proof.
  intros F. unfold hourCaps. destruct (fold_left _ slots _) as [spanH houseWh]. destruct (fle spanH _); [exact F|]. cbv zeta.
  set (mean := fdiv _ _). set (room := fdiv _ _). clearbody mean room. induction F as [|s c slots caps H F IH]; [constructor|].
  cbn [zip_with]. constructor; [now apply capUnder_house|exact IH].
Qed.

(** An hour's mean and room, as the code shares what is left of it. *)
Definition hourShare (slots : list Slot) (importMeanW : f64) (h : ImportHour) : f64 * f64 :=
  let '(spanH, houseWh) :=
    fold_left (fun acc s =>
        let ov := importHourOverlapH s h in
        if flt (of_Z 0) ov then (fadd (fst acc) ov, fadd (snd acc) (fmul (houseImportW s) ov)) else acc)
      slots (of_Z 0, of_Z 0) in
  (spanH, fdiv (bmax (of_Z 0) (importLeftWh h importMeanW)) spanH).
Definition carBelow (slots : list Slot) (m : f64) (h : ImportHour) (s : Slot) (c : f64 * f64) : Prop :=
  flt (of_Z 0) (importHourOverlapH s h) = true -> fle (fst (hourShare slots m h)) (of_Z 0) = false ->
  flt (snd (hourShare slots m h)) (snd c) = false.
Lemma capUnder_car slots m h h' mean room s c : carBelow slots m h s c -> carBelow slots m h s (capUnder h' mean room s c).
Proof.
  unfold carBelow, capUnder. intros H A B. specialize (H A B). destruct (flt _ (importHourOverlapH s h')); [|exact H].
  cbn [snd]. destruct (flt room _); [now destruct (snd (hourShare slots m h)) as [|[]|]|now apply bmin_l_bound].
Qed.
Lemma hourCaps_car slots m h caps h' : Forall2 (carBelow slots m h) slots caps \/ h = h' /\ length caps = length slots ->
  Forall2 (carBelow slots m h) slots (hourCaps slots m caps h').
Proof.
  intros F. unfold hourCaps. destruct (fold_left _ slots _) as [spanH houseWh] eqn:E. destruct (fle spanH _) eqn:Z.
  - destruct F as [F|[-> L]]; [exact F|]. apply Forall2_lookup. intros i.
    destruct (slots !! i) as [s|] eqn:Hs, (caps !! i) as [c|] eqn:Hc.
    + constructor. intros _ B. unfold hourShare in B. rewrite E in B. cbn [fst] in B. congruence.
    + apply lookup_lt_Some in Hs. apply lookup_ge_None in Hc. lia.
    + apply lookup_lt_Some in Hc. apply lookup_ge_None in Hs. lia.
    + constructor.
  - cbv zeta. destruct F as [F|[-> L]].
    + set (mean := fdiv _ _). set (room := fdiv _ _). clearbody mean room. clear E. revert F.
      generalize (carBelow slots m h) (capUnder_car slots m h h' mean room). intros P HP F.
      induction F as [|s c sl cs H F IH]; [constructor|]. cbn [zip_with]. constructor; [now apply HP|exact IH].
    + assert (M : snd (hourShare slots m h') = fdiv (bmax (of_Z 0) (importLeftWh h' m)) spanH)
        by (unfold hourShare; now rewrite E).
      set (mean := fdiv (bmax _ _) spanH) in *. set (room := fdiv (fsub _ _) _). clearbody room.
      assert (G : forall sl cs, length cs = length sl -> Forall2 (carBelow slots m h') sl (zip_with (capUnder h' mean room) sl cs)).
      { induction sl as [|s sl IH]; intros [|c cs] Q; try discriminate; [constructor|]. cbn [zip_with].
        constructor; [|apply IH; now injection Q]. intros A _. rewrite M. unfold capUnder. rewrite A. cbn [snd].
        destruct (flt room _); [now destruct mean as [|[]|]|]. apply bmin_r_bound, bmin_r_bound, flt_self. }
      now apply G.
Qed.

(** An hour's import budget, spread over its slots. Doing nothing stays
    feasible: the cap of a slot without a car is never under the house's own
    import. And a car is only ever allowed the even share: in every hour that
    plans time at all, its cap is at most what the hour has left over the time
    it plans, so no slot lets a car run ahead of the live limit. *)
Theorem import_caps_share_the_hour (slots : list Slot) (importMeanW : f64) (hours : list ImportHour) (caps : list (f64 * f64))
    (Hc : importHourCapsW slots importMeanW hours = Some caps) :
  Forall2 houseFloor slots caps /\
  forall h, h ∈ hours -> Forall2 (carBelow slots importMeanW h) slots caps.
Proof.
  destruct hours as [|h0 hours]; [discriminate|]. unfold importHourCapsW in Hc.
  assert (E : caps = fold_left (hourCaps slots importMeanW) (h0 :: hours) (replicate (length slots) (Inf false, Inf false)))
    by congruence. rewrite E. clear E Hc. set (hs := h0 :: hours). set (c0 := replicate _ _).
  assert (L0 : length c0 = length slots) by apply length_replicate. split.
  - assert (F0 : Forall2 houseFloor slots c0).
    { unfold c0. clear. induction slots as [|s slots IH]; constructor; [|exact IH].
      unfold houseFloor. cbn [fst]. now destruct (houseImportW s) as [|[]|]. }
    clearbody c0 hs. revert c0 F0 L0. induction hs as [|h hs IH]; intros c F L; [exact F|]. cbn [fold_left].
    apply IH; [now apply hourCaps_house|]. symmetry. exact (Forall2_length _ _ _ (hourCaps_house _ _ _ _ F)).
  - intros h I. clearbody c0 hs. revert c0 L0. induction I as [h hs|h h' hs I IH]; intros c L; cbn [fold_left].
    + assert (F : Forall2 (carBelow slots importMeanW h) slots (hourCaps slots importMeanW c h)) by (apply hourCaps_car; now right).
      clear L. revert F. generalize (hourCaps slots importMeanW c h). induction hs as [|h' hs IH]; intros c' F; [exact F|].
      cbn [fold_left]. apply IH, hourCaps_car. now left.
    + apply IH. unfold hourCaps. destruct (fold_left _ slots _) as [spanH houseWh]. destruct (fle spanH _); [exact L|].
      cbv zeta. rewrite length_zip_with. lia.
Qed.
Lemma import_caps_share_the_hour_witness :
  match importHourCapsW (hourSlot <$> [0; 1]) (of_Z 3000) [mkImportHour 1700000000000 1700003600000 (of_Z 1000)] with
  | Some caps => Forall2 houseFloor (hourSlot <$> [0; 1]) caps
  | None => False
  end.
Proof.
  destruct (importHourCapsW _ _ _) as [caps|] eqn:E; [|discriminate].
  exact (proj1 (import_caps_share_the_hour _ _ _ caps E)).
Defined.

(** Site limits on every slot: none is above the fuse, a tighter one stays,
    and clamping again changes nothing. *)
Lemma clamp_grid_limits (slots : list Slot) (fuseMaxW maxExportW : f64) (Hf : flt (of_Z 0) fuseMaxW = true) :
  let out := clampSlotGridLimits slots fuseMaxW maxExportW in
  Forall (fun s => flt fuseMaxW (MaxImportW (Limits s)) = false /\ flt fuseMaxW (lMaxExportW (Limits s)) = false) out /\
  clampSlotGridLimits out fuseMaxW maxExportW = out.
Proof.
  cbv zeta. unfold clampSlotGridLimits. destruct (fle fuseMaxW (of_Z 0)) eqn:Z.
  { exfalso. apply fle_iff in Z. exact (flt_le_contra _ _ Hf Z). }
  set (cap := if flt (of_Z 0) maxExportW && _ then _ else _).
  assert (Nf : rank fuseMaxW <> 2) by (apply flt_iff in Hf; lia).
  assert (C : flt fuseMaxW cap = false /\ rank cap <> 2).
  { unfold cap. destruct (flt (of_Z 0) maxExportW); cbn [andb]; [|split; [apply flt_self|exact Nf]].
    destruct (flt maxExportW fuseMaxW) eqn:E; [|split; [apply flt_self|exact Nf]].
    apply flt_iff in E. split; [apply le_flt_false; unfold le_rel; lia|lia]. }
  clearbody cap. assert (T : forall c x, flt fuseMaxW c = false /\ rank c <> 2 -> flt fuseMaxW (tighten c x) = false).
  { intros c x [Hc Nc]. unfold tighten. destruct (fle x _ || flt c x) eqn:E; [exact Hc|]. apply orb_false_iff in E as [_ E].
    destruct (flt fuseMaxW x) eqn:F; [|reflexivity]. exfalso. assert (flt c x = true); [|congruence].
    apply flt_iff in F. apply flt_iff. assert (L : ~ (rank fuseMaxW <> 2 /\ rank c <> 2 /\ (rank fuseMaxW < rank c \/
      rank fuseMaxW = rank c /\ val fuseMaxW < val c))) by (intros Q; apply flt_iff in Q; congruence).
    pose proof (rank_ok_all x). pose proof (rank_ok_all c). pose proof (rank_ok_all fuseMaxW). unfold rank_ok in *. lia. }
  assert (I : forall c x, tighten c (tighten c x) = tighten c x).
  { intros c x. unfold tighten at 2 3. destruct (fle x _ || flt c x) eqn:E; unfold tighten; [|now rewrite E].
    destruct (fle c _ || flt c c); reflexivity. }
  split.
  - apply Forall_fmap, Forall_true. intros s. cbn. split; apply T; [split; [apply flt_self|exact Nf]|exact C].
  - rewrite <- list_fmap_compose. apply list_fmap_ext. intros i s _. unfold compose, withLimits. cbn. now rewrite !I.
Qed.
