(* ===== verification/PlanData.v ===== *)
(** * Plans and their parameters (go/internal/mpc: mpc.go, loadpoint_spec.go,
    fleet_contract.go, charging_periods.go)

    What the planner, its checks and its fallbacks share: the parameters of a
    request, the charger's steps, the rules of a mode, and the plan with its
    actions and their reasons. *)
From Stdlib Require Import ZArith Lia.
From S2P Require Import Prelude Float64 GoTime Site PlanSlots.
From stdpp Require Import base gmap strings list.
#[local] Open Scope Z_scope.

(** ** Parameters *)
Definition PlannerMode : Type := string.
Definition ModeSelfConsumption : PlannerMode := "self_consumption".
Definition ModeCheapCharge : PlannerMode := "cheap_charge".
Definition ModePassiveArbitrage : PlannerMode := "passive_arbitrage".
Definition ModeArbitrage : PlannerMode := "arbitrage".
Definition isMode (m n : PlannerMode) : bool := bool_decide (m = n).

Record ChargingPeriods : Type := mkCharging {
  MinChargeSeconds : f64; StartCostOre : f64; InitialCharging : bool; InitialChargeSeconds : f64
}.
Record LoadpointSpec : Type := mkSpec {
  evCapacityWh : f64; Levels : Z; evSoCMin : f64; evSoCMax : f64; evInitialSoC : f64; PluggedIn : bool;
  TargetSoC : f64; TargetSlotIdx : Z; MinChargeW : f64; evMaxChargeW : f64; AllowedStepsW : list f64;
  evChargeEfficiency : f64; SurplusOnly : bool; NoBatteryToEV : bool; lpID : string; Charging : ChargingPeriods
}.
Record StorageAssetSpec : Type := mkStorage {
  stID : string; stCapacityWh : f64; InitialEnergyWh : f64; MinEnergyWh : f64; MaxEnergyWh : f64; stMaxChargeW : f64;
  stMaxDischargeW : f64; stChargeEfficiency : f64; stDischargeEfficiency : f64
}.

(** [None] is a nil pointer. The demand charges are left out: of the code
    modelled here only [priceReserveCharging] looks at them, to see whether
    there are any. *)
Record Params : Type := mkParams {
  pMode : PlannerMode; SoCLevels : Z; CapacityWh : f64; SoCMin : f64; SoCMax : f64; InitialSoC : f64;
  PVChargeBonusOreKwh : f64; ActionLevels : Z; MaxChargeW : f64; MaxDischargeW : f64;
  ChargeEfficiency : f64; DischargeEfficiency : f64; TerminalSoCPrice : f64; pricing : ExportPricing;
  MinArbitrageSpreadOreKwh : f64; Loadpoint : option LoadpointSpec; Loadpoints : list (option LoadpointSpec);
  Storages : list StorageAssetSpec; ImportMeanW : f64; ImportHours : list ImportHour; hasDemandCharges : bool;
  curtailment : PVCurtailment; InitialSoCUnclamped : f64; PVUncertaintyW : f64; PVRelativeUncertainty : f64; PVForecastSafetyK : f64
}.

Definition specActive (l : option LoadpointSpec) : bool :=
  match l with Some s => PluggedIn s && flt (of_Z 0) (evCapacityWh s) && (2 <=? Levels s) | None => false end.
Definition blocksBatteryToEV (s : LoadpointSpec) : bool := NoBatteryToEV s || SurplusOnly s.
Definition activeLoadpointSpecs (l : list (option LoadpointSpec)) : list LoadpointSpec :=
  omap (fun o => if specActive o then o else None) l.
Definition activeLoadpoints (p : Params) : list LoadpointSpec :=
  match activeLoadpointSpecs (Loadpoints p) with [] => activeLoadpointSpecs [Loadpoint p] | out => out end.

Definition requiresStorageMaps (p : Params) : bool :=
  (1 <? length (Storages p))%nat ||
  existsb (fun b => fne (stChargeEfficiency b) (ChargeEfficiency p) || fne (stDischargeEfficiency b) (DischargeEfficiency p))
    (Storages p).
Definition coreDPModelError (p : Params) : bool :=
  feq (CapacityWh p) (of_Z 0) || (1 <? length (Storages p))%nat || (1 <? length (activeLoadpoints p))%nat ||
  requiresStorageMaps p.

(** ** The charger's steps *)
Fixpoint insertFromRight (x : f64) (rev : list f64) : list f64 :=
  match rev with
  | [] => [x]
  | y :: rest => if flt x y then y :: insertFromRight x rest else x :: rev
  end.
Definition sortSteps (l : list f64) : list f64 := rev (fold_left (fun r x => insertFromRight x r) l []).

Definition keepStep (s : LoadpointSpec) (out : list f64) (w : f64) : list f64 :=
  if flt w (of_Z 0) || (flt (of_Z 0) w && flt w (MinChargeW s)) then out
  else if flt (of_Z 0) (evMaxChargeW s) && flt (evMaxChargeW s) w then out
  else if existsb (feq w) out then out
  else out ++ [w].
Definition normalizedSteps (s : LoadpointSpec) : list f64 :=
  match AllowedStepsW s with
  | [] =>
      if fle (evMaxChargeW s) (of_Z 0) then [of_Z 0]
      else if flt (of_Z 0) (MinChargeW s) && flt (MinChargeW s) (evMaxChargeW s)
      then [of_Z 0; MinChargeW s; evMaxChargeW s]
      else [of_Z 0; evMaxChargeW s]
  | steps => sortSteps (fold_left (keepStep s) steps [of_Z 0])
  end.

Definition deadlineSlot (s : LoadpointSpec) (n : Z) : Z :=
  if fle (TargetSoC s) (of_Z 0) || (TargetSlotIdx s <? 0) || (n <=? 0) then -1 else Z.min (TargetSlotIdx s) (n - 1).

(** ** Rules of a mode *)
Definition modeAllows (m : PlannerMode) (baselineGridW gridW actW : f64) : bool :=
  let eps := lit 1 1000000 in
  let tol := of_Z 50 in
  if isMode m ModeSelfConsumption then
    if flt eps baselineGridW then fle (fneg tol) gridW && fle gridW (fadd baselineGridW tol)
    else if flt baselineGridW (fneg eps) then fle gridW tol && fle (fsub baselineGridW tol) gridW
    else flt (fabs actW) tol
  else if isMode m ModeCheapCharge || isMode m ModePassiveArbitrage then
    let minGrid := if flt baselineGridW (of_Z 0) then baselineGridW else of_Z 0 in
    fle (fsub minGrid (lit 1 10)) gridW
  else true.

Definition strictSCBiasOre (effPriceOre houseImportKWh : f64) : f64 :=
  fmul (fmul (of_Z 2) (if flt effPriceOre (of_Z 0) then of_Z 0 else effPriceOre)) houseImportKWh.

(** Go's order on float64 puts NaN first. *)
Definition floatLess (x y : f64) : bool := flt x y || isNaN x && negb (isNaN y).
Fixpoint insertFloat (x : f64) (l : list f64) : list f64 :=
  match l with [] => [x] | y :: r => if floatLess y x then y :: insertFloat x r else x :: l end.
(** [sort.Float64s]: floats that compare equal are the same value here. *)
Definition sortFloats (l : list f64) : list f64 := foldr insertFloat [] l.

(** ** Plans *)
(** An action repeats its slot's price and forecast; the limits of [aSlot] are
    not part of it. The maps go by storage and charger. *)
Record Action : Type := mkAction {
  aSlot : Slot; BatteryW : f64; aGridW : f64; SoC : f64; CostOre : f64; Reason : string; PVLimitW : f64;
  LoadpointW : f64; LoadpointSoC : f64; PVCurtailActive : bool; StoragePowerW : gmap string f64; StorageEnergyWh : gmap string f64;
  LoadpointPowerW : gmap string f64; LoadpointMaxPowerW : gmap string f64; LoadpointSoCByID : gmap string f64
}.
Record Plan : Type := mkPlan {
  plMode : PlannerMode; HorizonSlots : nat; plCapacityWh : f64; plInitialSoC : f64; TotalCostOre : f64; Actions : list Action;
  LoadpointShortfallWh : gmap string f64
}.

Definition kWh (w dtH : f64) : f64 := fdiv (fmul w dtH) (of_Z 1000).

Definition reasonFor (s : Slot) (batteryW gridW meanPrice : f64) : string :=
  let baseline := fadd (LoadW s) (PVW s) in
  let charging := flt (of_Z 100) batteryW in
  let discharging := flt batteryW (of_Z (-100)) in
  let gridExports := flt gridW (of_Z (-100)) in
  let gridImports := flt (of_Z 100) gridW in
  let priceAbove := flt (fmul meanPrice (lit 11 10)) (PriceOre s) in
  let priceBelow := flt (PriceOre s) (fmul meanPrice (lit 9 10)) in
  if charging && flt baseline (of_Z (-100)) && negb gridImports then "absorb PV surplus"
  else if charging && gridImports && priceBelow then "charge from cheap grid"
  else if charging && gridImports then "charge — import"
  else if charging then "charge"
  else if discharging && gridExports && priceAbove then "discharge — export at peak"
  else if discharging && gridExports then "discharge — export"
  else if discharging && priceAbove then "discharge — price above horizon mean"
  else if discharging && flt (of_Z 100) baseline then "discharge — cover local load"
  else if discharging then "discharge"
  else if gridImports then "idle — import to cover load"
  else if gridExports then "idle — export PV surplus"
  else "idle".

(** ** Lemmas *)
Lemma insertFloat_perm x l : insertFloat x l ≡ₚ x :: l.
Proof. induction l as [|y l IH]; [done|]. cbn. destruct (floatLess y x); [rewrite IH; apply Permutation_swap|done]. Qed.
Lemma sortFloats_perm l : sortFloats l ≡ₚ l.
Proof. induction l as [|x l IH]; [done|]. cbn. now rewrite insertFloat_perm, IH. Qed.

(** The charger's first step is off. *)
Definition notBelow (w : f64) : Prop := flt w (of_Z 0) = false.
Lemma keepStep_notBelow s out w : Forall notBelow out -> Forall notBelow (keepStep s out w).
Proof.
  intros F. unfold keepStep. destruct (flt w (of_Z 0)) eqn:E; cbn [orb]; [exact F|]. destruct (_ && _); [exact F|].
  destruct (_ && _); [exact F|]. destruct (existsb _ _); [exact F|]. apply Forall_app. split; [exact F|]. now apply Forall_singleton.
Qed.
Lemma keepSteps_zero s l : forall out, Forall notBelow out -> exists r, fold_left (keepStep s) l (of_Z 0 :: out) = of_Z 0 :: r /\ Forall notBelow r.
Proof.
  induction l as [|w l IH]; intros out F; [now exists out|]. cbn [fold_left].
  assert (E : exists r, keepStep s (of_Z 0 :: out) w = of_Z 0 :: r /\ Forall notBelow r).
  { pose proof (keepStep_notBelow s (of_Z 0 :: out) w) as K. unfold keepStep in *.
    destruct (_ || _); [now exists out|]. destruct (_ && _); [now exists out|]. destruct (existsb _ _); [now exists out|].
    exists (out ++ [w]). split; [reflexivity|]. apply Forall_inv_tail in K; [exact K|]. now constructor; [vm_compute|]. }
  destruct E as (r & -> & Fr). now apply IH.
Qed.
Lemma insertFromRight_last x l : notBelow x -> exists r, insertFromRight x (l ++ [of_Z 0]) = r ++ [of_Z 0].
Proof.
  intros N. induction l as [|y l [r IH]]; cbn.
  - unfold notBelow in N. rewrite N. now exists [x].
  - destruct (flt x y); [|now exists (x :: y :: l)]. rewrite IH. now exists (y :: r).
Qed.
Lemma sortSteps_zero l : Forall notBelow l -> exists r, sortSteps (of_Z 0 :: l) = of_Z 0 :: r.
Proof.
  intros F. unfold sortSteps. cbn [fold_left insertFromRight].
  assert (E : forall a, exists r, fold_left (fun r x => insertFromRight x r) l (a ++ [of_Z 0]) = r ++ [of_Z 0]).
  { induction F as [|x l N F IH]; intros a; cbn [fold_left]; [now exists a|].
    destruct (insertFromRight_last x a N) as [r ->]. apply IH. }
  destruct (E []) as [r Er]. cbn [app] in Er. rewrite Er, rev_app_distr. now exists (rev r).
Qed.
Lemma steps_start_off s : exists r, normalizedSteps s = of_Z 0 :: r.
Proof.
  unfold normalizedSteps. destruct (AllowedStepsW s) as [|w l].
  - destruct (fle _ _); [now eexists|]. destruct (_ && _); now eexists.
  - destruct (keepSteps_zero s (w :: l) [] (Forall_nil_2 _)) as (r & -> & F). now apply sortSteps_zero.
Qed.

