(* ===== verification/PlanDirective.v ===== *)
(** * From the published plan to this slot's orders (go/internal/mpc: service.go,
      deadline_directive.go, loadpoint_directive.go; control/slot_directive.go)

    Which plan dispatch may use, the directive of the slot that holds now, the
    reserve that keeps the saved goals of cars when there is no plan for them,
    and the slices of it the batteries and the chargers get. A published plan is
    paired with its decision, its time and the live-surplus caps of its actions.
    [LoadpointStates], the planning limits and the curtailment check are
    arguments; so are the wall clock and the site's clock. *)
From Stdlib Require Import ZArith Lia.
From stdpp Require Import base gmap strings list.
From S2P Require Import Prelude Float64 GoTime Site PlanSlots PlanData PVCurtail SurplusReserve ChargeSteps LoadpointData.
#[local] Open Scope Z_scope.

Definition MaxPlanAge : Duration := 30 * Minute.
Record Published : Type := mkPublished { pbPlan : Plan; pbDecisionID : string; pbGeneratedAtMs : Z; pbCaps : list f64 }.
(** [mpc.SlotDirective]. *)
Record PlanDirective : Type := mkPlanDirective {
  pdPriceSlotStart : Time; pdDecisionID : string; pdSlotStart : Time; pdSlotEnd : Time; pdBatteryEnergyWh : f64;
  pdStorageEnergyWh : gmap string f64; pdSoCTarget : f64; pdStrategy : string; pdPVLimitW : f64; pdPVCurtailActive : bool;
  pdPVCurtailment : PVCurtailment; pdGridW : f64; pdLivePVSurplusSoCCap : f64; pdEnergyWh : gmap string f64;
  pdMaxPowerW : gmap string f64; pdFallback : gmap string bool; pdEVOnly : bool; pdLoadpointSoC : gmap string f64
}.
Definition noDirective : PlanDirective :=
  mkPlanDirective zeroTime "" zeroTime zeroTime (of_Z 0) ∅ (of_Z 0) "" (of_Z 0) false noCurtailment (of_Z 0) (of_Z 0) ∅ ∅ ∅ false ∅.
Definition actionEndMs (a : Action) : Z := i64 (StartMs (aSlot a) + i64 (LenMin (aSlot a) * 60000)).

(** ** The live-surplus cap of an action *)
Definition efficiencyOr95 (e : f64) : f64 := if negb (finite e) || fle e (of_Z 0) || flt (of_Z 1) e then lit 95 100 else e.
Definition replaceableWh (exportOre minSpread chargeEfficiency : f64) (wh : f64) (a : Action) : f64 :=
  let gridFundedChargeW := fmin (BatteryW a) (aGridW a) in
  if fle gridFundedChargeW IdleGateThresholdW || negb (finite (PriceOre (aSlot a))) ||
     fle (PriceOre (aSlot a)) (fadd exportOre minSpread) || (LenMin (aSlot a) <=? 0)
  then wh else fadd wh (fmul (fmul gridFundedChargeW (DurationHours (aSlot a))) chargeEfficiency).
Definition livePVSurplusSoCCap (actions : list Action) (current : nat) (p : Params) : f64 :=
  match actions !! current with
  | None => of_Z 0
  | Some cur =>
      if flt (BatteryW cur) (fneg IdleGateThresholdW) || negb (finite (SpotOre (aSlot cur))) || negb (finite (SoC cur)) ||
         fle (SoC cur) (of_Z 0) || negb (finite (CapacityWh p)) || fle (CapacityWh p) (of_Z 0)
      then of_Z 0
      else
        let exportOre := ExportPriceOre (SpotOre (aSlot cur)) (pricing p) in
        if negb (finite exportOre) then of_Z 0
        else
          let spread := MinArbitrageSpreadOreKwh p in
          let minSpread := if negb (finite spread) || flt spread (of_Z 0) then of_Z 0 else spread in
          let stored :=
            fold_left (replaceableWh exportOre minSpread (efficiencyOr95 (ChargeEfficiency p))) (drop (S current) actions) (of_Z 0) in
          if fle stored (of_Z 0) then of_Z 0
          else
            let cap := fadd (SoC cur) (fdiv stored (CapacityWh p)) in
            let cap := if flt (of_Z 0) (SoCMax p) && flt (SoCMax p) cap then SoCMax p else cap in
            if flt (of_Z 1) cap then of_Z 1 else cap
  end.
Definition livePVSurplusSoCCaps (actions : list Action) (p : Params) : list f64 :=
  map (fun i => livePVSurplusSoCCap actions i p) (seq 0 (length actions)).

(** ** The plan dispatch may use *)
Definition carriesContract (a : Action) : bool :=
  negb (bool_decide (StoragePowerW a = ∅)) || negb (bool_decide (LoadpointPowerW a = ∅)) || PlanData.PVCurtailActive a.
Definition planExecutionAllowed (allowed : option (PVCurtailment -> bool)) (plan : option Published) (p : PVCurtailment)
    (currentContract : bool) : bool :=
  let actions := match plan with Some plan => Actions (pbPlan plan) | None => [] end in
  if negb currentContract && existsb carriesContract actions then false
  else if negb (curtailmentValid p) && existsb PlanData.PVCurtailActive actions then false
  else if feq (proofMinW p) (of_Z 0) && String.eqb (Proof p) "" then true
  else curtailmentValid p && match allowed with Some f => f p | None => false end.
(** What the service holds of its plan, under its lock. *)
Record PlanState : Type := mkPlanState {
  psLast : option Published; psCurrentContract : bool; psLatest : Z; psPublished : Z; psFailed : Z;
  psParams : Params; psDefaults : Params; psLoadpointID : string
}.
Definition directiveParams (s : PlanState) : Params := if String.eqb (pMode (psParams s)) "" then psDefaults s else psParams s.
Definition usablePlan (allowed : option (PVCurtailment -> bool)) (wall : Time) (s : PlanState) : option Published :=
  match psLast s with
  | None => None
  | Some p =>
      if (psPublished s <? psFailed s) || negb (planExecutionAllowed allowed (psLast s) (curtailment (directiveParams s)) (psCurrentContract s))
      then None
      else if MaxPlanAge <? Sub wall (of_UnixMilli (pbGeneratedAtMs p)) then None
      else Some p
  end.
Definition covers (nowMs : Z) (a : Action) : bool := negb (nowMs <? ExecutionStart (aSlot a)) && negb (actionEndMs a <=? nowMs).
(** The action of the slot that holds [now], and its cap. *)
Definition actionAt (p : Published) (now : Time) : option (Action * f64) :=
  match list_find (fun a => covers (UnixMilli now) a = true) (Actions (pbPlan p)) with
  | Some (i, a) => Some (a, default (of_Z 0) (pbCaps p !! i))
  | None => None
  end.

(** ** The directive of an action *)
Definition directiveOf (p : Published) (params : Params) (lpID : string) (a : Action) (cap : f64) : PlanDirective :=
  let hours := DurationHours (aSlot a) in
  let storages :=
    if negb (bool_decide (Storages params = [])) then (fun w => fmul w hours) <$> StoragePowerW a else ∅ in
  let '(energy, maxPower, soc) :=
    if negb (bool_decide (LoadpointPowerW a = ∅)) then
      ((fun w => fmul w hours) <$> LoadpointPowerW a, PlanData.LoadpointMaxPowerW a,
       map_imap (fun id _ => Some (default (of_Z 0) (LoadpointSoCByID a !! id))) (LoadpointPowerW a))
    else if negb (String.eqb lpID "") then ({[lpID := fmul (LoadpointW a) hours]}, ∅, {[lpID := LoadpointSoC a]})
    else (∅, ∅, ∅) in
  mkPlanDirective (of_UnixMilli (StartMs (aSlot a))) (pbDecisionID p) (of_UnixMilli (ExecutionStart (aSlot a)))
    (of_UnixMilli (actionEndMs a)) (fmul (BatteryW a) hours) storages (SoC a) (pMode params) (PlanData.PVLimitW a) (PlanData.PVCurtailActive a)
    (curtailment params) (aGridW a) cap energy maxPower ∅ false soc.

(** ** The reserve for saved goals *)
Definition deadlineReserveMargin : Duration := Hour.
(** A charger's state and the power an owner asked for by hand. *)
Definition HeldState : Type := LPState * f64.
Definition withReserve (id : string) (energy power : f64) (d : PlanDirective) : PlanDirective :=
  mkPlanDirective (pdPriceSlotStart d) (pdDecisionID d) (pdSlotStart d) (pdSlotEnd d) (pdBatteryEnergyWh d) (pdStorageEnergyWh d)
    (pdSoCTarget d) (pdStrategy d) (pdPVLimitW d) (pdPVCurtailActive d) (pdPVCurtailment d) (pdGridW d) (pdLivePVSurplusSoCCap d)
    (<[id := energy]> (pdEnergyWh d)) (<[id := power]> (pdMaxPowerW d)) (<[id := true]> (pdFallback d)) (pdEVOnly d) (pdLoadpointSoC d).
(** What holds without an accepted plan: nothing but the cars, for a minute. *)
Definition evOnlyDirective (now : Time) : PlanDirective :=
  mkPlanDirective zeroTime "" now (GoTime.Add now Minute) (of_Z 0) ∅ (of_Z 0) "" (of_Z 0) false noCurtailment (of_Z 0) (of_Z 0) ∅ ∅ ∅ true ∅.
Section Reserve.
Variable limits : LPState -> f64 * f64 * list f64.
Variable now : Time.
(** A saved goal's deadline and its hours at full power. *)
Definition goalOf (x : HeldState) : option (Time * f64) :=
  let st := fst x in
  if String.eqb (lpID st) "" || lpManualActive st || lpSurplusOnly st then None
  else
    let '(minW, maxW, steps) := limits st in
    let '(need, peak, ok) := DeadlineNeed st minW maxW steps in
    if ok then Some (lpTargetTime st, fdiv need peak) else None.
Definition hoursDue (goals : list (Time * f64)) (target : Time) : f64 :=
  fold_left (fun h g => if negb (After (fst g) target) then fadd h (snd g) else h) goals (of_Z 0).
Definition latestStart (goals : list (Time * f64)) (st : LPState) : Time :=
  let margin := if lpCommandedKnown st && flt (of_Z 0) (lpCommandedW st) then 2 * deadlineReserveMargin else deadlineReserveMargin in
  let hours := int_of (fmul (hoursDue goals (lpTargetTime st)) (of_Z Hour)) in
  GoTime.Add (GoTime.Add (lpTargetTime st) (wrap64 (- hours))) (- margin).
(** The energy and power a charger is reserved; [None] leaves the plan's. *)
Definition reserveOf (goals : list (Time * f64)) (d : PlanDirective) (x : HeldState) : option (f64 * f64) :=
  let '(st, manualW) := x in
  let hours := Hours (Sub (pdSlotEnd d) now) in
  if bool_decide (is_Some (pdEnergyWh d !! lpID st)) && negb (lpManualActive st) then None
  else
    let '(minW, maxW, steps) := limits st in
    let '(need, peak, ok) := DeadlineNeed st minW maxW steps in
    let '(need, peak, ok) :=
      if lpManualActive st && lpPluggedIn st then
        let peak :=
          if finite manualW && flt (of_Z 0) manualW && finite (lpMaxChargeW st) && flt (of_Z 0) (lpMaxChargeW st)
          then bmin manualW (lpMaxChargeW st) else of_Z 0 in
        (fmul peak hours, peak, true)
      else (need, peak, ok) in
    if negb ok || String.eqb (lpID st) "" || (lpSurplusOnly st && negb (lpManualActive st)) then None
    else if lpManualActive st then Some (bmin need (fmul peak hours), peak)
    else if Before now (latestStart goals st) then None
    else
      let steps := match lpSteps st with [] => [] | _ => steps end in
      let peak := SnapChargeW (fdiv need hours) minW peak steps in
      Some (bmin need (fmul peak hours), peak).
Definition reserveStep (goals : list (Time * f64)) (d : PlanDirective) (x : HeldState) : PlanDirective :=
  match reserveOf goals d x with Some (energy, power) => withReserve (lpID (fst x)) energy power d | None => d end.
Definition withDeadlineReserve (states : option (list HeldState)) (d : option PlanDirective) : option PlanDirective :=
  match states with
  | None => d
  | Some states =>
      let reserved := fold_left (reserveStep (omap goalOf states)) states (default (evOnlyDirective now) d) in
      if bool_decide (is_Some d) || negb (bool_decide (pdFallback reserved = ∅)) then Some reserved else None
  end.
End Reserve.

Section Service.
Variable allowed : option (PVCurtailment -> bool).
Variable limits : LPState -> f64 * f64 * list f64.
Definition plannedDirective (wall now : Time) (s : PlanState) : option PlanDirective :=
  match usablePlan allowed wall s with
  | Some p => match actionAt p now with Some (a, cap) => Some (directiveOf p (directiveParams s) (psLoadpointID s) a cap) | None => None end
  | None => None
  end.
Definition SlotDirectiveAt (wall now : Time) (states : option (list HeldState)) (s : PlanState) : option PlanDirective :=
  withDeadlineReserve limits now states (plannedDirective wall now s).

(** [SlotAt], of the older grid-target path: mode, grid target, decision. *)
Definition actionToSlot (a : Action) (m : PlannerMode) : string * f64 :=
  if isMode m ModeCheapCharge || isMode m ModePassiveArbitrage then
    (if flt (of_Z 100) (BatteryW a) then "charge"%string else "self_consumption"%string, of_Z 0)
  else if isMode m ModeArbitrage then
    if flt (of_Z 100) (BatteryW a) then ("charge"%string, of_Z 0)
    else if flt (BatteryW a) (of_Z (-100)) then ("self_consumption"%string, aGridW a)
    else ("self_consumption"%string, of_Z 0)
  else ("self_consumption"%string, of_Z 0).
Definition SlotAt (wall now : Time) (s : PlanState) : option (string * f64 * string) :=
  match usablePlan allowed wall s with
  | Some p =>
      match actionAt p now with
      | Some (a, _) => let '(mode, gridW) := actionToSlot a (pMode (directiveParams s)) in Some (mode, gridW, pbDecisionID p)
      | None => None
      end
  | None => None
  end.
(** [InstallPlan]: [psLatest] is also what a publishing solve has. *)
Definition InstallPlan (plan : Plan) (decisionID : string) (generatedAtMs : Z) (params : Params) (lpID : string) (s : PlanState) : PlanState :=
  let used := if String.eqb (pMode params) "" then psDefaults s else params in
  mkPlanState (Some (mkPublished plan decisionID generatedAtMs (livePVSurplusSoCCaps (Actions plan) used))) true (psLatest s) (psLatest s)
    (psFailed s) params (psDefaults s) lpID.

(** ** What a plan reader sees *)
Record PlanWindow : Type := mkPlanWindow { pwStart : Time; pwEnd : Time; pwEnergyWh : f64 }.
Definition loadpointPower (id legacyID : string) (a : Action) : f64 :=
  if negb (bool_decide (LoadpointPowerW a = ∅)) then default (of_Z 0) (LoadpointPowerW a !! id)
  else if String.eqb id legacyID then LoadpointW a else of_Z 0.
Definition windowStep (id legacyID : string) (nowMs : Z) (mx : nat) (acc : list PlanWindow * f64) (a : Action) : list PlanWindow * f64 :=
  let '(windows, total) := acc in
  let endMs := actionEndMs a in
  let powerW := loadpointPower id legacyID a in
  if (endMs <=? nowMs) || fle powerW (of_Z 0) then acc
  else
    let startMs := ExecutionStart (aSlot a) in
    let wh := fdiv (fmul powerW (of_Z (i64 (endMs - startMs)))) (of_Z 3600000) in
    let start := of_UnixMilli startMs in
    let stop := of_UnixMilli endMs in
    match last windows with
    | Some w =>
        if Equal (pwEnd w) start
        then (take (length windows - 1) windows ++ [mkPlanWindow (pwStart w) stop (fadd (pwEnergyWh w) wh)], fadd total wh)
        else if (0 <? mx)%nat && (length windows =? mx)%nat then (windows, fadd total wh)
        else (windows ++ [mkPlanWindow start stop wh], fadd total wh)
    | None => ([mkPlanWindow start stop wh], fadd total wh)
    end.
Definition PlanOutdated (s : PlanState) : bool :=
  negb (psPublished s =? psLatest s) ||
  negb (planExecutionAllowed allowed (psLast s) (curtailment (psParams s)) (psCurrentContract s)).
Definition LoadpointPlanWindows (id : string) (wall now : Time) (mx : nat) (s : PlanState) : list PlanWindow * f64 :=
  match psLast s with
  | Some p =>
      if PlanOutdated s || String.eqb id "" || (MaxPlanAge <? Sub wall (of_UnixMilli (pbGeneratedAtMs p))) then ([], of_Z 0)
      else fold_left (windowStep id (psLoadpointID s) (UnixMilli now) mx) (Actions (pbPlan p)) ([], of_Z 0)
  | None => ([], of_Z 0)
  end.
End Service.

(** ** The slices of a directive *)
Definition SlotDirectiveFromMPC (d : PlanDirective) : SlotDirective :=
  mkSlot (pdPriceSlotStart d) (pdDecisionID d) (pdSlotStart d) (pdSlotEnd d) (pdBatteryEnergyWh d) (pdStorageEnergyWh d) (pdSoCTarget d)
    (pdStrategy d) (pdPVLimitW d) (pdPVCurtailActive d) (pdPVCurtailment d) (pdGridW d) true (pdLivePVSurplusSoCCap d) (pdEnergyWh d)
    (pdMaxPowerW d) (pdEVOnly d).
Definition LoadpointDirective (d : PlanDirective) : Directive :=
  mkDirective (pdSlotStart d) (pdSlotEnd d) (pdEnergyWh d) (pdMaxPowerW d) (pdFallback d).
Definition PlannedSurplusForEVW (loadW pvW batteryW gridW : f64) : f64 :=
  fsub (fsub (fneg pvW) loadW) (PlannedPVSoakW batteryW gridW).
Fixpoint peakSurplus (actions : list Action) (now horizon : Time) (best : option f64) : option f64 :=
  match actions with
  | [] => best
  | a :: rest =>
      let s := aSlot a in
      if Before (GoTime.Add (of_UnixMilli (StartMs s)) (i64 (LenMin s * Minute))) now then peakSurplus rest now horizon best
      else if After (of_UnixMilli (StartMs s)) horizon then best
      else
        let surplus := PlannedSurplusForEVW (LoadW s) (PVW s) (BatteryW a) (fsub (aGridW a) (LoadpointW a)) in
        peakSurplus rest now horizon
          match best with Some b => if flt b surplus then Some surplus else best | None => Some surplus end
  end.
Definition PeakPlannedSurplusForEV (actions : list Action) (now : Time) (window : Duration) : option f64 :=
  peakSurplus actions now (GoTime.Add now window) None.

(** ** Lemmas *)
(** A directive without what the reserve adds. *)
Definition orders (d : PlanDirective) : PlanDirective :=
  mkPlanDirective (pdPriceSlotStart d) (pdDecisionID d) (pdSlotStart d) (pdSlotEnd d) (pdBatteryEnergyWh d) (pdStorageEnergyWh d)
    (pdSoCTarget d) (pdStrategy d) (pdPVLimitW d) (pdPVCurtailActive d) (pdPVCurtailment d) (pdGridW d) (pdLivePVSurplusSoCCap d)
    ∅ ∅ ∅ (pdEVOnly d) (pdLoadpointSoC d).
(** What a reserved charger is owed: it is there, wants to charge, and gets no
    more than its power gives in the time left. *)
Definition owed (now : Time) (d : PlanDirective) (id : string) (x : HeldState) : Prop :=
  lpID (fst x) = id /\ id <> ""%string /\ lpPluggedIn (fst x) = true /\ (lpManualActive (fst x) || negb (lpSurplusOnly (fst x))) = true.
Definition withinPower (now : Time) (d : PlanDirective) (id : string) : Prop :=
  exists energy power, pdEnergyWh d !! id = Some energy /\ pdMaxPowerW d !! id = Some power /\
    flt (fmul power (Hours (Sub (pdSlotEnd d) now))) energy = false.
Lemma bmin_not_above x y : flt y (bmin x y) = false.
Proof. apply bmin_r_bound. apply flt_irrefl. Qed.
Lemma DeadlineNeed_plugged st minW maxW steps : snd (DeadlineNeed st minW maxW steps) = true -> lpPluggedIn st = true.
Proof. unfold DeadlineNeed. destruct (lpPluggedIn st); [reflexivity|discriminate]. Qed.

Section ReserveLemmas.
Context (limits : LPState -> f64 * f64 * list f64) (now : Time) (goals : list (Time * f64)).
Lemma reserveOf_sound d x energy power : reserveOf limits now goals d x = Some (energy, power) ->
  owed now d (lpID (fst x)) x /\ flt (fmul power (Hours (Sub (pdSlotEnd d) now))) energy = false.
Proof.
  destruct x as [st manualW]. unfold reserveOf, owed. cbn [fst]. destruct (_ && negb (lpManualActive st)); [discriminate|].
  destruct (limits st) as [[minW maxW] steps]. destruct (DeadlineNeed st minW maxW steps) as [[need peak] ok] eqn:N.
  pose proof (DeadlineNeed_plugged st minW maxW steps) as P. rewrite N in P. cbn [snd] in P.
  set (y := if lpManualActive st && lpPluggedIn st then _ else _).
  assert (Y : snd y = true -> lpPluggedIn st = true).
  { unfold y. destruct (lpManualActive st); cbn [andb]; [|exact P]. destruct (lpPluggedIn st) eqn:E; [reflexivity|exact P]. }
  clearbody y. destruct y as [[need' peak'] ok']. cbn [snd] in Y. destruct ok'; [|discriminate]. cbn [negb orb].
  destruct (String.eqb_spec (lpID st) ""); [discriminate|]. cbn [orb]. intros E.
  assert (S : lpManualActive st || negb (lpSurplusOnly st) = true)
    by (destruct (lpSurplusOnly st), (lpManualActive st); cbn in *; congruence).
  split; [auto|]. destruct (lpSurplusOnly st && negb (lpManualActive st)); [discriminate E|]. destruct (lpManualActive st).
  - injection E as <- <-. apply bmin_not_above.
  - destruct (Before now _); [discriminate E|]. cbv zeta in E. injection E as <- <-. apply bmin_not_above.
Qed.
(** After some states were looked at. *)
Record reserved (states : list HeldState) (d0 d : PlanDirective) : Prop := mkReserved {
  rvOrders : orders d = orders d0;
  rvTrue : forall id b, pdFallback d !! id = Some b -> exists x, x ∈ states /\ owed now d0 id x;
  rvPower : forall id b, pdFallback d !! id = Some b -> withinPower now d id;
  rvPlan : forall id, pdFallback d !! id = None -> pdEnergyWh d !! id = pdEnergyWh d0 !! id /\ pdMaxPowerW d !! id = pdMaxPowerW d0 !! id
}.
Lemma reserveStep_ok seen d0 d x : reserved seen d0 d -> reserved (seen ++ [x]) d0 (reserveStep limits now goals d x).
Proof.
  intros [O T P N]. assert (T' : forall id b, pdFallback d !! id = Some b -> exists y, y ∈ seen ++ [x] /\ owed now d0 id y).
  { intros id b E. destruct (T id b E) as (y & I & W). exists y. split; [apply elem_of_app; now left|exact W]. }
  unfold reserveStep. destruct (reserveOf limits now goals d x) as [[energy power]|] eqn:E; [|now constructor].
  destruct (reserveOf_sound _ _ _ _ E) as [W B]. set (id0 := lpID (fst x)) in *. constructor.
  - rewrite <- O. reflexivity.
  - intros id b F. cbn [withReserve pdFallback] in F. destruct (decide (id0 = id)) as [<-|Ne].
    + exists x. split; [apply elem_of_app; right; now apply list_elem_of_singleton|exact W].
    + rewrite lookup_insert_ne in F by exact Ne. exact (T' id b F).
  - intros id b F. cbn [withReserve pdFallback] in F. destruct (decide (id0 = id)) as [<-|Ne].
    + exists energy, power. cbn [withReserve pdEnergyWh pdMaxPowerW pdSlotEnd]. rewrite !lookup_insert_eq. auto.
    + rewrite lookup_insert_ne in F by exact Ne. destruct (P id b F) as (e & w & H1 & H2 & H3). exists e, w.
      cbn [withReserve pdEnergyWh pdMaxPowerW pdSlotEnd]. rewrite !lookup_insert_ne by exact Ne. auto.
  - intros id F. cbn [withReserve pdFallback] in F. destruct (decide (id0 = id)) as [<-|Ne]; [rewrite lookup_insert_eq in F; discriminate F|].
    rewrite lookup_insert_ne in F by exact Ne. cbn [withReserve pdEnergyWh pdMaxPowerW]. rewrite !lookup_insert_ne by exact Ne. exact (N id F).
Qed.
Lemma reserve_ok d0 states : pdFallback d0 = ∅ -> reserved states d0 (fold_left (reserveStep limits now goals) states d0).
Proof.
  intros F. change states with ([] ++ states) at 1. assert (R : reserved [] d0 d0).
  { constructor; [reflexivity| | |auto]; intros id b E; rewrite F, lookup_empty in E; discriminate E. }
  revert R. generalize (@nil HeldState). revert d0 F. intros d0 F. assert (G : forall d seen, reserved seen d0 d ->
    reserved (seen ++ states) d0 (fold_left (reserveStep limits now goals) states d)).
  { induction states as [|x states IH]; intros d seen R; cbn [fold_left]; [now rewrite app_nil_r|].
    rewrite cons_middle, app_assoc. apply IH. now apply reserveStep_ok. }
  intros seen R. now apply G.
Qed.
End ReserveLemmas.

Lemma usablePlan_sound allowed wall s p : usablePlan allowed wall s = Some p ->
  psLast s = Some p /\ psFailed s <= psPublished s /\ Sub wall (of_UnixMilli (pbGeneratedAtMs p)) <= MaxPlanAge /\
  planExecutionAllowed allowed (Some p) (curtailment (directiveParams s)) (psCurrentContract s) = true.
Proof.
  unfold usablePlan. destruct (psLast s) as [q|]; [|discriminate].
  destruct (psPublished s <? psFailed s) eqn:F; [discriminate|]. cbn [orb].
  destruct (planExecutionAllowed _ _ _ _) eqn:X; [|discriminate]. cbn [negb].
  destruct (MaxPlanAge <? _) eqn:A; [discriminate|]. intros E. injection E as <-. apply Z.ltb_ge in F, A. auto.
Qed.
Lemma actionAt_sound p now a cap : actionAt p now = Some (a, cap) -> a ∈ Actions (pbPlan p) /\ covers (UnixMilli now) a = true.
Proof.
  unfold actionAt. destruct (list_find _ _) as [[i b]|] eqn:E; [|discriminate]. intros H. injection H as <- _.
  apply list_find_Some in E as (L & C & _). split; [exact (list_elem_of_lookup_2 _ _ _ L)|exact C].
Qed.
(** The plan a directive comes from may be acted on now. *)
Definition actsOn (allowed : option (PVCurtailment -> bool)) (wall now : Time) (s : PlanState) (p : Published) (a : Action) : Prop :=
  psLast s = Some p /\ psFailed s <= psPublished s /\ Sub wall (of_UnixMilli (pbGeneratedAtMs p)) <= MaxPlanAge /\
  planExecutionAllowed allowed (Some p) (curtailment (directiveParams s)) (psCurrentContract s) = true /\
  a ∈ Actions (pbPlan p) /\ covers (UnixMilli now) a = true.
Lemma directiveOf_plain p params id a cap :
  pdFallback (directiveOf p params id a cap) = ∅ /\ pdEVOnly (directiveOf p params id a cap) = false /\
  pdBatteryEnergyWh (directiveOf p params id a cap) = fmul (BatteryW a) (DurationHours (aSlot a)).
Proof. unfold directiveOf. destruct (negb _); [now repeat split|]. destruct (negb _); now repeat split. Qed.

(** C6: The directive of a slot is the one action of the plan in force that
    holds this moment, and only while that plan is fresh, no newer request has
    failed and its curtailment proof still holds; otherwise it is for cars
    alone and moves no battery and no solar power. In both cases the reserve
    only adds chargers with a plugged car that has a saved goal or a hold, no
    more energy than their power gives in the time left, and leaves every other
    charger what the plan gave it. *)
Theorem slot_directive_sound allowed limits wall now states s d :
  SlotDirectiveAt allowed limits wall now states s = Some d ->
  exists d0, reserved now (default [] states) d0 d /\
    (d0 = evOnlyDirective now /\ plannedDirective allowed wall now s = None \/
     exists p a cap, actsOn allowed wall now s p a /\ d0 = directiveOf p (directiveParams s) (psLoadpointID s) a cap /\
       pdBatteryEnergyWh d = fmul (BatteryW a) (DurationHours (aSlot a)) /\ pdEVOnly d = false).
Proof.
  unfold SlotDirectiveAt, withDeadlineReserve. intros E.
  assert (P : forall d0, plannedDirective allowed wall now s = Some d0 -> reserved now (default [] states) d0 d ->
    exists p a cap, actsOn allowed wall now s p a /\ d0 = directiveOf p (directiveParams s) (psLoadpointID s) a cap /\
      pdBatteryEnergyWh d = fmul (BatteryW a) (DurationHours (aSlot a)) /\ pdEVOnly d = false).
  { intros d0 F R. unfold plannedDirective in F. destruct (usablePlan allowed wall s) as [p|] eqn:U; [|discriminate F].
    destruct (actionAt p now) as [[a cap]|] eqn:A; [|discriminate F]. injection F as <-. exists p, a, cap.
    destruct (usablePlan_sound _ _ _ _ U) as (U1 & U2 & U3 & U4). destruct (actionAt_sound _ _ _ _ A) as [A1 A2].
    destruct (directiveOf_plain p (directiveParams s) (psLoadpointID s) a cap) as (_ & D2 & D3). unfold actsOn.
    rewrite <- D3, <- D2. pose proof (rvOrders _ _ _ _ R) as O.
    split; [auto 10|]. split; [reflexivity|]. split; [exact (f_equal pdBatteryEnergyWh O)|exact (f_equal pdEVOnly O)]. }
  assert (W : forall d0, plannedDirective allowed wall now s = Some d0 -> pdFallback d0 = ∅).
  { intros d0 F. unfold plannedDirective in F. destruct (usablePlan _ _ _) as [p|]; [|discriminate F].
    destruct (actionAt p now) as [[a cap]|]; [|discriminate F]. injection F as <-. apply directiveOf_plain. }
  destruct states as [states|].
  - destruct (bool_decide _ || _); [|discriminate E]. injection E as <-.
    destruct (plannedDirective allowed wall now s) as [d0|] eqn:F.
    + exists d0. change (default (evOnlyDirective now) (Some d0)) with d0. pose proof (reserve_ok limits now (omap (goalOf limits) states) d0 states (W d0 eq_refl)) as R.
      split; [exact R|right; exact (P d0 eq_refl R)].
    + exists (evOnlyDirective now). split; [now apply reserve_ok|now left].
  - exists d. assert (R : reserved now [] d d).
    { constructor; [reflexivity| | |auto]; intros id b X; rewrite (W d E), lookup_empty in X; discriminate X. }
    split; [exact R|right; exact (P d E R)].
Qed.

(** A plan of two charging hours, made when its first hour began. *)
Definition hourAction (k : Z) : Action :=
  mkAction (mkPlanSlot 0 (1700000000000 + k * 3600000) 60 (of_Z 100) (of_Z 50) (of_Z 0) (of_Z 500) (mkLimits (of_Z 0) (of_Z 0)))
    (of_Z 2000) (of_Z 2500) (lit 1 2) (of_Z 50) EmptyString (of_Z 0) (of_Z 0) (of_Z 0) false ∅ ∅ ∅ ∅ ∅.
Definition hourParams : Params :=
  mkParams ModeArbitrage 3 (of_Z 10000) (of_Z 0) (of_Z 1) (lit 1 2) (of_Z 0) 3 (of_Z 5000) (of_Z 5000) (of_Z 1) (of_Z 1) (of_Z 0)
    (mkPricing (of_Z 0) (of_Z 0) (of_Z 0) None) (of_Z 0) None [] [] (of_Z 0) [] false noCurtailment (of_Z 0) (of_Z 0) (of_Z 0) (of_Z 0).
Definition hourPlan : Plan := mkPlan ModeArbitrage 2 (of_Z 10000) (lit 1 2) (of_Z 100) [hourAction 0; hourAction 1] ∅.
Definition hourState : PlanState :=
  InstallPlan hourPlan "d1" 1700000000000 hourParams "" (mkPlanState None false 1 0 0 hourParams hourParams "").
Definition quarterPast : Time := of_UnixMilli (1700000000000 + 15 * 60000).
(** A car held at 3.7 kW by hand. *)
Definition heldCar : HeldState :=
  (mkLPState "ev" "d" true noOrder (of_Z 1380) (of_Z 11000) [] 0 0 (of_Z 0) (of_Z 0) (of_Z 0) (of_Z 0) zeroTime
     (of_Z 0) (of_Z 0) false false false false false true (of_Z 0) (of_Z 0), of_Z 3700).
Definition ownLimits (st : LPState) : f64 * f64 * list f64 := LimitPower st (lpSteps st).
Lemma slot_directive_sound_witness :
  match SlotDirectiveAt None ownLimits quarterPast quarterPast (Some [heldCar]) hourState with
  | Some d => exists d0, reserved quarterPast [heldCar] d0 d
  | None => False
  end.
Proof.
  assert (Ok : bool_decide (is_Some (SlotDirectiveAt None ownLimits quarterPast quarterPast (Some [heldCar]) hourState)) = true)
    by (vm_compute; reflexivity).
  apply bool_decide_eq_true in Ok as [d E]. rewrite E.
  destruct (slot_directive_sound None ownLimits quarterPast quarterPast (Some [heldCar]) hourState d E) as (d0 & R & _). exists d0. exact R.
Defined.
(** The battery gets its hour, the car its hold for the 45 minutes left. *)
Example held_car_beside_plan :
  match SlotDirectiveAt None ownLimits quarterPast quarterPast (Some [heldCar]) hourState with
  | Some d =>
      feq (pdBatteryEnergyWh d) (of_Z 2000) && feq (default NaN (pdEnergyWh d !! "ev"%string)) (of_Z 2775) &&
      bool_decide (pdFallback d !! "ev"%string = Some true) && negb (pdEVOnly d)
  | None => false
  end = true.
Proof. vm_compute. reflexivity. Qed.
(** Half an hour after it was made the plan no longer moves the battery. *)
Example stale_plan_leaves_cars :
  match SlotDirectiveAt None ownLimits (GoTime.Add quarterPast (16 * Minute)) quarterPast (Some [heldCar]) hourState with
  | Some d => feq (pdBatteryEnergyWh d) (of_Z 0) && pdEVOnly d
  | None => false
  end = true.
Proof. vm_compute. reflexivity. Qed.
