(* ===== verification/Planner.v ===== *)
(** * The Core planner (go/internal/mpc: mpc.go OptimizeContext)

    Dynamic programming over a grid of battery and car states: the cheapest
    action of every state by backward induction, then a forward run of the
    policy on the real state. *)
From Stdlib Require Import ZArith Lia Ascii.
From S2P Require Import Prelude Float64 GoTime Site PlanSlots.
From stdpp Require Import base gmap strings list.
From S2P Require Import PlanData.
#[local] Open Scope Z_scope.

(** [math.Round]: half away from zero. *)
Definition fround (x : f64) : f64 :=
  match x with
  | Fin z => Fin (Z.sgn z * ((2 * Z.abs z + unit64) / (2 * unit64)) * unit64)
  | _ => x
  end.

(** ** The operating band *)
Definition operatingBoundWorsens (from to lo hi : f64) : bool :=
  let eps := lit 1 1000000000 in
  flt (fadd (fmax (of_Z 0) (fsub lo from)) eps) (fmax (of_Z 0) (fsub lo to)) ||
  flt (fadd (fmax (of_Z 0) (fsub from hi)) eps) (fmax (of_Z 0) (fsub to hi)).

Definition clipBatteryPowerToBand (soc powerW dtH capacityWh etaC etaD lo hi : f64) : f64 :=
  if fle capacityWh (of_Z 0) || fle dtH (of_Z 0) then of_Z 0
  else
    let delta := fdiv (BatteryEnergyDeltaWh powerW dtH etaC etaD) capacityWh in
    if negb (operatingBoundWorsens soc (fadd soc delta) lo hi) then powerW
    else if flt (of_Z 0) powerW then
      let headroom := fsub hi soc in
      if fle headroom (of_Z 0) || fle etaC (of_Z 0) then of_Z 0
      else fdiv (fmul headroom capacityWh) (fmul dtH etaC)
    else
      let headroom := fsub soc lo in
      if fle headroom (of_Z 0) || fle etaD (of_Z 0) then of_Z 0
      else fdiv (fmul (fmul (fneg headroom) capacityWh) etaD) dtH.

Definition gridIndex (value lo step : f64) (n : Z) : Z :=
  if (n <=? 1) || fle step (of_Z 0) then 0
  else
    let i := int_of (fround (fdiv (fsub value lo) step)) in
    if i <? 0 then 0 else if n <=? i then n - 1 else i.

(** ** The prepared problem *)
(** The car's part; the spec carries its repaired bounds. *)
Record EvGrid : Type := mkEv { spec : LoadpointSpec; evSteps : list f64; evSocStep : f64; evEff : f64 }.
(** Everything the solver closes over; [pr] has the mode and the battery
    efficiencies filled in. *)
Record Problem : Type := mkProblem {
  pr : Params; slots : list Slot; S_ : nat; socStep : f64; meanPrice : f64;
  importCaps : option (list (f64 * f64)); actionGrid : list f64; idleActionIdx : nat; ev : option EvGrid
}.

Definition setEvBounds (lo hi : f64) (s : LoadpointSpec) : LoadpointSpec :=
  mkSpec (evCapacityWh s) (Levels s) lo hi (evInitialSoC s) (PluggedIn s) (TargetSoC s) (TargetSlotIdx s) (MinChargeW s)
    (evMaxChargeW s) (AllowedStepsW s) (evChargeEfficiency s) (SurplusOnly s) (NoBatteryToEV s) (lpID s) (Charging s).
Definition evGrid (lp : option LoadpointSpec) : option EvGrid :=
  match lp with
  | Some s =>
      if specActive lp then
        let steps := normalizedSteps s in
        let s := if fle (evSoCMax s) (evSoCMin s) then setEvBounds (of_Z 0) (of_Z 1) s else s in
        Some (mkEv s steps (fdiv (fsub (evSoCMax s) (evSoCMin s)) (of_Z (Levels s - 1)))
                (if flt (of_Z 0) (evChargeEfficiency s) then evChargeEfficiency s else lit 9 10))
      else None
  | None => None
  end.

Definition rawPoint (p : Params) (A j : nat) : f64 :=
  let frac := fdiv (of_Z (Z.of_nat j)) (of_Z (Z.of_nat A - 1)) in
  fadd (fneg (MaxDischargeW p)) (fmul frac (fadd (MaxChargeW p) (MaxDischargeW p))).
Definition isTiny (p : Params) (A j : nat) : bool := flt (fabs (rawPoint p A j)) (lit 1 1000000000).
Definition gridPoint (p : Params) (A j : nat) : f64 := if isTiny p A j then of_Z 0 else rawPoint p A j.
Definition buildActionGrid (p : Params) (A : nat) : list f64 :=
  let points := gridPoint p A <$> seq 0 A in
  sortFloats (if existsb (isTiny p A) (seq 0 A) then points else points ++ [of_Z 0]).
Definition nearerIdle (grid : list f64) (best : nat * f64) (i : nat) : nat * f64 :=
  let aw := fabs (nth i grid (of_Z 0)) in if flt aw (snd best) then (i, aw) else best.
Definition findIdle (grid : list f64) : nat := fst (fold_left (nearerIdle grid) (seq 0 (length grid)) (0%nat, Inf false)).

Definition orMode (m : PlannerMode) : PlannerMode := if isMode m EmptyString then ModeSelfConsumption else m.
Definition orEfficiency (e : f64) : f64 := if fle e (of_Z 0) then lit 95 100 else e.
Definition withDefaults (p : Params) : Params :=
  mkParams (orMode (pMode p)) (SoCLevels p) (CapacityWh p) (SoCMin p) (SoCMax p) (InitialSoC p) (PVChargeBonusOreKwh p)
    (ActionLevels p) (MaxChargeW p) (MaxDischargeW p) (orEfficiency (ChargeEfficiency p)) (orEfficiency (DischargeEfficiency p))
    (TerminalSoCPrice p) (pricing p) (MinArbitrageSpreadOreKwh p) (Loadpoint p) (Loadpoints p) (Storages p) (ImportMeanW p)
    (ImportHours p) (hasDemandCharges p) (curtailment p) (InitialSoCUnclamped p) (PVUncertaintyW p) (PVRelativeUncertainty p)
    (PVForecastSafetyK p).

Definition atLeast3 (n : Z) : Z := if n <? 3 then 3 else n.
Definition maxDPWorkingBytes : Z := 64 * 1024 * 1024.
Definition workingBytes (p : Params) (n : Z) : f64 :=
  let evLevels := if specActive (Loadpoint p) then match Loadpoint p with Some s => Z.max 2 (Levels s) | None => 1 end else 1 in
  fadd (fmul (fmul (fadd (of_Z n) (of_Z 1)) (of_Z (atLeast3 (SoCLevels p)))) (fadd (fmul (of_Z 16) (of_Z evLevels)) (of_Z 48)))
    (fmul (fadd (of_Z (atLeast3 (ActionLevels p))) (of_Z 1)) (of_Z 8)).
(** The setup, for a request within the memory budget. *)
Definition prepare (p : Params) (slots : list Slot) : Problem :=
  let p := withDefaults p in
  let S := atLeast3 (SoCLevels p) in
  let grid := buildActionGrid p (Z.to_nat (atLeast3 (ActionLevels p))) in
  mkProblem p slots (Z.to_nat S) (fdiv (fsub (SoCMax p) (SoCMin p)) (of_Z (S - 1))) (horizonMeanPrice slots)
    (importHourCapsW slots (ImportMeanW p) (ImportHours p)) grid (findIdle grid) (evGrid (Loadpoint p)).

(** ** One state and one action *)
Section Solver.
Context (q : Problem).
#[local] Abbreviation p := (pr q).

Definition socAt (i : nat) : f64 := fadd (SoCMin p) (fmul (of_Z (Z.of_nat i)) (socStep q)).
Definition actionAt (j : nat) : f64 := nth j (actionGrid q) (of_Z 0).
Definition EL : nat := match ev q with Some e => Z.to_nat (Levels (spec e)) | None => 1 end.
Definition EA : nat := match ev q with Some e => length (evSteps e) | None => 1 end.
Definition A_ : nat := length (actionGrid q).
Definition evSocAt (e : nat) : f64 :=
  match ev q with Some g => fadd (evSoCMin (spec g)) (fmul (of_Z (Z.of_nat e)) (evSocStep g)) | None => of_Z 0 end.
Definition evActionW (ea : nat) : f64 := match ev q with Some g => nth ea (evSteps g) (of_Z 0) | None => of_Z 0 end.
Definition capsAt (t : nat) : option (f64 * f64) := importCaps q ≫= fun l => l !! t.
Definition deadline : Z :=
  match ev q with Some g => deadlineSlot (spec g) (Z.of_nat (length (slots q))) | None => -1 end.

Definition battSocAfter (soc battW dtH : f64) : f64 :=
  fadd soc (fdiv (BatteryEnergyDeltaWh battW dtH (ChargeEfficiency p) (DischargeEfficiency p)) (CapacityWh p)).
Definition evSocAfter (g : EvGrid) (evSoc evW dtH : f64) : f64 :=
  fadd evSoc (fdiv (fmul (fmul evW dtH) (evEff g)) (evCapacityWh (spec g))).

(** The car's own rules: not past full, leftover solar only, and no battery
    power exported or fed to the car on the side. *)
Definition carAllows (slot : Slot) (battW evW evSoc2 gridW : f64) : bool :=
  match ev q with
  | None => true
  | Some g =>
      negb (flt (fadd (evSoCMax (spec g)) (lit 1 1000000000)) evSoc2) &&
      negb (SurplusOnly (spec g) && SurplusOnlyExceedsHousePV evW (LoadW slot) (PVW slot)) &&
      negb (flt (of_Z 0) evW && flt battW (of_Z 0) && flt gridW (of_Z (-50))) &&
      negb (blocksBatteryToEV (spec g) && BatteryDischargeFeedsEV battW evW (LoadW slot) (PVW slot))
  end.
Definition hourAllows (t : nat) (evW gridW : f64) : bool :=
  match capsAt t with
  | None => true
  | Some (cap, carCap) => negb (flt cap gridW || flt (of_Z 0) evW && flt carCap gridW)
  end.
Definition feasible (t : nat) (slot : Slot) (soc evSoc battW evW : f64) : bool :=
  let dtH := DurationHours slot in
  let battSoc2 := battSocAfter soc battW dtH in
  let evSoc2 := match ev q with Some g => evSocAfter g evSoc evW dtH | None => of_Z 0 end in
  let gridW := GridW (LoadW slot) (PVW slot) battW evW in
  negb (flt battSoc2 (fsub (SoCMin p) (lit 1 1000000000)) || flt (fadd (SoCMax p) (lit 1 1000000000)) battSoc2) &&
  carAllows slot battW evW evSoc2 gridW &&
  modeAllows (pMode p) (GridW (LoadW slot) (PVW slot) (of_Z 0) evW) gridW battW &&
  allowsImport (Limits slot) gridW && allowsExport (Limits slot) gridW && hourAllows t evW gridW.

(** The cost of one slot: the meter, then the biases of the decision. *)
Definition houseBias (slot : Slot) (battW dtH cost : f64) : f64 :=
  if isMode (pMode p) ModeSelfConsumption || isMode (pMode p) ModePassiveArbitrage then
    let houseGridW := fadd (fadd (LoadW slot) (PVW slot)) battW in
    if flt (of_Z 0) houseGridW then fadd cost (strictSCBiasOre (PriceOre slot) (kWh houseGridW dtH)) else cost
  else cost.
Definition solarBonus (slot : Slot) (battW dtH cost : f64) : f64 :=
  if flt (of_Z 0) (PVChargeBonusOreKwh p) && flt (of_Z 0) battW then
    let pvSurplusW := fsub (fneg (PVW slot)) (LoadW slot) in
    if flt (of_Z 0) pvSurplusW then
      let fromPVW := if flt pvSurplusW battW then pvSurplusW else battW in
      fsub cost (fmul (PVChargeBonusOreKwh p) (kWh fromPVW dtH))
    else cost
  else cost.
Definition spreadTax (battW dtH cost : f64) : f64 :=
  if flt (of_Z 0) (MinArbitrageSpreadOreKwh p) && flt battW (of_Z 0) &&
     (isMode (pMode p) ModeArbitrage || isMode (pMode p) ModePassiveArbitrage)
  then fadd cost (fmul (MinArbitrageSpreadOreKwh p) (kWh (fneg battW) dtH))
  else cost.
Definition missedTarget (t : nat) (evSoc2 cost : f64) : f64 :=
  match ev q with
  | Some g =>
      if deadline =? Z.of_nat t then
        let short := fsub (TargetSoC (spec g)) evSoc2 in
        if flt (of_Z 0) short
        then fadd cost (fmul (fmul (fdiv (fmul (evCapacityWh (spec g)) short) (of_Z 1000)) (meanPrice q)) (of_Z 4))
        else cost
      else cost
  | None => cost
  end.
Definition slotCost (t : nat) (slot : Slot) (battW evW evSoc2 : f64) : f64 :=
  let dtH := DurationHours slot in
  let gridKWh := kWh (GridW (LoadW slot) (PVW slot) battW evW) dtH in
  missedTarget t evSoc2
    (spreadTax battW dtH (solarBonus slot battW dtH (houseBias slot battW dtH
      (GridCostOre (PriceOre slot) (SpotOre slot) gridKWh (pricing p))))).

(** Where a state lands on a grid of [n] points: its two neighbours and the
    weight of the upper. *)
Definition neighbours (f : f64) (n : nat) : nat * nat * f64 :=
  let lo := int_of (ffloor f) in
  let '(lo, hi) := if lo <? 0 then (0, 0) else (lo, lo + 1) in
  let '(lo, hi) := if Z.of_nat n <=? hi then (Z.of_nat n - 1, Z.of_nat n - 1) else (lo, hi) in
  (Z.to_nat lo, Z.to_nat hi, fsub f (of_Z lo)).
Definition valueAt (v : list (list f64)) (s e : nat) : f64 := nth e (nth s v []) (of_Z 0).
Definition nextValue (v : list (list f64)) (battSoc2 evSoc2 : f64) : f64 :=
  let '(lo, hi, frac) := neighbours (fdiv (fsub battSoc2 (SoCMin p)) (socStep q)) (S_ q) in
  let '(eLo, eHi, eFrac) :=
    match ev q with
    | Some g => neighbours (fdiv (fsub evSoc2 (evSoCMin (spec g))) (evSocStep g)) EL
    | None => (0%nat, 0%nat, of_Z 0)
    end in
  let one := of_Z 1 in
  fadd (fadd (fadd
    (fmul (fmul (fsub one frac) (fsub one eFrac)) (valueAt v lo eLo))
    (fmul (fmul (fsub one frac) eFrac) (valueAt v lo eHi)))
    (fmul (fmul frac (fsub one eFrac)) (valueAt v hi eLo)))
    (fmul (fmul frac eFrac) (valueAt v hi eHi)).

(** The cost from here on when the action is taken; [None] when it is not
    allowed. *)
Definition candidate (t : nat) (slot : Slot) (v : list (list f64)) (soc evSoc : f64) (a : nat * nat) : option f64 :=
  let battW := actionAt (fst a) in
  let evW := evActionW (snd a) in
  let dtH := DurationHours slot in
  let evSoc2 := match ev q with Some g => evSocAfter g evSoc evW dtH | None => of_Z 0 end in
  if feasible t slot soc evSoc battW evW
  then Some (fadd (slotCost t slot battW evW evSoc2) (nextValue v (battSocAfter soc battW dtH) evSoc2))
  else None.

(** ** Backward induction *)
Definition actions : list (nat * nat) := flat_map (fun ba => pair ba <$> seq 0 EA) (seq 0 A_).
Definition improve (c : nat * nat -> option f64) (best : f64 * nat) (a : nat * nat) : f64 * nat :=
  match c a with
  | Some total => if flt total (fst best) then (total, (fst a * EA + snd a)%nat) else best
  | None => best
  end.
Definition isPosInf (x : f64) : bool := match x with Inf false => true | _ => false end.
Definition bestOf (c : nat * nat -> option f64) : f64 * nat :=
  let '(v, pol) := fold_left (improve c) actions (Inf false, 0%nat) in
  if isPosInf v then (v, (idleActionIdx q * EA)%nat) else (v, pol).
Definition layer (t : nat) (slot : Slot) (v : list (list f64)) : list (list (f64 * nat)) :=
  (fun si => (fun ei => bestOf (candidate t slot v (socAt si) (evSocAt ei))) <$> seq 0 EL) <$> seq 0 (S_ q).
Definition terminal : list (list f64) :=
  (fun si => replicate EL (fmul (fneg (TerminalSoCPrice p)) (fdiv (fmul (CapacityWh p) (socAt si)) (of_Z 1000)))) <$> seq 0 (S_ q).

(** From slot [t] on: the values of every slot, and the policies. The context
    is polled before each slot, so poll [0] is the entry's and [1] the last
    slot's. *)
Fixpoint solveFrom (ctxErr : nat -> bool) (t : nat) (rest : list Slot) : option (list (list (list f64)) * list (list (list nat))) :=
  match rest with
  | [] => Some ([terminal], [])
  | slot :: rest' =>
      match solveFrom ctxErr (S t) rest' with
      | Some (v :: vs, pols) =>
          if ctxErr (length rest) then None
          else
            let l := layer t slot v in
            Some ((fmap (M := list) fst <$> l) :: v :: vs, (fmap (M := list) snd <$> l) :: pols)
      | _ => None
      end
  end.
End Solver.

(** ** Running the policy *)
Section Forward.
Context (q : Problem).
#[local] Abbreviation p := (pr q).

(** The battery's power of one slot, and its state at the end. *)
Definition forwardBattery (soc w dtH : f64) : f64 * f64 :=
  let actW := clipBatteryPowerToBand soc w dtH (CapacityWh p) (ChargeEfficiency p) (DischargeEfficiency p) (SoCMin p) (SoCMax p) in
  let soc2 := battSocAfter q soc actW dtH in
  if operatingBoundWorsens soc soc2 (SoCMin p) (SoCMax p) then (of_Z 0, soc) else (actW, soc2).
Definition forwardCar (evSoc evW dtH : f64) : f64 * f64 :=
  match ev q with
  | None => (evW, of_Z 0)
  | Some g =>
      let evSoc2 := evSocAfter g evSoc evW dtH in
      if flt (fadd (evSoCMax (spec g)) (lit 1 1000000000)) evSoc2 then (of_Z 0, evSoc) else (evW, evSoc2)
  end.
(** The largest step above the first that fits the car's room. *)
Fixpoint largestFitting (fits : f64 -> bool) (stepsDown : list f64) : f64 :=
  match stepsDown with
  | [] => of_Z 0
  | w :: rest => if fits w then w else largestFitting fits rest
  end.
Definition carGivesWay (t : nat) (slot : Slot) (actW evSoc evW evSoc2 : f64) : f64 * f64 :=
  match capsAt q t, ev q with
  | Some (_, carCap), Some g =>
      if flt (of_Z 0) evW && flt carCap (GridW (LoadW slot) (PVW slot) actW evW) then
        let evW := largestFitting (fun w => fle (GridW (LoadW slot) (PVW slot) actW w) carCap) (rev (tail (evSteps g))) in
        (evW, fadd evSoc (fdiv (fmul (fmul evW (DurationHours slot)) (evEff g)) (evCapacityWh (spec g))))
      else (evW, evSoc2)
  | _, _ => (evW, evSoc2)
  end.

Definition battIndex (soc : f64) : nat := Z.to_nat (gridIndex soc (SoCMin p) (socStep q) (Z.of_nat (S_ q))).
Definition carIndex (evSoc : f64) : nat :=
  match ev q with Some g => Z.to_nat (gridIndex evSoc (evSoCMin (spec g)) (evSocStep g) (Levels (spec g))) | None => 0 end.

Definition slotAction (t : nat) (slot : Slot) (pol : list (list nat)) (soc evSoc : f64) : Action :=
  let dtH := DurationHours slot in
  let choice := nth (carIndex evSoc) (nth (battIndex soc) pol []) 0%nat in
  let '(actW, soc2) := forwardBattery soc (actionAt q (choice / EA q)) dtH in
  let '(evW, evSoc2) := forwardCar evSoc (evActionW q (choice mod EA q)) dtH in
  let '(evW, evSoc2) := carGivesWay t slot actW evSoc evW evSoc2 in
  let gridW := GridW (LoadW slot) (PVW slot) actW evW in
  mkAction slot actW gridW soc2 (GridCostOre (PriceOre slot) (SpotOre slot) (kWh gridW dtH) (pricing p))
    (reasonFor slot actW gridW (meanPrice q)) (of_Z 0)
    (match ev q with Some _ => evW | None => of_Z 0 end) (match ev q with Some _ => evSoc2 | None => of_Z 0 end) false ∅ ∅ ∅ ∅ ∅.

Fixpoint simulate (t : nat) (rest : list Slot) (pols : list (list (list nat))) (soc evSoc : f64) : list Action :=
  match rest, pols with
  | slot :: rest, pol :: pols => let a := slotAction t slot pol soc evSoc in a :: simulate (S t) rest pols (SoC a) (LoadpointSoC a)
  | _, _ => []
  end.
End Forward.

(** ** Curtailment hints *)
Fixpoint endsWithParen (s : string) : bool :=
  match s with
  | EmptyString => false
  | String c EmptyString => bool_decide (c = ")"%char)
  | String _ r => endsWithParen r
  end.
Definition withHint (limit : f64) (a : Action) : Action :=
  mkAction (aSlot a) (BatteryW a) (aGridW a) (SoC a) (CostOre a)
    (if negb (isMode (Reason a) EmptyString) && negb (endsWithParen (Reason a)) then Reason a +:+ " · curtail PV"
     else "curtail PV (negative export) · " +:+ Reason a)
    limit (LoadpointW a) (LoadpointSoC a) (PVCurtailActive a) (StoragePowerW a) (StorageEnergyWh a) (LoadpointPowerW a)
    (LoadpointMaxPowerW a) (LoadpointSoCByID a).
Definition localUseW (a : Action) : f64 :=
  let c := LoadW (aSlot a) in
  let c := if flt (of_Z 0) (BatteryW a) then fadd c (BatteryW a) else c in
  let c := if flt (of_Z 0) (LoadpointW a) then fadd c (LoadpointW a) else c in
  if flt c (of_Z 0) then of_Z 0 else c.
Definition annotateAction (p : Params) (a : Action) : Action :=
  if fle (of_Z 0) (aGridW a) then a
  else if flt (of_Z 0) (ExportPriceOre (SpotOre (aSlot a)) (pricing p)) then a
  else if flt (localUseW a) (fneg (PVW (aSlot a))) then withHint (localUseW a) a else a.
Definition annotateCurtailment (p : Params) (l : list Action) : list Action := annotateAction p <$> l.

(** ** The planner *)
Inductive PlanError : Type := ErrContext | ErrModel | ErrPartialSlots | ErrBudget.
Definition emptyPlan : Plan := mkPlan EmptyString 0 (of_Z 0) (of_Z 0) (of_Z 0) [] ∅.

Definition planOf (q : Problem) (pols : list (list (list nat))) : Plan :=
  let p := pr q in
  let acts := simulate q 0 (slots q) pols (InitialSoC p) (match ev q with Some g => evInitialSoC (spec g) | None => of_Z 0 end) in
  mkPlan (pMode p) (length (slots q)) (CapacityWh p) (InitialSoC p) (fold_left (fun c a => fadd c (CostOre a)) acts (of_Z 0))
    (annotateCurtailment p acts) ∅.
(** [ctxErr k] is the context's state at the solver's [k]-th look. A context
    that ends during the last run still returns the plan, with its error. *)
Definition OptimizeContext (ctxErr : nat -> bool) (input : list Slot) (p : Params) : Plan * option PlanError :=
  if ctxErr 0%nat then (emptyPlan, Some ErrContext)
  else if coreDPModelError p then (emptyPlan, Some ErrModel)
  else if negb (validatePartialSlots input) then (emptyPlan, Some ErrPartialSlots)
  else
    let slots := sanitizeOptimizeSlots input in
    if (length slots =? 0)%nat || fle (CapacityWh p) (of_Z 0) then (mkPlan (pMode p) 0 (of_Z 0) (of_Z 0) (of_Z 0) [] ∅, None)
    else if flt (of_Z maxDPWorkingBytes) (workingBytes p (Z.of_nat (length slots))) then (emptyPlan, Some ErrBudget)
    else
      let q := prepare p slots in
      match solveFrom q ctxErr 0 slots with
      | None => (emptyPlan, Some ErrContext)
      | Some (_, pols) =>
          (planOf q pols, if ctxErr (S (length slots)) then Some ErrContext else None)
      end.
Definition Optimize (input : list Slot) (p : Params) : Plan := fst (OptimizeContext (fun _ => false) input p).

(** ** Lemmas: the grids *)
Lemma action_grid_has_zero p A : of_Z 0 ∈ buildActionGrid p A.
Proof.
  unfold buildActionGrid. rewrite sortFloats_perm. destruct (existsb (isTiny p A) (seq 0 A)) eqn:E.
  - apply existsb_exists in E as (j & J & T). apply list_elem_of_fmap. exists j. split; [|now apply list_elem_of_In].
    unfold gridPoint. now rewrite T.
  - apply elem_of_app. right. now apply list_elem_of_singleton.
Qed.

(** The scan for the idle action keeps the first of the least magnitudes. *)
Definition nearest (grid : list f64) (n : nat) (best : nat * f64) : Prop :=
  (forall i w, (i < n)%nat -> grid !! i = Some w -> flt (fabs w) (snd best) = false) /\
  (best = (0%nat, Inf false) \/ exists w, grid !! fst best = Some w /\ snd best = fabs w /\ rank w <> 2).
Lemma findIdle_nearest grid n : (n <= length grid)%nat ->
  nearest grid n (fold_left (nearerIdle grid) (seq 0 n) (0%nat, Inf false)).
Proof.
  induction n as [|n IH]; intros L; [split; [lia|now left]|]. rewrite seq_S, fold_left_app. cbn [fold_left Nat.add].
  destruct (IH ltac:(lia)) as [M B]. set (best := fold_left _ _ _) in *. clearbody best. unfold nearerIdle.
  destruct (lookup_lt_is_Some_2 grid n ltac:(lia)) as [w Hw]. rewrite (nth_lookup_Some _ _ _ _ Hw). cbv zeta.
  destruct (flt (fabs w) (snd best)) eqn:F; split.
  - intros i x Hi Hx. cbn [snd]. destruct (decide (i = n)) as [->|]; [rewrite Hw in Hx; injection Hx as <-; apply flt_self|].
    destruct (flt (fabs x) (fabs w)) eqn:G; [|reflexivity]. exfalso. specialize (M i x ltac:(lia) Hx).
    assert (flt (fabs x) (snd best) = true); [|congruence]. apply (flt_le_trans _ _ _ G). now apply flt_le.
  - right. exists w. cbn. split_and!; [exact Hw|reflexivity|]. apply flt_iff in F. pose proof (fabs_fact w). lia.
  - intros i x Hi Hx. destruct (decide (i = n)) as [->|]; [rewrite Hw in Hx; injection Hx as <-; exact F|]. apply (M i x); [lia|exact Hx].
  - exact B.
Qed.

Lemma idle_is_zero grid : of_Z 0 ∈ grid -> nth (findIdle grid) grid (of_Z 0) = of_Z 0 /\ (findIdle grid < length grid)%nat.
Proof.
  intros I. destruct (findIdle_nearest grid (length grid) ltac:(lia)) as [M B]. unfold findIdle.
  apply list_elem_of_lookup in I as [i Hi]. pose proof (M i _ (lookup_lt_Some _ _ _ Hi) Hi) as F.
  set (best := fold_left _ _ _) in *. clearbody best. destruct B as [->|(w & Hw & E & Nw)].
  - exfalso. vm_compute in F. discriminate.
  - rewrite (nth_lookup_Some _ _ _ _ Hw). split; [|now apply lookup_lt_Some in Hw]. rewrite E in F. clear E M Hi.
    rewrite of_Z_0 in *. apply flt_false_iff in F. pose proof (fabs_fact w) as W. pose proof (rank_ok_all w). unfold rank_ok in *.
    change (fabs (Fin 0)) with (Fin 0) in F. cbn [rank val] in F. apply f64_ext; cbn [rank val]; lia.
Qed.

(** ** Lemmas: the prepared problem *)
Record wellPosed (q : Problem) : Prop := {
  wp_states : (0 < S_ q)%nat;
  wp_idle : actionAt q (idleActionIdx q) = of_Z 0;
  wp_idle_lt : (idleActionIdx q < A_ q)%nat;
  wp_car : (0 < EL q)%nat;
  wp_off : evActionW q 0 = of_Z 0;
  wp_steps : (0 < EA q)%nat
}.
Lemma prepare_well_posed p slots : wellPosed (prepare p slots).
Proof.
  set (q := prepare p slots).
  destruct (idle_is_zero (actionGrid q) (action_grid_has_zero _ _)) as [Z L]. change (findIdle (actionGrid q)) with (idleActionIdx q) in *.
  assert (EV : ev q = None \/ exists g r, ev q = Some g /\ evSteps g = of_Z 0 :: r /\ 2 <= Levels (spec g)).
  { unfold q, prepare. cbn [ev]. unfold evGrid. destruct (Loadpoint (withDefaults p)) as [s|]; [|now left].
    destruct (specActive (Some s)) eqn:A; [|now left]. right. destruct (steps_start_off s) as [r R].
    eexists _, r. split; [reflexivity|]. cbn [evSteps spec]. split; [exact R|]. cbn in A.
    apply andb_true_iff in A as [_ A]. destruct (fle _ _); cbn [Levels setEvBounds]; lia. }
  assert (S3 : (3 <= S_ q)%nat) by (unfold q, prepare, atLeast3; cbn [S_]; destruct (_ <? 3) eqn:E; lia).
  clearbody q. constructor.
  - lia.
  - exact Z.
  - exact L.
  - unfold EL. destruct EV as [->|(g & r & -> & _ & ?)]; lia.
  - unfold evActionW. destruct EV as [->|(g & r & -> & E & _)]; [reflexivity|]. now rewrite E.
  - unfold EA. destruct EV as [->|(g & r & -> & E & _)]; [lia|]. rewrite E. cbn. lia.
Qed.

Lemma actions_decode q a : a ∈ actions q ->
  (fst a < A_ q)%nat /\ (snd a < EA q)%nat /\ ((fst a * EA q + snd a) / EA q, (fst a * EA q + snd a) mod EA q)%nat = a.
Proof.
  unfold actions. intros I. apply list_elem_of_In, in_flat_map in I as (ba & B & I). apply in_seq in B.
  apply list_elem_of_In, list_elem_of_fmap in I as (ea & -> & E). apply list_elem_of_In, in_seq in E. cbn [fst snd].
  split_and!; [lia|lia|]. rewrite Nat.div_add_l, Nat.div_small, (Nat.add_comm (ba * _)), Nat.Div0.mod_add, Nat.mod_small by lia. f_equal. lia.
Qed.

(** ** Lemmas: the first minimum *)
Definition firstBest (q : Problem) (c : nat * nat -> option f64) (seen : list (nat * nat)) (best : f64 * nat) : Prop :=
  (best = (Inf false, 0%nat) /\ (forall a x, a ∈ seen -> c a = Some x -> flt x (Inf false) = false)) \/
  exists pre a post, seen = pre ++ a :: post /\ c a = Some (fst best) /\ snd best = (fst a * EA q + snd a)%nat /\
    flt (fst best) (Inf false) = true /\
    (forall b x, b ∈ pre -> c b = Some x -> isNaN x = true \/ flt (fst best) x = true) /\
    (forall b x, b ∈ post -> c b = Some x -> flt x (fst best) = false).
Lemma improve_firstBest q c l seen best : firstBest q c seen best -> firstBest q c (seen ++ l) (fold_left (improve q c) l best).
Proof.
  revert seen best. induction l as [|a l IH]; intros seen best H; [now rewrite app_nil_r|]. cbn [fold_left].
  replace (seen ++ a :: l) with ((seen ++ [a]) ++ l) by now rewrite <- app_assoc. apply IH. clear IH. unfold improve.
  destruct (c a) as [x|] eqn:Ca; [destruct (flt x (fst best)) eqn:F|].
  - right. exists seen, a, []. cbn [fst snd]. assert (FI : flt x (Inf false) = true).
    { apply flt_iff in F. apply flt_iff. cbn [rank val]. pose proof (rank_ok_all x). pose proof (rank_ok_all (fst best)). unfold rank_ok in *. lia. }
    split_and!; try done; [|intros b y B; now apply elem_of_nil in B]. intros b y B Cb.
    destruct (isNaN y) eqn:N; [now left|right]. apply isNaN_false_iff in N. destruct H as [[-> H]|(pre & d & post & -> & Cd & _ & _ & P & Q)].
    + specialize (H b y B Cb). apply flt_false_iff in H. cbn [rank val] in H. apply flt_iff in FI. apply flt_iff.
      cbn [rank val] in FI. pose proof (rank_ok_all x). pose proof (rank_ok_all y). unfold rank_ok in *. lia.
    + apply elem_of_app in B as [B|B].
      * destruct (P b y B Cb) as [Y|Y]; [apply isNaN_iff in Y; lia|]. apply (flt_le_trans _ _ _ F), flt_le, Y.
      * apply (flt_le_trans _ _ _ F). apply flt_iff in F. apply elem_of_cons in B as [->|B].
        -- rewrite Cd in Cb. injection Cb as <-. apply le_rel_refl; lia.
        -- apply (flt_false y); [exact (Q b y B Cb)|exact N|lia].
  - destruct H as [[-> H]|(pre & d & post & -> & Cd & D & I & P & Q)].
    + left. split; [done|]. intros b y B Cb. apply elem_of_app in B as [B|B]; [exact (H b y B Cb)|].
      apply list_elem_of_singleton in B as ->. rewrite Ca in Cb. injection Cb as <-. exact F.
    + right. exists pre, d, (post ++ [a]). rewrite <- app_assoc. split_and!; try done. intros b y B Cb.
      apply elem_of_app in B as [B|B]; [exact (Q b y B Cb)|].
      apply list_elem_of_singleton in B as ->. rewrite Ca in Cb. injection Cb as <-. exact F.
  - destruct H as [[-> H]|(pre & d & post & -> & Cd & D & I & P & Q)].
    + left. split; [done|]. intros b y B Cb. apply elem_of_app in B as [B|B]; [exact (H b y B Cb)|].
      apply list_elem_of_singleton in B as ->. congruence.
    + right. exists pre, d, (post ++ [a]). rewrite <- app_assoc. split_and!; try done. intros b y B Cb.
      apply elem_of_app in B as [B|B]; [exact (Q b y B Cb)|]. apply list_elem_of_singleton in B as ->. congruence.
Qed.

(** ** Lemmas: the tables *)
Definition square {A : Type} (q : Problem) (v : list (list A)) : Prop := length v = S_ q /\ Forall (fun r => length r = EL q) v.
Lemma layer_square q t slot v : square q (layer q t slot v).
Proof.
  split; unfold layer; [now rewrite length_fmap, length_seq|]. apply Forall_fmap, Forall_true. intros si. cbn.
  now rewrite length_fmap, length_seq.
Qed.
Lemma square_fmap {A B : Type} q (f : A -> B) v : square q v -> square q (fmap (M := list) f <$> v).
Proof.
  intros [L F]. split; [now rewrite length_fmap|]. apply Forall_fmap. apply (Forall_impl _ _ _ F). intros r H. cbn. now rewrite length_fmap.
Qed.
Lemma square_lookup {A : Type} q (v : list (list A)) s e : square q v -> (s < S_ q)%nat -> (e < EL q)%nat ->
  exists r x, v !! s = Some r /\ r !! e = Some x.
Proof.
  intros [L F] Hs He. destruct (lookup_lt_is_Some_2 v s ltac:(lia)) as [r R]. exists r. rewrite Forall_lookup in F.
  destruct (lookup_lt_is_Some_2 r e) as [x X]; [rewrite (F s r R); exact He|]. now exists x.
Qed.
Definition landsInside (n : nat) : Prop := forall f, let '(lo, hi, _) := neighbours f n in (lo < n)%nat /\ (hi < n)%nat.
Lemma neighbours_range n : (0 < n)%nat -> landsInside n.
Proof.
  intros N f. unfold neighbours. destruct (Z.ltb_spec (int_of (ffloor f)) 0); [destruct (Z.leb_spec (Z.of_nat n) 0)|
    destruct (Z.leb_spec (Z.of_nat n) (int_of (ffloor f) + 1))]; lia.
Qed.

Definition layers (q : Problem) (t : nat) (rest : list Slot) (vs : list (list (list f64))) (pols : list (list (list nat))) : Prop :=
  length vs = S (length rest) /\ length pols = length rest /\ Forall (square q) vs /\ Forall (square q) pols /\
  forall k slot, rest !! k = Some slot -> exists v', vs !! S k = Some v' /\
    vs !! k = Some (fmap (M := list) fst <$> layer q (t + k) slot v') /\ pols !! k = Some (fmap (M := list) snd <$> layer q (t + k) slot v').
Lemma solve_layers q ctxErr rest : forall t vs pols, solveFrom q ctxErr t rest = Some (vs, pols) -> layers q t rest vs pols.
Proof.
  induction rest as [|slot rest IH]; intros t vs pols E.
  - injection E as <- <-. split_and!; try done. apply Forall_singleton. split; unfold terminal; [now rewrite length_fmap, length_seq|].
    apply Forall_fmap, Forall_true. intros si. cbn. apply length_replicate.
  - cbn [solveFrom] in E. destruct (solveFrom q ctxErr (S t) rest) as [[[|v vs'] pols']|] eqn:R; [discriminate| |discriminate].
    destruct (ctxErr _); [discriminate|]. cbv zeta in E. destruct (IH (S t) _ _ R) as (L1 & L2 & F1 & F2 & H).
    assert (vs = (fmap (M := list) fst <$> layer q t slot v) :: v :: vs') as -> by congruence.
    assert (pols = (fmap (M := list) snd <$> layer q t slot v) :: pols') as -> by congruence. clear E.
    split_and!; [cbn [length] in *; lia|cbn [length] in *; lia|constructor; [apply square_fmap, layer_square|exact F1]|
      constructor; [apply square_fmap, layer_square|exact F2]|].
    intros [|k] s K.
    + injection K as <-. exists v. rewrite Nat.add_0_r. now split_and!.
    + destruct (H k s K) as (v' & A & B & C). exists v'. replace (t + S k)%nat with (S t + k)%nat by lia. now split_and!.
Qed.
Lemma solve_total q ctxErr rest : (forall k, (k <= length rest)%nat -> ctxErr k = false) -> forall t, is_Some (solveFrom q ctxErr t rest).
Proof.
  induction rest as [|slot rest IH]; intros C t; [now eexists|]. cbn [solveFrom].
  destruct (IH ltac:(intros k K; apply C; cbn; lia) (S t)) as [[vs pols] R]. rewrite R.
  destruct (solve_layers _ _ _ _ _ _ R) as (L & _). destruct vs; [discriminate|]. rewrite (C (length (slot :: rest))) by lia. now eexists.
Qed.

Lemma bestOf_spec q c : wellPosed q -> let '(v, pol) := bestOf q c in
  let a := ((pol / EA q)%nat, (pol mod EA q)%nat) in
  (fst a < A_ q)%nat /\ (snd a < EA q)%nat /\
  ((v = Inf false /\ actionAt q (fst a) = of_Z 0 /\ evActionW q (snd a) = of_Z 0 /\
    forall b x, b ∈ actions q -> c b = Some x -> flt x (Inf false) = false) \/
   (flt v (Inf false) = true /\ c a = Some v /\
    exists pre post, actions q = pre ++ a :: post /\
      (forall b x, b ∈ pre -> c b = Some x -> isNaN x = true \/ flt v x = true) /\
      (forall b x, b ∈ post -> c b = Some x -> flt x v = false))).
Proof.
  intros [W1 W2 W3 W4 W5 W6]. pose proof (improve_firstBest q c (actions q) [] (Inf false, 0%nat)) as F.
  specialize (F ltac:(left; split; [done|]; intros a x I; now apply elem_of_nil in I)). cbn [app] in F. unfold bestOf.
  destruct (fold_left (improve q c) (actions q) (Inf false, 0%nat)) as [v pol]. destruct F as [[E F]|(pre & a & post & D & Ca & Po & I & A & B)].
  - assert (v = Inf false) as -> by congruence. cbn [isPosInf fst snd].
    rewrite Nat.div_mul, Nat.Div0.mod_mul by lia. split_and!; [exact W3|exact W6|]. now left.
  - cbn [fst snd] in *. replace (isPosInf v) with false by now destruct v as [|[]|].
    assert (Ia : a ∈ actions q) by (rewrite D; apply elem_of_app; right; left). destruct (actions_decode q a Ia) as (L1 & L2 & Q).
    rewrite <- Po in Q. pose proof (f_equal fst Q) as Q1. pose proof (f_equal snd Q) as Q2. cbn [fst snd] in Q1, Q2.
    cbv zeta. cbn [fst snd]. rewrite Q, Q1, Q2. split_and!; [exact L1|exact L2|]. right. split_and!; [exact I|exact Ca|]. now exists pre, post.
Qed.

(** One entry of a table of slots, battery states and car states. *)
Definition entry {A : Type} (l : list (list (list A))) (t s e : nat) : option A :=
  match l !! t with Some v => match v !! s with Some r => r !! e | None => None end | None => None end.
Lemma entry_layer {B : Type} (g : f64 * nat -> B) q t slot v l si ei :
  l !! t = Some (fmap (M := list) g <$> layer q t slot v) -> (si < S_ q)%nat -> (ei < EL q)%nat ->
  entry l t si ei = Some (g (bestOf q (candidate q t slot v (socAt q si) (evSocAt q ei)))).
Proof.
  intros E Hs He. unfold entry, layer in *. rewrite E. rewrite !list_lookup_fmap, lookup_seq_lt by lia. cbn [fmap option_fmap option_map].
  now rewrite !list_lookup_fmap, lookup_seq_lt by lia.
Qed.

(** ** Properties: the solver *)

Definition someParams : Params :=
  mkParams ModeSelfConsumption 3 (of_Z 10000) (of_Z 0) (of_Z 1) (lit 1 2) (of_Z 0) 3 (of_Z 5000) (of_Z 5000) (of_Z 1) (of_Z 1) (of_Z 0)
    (mkPricing (of_Z 0) (of_Z 0) (of_Z 0) None) (of_Z 0) None [] [] (of_Z 0) [] false noCurtailment
    (of_Z 0) (of_Z 0) (of_Z 0) (of_Z 0).

(** ** Specification: a plan that replays *)
(** One action of the plan, from where the battery and the car stood. *)
Record actionOk (q : Problem) (t : nat) (slot : Slot) (soc evSoc : f64) (a : Action) : Prop := {
  ao_slot : aSlot a = slot;
  ao_grid : aGridW a = GridW (LoadW slot) (PVW slot) (BatteryW a) (LoadpointW a);
  ao_soc : SoC a = battSocAfter q soc (BatteryW a) (DurationHours slot) \/ BatteryW a = of_Z 0 /\ SoC a = soc;
  ao_band : operatingBoundWorsens soc (SoC a) (SoCMin (pr q)) (SoCMax (pr q)) = false;
  ao_car : match ev q with
           | Some g => LoadpointSoC a = evSocAfter g evSoc (LoadpointW a) (DurationHours slot) \/
                       LoadpointW a = of_Z 0 /\ LoadpointSoC a = evSoc
           | None => LoadpointW a = of_Z 0 /\ LoadpointSoC a = of_Z 0
           end;
  ao_room : forall cap carCap, capsAt q t = Some (cap, carCap) -> flt (of_Z 0) (LoadpointW a) = true -> flt carCap (aGridW a) = false;
  ao_cost : CostOre a = GridCostOre (PriceOre slot) (SpotOre slot) (kWh (aGridW a) (DurationHours slot)) (pricing (pr q))
}.
Fixpoint replays (q : Problem) (t : nat) (rest : list Slot) (soc evSoc : f64) (acts : list Action) : Prop :=
  match rest, acts with
  | [], [] => True
  | slot :: rest, a :: acts => actionOk q t slot soc evSoc a /\ replays q (S t) rest (SoC a) (LoadpointSoC a) acts
  | _, _ => False
  end.
(** A hint stands only where exporting earns nothing, and leaves what the
    house, the battery and the car use. *)
Definition hintOk (p : Params) (a : Action) : Prop :=
  PVLimitW a = of_Z 0 \/
  fle (of_Z 0) (aGridW a) = false /\ flt (of_Z 0) (ExportPriceOre (SpotOre (aSlot a)) (pricing p)) = false /\
  PVLimitW a = localUseW a /\ flt (localUseW a) (fneg (PVW (aSlot a))) = true.

(** ** Lemmas: the forward run *)
Lemma not_above_plus x d : wf x -> notNeg x -> rank d = 0 -> le_rel (of_Z 0) d -> flt (fadd x d) x = false.
Proof.
  intros W N D L. apply notNeg_cases in N as [->|[->|(z & -> & Z)]]; [reflexivity|destruct d as [|[]|]; try discriminate D; reflexivity|].
  apply le_flt_false, fadd_of_ge; [exact W|cbn; lia|now apply fadd_nn|exact L].
Qed.
Lemma lit_nonneg n d : 0 <= n -> 0 < d -> le_rel (of_Z 0) (lit n d).
Proof. 
  Transparent lit. intros N D. rewrite of_Z_0. unfold lit. apply rnd_nonneg; [|exact D]. apply Z.mul_nonneg_nonneg; [exact N|]. apply Z.lt_le_incl, unit64_pos.
  Opaque lit.
Qed.
Lemma eps_rank : rank (lit 1 1000000000) = 0.
Proof. vm_compute. reflexivity. Qed.
Lemma not_above_plus_eps x : wf x -> notNeg x -> flt (fadd x (lit 1 1000000000)) x = false.
Proof. intros W N. exact (not_above_plus x _ W N eps_rank (lit_nonneg 1 1000000000 ltac:(lia) ltac:(lia))). Qed.
Lemma operating_self soc lo hi : operatingBoundWorsens soc soc lo hi = false.
Proof.
  unfold operatingBoundWorsens. cbv zeta. rewrite !not_above_plus_eps; [reflexivity|apply fmax_wf; [apply of_Z_wf|apply fsub_wf]|
    apply notNeg_max0|apply fmax_wf; [apply of_Z_wf|apply fsub_wf]|apply notNeg_max0].
Qed.
Lemma forward_battery_ok q soc w dtH : let '(actW, soc2) := forwardBattery q soc w dtH in
  (soc2 = battSocAfter q soc actW dtH \/ actW = of_Z 0 /\ soc2 = soc) /\
  operatingBoundWorsens soc soc2 (SoCMin (pr q)) (SoCMax (pr q)) = false.
Proof.
  unfold forwardBattery. cbv zeta. destruct (operatingBoundWorsens _ _ _ _) eqn:E; [|now split; [left|]].
  split; [now right|apply operating_self].
Qed.
Lemma largestFitting_fits fits l : largestFitting fits l = of_Z 0 \/ fits (largestFitting fits l) = true.
Proof. induction l as [|w l IH]; cbn; [now left|]. destruct (fits w) eqn:E; [now right|exact IH]. Qed.
Lemma flt_zero_zero : flt (of_Z 0) (of_Z 0) = false.
Proof. apply flt_self. Qed.

Lemma car_gives_way_ok q t slot actW evSoc evW0 :
  let '(evW, evSoc2) := forwardCar q evSoc evW0 (DurationHours slot) in
  let '(evW, evSoc2) := carGivesWay q t slot actW evSoc evW evSoc2 in
  (forall cap carCap, capsAt q t = Some (cap, carCap) -> (ev q = None -> evW0 = of_Z 0) -> flt (of_Z 0) evW = true ->
     flt carCap (GridW (LoadW slot) (PVW slot) actW evW) = false) /\
  match ev q with
  | Some g => evSoc2 = evSocAfter g evSoc evW (DurationHours slot) \/ evW = of_Z 0 /\ evSoc2 = evSoc
  | None => evW = evW0 /\ evSoc2 = of_Z 0
  end.
Proof.
  unfold forwardCar, carGivesWay. destruct (ev q) as [g|]; cbv zeta.
  - destruct (if flt _ _ then (of_Z 0, evSoc) else (evW0, _)) as [evW evSoc2] eqn:E.
    assert (K : evSoc2 = evSocAfter g evSoc evW (DurationHours slot) \/ evW = of_Z 0 /\ evSoc2 = evSoc).
    { destruct (flt _ _); injection E as <- <-; [now right|now left]. }
    clear E. destruct (capsAt q t) as [[cap carCap]|]; [|split; [discriminate|exact K]].
    destruct (flt (of_Z 0) evW) eqn:P; cbn [andb]; [destruct (flt carCap _) eqn:C|].
    + split; [|now left]. intros ? ? X _ Q. assert (carCap0 = carCap) as -> by congruence.
      destruct (largestFitting_fits (fun w => fle (GridW (LoadW slot) (PVW slot) actW w) carCap) (rev (tail (evSteps g)))) as [Z|Z].
      * rewrite Z, flt_zero_zero in Q. discriminate.
      * apply le_flt_false. now apply fle_iff in Z.
    + split; [|exact K]. intros ? ? X _ _. now assert (carCap0 = carCap) as -> by congruence.
    + split; [|exact K]. intros ? ? _ _ Q. congruence.
  - destruct (capsAt q t) as [[cap carCap]|]; split; try done. intros ? ? _ Z Q. rewrite (Z eq_refl), flt_zero_zero in Q. discriminate.
Qed.
Lemma evActionW_no_car q k : ev q = None -> evActionW q k = of_Z 0.
Proof. unfold evActionW. now intros ->. Qed.
Lemma slotAction_ok q t slot pol soc evSoc : actionOk q t slot soc evSoc (slotAction q t slot pol soc evSoc).
Proof.
  unfold slotAction. set (choice := nth _ _ _). cbv zeta. pose proof (forward_battery_ok q soc (actionAt q (choice / EA q)) (DurationHours slot)) as B.
  destruct (forwardBattery q soc _ _) as [actW soc2]. destruct B as [B1 B2].
  pose proof (car_gives_way_ok q t slot actW evSoc (evActionW q (choice mod EA q))) as C.
  destruct (forwardCar q evSoc _ _) as [w0 s0]. destruct (carGivesWay q t slot actW evSoc w0 s0) as [evW evSoc2]. destruct C as [C1 C2].
  pose proof (evActionW_no_car q (choice mod EA q)) as Z. destruct (ev q) as [g|] eqn:G; constructor; cbn -[of_Z]; try done.
  - now rewrite G.
  - intros cap carCap X. exact (C1 cap carCap X Z).
  - destruct C2 as [-> ->]. now rewrite (Z eq_refl).
  - now rewrite G.
Qed.
Lemma simulate_replays q rest : forall t pols soc evSoc, length pols = length rest ->
  replays q t rest soc evSoc (simulate q t rest pols soc evSoc).
Proof.
  induction rest as [|slot rest IH]; intros t [|pol pols] soc evSoc L; try discriminate; [exact I|]. cbn [simulate replays].
  split; [apply slotAction_ok|]. apply IH. now injection L.
Qed.
Lemma annotate_same p a : let b := annotateAction p a in
  aSlot b = aSlot a /\ BatteryW b = BatteryW a /\ aGridW b = aGridW a /\ SoC b = SoC a /\ CostOre b = CostOre a /\
  LoadpointW b = LoadpointW a /\ LoadpointSoC b = LoadpointSoC a.
Proof. cbv zeta. unfold annotateAction. destruct (fle _ _); [done|]. destruct (flt _ _); [done|]. now destruct (flt _ _). Qed.
Lemma annotate_replays q rest : forall t soc evSoc acts, replays q t rest soc evSoc acts ->
  replays q t rest soc evSoc (annotateCurtailment (pr q) acts).
Proof.
  induction rest as [|slot rest IH]; intros t soc evSoc [|a acts] R; try done. destruct R as [A R]. cbn [annotateCurtailment fmap list_fmap replays].
  destruct (annotate_same (pr q) a) as (E1 & E2 & E3 & E4 & E5 & E6 & E7). split; [|rewrite E4, E7; now apply IH].
  destruct A. now constructor; rewrite ?E1, ?E2, ?E3, ?E4, ?E5, ?E6, ?E7.
Qed.
Lemma annotate_hint p a : PVLimitW a = of_Z 0 -> hintOk p (annotateAction p a).
Proof.
  intros Z. unfold annotateAction. destruct (fle (of_Z 0) (aGridW a)) eqn:G; [now left|].
  destruct (flt (of_Z 0) _) eqn:X; [now left|]. destruct (flt (localUseW a) _) eqn:L; [|now left]. right. now split_and!.
Qed.
Lemma simulate_unlimited q rest : forall t pols soc evSoc, Forall (fun a => PVLimitW a = of_Z 0) (simulate q t rest pols soc evSoc).
Proof.
  induction rest as [|slot rest IH]; intros t [|pol pols] soc evSoc; try apply Forall_nil_2. cbn [simulate]. constructor; [|apply IH].
  unfold slotAction. cbv zeta. destruct (forwardBattery q soc _ _). destruct (forwardCar q evSoc _ _). now destruct (carGivesWay _ _ _ _ _ _ _).
Qed.
Lemma annotate_total p acts c0 :
  fold_left (fun c a => fadd c (CostOre a)) (annotateCurtailment p acts) c0 = fold_left (fun c a => fadd c (CostOre a)) acts c0.
Proof.
  revert c0. induction acts as [|a acts IH]; intros c0; [done|]. cbn [annotateCurtailment fmap list_fmap fold_left].
  destruct (annotate_same p a) as (_ & _ & _ & _ & E & _). rewrite E. apply IH.
Qed.

(** ** Properties: the plan *)


(** ** The interpolation at a grid point *)
Lemma fadd_nan_r x : fadd x NaN = NaN.
Proof. now destruct x as [|[]|]. Qed.
Lemma interp_nan a b c x : fadd (fadd (fadd a b) (fmul (fmul (Fin 0) c) (Inf x))) (fmul (fmul (Fin 0) (Fin 0)) (Inf x)) = NaN.
Proof. replace (fmul (fmul (Fin 0) (Fin 0)) (Inf x)) with NaN by now destruct x. apply fadd_nan_r. Qed.

(** A legal action is thrown away when it lands exactly on a grid point
    below an infeasible state. The upper neighbour then has weight 0, but 0
    times an infinite value is not a number, so the total is NaN and compares
    below nothing: whatever the action costs and however poor the best so far
    is, the solver keeps it out. *)
Theorem exact_landing_is_lost (q : Problem) (t : nat) (slot : Slot) (v : list (list f64)) (soc evSoc : f64) (a : nat * nat)
    (best : f64 * nat) (lo : nat) :
  let next := battSocAfter q soc (actionAt q (fst a)) (DurationHours slot) in
  ev q = None -> feasible q t slot soc evSoc (actionAt q (fst a)) (evActionW q (snd a)) = true ->
  neighbours (fdiv (fsub next (SoCMin (pr q))) (socStep q)) (S_ q) = (lo, S lo, of_Z 0) ->
  valueAt v (S lo) 0 = Inf false ->
  candidate q t slot v soc evSoc a = Some NaN /\ improve q (candidate q t slot v soc evSoc) best a = best.
Proof.
  cbv zeta. intros E F N V. assert (C : candidate q t slot v soc evSoc a = Some NaN).
  { unfold candidate. rewrite F. unfold nextValue. rewrite N, E, V. cbv zeta. rewrite of_Z_0, interp_nan, fadd_nan_r. reflexivity. }
  split; [exact C|]. unfold improve. now rewrite C.
Qed.
Definition cornerProblem : Problem := mkProblem someParams [] 3 (lit 1 2) (of_Z 0) None [of_Z 0] 0 None.
Lemma exact_landing_is_lost_witness :
  candidate cornerProblem 0 (hourSlot 1) [[of_Z 0]; [of_Z 0]; [Inf false]] (lit 1 2) (of_Z 0) (0%nat, 0%nat) = Some NaN.
Proof.
  refine (proj1 (exact_landing_is_lost cornerProblem 0 (hourSlot 1) [[of_Z 0]; [of_Z 0]; [Inf false]] (lit 1 2) (of_Z 0) (0%nat, 0%nat)
    (Inf false, 0%nat) 1 _ _ _ _)); [reflexivity|vm_compute; reflexivity|vm_compute; reflexivity|reflexivity].
Defined.
