(* ===== verification/ParamsCheck.v ===== *)
(** * The planner's parameters (go/internal/mpc: params_validation.go)

    Both planning engines get only parameters that pass these checks, and a
    battery that drifted out of its band is pulled onto the nearest edge so
    that Core can still plan. *)
From Stdlib Require Import ZArith Lia.
From S2P Require Import Prelude Float64 GoTime Site PVCurtail.
From stdpp Require Import base gmap strings list.
From S2P Require Import PlanSlots PlanData.
#[local] Open Scope Z_scope.

Definition nonNegative (x : f64) : bool := negb (negb (finite x) || flt x (of_Z 0)).
Definition positive (x : f64) : bool := negb (negb (finite x) || fle x (of_Z 0)).
Definition validEfficiency (x : f64) (allowDefaultZero : bool) : bool :=
  negb (negb (finite x) || flt x (of_Z 0) || flt (of_Z 1) x || negb allowDefaultZero && feq x (of_Z 0)).
Definition planningValuesEqual (a b : f64) : bool :=
  fle (fabs (fsub a b)) (fmax (lit 1 1000000) (fmul (fmax (fabs a) (fabs b)) (lit 1 1000000000))).

(** ** Slots and limits *)
Definition validPlanningSlot (s : Slot) : bool :=
  forallb finite [PriceOre s; SpotOre s; PVW s; LoadW s; MaxImportW (Limits s); lMaxExportW (Limits s)] &&
  negb (flt (of_Z 0) (PVW s)) && negb (flt (LoadW s) (of_Z 0)) &&
  negb (flt (MaxImportW (Limits s)) (of_Z 0) || flt (lMaxExportW (Limits s)) (of_Z 0)).
Definition validatePlanningSlots (slots : list Slot) : bool :=
  negb (length slots =? 0)%nat && forallb validPlanningSlot slots.
Definition validateServiceGridLimits (fuseMaxW maxExportW : f64) : bool := nonNegative fuseMaxW && nonNegative maxExportW.

Record BatteryFleetMember : Type := mkMember { bfDriver : string; bfCapacityWh : f64; bfMaxChargeW : f64; bfMaxDischargeW : f64 }.
Fixpoint fleetMembers (seen : gset string) (fleet : list BatteryFleetMember) : bool :=
  match fleet with
  | [] => true
  | b :: rest =>
      negb (bool_decide (bfDriver b = EmptyString)) && negb (bool_decide (bfDriver b ∈ seen)) && positive (bfCapacityWh b) &&
      nonNegative (bfMaxChargeW b) && nonNegative (bfMaxDischargeW b) && fleetMembers ({[bfDriver b]} ∪ seen) rest
  end.
Definition validateBatteryFleetMembers (fleet : list BatteryFleetMember) : bool := fleetMembers ∅ fleet.

(** ** Storages *)
Definition validStorage (ids : gset string) (s : StorageAssetSpec) : bool :=
  negb (bool_decide (stID s = EmptyString)) && negb (bool_decide (stID s ∈ ids)) && positive (stCapacityWh s) &&
  negb (negb (finite (MinEnergyWh s)) || negb (finite (MaxEnergyWh s)) || flt (MinEnergyWh s) (of_Z 0) ||
        flt (MaxEnergyWh s) (MinEnergyWh s) || flt (stCapacityWh s) (MaxEnergyWh s)) &&
  negb (negb (finite (InitialEnergyWh s)) || flt (InitialEnergyWh s) (of_Z 0) || flt (stCapacityWh s) (InitialEnergyWh s)) &&
  nonNegative (stMaxChargeW s) && nonNegative (stMaxDischargeW s) && validEfficiency (stChargeEfficiency s) false &&
  validEfficiency (stDischargeEfficiency s) false.
Fixpoint validStorages (ids : gset string) (l : list StorageAssetSpec) : option (gset string) :=
  match l with
  | [] => Some ids
  | s :: rest => if validStorage ids s then validStorages ({[stID s]} ∪ ids) rest else None
  end.
Definition sumStorages (f : StorageAssetSpec -> f64) (p : Params) : f64 := fold_left (fun t s => fadd t (f s)) (Storages p) (of_Z 0).
(** The fleet as one battery must be the sum of its storages. *)
Definition aggregateMatches (p : Params) : bool :=
  let tol := fmax (of_Z 1) (fmul (CapacityWh p) (lit 2 10000)) in
  forallb (fun c : f64 * f64 * f64 => let '(got, want, tol) := c in negb (flt tol (fabs (fsub got want))))
    [(sumStorages stCapacityWh p, CapacityWh p, of_Z 1);
     (sumStorages InitialEnergyWh p, fmul (CapacityWh p) (InitialSoC p), tol);
     (sumStorages MinEnergyWh p, fmul (CapacityWh p) (SoCMin p), tol);
     (sumStorages MaxEnergyWh p, fmul (CapacityWh p) (SoCMax p), tol);
     (sumStorages stMaxChargeW p, MaxChargeW p, of_Z 2);
     (sumStorages stMaxDischargeW p, MaxDischargeW p, of_Z 2)].
Definition validateStorageSpecs (p : Params) (ids : gset string) : option (gset string) :=
  match validStorages ids (Storages p) with
  | None => None
  | Some ids => if (length (Storages p) =? 0)%nat || aggregateMatches p then Some ids else None
  end.

(** ** Chargers *)
Definition planningLoadpointSpecs (p : Params) : list (option LoadpointSpec) :=
  match Loadpoints p with [] => match Loadpoint p with Some l => [Some l] | None => [] end | l => l end.
Definition planningLoadpointBounds (l : LoadpointSpec) : f64 * f64 :=
  (evSoCMin l, if feq (evSoCMin l) (of_Z 0) && feq (evSoCMax l) (of_Z 0) then of_Z 1 else evSoCMax l).
Definition planningLoadpointEfficiency (l : LoadpointSpec) : f64 :=
  if feq (evChargeEfficiency l) (of_Z 0) then lit 9 10 else evChargeEfficiency l.
Definition inBounds (x max : f64) : bool := negb (negb (finite x) || flt x (of_Z 0) || flt max x).

Definition validLoadpoint (ids : gset string) (l : LoadpointSpec) : bool :=
  let '(minSoC, maxSoC) := planningLoadpointBounds l in
  negb (bool_decide (lpID l = EmptyString)) && negb (bool_decide (lpID l ∈ ids)) && positive (evCapacityWh l) && (2 <=? Levels l) &&
  negb (negb (finite minSoC) || negb (finite maxSoC) || flt minSoC (of_Z 0) || fle maxSoC minSoC || flt (of_Z 1) maxSoC) &&
  negb (negb (finite (evInitialSoC l)) || flt (evInitialSoC l) minSoC || flt maxSoC (evInitialSoC l)) &&
  negb (negb (finite (TargetSoC l)) || flt (TargetSoC l) (of_Z 0) || flt (of_Z 1) (TargetSoC l) ||
        fne (TargetSoC l) (of_Z 0) && (flt (TargetSoC l) minSoC || flt maxSoC (TargetSoC l))) &&
  negb (flt (of_Z 0) (TargetSoC l) && (TargetSlotIdx l <? 0)) && nonNegative (evMaxChargeW l) &&
  negb (negb (finite (MinChargeW l)) || flt (MinChargeW l) (of_Z 0) || flt (evMaxChargeW l) (MinChargeW l)) &&
  validEfficiency (evChargeEfficiency l) true && inBounds (MinChargeSeconds (Charging l)) (of_Z 86400) &&
  inBounds (StartCostOre (Charging l)) (of_Z 1000000) && inBounds (InitialChargeSeconds (Charging l)) (of_Z 31536000) &&
  forallb (fun w => negb (negb (finite w) || flt w (of_Z 0)) && negb (flt (of_Z 0) (evMaxChargeW l) && flt (evMaxChargeW l) w)) (AllowedStepsW l).
Fixpoint validateLoadpointSpecs (ids : gset string) (l : list (option LoadpointSpec)) : option (gset string) :=
  match l with
  | [] => Some ids
  | None :: rest => validateLoadpointSpecs ids rest
  | Some lp :: rest =>
      if negb (PluggedIn lp) then validateLoadpointSpecs ids rest
      else if validLoadpoint ids lp then validateLoadpointSpecs ({[lpID lp]} ∪ ids) rest
      else None
  end.

Definition planningLoadpointsEquivalent (fallback : option LoadpointSpec) (q : LoadpointSpec) : bool :=
  match fallback with
  | None => false
  | Some f =>
      let '(fmin, fmax) := planningLoadpointBounds f in
      let '(qmin, qmax) := planningLoadpointBounds q in
      Bool.eqb (PluggedIn f) (PluggedIn q) && bool_decide (lpID f = lpID q) && (Levels f =? Levels q) &&
      (TargetSlotIdx f =? TargetSlotIdx q) && Bool.eqb (SurplusOnly f) (SurplusOnly q) && Bool.eqb (NoBatteryToEV f) (NoBatteryToEV q) &&
      forallb (fun v => planningValuesEqual (fst v) (snd v))
        [(evCapacityWh f, evCapacityWh q); (fmin, qmin); (fmax, qmax); (evInitialSoC f, evInitialSoC q); (TargetSoC f, TargetSoC q);
         (evMaxChargeW f, evMaxChargeW q); (planningLoadpointEfficiency f, planningLoadpointEfficiency q)] &&
      (length (normalizedSteps f) =? length (normalizedSteps q))%nat &&
      forallb (fun v => planningValuesEqual (fst v) (snd v)) (zip (normalizedSteps f) (normalizedSteps q))
  end.

(** ** The whole request *)
Definition knownMode (m : PlannerMode) : bool := existsb (isMode m) [ModeSelfConsumption; ModeCheapCharge; ModePassiveArbitrage; ModeArbitrage].
Definition validNumbers (p : Params) : bool :=
  nonNegative (proofMinW (curtailment p)) && negb (flt (of_Z 0) (proofMinW (curtailment p)) && negb (curtailmentValid (curtailment p))) &&
  knownMode (pMode p) && (3 <=? SoCLevels p) && (3 <=? ActionLevels p) && nonNegative (CapacityWh p) &&
  negb (feq (CapacityWh p) (of_Z 0) &&
        (negb (length (Storages p) =? 0)%nat || fne (MaxChargeW p) (of_Z 0) || fne (MaxDischargeW p) (of_Z 0) || fne (InitialSoC p) (of_Z 0))) &&
  negb (negb (finite (SoCMin p)) || negb (finite (SoCMax p)) || flt (SoCMin p) (of_Z 0) || fle (SoCMax p) (SoCMin p) || flt (of_Z 1) (SoCMax p)) &&
  negb (negb (finite (InitialSoC p)) || flt (InitialSoC p) (of_Z 0) || flt (of_Z 1) (InitialSoC p)) &&
  nonNegative (MaxChargeW p) && nonNegative (MaxDischargeW p) && validEfficiency (ChargeEfficiency p) false &&
  validEfficiency (DischargeEfficiency p) false &&
  forallb finite [TerminalSoCPrice p; FlatOreKwh (pricing p); BonusOreKwh (pricing p); FeeOreKwh (pricing p)] &&
  match FloorOreKwh (pricing p) with Some f => finite f | None => true end &&
  forallb nonNegative [PVChargeBonusOreKwh p; MinArbitrageSpreadOreKwh p; PVUncertaintyW p; PVRelativeUncertainty p; PVForecastSafetyK p].
Definition validatePlanningParams (p : Params) : bool :=
  validNumbers p &&
  match validateStorageSpecs p ∅ with
  | None => false
  | Some storageIDs =>
      match validateLoadpointSpecs storageIDs (planningLoadpointSpecs p) with
      | None => false
      | Some _ =>
          negb (negb (length (Loadpoints p) =? 0)%nat && specActive (Loadpoint p) &&
                negb (bool_decide (is_Some (validateLoadpointSpecs storageIDs [Loadpoint p])))) &&
          match activeLoadpointSpecs (Loadpoints p) with [] => true | first :: _ => planningLoadpointsEquivalent (Loadpoint p) first end
      end
  end.

(** ** A battery outside its band *)
Definition planningParamsRequireRecovery (p : Params) : bool :=
  if feq (CapacityWh p) (of_Z 0) && (length (Storages p) =? 0)%nat then false
  else
    flt (InitialSoC p) (SoCMin p) || flt (SoCMax p) (InitialSoC p) ||
    existsb (fun s => flt (InitialEnergyWh s) (MinEnergyWh s) || flt (MaxEnergyWh s) (InitialEnergyWh s)) (Storages p).

Definition withInitialEnergy (e : f64) (s : StorageAssetSpec) : StorageAssetSpec :=
  mkStorage (stID s) (stCapacityWh s) e (MinEnergyWh s) (MaxEnergyWh s) (stMaxChargeW s) (stMaxDischargeW s) (stChargeEfficiency s)
    (stDischargeEfficiency s).
Definition withStart (soc unclamped : f64) (storages : list StorageAssetSpec) (p : Params) : Params :=
  mkParams (pMode p) (SoCLevels p) (CapacityWh p) (SoCMin p) (SoCMax p) soc (PVChargeBonusOreKwh p) (ActionLevels p) (MaxChargeW p)
    (MaxDischargeW p) (ChargeEfficiency p) (DischargeEfficiency p) (TerminalSoCPrice p) (pricing p) (MinArbitrageSpreadOreKwh p)
    (Loadpoint p) (Loadpoints p) storages (ImportMeanW p) (ImportHours p) (hasDemandCharges p) (curtailment p) unclamped (PVUncertaintyW p)
    (PVRelativeUncertainty p) (PVForecastSafetyK p).
Definition recoverable (p : Params) : bool :=
  negb (negb (finite (InitialSoC p)) || flt (InitialSoC p) (of_Z 0) || flt (of_Z 1) (InitialSoC p)) &&
  negb (negb (finite (SoCMin p)) || negb (finite (SoCMax p)) || flt (SoCMax p) (SoCMin p) || fle (CapacityWh p) (of_Z 0)) &&
  forallb (fun s =>
      negb (negb (finite (InitialEnergyWh s)) || flt (InitialEnergyWh s) (of_Z 0) || flt (stCapacityWh s) (InitialEnergyWh s)) &&
      negb (negb (finite (MinEnergyWh s)) || negb (finite (MaxEnergyWh s)) || flt (MaxEnergyWh s) (MinEnergyWh s)))
    (Storages p).
Definition clampStorage (s : StorageAssetSpec) : StorageAssetSpec :=
  withInitialEnergy (fmin (fmax (InitialEnergyWh s) (MinEnergyWh s)) (MaxEnergyWh s)) s.
(** Whether anything moved, whether the state could be recovered, and the
    parameters as the call leaves them. *)
Definition clampParamsIntoOperatingBand (p : Params) : bool * bool * Params :=
  if negb (recoverable p) then (false, false, p)
  else
    let storages := clampStorage <$> Storages p in
    let soc :=
      match storages with
      | [] => InitialSoC p
      | _ => fdiv (fold_left (fun t s => fadd t (InitialEnergyWh s)) storages (of_Z 0)) (CapacityWh p)
      end in
    let soc := fmin (fmax soc (SoCMin p)) (SoCMax p) in
    if feq soc (InitialSoC p) then (false, true, withStart soc (InitialSoCUnclamped p) storages p)
    else (true, true, withStart soc (InitialSoC p) storages p).

(** ** Specification: parameters both engines can plan *)
Definition num (x : f64) : Prop := rank x = 0 /\ le_rel (of_Z 0) x.
Record storageOk (s : StorageAssetSpec) : Prop := {
  sk_id : stID s <> EmptyString;
  sk_min : num (MinEnergyWh s);
  sk_band : le_rel (MinEnergyWh s) (MaxEnergyWh s);
  sk_top : le_rel (MaxEnergyWh s) (stCapacityWh s);
  sk_initial : num (InitialEnergyWh s);
  sk_inside : le_rel (InitialEnergyWh s) (stCapacityWh s);
  sk_capacity : num (stCapacityWh s);
  sk_charge : num (stMaxChargeW s);
  sk_discharge : num (stMaxDischargeW s);
  sk_eff : num (stChargeEfficiency s) /\ flt (of_Z 0) (stChargeEfficiency s) = true;
  sk_deff : num (stDischargeEfficiency s) /\ flt (of_Z 0) (stDischargeEfficiency s) = true
}.
Record paramsOk (p : Params) : Prop := {
  pk_capacity : num (CapacityWh p);
  pk_min : num (SoCMin p);
  pk_band : flt (SoCMin p) (SoCMax p) = true;
  pk_max : num (SoCMax p) /\ le_rel (SoCMax p) (of_Z 1);
  pk_initial : num (InitialSoC p) /\ le_rel (InitialSoC p) (of_Z 1);
  pk_charge : num (MaxChargeW p);
  pk_discharge : num (MaxDischargeW p);
  pk_eff : num (ChargeEfficiency p) /\ flt (of_Z 0) (ChargeEfficiency p) = true;
  pk_deff : num (DischargeEfficiency p) /\ flt (of_Z 0) (DischargeEfficiency p) = true;
  pk_storages : Forall storageOk (Storages p);
  pk_fleet : Storages p <> [] -> flt (of_Z 0) (CapacityWh p) = true;
  pk_ids : NoDup ((stID <$> Storages p) ++ (lpID <$> activeLoadpoints p))
}.

(** ** Lemmas: one number *)
Lemma finite_num x : negb (finite x) = false <-> rank x = 0.
Proof. rewrite negb_false_iff. apply finite_iff. Qed.
Lemma not_below x y : rank x = 0 -> rank y = 0 -> flt x y = false -> le_rel y x.
Proof. intros X Y F. apply (flt_false x y F); lia. Qed.
Lemma of_Z_0_rank : rank (of_Z 0) = 0.
Proof. apply of_Z_rank. lia. Qed.
Lemma of_Z_1_rank : rank (of_Z 1) = 0.
Proof. apply of_Z_rank. lia. Qed.
Lemma nonNegative_num x : nonNegative x = true -> num x.
Proof.
  unfold nonNegative. intros E. apply negb_true_iff, orb_false_iff in E as [F L]. apply finite_num in F.
  split; [exact F|]. now apply not_below; [|apply of_Z_0_rank|].
Qed.
Lemma not_le_flt x y : rank x = 0 -> rank y = 0 -> fle x y = false -> flt y x = true.
Proof. intros X Y F. apply fle_false_flt; [exact F|lia|lia]. Qed.
Lemma positive_num x : positive x = true -> num x /\ flt (of_Z 0) x = true.
Proof.
  unfold positive. intros E. apply negb_true_iff, orb_false_iff in E as [F L]. apply finite_num in F.
  assert (P : flt (of_Z 0) x = true) by (apply not_le_flt; [exact F|apply of_Z_0_rank|exact L]). split; [|exact P]. split; [exact F|]. now apply flt_le.
Qed.
Lemma efficiency_num x : validEfficiency x false = true -> num x /\ flt (of_Z 0) x = true.
Proof.
  unfold validEfficiency. intros E. apply negb_true_iff in E. apply orb_false_iff in E as [E Z]. apply orb_false_iff in E as [E _].
  apply orb_false_iff in E as [F L]. apply finite_num in F. cbn [negb andb] in Z. pose proof of_Z_0_rank as R.
  pose proof (not_below x (of_Z 0) F R L) as G. split; [now split|]. apply feq_false_iff in Z. apply flt_iff. unfold le_rel in G. lia.
Qed.
Lemma band_num lo hi v : negb (negb (finite v) || flt v lo || flt hi v) = true -> rank lo = 0 -> rank hi = 0 ->
  rank v = 0 /\ le_rel lo v /\ le_rel v hi.
Proof.
  intros E L H. apply negb_true_iff, orb_false_iff in E as [E C]. apply orb_false_iff in E as [A B]. apply finite_num in A.
  split_and!; [exact A|now apply not_below|now apply not_below].
Qed.

(** ** Lemmas: the assets *)
Lemma validStorage_ok ids s : validStorage ids s = true -> storageOk s /\ stID s ∉ ids.
Proof.
  unfold validStorage. intros E. rewrite !andb_true_iff in E. destruct E as [[[[[[[[I1 I2] C] B] N] X] Y] E1] E2].
  apply negb_true_iff, bool_decide_eq_false in I1, I2. apply positive_num in C as [C _]. pose proof C as [Cr _]. pose proof of_Z_0_rank as Z0.
  apply negb_true_iff in B. rewrite !orb_false_iff in B. destruct B as [[[[B1 B2] B3] B4] B5]. apply finite_num in B1, B2.
  apply band_num in N as (N1 & N2 & N3); [|exact Z0|exact Cr]. split; [|exact I2].
  constructor; [exact I1|split; [exact B1|now apply not_below]|now apply not_below|now apply not_below|now split|exact N3|exact C|
    now apply nonNegative_num|now apply nonNegative_num|now apply efficiency_num|now apply efficiency_num].
Qed.
Lemma validStorages_ok l : forall ids ids', validStorages ids l = Some ids' ->
  Forall storageOk l /\ NoDup (stID <$> l) /\ (forall id, id ∈ stID <$> l -> id ∉ ids) /\ (forall id, id ∈ ids' <-> id ∈ ids \/ id ∈ stID <$> l).
Proof.
  induction l as [|s l IH]; intros ids ids' E.
  - injection E as <-. split_and!; [constructor|constructor|intros ? I; now apply elem_of_nil in I|].
    intros id. split; [now left|intros [I|I]; [exact I|now apply elem_of_nil in I]].
  - cbn [validStorages] in E. destruct (validStorage ids s) eqn:V; [|discriminate]. destruct (validStorage_ok ids s V) as [K N].
    destruct (IH _ _ E) as (F & ND & D & M). split_and!; [now constructor| | |].
    + cbn [fmap list_fmap]. constructor; [|exact ND]. intros I. apply (D _ I). apply elem_of_union_l. now apply elem_of_singleton.
    + intros id I. cbn [fmap list_fmap] in I. apply elem_of_cons in I as [->|I]; [exact N|]. intros J. apply (D id I). now apply elem_of_union_r.
    + intros id. rewrite M, elem_of_union, elem_of_singleton. cbn [fmap list_fmap]. rewrite elem_of_cons. tauto.
Qed.

Definition pluggedIDs (l : list (option LoadpointSpec)) : list string :=
  omap (fun o => match o with Some s => if PluggedIn s then Some (lpID s) else None | None => None end) l.
Lemma loadpoints_ids l : forall ids ids', validateLoadpointSpecs ids l = Some ids' ->
  NoDup (pluggedIDs l) /\ (forall id, id ∈ pluggedIDs l -> id ∉ ids).
Proof.
  induction l as [|[s|] l IH]; intros ids ids' E; cbn [validateLoadpointSpecs] in E.
  - split; [constructor|intros ? I; now apply elem_of_nil in I].
  - unfold pluggedIDs. cbn [omap list_omap]. destruct (PluggedIn s); cbn [negb] in E; [|exact (IH _ _ E)].
    destruct (validLoadpoint ids s) eqn:V; [|discriminate]. destruct (IH _ _ E) as [ND D]. fold (pluggedIDs l).
    assert (N : lpID s ∉ ids).
    { unfold validLoadpoint in V. destruct (planningLoadpointBounds s). rewrite !andb_true_iff in V.
      destruct V as [[[[[[[[[[[[[[_ V] _] _] _] _] _] _] _] _] _] _] _] _] _]. now apply negb_true_iff, bool_decide_eq_false in V. }
    split; [constructor; [|exact ND]|].
    { intros I. apply (D _ I). apply elem_of_union_l. now apply elem_of_singleton. }
    intros id I. apply elem_of_cons in I as [->|I]; [exact N|]. intros J. apply (D id I). now apply elem_of_union_r.
  - exact (IH _ _ E).
Qed.
Lemma active_plugged l : (lpID <$> activeLoadpointSpecs l) `sublist_of` pluggedIDs l.
Proof.
  induction l as [|[s|] l IH]; [constructor| |exact IH]. unfold activeLoadpointSpecs, pluggedIDs in *. cbn [omap list_omap specActive].
  destruct (PluggedIn s); cbn [andb]; [|exact IH]. destruct (flt _ _ && _); [now constructor|now apply sublist_cons].
Qed.
Lemma active_ids p ids : (exists ids', validateLoadpointSpecs ids (planningLoadpointSpecs p) = Some ids') ->
  negb (negb (length (Loadpoints p) =? 0)%nat && specActive (Loadpoint p) &&
        negb (bool_decide (is_Some (validateLoadpointSpecs ids [Loadpoint p])))) = true ->
  NoDup (lpID <$> activeLoadpoints p) /\ forall id, id ∈ lpID <$> activeLoadpoints p -> id ∉ ids.
Proof.
  intros [ids' V] B.
  assert (K : forall l ids2, validateLoadpointSpecs ids l = Some ids2 ->
    NoDup (lpID <$> activeLoadpointSpecs l) /\ forall id, id ∈ lpID <$> activeLoadpointSpecs l -> id ∉ ids).
  { intros l ids2 E. destruct (loadpoints_ids l _ _ E) as [ND D]. pose proof (active_plugged l) as S. split; [exact (sublist_NoDup _ _ ND S)|].
    intros id I. apply D. apply (sublist_subseteq _ _ S), I. }
  unfold activeLoadpoints. destruct (activeLoadpointSpecs (Loadpoints p)) as [|x r] eqn:A.
  - destruct (Loadpoints p) as [|o rest] eqn:L.
    + unfold planningLoadpointSpecs in V. rewrite L in V. destruct (Loadpoint p) as [lp|]; [exact (K _ _ V)|].
      cbn. split; [constructor|intros ? I; now apply elem_of_nil in I].
    + cbn [length Nat.eqb negb andb] in B. destruct (specActive (Loadpoint p)) eqn:Ac; cbn [andb] in B.
      * apply negb_true_iff, negb_false_iff, bool_decide_eq_true in B as [ids2 B]. exact (K _ _ B).
      * unfold activeLoadpointSpecs. cbn [omap list_omap]. rewrite Ac. split; [constructor|intros ? I; now apply elem_of_nil in I].
  - unfold planningLoadpointSpecs in V. destruct (Loadpoints p) as [|o rest] eqn:L; [discriminate|]. rewrite <- A. exact (K _ _ V).
Qed.

(** ** Lemmas: the clamp *)
Lemma clamp_between x lo hi : rank lo = 0 -> rank hi = 0 -> le_rel lo hi -> let v := fmin (fmax x lo) hi in
  flt v lo = false /\ flt hi v = false /\ (le_rel lo x -> le_rel x hi -> v = x).
Proof.
  intros L H LH v. unfold v. split_and!; [| |intros A B; rewrite fmax_l by exact A; now apply fmin_l].
  all: destruct (isNaN x) eqn:N; [destruct x as [|[]|]; try discriminate; destruct lo as [|[]|], hi as [|[]|]; try discriminate; reflexivity|].
  all: apply isNaN_false_iff in N; apply le_flt_false.
  - apply fmin_glb; [|exact LH]. destruct (fmax_spec x lo N ltac:(lia)) as [[-> ?]|[-> ?]]; [assumption|apply le_rel_refl; lia].
  - assert (Nl : rank lo <> 2) by lia. assert (Nh : rank hi <> 2) by lia.
    destruct (fmin_spec (fmax x lo) hi (fmax_nn _ _ N Nl) Nh) as [[-> ?]|[-> ?]]; [assumption|apply le_rel_refl; lia].
Qed.
Lemma bandOk lo hi : negb (negb (finite lo) || negb (finite hi) || flt hi lo) = true -> rank lo = 0 /\ rank hi = 0 /\ le_rel lo hi.
Proof.
  intros E. apply negb_true_iff, orb_false_iff in E as [E C]. apply orb_false_iff in E as [A B]. apply finite_num in A, B.
  split_and!; [exact A|exact B|now apply not_below].
Qed.
(** A storage inside its band stays; outside, its energy moves onto the edge. *)
Definition pulled (s s' : StorageAssetSpec) : Prop :=
  flt (InitialEnergyWh s') (MinEnergyWh s) = false /\ flt (MaxEnergyWh s) (InitialEnergyWh s') = false /\
  s' = withInitialEnergy (InitialEnergyWh s') s /\
  (le_rel (MinEnergyWh s) (InitialEnergyWh s) -> le_rel (InitialEnergyWh s) (MaxEnergyWh s) -> s' = s).

Lemma validated_params_ok (p : Params) (Hv : validatePlanningParams p = true) : paramsOk p.
Proof.
  unfold validatePlanningParams in Hv. apply andb_true_iff in Hv as [N V]. unfold validateStorageSpecs in V.
  destruct (validStorages ∅ (Storages p)) as [ids|] eqn:E; [|discriminate]. destruct (_ || aggregateMatches p); [|discriminate].
  destruct (validateLoadpointSpecs ids (planningLoadpointSpecs p)) as [ids'|] eqn:L; [|discriminate]. apply andb_true_iff in V as [V _].
  destruct (validStorages_ok _ _ _ E) as (F & ND & _ & M). destruct (active_ids p ids (ex_intro _ ids' L) V) as [NA D].
  unfold validNumbers in N. rewrite !andb_true_iff in N. destruct N as [[[[[[[[[[[[[[[_ _] _] _] _] C] Cz] B] I] X] Y] E1] E2] _] _] _].
  pose proof of_Z_0_rank as Z0. pose proof of_Z_1_rank as Z1.
  apply negb_true_iff in B. rewrite !orb_false_iff in B. destruct B as [[[[B1 B2] B3] B4] B5]. apply finite_num in B1, B2.
  apply band_num in I as (I1 & I2 & I3); [|exact Z0|exact Z1].
  assert (Lt : flt (SoCMin p) (SoCMax p) = true) by now apply not_le_flt.
  assert (Mn : le_rel (of_Z 0) (SoCMin p)) by now apply not_below.
  constructor; [now apply nonNegative_num|now split|exact Lt| |split; [now split|exact I3]|now apply nonNegative_num|now apply nonNegative_num|
    now apply efficiency_num|now apply efficiency_num|exact F| |].
  - split; [|now apply not_below]. split; [exact B2|]. exact (le_rel_trans _ _ _ Mn (flt_le _ _ Lt)).
  - intros Ns. apply negb_true_iff in Cz. destruct (Storages p) as [|s l]; [congruence|]. cbn [length Nat.eqb negb orb andb] in Cz.
    rewrite andb_true_r in Cz. apply feq_false_iff in Cz. destruct (nonNegative_num _ C) as [Cr Cn]. apply flt_iff. unfold le_rel in Cn. lia.
  - apply NoDup_app. split_and!; [exact ND| |exact NA]. intros id I J. apply (D id J). apply M. now right.
Qed.
(** ** Properties *)

Definition plainParams : Params :=
  mkParams ModeSelfConsumption 3 (of_Z 10000) (of_Z 0) (of_Z 1) (lit 1 2) (of_Z 0) 3 (of_Z 5000) (of_Z 5000) (of_Z 1) (of_Z 1) (of_Z 0)
    (mkPricing (of_Z 0) (of_Z 0) (of_Z 0) None) (of_Z 0) None [] [] (of_Z 0) [] false noCurtailment (of_Z 0) (of_Z 0) (of_Z 0) (of_Z 0).

(** Pulling a drifted battery back always works out. A state that is not
    physically possible is refused and left as it was. Any other comes back
    inside every band, so it needs no recovery any more: storages inside their
    band keep their energy, the others move onto the edge, nothing else
    changes, and when the start moved its real value is recorded. *)
Theorem clamp_reaches_band (p : Params) :
  let '(moved, ok, q) := clampParamsIntoOperatingBand p in
  ok = recoverable p /\ (ok = false -> moved = false /\ q = p) /\
  (ok = true -> planningParamsRequireRecovery q = false /\ Forall2 pulled (Storages p) (Storages q) /\
     q = withStart (InitialSoC q) (InitialSoCUnclamped q) (Storages q) p /\
     InitialSoCUnclamped q = (if moved then InitialSoC p else InitialSoCUnclamped p) /\
     (Storages p = [] -> le_rel (SoCMin p) (InitialSoC p) -> le_rel (InitialSoC p) (SoCMax p) -> moved = false /\ InitialSoC q = InitialSoC p)).
Proof.
  unfold clampParamsIntoOperatingBand. destruct (recoverable p) eqn:R; cbn [negb]; [|split_and!; [reflexivity|now split|discriminate]].
  unfold recoverable in R. rewrite !andb_true_iff in R. destruct R as [[R1 R2] R3]. cbv zeta.
  set (soc0 := match clampStorage <$> Storages p with [] => _ | _ => _ end).
  assert (S0 : Storages p = [] -> soc0 = InitialSoC p) by (unfold soc0; intros ->; reflexivity). clearbody soc0.
  apply negb_true_iff, orb_false_iff in R2 as [R2 _]. destruct (bandOk (SoCMin p) (SoCMax p)) as (B1 & B2 & B3); [now rewrite R2|].
  pose proof (clamp_between soc0 _ _ B1 B2 B3) as C. cbv zeta in C. destruct C as (C1 & C2 & C3). set (soc := fmin (fmax soc0 _) _) in *. clearbody soc.
  assert (P : Forall2 pulled (Storages p) (clampStorage <$> Storages p)).
  { clear S0. induction (Storages p) as [|s l IH]; [constructor|]. cbn [forallb] in R3. apply andb_true_iff in R3 as [R R3]. apply andb_true_iff in R as [_ R].
    constructor; [|now apply IH]. destruct (bandOk _ _ R) as (M1 & M2 & M3).
    destruct (clamp_between (InitialEnergyWh s) _ _ M1 M2 M3) as (D1 & D2 & D3). unfold pulled, clampStorage. cbn [InitialEnergyWh withInitialEnergy].
    split_and!; [exact D1|exact D2|reflexivity|]. intros L H. rewrite (D3 L H). now destruct s. }
  assert (Rec : forall u, planningParamsRequireRecovery (withStart soc u (clampStorage <$> Storages p) p) = false).
  { intros u. unfold planningParamsRequireRecovery. cbn [InitialSoC SoCMin SoCMax Storages CapacityWh withStart]. rewrite C1, C2. cbn [orb].
    destruct (_ && _); [reflexivity|]. clear -P. induction P as [|s s' l l' H P IH]; [reflexivity|]. cbn [existsb].
    rewrite IH, orb_false_r. destruct H as (H1 & H2 & H3 & _). rewrite H3. cbn [MinEnergyWh MaxEnergyWh InitialEnergyWh withInitialEnergy].
    now rewrite H1, H2. }
  destruct (feq soc (InitialSoC p)) eqn:F; (split_and!; [reflexivity|discriminate|]); intros _; (split_and!; [apply Rec|exact P|reflexivity|reflexivity|]);
    intros E L H; specialize (S0 E); subst soc0; specialize (C3 L H); subst soc.
  - now split.
  - exfalso. assert (feq (InitialSoC p) (InitialSoC p) = true); [|congruence]. apply feq_iff. apply le_rel_nn_r in L. lia.
Qed.
