(* ===== verification/PlanInputs.v ===== *)
(** * What a plan is made from (go/internal/mpc/service.go)

    The slots of a plan out of price and forecast rows, the solar power it may
    count on, the prices its last charge is worth, and the batteries that are
    there for it. The learned predictors are arguments; the rows' sources and
    fetch times, which only label a slot, are left out. *)
From Stdlib Require Import ZArith Lia.
From stdpp Require Import base gmap strings list.
From S2P Require Import Prelude Float64 GoTime Health Telemetry PlanSlots ParamsCheck PlanData.
#[local] Open Scope Z_scope.

Record PricePoint : Type := mkPrice { prSlotTsMs : Z; prSlotLenMin : Z; prSpotOreKwh : f64; prTotalOreKwh : f64 }.
Record ForecastPoint : Type := mkForecastPoint {
  fpSlotTsMs : Z; fpSlotLenMin : Z; fpCloudCoverPct : option f64; fpSolarWm2 : option f64; fpPVWEstimated : option f64; fpSource : string
}.
Definition lenOr60 (len : Z) : Z := if len <=? 0 then 60 else len.
Definition rowEnd (ts len : Z) : Z := i64 (ts + i64 (lenOr60 len * 60000)).
Definition rowCovers (ts : Z) (f : ForecastPoint) : bool := (fpSlotTsMs f <=? ts) && (ts <? rowEnd (fpSlotTsMs f) (fpSlotLenMin f)).

(** ** Rows for a time *)
Fixpoint lookupHasRadiation (forecasts : list ForecastPoint) (ts : Z) : bool :=
  match forecasts with
  | [] => false
  | f :: rest =>
      if rowCovers ts f
      then bool_decide (is_Some (fpPVWEstimated f)) &&
           (bool_decide (is_Some (fpSolarWm2 f)) || String.eqb (fpSource f) "forecast_solar")
      else lookupHasRadiation rest ts
  end.
(** The row that covers a time; rows are in order, so a later one ends the
    search. *)
Fixpoint coveringRow (forecasts : list ForecastPoint) (ts : Z) : option ForecastPoint :=
  match forecasts with
  | [] => None
  | f :: rest => if rowCovers ts f then Some f else if ts <? fpSlotTsMs f then None else coveringRow rest ts
  end.
Definition lookupCloudInput (forecasts : list ForecastPoint) (ts : Z) : f64 * option ForecastPoint :=
  match coveringRow forecasts ts with
  | Some f => (default (of_Z 50) (fpCloudCoverPct f), Some f)
  | None => (of_Z 50, None)
  end.
Definition lookupCloud (forecasts : list ForecastPoint) (ts : Z) : f64 := fst (lookupCloudInput forecasts ts).
Definition lookupPVInput (forecasts : list ForecastPoint) (ts : Z) : f64 * option ForecastPoint :=
  match coveringRow forecasts ts with
  | Some f => (default (of_Z 0) (fpPVWEstimated f), Some f)
  | None => (of_Z 0, None)
  end.

(** ** Solar power *)
Definition plannerMinForecastPVFallbackW : f64 := of_Z 200.
Definition plannerMaxCollapsedPVW : f64 := of_Z 50.
Definition plannerMaxCollapsedPVFrac : f64 := lit 10 100.
Definition PlannerRadiationWeight : f64 := lit 3 10.
Definition selectPlannerPVWithWeight (forecastPVW predictedPVW : f64) (radiationBacked : bool) (weight : f64) : f64 :=
  let forecastPVW := if isNaN forecastPVW || isInf forecastPVW || flt forecastPVW (of_Z 0) then of_Z 0 else forecastPVW in
  let blend w := fadd (fmul (fsub (of_Z 1) w) forecastPVW) (fmul w predictedPVW) in
  if isNaN predictedPVW || isInf predictedPVW || flt predictedPVW (of_Z 0) then forecastPVW
  else if radiationBacked then
    if feq forecastPVW (of_Z 0) then of_Z 0
    else blend (fmax (of_Z 0) (fmin (of_Z 1) (if isNaN weight || isInf weight then of_Z 0 else weight)))
  else if flt forecastPVW plannerMinForecastPVFallbackW then predictedPVW
  else
    let ceiling := fmax plannerMaxCollapsedPVW (fmul forecastPVW plannerMaxCollapsedPVFrac) in
    blend (fmin (of_Z 1) (fdiv predictedPVW ceiling)).

Section Slots.
Variable pv : option (Time -> f64 -> f64).
Variable pvCorrect : option (Time -> Time -> f64 -> f64).
Variable load : option (Time -> f64).
Variable weight : option (Time -> f64).
Definition plannedPV (forecasts : list ForecastPoint) (now : Time) (pr : PricePoint) : f64 :=
  let ts := prSlotTsMs pr in
  let '(forecastPVW, forecastInput) := lookupPVInput forecasts ts in
  match pv with
  | None => forecastPVW
  | Some pv =>
      let '(cloud, cloudInput) := lookupCloudInput forecasts ts in
      if bool_decide (forecastInput = None) && bool_decide (cloudInput = None) then of_Z 0
      else
        let slotT := of_UnixMilli ts in
        let base := pv slotT cloud in
        let base :=
          match pvCorrect with
          | Some correct =>
              let mid := of_UnixMilli (i64 (ts + i64 (lenOr60 (prSlotLenMin pr) * 30000))) in
              let corrected := fadd base (correct now mid base) in
              if flt corrected (of_Z 0) then of_Z 0 else corrected
          | None => base
          end in
        selectPlannerPVWithWeight forecastPVW base (lookupHasRadiation forecasts ts)
          match weight with Some w => w slotT | None => PlannerRadiationWeight end
  end.
Definition slotOf (forecasts : list ForecastPoint) (baseLoad : f64) (nowMs : Z) (pr : PricePoint) : option Slot :=
  if rowEnd (prSlotTsMs pr) (prSlotLenMin pr) <=? nowMs then None
  else
    Some (mkPlanSlot 0 (prSlotTsMs pr) (lenOr60 (prSlotLenMin pr)) (prTotalOreKwh pr) (prSpotOreKwh pr)
            (fneg (fabs (plannedPV forecasts (of_UnixMilli nowMs) pr)))
            match load with Some load => load (of_UnixMilli (prSlotTsMs pr)) | None => baseLoad end (mkLimits (of_Z 0) (of_Z 0))).
Definition buildSlots (prices : list PricePoint) (forecasts : list ForecastPoint) (baseLoad : f64) (nowMs : Z) : list Slot :=
  omap (slotOf forecasts baseLoad nowMs) prices.
End Slots.

Definition withPV (pv : f64) (s : Slot) : Slot :=
  mkPlanSlot (ExecutionStartMs s) (StartMs s) (LenMin s) (PriceOre s) (SpotOre s) pv (LoadW s) (Limits s).
Definition withLoad (w : f64) (s : Slot) : Slot :=
  mkPlanSlot (ExecutionStartMs s) (StartMs s) (LenMin s) (PriceOre s) (SpotOre s) (PVW s) w (Limits s).
(** Less solar power than forecast, by as much as the forecast may be off. *)
Definition floorGen (gen : f64) : f64 := if flt gen (of_Z 0) then of_Z 0 else gen.
Definition cutShare (k sigmaRel : f64) (s : Slot) : Slot :=
  let gen := fneg (PVW s) in
  if fle gen (of_Z 0) then s else withPV (fneg (floorGen (fsub gen (fmul (fmul k sigmaRel) gen)))) s.
Definition cutWatts (haircut : f64) (s : Slot) : Slot := withPV (fneg (floorGen (fsub (fneg (PVW s)) haircut))) s.
Definition applyPVDownside (k sigmaW : f64) (slots : list Slot) : list Slot :=
  if fle k (of_Z 0) || fle sigmaW (of_Z 0) then slots else cutWatts (fmul k sigmaW) <$> slots.
Definition applyPVDownsidePerSlot (k sigmaRel sigmaAbsW : f64) (slots : list Slot) : list Slot :=
  if negb (flt (of_Z 0) sigmaRel) then applyPVDownside k sigmaAbsW slots
  else if fle k (of_Z 0) then slots else cutShare k sigmaRel <$> slots.
Definition overlayLiveHouseLoad (loadW : f64) (ok : bool) (slots : list Slot) : list Slot :=
  match slots with
  | s :: rest =>
      if ok then withLoad (if isNaN loadW || isInf loadW || flt loadW (of_Z 0) then of_Z 0 else loadW) s :: rest else slots
  | [] => []
  end.
(** The published loads that are not those of the point forecast. *)
Definition recoveredLoads (point published : list Slot) : list bool :=
  imap (fun i s => match point !! i with Some q => fne (LoadW s) (LoadW q) | None => false end) published.

(** ** What the last charge is worth *)
Definition meanOf (l : list f64) : f64 := fdiv (fold_left fadd l (of_Z 0)) (of_Z (Z.of_nat (length l))).
Definition selfConsumptionTerminalPrice (prices : list PricePoint) : f64 :=
  match prices with [] => of_Z 0 | _ => meanOf (map prTotalOreKwh prices) end.
Definition upperHalfMeanPrice (prices : list PricePoint) : f64 :=
  match prices with
  | [] => of_Z 0
  | _ =>
      if (length prices <=? 4)%nat then meanOf (map prTotalOreKwh prices)
      else let vals := sortFloats (map prTotalOreKwh prices) in meanOf (drop (length vals / 2) vals)
  end.

(** ** The batteries that are there *)
Definition freshBatterySoC (now : Time) (r : option DerReading) : bool :=
  match r with
  | Some r =>
      match Telemetry.SoC r with
      | Some soc =>
          finite soc && negb (flt soc (of_Z 0)) && negb (flt (of_Z 1) soc) && negb (IsZero (SoCUpdatedAt r)) &&
          (0 <=? Sub now (SoCUpdatedAt r)) && (Sub now (SoCUpdatedAt r) <=? BatterySoCMaxAge)
      | None => false
      end
  | None => false
  end.
Definition currentSoC (t : option Store) (now : Time) (fallback : f64) : option f64 :=
  match t with
  | None => Some fallback
  | Some t =>
      let counted := List.filter (fun b => match GetHealth (Driver b) t with Some h => IsOnline h | None => true end && freshBatterySoC now (Some b))
        (ReadingsByType DerBattery t) in
      match counted with
      | [] => None
      | _ => Some (meanOf (map (fun b => default (of_Z 0) (Telemetry.SoC b)) counted))
      end
  end.
(** A member that is online with a fresh level, and that level. *)
Definition presentMember (t : Store) (now : Time) (b : BatteryFleetMember) : option (BatteryFleetMember * f64) :=
  if String.eqb (bfDriver b) "" || fle (bfCapacityWh b) (of_Z 0) then None
  else if match GetHealth (bfDriver b) t with Some h => IsOnline h | None => false end then
    let r := Get (bfDriver b) DerBattery t in
    if freshBatterySoC now r then Some (b, match r with Some r => default (of_Z 0) (Telemetry.SoC r) | None => of_Z 0 end) else None
  else None.
Definition storageOf (p : Params) (chargeScale dischargeScale : f64) (m : BatteryFleetMember * f64) : StorageAssetSpec :=
  let '(b, soc) := m in
  mkStorage (bfDriver b) (bfCapacityWh b) (fmul soc (bfCapacityWh b)) (fmul (bfCapacityWh b) (SoCMin p)) (fmul (bfCapacityWh b) (SoCMax p))
    (fmul (bfMaxChargeW b) chargeScale) (fmul (bfMaxDischargeW b) dischargeScale) (ChargeEfficiency p) (DischargeEfficiency p).
Definition sumMembers (f : BatteryFleetMember * f64 -> f64) (l : list (BatteryFleetMember * f64)) : f64 :=
  fold_left (fun t m => fadd t (f m)) l (of_Z 0).
Definition withFleet (capacity soc maxCharge maxDischarge : f64) (storages : list StorageAssetSpec) (p : Params) : Params :=
  mkParams (pMode p) (SoCLevels p) capacity (SoCMin p) (SoCMax p) soc (PVChargeBonusOreKwh p) (ActionLevels p) maxCharge maxDischarge
    (ChargeEfficiency p) (DischargeEfficiency p) (TerminalSoCPrice p) (pricing p) (MinArbitrageSpreadOreKwh p) (Loadpoint p) (Loadpoints p)
    storages (ImportMeanW p) (ImportHours p) (hasDemandCharges p) (curtailment p) (InitialSoCUnclamped p) (PVUncertaintyW p)
    (PVRelativeUncertainty p) (PVForecastSafetyK p).
Definition underFuse (fuseMaxW w : f64) : f64 := if flt (of_Z 0) fuseMaxW && flt fuseMaxW w then fuseMaxW else w.
Definition shareOf (limit total : f64) : f64 := if flt (of_Z 0) total && flt limit total then fdiv limit total else of_Z 1.
Definition onlineFleetParams (t : option Store) (now : Time) (p : Params) (fleet : list BatteryFleetMember) (fuseMaxW : f64) : option Params :=
  match t with
  | None => None
  | Some t =>
      let present := omap (presentMember t now) fleet in
      let totalCap := sumMembers (fun m => bfCapacityWh (fst m)) present in
      if fle totalCap (of_Z 0) then None
      else
        let maxCharge := sumMembers (fun m => bfMaxChargeW (fst m)) present in
        let maxDischarge := sumMembers (fun m => bfMaxDischargeW (fst m)) present in
        let charge := underFuse fuseMaxW maxCharge in
        let discharge := underFuse fuseMaxW maxDischarge in
        Some (withFleet totalCap (fdiv (sumMembers (fun m => fmul (snd m) (bfCapacityWh (fst m))) present) totalCap) charge discharge
                (storageOf p (shareOf charge maxCharge) (shareOf discharge maxDischarge) <$> present) p)
  end.

(** ** Lemmas *)
Lemma lenOr60_idem len : lenOr60 (lenOr60 len) = lenOr60 len.
Proof. unfold lenOr60. destruct (Z.leb_spec len 0); [reflexivity|]. destruct (Z.leb_spec len 0); [lia|reflexivity]. Qed.
Lemma fneg_fabs_not_above x : flt (of_Z 0) (fneg (fabs x)) = false.
Proof. rewrite of_Z_0. destruct x as [|[]|z]; [reflexivity..|]. unfold fabs, fneg. apply flt_false_iff. cbn. lia. Qed.
Lemma slotOf_ok pv pvCorrect load weight forecasts baseLoad nowMs pr s :
  slotOf pv pvCorrect load weight forecasts baseLoad nowMs pr = Some s ->
  nowMs < rowEnd (StartMs s) (LenMin s) /\ 0 < LenMin s /\ flt (of_Z 0) (PVW s) = false.
Proof.
  unfold slotOf. destruct (Z.leb_spec (rowEnd (prSlotTsMs pr) (prSlotLenMin pr)) nowMs) as [|L]; [discriminate|].
  intros E. apply (inj Some) in E as <-. cbn [StartMs LenMin PVW]. unfold rowEnd in *. rewrite lenOr60_idem. split; [exact L|].
  split; [unfold lenOr60; destruct (Z.leb_spec (prSlotLenMin pr) 0); lia|]. apply fneg_fabs_not_above.
Qed.
(** Every built slot still has time left and never plans a house that makes
    solar power negative. *)
Theorem buildSlots_ok pv pvCorrect load weight prices forecasts baseLoad nowMs :
  Forall (fun s => nowMs < rowEnd (StartMs s) (LenMin s) /\ 0 < LenMin s /\ flt (of_Z 0) (PVW s) = false)
    (buildSlots pv pvCorrect load weight prices forecasts baseLoad nowMs).
Proof.
  apply Forall_forall. intros s E. apply list_elem_of_omap in E as (pr & _ & E). exact (slotOf_ok _ _ _ _ _ _ _ _ _ E).
Qed.
