(* ===== verification/PlanRequests.v ===== *)
(** * The planner's requests (go/internal/mpc/service.go, planning_status.go)

    Solves run beside each other: a newer request cancels the older one, one
    worker takes what was asked for in the background, and only the newest
    request may publish. A request is its generation; [running] holds those a
    goroutine works on, [canceled] those the service cancelled. What a solve
    computes is an argument of its publication. Generations are not wrapped at
    2^64. *)
From Stdlib Require Import ZArith Lia.
From stdpp Require Import base gmap strings list.
From S2P Require Import Prelude Float64 GoTime PlanSlots PlanData PlanDirective PlanInputs.
#[local] Open Scope Z_scope.

Record Planner : Type := mkPlanner {
  plState : PlanState; plActive : option Z; plCanceled : gset Z; plQueued : option Z; plWorker : bool;
  plRunning : gset Z; plStopping : bool; plError : string; plReason : string; plReplanAt : Time
}.
Definition NewPlanner (defaults : Params) : Planner :=
  mkPlanner (mkPlanState None true 0 0 0 defaults defaults "") None ∅ None false ∅ false "" "" zeroTime.
Definition latest (s : Planner) : Z := psLatest (plState s).
Definition withState (p : PlanState) (s : Planner) : Planner :=
  mkPlanner p (plActive s) (plCanceled s) (plQueued s) (plWorker s) (plRunning s) (plStopping s) (plError s) (plReason s) (plReplanAt s).
Definition withLatest (g : Z) (p : PlanState) : PlanState :=
  mkPlanState (psLast p) (psCurrentContract p) g (psPublished p) (psFailed p) (psParams p) (psDefaults p) (psLoadpointID p).
Definition withFailed (g : Z) (p : PlanState) : PlanState :=
  mkPlanState (psLast p) (psCurrentContract p) (psLatest p) (psPublished p) g (psParams p) (psDefaults p) (psLoadpointID p).
Definition withDefaults (d : Params) (p : PlanState) : PlanState :=
  mkPlanState (psLast p) (psCurrentContract p) (psLatest p) (psPublished p) (psFailed p) (psParams p) d (psLoadpointID p).
Definition withRunning (running : gset Z) (s : Planner) : Planner :=
  mkPlanner (plState s) (plActive s) (plCanceled s) (plQueued s) (plWorker s) running (plStopping s) (plError s) (plReason s) (plReplanAt s).
Definition withQueue (queued : option Z) (worker : bool) (s : Planner) : Planner :=
  mkPlanner (plState s) (plActive s) (plCanceled s) queued worker (plRunning s) (plStopping s) (plError s) (plReason s) (plReplanAt s).
Definition withError (e : string) (s : Planner) : Planner :=
  mkPlanner (plState s) (plActive s) (plCanceled s) (plQueued s) (plWorker s) (plRunning s) (plStopping s) e (plReason s) (plReplanAt s).
Definition cancelActive (s : Planner) : gset Z := match plActive s with Some g => {[g]} ∪ plCanceled s | None => plCanceled s end.

(** [None] when the service is stopping. *)
Definition beginReplan (s : Planner) : Planner * option Z :=
  if plStopping s then (s, None)
  else
    let g := latest s + 1 in
    (mkPlanner (withLatest g (plState s)) (Some g) (cancelActive s) (plQueued s) (plWorker s) (plRunning s) (plStopping s) ""
       (plReason s) (plReplanAt s), Some g).
Definition planningStopped (contextErr : option string) : string :=
  match contextErr with
  | Some e => ("Planning stopped: " ++ e)%string
  | None => "Planning did not produce a usable plan"
  end.
(** A request ends; the newest one without a plan of its own has failed. *)
Definition finishReplan (g : Z) (contextErr : option string) (s : Planner) : Planner :=
  let s := withRunning (plRunning s ∖ {[g]}) s in
  if negb (g =? latest s) then s
  else
    let failed := negb (psPublished (plState s) =? g) in
    mkPlanner (if failed then withFailed g (plState s) else plState s) None (plCanceled s) (plQueued s) (plWorker s) (plRunning s)
      (plStopping s) (if failed && String.eqb (plError s) "" then planningStopped contextErr else plError s) (plReason s) (plReplanAt s).
Definition IsReplanning (s : Planner) : bool := bool_decide (is_Some (plActive s)).

(** A direct request runs in its caller; a background one waits for the worker
    and replaces the one that waited. *)
Definition replan (s : Planner) : Planner :=
  match beginReplan s with (s, Some g) => withRunning ({[g]} ∪ plRunning s) s | (s, None) => s end.
Definition requestReplan (change : Params -> Params) (s : Planner) : Planner :=
  let s := withState (withDefaults (change (psDefaults (plState s))) (plState s)) s in
  match beginReplan s with
  | (s, None) => s
  | (s, Some g) =>
      let previous := plQueued s in
      let s := withQueue (Some g) true s in
      match previous with Some q => finishReplan q (Some "context canceled"%string) s | None => s end
  end.
Definition takeQueued (s : Planner) : Planner :=
  match plQueued s with
  | None => withQueue None false s
  | Some g => withRunning ({[g]} ∪ plRunning s) (withQueue None (plWorker s) s)
  end.
Definition failedReplan (g : Z) (message : string) (s : Planner) : Planner :=
  if (g =? latest s) && negb (bool_decide (g ∈ plCanceled s)) then withError message s else s.
Definition firstSlotExpired (actions : list Action) (now : Time) : bool :=
  match actions with [] => true | a :: _ => actionEndMs a <=? UnixMilli now end.
Definition withHouseLoad (w : f64) (a : Action) : Action :=
  mkAction (withLoad w (aSlot a)) (BatteryW a) (aGridW a) (SoC a) (CostOre a) (Reason a) (PlanData.PVLimitW a) (LoadpointW a) (LoadpointSoC a)
    (PlanData.PVCurtailActive a) (StoragePowerW a) (StorageEnergyWh a) (LoadpointPowerW a) (PlanData.LoadpointMaxPowerW a) (LoadpointSoCByID a).
Definition sanitizePlanLoads (plan : Plan) : Plan :=
  mkPlan (plMode plan) (HorizonSlots plan) (plCapacityWh plan) (plInitialSoC plan) (TotalCostOre plan)
    (map (fun a => withHouseLoad (sanitizeLoadW (LoadW (aSlot a))) a) (Actions plan)) (LoadpointShortfallWh plan).
(** The gate before a solved plan becomes the one in force. *)
Definition publish (g : Z) (plan : Plan) (decisionID : string) (generatedAtMs : Z) (params : Params) (lpID reason : string)
    (planningNow wall : Time) (s : Planner) : Planner :=
  if plStopping s || bool_decide (g ∈ plCanceled s) then s
  else if negb (g =? latest s) then s
  else if firstSlotExpired (Actions plan) planningNow then
    if String.eqb reason "slot_elapsed" || bool_decide (g ∈ plCanceled s) then s else requestReplan (fun p => p) s
  else
    let p := plState s in
    let used := if String.eqb (pMode params) "" then psDefaults p else params in
    let plan := sanitizePlanLoads plan in
    mkPlanner
      (mkPlanState (Some (mkPublished plan decisionID generatedAtMs (livePVSurplusSoCCaps (Actions plan) used))) true (psLatest p) g
         (psFailed p) params (psDefaults p) lpID)
      (plActive s) (plCanceled s) (plQueued s) (plWorker s) (plRunning s) (plStopping s) "" reason wall.
Definition Stop (s : Planner) : Planner :=
  mkPlanner (plState s) (plActive s) (cancelActive s) (plQueued s) (plWorker s) (plRunning s) true (plError s) (plReason s) (plReplanAt s).

(** ** Interleavings *)
Inductive planOp : Type :=
| Replan
| RequestReplan (change : Params -> Params)
| TakeQueued
| Refused (g : Z) (message : string)
| Solved (g : Z) (plan : Plan) (decisionID : string) (generatedAtMs : Z) (params : Params) (lpID reason : string) (planningNow wall : Time)
| Finished (g : Z) (contextErr : option string)
| Stopped.
(** A solve acts only while it runs. *)
Definition planStep (s : Planner) (o : planOp) : Planner :=
  let guarded g s' := if bool_decide (g ∈ plRunning s) then s' else s in
  match o with
  | Replan => replan s
  | RequestReplan change => requestReplan change s
  | TakeQueued => takeQueued s
  | Refused g message => guarded g (failedReplan g message s)
  | Solved g plan decisionID generatedAtMs params lpID reason planningNow wall =>
      guarded g (publish g plan decisionID generatedAtMs params lpID reason planningNow wall s)
  | Finished g contextErr => guarded g (finishReplan g contextErr s)
  | Stopped => Stop s
  end.
Definition planRun (ops : list planOp) (s : Planner) : Planner := fold_left planStep ops s.

(** ** Lemmas *)
(** The newest request is under way, or it is over and left its plan or its
    failure. *)
Record settledOk (s : Planner) : Prop := mkSettledOk {
  stPublished : psPublished (plState s) <= latest s;
  stFailed : psFailed (plState s) <= latest s;
  stRunning : forall g, g ∈ plRunning s -> g <= latest s;
  stQueued : forall q, plQueued s = Some q -> q <= latest s /\ q ∉ plRunning s;
  stNewest :
    plActive s = Some (latest s) /\ (latest s ∈ plRunning s \/ plQueued s = Some (latest s)) \/
    plActive s = None /\ (latest s ∉ plRunning s) /\ plQueued s <> Some (latest s) /\
      (psPublished (plState s) = latest s \/ psFailed (plState s) = latest s)
}.
Lemma NewPlanner_ok defaults : settledOk (NewPlanner defaults).
Proof.
  constructor; cbn; try lia; [set_solver|discriminate|]. right. split; [reflexivity|]. split; [set_solver|]. split; [discriminate|now left].
Qed.
Lemma replan_ok s : settledOk s -> settledOk (replan s).
Proof.
  intros [P F R Q N]. unfold replan, beginReplan. destruct (plStopping s); [now constructor|].
  unfold latest in *. constructor; cbn -[Z.add]; try lia.
  - intros g G. apply elem_of_union in G as [G|G]; [apply elem_of_singleton in G; lia|]. specialize (R g G). lia.
  - intros q E. destruct (Q q E) as [Q1 Q2]. split; [lia|]. apply not_elem_of_union. split; [|exact Q2]. apply not_elem_of_singleton. lia.
  - left. split; [reflexivity|]. left. set_solver.
Qed.
Lemma requestReplan_ok change s : settledOk s -> settledOk (requestReplan change s).
Proof.
  intros [P F R Q N]. unfold requestReplan, beginReplan. change (plStopping (withState _ s)) with (plStopping s).
  destruct (plStopping s); [now constructor|]. unfold latest in *. cbn -[Z.add].
  assert (Base : settledOk (withQueue (Some (latest s + 1)) true
    (mkPlanner (withLatest (latest s + 1) (withDefaults (change (psDefaults (plState s))) (plState s))) (Some (latest s + 1)) (cancelActive s)
       (plQueued s) (plWorker s) (plRunning s) false "" (plReason s) (plReplanAt s)))).
  { constructor; cbn -[Z.add]; unfold latest in *; try lia.
    - intros g G. specialize (R g G). cbn -[Z.add]. lia.
    - intros q E. injection E as <-. split; [cbn -[Z.add]; lia|]. intros G. specialize (R _ G). lia.
    - left. split; [reflexivity|now right]. }
  destruct (plQueued s) as [q|] eqn:E; [|exact Base]. destruct (Q q eq_refl) as [Q1 _].
  unfold finishReplan. cbn -[Z.add]. unfold latest in *. cbn -[Z.add]. destruct (Z.eqb_spec q (psLatest (plState s) + 1)); [lia|]. cbn [negb].
  destruct Base as [P' F' R' Q' N']. unfold latest in *. cbn -[Z.add] in *. constructor; cbn -[Z.add]; auto.
  - intros g G. apply R'. set_solver.
  - intros q' E'. destruct (Q' q' E'). split; [assumption|set_solver].
Qed.
Lemma takeQueued_ok s : settledOk s -> settledOk (takeQueued s).
Proof.
  intros [P F R Q N]. unfold takeQueued, latest in *. destruct (plQueued s) as [g|] eqn:E.
  - destruct (Q g eq_refl) as [Q1 Q2]. constructor; unfold latest; cbn; auto; [|discriminate|].
    + intros x G. apply elem_of_union in G as [G|G]; [apply elem_of_singleton in G; lia|now apply R].
    + destruct N as [(A & [B|B])|(A & B & C & D)]; [left; split; [exact A|set_solver]|left; split; [exact A|]|right].
      * injection B as ->. left. set_solver.
      * split; [exact A|]. split; [|split; [discriminate|exact D]]. intros G. apply elem_of_union in G as [G|G]; [|auto].
        apply elem_of_singleton in G. congruence.
  - split; [exact P|exact F|exact R|discriminate|]. destruct N as [(A & [B|B])|(A & B & C & D)]; [left; auto|discriminate B|right].
    repeat split; auto; discriminate.
Qed.
Lemma finishReplan_ok g e s : g ∈ plRunning s -> settledOk s -> settledOk (finishReplan g e s).
Proof.
  intros G [P F R Q N]. unfold finishReplan, latest in *. cbn [withRunning plState]. destruct (Z.eqb_spec g (psLatest (plState s))) as [->|Ng]; cbn [negb].
  - set (failed := negb (psPublished (plState s) =? psLatest (plState s))).
    assert (Lt : psLatest (if failed then withFailed (psLatest (plState s)) (plState s) else plState s) = psLatest (plState s)) by now destruct failed.
    constructor; unfold latest; cbn [plState plRunning plQueued plActive withRunning]; rewrite ?Lt.
    + destruct failed; exact P.
    + destruct failed; [cbn; lia|exact F].
    + intros x X. apply R. set_solver.
    + intros q E. destruct (Q q E) as [Q1 Q2]. split; [exact Q1|set_solver].
    + right. split; [reflexivity|]. split; [set_solver|]. split.
      * intros E. destruct (Q _ E) as [_ Q2]. contradiction.
      * unfold failed. destruct (Z.eqb_spec (psPublished (plState s)) (psLatest (plState s))); cbn [negb]; [now left|now right].
  - constructor; unfold latest; cbn [plState plRunning plQueued plActive withRunning]; auto.
    + intros x X. apply R. set_solver.
    + intros q E. destruct (Q q E) as [Q1 Q2]. split; [exact Q1|set_solver].
    + destruct N as [(A & [B|B])|(A & B & C & D)]; [left; split; [exact A|left; set_solver]|left; auto|right].
      repeat split; auto. set_solver.
Qed.
Lemma publish_ok g plan id ms params lp reason pn wall s : settledOk s -> settledOk (publish g plan id ms params lp reason pn wall s).
Proof.
  intros H. unfold publish. destruct (_ || _); [exact H|]. destruct (Z.eqb_spec g (latest s)) as [->|]; cbn [negb]; [|exact H].
  destruct (firstSlotExpired _ _); [destruct (_ || _); [exact H|now apply requestReplan_ok]|].
  destruct H as [P F R Q N]. unfold latest in *. constructor; unfold latest; cbn; auto; [lia|].
  destruct N as [N|(A & B & C & _)]; [now left|right]. repeat split; auto.
Qed.
Lemma planStep_ok s o : settledOk s -> settledOk (planStep s o).
Proof.
  intros H. destruct o; cbn [planStep].
  - now apply replan_ok.
  - now apply requestReplan_ok.
  - now apply takeQueued_ok.
  - destruct (bool_decide _); [|exact H]. unfold failedReplan. destruct (_ && _); [|exact H]. destruct H as [P F R Q N]. now constructor.
  - destruct (bool_decide _); [now apply publish_ok|exact H].
  - destruct (bool_decide (g ∈ plRunning s)) eqn:E; [|exact H]. apply bool_decide_eq_true in E. now apply finishReplan_ok.
  - destruct H as [P F R Q N]. now constructor.
Qed.
Lemma planRun_ok ops s : settledOk s -> settledOk (planRun ops s).
Proof. unfold planRun. revert s. induction ops as [|o ops IH]; intros s H; cbn [fold_left]; [exact H|]. apply IH. now apply planStep_ok. Qed.
Lemma usable_not_failed allowed wall p : psPublished p < psFailed p -> usablePlan allowed wall p = None.
Proof. intros L. unfold usablePlan. destruct (psLast p); [|reflexivity]. apply Z.ltb_lt in L. now rewrite L. Qed.
(** A step leaves the plan in force, or publishes the newest request's. *)
Lemma requestReplan_plan change s : psLast (plState (requestReplan change s)) = psLast (plState s) /\
  psPublished (plState (requestReplan change s)) = psPublished (plState s).
Proof.
  unfold requestReplan, beginReplan. change (plStopping (withState _ s)) with (plStopping s). destruct (plStopping s); [now split|].
  destruct (plQueued _); [|now split]. unfold finishReplan. destruct (negb _); [now split|]. destruct (negb _); now split.
Qed.
Lemma planStep_plan s o : settledOk s ->
  psLast (plState (planStep s o)) = psLast (plState s) /\ psPublished (plState (planStep s o)) = psPublished (plState s) \/
  psPublished (plState (planStep s o)) = latest s /\ latest (planStep s o) = latest s /\ latest s ∈ plRunning s /\
    (latest s ∉ plCanceled s) /\ plStopping s = false.
Proof.
  intros H. destruct o; cbn [planStep].
  - left. unfold replan, beginReplan. destruct (plStopping s); now split.
  - left. apply requestReplan_plan.
  - left. unfold takeQueued. destruct (plQueued s); now split.
  - left. destruct (bool_decide _); [|now split]. unfold failedReplan. destruct (_ && _); now split.
  - destruct (bool_decide (g ∈ plRunning s)) eqn:E; [|left; now split]. apply bool_decide_eq_true in E. unfold publish.
    destruct (plStopping s) eqn:S; [left; now split|]. cbn [orb]. destruct (bool_decide (g ∈ plCanceled s)) eqn:C; [left; now split|].
    apply bool_decide_eq_false in C. destruct (Z.eqb_spec g (latest s)) as [->|]; cbn [negb]; [|left; now split].
    destruct (firstSlotExpired _ _); [left; destruct (_ || _); [now split|apply requestReplan_plan]|].
    right. now repeat split.
  - left. destruct (bool_decide _); [|now split]. unfold finishReplan. destruct (negb _); [now split|]. destruct (negb _); now split.
  - left. now split.
Qed.

(** C7: However requests, solves, failures and cancellations interleave, a
    solve replaces the plan in force only if its request is the newest, is still
    running and was not cancelled, so the plan's request only gets newer; and
    once nothing runs or waits, either the newest request's plan is in force or
    dispatch gets no plan at all. *)
Theorem newest_request_decides defaults ops : let s := planRun ops (NewPlanner defaults) in
  psPublished (plState s) <= latest s /\
  (forall o, let s' := planStep s o in
     psPublished (plState s) <= psPublished (plState s') /\
     (psLast (plState s') = psLast (plState s) \/
      psPublished (plState s') = latest s' /\ latest s ∈ plRunning s /\ (latest s ∉ plCanceled s) /\ plStopping s = false)) /\
  (plRunning s = ∅ -> plQueued s = None ->
     IsReplanning s = false /\
     (psPublished (plState s) = latest s \/ forall allowed wall, usablePlan allowed wall (plState s) = None)).
Proof.
  intros s. pose proof (planRun_ok ops (NewPlanner defaults) (NewPlanner_ok defaults)) as H. fold s in H. clearbody s.
  split; [exact (stPublished s H)|]. split.
  - intros o s'. destruct (planStep_plan s o H) as [[A B]|(A & B & C & D & E)].
    + split; [fold s' in B; rewrite B; apply Z.le_refl|now left].
    + pose proof (stPublished s H) as P. unfold s'. rewrite A, B. split; [exact P|now right].
  - intros R Q. destruct (stNewest s H) as [(_ & [X|X])|(A & _ & _ & [P|F])].
    + rewrite R in X. set_solver.
    + rewrite Q in X. discriminate X.
    + split; [unfold IsReplanning; rewrite A; reflexivity|now left].
    + split; [unfold IsReplanning; rewrite A; reflexivity|]. pose proof (stPublished s H) as P. unfold latest in *.
      destruct (Z.eq_dec (psPublished (plState s)) (psLatest (plState s))) as [E|N]; [now left|right].
      intros allowed wall. apply usable_not_failed. lia.
Qed.

(** An owner changes the mode while a solve runs. The old solve is thrown away
    and the worker's plan comes into force. *)
Definition mode_change : list planOp :=
  [Replan; RequestReplan (fun p => p); Solved 1 hourPlan "old" 1700000000000 hourParams "" "scheduled" (of_UnixMilli 1700000000000) zeroTime;
   Finished 1 (Some "context canceled"%string); TakeQueued;
   Solved 2 hourPlan "new" 1700000000000 hourParams "" "mode_changed" (of_UnixMilli 1700000000000) zeroTime; Finished 2 None].
Example old_solve_thrown_away :
  let s := planRun mode_change (NewPlanner hourParams) in
  (pbDecisionID <$> psLast (plState s)) = Some "new"%string /\ psPublished (plState s) = 2 /\ psFailed (plState s) = 0 /\ plActive s = None.
Proof. vm_compute. repeat split; reflexivity. Qed.
Lemma newest_request_decides_witness :
  let s := planRun mode_change (NewPlanner hourParams) in
  IsReplanning s = false /\ (psPublished (plState s) = latest s \/ forall allowed wall, usablePlan allowed wall (plState s) = None).
Proof. refine (proj2 (proj2 (newest_request_decides hourParams mode_change)) _ _); vm_compute; reflexivity. Defined.
