(* ===== verification/PlanCheck.v ===== *)
(** * Replaying a plan (go/internal/mpc: external_optimizer.go ValidatePlan,
    ev_reserve.go, import_hours.go, fleet_contract.go, charging_periods.go)

    No plan reaches dispatch unreplayed: Core recomputes every number of a
    candidate from its own inputs and rejects the whole plan on the first
    disagreement. *)
From Stdlib Require Import ZArith Lia.
From S2P Require Import Prelude Float64 GoTime Site Limits PlanSlots.
From stdpp Require Import base gmap strings list.
From S2P Require Import PlanSlots PlanData ParamsCheck.
#[local] Open Scope Z_scope.

Definition solverGridLimitToleranceW : f64 := lit 1 10.
Definition solverZeroPowerToleranceW : f64 := lit 1 100000.
(** An absent key of a Go map of numbers reads as zero. *)
Definition getF (m : gmap string f64) (k : string) : f64 := default (of_Z 0) (m !! k).
Definition empty_map (m : gmap string f64) : bool := (size m =? 0)%nat.
Definition has (m : gmap string f64) (k : string) : bool := bool_decide (is_Some (m !! k)).
(** [math.Abs(x-y) > tol] *)
Definition apart (tol x y : f64) : bool := flt tol (fabs (fsub x y)).

(** ** The assets of an action *)
Definition someValue (f : f64 -> bool) (m : gmap string f64) : bool := existsb (fun kv => f (snd kv)) (map_to_list m).
Definition validateAssetMaps (p : Params) (a : Action) : bool :=
  let loads := activeLoadpoints p in
  negb (someValue (flt (of_Z 2)) (StoragePowerW a) && someValue (fun w => flt w (of_Z (-2))) (StoragePowerW a)) &&
  negb (feq (CapacityWh p) (of_Z 0) &&
        (negb (length (Storages p) =? 0)%nat || negb (empty_map (StoragePowerW a)) || negb (empty_map (StorageEnergyWh a)) ||
         fne (BatteryW a) (of_Z 0) || fne (SoC a) (of_Z 0) || fne (InitialSoC p) (of_Z 0))) &&
  negb ((requiresStorageMaps p || (0 <? length (Storages p))%nat && negb (empty_map (StoragePowerW a))) &&
        (negb (size (StoragePowerW a) =? length (Storages p))%nat || negb (size (StorageEnergyWh a) =? length (Storages p))%nat)) &&
  negb (((1 <? length loads)%nat || negb (empty_map (LoadpointPowerW a))) &&
        (negb (size (LoadpointPowerW a) =? length loads)%nat || negb (size (LoadpointSoCByID a) =? length loads)%nat ||
         existsb (fun e => negb (has (LoadpointPowerW a) (lpID e)) || negb (has (LoadpointSoCByID a) (lpID e))) loads)).

(** ** Pulses *)
Section Pulses.
Context `{MapIter}.

Definition pulseCut (a : Action) (acc : list f64 * f64) (kv : string * f64) : list f64 * f64 :=
  let '(id, peak) := kv in
  let average := getF (LoadpointPowerW a) id in
  (if flt (of_Z 0) peak && flt (of_Z 0) average && flt average peak then fst acc ++ [fdiv average peak] else fst acc,
   fadd (snd acc) average).
Definition pulseState (a : Action) (totalAverage lo hi : f64) : f64 * f64 :=
  let midpoint := fdiv (fadd lo hi) (of_Z 2) in
  (fsub hi lo,
   fold_left (fun grid kv =>
       if flt (of_Z 0) (snd kv) && flt midpoint (fdiv (getF (LoadpointPowerW a) (fst kv)) (snd kv)) then fadd grid (snd kv) else grid)
     (map_iter (LoadpointMaxPowerW a)) (fsub (aGridW a) totalAverage)).
Fixpoint consecutive {A B : Type} (f : A -> A -> B) (l : list A) : list B :=
  match l with x :: ((y :: _) as r) => f x y :: consecutive f r | _ => [] end.
(** Each pulse state's share of the slot and its grid flow. *)
Definition pulseGridW (a : Action) : list (f64 * f64) :=
  if empty_map (LoadpointMaxPowerW a) then [(of_Z 1, aGridW a)]
  else
    let '(cuts, totalAverage) := fold_left (pulseCut a) (map_iter (LoadpointMaxPowerW a)) ([of_Z 0; of_Z 1], of_Z 0) in
    consecutive (pulseState a totalAverage) (sortFloats cuts).

Definition SlotGridCostOre (s : Slot) (gridKWh : f64) (p : Params) : f64 := GridCostOre (PriceOre s) (SpotOre s) gridKWh (pricing p).
Definition reserveSlotCost (s : Slot) (p : Params) (a : Action) : f64 :=
  if empty_map (LoadpointMaxPowerW a) then SlotGridCostOre s (kWh (aGridW a) (DurationHours s)) p
  else
    fold_left (fun cost sg => fadd cost (fmul (fst sg) (SlotGridCostOre s (kWh (snd sg) (DurationHours s)) p)))
      (pulseGridW a) (of_Z 0).

(** One car of a pulse: the least and the most it draws, and what of that must
    be solar. *)
Definition pulseCar (slot : Slot) (a : Action) (pvW : f64) (vehicleRules : bool) (acc : option (f64 * f64 * f64 * nat)) (lp : LoadpointSpec)
  : option (f64 * f64 * f64 * nat) :=
  match acc, LoadpointMaxPowerW a !! lpID lp, LoadpointPowerW a !! lpID lp with
  | Some (minEV, maxEV, solarPeak, i), Some peak, Some average =>
      if negb (finite peak) || negb (finite average) || flt average (of_Z 0) || flt peak (of_Z 0) then None
      else
        let average := if fle average (lit 1 10000000) then of_Z 0 else average in
        let peak := if fle peak (lit 1 10000000) then of_Z 0 else peak in
        if flt peak average || feq average (of_Z 0) && fne peak (of_Z 0) then None
        else if (i =? 0)%nat && apart (lit 1 1000000) (LoadpointW a) average then None
        else if vehicleRules && flt (of_Z 0) peak && blocksBatteryToEV lp &&
                BatteryDischargeFeedsEV (BatteryW a) peak (LoadW slot) pvW then None
        else Some (if feq average peak then fadd minEV peak else minEV, fadd maxEV peak,
                   if SurplusOnly lp then fadd solarPeak peak else solarPeak, S i)
  | _, _, _ => None
  end.
Definition exceedsGridLimits (l : PlanLimits) (gridW : f64) : bool :=
  flt (of_Z 0) (MaxImportW l) && flt (fadd (MaxImportW l) solverGridLimitToleranceW) gridW ||
  flt (of_Z 0) (lMaxExportW l) && flt gridW (fsub (fneg (lMaxExportW l)) solverGridLimitToleranceW).
Definition pulseEnd (slot : Slot) (p : Params) (a : Action) (pvW : f64) (vehicleRules : bool) (power : f64) : bool :=
  let baseline := fadd (fadd (LoadW slot) pvW) power in
  let grid := fadd baseline (BatteryW a) in
  negb (exceedsGridLimits (Limits slot) grid) && modeAllows (pMode p) baseline grid (BatteryW a) &&
  negb (vehicleRules && flt (of_Z 0) power && flt (BatteryW a) (of_Z 0) && flt grid (of_Z (-50))).
Definition validateEVPulse (slot : Slot) (p : Params) (a : Action) (pvW : f64) (vehicleRules : bool) : bool :=
  if empty_map (LoadpointMaxPowerW a) then true
  else
    let loads := activeLoadpoints p in
    if negb (length loads =? size (LoadpointMaxPowerW a))%nat then false
    else
      match fold_left (pulseCar slot a pvW vehicleRules) loads (Some (of_Z 0, of_Z 0, of_Z 0, 0%nat)) with
      | None => false
      | Some (minEV, maxEV, solarPeak, _) =>
          negb (SurplusOnlyExceedsHousePV solarPeak (LoadW slot) pvW) &&
          pulseEnd slot p a pvW vehicleRules minEV && pulseEnd slot p a pvW vehicleRules maxEV
      end.
End Pulses.

(** ** The replay *)
Definition EffectivePVW (pvW pvLimitW : f64) (curtailActive : bool) : f64 :=
  if negb curtailActive then pvW else fneg (if flt pvLimitW (of_Z 0) then of_Z 0 else pvLimitW).
Definition departureMissWh (l : LoadpointSpec) : f64 :=
  if InitialCharging (Charging l) || fle (MinChargeSeconds (Charging l)) (of_Z 0) then of_Z 1
  else
    let efficiency := if fle (evChargeEfficiency l) (of_Z 0) then lit 9 10 else evChargeEfficiency l in
    match List.find (flt (of_Z 0)) (normalizedSteps l) with
    | Some step => bmax (of_Z 1) (fdiv (fmul (fdiv (fmul step (MinChargeSeconds (Charging l))) (of_Z 3600)) efficiency) (of_Z 2))
    | None => of_Z 1
    end.

(** What the replay carries from slot to slot. *)
Record Replay : Type := mkReplay {
  rSoC : f64; storageEnergy : gmap string f64; storageLower : gmap string f64; storageUpper : gmap string f64;
  lowerSoC : f64; upperSoC : f64; evSoC : gmap string f64; deadlineShortfall : gmap string f64; totalCost : f64
}.
Definition byStorage (f : StorageAssetSpec -> f64) (p : Params) : gmap string f64 :=
  fold_left (fun m s => <[stID s := f s]> m) (Storages p) ∅.
Definition replayStart (p : Params) : Replay :=
  mkReplay (InitialSoC p) (byStorage InitialEnergyWh p)
    (byStorage (fun s => fmax (of_Z 0) (fsub (MinEnergyWh s) (InitialEnergyWh s))) p)
    (byStorage (fun s => fmax (of_Z 0) (fsub (InitialEnergyWh s) (MaxEnergyWh s))) p)
    (fmax (of_Z 0) (fsub (SoCMin p) (InitialSoC p))) (fmax (of_Z 0) (fsub (InitialSoC p) (SoCMax p)))
    (fold_left (fun m l => <[lpID l := evInitialSoC l]> m) (activeLoadpoints p) ∅) ∅ (of_Z 0).

Definition storageToleranceWh (s : StorageAssetSpec) : f64 := fmax (of_Z 1) (fmul (stCapacityWh s) (lit 2 10000)).
(** One storage: its new energy and recoveries, and the sums so far. *)
Definition replayStorage (dtH : f64) (a : Action) (acc : option (Replay * f64 * f64)) (s : StorageAssetSpec) : option (Replay * f64 * f64) :=
  match acc, StoragePowerW a !! stID s, StorageEnergyWh a !! stID s with
  | Some (r, totalPowerW, totalEnergyWh), Some powerW, Some reportedWh =>
      if negb (finite powerW) || negb (finite reportedWh) then None
      else if flt (fadd (stMaxChargeW s) (of_Z 2)) powerW || flt powerW (fsub (fneg (stMaxDischargeW s)) (of_Z 2)) then None
      else
        let energyWh := fadd (getF (storageEnergy r) (stID s))
                          (BatteryEnergyDeltaWh powerW dtH (stChargeEfficiency s) (stDischargeEfficiency s)) in
        let tol := storageToleranceWh s in
        if flt energyWh (fneg tol) || flt (fadd (stCapacityWh s) tol) energyWh || apart tol reportedWh energyWh then None
        else
          let lower := fmax (of_Z 0) (fsub (MinEnergyWh s) energyWh) in
          let upper := fmax (of_Z 0) (fsub energyWh (MaxEnergyWh s)) in
          let lower0 := getF (storageLower r) (stID s) in
          let upper0 := getF (storageUpper r) (stID s) in
          if flt (fadd lower0 tol) lower || flt (fadd upper0 tol) upper then None
          else
            Some (mkReplay (rSoC r) (<[stID s := energyWh]> (storageEnergy r)) (<[stID s := fmin lower0 lower]> (storageLower r))
                    (<[stID s := fmin upper0 upper]> (storageUpper r)) (lowerSoC r) (upperSoC r) (evSoC r) (deadlineShortfall r) (totalCost r),
                  fadd totalPowerW powerW, fadd totalEnergyWh energyWh)
  | _, _, _ => None
  end.
Definition withSoC (soc : f64) (r : Replay) : Replay :=
  mkReplay soc (storageEnergy r) (storageLower r) (storageUpper r) (lowerSoC r) (upperSoC r) (evSoC r) (deadlineShortfall r) (totalCost r).
(** The battery side of a slot: every storage on its own where the action has
    them, otherwise the fleet as one. *)
Definition replayBattery (p : Params) (dtH : f64) (a : Action) (r : Replay) : option Replay :=
  if negb (length (Storages p) =? 0)%nat && negb (empty_map (StoragePowerW a)) then
    match fold_left (replayStorage dtH a) (Storages p) (Some (r, of_Z 0, of_Z 0)) with
    | None => None
    | Some (r, totalPowerW, totalEnergyWh) =>
        if apart (of_Z 2) (BatteryW a) totalPowerW then None else Some (withSoC (fdiv totalEnergyWh (CapacityWh p)) r)
    end
  else if feq (CapacityWh p) (of_Z 0) then Some (withSoC (of_Z 0) r)
  else if fle (CapacityWh p) (of_Z 0) then None
  else Some (withSoC (fadd (rSoC r) (fdiv (BatteryEnergyDeltaWh (BatteryW a) dtH (ChargeEfficiency p) (DischargeEfficiency p)) (CapacityWh p))) r).
Definition socTolerance : f64 := lit 2 10000.
Definition replayBand (p : Params) (a : Action) (r : Replay) : option Replay :=
  let lower := fmax (of_Z 0) (fsub (SoCMin p) (rSoC r)) in
  let upper := fmax (of_Z 0) (fsub (rSoC r) (SoCMax p)) in
  if flt (fadd (lowerSoC r) socTolerance) lower || flt (fadd (upperSoC r) socTolerance) upper || apart socTolerance (SoC a) (rSoC r)
  then None
  else Some (mkReplay (rSoC r) (storageEnergy r) (storageLower r) (storageUpper r) (fmin (lowerSoC r) lower) (fmin (upperSoC r) upper)
               (evSoC r) (deadlineShortfall r) (totalCost r)).

(** A car's power and charge in an action: by charger, or the single one. *)
Definition carPower (a : Action) (idx : nat) (lp : LoadpointSpec) : f64 :=
  if empty_map (LoadpointPowerW a) && (idx =? 0)%nat then LoadpointW a else getF (LoadpointPowerW a) (lpID lp).
Definition carSoC (a : Action) (idx : nat) (lp : LoadpointSpec) : f64 :=
  if empty_map (LoadpointPowerW a) && (idx =? 0)%nat then LoadpointSoC a else getF (LoadpointSoCByID a) (lpID lp).
Definition replayCar (t : nat) (dtH : f64) (a : Action) (acc : option (Replay * f64 * nat)) (lp : LoadpointSpec) : option (Replay * f64 * nat) :=
  match acc with
  | None => None
  | Some (r, totalW, idx) =>
      let powerW := carPower a idx lp in
      let reported := carSoC a idx lp in
      if negb (finite powerW) || negb (finite reported) then None
      else if match LoadpointMaxPowerW a !! lpID lp with
              | Some peak => negb (finite peak) || flt powerW (of_Z 0) || flt (fadd peak (lit 1 1000000)) powerW
              | None => false
              end then None
      else if negb (existsb (fun step => fle (fabs (fsub step (default powerW (LoadpointMaxPowerW a !! lpID lp)))) (of_Z 2)) (normalizedSteps lp))
      then None
      else
        let eff := if fle (evChargeEfficiency lp) (of_Z 0) then lit 9 10 else evChargeEfficiency lp in
        let soc := fadd (getF (evSoC r) (lpID lp)) (fdiv (fmul (fmul powerW dtH) eff) (evCapacityWh lp)) in
        let maxSoC := if fle (evSoCMax lp) (evSoCMin lp) then of_Z 1 else evSoCMax lp in
        if flt soc (fneg socTolerance) || flt (fadd maxSoC socTolerance) soc || apart socTolerance reported soc then None
        else
          let missing := fmul (bmax (of_Z 0) (fsub (TargetSoC lp) soc)) (evCapacityWh lp) in
          let short := if flt (of_Z 0) (TargetSoC lp) && (Z.of_nat t =? TargetSlotIdx lp) && flt (departureMissWh lp) missing
                       then <[lpID lp := missing]> (deadlineShortfall r) else deadlineShortfall r in
          Some (mkReplay (rSoC r) (storageEnergy r) (storageLower r) (storageUpper r) (lowerSoC r) (upperSoC r)
                  (<[lpID lp := soc]> (evSoC r)) short (totalCost r), fadd totalW powerW, S idx)
  end.

(** The solar power the grid balance agrees with; [None] when it does not. *)
Definition balancedPVW (slot : Slot) (a : Action) (totalLoadpointW : f64) : option f64 :=
  let grid pv := GridW (LoadW slot) pv (BatteryW a) totalLoadpointW in
  let capped := EffectivePVW (PVW slot) (PVLimitW a) true in
  if PVCurtailActive a then if apart (of_Z 2) (aGridW a) (grid capped) then None else Some capped
  else if apart (of_Z 2) (aGridW a) (grid (PVW slot)) then
    let pv := if flt (of_Z 0) (PVLimitW a) then capped else PVW slot in
    if apart (of_Z 2) (aGridW a) (grid pv) then None else Some pv
  else Some (PVW slot).

(** The rules between one car and the battery, and the solar it needs. *)
Definition carRules (slot : Slot) (a : Action) (pvW : f64) (vehicleRules : bool) (acc : option (f64 * nat)) (lp : LoadpointSpec) : option (f64 * nat) :=
  match acc with
  | None => None
  | Some (surplusW, idx) =>
      let powerW := carPower a idx lp in
      if SurplusOnly lp && SurplusOnlyExceedsHousePV powerW (LoadW slot) pvW then None
      else if vehicleRules && flt solverZeroPowerToleranceW powerW && flt (BatteryW a) (fneg solverZeroPowerToleranceW) &&
              flt (aGridW a) (of_Z (-50)) then None
      else if vehicleRules && blocksBatteryToEV lp && BatteryDischargeFeedsEV (BatteryW a) powerW (LoadW slot) pvW then None
      else Some (if SurplusOnly lp then fadd surplusW powerW else surplusW, S idx)
  end.

Definition sameSlot (slot : Slot) (a : Action) : bool :=
  (StartMs (aSlot a) =? StartMs slot) && (LenMin (aSlot a) =? LenMin slot) && (ExecutionStartMs (aSlot a) =? ExecutionStartMs slot).
Definition finiteAction (a : Action) : bool :=
  forallb finite [BatteryW a; aGridW a; SoC a; CostOre a; LoadpointW a; LoadpointSoC a; PVLimitW a].

Section Check.
Context `{MapIter}.

(** What an action promises the site, given its solar power. *)
Definition siteRules (slot : Slot) (p : Params) (a : Action) (pvW totalLoadpointW : f64) (vehicleRules : bool) : bool :=
  match fold_left (carRules slot a pvW vehicleRules) (activeLoadpoints p) (Some (of_Z 0, 0%nat)) with
  | None => false
  | Some (surplusW, _) =>
      negb (SurplusOnlyExceedsHousePV surplusW (LoadW slot) pvW) &&
      modeAllows (pMode p) (GridW (LoadW slot) pvW (of_Z 0) totalLoadpointW) (aGridW a) (BatteryW a) &&
      negb (exceedsGridLimits (Limits slot) (aGridW a)) && validateEVPulse slot p a pvW vehicleRules
  end.
Definition capRejected (slot : Slot) (a : Action) : bool :=
  PVCurtailActive a && feq (PVLimitW a) (of_Z 0) || flt (PVLimitW a) (of_Z 0) ||
  negb (PVCurtailActive a) && flt (of_Z 0) (PVLimitW a) && flt (fadd (fneg (PVW slot)) (of_Z 2)) (PVLimitW a).
Definition replaySlot (p : Params) (vehicleRules : bool) (t : nat) (slot : Slot) (a : Action) (r : Replay) : option Replay :=
  let dtH := DurationHours slot in
  if negb (validateAssetMaps p a) || negb (finiteAction a) || negb (sameSlot slot a) ||
     flt (fadd (MaxChargeW p) (of_Z 2)) (BatteryW a) || flt (BatteryW a) (fsub (fneg (MaxDischargeW p)) (of_Z 2)) then None
  else
    match replayBattery p dtH a r with
    | None => None
    | Some r =>
        match replayBand p a r with
        | None => None
        | Some r =>
            match fold_left (replayCar t dtH a) (activeLoadpoints p) (Some (r, of_Z 0, 0%nat)) with
            | None => None
            | Some (r, totalLoadpointW, _) =>
                if capRejected slot a then None
                else
                  match balancedPVW slot a totalLoadpointW with
                  | None => None
                  | Some pvW =>
                      let wantCost := reserveSlotCost slot p a in
                      if negb (siteRules slot p a pvW totalLoadpointW vehicleRules) || apart (lit 5 100) (CostOre a) wantCost then None
                      else Some (mkReplay (rSoC r) (storageEnergy r) (storageLower r) (storageUpper r) (lowerSoC r) (upperSoC r) (evSoC r)
                                   (deadlineShortfall r) (fadd (totalCost r) wantCost))
                  end
            end
        end
    end.
Fixpoint replayFrom (p : Params) (vehicleRules : bool) (t : nat) (slots : list Slot) (acts : list Action) (r : Replay) : option Replay :=
  match slots, acts with
  | [], [] => Some r
  | slot :: slots, a :: acts =>
      match replaySlot p vehicleRules t slot a r with Some r => replayFrom p vehicleRules (S t) slots acts r | None => None end
  | _, _ => None
  end.

(** ** The hours of an import ceiling *)
Definition actionChargesCar (a : Action) : bool :=
  flt solverZeroPowerToleranceW (LoadpointW a) || someValue (flt solverZeroPowerToleranceW) (LoadpointPowerW a).
Definition hourPart (h : ImportHour) (acc : f64 * f64 * f64 * bool) (sa : Slot * Action) : f64 * f64 * f64 * bool :=
  let '(spanH, importWh, houseWh, car) := acc in
  let '(s, a) := sa in
  let ov := importHourOverlapH s h in
  if fle ov (of_Z 0) then acc
  else
    (fadd spanH ov, fold_left (fun w sg => fadd w (fmul (fmul (fst sg) (bmax (of_Z 0) (snd sg))) ov)) (pulseGridW a) importWh,
     fadd houseWh (fmul (bmax (of_Z 0) (fadd (LoadW s) (PVW s))) ov), car || actionChargesCar a).
Definition hourOverrun (p : Params) (slots : list Slot) (acts : list Action) (h : ImportHour) : bool :=
  let '(spanH, importWh, houseWh, car) := fold_left (hourPart h) (zip slots acts) (of_Z 0, of_Z 0, of_Z 0, false) in
  let leftWh := importLeftWh h (ImportMeanW p) in
  let houseWh := if car then of_Z 0 else houseWh in
  flt (fadd (bmax (bmax leftWh houseWh) (of_Z 0)) (fmul solverGridLimitToleranceW spanH)) importWh.
Definition validateImportHours (slots : list Slot) (p : Params) (acts : list Action) : bool :=
  negb (existsb (hourOverrun p slots acts) (ImportHours p)).

(** ** The verdict. An overrun hour is told apart: the plan keeps every other
    rule. *)
Inductive PlanVerdict : Type := Accepted (shortfall : gmap string f64) | HourOverrun (shortfall : gmap string f64) | Rejected.
Definition validatePlan (slots : list Slot) (p : Params) (plan : Plan) (vehicleRules : bool) : PlanVerdict :=
  if negb (validatePartialSlots slots) || negb (length (Actions plan) =? length slots)%nat || (length slots =? 0)%nat then Rejected
  else
    match replayFrom p vehicleRules 0 slots (Actions plan) (replayStart p) with
    | None => Rejected
    | Some r =>
        if apart (lit 1 10) (TotalCostOre plan) (totalCost r) then Rejected
        else if validateImportHours slots p (Actions plan) then Accepted (deadlineShortfall r) else HourOverrun (deadlineShortfall r)
    end.
Definition ValidatePlan (slots : list Slot) (p : Params) (plan : Plan) : PlanVerdict := validatePlan slots p plan true.
End Check.

(** ** Specification: what an accepted plan keeps *)
Definition startDeficit (p : Params) : f64 := fmax (of_Z 0) (fsub (SoCMin p) (InitialSoC p)).
Definition startExcess (p : Params) : f64 := fmax (of_Z 0) (fsub (InitialSoC p) (SoCMax p)).
Definition near (tol x y : f64) : Prop := apart tol x y = false.
Definition atMost (x b : f64) : Prop := flt b x = false.
(** The rules a car keeps in a slot with solar power [pvW]. *)
Definition carSafe (slot : Slot) (a : Action) (pvW : f64) (idx : nat) (lp : LoadpointSpec) : Prop :=
  let powerW := carPower a idx lp in
  (SurplusOnly lp = true -> SurplusOnlyExceedsHousePV powerW (LoadW slot) pvW = false) /\
  (blocksBatteryToEV lp = true -> BatteryDischargeFeedsEV (BatteryW a) powerW (LoadW slot) pvW = false) /\
  (flt solverZeroPowerToleranceW powerW = true -> flt (BatteryW a) (fneg solverZeroPowerToleranceW) = true -> flt (aGridW a) (of_Z (-50)) = false).
Record actionSafe `{MapIter} (p : Params) (slot : Slot) (a : Action) : Prop := {
  as_slot : sameSlot slot a = true;
  as_charge : atMost (BatteryW a) (fadd (MaxChargeW p) (of_Z 2));
  as_discharge : atMost (fsub (fneg (MaxDischargeW p)) (of_Z 2)) (BatteryW a);
  as_band : exists soc, rank soc = 0 /\ near socTolerance (SoC a) soc /\
    atMost (fmax (of_Z 0) (fsub (SoCMin p) soc)) (fadd (startDeficit p) socTolerance) /\
    atMost (fmax (of_Z 0) (fsub soc (SoCMax p))) (fadd (startExcess p) socTolerance);
  as_grid : exceedsGridLimits (Limits slot) (aGridW a) = false;
  as_balance : exists pvW totalW, (pvW = PVW slot \/ pvW = EffectivePVW (PVW slot) (PVLimitW a) true) /\
    near (of_Z 2) (aGridW a) (GridW (LoadW slot) pvW (BatteryW a) totalW) /\
    modeAllows (pMode p) (GridW (LoadW slot) pvW (of_Z 0) totalW) (aGridW a) (BatteryW a) = true /\
    forall idx lp, activeLoadpoints p !! idx = Some lp -> carSafe slot a pvW idx lp;
  as_cost : near (lit 5 100) (CostOre a) (reserveSlotCost slot p a)
}.

(** ** Lemmas: arithmetic *)
Lemma of_Z_le a b : a <= b -> le_rel (of_Z a) (of_Z b).
Proof.
  Transparent of_Z. intros L. unfold of_Z. apply rnd_mono; [lia|lia|]. pose proof unit64_pos. nia.
  Opaque of_Z.
Qed.
Lemma i64_ms_rank z : int64 z -> rank (of_Z z) = 0.
Proof.
  unfold int64. intros [L H]. apply (rank_mid (of_Z (- 2 ^ 63)) _ (of_Z (2 ^ 63))); [now apply of_Z_le|apply of_Z_le; lia|vm_compute; reflexivity|
    vm_compute; reflexivity].
Qed.
Lemma duration_rank s : rank (DurationHours s) = 0.
Proof.
  unfold DurationHours. set (z := i64 _). assert (B : int64 z) by apply i64_range. clearbody z.
  pose proof (i64_ms_rank z B) as R. destruct B as [L H].
  assert (E : of_Z (2 ^ 63) = Fin (2 ^ 63 * unit64)) by (vm_compute; reflexivity).
  assert (E' : of_Z (- 2 ^ 63) = Fin (- 2 ^ 63 * unit64)) by (vm_compute; reflexivity).
  pose proof (of_Z_le _ _ L) as L1. pose proof (of_Z_le z (2 ^ 63) ltac:(lia)) as L2. rewrite E' in L1. rewrite E in L2.
  rewrite (of_Z_fin 3600000) by lia. pose proof unit64_pos as U. destruct (of_Z z) as [|[]|a]; try discriminate R.
  unfold le_rel in L1, L2. cbn [rank val] in L1, L2. unfold fdiv. destruct (Z.eqb_spec (3600000 * unit64) 0) as [Q|_]; [lia|].
  apply (rank_mid (of_Z (- 2 ^ 63)) _ (of_Z (2 ^ 63))); [| |now rewrite E'|now rewrite E].
  - Transparent of_Z. unfold of_Z. apply rnd_mono; [lia|lia|]. rewrite Z.sgn_pos, Z.abs_eq by lia. nia.
  - unfold of_Z. apply rnd_mono; [lia|lia|]. rewrite Z.sgn_pos, Z.abs_eq by lia. nia.
    Opaque of_Z.
Qed.
Lemma fmul_pos_num x y : rank x <> 2 -> flt (of_Z 0) y = true -> rank y = 0 -> rank (fmul x y) <> 2.
Proof.
  rewrite of_Z_0, flt_iff. destruct x as [|[]|a], y as [|[]|b]; cbn; intros; try lia; try apply rnd_not_nan.
  all: destruct (Z.eqb_spec b 0); [lia|]; destruct (b <? 0); cbn; lia.
Qed.
Lemma fadd_half_nn x y : rank x = 0 -> rank y <> 2 -> rank (fadd x y) <> 2.
Proof. destruct x as [|[]|a], y as [|[]|b]; cbn; intros; try lia. apply rnd_not_nan. Qed.
Lemma near_rank tol x y : rank tol = 0 -> rank x = 0 -> rank y <> 2 -> near tol x y -> rank y = 0.
Proof.
  unfold near, apart. intros T X Y N. destruct y as [|b|y]; [cbn in Y; lia| |reflexivity]. exfalso.
  destruct x as [|[]|x]; try discriminate X. destruct tol as [|[]|t]; try discriminate T. now destruct b.
Qed.
Lemma delta_nn w dtH ce de : rank w = 0 -> rank dtH = 0 -> num ce /\ flt (of_Z 0) ce = true -> num de /\ flt (of_Z 0) de = true ->
  rank (BatteryEnergyDeltaWh w dtH ce de) <> 2.
Proof.
  intros W D [[C _] C'] [[E _] E']. unfold BatteryEnergyDeltaWh. pose proof (fmul_nn w dtH W D) as N.
  destruct (fle _ w); [now apply fmul_pos_num|now apply fdiv_pos_nn].
Qed.
Lemma tolerance_rank : rank socTolerance = 0.
Proof. vm_compute. reflexivity. Qed.

(** The recovery only ever shrinks, so it stays below the start's. *)
Lemma ratchet_step (cur start now : f64) : le_rel cur start -> rank now <> 2 -> flt (fadd cur socTolerance) now = false ->
  atMost now (fadd start socTolerance) /\ le_rel (fmin cur now) start.
Proof.
  intros L N F. assert (Nc : rank cur <> 2) by apply L. assert (Ns : rank start <> 2) by apply L.
  assert (A : rank (fadd cur socTolerance) <> 2) by (rewrite fadd_comm; apply fadd_half_nn; [exact tolerance_rank|exact Nc]).
  assert (B : rank (fadd start socTolerance) <> 2) by (rewrite fadd_comm; apply fadd_half_nn; [exact tolerance_rank|exact Ns]).
  split.
  - unfold atMost. apply le_flt_false. apply (le_rel_trans _ (fadd cur socTolerance)); [now apply (flt_false _ _ F)|].
    apply fadd_mono; [exact L|apply le_rel_refl; rewrite tolerance_rank; lia|exact A|exact B].
  - destruct (fmin_spec cur now Nc N) as [[-> _]|[-> H]]; [exact L|exact (le_rel_trans _ _ _ H L)].
Qed.
Lemma excess_nn a b : rank a = 0 -> rank b = 0 -> rank (fmax (of_Z 0) (fsub a b)) <> 2.
Proof. intros A B. apply fmax_nn; [rewrite of_Z_0; cbn; lia|now apply fsub_nn]. Qed.

(** ** Lemmas: one slot *)
Definition finMap (m : gmap string f64) : Prop := map_Forall (fun _ e => rank e = 0) m.
Record replayInv (p : Params) (r : Replay) : Prop := {
  ri_soc : rank (rSoC r) = 0;
  ri_energy : finMap (storageEnergy r);
  ri_lower : le_rel (lowerSoC r) (startDeficit p);
  ri_upper : le_rel (upperSoC r) (startExcess p)
}.
Lemma getF_rank m k : finMap m -> rank (getF m k) = 0.
Proof. intros F. unfold getF. destruct (m !! k) as [e|] eqn:E; cbn; [exact (F k e E)|apply of_Z_0_rank]. Qed.
Lemma byStorage_rank f p : Forall (fun s => rank (f s) = 0) (Storages p) -> finMap (byStorage f p).
Proof.
  unfold byStorage. assert (G : forall l m, Forall (fun s => rank (f s) = 0) l -> finMap m ->
    finMap (fold_left (fun m s => <[stID s := f s]> m) l m)).
  { induction l as [|s l IH]; intros m F M; [exact M|]. apply Forall_cons in F as [Fs F]. cbn [fold_left]. apply IH; [exact F|].
    apply map_Forall_insert_2; [exact Fs|exact M]. }
  intros F. apply G; [exact F|apply map_Forall_empty].
Qed.
Lemma start_inv p : paramsOk p -> replayInv p (replayStart p).
Proof.
  intros K. destruct (pk_initial p K) as [[I _] _]. destruct (pk_min p K) as [Mn _]. destruct (pk_max p K) as [[Mx _] _].
  constructor; cbn [replayStart rSoC storageEnergy lowerSoC upperSoC]; [exact I| |now apply le_rel_refl, excess_nn|now apply le_rel_refl, excess_nn].
  apply byStorage_rank. apply (Forall_impl _ _ _ (pk_storages p K)). intros s S. apply (sk_initial s S).
Qed.

Lemma storage_tolerance_rank s : num (stCapacityWh s) -> wf (stCapacityWh s) -> rank (storageToleranceWh s) = 0.
Proof.
  intros [Cr Cn] W. unfold storageToleranceWh. apply fmax_fin; [apply of_Z_1_rank|].
  assert (K0 : le_rel (Fin 0) (lit 2 10000)) by (rewrite <- of_Z_0; apply fle_iff; vm_compute; reflexivity).
  assert (K1 : le_rel (lit 2 10000) (Fin unit64)) by (rewrite <- of_Z_1; apply fle_iff; vm_compute; reflexivity).
  exact (proj1 (fmul_ratio _ _ W Cr K0 K1)).
Qed.
Definition sameBand (r r' : Replay) : Prop := lowerSoC r' = lowerSoC r /\ upperSoC r' = upperSoC r.
Lemma replayStorage_step dtH a s r tp te r' tp' te' : rank dtH = 0 -> storageOk s -> wf (stCapacityWh s) -> finMap (storageEnergy r) -> rank te <> 2 ->
  replayStorage dtH a (Some (r, tp, te)) s = Some (r', tp', te') -> finMap (storageEnergy r') /\ rank te' <> 2 /\ sameBand r r'.
Proof.
  intros D K W F T E. unfold replayStorage in E. destruct (StoragePowerW a !! stID s) as [w|]; [|discriminate].
  destruct (StorageEnergyWh a !! stID s) as [reported|]; [|discriminate]. destruct (_ || _) eqn:N in E; [discriminate|].
  apply orb_false_iff in N as [N1 N2]. apply finite_num in N1, N2. destruct (_ || _) in E; [discriminate|]. cbv zeta in E.
  set (e := fadd _ (BatteryEnergyDeltaWh _ _ _ _)) in E. destruct (_ || _) eqn:A in E; [discriminate|]. destruct (_ || _) in E; [discriminate|].
  apply orb_false_iff in A as [_ A].
  assert (Re : rank e = 0).
  { apply (near_rank (storageToleranceWh s) reported e); [|exact N2| |exact A].
    - exact (storage_tolerance_rank s (sk_capacity s K) W).
    - unfold e. apply fadd_half_nn; [now apply getF_rank|]. apply delta_nn; [exact N1|exact D|exact (sk_eff s K)|exact (sk_deff s K)]. }
  clearbody e. injection E as <- <- <-. cbn [storageEnergy]. split_and!; [now apply map_Forall_insert_2| |now split].
  rewrite fadd_comm. now apply fadd_half_nn.
Qed.

Lemma replayStorage_none dtH a l : fold_left (replayStorage dtH a) l None = None.
Proof. now induction l. Qed.
Lemma replayStorages_ok dtH a l : rank dtH = 0 -> Forall storageOk l -> Forall (fun s => wf (stCapacityWh s)) l -> forall r tp te r' tp' te',
  finMap (storageEnergy r) -> rank te <> 2 -> fold_left (replayStorage dtH a) l (Some (r, tp, te)) = Some (r', tp', te') ->
  finMap (storageEnergy r') /\ rank te' <> 2 /\ sameBand r r'.
Proof.
  intros D F W. induction l as [|s l IH]; intros r tp te r' tp' te' M T E; [injection E as <- <- <-; now repeat split|].
  apply Forall_cons in F as [Fs F]. apply Forall_cons in W as [Ws W]. cbn [fold_left] in E.
  destruct (replayStorage dtH a (Some (r, tp, te)) s) as [[[r1 tp1] te1]|] eqn:Q; [|now rewrite replayStorage_none in E].
  destruct (replayStorage_step _ _ _ _ _ _ _ _ _ D Fs Ws M T Q) as (M1 & T1 & B1). destruct (IH F W _ _ _ _ _ _ M1 T1 E) as (M2 & T2 & [B2 B3]).
  destruct B1 as [B1 B4]. split_and!; [exact M2|exact T2|]. split; congruence.
Qed.
Lemma zero_nn : rank (of_Z 0) <> 2.
Proof. rewrite of_Z_0_rank. lia. Qed.
Lemma withSoC_band soc r : sameBand r (withSoC soc r).
Proof. now split. Qed.
Definition machineParams (p : Params) : Prop := Forall (fun s => wf (stCapacityWh s)) (Storages p).
Lemma replayBattery_ok p dtH a r r' : paramsOk p -> machineParams p -> rank dtH = 0 -> rank (BatteryW a) = 0 -> rank (rSoC r) = 0 ->
  finMap (storageEnergy r) -> replayBattery p dtH a r = Some r' -> rank (rSoC r') <> 2 /\ finMap (storageEnergy r') /\ sameBand r r'.
Proof.
  intros K W D B S M E. unfold replayBattery in E. destruct (pk_capacity p K) as [Cr Cn]. destruct (_ && _) eqn:Q in E.
  - apply andb_true_iff in Q as [Q _]. assert (Pos : flt (of_Z 0) (CapacityWh p) = true) by (apply (pk_fleet p K); intros Z; rewrite Z in Q; discriminate Q).
    destruct (fold_left _ (Storages p) _) as [[[r1 tp] te]|] eqn:F; [|discriminate]. destruct (apart _ _ _) in E; [discriminate|]. injection E as <-.
    destruct (replayStorages_ok dtH a _ D (pk_storages p K) W r (of_Z 0) (of_Z 0) _ _ _ M zero_nn F) as (M1 & T1 & B1).
    cbn [rSoC storageEnergy withSoC]. split_and!; [now apply fdiv_pos_nn|exact M1|exact B1].
  - destruct (feq (CapacityWh p) (of_Z 0)); [apply (inj Some) in E; subst r'; split; [exact zero_nn|]; split; [exact M|apply withSoC_band]|].
    destruct (fle (CapacityWh p) (of_Z 0)) eqn:Z; [discriminate|]. apply (inj Some) in E. subst r'. cbn [rSoC withSoC].
    split; [|split; [exact M|apply withSoC_band]]. apply fadd_half_nn; [exact S|]. apply fdiv_pos_nn; [|apply not_le_flt; [exact Cr|apply of_Z_0_rank|exact Z]|exact Cr].
    exact (delta_nn _ _ _ _ B D (pk_eff p K) (pk_deff p K)).
Qed.
Lemma replayBand_ok p a r r' : paramsOk p -> rank (SoC a) = 0 -> rank (rSoC r) <> 2 -> le_rel (lowerSoC r) (startDeficit p) ->
  le_rel (upperSoC r) (startExcess p) -> replayBand p a r = Some r' ->
  rSoC r' = rSoC r /\ storageEnergy r' = storageEnergy r /\ rank (rSoC r) = 0 /\ near socTolerance (SoC a) (rSoC r) /\
  atMost (fmax (of_Z 0) (fsub (SoCMin p) (rSoC r))) (fadd (startDeficit p) socTolerance) /\
  atMost (fmax (of_Z 0) (fsub (rSoC r) (SoCMax p))) (fadd (startExcess p) socTolerance) /\
  le_rel (lowerSoC r') (startDeficit p) /\ le_rel (upperSoC r') (startExcess p).
Proof.
  intros K A N L U E. unfold replayBand in E. cbv zeta in E. destruct (_ || _) eqn:Q in E; [discriminate|]. apply (inj Some) in E. subst r'.
  apply orb_false_iff in Q as [Q Nr]. apply orb_false_iff in Q as [Ql Qu].
  assert (R : rank (rSoC r) = 0) by exact (near_rank _ _ _ tolerance_rank A N Nr).
  destruct (pk_min p K) as [Mn _]. destruct (pk_max p K) as [[Mx _] _].
  destruct (ratchet_step _ _ _ L (excess_nn _ _ Mn R) Ql) as [L1 L2]. destruct (ratchet_step _ _ _ U (excess_nn _ _ R Mx) Qu) as [U1 U2].
  cbn [rSoC storageEnergy lowerSoC upperSoC]. split_and!; try reflexivity; assumption.
Qed.
Lemma replayCars_same t dtH a l : forall r tw i r' tw' i', fold_left (replayCar t dtH a) l (Some (r, tw, i)) = Some (r', tw', i') ->
  rSoC r' = rSoC r /\ storageEnergy r' = storageEnergy r /\ lowerSoC r' = lowerSoC r /\ upperSoC r' = upperSoC r.
Proof.
  induction l as [|lp l IH]; intros r tw i r' tw' i' E; [injection E as <- <- <-; now repeat split|]. cbn [fold_left] in E.
  destruct (replayCar t dtH a (Some (r, tw, i)) lp) as [[[r1 tw1] i1]|] eqn:Q.
  - destruct (IH _ _ _ _ _ _ E) as (E1 & E2 & E3 & E4). unfold replayCar in Q. cbv zeta in Q. destruct (_ || _) in Q; [discriminate|].
    destruct (match _ with Some _ => _ | None => _ end) in Q; [discriminate|]. destruct (negb _) in Q; [discriminate|].
    destruct (_ || _) in Q; [discriminate|]. apply (inj Some) in Q. rewrite E1, E2, E3, E4.
    apply (f_equal (fun x => fst (fst x))) in Q. cbn [fst] in Q. subst r1. now repeat split.
  - assert (Z : fold_left (replayCar t dtH a) l None = None) by (clear; now induction l). congruence.
Qed.
Lemma carRules_safe slot a pvW l : forall w i w' i', fold_left (carRules slot a pvW true) l (Some (w, i)) = Some (w', i') ->
  forall k lp, l !! k = Some lp -> carSafe slot a pvW (i + k) lp.
Proof.
  assert (Z : forall l, fold_left (carRules slot a pvW true) l None = None) by (clear; intros l; now induction l).
  induction l as [|x l IH]; intros w i w' i' E k lp L; [now rewrite lookup_nil in L|]. cbn [fold_left] in E.
  destruct (carRules slot a pvW true (Some (w, i)) x) as [[w1 i1]|] eqn:Q; [|now rewrite Z in E].
  unfold carRules in Q. cbv zeta in Q. destruct (SurplusOnly x && _) eqn:A in Q; [discriminate|]. cbn [andb] in Q.
  destruct (flt solverZeroPowerToleranceW _ && _ && _) eqn:B in Q; [discriminate|].
  destruct (blocksBatteryToEV x && _) eqn:C in Q; [discriminate|].
  apply (inj Some) in Q. apply (f_equal snd) in Q. cbn [snd] in Q. subst i1. destruct k as [|k].
  - injection L as <-. rewrite Nat.add_0_r. unfold carSafe. cbv zeta. split_and!.
    + intros S. now rewrite S in A.
    + intros S. now rewrite S in C.
    + intros S1 S2. now rewrite S1, S2 in B.
  - replace (i + S k)%nat with (S i + k)%nat by lia. exact (IH _ _ _ _ E k lp L).
Qed.
Lemma finiteAction_ok a : finiteAction a = true -> rank (BatteryW a) = 0 /\ rank (SoC a) = 0.
Proof.
  unfold finiteAction. cbn [forallb]. rewrite !andb_true_iff. intros (A & _ & B & _). now rewrite <- !finite_iff.
Qed.
Lemma balanced_ok slot a total pvW : balancedPVW slot a total = Some pvW ->
  (pvW = PVW slot \/ pvW = EffectivePVW (PVW slot) (PVLimitW a) true) /\ near (of_Z 2) (aGridW a) (GridW (LoadW slot) pvW (BatteryW a) total).
Proof.
  unfold balancedPVW. cbv zeta. intros E. destruct (PVCurtailActive a).
  - destruct (apart _ _ _) eqn:N in E; [discriminate|]. apply (inj Some) in E. subst pvW. split; [now right|exact N].
  - destruct (apart _ _ _) eqn:N in E.
    + set (pv := if flt _ _ then _ else _) in E. destruct (apart _ _ _) eqn:N2 in E; [discriminate|]. apply (inj Some) in E. subst pvW.
      split; [|exact N2]. unfold pv. destruct (flt _ _); [now right|now left].
    + apply (inj Some) in E. subst pvW. split; [now left|exact N].
Qed.

Section Safe.
Context `{MapIter}.
Context (p : Params) (K : paramsOk p) (W : machineParams p).

Lemma replaySlot_safe t slot a r r' : replayInv p r -> replaySlot p true t slot a r = Some r' -> actionSafe p slot a /\ replayInv p r'.
Proof.
  intros [I1 I2 I3 I4] E. unfold replaySlot in E. cbv zeta in E. destruct (_ || _) eqn:Q in E; [discriminate E|].
  apply orb_false_iff in Q as [Q Qd]. apply orb_false_iff in Q as [Q Qc]. apply orb_false_iff in Q as [Q Qs]. apply orb_false_iff in Q as [_ Qf].
  apply negb_false_iff in Qs, Qf. destruct (finiteAction_ok a Qf) as [Fb Fs].
  destruct (replayBattery p (DurationHours slot) a r) as [r1|] eqn:E1; [|discriminate E].
  destruct (replayBattery_ok _ _ _ _ _ K W (duration_rank slot) Fb I1 I2 E1) as (N1 & M1 & [B1 B2]).
  destruct (replayBand p a r1) as [r2|] eqn:E2; [|discriminate E]. rewrite <- B1 in I3. rewrite <- B2 in I4.
  destruct (replayBand_ok _ _ _ _ K Fs N1 I3 I4 E2) as (S2 & M2 & R & Nr & Lo & Up & L2 & U2).
  match type of E with (match ?m with _ => _ end) = _ => destruct m as [[[r3 total] i3]|] eqn:E3; [|discriminate E] end.
  destruct (replayCars_same _ _ _ _ _ _ _ _ _ _ E3) as (S3 & M3 & L3 & U3).
  destruct (capRejected slot a); [discriminate E|]. destruct (balancedPVW slot a total) as [pvW|] eqn:E4; [|discriminate E].
  destruct (balanced_ok _ _ _ _ E4) as [P4 N4]. destruct (_ || _) eqn:Q in E; [discriminate E|]. apply (inj Some) in E. subst r'.
  apply orb_false_iff in Q as [Sr Co]. apply negb_false_iff in Sr. unfold siteRules in Sr.
  match type of Sr with (match ?m with _ => _ end) = _ => destruct m as [[sw i5]|] eqn:E5; [|discriminate Sr] end.
  rewrite !andb_true_iff in Sr. destruct Sr as [[[_ Mo] Gr] _]. apply negb_true_iff in Gr. split.
  - constructor; [exact Qs|exact Qc|exact Qd| |exact Gr| |exact Co].
    + exists (rSoC r1). now split_and!.
    + exists pvW, total. split_and!; [exact P4|exact N4|exact Mo|]. intros idx lp Lk. exact (carRules_safe _ _ _ _ _ _ _ _ E5 idx lp Lk).
  - constructor; cbn [rSoC storageEnergy lowerSoC upperSoC].
    + now rewrite S3, S2.
    + now rewrite M3, M2.
    + now rewrite L3.
    + now rewrite U3.
Qed.
Lemma replayFrom_safe slots : forall t acts r r', replayInv p r -> replayFrom p true t slots acts r = Some r' -> Forall2 (actionSafe p) slots acts.
Proof.
  induction slots as [|s slots IH]; intros t [|a acts] r r' I E; try discriminate; [constructor|]. cbn [replayFrom] in E.
  destruct (replaySlot p true t s a r) as [r1|] eqn:Q; [|discriminate]. destruct (replaySlot_safe _ _ _ _ _ I Q) as [A I1].
  constructor; [exact A|exact (IH _ _ _ _ I1 E)].
Qed.
End Safe.

Lemma accepted_safe `{MapIter} (slots : list Slot) (p : Params) (plan : Plan) (shortfall : gmap string f64)
    (Hp : validatePlanningParams p = true) (Hw : machineParams p)
    (Hv : ValidatePlan slots p plan = Accepted shortfall \/ ValidatePlan slots p plan = HourOverrun shortfall) :
  slots <> [] /\ validatePartialSlots slots = true /\ Forall2 (actionSafe p) slots (Actions plan) /\
  (ValidatePlan slots p plan = Accepted shortfall <-> forall h, h ∈ ImportHours p -> hourOverrun p slots (Actions plan) h = false).
Proof.
  pose proof (validated_params_ok p Hp) as K. unfold ValidatePlan, validatePlan in *.
  set (bad := negb (validatePartialSlots slots) || _ || _) in *. destruct bad eqn:Q; [destruct Hv as [Hv|Hv]; discriminate Hv|].
  unfold bad in Q. clear bad. apply orb_false_iff in Q as [Q Z]. apply orb_false_iff in Q as [Qp _]. apply negb_false_iff in Qp.
  set (run := replayFrom p true 0 slots (Actions plan) (replayStart p)) in *. destruct run as [r|] eqn:E; [|destruct Hv as [Hv|Hv]; discriminate Hv].
  destruct (apart _ (TotalCostOre plan) _); [destruct Hv as [Hv|Hv]; discriminate Hv|].
  split_and!; [intros N; rewrite N in Z; discriminate Z|exact Qp|exact (replayFrom_safe p K Hw _ _ _ _ _ (start_inv p K) E)|].
  unfold validateImportHours in *. destruct (existsb (hourOverrun p slots (Actions plan)) (ImportHours p)) eqn:X; cbn [negb] in *.
  - split; [intros Y; discriminate Y|]. intros Y. exfalso. apply existsb_exists in X as (h & I & X). rewrite (Y h) in X; [discriminate X|now apply list_elem_of_In].
  - split; [|intros _; destruct Hv as [Hv|Hv]; [exact Hv|discriminate Hv]]. intros _ h I. destruct (hourOverrun _ _ _ h) eqn:Y; [|reflexivity].
    assert (existsb (hourOverrun p slots (Actions plan)) (ImportHours p) = true); [|congruence].
    apply existsb_exists. exists h. split; [now apply list_elem_of_In|exact Y].
Qed.

(** ** Properties *)

Definition idleAction : Action :=
  mkAction (hourSlot 1) (of_Z 0) (of_Z 500) (lit 1 2) (of_Z 50) EmptyString (of_Z 0) (of_Z 0) (of_Z 0) false ∅ ∅ ∅ ∅ ∅.
Definition idlePlan : Plan := mkPlan ModeSelfConsumption 1 (of_Z 10000) (lit 1 2) (of_Z 50) [idleAction] ∅.

(** ** Storages that come and go *)
Lemma replayStorage_blind dtH a s soc r tp te :
  replayStorage dtH a (Some (withSoC soc r, tp, te)) s =
  option_map (fun x => (withSoC soc (fst (fst x)), snd (fst x), snd x)) (replayStorage dtH a (Some (r, tp, te)) s).
Proof.
  unfold replayStorage. destruct (StoragePowerW a !! stID s); [|reflexivity]. destruct (StorageEnergyWh a !! stID s); [|reflexivity].
  cbv zeta. cbn [storageEnergy storageLower storageUpper withSoC]. destruct (_ || _); [reflexivity|]. destruct (_ || _); [reflexivity|].
  destruct (_ || _); [reflexivity|]. destruct (_ || _); reflexivity.
Qed.
Lemma replayStorages_blind dtH a l : forall soc r tp te,
  fold_left (replayStorage dtH a) l (Some (withSoC soc r, tp, te)) =
  option_map (fun x => (withSoC soc (fst (fst x)), snd (fst x), snd x)) (fold_left (replayStorage dtH a) l (Some (r, tp, te))).
Proof.
  induction l as [|s l IH]; intros soc r tp te; [reflexivity|]. cbn [fold_left]. rewrite replayStorage_blind.
  destruct (replayStorage dtH a (Some (r, tp, te)) s) as [[[r1 tp1] te1]|]; cbn [option_map fst snd]; [apply IH|now rewrite replayStorage_none].
Qed.

(** A plan may name its storages in one slot and not in the next, and the
    replay then forgets energy. A slot without the storages' powers moves only
    the fleet's charge, and the next slot that has them starts from the
    storages' own, older energy: whatever the slots in between drew or stored
    is as if it had not happened, and the replay agrees with the plan that
    says so. *)
Theorem mixed_maps_forget_energy (p : Params) (dtH dtH' : f64) (a a' : Action) (r r1 : Replay)
    (Ha : empty_map (StoragePowerW a) = true) (Hs : Storages p <> []) (Ha' : empty_map (StoragePowerW a') = false)
    (H1 : replayBattery p dtH a r = Some r1) :
  replayBattery p dtH' a' r1 = replayBattery p dtH' a' r.
Proof.
  assert (E : exists soc, r1 = withSoC soc r).
  { unfold replayBattery in H1. rewrite Ha, andb_false_r in H1.
    destruct (feq _ _); [apply (inj Some) in H1; eexists; symmetry; exact H1|]. destruct (fle _ _); [discriminate H1|]. apply (inj Some) in H1. eexists. symmetry. exact H1. }
  destruct E as [soc ->]. unfold replayBattery. rewrite Ha'. destruct (Storages p) as [|s l] eqn:L; [congruence|].
  change (negb (length (s :: l) =? 0)%nat && negb false) with true. cbv iota. rewrite replayStorages_blind.
  destruct (fold_left _ (s :: l) _) as [[[r2 tp] te]|]; [|reflexivity]. cbn [option_map fst snd]. destruct (apart _ _ _); reflexivity.
Qed.
Definition oneStorage : StorageAssetSpec :=
  mkStorage "b" (of_Z 10000) (of_Z 5000) (of_Z 0) (of_Z 10000) (of_Z 5000) (of_Z 5000) (of_Z 1) (of_Z 1).
Definition drawing (powerW : f64) (m e : gmap string f64) : Action :=
  mkAction (hourSlot 1) powerW (of_Z 0) (of_Z 0) (of_Z 0) EmptyString (of_Z 0) (of_Z 0) (of_Z 0) false m e ∅ ∅ ∅.
Lemma mixed_maps_forget_energy_witness :
  let p := withStart (lit 1 2) (of_Z 0) [oneStorage] plainParams in
  let a' := drawing (of_Z 0) {["b" := of_Z 0]} {["b" := of_Z 5000]} in
  match replayBattery p (of_Z 1) (drawing (of_Z (-3000)) ∅ ∅) (replayStart p) with
  | Some r1 => replayBattery p (of_Z 1) a' r1 = replayBattery p (of_Z 1) a' (replayStart p)
  | None => False
  end.
Proof.
  cbv zeta.
  assert (Ok : bool_decide (is_Some (replayBattery (withStart (lit 1 2) (of_Z 0) [oneStorage] plainParams) (of_Z 1) (drawing (of_Z (-3000)) ∅ ∅)
    (replayStart (withStart (lit 1 2) (of_Z 0) [oneStorage] plainParams)))) = true) by (vm_compute; reflexivity).
  apply bool_decide_eq_true in Ok as [r1 E]. rewrite E.
  apply (mixed_maps_forget_energy _ (of_Z 1) (of_Z 1) (drawing (of_Z (-3000)) ∅ ∅) _ _ r1); [reflexivity|discriminate|reflexivity|exact E].
Defined.
