(* ===== verification/CoreReserve.v ===== *)
(** * Core's reserve plan (go/internal/mpc: ev_reserve.go, reserve_price.go)

    A plan that needs no optimiser: it keeps the battery inside the energy it
    must hold for the house, charges the car by exact energy and legal
    on-power, and then moves the car's energy to cheaper slots. *)
From Stdlib Require Import ZArith Lia.
From S2P Require Import Prelude Float64 GoTime Site Limits PlanSlots.
From stdpp Require Import base gmap strings list.
From S2P Require Import PlanSlots PlanData ParamsCheck PlanCheck.
#[local] Open Scope Z_scope.

(** ** Looking at the context while computing *)
Inductive PlanFailure : Type := Cancelled | Infeasible.
(** A computation that may look at the context: [nat] counts the looks. *)
Definition Polled (A : Type) : Type := nat -> (A + PlanFailure) * nat.
Definition ret {A : Type} (x : A) : Polled A := fun k => (inl x, k).
Definition fails {A : Type} (e : PlanFailure) : Polled A := fun k => (inr e, k).
Definition bind {A B : Type} (m : Polled A) (f : A -> Polled B) : Polled B :=
  fun k => match m k with (inl x, k) => f x k | (inr e, k) => (inr e, k) end.
Definition orInfeasible {A : Type} (o : option A) : Polled A := match o with Some x => ret x | None => fails Infeasible end.
Declare Scope polled_scope.
Delimit Scope polled_scope with polled.
Notation "x <- m ; k" := (bind m (fun x => k)) (at level 100, m at next level, k at level 200, right associativity) : polled_scope.
#[local] Open Scope polled_scope.
Definition poll (ctxErr : nat -> bool) : Polled unit := fun k => ((if ctxErr k then inr Cancelled else inl tt), S k).

(** ** The battery's room *)
Definition reservePowerForEnergy (deltaWh hours chargeEff dischargeEff : f64) : f64 :=
  if flt deltaWh (of_Z 0) then fdiv (fmul deltaWh dischargeEff) hours else fdiv deltaWh (fmul chargeEff hours).
Definition modeRange (m : PlannerMode) (r : f64 * f64) (baseline : f64) : f64 * f64 :=
  if isMode m ModeSelfConsumption
  then (bmax (fst r) (fneg (bmax (of_Z 0) baseline)), bmin (snd r) (bmax (of_Z 0) (fneg baseline)))
  else if isMode m ModeCheapCharge || isMode m ModePassiveArbitrage then (bmax (fst r) (fneg (bmax (of_Z 0) baseline)), snd r)
  else r.
Definition reserveBatteryPowerRange (s : Slot) (p : Params) (peak : f64) : f64 * f64 :=
  let house := fadd (LoadW s) (PVW s) in
  let low := fneg (MaxDischargeW p) in
  let low := if flt (of_Z 0) (lMaxExportW (Limits s)) then bmax low (fsub (fneg (lMaxExportW (Limits s))) house) else low in
  let high := MaxChargeW p in
  let high := if flt (of_Z 0) (MaxImportW (Limits s)) then bmin high (fsub (fsub (MaxImportW (Limits s)) house) peak) else high in
  fold_left (modeRange (pMode p)) [house; fadd house peak] (low, high).

Definition chargeEff (p : Params) : f64 := if fle (ChargeEfficiency p) (of_Z 0) then lit 95 100 else ChargeEfficiency p.
Definition dischargeEff (p : Params) : f64 := if fle (DischargeEfficiency p) (of_Z 0) then lit 95 100 else DischargeEfficiency p.
(** Backwards from the operating band: the energy before each slot from which
    the rest of the forecast can still be served. *)
Fixpoint bandsFrom (p : Params) (floor ceiling : f64) (slots : list Slot) : option (list (f64 * f64)) :=
  match slots with
  | [] => Some [(floor, ceiling)]
  | s :: rest =>
      match bandsFrom p floor ceiling rest with
      | Some (next :: bands) =>
          let '(low, high) := reserveBatteryPowerRange s p (of_Z 0) in
          if flt high low then None
          else
            let hours := DurationHours s in
            let bmn := bmax floor (fsub (fst next) (BatteryEnergyDeltaWh high hours (chargeEff p) (dischargeEff p))) in
            let bmx := bmin ceiling (fsub (snd next) (BatteryEnergyDeltaWh low hours (chargeEff p) (dischargeEff p))) in
            if flt (fadd bmx (lit 1 1000000)) bmn then None else Some ((bmn, bmx) :: next :: bands)
      | _ => None
      end
  end.
Definition reserveBatteryBands (slots : list Slot) (p : Params) : option (list (f64 * f64)) :=
  if negb (validateSlotChronology slots) then None
  else
    let initial := fmul (InitialSoC p) (CapacityWh p) in
    match bandsFrom p (bmin initial (fmul (SoCMin p) (CapacityWh p))) (bmax initial (fmul (SoCMax p) (CapacityWh p))) slots with
    | Some ((mn, mx) :: rest) =>
        if flt initial (fsub mn (lit 1 1000000)) || flt (fadd mx (lit 1 1000000)) initial then None else Some ((mn, mx) :: rest)
    | _ => None
    end.

(** ** One slot *)
(** The car's numbers, fixed for the whole plan. *)
Record ReserveCar : Type := mkReserveCar { rcSpec : LoadpointSpec; rcEff : f64; rcTarget : f64; rcSteps : list f64 }.
Definition reserveCar (lp : LoadpointSpec) : ReserveCar :=
  mkReserveCar lp (if flt (of_Z 0) (evChargeEfficiency lp) then evChargeEfficiency lp else lit 9 10)
    (fmul (bmin (TargetSoC lp) (if fle (evSoCMax lp) (evSoCMin lp) then of_Z 1 else evSoCMax lp)) (evCapacityWh lp))
    (normalizedSteps lp).
Definition houseW (s : Slot) : f64 := fadd (LoadW s) (PVW s).

(** What bounds the battery in a slot: its energy, and the band after it. *)
Definition batteryRoom (p : Params) (s : Slot) (energy : f64) (band : f64 * f64) : f64 * f64 :=
  let hours := DurationHours s in
  let mn := fneg (bmin (MaxDischargeW p)
              (fdiv (fmul (bmax (of_Z 0) (fsub energy (fmul (SoCMin p) (CapacityWh p)))) (dischargeEff p)) hours)) in
  let mx := bmin (MaxChargeW p) (fdiv (fdiv (bmax (of_Z 0) (fsub (fmul (SoCMax p) (CapacityWh p)) energy)) (chargeEff p)) hours) in
  (bmax mn (reservePowerForEnergy (fsub (fst band) energy) hours (chargeEff p) (dischargeEff p)),
   bmin mx (reservePowerForEnergy (fsub (snd band) energy) hours (chargeEff p) (dischargeEff p))).
(** [most] bounds the battery from above, so it may cover the house. *)
Definition chooseBattery (p : Params) (car : option ReserveCar) (s : Slot) (room : f64 * f64) (peak most : f64) : option f64 :=
  let house := houseW s in
  let '(low, high) := reserveBatteryPowerRange s p peak in
  let low := bmax low (fst room) in
  let high := bmin high (snd room) in
  let low := if flt (of_Z 0) peak && match car with Some c => blocksBatteryToEV (rcSpec c) | None => false end
             then bmax low (fneg (bmax (of_Z 0) house)) else low in
  if flt (fadd high (lit 1 10000000)) low then None
  else
    let b := bmin (bmax (of_Z 0) low) high in
    let b := if flt most b then bmax low most else b in
    if negb (modeAllows (pMode p) house (fadd house b) b) ||
       negb (modeAllows (pMode p) (fadd house peak) (fadd (fadd house peak) b) b) then None
    else Some b.

(** The first step from above that fits: its power, the battery beside it, and
    the car's mean power. *)
Fixpoint fitStep (p : Params) (c : ReserveCar) (s : Slot) (room : f64 * f64) (capW need : f64) (stepsDown : list f64) : option (f64 * f64 * f64) :=
  match stepsDown with
  | [] => None
  | step :: rest =>
      let next := fitStep p c s room capW need rest in
      let hours := DurationHours s in
      if SurplusOnly (rcSpec c) && SurplusOnlyExceedsHousePV step (LoadW s) (PVW s) then next
      else
        match chooseBattery p (Some c) s room step (Inf false) with
        | None => next
        | Some b =>
            let house := houseW s in
            let want := bmin step (fdiv need (fmul (rcEff c) hours)) in
            let b :=
              if flt (evAverageRoomW capW (fadd house b) step) want
              then default b (chooseBattery p (Some c) s room step (bmax (fneg (bmax (of_Z 0) house)) (fsub (fsub capW house) want)))
              else b in
            let avg := bmin want (evAverageRoomW capW (fadd house b) step) in
            if negb (match capW with Inf false => true | _ => false end) &&
               (fle avg (lit 1 1000000) ||
                flt b (fneg solverZeroPowerToleranceW) && flt (fadd (fadd house b) avg) (of_Z (-50)))
            then next
            else Some (step, b, avg)
        end
  end.
Definition reserveAction (p : Params) (car : option ReserveCar) (s : Slot) (battery average peak energy evEnergy : f64) : Action :=
  let bare := mkAction s battery (fadd (fadd (houseW s) battery) average) (fdiv energy (CapacityWh p)) (of_Z 0) "Site power reserve" (of_Z 0)
                (of_Z 0) (of_Z 0) false ∅ ∅ ∅ ∅ ∅ in
  match car with
  | None => bare
  | Some c =>
      let id := lpID (rcSpec c) in
      let soc := fdiv evEnergy (evCapacityWh (rcSpec c)) in
      mkAction s battery (aGridW bare) (SoC bare) (of_Z 0) "EV deadline reserve" (of_Z 0) average soc false ∅ ∅
        {[id := average]} {[id := peak]} {[id := soc]}
  end.
Definition withCost (c : f64) (a : Action) : Action :=
  mkAction (aSlot a) (BatteryW a) (aGridW a) (SoC a) c (Reason a) (PVLimitW a) (LoadpointW a) (LoadpointSoC a) (PVCurtailActive a)
    (StoragePowerW a) (StorageEnergyWh a) (LoadpointPowerW a) (LoadpointMaxPowerW a) (LoadpointSoCByID a).

Section Reserve.
Context `{MapIter} (ctxErr : nat -> bool).

(** Slot [t]: the action and the two energies after it. *)
Definition reserveSlot (p : Params) (car : option ReserveCar) (t : nat) (s : Slot) (band : f64 * f64) (capW energy evEnergy : f64)
  : option (Action * f64 * f64) :=
  let room := batteryRoom p s energy band in
  let hours := DurationHours s in
  match chooseBattery p car s room (of_Z 0) (Inf false) with
  | None => None
  | Some battery =>
      let '(peak, battery, average) :=
        match car with
        | None => (of_Z 0, battery, of_Z 0)
        | Some c =>
            let need := bmax (of_Z 0) (fsub (rcTarget c) evEnergy) in
            if flt (lit 1 1000000) need && (Z.of_nat t <=? TargetSlotIdx (rcSpec c))
            then default (of_Z 0, battery, of_Z 0) (fitStep p c s room capW need (rev (tail (rcSteps c))))
            else (of_Z 0, battery, of_Z 0)
        end in
      let evEnergy := fadd evEnergy (fmul (fmul average (match car with Some c => rcEff c | None => lit 9 10 end)) hours) in
      let energy := fadd energy (BatteryEnergyDeltaWh battery hours (chargeEff p) (dischargeEff p)) in
      let a := reserveAction p car s battery average peak energy evEnergy in
      Some (withCost (reserveSlotCost s p a) a, energy, evEnergy)
  end.
Fixpoint reserveSlots (p : Params) (car : option ReserveCar) (t : nat) (slots : list Slot) (bands : list (f64 * f64))
    (caps : option (list (f64 * f64))) (energy evEnergy : f64) : Polled (list Action * f64) :=
  match slots with
  | [] => ret ([], evEnergy)
  | s :: rest =>
      _ <- poll ctxErr;
      r <- orInfeasible
             (match bands !! S t with
              | Some band =>
                  reserveSlot p car t s band (match caps ≫= (fun l => l !! t) with Some c => snd c | None => Inf false end) energy evEnergy
              | None => None
              end);
      let '(a, energy, evEnergy) := r in
      rs <- reserveSlots p car (S t) rest bands caps energy evEnergy;
      ret (a :: fst rs, snd rs)
  end.
End Reserve.

(** ** Cheaper slots for the car *)
Definition withCar (id : string) (average peak : f64) (a : Action) : Action :=
  mkAction (aSlot a) (BatteryW a) (aGridW a) (SoC a) (CostOre a) (Reason a) (PVLimitW a) average (LoadpointSoC a) (PVCurtailActive a)
    (StoragePowerW a) (StorageEnergyWh a) (<[id := average]> (LoadpointPowerW a)) (<[id := peak]> (LoadpointMaxPowerW a)) (LoadpointSoCByID a).
Definition noCar (lp : LoadpointSpec) (a : Action) : Action :=
  mkAction (aSlot a) (BatteryW a) (aGridW a) (SoC a) (CostOre a) (Reason a) (PVLimitW a) (of_Z 0) (LoadpointSoC a) (PVCurtailActive a)
    (StoragePowerW a) (StorageEnergyWh a) {[lpID lp := of_Z 0]} {[lpID lp := of_Z 0]} {[lpID lp := evInitialSoC lp]}.
Record Offer : Type := mkOffer { oIndex : nat; peakW : f64; unitCost : f64 }.
(** [cmp.Compare] on floats: NaN first. A stable sort. *)
Fixpoint insertOffer (o : Offer) (l : list Offer) : list Offer :=
  match l with [] => [o] | x :: r => if floatLess (unitCost x) (unitCost o) then x :: insertOffer o r else o :: l end.
Definition sortOffers (l : list Offer) : list Offer := foldr insertOffer [] l.
Definition withActions (acts : list Action) (total : f64) (plan : Plan) : Plan :=
  mkPlan (plMode plan) (HorizonSlots plan) (plCapacityWh plan) (plInitialSoC plan) total acts (LoadpointShortfallWh plan).
Definition withShortfall (m : gmap string f64) (plan : Plan) : Plan :=
  mkPlan (plMode plan) (HorizonSlots plan) (plCapacityWh plan) (plInitialSoC plan) (TotalCostOre plan) (Actions plan) m.

Section Price.
Context `{MapIter} (ctxErr : nat -> bool).

(** The highest legal on-power of a slot and what a watt-hour costs there. *)
Fixpoint offerOf (p : Params) (lp : LoadpointSpec) (eff : f64) (t : nat) (s : Slot) (batteryW : f64) (stepsDown : list f64) : option Offer :=
  match stepsDown with
  | [] => None
  | peak :: rest =>
      let baseGrid := fadd (houseW s) batteryW in
      let half := fdiv peak (of_Z 2) in
      let probe := mkAction s batteryW (fadd baseGrid half) (of_Z 0) (of_Z 0) EmptyString (of_Z 0) half (of_Z 0) false ∅ ∅
                     {[lpID lp := half]} {[lpID lp := peak]} ∅ in
      if negb (validateEVPulse s p probe (PVW s) true) then offerOf p lp eff t s batteryW rest
      else
        let hours := DurationHours s in
        let offCost := SlotGridCostOre s (kWh baseGrid hours) p in
        let onCost := SlotGridCostOre s (kWh (fadd baseGrid peak) hours) p in
        Some (mkOffer t peak (fdiv (fsub onCost offCost) (fmul (fmul peak hours) eff)))
  end.
Fixpoint offers (p : Params) (lp : LoadpointSpec) (eff : f64) (t : nat) (slots : list Slot) (acts : list Action) : Polled (list Offer) :=
  match slots, acts with
  | s :: slots, a :: acts =>
      _ <- poll ctxErr;
      if TargetSlotIdx lp <? Z.of_nat t then ret []
      else
        rest <- offers p lp eff (S t) slots acts;
        ret (match offerOf p lp eff t s (BatteryW a) (rev (tail (normalizedSteps lp))) with Some o => o :: rest | None => rest end)
  | _, _ => ret []
  end.
(** Spend the energy on the offers, cheapest first. *)
Fixpoint allocate (p : Params) (lp : LoadpointSpec) (eff : f64) (slots : list Slot) (reserve : list Action) (caps : option (list (f64 * f64)))
    (l : list Offer) (remaining : f64) (acts : list Action) : Polled (f64 * list Action) :=
  match l with
  | [] => ret (remaining, acts)
  | o :: rest =>
      _ <- poll ctxErr;
      if fle remaining (lit 1 1000000) then ret (remaining, acts)
      else
        match slots !! oIndex o, reserve !! oIndex o with
        | Some s, Some ra =>
            let hours := DurationHours s in
            let average := bmin (peakW o) (fdiv remaining (fmul eff hours)) in
            let average :=
              match caps with
              | Some c => bmin average (evAverageRoomW (match c !! oIndex o with Some x => snd x | None => of_Z 0 end)
                                          (fadd (houseW s) (BatteryW ra)) (peakW o))
              | None => average
              end in
            if match caps with Some _ => fle average (lit 1 1000000) | None => false end
            then allocate p lp eff slots reserve caps rest remaining acts
            else
              allocate p lp eff slots reserve caps rest (fsub remaining (fmul (fmul average eff) hours))
                (alter (withCar (lpID lp) average (peakW o)) (oIndex o) acts)
        | _, _ => ret (remaining, acts)
        end
  end.
(** The car's energy and the costs, from the powers chosen. *)
Definition settleAction (p : Params) (lp : LoadpointSpec) (eff : f64) (acc : list Action * f64) (sa : Slot * Action) : list Action * f64 :=
  let '(s, a) := sa in
  let evEnergy := fadd (snd acc) (fmul (fmul (LoadpointW a) (DurationHours s)) eff) in
  let soc := fdiv evEnergy (evCapacityWh lp) in
  let a := mkAction (aSlot a) (BatteryW a) (fadd (fadd (houseW s) (BatteryW a)) (LoadpointW a)) (SoC a) (CostOre a) (Reason a) (PVLimitW a)
             (LoadpointW a) soc (PVCurtailActive a) (StoragePowerW a) (StorageEnergyWh a) (LoadpointPowerW a) (LoadpointMaxPowerW a)
             (<[lpID lp := soc]> (LoadpointSoCByID a)) in
  (fst acc ++ [withCost (reserveSlotCost s p a) a], evEnergy).
Definition totalOf (acts : list Action) : f64 := fold_left (fun t a => fadd t (CostOre a)) acts (of_Z 0).

Definition priceReserveCharging (slots : list Slot) (p : Params) (reserve : Plan) : Polled Plan :=
  match activeLoadpoints p with
  | [lp] =>
      if hasDemandCharges p then ret reserve
      else
        let eff := if fle (evChargeEfficiency lp) (of_Z 0) then lit 9 10 else evChargeEfficiency lp in
        let energyWh := fold_left (fun e sa => fadd e (fmul (fmul (LoadpointW (snd sa)) (DurationHours (fst sa))) eff))
                          (zip slots (Actions reserve)) (of_Z 0) in
        if fle energyWh (lit 1 1000000) then ret reserve
        else
          os <- offers p lp eff 0 slots (Actions reserve);
          r <- allocate p lp eff slots (Actions reserve) (importHourCapsW slots (ImportMeanW p) (ImportHours p)) (sortOffers os) energyWh
                 (noCar lp <$> Actions reserve);
          if flt (lit 1 1000000) (fst r) then ret reserve
          else
            let start := fmul (evInitialSoC lp) (evCapacityWh lp) in
            let '(acts, evEnergy) := fold_left (settleAction p lp eff) (zip slots (snd r)) ([], start) in
            let priced := withActions acts (totalOf acts) reserve in
            if flt (lit 1 1000000) (fabs (fsub (fsub evEnergy start) energyWh)) ||
               fle (fsub (TotalCostOre reserve) (lit 1 1000000)) (TotalCostOre priced) then ret reserve
            else match ValidatePlan slots p priced with Accepted short => ret (withShortfall short priced) | _ => ret reserve end
  | _ => ret reserve
  end.

Definition coreReservePlan (slots : list Slot) (p : Params) : Polled Plan :=
  if coreDPModelError p then fails Infeasible
  else
    bands <- orInfeasible (reserveBatteryBands slots p);
    let car := match activeLoadpoints p with [lp] => Some (reserveCar lp) | _ => None end in
    r <- reserveSlots ctxErr p car 0 slots bands (importHourCapsW slots (ImportMeanW p) (ImportHours p)) (fmul (InitialSoC p) (CapacityWh p))
           (match car with Some c => fmul (evInitialSoC (rcSpec c)) (evCapacityWh (rcSpec c)) | None => of_Z 0 end);
    let short :=
      match car with
      | Some c =>
          if flt (of_Z 0) (TargetSoC (rcSpec c)) && (0 <=? TargetSlotIdx (rcSpec c)) && (TargetSlotIdx (rcSpec c) <? Z.of_nat (length slots))
          then {[lpID (rcSpec c) := bmax (of_Z 0) (fsub (rcTarget c) (snd r))]} else ∅
      | None => ∅
      end in
    priceReserveCharging slots p
      (mkPlan (pMode p) (length slots) (CapacityWh p) (InitialSoC p) (totalOf (fst r)) (fst r) short).
End Price.

(** ** Properties *)
Lemma bind_inl {A B : Type} (m : Polled A) (f : A -> Polled B) k x k' : bind m f k = (inl x, k') ->
  exists y k1, m k = (inl y, k1) /\ f y k1 = (inl x, k').
Proof. unfold bind. intros E. destruct (m k) as [[y|e] k1] eqn:M; [now exists y, k1|discriminate E]. Qed.

Section Kept.
Context `{MapIter} (ctxErr : nat -> bool).

(** What the pass leaves alone in an action. *)
Definition kept (a : Action) : Slot * f64 * f64 * gmap string f64 := (aSlot a, BatteryW a, SoC a, StoragePowerW a).
Lemma allocate_kept p lp eff slots reserve caps l : forall remaining acts k r k',
  allocate ctxErr p lp eff slots reserve caps l remaining acts k = (inl r, k') -> kept <$> snd r = kept <$> acts.
Proof.
  induction l as [|o l IH]; intros remaining acts k r k' E; cbn [allocate] in E; [unfold ret in E; now assert (r = (remaining, acts)) as -> by congruence|].
  apply bind_inl in E as ([] & k1 & _ & E). destruct (fle remaining _); [unfold ret in E; now assert (r = (remaining, acts)) as -> by congruence|].
  destruct (slots !! oIndex o) as [s|], (reserve !! oIndex o) as [ra|]; try (unfold ret in E; now assert (r = (remaining, acts)) as -> by congruence).
  cbv zeta in E. set (b := match caps with Some _ => _ | None => false end) in E. destruct b; rewrite (IH _ _ _ _ _ E); [reflexivity|].
  apply list_eq. intros i. rewrite !list_lookup_fmap, list_lookup_alter. destruct (decide (oIndex o = i)) as [->|]; [|reflexivity].
  now destruct (acts !! i).
Qed.
Lemma settle_kept p lp eff l : forall acc, kept <$> fst (fold_left (settleAction p lp eff) l acc) = (kept <$> fst acc) ++ (kept ∘ snd <$> l).
Proof.
  induction l as [|[s a] l IH]; intros acc; cbn [fold_left]; [now rewrite app_nil_r|]. rewrite IH. unfold settleAction. cbn [fst].
  rewrite fmap_app, <- app_assoc. reflexivity.
Qed.
End Kept.

