(* ===== verification/CoreRecovery.v ===== *)
(** * Core plans a site itself (go/internal/mpc: core_recovery.go)

    The optimiser's plan when there is time for it, otherwise the reserve
    plan, and when not even that fits, the longest start of it. Every candidate
    is replayed before it is used. *)
From Stdlib Require Import ZArith Lia.
From S2P Require Import Prelude Float64 GoTime Site Limits PlanSlots.
From stdpp Require Import base gmap strings list.
From S2P Require Import PlanSlots PlanData ParamsCheck PlanCheck Planner CoreReserve.
#[local] Open Scope Z_scope.
#[local] Open Scope polled_scope.

(** ** The longest valid start *)
(** The search of [planningInputPrefix], from [low] to [high]. *)
Fixpoint searchPrefix (valid : nat -> bool) (fuel low high count : nat) : nat :=
  match fuel with
  | O => count
  | S fuel =>
      if (high <? low)%nat then count
      else
        let mid := (low + (high - low) / 2)%nat in
        if valid mid then searchPrefix valid fuel (S mid) high mid else searchPrefix valid fuel low (mid - 1) count
  end.
(** The slots to plan, and whether any was left out; [None] when the timeline
    itself is damaged. *)
Definition planningInputPrefix (slots : list Slot) : option (list Slot * bool) :=
  if negb (validateSlotChronology slots) then None
  else if validatePlanningSlots slots then Some (slots, false)
  else
    let valid n := validatePlanningSlots (take n slots) in
    Some (take (searchPrefix valid (length slots) 1 (length slots - 1) 0) slots, true).

(** ** Recovery *)
Section Recovery.
Context `{MapIter} (ctxErr : nat -> bool).

Definition build (p : Params) (slots : list Slot) (n : nat) : Polled Plan :=
  _ <- poll ctxErr;
  plan <- coreReservePlan ctxErr (take n slots) p;
  match ValidatePlan (take n slots) p plan with
  | Accepted short => ret (withShortfall short plan)
  | _ => fails Infeasible
  end.
(** A failed build is not the end, a cancelled context is. *)
Definition attempt {A : Type} (m : Polled A) : Polled (option A) :=
  fun k => match m k with (inl x, k) => (inl (Some x), k) | (inr _, k) => (inl None, k) end.
Fixpoint searchPlan (p : Params) (slots : list Slot) (fuel low high : nat) (best : option (Plan * nat)) : Polled (option (Plan * nat)) :=
  match fuel with
  | O => ret best
  | S fuel =>
      if (high <? low)%nat then ret best
      else
        let mid := (low + (high - low) / 2)%nat in
        c <- attempt (build p slots mid);
        _ <- poll ctxErr;
        match c with
        | Some plan => searchPlan p slots fuel (S mid) high (Some (plan, mid))
        | None => searchPlan p slots fuel low (mid - 1) best
        end
  end.

(** The optimiser's plan, if it is of use; [dpErr] is the context with the
    optimiser's own time limit. *)
Definition optimiserPlan (dpErr : nat -> bool) (p : Params) (slots : list Slot) : option Plan :=
  if match activeLoadpoints p with lp :: _ => fle (TargetSoC lp) (of_Z 0) | [] => true end then
    match OptimizeContext dpErr slots p with
    | (plan, None) => match ValidatePlan slots p plan with Accepted short => Some (withShortfall short plan) | _ => None end
    | _ => None
    end
  else None.
(** The plan and the slots it covers. *)
Definition corePlanWithRecovery (dpErr : nat -> bool) (input : list Slot) (p : Params) : Polled (Plan * list Slot) :=
  _ <- poll ctxErr;
  prefix <- orInfeasible (planningInputPrefix input);
  let slots := fst prefix in
  if (length slots =? 0)%nat || negb (validatePlanningParams p) || coreDPModelError p then fails Infeasible
  else
    match optimiserPlan dpErr p slots with
    | Some plan => ret (plan, slots)
    | None =>
        full <- attempt (build p slots (length slots));
        match full with
        | Some plan => ret (plan, slots)
        | None =>
            _ <- poll ctxErr;
            best <- searchPlan p slots (length slots) 1 (length slots - 1) None;
            match best with
            | Some (plan, count) => ret (plan, take count slots)
            | None => fails Infeasible
            end
        end
    end.
End Recovery.

(** ** Lemmas: the searches *)
(** The number found is the longest valid one. *)
Lemma searchPrefix_spec (valid : nat -> bool) : forall fuel low high count,
  (forall n m, (n <= m)%nat -> (1 <= n)%nat -> valid m = true -> valid n = true) ->
  (1 <= low)%nat -> (S high - low <= fuel)%nat -> (count = 0 \/ 1 <= count /\ valid count = true)%nat -> low = S count ->
  let r := searchPrefix valid fuel low high count in
  (count <= r <= Nat.max count high)%nat /\ (r = 0 \/ valid r = true)%nat /\ (forall n, (r < n <= high)%nat -> valid n = false).
Proof.
  induction fuel as [|fuel IH]; intros low high count Mono L F C E; cbn [searchPrefix].
  { split_and!; [lia|lia|destruct C as [->|[_ C]]; [now left|now right]|intros n N; lia]. }
  destruct (Nat.ltb_spec high low) as [B|B]; [split_and!; [lia|lia|destruct C as [->|[_ C]]; [now left|now right]|intros n N; lia]|].
  set (mid := (low + (high - low) / 2)%nat). assert (M : (low <= mid <= high)%nat) by (unfold mid; pose proof (Nat.Div0.div_le_upper_bound (high - low) 2 (high - low)); lia).
  destruct (valid mid) eqn:V; cbv zeta.
  - destruct (IH (S mid) high mid Mono ltac:(lia) ltac:(lia)) as (A1 & A2 & A3); [right; split; [lia|exact V]|reflexivity|]. split_and!; [lia|lia|exact A2|exact A3].
  - destruct (IH low (mid - 1)%nat count Mono L ltac:(lia) C E) as (A1 & A2 & A3). split_and!; [lia|lia|exact A2|].
    intros n N. destruct (decide (n <= mid - 1)%nat) as [N1|N1]; [apply A3; lia|].
    destruct (valid n) eqn:Vn; [|reflexivity]. rewrite (Mono mid n) in V; [discriminate|lia|lia|exact Vn].
Qed.
Lemma validatePrefix_mono slots n m : (n <= m)%nat -> (1 <= n)%nat ->
  validatePlanningSlots (take m slots) = true -> validatePlanningSlots (take n slots) = true.
Proof.
  unfold validatePlanningSlots. intros L N V. apply andb_true_iff in V as [V1 V2]. apply andb_true_iff. split.
  - destruct slots; [rewrite take_nil in V1; discriminate V1|]. destruct n; [lia|reflexivity].
  - rewrite forallb_forall in *. intros x I. apply V2. apply list_elem_of_In. apply list_elem_of_In in I.
    apply (sublist_subseteq (take n slots)); [|exact I]. replace n with (Nat.min n m) by lia. rewrite <- take_take. apply sublist_take.
Qed.

(** ** Lemmas: what comes out was replayed *)
Section Replayed.
Context `{MapIter} (ctxErr : nat -> bool) (p : Params).

Definition replayed (slots : list Slot) (plan : Plan) : Prop :=
  exists short plan', ValidatePlan slots p plan' = Accepted short /\ plan = withShortfall short plan'.
Lemma build_replayed slots n k plan k' : build ctxErr p slots n k = (inl plan, k') -> replayed (take n slots) plan.
Proof.
  unfold build. intros E. apply bind_inl in E as ([] & k1 & _ & E). apply bind_inl in E as (plan0 & k2 & _ & E).
  destruct (ValidatePlan (take n slots) p plan0) as [short|short|] eqn:V; try discriminate E.
  unfold ret in E. assert (plan = withShortfall short plan0) as -> by congruence. now exists short, plan0.
Qed.
Definition replayedBest (slots : list Slot) (best : option (Plan * nat)) : Prop :=
  match best with Some (plan, n) => (1 <= n)%nat /\ replayed (take n slots) plan | None => True end.
Lemma searchPlan_replayed slots fuel : forall low high best k r k', (1 <= low)%nat -> replayedBest slots best ->
  searchPlan ctxErr p slots fuel low high best k = (inl r, k') -> replayedBest slots r.
Proof.
  induction fuel as [|fuel IH]; intros low high best k r k' L B E; cbn [searchPlan] in E.
  { unfold ret in E. now assert (r = best) as -> by congruence. }
  destruct (Nat.ltb_spec high low); [unfold ret in E; now assert (r = best) as -> by congruence|]. set (mid := (low + _)%nat) in E.
  assert (M : (1 <= mid)%nat) by (unfold mid; lia). clearbody mid. apply bind_inl in E as (c & k1 & C & E). apply bind_inl in E as ([] & k2 & _ & E).
  destruct c as [plan|]; [|exact (IH _ _ _ _ _ _ L B E)]. refine (IH (S mid) high (Some (plan, mid)) k2 r k' ltac:(lia) _ E). split; [exact M|].
  unfold attempt in C. destruct (build ctxErr p slots mid k) as [[y|e] k3] eqn:Q; [|congruence].
  assert (y = plan) as -> by congruence. exact (build_replayed _ _ _ _ _ Q).
Qed.
Lemma optimiser_replayed dpErr slots plan : optimiserPlan dpErr p slots = Some plan -> replayed slots plan.
Proof.
  unfold optimiserPlan. destruct (match activeLoadpoints p with lp :: _ => _ | [] => _ end); [|discriminate].
  destruct (OptimizeContext dpErr slots p) as [plan0 [e|]]; [discriminate|].
  destruct (ValidatePlan slots p plan0) as [short|short|] eqn:V; try discriminate. intros E. apply (inj Some) in E. subst plan. now exists short, plan0.
Qed.
Lemma attempt_inl {A : Type} (m : Polled A) k x k' : attempt m k = (inl (Some x), k') -> m k = (inl x, k').
Proof. unfold attempt. destruct (m k) as [[y|e] k1]; congruence. Qed.

Lemma recovery_replayed dpErr input k plan used k' : corePlanWithRecovery ctxErr dpErr input p k = (inl (plan, used), k') ->
  validatePlanningParams p = true /\ coreDPModelError p = false /\
  exists slots cut n, planningInputPrefix input = Some (slots, cut) /\ slots <> [] /\ (1 <= n)%nat /\ used = take n slots /\ replayed used plan.
Proof.
  unfold corePlanWithRecovery. intros E. apply bind_inl in E as ([] & k1 & _ & E). apply bind_inl in E as ([slots cut] & k2 & P & E).
  cbv zeta in E. cbn [fst] in E. destruct (_ || _) eqn:Q in E; [discriminate E|]. apply orb_false_iff in Q as [Q Dm]. apply orb_false_iff in Q as [Z V].
  apply negb_false_iff in V. split; [exact V|]. split; [exact Dm|]. exists slots, cut.
  assert (P' : planningInputPrefix input = Some (slots, cut)).
  { unfold orInfeasible in P. destruct (planningInputPrefix input); unfold ret, fails in P; congruence. }
  assert (Nz : slots <> []) by (intros ->; discriminate Z). assert (Ln : (1 <= length slots)%nat) by (destruct slots; [congruence|cbn; lia]).
  assert (Tk : take (length slots) slots = slots) by now rewrite firstn_all.
  destruct (optimiserPlan dpErr p slots) as [plan0|] eqn:O.
  { unfold ret in E. assert (plan0 = plan /\ used = slots) as [-> ->] by (split; congruence). exists (length slots).
    split_and!; try done. exact (optimiser_replayed _ _ _ O). }
  apply bind_inl in E as (full & k3 & F & E). destruct full as [plan0|].
  { apply attempt_inl in F. unfold ret in E. assert (plan0 = plan /\ used = slots) as [-> ->] by (split; congruence). exists (length slots).
    apply build_replayed in F. rewrite Tk in F. now split_and!. }
  apply bind_inl in E as ([] & k4 & _ & E). apply bind_inl in E as (best & k5 & B & E). destruct best as [[plan0 n]|]; [|discriminate E].
  unfold ret in E. assert (plan0 = plan /\ used = take n slots) as [-> ->] by (split; congruence).
  apply searchPlan_replayed in B as [N R]; [|lia|exact I]. exists n. now split_and!.
Qed.
End Replayed.

(** ** Properties *)

(** Invalid values late in the forecast do not cost the early ones. On a
    sound timeline the binary search over the inputs gives the longest start
    whose every slot is valid, exactly as trying all of them would; on a
    damaged one there is none. *)
Theorem input_prefix_longest (slots : list Slot) :
  match planningInputPrefix slots with
  | None => validateSlotChronology slots = false
  | Some (used, cut) =>
      validateSlotChronology slots = true /\ exists n, (n <= length slots)%nat /\ used = take n slots /\
        (cut = false <-> n = length slots) /\ (n = 0%nat \/ validatePlanningSlots used = true) /\
        forall m, (n < m <= length slots)%nat -> validatePlanningSlots (take m slots) = false
  end.
Proof.
  unfold planningInputPrefix. destruct (validateSlotChronology slots) eqn:C; cbn [negb]; [|reflexivity].
  assert (Nz : (1 <= length slots)%nat) by (destruct slots; [discriminate C|cbn; lia]).
  destruct (validatePlanningSlots slots) eqn:V; (split; [reflexivity|]).
  - exists (length slots). split_and!; [lia|now rewrite firstn_all|done|now right|intros m M; lia].
  - destruct (searchPrefix_spec (fun n => validatePlanningSlots (take n slots)) (length slots) 1 (length slots - 1) 0) as (A & B & D);
      [intros n m L N; now apply validatePrefix_mono|lia|lia|now left|reflexivity|]. set (n := searchPrefix _ _ _ _ _) in *. clearbody n.
    exists n. split_and!; [lia|reflexivity|split; [discriminate|intros ->; lia]|exact B|].
    intros m M. destruct (decide (m = length slots)) as [->|]; [now rewrite firstn_all|]. apply D. lia.
Qed.

(** C16: every plan Core makes for itself is safe, whichever way it was made.
    Whatever the inputs, the context and the moment it ends, a plan that comes
    out covers a start of the requested slots that is not empty and valid,
    passed the replay with validated parameters, and so keeps every promise of
    an accepted plan, including each clock hour's import. *)
Theorem core_plan_is_safe `{MapIter} (ctxErr dpErr : nat -> bool) (input : list Slot) (p : Params) (k k' : nat) (plan : Plan)
    (used : list Slot) (Hw : machineParams p) (Hr : corePlanWithRecovery ctxErr dpErr input p k = (inl (plan, used), k')) :
  validateSlotChronology input = true /\ validatePlanningSlots used = true /\ used `prefix_of` input /\
  paramsOk p /\ Forall2 (actionSafe p) used (Actions plan) /\
  forall h, h ∈ ImportHours p -> hourOverrun p used (Actions plan) h = false.
Proof.
  apply recovery_replayed in Hr as (V & _ & slots & cut & n & P & Nz & N1 & -> & short & plan' & A & ->).
  unfold planningInputPrefix in P. destruct (validateSlotChronology input) eqn:C; cbn [negb] in P; [|discriminate P].
  assert (Q : slots `prefix_of` input /\ (slots = [] \/ validatePlanningSlots slots = true)).
  { destruct (validatePlanningSlots input) eqn:Vi; [assert (slots = input) as -> by congruence; split; [done|now right]|].
    destruct (searchPrefix_spec (fun n => validatePlanningSlots (take n input)) (length input) 1 (length input - 1) 0) as (_ & B & _);
      [intros a b L M; now apply validatePrefix_mono|lia|lia|now left|reflexivity|]. set (s := searchPrefix _ _ _ _ _) in *. clearbody s.
    assert (slots = take s input) as -> by congruence. split; [apply prefix_take|]. destruct B as [->|B]; [now left|now right]. }
  destruct Q as [Q1 [->|Q2]]; [congruence|]. destruct (accepted_safe _ _ _ short V Hw (or_introl A)) as (_ & _ & F & I).
  split_and!; [reflexivity| |etrans; [apply prefix_take|exact Q1]|now apply validated_params_ok|exact F|now apply I].
  destruct (decide (n <= length slots)%nat) as [L|L].
  - apply (validatePrefix_mono slots n (length slots) L N1). now rewrite firstn_all.
  - rewrite take_ge by lia. exact Q2.
Qed.
Lemma core_plan_is_safe_witness :
  match corePlanWithRecovery (H := canonical_iter) (fun _ => false) (fun _ => true) [hourSlot 1] plainParams 0%nat with
  | (inl (plan, used), _) => used `prefix_of` [hourSlot 1]
  | _ => False
  end.
Proof.
  assert (Ok : match corePlanWithRecovery (H := canonical_iter) (fun _ => false) (fun _ => true) [hourSlot 1] plainParams 0%nat with
               | (inl _, _) => true | _ => false end = true) by (vm_compute; reflexivity).
  destruct (corePlanWithRecovery _ _ _ _ _) as [[[plan used]|e] k'] eqn:E; [|discriminate Ok].
  exact (proj1 (proj2 (proj2 (core_plan_is_safe (H := canonical_iter) (fun _ => false) (fun _ => true) [hourSlot 1] plainParams 0%nat k' plan used
    (Forall_nil_2 _) E)))).
Defined.

(** ** Properties: a plan while there is one *)
Section Progress.
Context `{MapIter} (ctxErr : nat -> bool) (p : Params) (slots : list Slot).
Context (Hc : forall k, ctxErr k = false).
Context (H1 : forall k, exists plan k', build ctxErr p slots 1 k = (inl plan, k')).

Lemma attempt_total {A : Type} (m : Polled A) k : exists o k', attempt m k = (inl o, k') /\ forall x k1, m k = (inl x, k1) -> o = Some x.
Proof.
  unfold attempt. destruct (m k) as [[x|e] k1]; eexists _, _; (split; [reflexivity|]); intros y k2 E; congruence.
Qed.
Lemma poll_ok k : poll ctxErr k = (inl tt, S k).
Proof. unfold poll. now rewrite Hc. Qed.
Lemma searchPlan_finds fuel : forall low high best k, (1 <= low)%nat -> (S high - low <= fuel)%nat ->
  (best <> None \/ low = 1 /\ 1 <= high)%nat -> exists x k', searchPlan ctxErr p slots fuel low high best k = (inl (Some x), k').
Proof.
  induction fuel as [|fuel IH]; intros low high best k L F B; cbn [searchPlan].
  { destruct B as [B|B]; [|lia]. destruct best as [x|]; [|congruence]. now exists x, k. }
  destruct (Nat.ltb_spec high low); [destruct B as [B|B]; [destruct best as [x|]; [now exists x, k|congruence]|lia]|].
  set (mid := (low + _)%nat). assert (M : (low <= mid <= high)%nat)
    by (unfold mid; pose proof (Nat.Div0.div_le_upper_bound (high - low) 2 (high - low)); lia). clearbody mid.
  destruct (attempt_total (build ctxErr p slots mid) k) as (c & k1 & C & T). unfold bind at 1. rewrite C. unfold bind. rewrite poll_ok.
  destruct c as [plan|]; [apply IH; [lia|lia|left; discriminate]|]. apply IH; [lia|lia|]. destruct B as [B|[-> B]]; [now left|right]. split; [reflexivity|].
  destruct (decide (mid = 1%nat)) as [->|]; [|lia]. exfalso. destruct (H1 k) as (plan & k2 & Q). discriminate (T _ _ Q).
Qed.
End Progress.

(** C19: one bad hour far ahead does not leave the site without a plan. When
    the inputs and parameters are valid, nobody cancels, and Core can build a
    reserve plan for just the first slot, then it returns a plan: the optimum,
    the full reserve, or the start of it that the search finds. *)
Theorem core_plan_survives `{MapIter} (ctxErr dpErr : nat -> bool) (input slots : list Slot) (cut : bool) (p : Params) (k : nat)
    (Hc : forall k, ctxErr k = false) (Hi : planningInputPrefix input = Some (slots, cut)) (Hn : slots <> [])
    (Hp : validatePlanningParams p = true) (Hd : coreDPModelError p = false)
    (H1 : forall k, exists plan k', build ctxErr p slots 1 k = (inl plan, k')) :
  exists plan used k', corePlanWithRecovery ctxErr dpErr input p k = (inl (plan, used), k').
Proof.
  unfold corePlanWithRecovery, bind at 1. rewrite (poll_ok ctxErr Hc). unfold bind at 1, orInfeasible at 1. rewrite Hi. unfold ret at 1.
  cbv zeta. cbn [fst]. rewrite Hp, Hd. assert (L : (1 <= length slots)%nat) by (destruct slots; [congruence|cbn; lia]).
  replace (length slots =? 0)%nat with false by (symmetry; apply Nat.eqb_neq; lia). cbn [orb negb].
  destruct (optimiserPlan dpErr p slots) as [plan|]; [now eexists _, _, _|]. unfold bind at 1.
  destruct (attempt_total (build ctxErr p slots (length slots)) (S k)) as (full & k1 & F & T). rewrite F.
  destruct full as [plan|]; [now eexists _, _, _|]. unfold bind at 1. rewrite (poll_ok ctxErr Hc). unfold bind at 1.
  destruct (decide (length slots = 1%nat)) as [E|E]; [exfalso; rewrite E in T; destruct (H1 (S k)) as (plan & k2 & Q); discriminate (T _ _ Q)|].
  destruct (searchPlan_finds ctxErr p slots Hc H1 (length slots) 1 (length slots - 1) None (S k1)) as ([plan n] & k2 & ->); [lia|lia|right; lia|].
  now eexists _, _, _.
Qed.
Lemma core_plan_survives_witness :
  exists plan used k', corePlanWithRecovery (H := canonical_iter) (fun _ => false) (fun _ => true) [hourSlot 1] plainParams 0%nat = (inl (plan, used), k').
Proof.
  apply (core_plan_survives (H := canonical_iter) (fun _ => false) (fun _ => true) [hourSlot 1] [hourSlot 1] false plainParams 0%nat);
    [reflexivity|vm_compute; reflexivity|discriminate|vm_compute; reflexivity|vm_compute; reflexivity|].
  intros k. assert (Ok : match build (H := canonical_iter) (fun _ => false) plainParams [hourSlot 1] 1 k with (inl _, _) => true | _ => false end = true)
    by (vm_compute; reflexivity).
  destruct (build _ _ _ _ _) as [[plan|e] k']; [now exists plan, k'|discriminate Ok].
Defined.
