(* ===== verification/LogRing.v ===== *)
(** * The ring of recent log lines (go/internal/telemetry/logring.go)

    One ring for everything and one per driver. The rings refine an abstract
    log: the list of all entries appended so far, of which only the newest
    are kept. [LogHandler] formats slog records and is not modelled. *)
From Stdlib Require Import ZArith Lia.
From S2P Require Import Prelude Float64 GoTime.
From stdpp Require Import base gmap strings list.

Record LogEntry : Type := mkEntry {
  TS : Time; Level : string; Msg : string; eDriver : string; Attrs : string
}.
Definition noEntry : LogEntry := mkEntry zeroTime "" "" "" "".

Definition ringPerDriver : nat := 500.
Definition ringGlobal : nat := 2000.

(** A buffer of fixed length, the next position and whether it wrapped. *)
Record driverRing : Type := mkRing { buf : list LogEntry; next : nat; filled : bool }.
Definition newRing (cap : nat) : driverRing := mkRing (replicate cap noEntry) 0 false.

Record LogRing : Type := mkLogRing { global : driverRing; ringOf : gmap string driverRing }.
Definition NewLogRing : LogRing := mkLogRing (newRing ringGlobal) ∅.

Definition push (e : LogEntry) (r : driverRing) : driverRing :=
  let buf' := <[next r := e]> (buf r) in
  let next' := S (next r) in
  if (next' =? length buf')%nat then mkRing buf' 0 true else mkRing buf' next' (filled r).

Definition Append (e : LogEntry) (r : LogRing) : LogRing :=
  let g := push e (global r) in
  if String.eqb (eDriver e) "" then mkLogRing g (ringOf r)
  else
    let dr := default (newRing ringPerDriver) (ringOf r !! eDriver e) in
    mkLogRing g (<[eDriver e := push e dr]> (ringOf r)).

Definition drain (r : driverRing) (limit : Z) : list LogEntry :=
  let out :=
    if filled r
    then (fun i => nth ((next r + i) mod length (buf r)) (buf r) noEntry) <$> seq 0 (length (buf r))
    else take (next r) (buf r) in
  if (0 <? limit)%Z && (limit <? Z.of_nat (length out))%Z then drop (length out - Z.to_nat limit) out else out.

Definition RecentByDriver (driver : string) (limit : Z) (r : LogRing) : list LogEntry :=
  if String.eqb driver "" then drain (global r) limit
  else match ringOf r !! driver with Some dr => drain dr limit | None => [] end.
Definition RecentGlobal (limit : Z) (r : LogRing) : list LogEntry := RecentByDriver "" limit r.
(** The names come in the order the code visits the map. *)
Definition Drivers (r : LogRing) : gset string := dom (ringOf r).

(** ** The abstract log *)
Definition lastN {A} (n : nat) (l : list A) : list A := drop (length l - n) l.
Definition limited {A} (limit : Z) (l : list A) : list A :=
  if (0 <? limit)%Z then lastN (Z.to_nat limit) l else l.
Definition ofDriver (driver : string) (log : list LogEntry) : list LogEntry :=
  List.filter (fun e => String.eqb (eDriver e) driver) log.
(** What the abstract log answers. *)
Definition specRecent (driver : string) (limit : Z) (log : list LogEntry) : list LogEntry :=
  if String.eqb driver "" then limited limit (lastN ringGlobal log)
  else limited limit (lastN ringPerDriver (ofDriver driver log)).

(** ** Lemmas *)

(** A ring holds the newest [cap] entries of a list. *)
Record holds (cap : nat) (l : list LogEntry) (r : driverRing) : Prop := {
  h_len : length (buf r) = cap;
  h_next : next r = length l mod cap;
  h_filled : filled r = (cap <=? length l)%nat;
  h_slots : forall j e, l !! j = Some e -> length l - cap <= j -> buf r !! (j mod cap) = Some e
}.

Lemma new_holds cap : 0 < cap -> holds cap [] (newRing cap).
Proof.
  intros Hc. split.
  - apply length_replicate.
  - cbn. symmetry. now apply Nat.mod_small.
  - cbn. symmetry. apply Nat.leb_gt. exact Hc.
  - intros j e E. now rewrite lookup_nil in E.
Qed.

Lemma mod_apart cap i j : 0 < cap -> i < j -> j < i + cap -> i mod cap <> j mod cap.
Proof.
  intros Hc Hij Hj E. pose proof (Nat.div_mod i cap ltac:(lia)). pose proof (Nat.div_mod j cap ltac:(lia)).
  assert (Q : i / cap = j / cap \/ S (i / cap) <= j / cap).
  { assert (i / cap <= j / cap) by (apply Nat.Div0.div_le_mono; lia). lia. }
  destruct Q as [Q|Q]; [rewrite Q in *; lia|]. pose proof (Nat.mul_le_mono_l _ _ cap Q). lia.
Qed.

Lemma succ_mod cap n : 0 < cap -> S n mod cap = if S (n mod cap) =? cap then 0 else S (n mod cap).
Proof.
  intros Hc. pose proof (Nat.mod_upper_bound n cap ltac:(lia)). pose proof (Nat.div_mod n cap ltac:(lia)) as D.
  destruct (Nat.eqb_spec (S (n mod cap)) cap) as [E|E].
  - symmetry. apply (Nat.mod_unique _ _ (S (n / cap))); [lia|]. nia.
  - symmetry. apply (Nat.mod_unique _ _ (n / cap)); [lia|]. nia.
Qed.

Lemma push_buf e r : buf (push e r) = <[next r := e]> (buf r).
Proof. unfold push. cbv zeta. case_match; reflexivity. Qed.

Lemma push_holds cap l e r : 0 < cap -> holds cap l r -> holds cap (l ++ [e]) (push e r).
Proof.
  intros Hc [Hl Hn Hf Hs]. pose proof (Nat.mod_upper_bound (length l) cap ltac:(lia)) as U.
  assert (Hlen : length (l ++ [e]) = S (length l)) by (rewrite length_app; cbn; lia).
  pose proof (succ_mod cap (length l) Hc) as S1.
  pose proof (push_buf e r) as Hbuf.
  split.
  - rewrite Hbuf, length_insert. exact Hl.
  - rewrite Hlen, S1. unfold push. cbv zeta. rewrite length_insert, Hl, Hn.
    destruct (S (length l mod cap) =? cap); reflexivity.
  - rewrite Hlen. unfold push. cbv zeta. rewrite length_insert, Hl, Hn.
    destruct (Nat.eqb_spec (S (length l mod cap)) cap) as [E|E]; cbn [filled].
    + symmetry. apply Nat.leb_le. pose proof (Nat.Div0.mod_le (length l) cap). lia.
    + rewrite Hf. apply eq_true_iff_eq. rewrite !Nat.leb_le. split; [lia|]. intros L.
      destruct (Nat.eq_dec cap (S (length l))) as [C|C]; [|lia].
      rewrite Nat.mod_small in E by lia. lia.
  - intros j e' E L. rewrite Hbuf, Hn. rewrite Hlen in L.
    assert (J : j < S (length l)) by (rewrite <- Hlen; now apply lookup_lt_Some in E).
    destruct (Nat.eq_dec j (length l)) as [->|D].
    + rewrite lookup_app_r in E by lia. rewrite Nat.sub_diag in E. cbn in E. injection E as <-.
      apply list_lookup_insert_eq. rewrite Hl. exact U.
    + rewrite lookup_app_l in E by lia. rewrite list_lookup_insert_ne.
      * apply Hs; [exact E|lia].
      * apply not_eq_sym, mod_apart; lia.
Qed.

Lemma lastN_lookup {A} n (l : list A) i : lastN n l !! i = l !! (length l - n + i).
Proof. apply lookup_drop. Qed.
Lemma lastN_length {A} n (l : list A) : length (lastN n l) = min n (length l).
Proof. unfold lastN. rewrite length_drop. lia. Qed.

Lemma limited_drop {A} limit (out : list A) :
  (if (0 <? limit)%Z && (limit <? Z.of_nat (length out))%Z then drop (length out - Z.to_nat limit) out else out) =
  limited limit out.
Proof.
  unfold limited, lastN. destruct (Z.ltb_spec 0 limit) as [P|P]; [|reflexivity]. cbn [andb].
  destruct (Z.ltb_spec limit (Z.of_nat (length out))) as [L|L]; [reflexivity|].
  replace (length out - Z.to_nat limit) with 0 by lia. reflexivity.
Qed.

(** Reading a ring back. *)
Lemma drain_holds cap l r limit : 0 < cap -> holds cap l r -> drain r limit = limited limit (lastN cap l).
Proof.
  intros Hc [Hl Hn Hf Hs]. unfold drain. cbv zeta. rewrite limited_drop. f_equal. rewrite Hl, Hf.
  destruct (Nat.leb_spec cap (length l)) as [L|L].
  - apply list_eq. intros i. rewrite list_lookup_fmap, lastN_lookup.
    destruct (decide (i < cap)) as [I|I].
    + rewrite lookup_seq_lt by exact I. cbn [fmap option_fmap option_map].
      destruct (lookup_lt_is_Some_2 l (length l - cap + i) ltac:(lia)) as [e E]. rewrite E. f_equal.
      rewrite nth_lookup. replace ((next r + (0 + i)) mod cap) with ((length l - cap + i) mod cap).
      * now rewrite (Hs _ _ E) by lia.
      * rewrite Hn. rewrite <- (Nat.Div0.mod_add (length l - cap + i) 1 cap).
        replace (length l - cap + i + 1 * cap) with (length l + i) by lia.
        rewrite Nat.add_0_l. now rewrite Nat.Div0.add_mod_idemp_l.
    + rewrite lookup_seq_ge by lia. symmetry. apply lookup_ge_None. lia.
  - rewrite Hn, Nat.mod_small by lia. unfold lastN. replace (length l - cap) with 0 by lia. rewrite drop_0.
    apply list_eq. intros i. destruct (decide (i < length l)) as [I|I].
    + rewrite lookup_take_lt by exact I. destruct (lookup_lt_is_Some_2 l i I) as [e E]. rewrite E.
      specialize (Hs i e E ltac:(lia)). now rewrite Nat.mod_small in Hs by lia.
    + rewrite lookup_take_ge by lia. symmetry. apply lookup_ge_None. lia.
Qed.

Lemma ofDriver_snoc d l e : ofDriver d (l ++ [e]) = ofDriver d l ++ (if String.eqb (eDriver e) d then [e] else []).
Proof. unfold ofDriver. rewrite List.filter_app. cbn. now destruct (String.eqb _ _). Qed.

(** The simulation: a ring represents the log of all entries. *)
Record represents (log : list LogEntry) (r : LogRing) : Prop := {
  rep_global : holds ringGlobal log (global r);
  rep_drivers : forall d, d <> ""%string -> match ringOf r !! d with
    | Some dr => holds ringPerDriver (ofDriver d log) dr
    | None => ofDriver d log = []
    end
}.

Lemma new_represents : represents [] NewLogRing.
Proof.
  split; [apply new_holds; unfold ringGlobal; lia|]. intros d _. cbn. now rewrite lookup_empty.
Qed.

Lemma append_represents log r e : represents log r -> represents (log ++ [e]) (Append e r).
Proof.
  intros [G D]. unfold Append. cbv zeta.
  assert (G' : holds ringGlobal (log ++ [e]) (push e (global r))) by (apply push_holds; [unfold ringGlobal; lia|exact G]).
  destruct (String.eqb (eDriver e) "") eqn:E; (split; [exact G'|]); intros d Hd; cbn [ringOf]; rewrite ofDriver_snoc.
  - apply String.eqb_eq in E. rewrite E. destruct (String.eqb "" d) eqn:E2.
    + apply String.eqb_eq in E2. congruence.
    + rewrite app_nil_r. exact (D d Hd).
  - apply String.eqb_neq in E. destruct (String.eqb (eDriver e) d) eqn:E2.
    + apply String.eqb_eq in E2. subst d. rewrite lookup_insert_eq. apply push_holds; [unfold ringPerDriver; lia|].
      specialize (D (eDriver e) Hd). destruct (ringOf r !! eDriver e) as [dr|]; cbn; [exact D|]. rewrite D.
      apply new_holds. unfold ringPerDriver. lia.
    + apply String.eqb_neq in E2. rewrite app_nil_r, lookup_insert_ne by exact E2. exact (D d Hd).
Qed.

(** ** Properties *)

(** C39: the log rings refine the log. After any sequence of entries, asking
    for the recent entries of a driver, or of everything, returns exactly the
    newest of that log's own entries in the order they were written: 500 of
    one driver, 2000 in all, and at most the limit asked for. A driver's name
    is listed exactly when it has written an entry. *)
Theorem log_ring_refines_log (entries : list LogEntry) :
  let r := fold_left (fun r e => Append e r) entries NewLogRing in
  (forall driver limit, RecentByDriver driver limit r = specRecent driver limit entries) /\
  (forall driver, driver ∈ Drivers r <-> driver <> ""%string /\ ofDriver driver entries <> []).
Proof.
  cbv zeta.
  assert (R : represents entries (fold_left (fun r e => Append e r) entries NewLogRing) /\
    ringOf (fold_left (fun r e => Append e r) entries NewLogRing) !! ""%string = None /\
    forall d dr, ringOf (fold_left (fun r e => Append e r) entries NewLogRing) !! d = Some dr -> ofDriver d entries <> []).
  { induction entries as [|e l IH] using rev_ind; [split_and!; [apply new_represents|reflexivity|]; intros d dr; cbn; now rewrite lookup_empty|].
    rewrite fold_left_app. cbn [fold_left]. destruct IH as (R & N & K). split_and!; [now apply append_represents| |].
    - unfold Append. cbv zeta. destruct (String.eqb (eDriver e) "") eqn:E; [exact N|]. apply String.eqb_neq in E.
      cbn [ringOf]. now rewrite lookup_insert_ne.
    - intros d dr. rewrite ofDriver_snoc. unfold Append. cbv zeta. destruct (String.eqb (eDriver e) "") eqn:E; cbn [ringOf].
      + intros L. specialize (K d dr L). now destruct (ofDriver d l).
      + destruct (String.eqb_spec (eDriver e) d) as [->|D].
        * intros _. now destruct (ofDriver d l).
        * rewrite lookup_insert_ne by exact D. intros L. rewrite app_nil_r. exact (K d dr L). }
  destruct R as ([G D] & N & K). set (r := fold_left _ entries NewLogRing) in *. clearbody r. split.
  - intros driver limit. unfold RecentByDriver, specRecent. destruct (String.eqb_spec driver "") as [->|E].
    + apply drain_holds; [unfold ringGlobal; lia|exact G].
    + specialize (D driver E). destruct (ringOf r !! driver) as [dr|].
      * apply drain_holds; [unfold ringPerDriver; lia|exact D].
      * rewrite D. unfold limited, lastN. now destruct (0 <? limit)%Z.
  - intros driver. unfold Drivers. rewrite elem_of_dom. split.
    + intros [dr L]. split; [intros ->; congruence|exact (K _ _ L)].
    + intros [E P]. specialize (D driver E). destruct (ringOf r !! driver) as [dr|]; [eauto|congruence].
Qed.
