(* ===== verification/BinaryHttp.v ===== *)
(** * Known-length Binary HTTP (go/protocol/ohttp/bhttp.go)

    The request and response a device sends through the relay, as bytes. The
    decoder keeps the first error and returns nothing usable after it, so it
    is a parser that may fail; the parse results are the same. A string is its
    bytes. *)
From Stdlib Require Import ZArith Lia.
From S2P Require Import Prelude.
From stdpp Require Import base numbers list.
#[local] Open Scope Z_scope.

Definition bytes : Type := list Z.
Definition byte_ok (b : Z) : Prop := 0 <= b < 256.

Record Field : Type := mkField { Name : bytes; Value : bytes }.
Record Request : Type := mkRequest {
  Method : bytes; Scheme : bytes; Authority : bytes; Path : bytes; rqFields : list Field; rqContent : bytes
}.
Record Response : Type := mkResp { Status : Z; rsFields : list Field; rsContent : bytes }.

Definition knownRequest : Z := 0.
Definition knownResponse : Z := 1.

(** ** Writing *)

(** [binary.BigEndian.AppendUint16/32/64]. *)
Fixpoint bigEndian (n : nat) (v : Z) : bytes :=
  match n with
  | O => []
  | S n' => Z.shiftr v (8 * Z.of_nat n') mod 256 :: bigEndian n' v
  end.

Definition appendVarint (b : bytes) (v : Z) : bytes :=
  if v <? 2 ^ 6 then b ++ [v mod 256]
  else if v <? 2 ^ 14 then b ++ bigEndian 2 (Z.lor (v mod 2 ^ 16) 0x4000)
  else if v <? 2 ^ 30 then b ++ bigEndian 4 (Z.lor (v mod 2 ^ 32) 0x80000000)
  else b ++ bigEndian 8 (Z.lor v 0xc000000000000000).

Definition len (b : bytes) : Z := Z.of_nat (length b).
Definition appendBytes (b v : bytes) : bytes := appendVarint b (len v) ++ v.

Definition appendFields (b : bytes) (fields : list Field) : bytes :=
  appendBytes b (fold_left (fun lines f => appendBytes (appendBytes lines (Name f)) (Value f)) fields []).

Definition pad (b : bytes) (size : Z) : bytes :=
  if len b <? size then b ++ replicate (Z.to_nat (size - len b)) 0 else b.

Definition MarshalRequest (r : Request) (size : Z) : bytes :=
  let b := appendVarint [] knownRequest in
  let b := fold_left appendBytes [Method r; Scheme r; Authority r; Path r] b in
  let b := appendFields b (rqFields r) in
  let b := appendBytes b (rqContent r) in
  pad (appendVarint b 0) size.

(** [uint64(r.Status)]. *)
Definition MarshalResponse (r : Response) (size : Z) : bytes :=
  let b := appendVarint [] knownResponse in
  let b := appendVarint b (Status r mod 2 ^ 64) in
  let b := appendFields b (rsFields r) in
  let b := appendBytes b (rsContent r) in
  pad (appendVarint b 0) size.

(** ** Reading *)
Definition parser (A : Type) : Type := bytes -> option (A * bytes).
Definition pbind {A B} (p : parser A) (f : A -> parser B) : parser B :=
  fun b => match p b with Some (a, rest) => f a rest | None => None end.
#[local] Notation "x <~ p ;; q" := (pbind p (fun x => q)) (at level 100, p at next level, right associativity).

(** [1 << (b[0] >> 6)] bytes; the top two bits of the first give the length. *)
Definition varint : parser Z := fun b =>
  match b with
  | [] => None
  | b0 :: _ =>
      let n := Z.to_nat (Z.shiftl 1 (Z.shiftr b0 6)) in
      if (length b <? n)%nat then None
      else
        Some (fold_left (fun v c => Z.lor (Z.shiftl v 8 mod 2 ^ 64) c) (drop 1 (take n b)) (Z.land b0 0x3f),
              drop n b)
  end.

Definition takeBytes (n : Z) : parser bytes := fun b =>
  if len b <? n then None else Some (take (Z.to_nat n) b, drop (Z.to_nat n) b).
Definition dbytes : parser bytes := n <~ varint ;; takeBytes n.

(** A part a truncated message leaves out. *)
Definition optional : parser bytes := fun b => match b with [] => Some ([], []) | _ => dbytes b end.

Definition dline : parser Field := name <~ dbytes ;; value <~ dbytes ;; fun b => Some (mkField name value, b).

(** The lines of one section. Every line takes at least two bytes, so the
    section's length bounds the loop. *)
Fixpoint lines (fuel : nat) (section : bytes) : option (list Field) :=
  match section with
  | [] => Some []
  | _ =>
      match fuel with
      | O => None
      | S fuel' =>
          match dline section with
          | None => None
          | Some (f, rest) =>
              if (length (Name f) =? 0)%nat then None
              else match lines fuel' rest with Some fs => Some (f :: fs) | None => None end
          end
      end
  end.
Definition fields : parser (list Field) := fun b =>
  match optional b with
  | None => None
  | Some (section, rest) =>
      match lines (length section) section with Some fs => Some (fs, rest) | None => None end
  end.

(** Nothing but zeros after the trailers, and no trailers. *)
Definition padding (b : bytes) : bool := forallb (fun c => c =? 0) b.
Definition ending {A} (a : A) : parser A :=
  trailers <~ fields ;;
  fun b => if negb (length trailers =? 0)%nat || negb (padding b) then None else Some (a, b).

Definition ParseRequest (b : bytes) : option Request :=
  fst <$> (k <~ varint ;;
   fun b => if negb (k =? knownRequest) then None
   else (method <~ dbytes ;; scheme <~ dbytes ;; authority <~ dbytes ;; path <~ dbytes ;;
         fs <~ fields ;; content <~ optional ;;
         ending (mkRequest method scheme authority path fs content)) b) b.

Definition ParseResponse (b : bytes) : option Response :=
  fst <$> (k <~ varint ;;
   fun b => if negb (k =? knownResponse) then None
   else (status <~ varint ;;
         fun b => if (status <? 200) || (599 <? status) then None
         else (fs <~ fields ;; content <~ optional ;; ending (mkResp status fs content)) b) b) b.

(** ** Lemmas: integers *)
Lemma testbit_above a m i : 0 <= m <= i -> 0 <= a < 2 ^ m -> Z.testbit a i = false.
Proof. intros Hi Ha. rewrite <- (Z.mod_small a (2 ^ m)) by exact Ha. now apply Z.mod_pow2_bits_high. Qed.

Lemma lor_add a b m : 0 <= m -> 0 <= a < 2 ^ m -> Z.lor (b * 2 ^ m) a = b * 2 ^ m + a.
Proof.
  intros Hm Ha. symmetry. rewrite Z.add_nocarry_lxor.
  - apply Z.bits_inj'. intros i Hi. rewrite Z.lxor_spec, Z.lor_spec. destruct (Z.ltb_spec i m) as [L|L].
    + rewrite Z.mul_pow2_bits_low by exact L. now destruct (Z.testbit a i).
    + rewrite (testbit_above a m i) by (auto; lia). now rewrite xorb_false_r, orb_false_r.
  - apply Z.bits_inj'. intros i Hi. rewrite Z.land_spec, Z.bits_0. destruct (Z.ltb_spec i m) as [L|L].
    + now rewrite Z.mul_pow2_bits_low by exact L.
    + rewrite (testbit_above a m i) by (auto; lia). apply andb_false_r.
Qed.

Definition readStep (v c : Z) : Z := Z.lor (Z.shiftl v 8 mod 2 ^ 64) c.

Lemma readStep_add v c : 0 <= v < 2 ^ 56 -> byte_ok c -> readStep v c = v * 256 + c.
Proof.
  intros Hv Hc. unfold readStep. rewrite Z.shiftl_mul_pow2 by lia.
  rewrite Z.mod_small by (change (2 ^ 8) with 256; lia). apply (lor_add c v 8); [lia|exact Hc].
Qed.

Lemma bigEndian_length n v : length (bigEndian n v) = n.
Proof. induction n as [|n IH]; cbn; [reflexivity|now rewrite IH]. Qed.

(** Reading big-endian bytes after a prefix [v0]. *)
Lemma read_bigEndian n : forall v v0, 0 <= v0 -> v0 + 1 <= 2 ^ (64 - 8 * Z.of_nat n) -> Z.of_nat n <= 8 ->
  fold_left readStep (bigEndian n v) v0 = v0 * 2 ^ (8 * Z.of_nat n) + v mod 2 ^ (8 * Z.of_nat n).
Proof.
  induction n as [|n IH]; intros v v0 H0 Hb Hn.
  - cbn [bigEndian fold_left]. change (8 * Z.of_nat 0) with 0. rewrite Z.pow_0_r, Z.mod_1_r. lia.
  - rewrite Nat2Z.inj_succ in *. cbn [bigEndian fold_left]. set (m := 8 * Z.of_nat n) in *.
    set (c := Z.shiftr v m mod 256). assert (Hc : byte_ok c) by (unfold c, byte_ok; apply Z.mod_pos_bound; lia).
    assert (E8 : 2 ^ (64 - 8 * Z.succ (Z.of_nat n)) * 256 = 2 ^ (64 - m)).
    { change 256 with (2 ^ 8). rewrite <- Z.pow_add_r by lia. f_equal. lia. }
    assert (Hv : v0 < 2 ^ 56).
    { assert (2 ^ (64 - 8 * Z.succ (Z.of_nat n)) <= 2 ^ 56) by (apply Z.pow_le_mono_r; lia). lia. }
    rewrite readStep_add by (auto; lia). unfold byte_ok in Hc.
    rewrite IH by lia.
    replace (8 * Z.succ (Z.of_nat n)) with (m + 8) by lia. rewrite Z.pow_add_r by lia.
    change (2 ^ 8) with 256. rewrite Z.rem_mul_r by (try apply Z.pow_nonzero; try lia).
    unfold c. rewrite Z.shiftr_div_pow2 by lia. lia.
Qed.

(** ** Lemmas: the length-prefixed integer *)
Lemma varint_bigEndian k a n rest : 0 <= k <= 3 -> Z.of_nat n = 2 ^ k ->
  0 <= a < 2 ^ (8 * Z.of_nat n - 2) ->
  varint (bigEndian n (k * 2 ^ (8 * Z.of_nat n - 2) + a) ++ rest) = Some (a, rest).
Proof.
  intros Hk Hn Ha. destruct n as [|m]; [exfalso; assert (0 < 2 ^ k) by (apply Z.pow_pos_nonneg; lia); lia|].
  set (P := 2 ^ (8 * Z.of_nat m)).
  assert (HP : 0 < P) by (apply Z.pow_pos_nonneg; lia).
  assert (E2 : 2 ^ (8 * Z.of_nat (S m) - 2) = 64 * P).
  { unfold P. change 64 with (2 ^ 6). rewrite <- Z.pow_add_r by lia. f_equal. lia. }
  assert (Hm : Z.of_nat m <= 7).
  { assert (2 ^ k <= 2 ^ 3) by (apply Z.pow_le_mono_r; lia). lia. }
  rewrite E2 in *. set (w := k * (64 * P) + a).
  assert (Hq : 0 <= a / P < 64) by (split; [apply Z.div_pos; lia|apply Z.div_lt_upper_bound; lia]).
  assert (W : w / P = k * 64 + a / P).
  { unfold w. replace (k * (64 * P) + a) with (k * 64 * P + a) by lia. now rewrite Z.div_add_l by lia. }
  assert (B0 : Z.shiftr w (8 * Z.of_nat m) mod 256 = k * 64 + a / P).
  { rewrite Z.shiftr_div_pow2 by lia. fold P. rewrite W. apply Z.mod_small. lia. }
  assert (Wm : w mod P = a mod P).
  { unfold w. replace (k * (64 * P) + a) with (a + k * 64 * P) by lia. now rewrite Z.mod_add by lia. }
  assert (Top : Z.shiftr (k * 64 + a / P) 6 = k).
  { rewrite Z.shiftr_div_pow2 by lia. change (2 ^ 6) with 64. rewrite Z.div_add_l by lia. rewrite Z.div_small by lia. lia. }
  assert (Low : Z.land (k * 64 + a / P) 0x3f = a / P).
  { change 0x3f with (Z.ones 6). rewrite Z.land_ones by lia. change (2 ^ 6) with 64.
    rewrite Z.add_comm, Z.mod_add by lia. apply Z.mod_small. lia. }
  cbn [bigEndian app]. rewrite B0. unfold varint. rewrite Top.
  replace (Z.to_nat (Z.shiftl 1 k)) with (S m) by (rewrite Z.shiftl_1_l; lia).
  replace (length _ <? S m)%nat with false
    by (symmetry; apply Nat.ltb_ge; cbn [length]; rewrite length_app, bigEndian_length; lia).
  cbn [take drop]. rewrite take_app_length' by (now rewrite bigEndian_length).
  rewrite drop_app_length' by (now rewrite bigEndian_length). f_equal. f_equal. rewrite drop_0, Low.
  change (fold_left readStep (bigEndian m w) (a / P) = a).
  rewrite read_bigEndian; [|lia| |lia].
  - fold P. rewrite Wm. rewrite Z.mul_comm. symmetry. apply Z.div_mod. lia.
  - assert (2 ^ 8 <= 2 ^ (64 - 8 * Z.of_nat m)) by (apply Z.pow_le_mono_r; lia). lia.
Qed.

Lemma appendVarint_app b v : appendVarint b v = b ++ appendVarint [] v.
Proof. unfold appendVarint. repeat case_match; reflexivity. Qed.

Lemma varint_roundtrip v rest : 0 <= v < 2 ^ 62 -> varint (appendVarint [] v ++ rest) = Some (v, rest).
Proof.
  intros Hv. unfold appendVarint. cbn [app].
  destruct (Z.ltb_spec v (2 ^ 6)) as [L|L].
  - replace [v mod 256] with (bigEndian 1 (0 * 2 ^ 6 + v)) by (cbn; now rewrite Z.shiftr_0_r).
    apply (varint_bigEndian 0 v 1); cbn; lia.
  - destruct (Z.ltb_spec v (2 ^ 14)) as [L2|L2].
    + rewrite Z.mod_small by lia. rewrite Z.lor_comm. change 0x4000 with (1 * 2 ^ 14).
      rewrite lor_add by lia. apply (varint_bigEndian 1 v 2); cbn; lia.
    + destruct (Z.ltb_spec v (2 ^ 30)) as [L3|L3].
      * rewrite Z.mod_small by lia. rewrite Z.lor_comm. change 0x80000000 with (2 * 2 ^ 30).
        rewrite lor_add by lia. apply (varint_bigEndian 2 v 4); cbn; lia.
      * rewrite Z.lor_comm. change 0xc000000000000000 with (3 * 2 ^ 62).
        rewrite lor_add by lia. apply (varint_bigEndian 3 v 8); cbn; lia.
Qed.

(** ** Lemmas: length-prefixed bytes and sections *)
Definition encBytes (v : bytes) : bytes := appendVarint [] (len v) ++ v.
Definition short (v : bytes) : Prop := len v < 2 ^ 62.

Lemma appendBytes_enc b v : appendBytes b v = b ++ encBytes v.
Proof. unfold appendBytes, encBytes. rewrite (appendVarint_app b). now rewrite app_assoc. Qed.

Lemma dbytes_roundtrip v rest : short v -> dbytes (encBytes v ++ rest) = Some (v, rest).
Proof.
  intros H. unfold dbytes, encBytes, pbind. rewrite <- app_assoc.
  rewrite varint_roundtrip by (unfold short, len in *; lia). unfold takeBytes, len.
  replace (Z.of_nat (length (v ++ rest)) <? Z.of_nat (length v)) with false
    by (symmetry; apply Z.ltb_ge; rewrite length_app; lia).
  rewrite Nat2Z.id, take_app_length, drop_app_length. reflexivity.
Qed.

Lemma encBytes_nonempty v : encBytes v <> [].
Proof.
  unfold encBytes, appendVarint. repeat case_match; try discriminate.
Qed.
Lemma encBytes_length v : (1 <= length (encBytes v))%nat.
Proof. pose proof (encBytes_nonempty v). destruct (encBytes v); [congruence|cbn; lia]. Qed.

Lemma optional_roundtrip v rest : short v -> optional (encBytes v ++ rest) = Some (v, rest).
Proof.
  intros H. pose proof (dbytes_roundtrip v rest H) as D. unfold optional.
  destruct (encBytes v ++ rest) as [|c l] eqn:E; [|exact D].
  apply app_eq_nil in E as [E _]. destruct (encBytes_nonempty v E).
Qed.

Definition encField (f : Field) : bytes := encBytes (Name f) ++ encBytes (Value f).
Definition encLines (fs : list Field) : bytes := fs ≫= encField.

Lemma fold_encLines fs b :
  fold_left (fun lines f => appendBytes (appendBytes lines (Name f)) (Value f)) fs b = b ++ encLines fs.
Proof.
  revert b. induction fs as [|f fs IH]; intros b; [cbn; now rewrite app_nil_r|]. cbn [fold_left].
  rewrite IH, !appendBytes_enc. unfold encLines. cbn. unfold encField. now rewrite <- !app_assoc.
Qed.

Definition field_ok (f : Field) : Prop := Name f <> [] /\ short (Name f) /\ short (Value f).

Lemma encLines_cons f fs : encLines (f :: fs) = encField f ++ encLines fs.
Proof. reflexivity. Qed.
Lemma dline_roundtrip f rest : field_ok f -> dline (encField f ++ rest) = Some (f, rest).
Proof.
  intros (_ & Sn & Sv). unfold dline, pbind, encField. rewrite <- app_assoc, dbytes_roundtrip by exact Sn.
  rewrite dbytes_roundtrip by exact Sv. now destruct f.
Qed.
Lemma encField_length f : (2 <= length (encField f))%nat.
Proof.
  unfold encField. rewrite length_app. pose proof (encBytes_length (Name f)). pose proof (encBytes_length (Value f)). lia.
Qed.

Lemma lines_roundtrip fs : Forall field_ok fs -> forall fuel, (length (encLines fs) <= fuel)%nat ->
  lines fuel (encLines fs) = Some fs.
Proof.
  induction 1 as [|f fs Hf _ IH]; intros fuel Hfuel; [now destruct fuel|].
  rewrite encLines_cons in *. rewrite length_app in Hfuel. pose proof (encField_length f).
  destruct fuel as [|fuel]; [lia|]. pose proof (dline_roundtrip f (encLines fs) Hf) as P.
  destruct (encField f ++ encLines fs) as [|c l] eqn:E.
  { apply app_eq_nil in E as [E _]. rewrite E in *. cbn in *. lia. }
  cbn [lines]. rewrite P. destruct Hf as (Nn & _).
  replace (length (Name f) =? 0)%nat with false by (destruct (Name f); [congruence|reflexivity]).
  rewrite IH by lia. reflexivity.
Qed.

Lemma fields_roundtrip fs rest : Forall field_ok fs -> short (encLines fs) ->
  fields (encBytes (encLines fs) ++ rest) = Some (fs, rest).
Proof. intros F S. unfold fields. rewrite optional_roundtrip by exact S. now rewrite lines_roundtrip by auto. Qed.

Lemma padding_zeros n : padding (replicate n 0) = true.
Proof. induction n as [|n IH]; [reflexivity|exact IH]. Qed.
Lemma ending_zeros {A} (a : A) n : exists rest, ending a (0 :: replicate n 0) = Some (a, rest).
Proof.
  exists (replicate n 0). unfold ending, pbind. pose proof (fields_roundtrip [] (replicate n 0) ltac:(constructor) ltac:(vm_compute; reflexivity)) as F.
  change (encBytes (encLines []) ++ replicate n 0) with (0 :: replicate n 0) in F. rewrite F. cbn [length Nat.eqb negb orb].
  now rewrite padding_zeros.
Qed.

Lemma pad_zeros b size : exists n, pad b size = b ++ replicate n 0.
Proof.
  unfold pad. destruct (_ <? _); [eauto|]. exists 0%nat. now rewrite app_nil_r.
Qed.

(** A section and the parts around it, as [Marshal] writes them. *)
Lemma tail_parsed {A} (mk : list Field -> bytes -> A) fs content size b0 :
  Forall field_ok fs -> short (encLines fs) -> short content ->
  exists tail rest, pad (appendVarint (appendBytes (appendFields b0 fs) content) 0) size = b0 ++ tail /\
    (gs <~ fields ;; c <~ optional ;; ending (mk gs c)) tail = Some (mk fs content, rest).
Proof.
  intros F S C. unfold appendFields. rewrite fold_encLines, !appendBytes_enc, appendVarint_app. cbn [app].
  destruct (pad_zeros (((b0 ++ encBytes (encLines fs)) ++ encBytes content) ++ appendVarint [] 0) size) as [n ->].
  destruct (ending_zeros (mk fs content) n) as [rest E].
  exists (encBytes (encLines fs) ++ encBytes content ++ 0 :: replicate n 0), rest. split.
  - rewrite <- !app_assoc. reflexivity.
  - unfold pbind. rewrite fields_roundtrip by assumption. rewrite optional_roundtrip by exact C. exact E.
Qed.

Definition request_ok (r : Request) : Prop :=
  short (Method r) /\ short (Scheme r) /\ short (Authority r) /\ short (Path r) /\
  Forall field_ok (rqFields r) /\ short (encLines (rqFields r)) /\ short (rqContent r).
Definition response_ok (r : Response) : Prop :=
  200 <= Status r <= 599 /\ Forall field_ok (rsFields r) /\ short (encLines (rsFields r)) /\ short (rsContent r).

(** A part longer than the message is an error, and no line has an empty name. *)
Lemma lines_names fuel : forall section fs, lines fuel section = Some fs -> Forall (fun f => Name f <> []) fs.
Proof.
  induction fuel as [|fuel IH]; intros section fs; [destruct section; [intros [= <-]; constructor|discriminate]|].
  destruct section as [|c l]; [intros [= <-]; constructor|]. cbn [lines].
  destruct (dline (c :: l)) as [[f rest]|]; [|discriminate].
  destruct (Name f) as [|x xs] eqn:E; [discriminate|]. cbn [length Nat.eqb].
  destruct (lines fuel rest) as [gs|] eqn:L; [|discriminate]. intros [= <-]. constructor; [congruence|exact (IH _ _ L)].
Qed.
Lemma fields_names b fs rest : fields b = Some (fs, rest) -> Forall (fun f => Name f <> []) fs.
Proof.
  unfold fields. destruct (optional b) as [[section r]|]; [|discriminate].
  destruct (lines _ section) as [gs|] eqn:L; [|discriminate]. intros [= <- _]. exact (lines_names _ _ _ L).
Qed.

(** ** Properties *)

(** C40: what a device sends through the relay is what arrives. A request or a
    response written with any padding parses back to itself, byte for byte,
    when its header names are not empty and its status is a final one; and
    whatever bytes come in, an accepted request has no header without a name
    and an accepted response a status from 200 to 599. *)
Theorem binary_http_roundtrip (size : Z) :
  (forall r, request_ok r -> ParseRequest (MarshalRequest r size) = Some r) /\
  (forall r, response_ok r -> ParseResponse (MarshalResponse r size) = Some r) /\
  (forall b r, ParseRequest b = Some r -> Forall (fun f => Name f <> []) (rqFields r)) /\
  (forall b r, ParseResponse b = Some r -> 200 <= Status r <= 599 /\ Forall (fun f => Name f <> []) (rsFields r)).
Proof.
  split_and!.
  - intros r (Sm & Ss & Sa & Sp & F & S & C). unfold MarshalRequest, ParseRequest. cbn [fold_left].
    rewrite !appendBytes_enc.
    set (b0 := (((appendVarint [] knownRequest ++ encBytes (Method r)) ++ encBytes (Scheme r)) ++
                encBytes (Authority r)) ++ encBytes (Path r)).
    rewrite <- appendBytes_enc.
    destruct (tail_parsed (mkRequest (Method r) (Scheme r) (Authority r) (Path r)) (rqFields r) (rqContent r)
      size b0 F S C) as (tail & rest & -> & P).
    unfold b0. rewrite <- !app_assoc. unfold pbind at 1. rewrite varint_roundtrip by (unfold knownRequest; lia).
    cbn [negb Z.eqb knownRequest]. unfold pbind at 1. rewrite dbytes_roundtrip by exact Sm.
    unfold pbind at 1. rewrite dbytes_roundtrip by exact Ss. unfold pbind at 1. rewrite dbytes_roundtrip by exact Sa.
    unfold pbind at 1. rewrite dbytes_roundtrip by exact Sp. rewrite P. now destruct r.
  - intros r (St & F & S & C). unfold MarshalResponse, ParseResponse.
    rewrite (appendVarint_app (appendVarint [] knownResponse)).
    set (b0 := appendVarint [] knownResponse ++ appendVarint [] (Status r mod 2 ^ 64)).
    destruct (tail_parsed (mkResp (Status r)) (rsFields r) (rsContent r) size b0 F S C) as (tail & rest & -> & P).
    unfold b0. rewrite <- !app_assoc. unfold pbind at 1. rewrite varint_roundtrip by (unfold knownResponse; lia).
    cbn [negb Z.eqb knownResponse Pos.eqb]. unfold pbind at 1. rewrite Z.mod_small by lia.
    rewrite varint_roundtrip by lia. replace ((Status r <? 200) || (599 <? Status r)) with false by lia.
    rewrite P. now destruct r.
  - intros b r. unfold ParseRequest, pbind. destruct (varint b) as [[k b1]|]; [|discriminate].
    destruct (negb _); [discriminate|]. destruct (dbytes b1) as [[me b2]|]; [|discriminate].
    destruct (dbytes b2) as [[sc b3]|]; [|discriminate]. destruct (dbytes b3) as [[au b4]|]; [|discriminate].
    destruct (dbytes b4) as [[pa b5]|]; [|discriminate].
    destruct (fields _) as [[fs b6]|] eqn:E; [|discriminate]. destruct (optional b6) as [[c b7]|]; [|discriminate].
    unfold ending, pbind. destruct (fields b7) as [[tr b8]|]; [|discriminate].
    destruct (_ || _); [discriminate|]. cbn. intros [= <-]. exact (fields_names _ _ _ E).
  - intros b r. unfold ParseResponse, pbind. destruct (varint b) as [[k b1]|]; [|discriminate].
    destruct (negb _); [discriminate|]. destruct (varint b1) as [[st b2]|]; [|discriminate].
    destruct ((st <? 200) || (599 <? st)) eqn:Est; [discriminate|].
    destruct (fields _) as [[fs b6]|] eqn:E; [|discriminate]. destruct (optional b6) as [[c b7]|]; [|discriminate].
    unfold ending, pbind. destruct (fields b7) as [[tr b8]|]; [|discriminate].
    destruct (negb _ || _); [discriminate|]. intros Er; cbn in Er; injection Er as <-. cbn. split; [lia|exact (fields_names _ _ _ E)].
Qed.


(** A GET with one header, padded to 64 bytes. *)
Definition demo_request : Request :=
  mkRequest [71; 69; 84] [104; 116; 116; 112; 115] [101; 120] [47; 97] [mkField [97] [98; 99]] [1; 2; 3].

Lemma binary_http_roundtrip_witness :
  request_ok demo_request /\ length (MarshalRequest demo_request 64) = 64%nat /\
  ParseRequest (MarshalRequest demo_request 64) = Some demo_request.
Proof.
  assert (request_ok demo_request) as Hok.
  { unfold request_ok. do 4 (split; [reflexivity|]). split; [|split; reflexivity].
    apply Forall_singleton. split; [discriminate|split; reflexivity]. }
  split; [exact Hok|]. split; [vm_compute; reflexivity|].
  exact (proj1 (binary_http_roundtrip 64) demo_request Hok).
Defined.
